(* ===== verification/_CoqProject ===== *)
-Q . S2P
Prelude.v
PyStr.v
PyDict.v
Json.v
JsonStrict.v
JsonPointer.v
PyUuid.v
CanonicalHash.v
Domain.v
SchemaExample.v
LoopRuntime.v
Completion.v
Kahn.v
DagValidate.v
DagLoops.v
DagSchedule.v
BindingResolver.v
PredicateEvaluator.v
Rows.v
Cancellation.v
CancelSound.v
PolicySelection.v
RetryDecision.v
LoopReconcile.v
LoopReconcileSound.v
ToolLineage.v
Claim.v
Preflight.v
Authorization.v
ApprovalContext.v
Outbox.v
OutboxSound.v
ApprovalEvidence.v
Approval.v
ApprovalSound.v
ApprovalResume.v
ApprovalEvidenceSound.v
Transaction.v
Recovery.v
RecoverySound.v
WorkflowRecovery.v
WorkflowRecoverySound.v
ResultValidator.v
SecretRedaction.v
MrtrWait.v
ToolAttempt.v
ToolRunner.v
ToolPrepare.v
ToolFinalize.v
ToolPrepareSound.v
ToolRunSound.v
ToolInvariant.v
ToolFinalizeSound.v
Orchestrator.v
OrchestratorLocal.v
OrchestratorWave.v
OrchestratorSound.v
OrchestratorWaveSound.v
OrchestratorRunSound.v
StaticValidator.v
StaticSound.v
Samples.v
Witnesses.v
RecoveryWitnesses.v
ServiceWitnesses.v
