(* ===== verification/Prelude.v ===== *)
(** * MCPFlow: verification of the execution core

    MCPFlow runs execution plans: graphs of steps that call remote MCP tools,
    wait for approvals and for user input, branch and loop.  The backend
    (src/backend/app, Python, asyncio, SQLAlchemy on PostgreSQL) keeps every
    decision in rows and is driven by messages, so each operation is a
    transaction under row locks.  This development models those operations as
    functions of the rows, and proves what the rows guarantee.

    ** How the program fits together

    A plan is validated statically when it is made (StaticValidator.v).  An
    execution of it is CREATED, staged behind an outbox row and QUEUED
    (Outbox.v); the relay publishes the row, and a worker claims the execution
    under a lease (Claim.v).  The orchestrator then runs it wave by wave
    (OrchestratorWave.v): it validates the graph against the
    rows (DagValidate.v), runs the steps that call nobody to a fixed point
    (OrchestratorLocal.v, Orchestrator.v) with what may start
    (DagSchedule.v, LoopReconcile.v), conditions and bindings
    (PredicateEvaluator.v, BindingResolver.v), reserves the tools that may
    start and hands each to the tool runner: phase A starts an attempt, or a
    wait for approval, and records the call (ToolAttempt.v, ToolPrepare.v);
    phase B resolves the secrets and passes the last gate before the send,
    phase C settles the reply (ToolFinalize.v, ToolRunner.v); the loop around
    them is in ToolFinalize.v too.  A wait for approval is decided by users (Approval.v)
    and resumed by a message (ApprovalResume.v).  A user cancels at any moment
    (Cancellation.v); a worker that dies is replaced (Recovery.v,
    WorkflowRecovery.v); the statuses of the steps decide how
    the execution ends (Completion.v).

    ** Files

    Shared: this prelude (errors, the error monad, lists, the automation),
    PyStr.v, PyDict.v, Json.v, PyUuid.v (Python strings,
    dictionaries, JSON values, uuids), CanonicalHash.v (UTF-8, json.dumps,
    SHA-256, executable), Domain.v (enums, plan models, execution and step
    rows), Rows.v (the store: all rows of one execution, its queries and its
    event writer), SchemaExample.v (a concrete plan decoder).

    Plans and data: JsonStrict.v and PredicateEvaluator.v
    (execution/predicate_evaluator.py), JsonPointer.v (json_pointer.py),
    BindingResolver.v (binding_resolver.py), LoopRuntime.v
    (loop_runtime.py), Completion.v (completion.py), Kahn.v, DagValidate.v,
    DagLoops.v and DagSchedule.v (dag.py), StaticValidator.v and StaticSound.v
    (agent/complex_plan_validator.py).

    Life of an execution: PolicySelection.v (plan, schedule and
    policy lineage), Outbox.v and OutboxSound.v (queue.py,
    repositories/outbox.py), Claim.v (claim.py), LoopReconcile.v and
    LoopReconcileSound.v (loop_reconcile.py), ToolLineage.v (lineage.py),
    Cancellation.v and CancelSound.v (cancellation.py), RetryDecision.v
    (retry_decision.py), Recovery.v and RecoverySound.v (recovery.py),
    WorkflowRecovery.v and WorkflowRecoverySound.v (loop_recovery.py,
    workflow_dag_recovery.py).

    The orchestrator (orchestrator.py): Transaction.v (the monad of its
    transactions, with a small logic for them), Orchestrator.v (ends, gates and
    LOOP steps), OrchestratorLocal.v, OrchestratorWave.v (waves and run); the
    theorems in OrchestratorSound.v, OrchestratorWaveSound.v and
    OrchestratorRunSound.v.

    Permission and approval: Preflight.v (runtime_preflight.py),
    Authorization.v (repositories and services/authorization.py),
    ApprovalContext.v (approval/context.py, step_context.py), ApprovalEvidence.v
    and ApprovalEvidenceSound.v (approval/evidence.py), Approval.v and
    ApprovalSound.v (approval/wait.py, decision.py, expiry.py),
    ApprovalResume.v (approval_resume.py).

    Tool calls: SecretRedaction.v (secret_redaction.py, secret_materialize.py,
    mcp/auth_headers.py), ResultValidator.v (result_validator.py,
    resolved_input_schema.py), MrtrWait.v (mrtr_wait.py), ToolAttempt.v
    (tool_step_attempt.py), ToolRunner.v, ToolPrepare.v and ToolFinalize.v
    (tool_runner.py), with their theorems in ToolPrepareSound.v, ToolRunSound.v,
    ToolInvariant.v and ToolFinalizeSound.v.

    Samples.v holds concrete inputs; Witnesses.v, RecoveryWitnesses.v and
    ServiceWitnesses.v apply the theorems to them.

    ** What the theorems show

    Graphs: the runtime validator accepts exactly acyclic graphs, in a
    topological order, with rows that are projections of the plan, complete
    LOOP iterations and sound WHILE evidence; the static validator accepts
    only unique, acyclic, scoped plans, and its walks end.  Data: strict JSON
    equality decides equality of values, predicates denote truth values,
    bindings read only finished steps and never leak a secret input, a
    sanitized value holds no protected plaintext.

    Ownership: a claim is taken by one worker with a fresh lease; an expired
    execution is never left stranded; a call whose outcome is unknown is never
    repeated by a recovery unless its tool is safe to repeat, and a
    cancellation never hides one.  Orchestrator: only the worker that holds the
    lease moves an execution; no local step, gate, loop or end touches a step
    that is settled or the evidence of a call; a wave promotes the first
    eligible tools up to the parallelism of the plan; a fatal outcome decides
    its wave whatever else happened; an execution that ends holds no lease,
    has nothing left to start, and succeeds only by the completion policy over
    terminal steps.  Tool calls: what is sent passed the gate
    as of now, is sent a bounded number of times, at most once for a tool that
    may write; the loop ends; a reply leaves rows that agree and hold no
    secret; the rows stay well formed on every path.  Approval: only a quorum
    of fair votes approves, only an approved request resumes, and an approved
    wait is evidence; the transactions refine an abstract ballot box.
    Messages: staging and relay lose and double nothing but what the broker
    refused, and what was written is read back.

    ** How the model reads the code

    - An exception is a value: [AppError] with the message template of the
      source (not interpolated), or [PyException] with a class name.  A
      function that raises returns [Err]; an exception that leaves a
      transaction leaves the rows unchanged.  [flush] checks unique keys.
    - The row locks of the source make an operation a function of the rows it
      locks; [store] holds the rows of one execution, and an object of the ORM
      is its row, updated by id.  Interleavings are sequences of operations:
      relations over transactions (ApprovalSound.v) or what others commit
      between two transactions of a run (ToolFinalize.v, ToolRunSound.v).
    - Enum columns of execution rows are inductive types, of catalog rows
      strings.  Times are microseconds in Z, uuids numbers, integers Python's
      unbounded ones; NULL JSONB is [JNull].  A dict is its items in order.
      Strings are Latin-1 (Korean messages in UTF-8 bytes).  binary64 is
      SpecFloat.  The order of a Python set is the order of the plan.
    - Values of [uuid4] and clocks are arguments.  Event ids, locks and logs
      are left out.
    - Code outside src/ is a parameter: pydantic's validation of plan models
      ([PlanSchema], [PlanParser], with laws where a theorem needs them),
      jsonschema ([SchemaValidator]), the secret store, the broker, the remote
      end of a call.  Every witness instantiates them.  The recursion limit of
      Python is not modelled; where a walk has fuel, a theorem shows that it
      is enough (static_validate_total, kahn_order_correct), or running out of
      it is the RecursionError of the source (BindingResolver.v).  A run of the tool
      runner is a run over a list of rounds; run_ends bounds their number.
    - The dictionary [by_key] of the orchestrator is the rows of the store by
      key ([rows_by_key]): its objects are those of the session.  A
      transaction of the orchestrator is a function of the store that keeps
      its assignments when it catches an error ([tx]); the bound on the passes
      of a local reconciliation is the one of the source.  A run of the
      orchestrator is given, for each wave, what the tools and others make of
      the rows: asyncio.gather fixes no order.

    ** Not modelled

    The heartbeat task, HTTP sessions, Celery tasks and asyncio scheduling
    (I/O); the CRUD services, repositories and routers, the factory of tools
    and the MCP discovery (persistence and remote calls around small rules);
    the planning agent and the model providers (their result is what the
    static validator checks); the front end.  Of the execution core: the
    queries, the submission of input answers, and the creation of an execution
    (materialize.py, plan_inputs.py). *)
From stdpp Require Export base list strings gmap sorting.
From Stdlib Require Export ZArith Lia.

#[global] Set Default Goal Selector "!".
#[global] Set Default Proof Using "Type".

(** String literals everywhere; [++] is list append and [+:+] string append. *)
#[global] Open Scope string_scope.
#[global] Open Scope list_scope.

(** ** Errors and the error monad

    [AppError] is [app.core.errors.AppError]; its [message] is the format
    template the source writes, without the interpolated values.
    [PyException] is any other exception, by class name. *)
Inductive py_error :=
| AppError (code message : string) (status_code : Z)
| PyException (kind : string).

#[export] Instance py_error_eq_dec : EqDecision py_error.
Proof. solve_decision. Defined.

Inductive res (A : Type) :=
| Ok (a : A)
| Err (e : py_error).
Arguments Ok {A} a.
Arguments Err {A} e.

#[export] Instance res_eq_dec {A} `{EqDecision A} : EqDecision (res A).
Proof. solve_decision. Defined.

#[export] Instance res_ret : MRet res := fun _ a => Ok a.
#[export] Instance res_bind : MBind res := fun A B f m =>
  match m with Ok a => f a | Err e => Err e end.
#[export] Instance res_fmap : FMap res := fun A B f m =>
  match m with Ok a => Ok (f a) | Err e => Err e end.

(** [if b: raise e] *)
Definition raise_if (b : bool) (e : py_error) : res unit :=
  if b then Err e else Ok tt.

(** [try: ... except Exception: raise e] around a fallible lookup *)
Definition of_option {A} (e : py_error) (o : option A) : res A :=
  match o with Some a => Ok a | None => Err e end.

(** [try: m except Exception: handler] *)
Definition catch_any {A} (m : res A) (h : res A) : res A :=
  match m with Ok a => Ok a | Err _ => h end.

(** [for x in l: f x] where the body only checks and raises *)
Fixpoint res_iter {A} (f : A → res unit) (l : list A) : res unit :=
  match l with
  | [] => Ok tt
  | x :: l => _ ← f x; res_iter f l
  end.

(** [for x in l: s = f(s, x)] *)
Fixpoint res_fold {A S} (f : S → A → res S) (l : list A) (s : S) : res S :=
  match l with
  | [] => Ok s
  | x :: l => s' ← f s x; res_fold f l s'
  end.

(** [\[f x for x in l\]] *)
Fixpoint res_map {A B} (f : A → res B) (l : list A) : res (list B) :=
  match l with
  | [] => Ok []
  | x :: l => y ← f x; ys ← res_map f l; Ok (y :: ys)
  end.

(** [all(f x for x in l)] and [any(f x for x in l)], which stop at the first
    false (true) element, so a later element cannot raise *)
Fixpoint res_all {A} (f : A → res bool) (l : list A) : res bool :=
  match l with
  | [] => Ok true
  | x :: l => b ← f x; if b : bool then res_all f l else Ok false
  end.

Fixpoint res_any {A} (f : A → res bool) (l : list A) : res bool :=
  match l with
  | [] => Ok false
  | x :: l => b ← f x; if b : bool then Ok true else res_any f l
  end.

Definition is_ok {A} (m : res A) : bool :=
  match m with Ok _ => true | Err _ => false end.

(** ** Inversion of monadic runs *)
Lemma bind_Ok {A B} (m : res A) (f : A → res B) (b : B) :
  (m ≫= f) = Ok b ↔ ∃ a, m = Ok a ∧ f a = Ok b.
Proof. destruct m; simpl; naive_solver. Qed.

Lemma bind_Err {A B} (m : res A) (f : A → res B) e :
  (m ≫= f) = Err e ↔ m = Err e ∨ ∃ a, m = Ok a ∧ f a = Err e.
Proof. destruct m; simpl; naive_solver. Qed.

Lemma raise_if_Ok b e u : raise_if b e = Ok u ↔ b = false.
Proof. destruct b, u; simpl; naive_solver. Qed.

Lemma of_option_Ok {A} e (o : option A) a : of_option e o = Ok a ↔ o = Some a.
Proof. destruct o; simpl; naive_solver. Qed.

Lemma res_iter_Ok {A} (f : A → res unit) l u :
  res_iter f l = Ok u ↔ ∀ x, x ∈ l → f x = Ok tt.
Proof.
  destruct u. induction l as [|x l IH]; simpl.
  - split; [intros _ y Hy; inversion Hy | done].
  - rewrite bind_Ok. split.
    + intros ([] & Hx & Hl) y [->|Hy]%elem_of_cons; [done|]. by apply IH.
    + intros H. exists tt. split; [apply H; by apply list_elem_of_here|].
      apply IH. intros y Hy. apply H. by apply list_elem_of_further.
Qed.

Lemma res_map_Ok {A B} (f : A → res B) l ys :
  res_map f l = Ok ys ↔ Forall2 (λ x y, f x = Ok y) l ys.
Proof.
  revert ys. induction l as [|x l IH]; intros ys; simpl.
  - split; [intros [= <-]; constructor|]. by inversion 1.
  - rewrite bind_Ok. setoid_rewrite bind_Ok. split.
    + intros (y & Hy & ys' & Hys & [= <-]). constructor; [done|]. by apply IH.
    + inversion 1 as [|? y ? ys' Hy Hys]; subst.
      exists y. split; [done|]. exists ys'. by rewrite IH.
Qed.

Lemma res_all_Ok_true {A} (f : A → res bool) l :
  res_all f l = Ok true ↔ ∀ x, x ∈ l → f x = Ok true.
Proof.
  induction l as [|x l IH]; simpl; [split; [intros _ y Hy; inversion Hy|done]|].
  rewrite bind_Ok. split.
  - intros ([] & Hx & Hl) y [->|Hy]%elem_of_cons; naive_solver.
  - intros H. exists true. split; [apply H; by apply list_elem_of_here|].
    apply IH. intros y Hy. apply H. by apply list_elem_of_further.
Qed.

Lemma res_any_Ok_false {A} (f : A → res bool) l :
  res_any f l = Ok false ↔ ∀ x, x ∈ l → f x = Ok false.
Proof.
  induction l as [|x l IH]; simpl; [split; [intros _ y Hy; inversion Hy|done]|].
  rewrite bind_Ok. split.
  - intros ([] & Hx & Hl) y [->|Hy]%elem_of_cons; naive_solver.
  - intros H. exists false. split; [apply H; by apply list_elem_of_here|].
    apply IH. intros y Hy. apply H. by apply list_elem_of_further.
Qed.

(** A loop preserves an invariant that each of its steps preserves. *)
Lemma res_fold_inv {A S} (P : S → Prop) (f : S → A → res S) l s s' :
  (∀ t x t', x ∈ l → P t → f t x = Ok t' → P t') →
  P s → res_fold f l s = Ok s' → P s'.
Proof.
  revert s. induction l as [|x l IH]; simpl; intros s Hf Hs.
  - by intros [= <-].
  - intros (t & Ht & Hrun)%bind_Ok. apply (IH t); [| |done].
    + intros t1 y t2 Hin. apply Hf. by apply list_elem_of_further.
    + apply (Hf s x t); [by apply list_elem_of_here|done..].
Qed.

Lemma res_fold_app {A S} (f : S → A → res S) l k s :
  res_fold f (l ++ k) s = (s' ← res_fold f l s; res_fold f k s').
Proof. revert s. induction l as [|x l IH]; intros s; simpl; [done|]. destruct (f s x); simpl; [apply IH|done]. Qed.

(** [inv_res] breaks every hypothesis that says a monadic run ended [Ok]
    into the facts of its steps. *)
Ltac inv_res_step :=
  match goal with
  | H : Ok _ = Ok _ |- _ => injection H as H; try subst
  | H : Err _ = Ok _ |- _ => discriminate H
  | H : Ok _ = Err _ |- _ => discriminate H
  | H : mbind _ _ = Ok _ |- _ => apply bind_Ok in H; destruct H as (? & ? & H)
  | H : raise_if _ _ = Ok _ |- _ => apply raise_if_Ok in H
  | H : of_option _ _ = Ok _ |- _ => apply of_option_Ok in H
  | H : res_iter _ _ = Ok _ |- _ => rewrite res_iter_Ok in H
  | x : unit |- _ => destruct x
  | H : negb _ = false |- _ => apply negb_false_iff in H
  | H : negb _ = true |- _ => apply negb_true_iff in H
  | H : orb _ _ = false |- _ => apply orb_false_iff in H; destruct H
  | H : andb _ _ = true |- _ => apply andb_true_iff in H; destruct H
  | H : bool_decide _ = true |- _ => apply bool_decide_eq_true in H
  | H : bool_decide _ = false |- _ => apply bool_decide_eq_false in H
  end.
Ltac inv_res := repeat inv_res_step.

(** Case analysis on the matches of a hypothesis, discarding dead branches. *)
Ltac case_run H :=
  repeat (case_match; try discriminate H); simplify_eq/=.

(** ** Lists *)
(** [o is not None] and [not l] *)
Definition is_some {A} (o : option A) : bool := match o with Some _ => true | None => false end.
Definition is_nil {A} (l : list A) : bool := match l with [] => true | _ => false end.

(** [next((x for x in l if p x), None)] *)
Fixpoint find_first {A} (p : A → bool) (l : list A) : option A :=
  match l with
  | [] => None
  | x :: l => if p x then Some x else find_first p l
  end.

Lemma find_first_Some {A} (p : A → bool) l x :
  find_first p l = Some x → x ∈ l ∧ p x = true.
Proof.
  induction l as [|y l IH]; simpl; [done|]. destruct (p y) eqn:E; intros H.
  - simplify_eq. split; [by apply list_elem_of_here|done].
  - destruct (IH H). split; [by apply list_elem_of_further|done].
Qed.

Lemma find_first_None {A} (p : A → bool) l :
  find_first p l = None ↔ ∀ x, x ∈ l → p x = false.
Proof.
  induction l as [|y l IH]; simpl.
  - split; [intros _ y Hy; inversion Hy|done].
  - destruct (p y) eqn:E.
    + split; [done|]. intros H. rewrite H in E; [done|by apply list_elem_of_here].
    + rewrite IH. split; intros H.
      * intros x [->|Hx]%elem_of_cons; auto.
      * intros x Hx. apply H. by apply list_elem_of_further.
Qed.

Lemma filter_all {A} (P : A → Prop) `{∀ x, Decision (P x)} (l : list A) : (∀ x, x ∈ l → P x) → filter P l = l.
Proof.
  induction l as [|x l IH]; intros Hp; [done|]. rewrite filter_cons_True by (apply Hp; left).
  f_equal. apply IH. intros y Hy. apply Hp. by right.
Qed.

Lemma filter_nil_all {A} (P : A → Prop) `{∀ x, Decision (P x)} (l : list A) : (∀ x, x ∈ l → ¬ P x) → filter P l = [].
Proof.
  induction l as [|x l IH]; intros Hp; [done|]. rewrite filter_cons_False by (apply Hp; left).
  apply IH. intros y Hy. apply Hp. by right.
Qed.

Lemma forallb_elem {A} (p : A → bool) l :
  forallb p l = true ↔ ∀ x, x ∈ l → p x = true.
Proof. rewrite List.forallb_forall. by setoid_rewrite list_elem_of_In. Qed.

Lemma existsb_elem {A} (p : A → bool) l :
  existsb p l = true ↔ ∃ x, x ∈ l ∧ p x = true.
Proof. rewrite List.existsb_exists. by setoid_rewrite list_elem_of_In. Qed.

Lemma existsb_elem_false {A} (p : A → bool) l :
  existsb p l = false ↔ ∀ x, x ∈ l → p x = false.
Proof.
  rewrite <- not_true_iff_false, existsb_elem. split.
  - intros H x Hx. apply not_true_is_false. naive_solver.
  - intros H (x & Hx & Hp). specialize (H x Hx). congruence.
Qed.

(** [set(a) == set(b)] for two lists *)
Definition same_set {A} `{EqDecision A} (a b : list A) : bool :=
  forallb (λ x, bool_decide (x ∈ b)) a && forallb (λ x, bool_decide (x ∈ a)) b.

Lemma same_set_spec {A} `{EqDecision A} (a b : list A) :
  same_set a b = true ↔ ∀ x, x ∈ a ↔ x ∈ b.
Proof.
  unfold same_set. rewrite andb_true_iff, !forallb_elem.
  setoid_rewrite bool_decide_eq_true. naive_solver.
Qed.

(** [len(l) == len(set(l))] *)
Definition no_dup {A} `{EqDecision A} (l : list A) : bool := bool_decide (NoDup l).

(** [range(1, n + 1)] *)
Definition range1 (n : Z) : list Z := (λ k, Z.of_nat k + 1)%Z <$> seq 0 (Z.to_nat n).

Lemma elem_of_range1 n k : k ∈ range1 n ↔ (1 ≤ k ≤ n)%Z.
Proof.
  unfold range1. rewrite list_elem_of_fmap. setoid_rewrite elem_of_seq. split.
  - intros (m & -> & Hm). lia.
  - intros H. exists (Z.to_nat (k - 1)). lia.
Qed.

(** [sorted(l, key=..)]: a stable insertion sort; [leb] compares the keys *)
Section sort.
Context {A : Type} (leb : A → A → bool).

Fixpoint sort_insert (x : A) (l : list A) : list A :=
  match l with
  | [] => [x]
  | y :: l' => if leb x y then x :: l else y :: sort_insert x l'
  end.
Definition sort_by (l : list A) : list A := foldr sort_insert [] l.

Lemma sort_insert_perm x l : sort_insert x l ≡ₚ x :: l.
Proof.
  induction l as [|y l IH]; simpl; [done|]. destruct (leb x y); [done|].
  rewrite IH. constructor.
Qed.

Lemma sort_by_perm l : sort_by l ≡ₚ l.
Proof. induction l; simpl; [done|]. rewrite sort_insert_perm. by constructor. Qed.

(** For a total order the head is a least element. *)
Lemma sort_by_head l x l' :
  (∀ a b, leb a b = true ∨ leb b a = true) →
  (∀ a b c, leb a b = true → leb b c = true → leb a c = true) →
  sort_by l = x :: l' → ∀ y, y ∈ l → leb x y = true.
Proof.
  intros Htot Htr. revert x l'. induction l as [|a l IH]; intros x l' Hs y Hy; [done|].
  assert (leb a a = true) as Haa by (destruct (Htot a a); done).
  simpl in Hs. destruct (sort_by l) as [|b k] eqn:Eb; simpl in Hs.
  - injection Hs as <- <-. apply elem_of_cons in Hy as [->|Hy]; [done|].
    rewrite <- (sort_by_perm l), Eb in Hy. by apply elem_of_nil in Hy.
  - destruct (leb a b) eqn:Eab; injection Hs as <- <-;
      apply elem_of_cons in Hy as [->|Hy]; try done.
    + eauto.
    + destruct (Htot a b); congruence.
    + eauto.
Qed.
End sort.

Create HintDb mcp.
#[export] Hint Resolve list_elem_of_here list_elem_of_further : mcp.
