(* ===== verification/PyStr.v ===== *)
(** Python's strings: the methods of [str], decimal and hexadecimal numbers, and
    the text functions over them. *)
From S2P Require Import Prelude.
From Stdlib Require Import Ascii String DecimalString.


(** * Python strings

    A Python [str] is modelled by [String.string], one [ascii] per character,
    read as the code point of the same number: the strings of this development
    are those whose characters are U+0000 to U+00FF.  On them every operation
    below is Python's: [len] counts characters, comparison is by code point,
    [isdigit] accepts the superscript digits U+00B2, U+00B3 and U+00B9, and
    [strip] removes the Latin-1 white space. *)
#[local] Open Scope string_scope.
#[global] Arguments Ascii.eqb !_ !_ /.
#[global] Arguments String.append !_ _ /.

Definition code (c : ascii) : N := N_of_ascii c.

Definition in_range (lo hi : N) (c : ascii) : bool := (lo <=? code c)%N && (code c <=? hi)%N.

(** [c.isspace()] *)
Definition is_space (c : ascii) : bool :=
  in_range 9 13 c || in_range 28 32 c || (code c =? 133)%N || (code c =? 160)%N.

(** [c.isdigit()] *)
Definition is_ascii_digit (c : ascii) : bool := in_range 48 57 c.
Definition is_superscript_digit (c : ascii) : bool :=
  (code c =? 178)%N || (code c =? 179)%N || (code c =? 185)%N.
Definition is_digit_char (c : ascii) : bool := is_ascii_digit c || is_superscript_digit c.

Fixpoint str_all (p : ascii → bool) (s : string) : bool :=
  match s with
  | EmptyString => true
  | String c r => p c && str_all p r
  end.

Definition str_empty (s : string) : bool := match s with EmptyString => true | _ => false end.

(** [s.isdigit()] *)
Definition isdigit (s : string) : bool := negb (str_empty s) && str_all is_digit_char s.

(** [s.lstrip()], [s.rstrip()], [s.strip()] *)
Fixpoint lstrip (s : string) : string :=
  match s with
  | String c r => if is_space c then lstrip r else s
  | EmptyString => EmptyString
  end.

Fixpoint rstrip (s : string) : string :=
  match s with
  | EmptyString => EmptyString
  | String c r =>
      match rstrip r with
      | EmptyString => if is_space c then EmptyString else String c EmptyString
      | r' => String c r'
      end
  end.

Definition strip (s : string) : string := rstrip (lstrip s).

(** [not s.strip()] *)
Definition blank (s : string) : bool := str_empty (strip s).

(** [pat in s] *)
Fixpoint str_in (pat s : string) : bool :=
  String.prefix pat s || match s with EmptyString => false | String _ r => str_in pat r end.

(** [s.replace(pat, rep)] for a non-empty [pat]: occurrences are taken from
    the left without overlap; [skip] counts the characters of a match still
    to be dropped. *)
Fixpoint replace_from (pat rep : string) (skip : nat) (s : string) : string :=
  match s with
  | EmptyString => EmptyString
  | String c r =>
      match skip with
      | S k => replace_from pat rep k r
      | O => if String.prefix pat s
             then rep ++ replace_from pat rep (String.length pat - 1) r
             else String c (replace_from pat rep 0 r)
      end
  end.
Definition replace (pat rep s : string) : string := replace_from pat rep 0 s.
#[global] Arguments replace : simpl never.

(** [s.split(sep)] for a one-character separator *)
Fixpoint split_on (sep : ascii) (s : string) : list string :=
  match s with
  | EmptyString => [EmptyString]
  | String c r =>
      if Ascii.eqb c sep then EmptyString :: split_on sep r
      else match split_on sep r with
           | [] => [String c EmptyString]
           | w :: ws => String c w :: ws
           end
  end.

(** [sep.join(ws)] for a one-character separator *)
Fixpoint join (sep : ascii) (ws : list string) : string :=
  match ws with
  | [] => EmptyString
  | [w] => w
  | w :: ws => w ++ String sep (join sep ws)
  end.

(** [int(s)] on a string of decimal digits; a superscript digit is no decimal
    digit, and CPython refuses to convert more than 4300 digits. *)
Fixpoint decimal_value (acc : Z) (s : string) : Z :=
  match s with
  | EmptyString => acc
  | String c r => decimal_value (10 * acc + Z.of_N (code c - 48)) r
  end.
Definition MAX_INT_STR_DIGITS : nat := 4300.
Definition int_of_digits (s : string) : res Z :=
  if str_all is_ascii_digit s && negb (str_empty s)
     && (String.length s <=? MAX_INT_STR_DIGITS)%nat
  then Ok (decimal_value 0 s)
  else Err (PyException "ValueError").

(** [all(c in "0123456789abcdef" for c in s)] *)
Definition is_lower_hex (c : ascii) : bool := in_range 48 57 c || in_range 97 102 c.

(** [len(s) == 64 and all(c in hex for c in s)] *)
Definition is_sha256_hex (s : string) : bool :=
  (String.length s =? 64)%nat && str_all is_lower_hex s.

(** [f"{n:0wd}"] for a non-negative [n]: at least [w] digits, zero padded *)
Definition digit_char (n : N) : ascii := ascii_of_N (48 + n).
Definition hex_char (n : N) : ascii :=
  if (n <? 10)%N then ascii_of_N (48 + n) else ascii_of_N (87 + n).

Fixpoint digits_in (base : N) (chr : N → ascii) (fuel : nat) (n : N) (acc : string) : string :=
  match fuel with
  | O => acc
  | S f => let acc' := String (chr (n mod base)%N) acc in
           if (n / base =? 0)%N then acc' else digits_in base chr f (n / base)%N acc'
  end.

Fixpoint zeros (k : nat) : string :=
  match k with O => EmptyString | S k => String "0" (zeros k) end.

Definition zero_pad (w : nat) (s : string) : string := zeros (w - String.length s) ++ s.

Definition decimal (n : N) : string := digits_in 10 digit_char (S (N.to_nat (N.log2 n))) n "".
Definition hex (n : N) : string := digits_in 16 hex_char (S (N.to_nat (N.log2 n))) n "".

(** ** Lemmas *)
Lemma str_app_nil_r s : s ++ "" = s.
Proof. induction s; simpl; congruence. Qed.

Lemma str_app_assoc a b c : (a ++ b) ++ c = a ++ (b ++ c).
Proof. induction a; simpl; congruence. Qed.

Lemma str_length_app a b : String.length (a ++ b) = (String.length a + String.length b)%nat.
Proof. induction a; simpl; congruence. Qed.

Lemma str_all_app p a b : str_all p (a ++ b) = str_all p a && str_all p b.
Proof. induction a; simpl; [done|]. by rewrite IHa, andb_assoc. Qed.

Lemma str_all_cons p c s : str_all p (String c s) = p c && str_all p s.
Proof. done. Qed.

Lemma str_app_inj a1 a2 b1 b2 :
  String.length a1 = String.length a2 → a1 ++ b1 = a2 ++ b2 → a1 = a2 ∧ b1 = b2.
Proof.
  revert a2. induction a1 as [|c a1 IH]; intros [|d a2]; simpl; try done.
  intros [= Hl] [= -> H]. destruct (IH a2 Hl H). by subst.
Qed.

Lemma str_app_inv_head a b1 b2 : a ++ b1 = a ++ b2 → b1 = b2.
Proof. by intros [_ ?]%str_app_inj. Qed.

Lemma split_on_nonempty sep s : split_on sep s ≠ [].
Proof. destruct s; simpl; [done|]. case_match; [done|]. by case_match. Qed.

(** A word without the separator is not split; the separator cuts. *)
Lemma split_on_app sep w s :
  str_all (λ c, negb (Ascii.eqb c sep)) w = true →
  split_on sep (w ++ String sep s) = w :: split_on sep s.
Proof.
  induction w as [|c w IH]; simpl.
  - intros _. by rewrite Ascii.eqb_refl.
  - rewrite andb_true_iff, negb_true_iff. intros [-> Hw]. by rewrite (IH Hw).
Qed.

Lemma split_on_word sep w :
  str_all (λ c, negb (Ascii.eqb c sep)) w = true → split_on sep w = [w].
Proof.
  induction w as [|c w IH]; simpl; [done|].
  rewrite andb_true_iff, negb_true_iff. intros [-> Hw]. by rewrite (IH Hw).
Qed.

Lemma split_join sep ws :
  ws ≠ [] → (∀ w, w ∈ ws → str_all (λ c, negb (Ascii.eqb c sep)) w = true) →
  split_on sep (join sep ws) = ws.
Proof.
  intros Hne. induction ws as [|w ws IH]; [done|]. intros Hw.
  destruct ws as [|w' ws].
  - apply split_on_word, Hw. by apply list_elem_of_here.
  - change (join sep (w :: w' :: ws)) with (w ++ String sep (join sep (w' :: ws))).
    rewrite split_on_app by (apply Hw; apply list_elem_of_here).
    f_equal. apply IH; [done|]. intros v Hv. apply Hw. by apply list_elem_of_further.
Qed.

(** Replacing a one-character pattern maps each character on its own. *)
Fixpoint concat_map (f : ascii → string) (s : string) : string :=
  match s with EmptyString => EmptyString | String c r => f c ++ concat_map f r end.

Lemma prefix_nil s : String.prefix "" s = true.
Proof. by destruct s. Qed.

Lemma prefix_cons c d p s :
  String.prefix (String c p) (String d s) = Ascii.eqb c d && String.prefix p s.
Proof. change (String.prefix (String c p) (String d s)) with
  (if ascii_dec c d then String.prefix p s else false).
  destruct (ascii_dec c d) as [->|H]; [by rewrite Ascii.eqb_refl|].
  by destruct (Ascii.eqb_spec c d).
Qed.

Lemma replace_from_cons pat rep c r :
  replace_from pat rep 0 (String c r) =
  if String.prefix pat (String c r)
  then rep ++ replace_from pat rep (String.length pat - 1) r
  else String c (replace_from pat rep 0 r).
Proof. done. Qed.

Lemma replace_char p rep s :
  replace (String p EmptyString) rep s
  = concat_map (λ c, if Ascii.eqb c p then rep else String c EmptyString) s.
Proof.
  unfold replace. induction s as [|c s IH]; simpl; [done|].
  destruct (ascii_dec p c) as [->|Hne].
  - rewrite Ascii.eqb_refl, prefix_nil. by rewrite IH.
  - destruct (Ascii.eqb_spec c p) as [->|_]; [done|]. by rewrite IH.
Qed.

Lemma str_all_concat_map p f s :
  (∀ c, str_all p (f c) = true) → str_all p (concat_map f s) = true.
Proof.
  intros Hf. induction s as [|c s IH]; simpl; [done|]. by rewrite str_all_app, Hf, IH.
Qed.

(** [c in s] for one character *)
Lemma str_in_char c s :
  str_in (String c EmptyString) s = negb (str_all (λ d, negb (Ascii.eqb d c)) s).
Proof.
  induction s as [|d s IH]; [done|].
  change (str_in (String c "") (String d s)) with
    (String.prefix (String c "") (String d s) || str_in (String c "") s).
  rewrite prefix_cons, prefix_nil, IH, andb_true_r. simpl.
  rewrite negb_andb, negb_involutive, Ascii.eqb_sym. done.
Qed.

Lemma str_in_cons pat d s :
  str_in pat (String d s) = String.prefix pat (String d s) || str_in pat s.
Proof. done. Qed.

(** ** Decimal and hexadecimal digits *)
Lemma digits_in_length base chr fuel n acc :
  (String.length (digits_in base chr fuel n acc) ≤ fuel + String.length acc)%nat.
Proof.
  revert n acc. induction fuel as [|f IH]; intros n acc; simpl; [lia|].
  case_match; simpl; [lia|]. etrans; [apply IH|]. simpl. lia.
Qed.

Lemma digits_in_all p base chr fuel n acc :
  (0 < base)%N → (∀ k, (k < base)%N → p (chr k) = true) → str_all p acc = true →
  str_all p (digits_in base chr fuel n acc) = true.
Proof.
  intros Hb Hp. revert n acc. induction fuel as [|f IH]; intros n acc Hacc; simpl; [done|].
  assert (p (chr (n mod base)%N) = true) as Hd by (apply Hp, N.mod_lt; lia).
  case_match; [|apply IH]; simpl; by rewrite Hd, Hacc.
Qed.

Lemma digits_in_cons base chr fuel n acc :
  ∃ c r, digits_in base chr (S fuel) n acc = String c r.
Proof.
  revert n acc. induction fuel as [|f IH]; intros n acc.
  - simpl. case_match; eauto.
  - simpl in *. case_match; eauto.
Qed.

Lemma lt_pow_log2 b n : (2 ≤ b)%N → (n < b ^ N.of_nat (S (N.to_nat (N.log2 n))))%N.
Proof.
  intros Hb. destruct (N.eq_dec n 0) as [->|Hn]; [simpl; lia|].
  apply N.lt_le_trans with (2 ^ N.succ (N.log2 n))%N.
  - apply N.log2_spec. lia.
  - rewrite Nat2N.inj_succ, N2Nat.id. by apply N.pow_le_mono_l.
Qed.

Lemma div_lt_pow b n f : (2 ≤ b)%N → (n < b ^ N.of_nat (S f))%N → (n / b < b ^ N.of_nat f)%N.
Proof. intros Hb H. apply N.Div0.div_lt_upper_bound. by rewrite <- N.pow_succ_r', <- Nat2N.inj_succ. Qed.

Lemma digit_char_code k : (k < 10)%N → code (digit_char k) = (48 + k)%N.
Proof. intros. unfold code, digit_char. apply N_ascii_embedding. lia. Qed.

Lemma decimal_value_digits fuel n acc :
  (n < 10 ^ N.of_nat fuel)%N →
  decimal_value 0 (digits_in 10 digit_char fuel n acc) = decimal_value (Z.of_N n) acc.
Proof.
  revert n acc. induction fuel as [|f IH]; intros n acc Hn.
  - change (10 ^ N.of_nat 0)%N with 1%N in Hn. by replace n with 0%N by lia.
  - assert (n mod 10 < 10)%N by (apply N.mod_lt; lia).
    pose proof (N.Div0.div_mod n 10) as Hdm.
    cbn [digits_in]. destruct (N.eqb_spec (n / 10) 0) as [Hz|Hz].
    + cbn [decimal_value]. rewrite digit_char_code by done. f_equal. lia.
    + rewrite IH by (by apply div_lt_pow). cbn [decimal_value].
      rewrite digit_char_code by done. f_equal.
      rewrite (N.add_comm 48), N.add_sub.
      generalize dependent (n mod 10)%N. generalize dependent (n / 10)%N. intros. lia.
Qed.

Lemma decimal_value_decimal n : decimal_value 0 (decimal n) = Z.of_N n.
Proof. unfold decimal. by rewrite decimal_value_digits by (apply lt_pow_log2; lia). Qed.

Lemma decimal_digits n : str_all is_ascii_digit (decimal n) = true.
Proof.
  apply digits_in_all; [lia| |done]. intros k Hk.
  unfold is_ascii_digit, in_range. rewrite digit_char_code by done.
  apply andb_true_iff; split; apply N.leb_le; lia.
Qed.

Lemma decimal_nonempty n : str_empty (decimal n) = false.
Proof.
  unfold decimal. destruct (digits_in_cons 10 digit_char (N.to_nat (N.log2 n)) n "")
    as (c & r & ->). done.
Qed.

(** A decimal starts with [0] only when it is [0]. *)
Lemma digits_leading fuel n acc :
  n ≠ 0%N → (n < 10 ^ N.of_nat fuel)%N →
  String.prefix "0" (digits_in 10 digit_char fuel n acc) = false.
Proof.
  revert n acc. induction fuel as [|f IH]; intros n acc Hn Hlt; [change (10 ^ N.of_nat 0)%N with 1%N in Hlt; lia|].
  cbn [digits_in]. destruct (N.eqb_spec (n / 10) 0) as [Hz|Hz].
  - rewrite prefix_cons. assert (n mod 10 < 10)%N by (apply N.mod_lt; lia).
    destruct (Ascii.eqb_spec "0" (digit_char (n mod 10))) as [E|]; [|done].
    apply (f_equal code) in E. rewrite digit_char_code in E by done.
    pose proof (N.Div0.div_mod n 10). change (code "0") with 48%N in E. lia.
  - apply IH; [done|]. by apply div_lt_pow.
Qed.

Lemma decimal_leading n : n ≠ 0%N → String.prefix "0" (decimal n) = false.
Proof. intros. apply digits_leading; [done|]. apply lt_pow_log2. lia. Qed.

Lemma decimal_length n b : (n < 2 ^ N.of_nat b)%N → (String.length (decimal n) ≤ S b)%nat.
Proof.
  intros Hn. unfold decimal. etrans; [apply digits_in_length|]. simpl.
  destruct (N.eq_dec n 0) as [->|]; [simpl; lia|].
  assert (N.log2 n < N.of_nat b)%N by (apply N.log2_lt_pow2; lia). lia.
Qed.

Lemma int_of_digits_decimal n :
  (n < 2 ^ N.of_nat 4299)%N → int_of_digits (decimal n) = Ok (Z.of_N n).
Proof.
  intros Hn%decimal_length. unfold int_of_digits, MAX_INT_STR_DIGITS.
  rewrite decimal_digits, decimal_nonempty, decimal_value_decimal.
  rewrite (proj2 (Nat.leb_le _ _)) by lia. done.
Qed.

Lemma str_all_impl (p q : ascii → bool) s :
  (∀ c, p c = true → q c = true) → str_all p s = true → str_all q s = true.
Proof.
  intros H. induction s as [|c s IH]; simpl; [done|].
  rewrite !andb_true_iff. naive_solver.
Qed.

Lemma decimal_isdigit n : isdigit (decimal n) = true.
Proof.
  unfold isdigit. rewrite decimal_nonempty. simpl.
  eapply str_all_impl; [|apply decimal_digits]. intros c. unfold is_digit_char. by intros ->.
Qed.

(** * Substrings, [str.split], [str.lower] and the order of strings

    The second part of the [str] model: [infix] is the relation that
    [pat in s] decides, and [split] is [s.split(sep)] for any non-empty
    separator. *)
#[local] Open Scope string_scope.

(** ** [pat in s] *)
Definition infix (w s : string) : Prop := ∃ a b, s = a ++ w ++ b.

Lemma prefix_spec p s : String.prefix p s = true ↔ ∃ b, s = p ++ b.
Proof.
  revert s. induction p as [|c p IH]; intros s.
  - rewrite prefix_nil. split; [by exists s|done].
  - destruct s as [|d s]; [split; [done|by intros [? ?]]|].
    rewrite prefix_cons, andb_true_iff, IH, Ascii.eqb_eq. split.
    + intros [-> [b ->]]. by exists b.
    + intros [b Hb]. simpl in Hb. simplify_eq. eauto.
Qed.

Lemma str_in_spec p s : str_in p s = true ↔ infix p s.
Proof.
  unfold infix. induction s as [|c s IH]; cbn [str_in].
  - rewrite orb_false_r, prefix_spec. split; [by intros [b Hb]; exists "", b|].
    intros ([|] & b & Hb); [by exists b|done].
  - rewrite orb_true_iff, prefix_spec, IH. split.
    + intros [[b Hb]|(a & b & ->)]; [by exists "", b|by exists (String c a), b].
    + intros ([|d a] & b & Hb); [left; by exists b|]. simpl in Hb. simplify_eq. right. eauto.
Qed.

Lemma str_in_false p s : str_in p s = false ↔ ¬ infix p s.
Proof. rewrite <- str_in_spec. destruct (str_in p s); split; congruence || tauto. Qed.

Lemma infix_trans a b c : infix a b → infix b c → infix a c.
Proof.
  intros (x & y & ->) (u & v & ->). exists (u ++ x), (y ++ v). by rewrite !str_app_assoc.
Qed.

Lemma infix_refl a : infix a a.
Proof. exists "", "". by rewrite str_app_nil_r. Qed.

Lemma infix_app_l a x b : infix a b → infix a (x ++ b).
Proof. intros (u & v & ->). exists (x ++ u), v. by rewrite !str_app_assoc. Qed.

Lemma infix_app_r a b x : infix a b → infix a (b ++ x).
Proof. intros (u & v & ->). exists u, (v ++ x). by rewrite !str_app_assoc. Qed.

Lemma infix_nil w : infix w "" → w = "".
Proof. intros ([|] & b & Hb); [|done]. by destruct w. Qed.

Lemma str_app_split x y a b :
  x ++ y = a ++ b →
  (∃ z, a = x ++ z ∧ y = z ++ b) ∨ (∃ z, x = a ++ z ∧ b = z ++ y).
Proof.
  revert a. induction x as [|c x IH]; simpl; intros a H; [left; by exists a|].
  destruct a as [|d a]; simpl in H; [right; by exists (String c x)|].
  simplify_eq. destruct (IH a) as [(z & -> & ->)|(z & -> & ->)]; [done|left|right]; by exists z.
Qed.

(** A word without the character [c] that occurs in [x ++ c y] occurs in [x] or [y]. *)
Lemma infix_sep w c x y :
  str_all (λ d, negb (Ascii.eqb d c)) w = true → infix w (x ++ String c y) → infix w x ∨ infix w y.
Proof.
  intros Hw (a & b & Hab). apply str_app_split in Hab as [(z & -> & Hz)|(z & -> & Hz)].
  - destruct z as [|d z]; simpl in Hz; simplify_eq; [|right; by exists z, b].
    destruct w as [|d w]; simpl in *; simplify_eq; [left; by exists x, ""; rewrite str_app_nil_r|].
    by rewrite Ascii.eqb_refl in Hw.
  - left. apply str_app_split in Hz as [(t & -> & Ht)|(t & -> & Ht)]; [by exists a, t|].
    destruct t as [|d t]; simpl in Ht; simplify_eq.
    + exists a, "". by rewrite !str_app_nil_r.
    + rewrite str_all_app in Hw. simpl in Hw. rewrite Ascii.eqb_refl in Hw. by rewrite andb_false_r in Hw.
Qed.

(** ** [s.split(sep)] for a non-empty [sep]

    Occurrences are taken from the left without overlap; [skip] counts the
    characters of a match still to be dropped. *)
Fixpoint split_from (sep : string) (skip : nat) (s : string) : list string :=
  match s with
  | EmptyString => [EmptyString]
  | String c r =>
      match skip with
      | S k => split_from sep k r
      | O => if String.prefix sep s then EmptyString :: split_from sep (String.length sep - 1) r
             else match split_from sep 0 r with
                  | [] => [String c EmptyString]
                  | w :: ws => String c w :: ws
                  end
      end
  end.
Definition split (sep s : string) : list string := split_from sep 0 s.
#[global] Arguments split : simpl never.

(** [sep.join(ws)] *)
Fixpoint join_with (sep : string) (ws : list string) : string :=
  match ws with
  | [] => ""
  | [w] => w
  | w :: ws => w ++ sep ++ join_with sep ws
  end.

Lemma split_from_nonempty sep k s : split_from sep k s ≠ [].
Proof.
  revert k. induction s as [|c s IH]; intros k; [done|]. cbn [split_from].
  destruct k; [|done]. case_match; [done|]. case_match; [done|done].
Qed.

Lemma split_from_skip sep a s : split_from sep (String.length a) (a ++ s) = split_from sep 0 s.
Proof. induction a as [|c a IH]; [done|]. exact IH. Qed.

Lemma split_from_match sep s :
  str_empty sep = false → split_from sep 0 (sep ++ s) = "" :: split_from sep 0 s.
Proof.
  destruct sep as [|c sep]; [done|]. intros _.
  change (String c sep ++ s) with (String c (sep ++ s)). cbn [split_from].
  assert (String.prefix (String c sep) (String c (sep ++ s)) = true) as ->
    by (apply prefix_spec; by exists s).
  simpl String.length. rewrite Nat.sub_succ, Nat.sub_0_r. f_equal. apply split_from_skip.
Qed.

Lemma join_with_cons sep w ws : ws ≠ [] → join_with sep (w :: ws) = w ++ sep ++ join_with sep ws.
Proof. by destruct ws. Qed.

(** What [split] returns: the parts joined again give the string, the first
    part is a prefix of it, and no part has the separator in it. *)
Lemma split_from_ok sep s :
  str_empty sep = false →
  join_with sep (split_from sep 0 s) = s ∧
  (∀ w, w ∈ split_from sep 0 s → ¬ infix sep w) ∧
  ∃ w ws b, split_from sep 0 s = w :: ws ∧ s = w ++ b.
Proof.
  intros Hsep. remember (String.length s) as n eqn:Hn. revert s Hn.
  induction n as [n IH] using lt_wf_ind. intros s ->.
  destruct s as [|c r].
  - split; [done|]. split; [|by exists "", [], ""].
    intros w Hw%list_elem_of_singleton Hi. subst. apply infix_nil in Hi. by subst.
  - destruct (String.prefix sep (String c r)) eqn:Ep.
    + pose proof Ep as (t & Ht)%prefix_spec. rewrite Ht, split_from_match by done.
      destruct (IH (String.length t)) with (s := t) as (Hj & Hw & _); [|done|].
      { rewrite Ht, str_length_app. destruct sep; simpl in *; [done|lia]. }
      rewrite join_with_cons by apply split_from_nonempty. rewrite Hj. split; [done|].
      split; [|by exists "", (split_from sep 0 t), (sep ++ t)].
      intros w [->|Hin]%elem_of_cons Hi; [apply infix_nil in Hi; by subst|by apply (Hw w)].
    + cbn [split_from]. rewrite Ep.
      destruct (IH (String.length r)) with (s := r) as (Hj & Hw & w & ws & b & Hs & Hr); [simpl; lia|done|].
      rewrite Hs in *. split; [|split].
      * rewrite <- Hj. destruct ws; [done|]. by rewrite !join_with_cons by done.
      * intros v [->|Hin]%elem_of_cons Hi; [|by apply (Hw v); [right|]].
        destruct Hi as ([|d a] & t & Hd).
        -- assert (String.prefix sep (String c r) = true); [|congruence].
           apply prefix_spec. simpl in Hd. exists (t ++ b). by rewrite <- str_app_assoc, <- Hd, Hr.
        -- simpl in Hd. simplify_eq. apply (Hw (a ++ sep ++ t)); [left|by exists a, t].
      * exists (String c w), ws, b. by rewrite Hr at 1.
Qed.

Lemma split_parts sep s w : str_empty sep = false → w ∈ split sep s → ¬ infix sep w ∧ infix w s.
Proof.
  intros Hsep Hw. destruct (split_from_ok sep s Hsep) as (Hj & Hn & _). split; [by apply Hn|].
  fold (split sep s) in Hj. rewrite <- Hj. clear Hj Hn.
  induction (split sep s) as [|x ws IH]; [by apply elem_of_nil in Hw|].
  apply elem_of_cons in Hw as [->|Hw].
  - destruct ws; [apply infix_refl|]. rewrite join_with_cons by done. apply infix_app_r, infix_refl.
  - rewrite join_with_cons by (by destruct ws; [apply elem_of_nil in Hw|]).
    by apply infix_app_l, infix_app_l, IH.
Qed.

Lemma split_join_with sep s : str_empty sep = false → join_with sep (split sep s) = s.
Proof. intros H. apply (split_from_ok sep s H). Qed.

(** ** [s.lower()] on Latin-1 *)
Definition lower_char (c : ascii) : ascii :=
  if in_range 65 90 c || (in_range 192 222 c && negb (code c =? 215)%N)
  then ascii_of_N (code c + 32) else c.
Definition lower (s : string) : string := concat_map (λ c, String (lower_char c) "") s.

(** [s\[n:\]] *)
Fixpoint drop_chars (n : nat) (s : string) : string :=
  match n, s with
  | O, _ | _, EmptyString => s
  | S n, String _ s => drop_chars n s
  end.

(** ** [<=] of strings, by code point *)
Fixpoint str_leb (a b : string) : bool :=
  match a, b with
  | EmptyString, _ => true
  | String _ _, EmptyString => false
  | String c a, String d b => (code c <? code d)%N || ((code c =? code d)%N && str_leb a b)
  end.

Lemma str_leb_total a b : str_leb a b = true ∨ str_leb b a = true.
Proof.
  revert b. induction a as [|c a IH]; intros [|d b]; simpl; auto.
  destruct (N.lt_trichotomy (code c) (code d)) as [H|[H|H]].
  - left. by rewrite (proj2 (N.ltb_lt _ _) H).
  - rewrite H, N.ltb_irrefl, N.eqb_refl. apply IH.
  - right. by rewrite (proj2 (N.ltb_lt _ _) H).
Qed.

Lemma str_leb_trans a b c : str_leb a b = true → str_leb b c = true → str_leb a c = true.
Proof.
  revert b c. induction a as [|x a IH]; intros [|y b] [|z c]; simpl; try done.
  rewrite !orb_true_iff, !andb_true_iff, !N.ltb_lt, !N.eqb_eq.
  intros [?|[? ?]] [?|[? ?]]; [left; lia..|right; split; [lia|eauto]].
Qed.
