(* ===== verification/PyDict.v ===== *)
(** * Python dictionaries

    A [dict] with string keys is the list of its items in insertion order.
    [dict_set] overwrites in place and appends a new key, as Python does, so a
    dictionary built by [dict_set] has no key twice ([dict_wf]). *)
From S2P Require Import Prelude.

Abbreviation dict V := (list (string * V)).

Section dict.
Context {V : Type}.
Implicit Types (d : dict V) (k : string) (v : V).

(** [d.get(k)] *)
Fixpoint dict_get k d : option V :=
  match d with
  | [] => None
  | (k', v) :: d => if decide (k = k') then Some v else dict_get k d
  end.

(** [d\[k\]] *)
Definition dict_item k d : res V := of_option (PyException "KeyError") (dict_get k d).

(** [k in d] *)
Definition dict_has k d : bool := bool_decide (is_Some (dict_get k d)).

(** [d\[k\] = v] *)
Fixpoint dict_set k v d : dict V :=
  match d with
  | [] => [(k, v)]
  | (k', v') :: d => if decide (k = k') then (k', v) :: d else (k', v') :: dict_set k v d
  end.

(** [d.keys()], [d.values()] *)
Definition dict_keys d : list string := d.*1.
Definition dict_values d : list V := d.*2.

(** [{k x: v x for x in l}]: a later item overwrites an earlier one. *)
Definition dict_of_pairs (l : dict V) : dict V := foldl (λ d '(k, v), dict_set k v d) [] l.
Definition dict_comp {A} (key : A → string) (val : A → V) (l : list A) : dict V :=
  dict_of_pairs ((λ x, (key x, val x)) <$> l).

Definition dict_wf d : Prop := NoDup (dict_keys d).

Lemma dict_get_set_eq k v d : dict_get k (dict_set k v d) = Some v.
Proof.
  induction d as [|[k' v'] d IH]; simpl; [by rewrite decide_True|].
  destruct (decide (k = k')) as [->|]; simpl; [by rewrite decide_True|].
  by rewrite decide_False.
Qed.

Lemma dict_get_set_ne k k' v d : k ≠ k' → dict_get k (dict_set k' v d) = dict_get k d.
Proof.
  intros Hne. induction d as [|[k2 v2] d IH]; simpl; [by rewrite decide_False|].
  destruct (decide (k' = k2)) as [->|]; simpl.
  - by rewrite !decide_False.
  - by rewrite IH.
Qed.

Lemma dict_get_Some_elem k v d : dict_get k d = Some v → (k, v) ∈ d.
Proof.
  induction d as [|[k' v'] d IH]; simpl; [done|]. case_decide; intros; simplify_eq.
  - apply list_elem_of_here.
  - apply list_elem_of_further. auto.
Qed.

Lemma dict_get_elem k v d : dict_wf d → (k, v) ∈ d → dict_get k d = Some v.
Proof.
  unfold dict_wf. induction d as [|[k' v'] d IH]; simpl; [by intros _ ?%elem_of_nil|].
  intros [Hk Hd]%NoDup_cons [[= -> ->]|Hin]%elem_of_cons; [by rewrite decide_True|].
  rewrite decide_False; [by apply IH|]. intros ->. apply Hk.
  by apply (list_elem_of_fmap_2 fst _ (k', v)).
Qed.

Lemma dict_get_is_Some k d : is_Some (dict_get k d) ↔ k ∈ dict_keys d.
Proof.
  induction d as [|[k' v'] d IH]; simpl.
  - split; [by intros []|by intros ?%elem_of_nil].
  - case_decide; subst.
    + split; [intros _; apply list_elem_of_here|eauto].
    + rewrite IH, elem_of_cons. naive_solver.
Qed.

Lemma dict_get_None k d : dict_get k d = None ↔ k ∉ dict_keys d.
Proof. rewrite <- dict_get_is_Some, eq_None_not_Some. done. Qed.

Lemma dict_has_spec k d : dict_has k d = true ↔ k ∈ dict_keys d.
Proof. unfold dict_has. by rewrite bool_decide_eq_true, dict_get_is_Some. Qed.

Lemma dict_keys_set_elem k v d x : x ∈ dict_keys (dict_set k v d) ↔ x = k ∨ x ∈ dict_keys d.
Proof.
  rewrite <- !dict_get_is_Some. destruct (decide (x = k)) as [->|Hne].
  - rewrite dict_get_set_eq. naive_solver.
  - rewrite dict_get_set_ne by done. naive_solver.
Qed.

Lemma dict_set_wf k v d : dict_wf d → dict_wf (dict_set k v d).
Proof.
  unfold dict_wf. induction d as [|[k' v'] d IH]; simpl.
  - intros _. apply NoDup_singleton.
  - intros [Hk Hd]%NoDup_cons. case_decide; simpl; apply NoDup_cons; [done|].
    split; [|by apply IH]. intros [->|?]%dict_keys_set_elem; done.
Qed.

Lemma dict_of_pairs_snoc l k v : dict_of_pairs (l ++ [(k, v)]) = dict_set k v (dict_of_pairs l).
Proof. unfold dict_of_pairs. by rewrite foldl_app. Qed.

Lemma dict_of_pairs_wf l : dict_wf (dict_of_pairs l).
Proof.
  induction l as [|[k v] l IH] using rev_ind; [by apply NoDup_nil|].
  rewrite dict_of_pairs_snoc. by apply dict_set_wf.
Qed.

Lemma dict_of_pairs_keys l x : x ∈ dict_keys (dict_of_pairs l) ↔ x ∈ l.*1.
Proof.
  induction l as [|[k v] l IH] using rev_ind; [done|].
  rewrite dict_of_pairs_snoc, dict_keys_set_elem, IH, fmap_app, elem_of_app. simpl.
  rewrite list_elem_of_singleton. naive_solver.
Qed.

Lemma dict_set_fresh k v d : k ∉ dict_keys d → dict_set k v d = d ++ [(k, v)].
Proof.
  induction d as [|[k' v'] d IH]; simpl; [done|]. intros Hk.
  rewrite not_elem_of_cons in Hk. rewrite decide_False by naive_solver.
  f_equal. naive_solver.
Qed.

(** Without repeated keys a comprehension keeps the items as they come. *)
Lemma dict_of_pairs_NoDup l : NoDup l.*1 → dict_of_pairs l = l.
Proof.
  induction l as [|[k v] l IH] using rev_ind; [done|].
  rewrite fmap_app, NoDup_app. intros (Hl & Hdis & _).
  rewrite dict_of_pairs_snoc, dict_set_fresh; [by rewrite IH|].
  rewrite dict_of_pairs_keys. intros Hk. apply (Hdis k Hk). apply list_elem_of_here.
Qed.

Lemma dict_comp_wf {A} (key : A → string) (val : A → V) l : dict_wf (dict_comp key val l).
Proof. apply dict_of_pairs_wf. Qed.

Lemma dict_comp_keys {A} (key : A → string) (val : A → V) l x :
  x ∈ dict_keys (dict_comp key val l) ↔ x ∈ key <$> l.
Proof. unfold dict_comp. rewrite dict_of_pairs_keys, <- list_fmap_compose. done. Qed.

(** Every item of a comprehension comes from an element. *)
Lemma dict_comp_get {A} (key : A → string) (val : A → V) l k v :
  dict_get k (dict_comp key val l) = Some v → ∃ x, x ∈ l ∧ key x = k ∧ val x = v.
Proof.
  unfold dict_comp. induction l as [|x l IH] using rev_ind; [done|].
  rewrite fmap_app. simpl. rewrite dict_of_pairs_snoc.
  destruct (decide (k = key x)) as [->|Hne].
  - rewrite dict_get_set_eq. intros [= <-]. exists x. set_solver.
  - rewrite dict_get_set_ne by done. intros (y & ? & ?)%IH. exists y. set_solver.
Qed.

(** With injective keys the comprehension finds the element itself. *)
Lemma dict_comp_get_NoDup {A} (key : A → string) (val : A → V) l x :
  NoDup (key <$> l) → x ∈ l → dict_get (key x) (dict_comp key val l) = Some (val x).
Proof.
  intros Hnd Hx. apply dict_get_elem; [apply dict_comp_wf|].
  unfold dict_comp. rewrite dict_of_pairs_NoDup.
  - apply list_elem_of_fmap. eauto.
  - by rewrite <- list_fmap_compose.
Qed.

Lemma dict_comp_NoDup {A} (key : A → string) (val : A → V) l :
  NoDup (key <$> l) → dict_comp key val l = (λ x, (key x, val x)) <$> l.
Proof. intros Hnd. apply dict_of_pairs_NoDup. by rewrite <- list_fmap_compose. Qed.
End dict.

(** [d.setdefault(k, \[\]).append(x)] *)
Definition dict_push {V} (k : string) (x : V) (d : dict (list V)) : dict (list V) :=
  dict_set k (default [] (dict_get k d) ++ [x]) d.

(** [d.setdefault(k, v)] for its effect on [d] *)
Definition dict_setdefault {V} (k : string) (v : V) (d : dict V) : dict V :=
  match dict_get k d with Some _ => d | None => dict_set k v d end.

Lemma dict_get_push_eq {V} k (x : V) d :
  dict_get k (dict_push k x d) = Some (default [] (dict_get k d) ++ [x]).
Proof. apply dict_get_set_eq. Qed.

Lemma dict_get_push_ne {V} k k' (x : V) d :
  k ≠ k' → dict_get k (dict_push k' x d) = dict_get k d.
Proof. apply dict_get_set_ne. Qed.

Lemma dict_get_setdefault {V} k k' (v : V) d :
  dict_get k (dict_setdefault k' v d)
  = if decide (k = k') then Some (default v (dict_get k d)) else dict_get k d.
Proof.
  unfold dict_setdefault. case_decide; subst.
  - destruct (dict_get k' d) eqn:E; [done|apply dict_get_set_eq].
  - destruct (dict_get k' d) eqn:E; [done|by apply dict_get_set_ne].
Qed.

#[export] Hint Resolve dict_set_wf dict_of_pairs_wf dict_comp_wf : mcp.
