(* ===== verification/Json.v ===== *)
(** * JSON values as Python objects

    [json] is what [json.loads] (or a JSONB column) yields: [None], [bool],
    [int] (unbounded), [float], [str], [list] and [dict].  A float is a
    [spec_float]: a zero, an infinity, NaN, or sign, mantissa and exponent, so
    its value is exact.  [py_eq] is Python's [==] on these objects. *)
From S2P Require Import Prelude PyStr PyDict.
From Stdlib Require Import SpecFloat.

#[warnings="-register-all"]
Inductive json :=
| JNull
| JBool (b : bool)
| JInt (n : Z)
| JFloat (f : spec_float)
| JStr (s : string)
| JArr (l : list json)
| JObj (d : dict json).

(** Induction that reaches the elements of arrays and objects. *)
Section json_rect.
Context (P : json → Prop).
Context (Hnull : P JNull) (Hbool : ∀ b, P (JBool b)) (Hint : ∀ n, P (JInt n)).
Context (Hfloat : ∀ f, P (JFloat f)) (Hstr : ∀ s, P (JStr s)).
Context (Harr : ∀ l, Forall P l → P (JArr l)).
Context (Hobj : ∀ d, Forall (λ kv, P kv.2) d → P (JObj d)).

Fixpoint json_deep_ind (j : json) : P j :=
  match j with
  | JNull => Hnull
  | JBool b => Hbool b
  | JInt n => Hint n
  | JFloat f => Hfloat f
  | JStr s => Hstr s
  | JArr l => Harr l ((fix go l : Forall P l :=
      match l with
      | [] => List.Forall_nil P
      | x :: l => @List.Forall_cons _ P x l (json_deep_ind x) (go l)
      end) l)
  | JObj d => Hobj d ((fix go d : Forall (λ kv, P kv.2) d :=
      match d with
      | [] => List.Forall_nil _
      | kv :: d => @List.Forall_cons _ _ kv d (json_deep_ind kv.2) (go d)
      end) d)
  end.
End json_rect.

(** [isinstance(v, dict)], [isinstance(v, list)] and the like; a [bool] is an
    [int] for [isinstance], and [is_int] says whether [v] is an [int] that is
    no [bool]. *)
Definition is_dict (v : json) : bool := match v with JObj _ => true | _ => false end.
Definition is_list (v : json) : bool := match v with JArr _ => true | _ => false end.
Definition is_str (v : json) : bool := match v with JStr _ => true | _ => false end.
Definition is_bool (v : json) : bool := match v with JBool _ => true | _ => false end.
Definition is_none (v : json) : bool := match v with JNull => true | _ => false end.
Definition is_int (v : json) : bool := match v with JInt _ => true | _ => false end.
Definition is_float (v : json) : bool := match v with JFloat _ => true | _ => false end.

(** [v.get(k)] on a dict, [None] for a missing key *)
Definition get_or_none (k : string) (d : dict json) : json := default JNull (dict_get k d).

(** ** Exact numbers: [Num m e] is m * 2^e *)
Record num := Num { num_man : Z; num_exp : Z }.

Definition num_at (e : Z) (n : num) : Z := num_man n * 2 ^ (num_exp n - e).
Definition num_compare (a b : num) : comparison :=
  let e := Z.min (num_exp a) (num_exp b) in (num_at e a ?= num_at e b)%Z.
Definition num_eqb (a b : num) : bool :=
  match num_compare a b with Eq => true | _ => false end.
Definition num_ltb (a b : num) : bool :=
  match num_compare a b with Lt => true | _ => false end.
Definition num_leb (a b : num) : bool := negb (num_ltb b a).

(** The value of a finite float *)
Definition float_num (f : spec_float) : option num :=
  match f with
  | S754_zero _ => Some (Num 0 0)
  | S754_finite s m e => Some (Num (if s then Z.neg m else Z.pos m) e)
  | _ => None
  end.

(** [math.isfinite(f)] *)
Definition float_isfinite (f : spec_float) : bool :=
  match f with S754_infinity _ | S754_nan => false | _ => true end.

(** The value of a finite JSON number, excluding [bool] *)
Definition number_value (v : json) : option num :=
  match v with
  | JInt n => Some (Num n 0)
  | JFloat f => float_num f
  | _ => None
  end.

(** The value Python's [==] compares: a [bool] counts as 0 or 1. *)
Definition py_number (v : json) : option num :=
  match v with
  | JBool b => Some (Num (Z.b2z b) 0)
  | _ => number_value v
  end.

(** [left == right]; NaN differs from everything, itself included. *)
Fixpoint py_eq (l r : json) {struct l} : bool :=
  match l, r with
  | JNull, JNull => true
  | JStr a, JStr b => String.eqb a b
  | JArr a, JArr b =>
      (fix go (a b : list json) : bool :=
         match a, b with
         | [], [] => true
         | x :: a, y :: b => py_eq x y && go a b
         | _, _ => false
         end) a b
  | JObj a, JObj b =>
      (length a =? length b)%nat
      && (fix go (a : dict json) : bool :=
            match a with
            | [] => true
            | (k, x) :: a =>
                match dict_get k b with Some y => py_eq x y | None => false end && go a
            end) a
  | JFloat (S754_infinity s), JFloat (S754_infinity t) => Bool.eqb s t
  | _, _ =>
      match py_number l, py_number r with
      | Some a, Some b => num_eqb a b
      | _, _ => false
      end
  end.

(** ** Well-formedness: no object repeats a key *)
Fixpoint json_wf (v : json) : bool :=
  match v with
  | JArr l => forallb json_wf l
  | JObj d => no_dup (dict_keys d)
              && (fix go (d : dict json) : bool :=
                    match d with [] => true | (_, x) :: d => json_wf x && go d end) d
  | _ => true
  end.

(** No float in the value is NaN or an infinity. *)
Fixpoint json_finite (v : json) : bool :=
  match v with
  | JFloat f => float_isfinite f
  | JArr l => forallb json_finite l
  | JObj d => (fix go (d : dict json) : bool :=
                 match d with [] => true | (_, x) :: d => json_finite x && go d end) d
  | _ => true
  end.

(** [type(v).__name__]-like name of the JSON type *)
Definition json_type_name (v : json) : string :=
  match v with
  | JNull => "null"
  | JBool _ => "boolean"
  | JInt _ | JFloat _ => "number"
  | JStr _ => "string"
  | JArr _ => "array"
  | JObj _ => "object"
  end.

(** ** Exact comparison is a total order on values *)
Lemma num_at_shift n e e' :
  (e' ≤ e)%Z → (e ≤ num_exp n)%Z → num_at e' n = (num_at e n * 2 ^ (e - e'))%Z.
Proof.
  intros. unfold num_at. rewrite <- Z.mul_assoc, <- Z.pow_add_r by lia.
  do 2 f_equal. lia.
Qed.

(** Any common exponent gives the same comparison. *)
Lemma num_compare_at e a b :
  (e ≤ num_exp a)%Z → (e ≤ num_exp b)%Z → num_compare a b = (num_at e a ?= num_at e b)%Z.
Proof.
  intros Ha Hb. unfold num_compare. set (m := Z.min _ _).
  rewrite (num_at_shift a m e), (num_at_shift b m e) by lia.
  assert (0 < 2 ^ (m - e))%Z by (apply Z.pow_pos_nonneg; lia).
  by rewrite <- Zmult_compare_compat_r by lia.
Qed.

Definition low3 (a b c : num) : Z := Z.min (num_exp a) (Z.min (num_exp b) (num_exp c)).

(** Reduce every comparison among [a], [b], [c] to one of integers. *)
Ltac num_order a b c :=
  unfold num_eqb, num_leb, num_ltb in *;
  rewrite ?(num_compare_at (low3 a b c)) in * by (unfold low3; lia);
  repeat match goal with
  | H : context [(?x ?= ?y)%Z] |- _ => destruct (Z.compare_spec x y)
  | |- context [(?x ?= ?y)%Z] => destruct (Z.compare_spec x y)
  end; simpl in *; try done; try lia.

Lemma num_eqb_refl a : num_eqb a a = true.
Proof. unfold num_eqb, num_compare. by rewrite Z.compare_refl. Qed.

Lemma num_eqb_sym a b : num_eqb a b = num_eqb b a.
Proof. num_order a b a. Qed.

Lemma num_eqb_trans a b c : num_eqb a b = true → num_eqb b c = true → num_eqb a c = true.
Proof. intros. num_order a b c. Qed.

Lemma num_ltb_irrefl a : num_ltb a a = false.
Proof. unfold num_ltb, num_compare. by rewrite Z.compare_refl. Qed.

Lemma num_ltb_trans a b c : num_ltb a b = true → num_ltb b c = true → num_ltb a c = true.
Proof. intros. num_order a b c. Qed.

(** Exactly one of <, ==, > holds. *)
Lemma num_trichotomy a b :
  (num_ltb a b, num_eqb a b, num_ltb b a) ∈
    [(true, false, false); (false, true, false); (false, false, true)].
Proof. num_order a b a; set_solver. Qed.

Lemma num_eqb_int x y : num_eqb (Num x 0) (Num y 0) = Z.eqb x y.
Proof.
  unfold num_eqb, num_compare, num_at. simpl. rewrite !Z.mul_1_r.
  destruct (Z.compare_spec x y); symmetry; [apply Z.eqb_eq|apply Z.eqb_neq..]; lia.
Qed.

Lemma number_value_py v n : number_value v = Some n → py_number v = Some n.
Proof. destruct v; simpl; naive_solver. Qed.

(** Keys of a well-formed object *)
Lemma json_wf_obj d :
  json_wf (JObj d) = true ↔ dict_wf d ∧ ∀ k v, (k, v) ∈ d → json_wf v = true.
Proof.
  simpl. rewrite andb_true_iff. unfold no_dup, dict_wf. rewrite bool_decide_eq_true.
  apply and_iff_compat_l. induction d as [|[k v] d IH]; simpl.
  - split; [by intros _ ?? ?%elem_of_nil|done].
  - rewrite andb_true_iff, IH. setoid_rewrite elem_of_cons. naive_solver.
Qed.

Lemma json_finite_obj d :
  json_finite (JObj d) = true ↔ ∀ k v, (k, v) ∈ d → json_finite v = true.
Proof.
  simpl. induction d as [|[k v] d IH]; simpl.
  - split; [by intros _ ?? ?%elem_of_nil|done].
  - rewrite andb_true_iff, IH. setoid_rewrite elem_of_cons. naive_solver.
Qed.
