(* ===== verification/JsonStrict.v ===== *)
(** * Strict JSON equality and ordering (execution/predicate_evaluator.py)

    [json_strict_equal] as the code computes it, short-circuits and failures on
    non-finite floats included, against [json_sim], the equality of JSON values
    as mathematics: equal types, exact numbers, arrays pointwise, objects as
    maps. *)
From S2P Require Import Prelude PyStr PyDict Json.
From Stdlib Require Import SpecFloat.

Definition CODE_OPERAND_MISSING : string := "PREDICATE_OPERAND_MISSING".
Definition CODE_TYPE_MISMATCH : string := "PREDICATE_TYPE_MISMATCH".
Definition CODE_EVAL_FAILED : string := "PREDICATE_EVALUATION_FAILED".

(** [_fail] *)
Definition predicate_fail (code message : string) : py_error := AppError code message 409.

(** [_is_number] *)
Definition is_number (v : json) : bool := is_int v || is_float v.

(** [_reject_non_finite_number] *)
Definition reject_non_finite_number (v : json) : res unit :=
  match v with
  | JFloat f => raise_if (negb (float_isfinite f))
      (predicate_fail CODE_TYPE_MISMATCH
         "Non-finite float (NaN / ±Infinity) is not a comparable JSON number.")
  | _ => Ok tt
  end.

Fixpoint json_strict_equal (l r : json) {struct l} : res bool :=
  if is_none l && is_none r then Ok true
  else if is_bool l || is_bool r then
    Ok (match l, r with JBool a, JBool b => Bool.eqb a b | _, _ => false end)
  else if is_number l || is_number r then
    _ ← (if is_number l then reject_non_finite_number l else Ok tt);
    _ ← (if is_number r then reject_non_finite_number r else Ok tt);
    Ok (if is_number l && is_number r then py_eq l r else false)
  else match l, r with
  | JStr a, JStr b => Ok (String.eqb a b)
  | JArr a, JArr b =>
      if negb (length a =? length b)%nat then Ok false
      else (fix all2 (a b : list json) : res bool :=
              match a, b with
              | x :: a, y :: b => t ← json_strict_equal x y; if t : bool then all2 a b else Ok false
              | _, _ => Ok true
              end) a b
  | JObj a, JObj b =>
      if negb (same_set (dict_keys a) (dict_keys b)) then Ok false
      else (fix all_items (a : dict json) : res bool :=
              match a with
              | [] => Ok true
              | (k, x) :: a =>
                  y ← dict_item k b;
                  t ← json_strict_equal x y; if t : bool then all_items a else Ok false
              end) a
  | _, _ => Ok false
  end.

(** The loops by name, for the proofs *)
Fixpoint strict_all2 (a b : list json) : res bool :=
  match a, b with
  | x :: a, y :: b => t ← json_strict_equal x y; if t : bool then strict_all2 a b else Ok false
  | _, _ => Ok true
  end.
Fixpoint strict_all_items (b : dict json) (a : dict json) : res bool :=
  match a with
  | [] => Ok true
  | (k, x) :: a => y ← dict_item k b;
                   t ← json_strict_equal x y; if t : bool then strict_all_items b a else Ok false
  end.

(** ** Specification *)
#[warnings="-register-all"]
Inductive json_sim : json → json → Prop :=
| sim_null : json_sim JNull JNull
| sim_bool b : json_sim (JBool b) (JBool b)
| sim_num l r a b : number_value l = Some a → number_value r = Some b → num_eqb a b = true → json_sim l r
| sim_str s : json_sim (JStr s) (JStr s)
| sim_arr a b : length a = length b →
    (∀ i x y, a !! i = Some x → b !! i = Some y → json_sim x y) → json_sim (JArr a) (JArr b)
| sim_obj a b : (∀ k, k ∈ dict_keys a ↔ k ∈ dict_keys b) →
    (∀ k x y, dict_get k a = Some x → dict_get k b = Some y → json_sim x y) →
    json_sim (JObj a) (JObj b).

(** ** [_ordered_compare] *)
Inductive ordered_op := OGT | OGTE | OLT | OLTE.

(** [lv > rv] and the like on strings *)
Fixpoint str_compare (a b : string) : comparison :=
  match a, b with
  | EmptyString, EmptyString => Eq
  | EmptyString, _ => Lt
  | _, EmptyString => Gt
  | String c a, String d b =>
      match (code c ?= code d)%N with Eq => str_compare a b | o => o end
  end.

Definition ordered_result (op : ordered_op) (c : comparison) : bool :=
  match op, c with
  | OGT, Gt | OGTE, (Gt | Eq) | OLT, Lt | OLTE, (Lt | Eq) => true
  | _, _ => false
  end.

Definition ordered_compare (op : ordered_op) (l r : json) : res bool :=
  let mismatch := predicate_fail CODE_TYPE_MISMATCH
    "Ordered compare requires number↔number or string↔string (got {_json_type_name(left)} / {_json_type_name(right)})." in
  if is_number l && is_number r then
    _ ← reject_non_finite_number l;
    _ ← reject_non_finite_number r;
    match number_value l, number_value r with
    | Some a, Some b => Ok (ordered_result op (num_compare a b))
    | _, _ => Ok false
    end
  else match l, r with
  | JStr a, JStr b => Ok (ordered_result op (str_compare a b))
  | _, _ => Err mismatch
  end.

(** ** Lemmas *)
Lemma strict_equal_arr a b :
  json_strict_equal (JArr a) (JArr b)
  = if negb (length a =? length b)%nat then Ok false else strict_all2 a b.
Proof. reflexivity. Qed.

Lemma strict_equal_obj a b :
  json_strict_equal (JObj a) (JObj b)
  = if negb (same_set (dict_keys a) (dict_keys b)) then Ok false else strict_all_items b a.
Proof.
  cbn [json_strict_equal is_none is_bool is_number is_int is_float andb orb].
  case_match; [done|]. clear. induction a as [|[k x] a IH]; [done|]. simpl.
  destruct (dict_item k b) as [y|]; simpl; [|done].
  destruct (json_strict_equal x y) as [[]|]; simpl; done.
Qed.

Lemma number_value_is_number v a : number_value v = Some a → is_number v = true.
Proof. by destruct v. Qed.

Lemma finite_number v :
  is_number v = true → json_finite v = true → ∃ a, number_value v = Some a.
Proof. destruct v as [| | |[]| | |]; simpl; try done; eauto. Qed.

Lemma reject_finite v : json_finite v = true → reject_non_finite_number v = Ok tt.
Proof. destruct v; simpl; try done. by intros ->. Qed.

Lemma py_eq_number l r a b :
  number_value l = Some a → number_value r = Some b → py_eq l r = num_eqb a b.
Proof.
  destruct l as [| | |[]| | |], r as [| | |[]| | |]; simpl; intros Ha Hb; try done; by simplify_eq.
Qed.

Lemma strict_equal_mixed l r :
  is_number l = false → is_number r = false → is_bool l = false → is_bool r = false →
  json_type_name l ≠ json_type_name r → json_strict_equal l r = Ok false.
Proof. by destruct l, r. Qed.

Lemma sim_type l r : json_sim l r → json_type_name l = json_type_name r.
Proof.
  destruct 1 as [| |l r a b Ha Hb _| | |]; try done.
  by destruct l as [| | |[]| | |], r as [| | |[]| | |].
Qed.

(** What the induction gives for the elements *)
Definition decides_sim (l : json) : Prop := ∀ r,
  json_wf l = true → json_finite l = true → json_finite r = true →
  ∃ b : bool, json_strict_equal l r = Ok b ∧ (b = true ↔ json_sim l r).

Lemma strict_all2_sim a b :
  Forall decides_sim a → length a = length b →
  forallb json_wf a = true → forallb json_finite a = true → forallb json_finite b = true →
  ∃ t : bool, strict_all2 a b = Ok t ∧
    (t = true ↔ ∀ i x y, a !! i = Some x → b !! i = Some y → json_sim x y).
Proof.
  intros HF. revert b. induction HF as [|x a Hx HF IH]; intros [|y b] Hl Hwf Hfa Hfb; try done.
  - exists true. split; [done|]. split; [|done]. by intros _ [|i] x y.
  - simpl in *. inv_res. destruct (Hx y) as (t & Ht & Hts); [done..|]. rewrite Ht. simpl. destruct t.
    + destruct (IH b) as (t & -> & Hrest); [by lia|done..|]. exists t. split; [done|]. rewrite Hrest. split.
      * intros Hs [|i] x' y'; simpl; [intros [= <-] [= <-]; by apply Hts|apply Hs].
      * intros Hs i. apply (Hs (S i)).
    + exists false. split; [done|]. split; [done|]. intros Hs. apply Hts. by apply (Hs 0%nat).
Qed.

Lemma strict_all_items_sim b a :
  Forall (λ kv, decides_sim kv.2) a →
  (∀ k v, (k, v) ∈ a → json_wf v = true) → (∀ k v, (k, v) ∈ a → json_finite v = true) →
  (∀ k v, (k, v) ∈ a → ∃ y, dict_get k b = Some y ∧ json_finite y = true) →
  ∃ t : bool, strict_all_items b a = Ok t ∧
    (t = true ↔ ∀ k x y, (k, x) ∈ a → dict_get k b = Some y → json_sim x y).
Proof.
  induction 1 as [|[k x] a Hx HF IH]; intros Hwf Hfa Hfb.
  - exists true. split; [done|]. split; [|done]. by intros _ k x y ?%elem_of_nil.
  - simpl. destruct (Hfb k x (list_elem_of_here _ _)) as (y & Hy & Hfy).
    unfold dict_item. rewrite Hy. simpl.
    destruct (Hx y) as (t & Ht & Hts); [by eapply Hwf, list_elem_of_here|by eapply Hfa, list_elem_of_here|done|].
    cbn [snd] in Ht, Hts. rewrite Ht. simpl. destruct t.
    + destruct IH as (t & -> & Hrest).
      { intros k' v' Hin. by eapply Hwf, list_elem_of_further. }
      { intros k' v' Hin. by eapply Hfa, list_elem_of_further. }
      { intros k' v' Hin. by eapply Hfb, list_elem_of_further. }
      exists t. split; [done|]. rewrite Hrest. split.
      * intros Hs k' x' y' [[= -> ->]|Hin]%elem_of_cons Hy'; [|by eapply Hs].
        rewrite Hy in Hy'. injection Hy' as <-. by apply Hts.
      * intros Hs k' x' y' Hin. by apply Hs, list_elem_of_further.
    + exists false. split; [done|]. split; [done|]. intros Hs. apply Hts.
      eapply Hs; [apply list_elem_of_here|done].
Qed.

(** The result on finite, well-formed values, by induction on the left one *)
Lemma strict_equal_sim l : decides_sim l.
Proof.
  assert (∀ l r, is_number l = true ∨ is_number r = true → is_bool l = false → is_bool r = false →
    json_finite l = true → json_finite r = true →
    ∃ b : bool, json_strict_equal l r = Ok b ∧ (b = true ↔ json_sim l r)) as Hnum.
  { clear. intros l r Hor Hl Hr Hfl Hfr.
    exists (if is_number l && is_number r then py_eq l r else false). split.
    - destruct l, r; simpl in *; try (by destruct Hor); try done;
        rewrite ?Hfl, ?Hfr; done.
    - destruct (is_number l) eqn:El, (is_number r) eqn:Er; simpl.
      + destruct (finite_number l El Hfl) as [a Ha], (finite_number r Er Hfr) as [b Hb].
        rewrite (py_eq_number l r a b) by done. split; [by apply sim_num|].
        intros Hs. inversion Hs; subst; simplify_eq/=; try done.
      + split; [done|]. intros Hs%sim_type. by destruct l, r.
      + split; [done|]. intros Hs%sim_type. by destruct l, r.
      + by destruct Hor. }
  induction l as [|b|n|f|s|a IH|a IH] using json_deep_ind; intros r Hwf Hfl Hfr.
  - destruct r; try (exists false; split; [done|split; [done|]; intros Hs%sim_type; done]);
      try (apply Hnum; by auto).
    exists true. split; [done|]. split; [constructor|done].
  - exists (match r with JBool c => Bool.eqb b c | _ => false end).
    split; [by destruct r|]. split.
    + destruct r; try done. intros <-%Bool.eqb_prop. constructor.
    + inversion 1; subst; simplify_eq/=; try done. apply Bool.eqb_reflx.
  - destruct r; try (apply Hnum; by auto). exists false. split; [done|]. split; [done|]. intros Hs%sim_type; done.
  - destruct r; try (apply Hnum; by auto). exists false. split; [done|]. split; [done|]. intros Hs%sim_type; done.
  - destruct r; try (exists false; split; [done|split; [done|]; intros Hs%sim_type; done]);
      try (apply Hnum; by auto).
    exists (String.eqb s s0). split; [done|]. rewrite String.eqb_eq. split; [intros ->; constructor|].
    inversion 1; subst; simplify_eq/=; done.
  - destruct r; try (exists false; split; [done|split; [done|]; intros Hs%sim_type; done]);
      try (apply Hnum; by auto).
    rewrite strict_equal_arr. destruct (Nat.eqb_spec (length a) (length l)) as [Hl|Hl]; cbn [negb].
    + destruct (strict_all2_sim a l IH Hl Hwf Hfl Hfr) as (b & Hb & Hsim). exists b. split; [done|].
      rewrite Hsim. split; [by apply sim_arr|]. inversion 1; subst; simplify_eq/=; done.
    + exists false. split; [done|]. split; [done|]. inversion 1; subst; simplify_eq/=; done.
  - destruct r; try (exists false; split; [done|split; [done|]; intros Hs%sim_type; done]);
      try (apply Hnum; by auto).
    rewrite strict_equal_obj. destruct (same_set (dict_keys a) (dict_keys d)) eqn:Ek; cbn [negb].
    + rewrite same_set_spec in Ek. rewrite json_wf_obj in Hwf. destruct Hwf as [Hnd Hwf].
      rewrite json_finite_obj in Hfl, Hfr.
      destruct (strict_all_items_sim d a IH Hwf Hfl) as (b & Hb & Hsim).
      { intros k x Hin. assert (is_Some (dict_get k d)) as [y Hy].
        { apply dict_get_is_Some, Ek. by apply (list_elem_of_fmap_2 fst _ (k, x)). }
        exists y. split; [done|]. by eapply Hfr, dict_get_Some_elem. }
      exists b. split; [done|]. rewrite Hsim. split.
      * intros Hs. apply sim_obj; [done|]. intros k x y Hx%dict_get_Some_elem Hy. by eapply Hs.
      * inversion 1 as [| |? ? ? ? Hx| | |? ? _ Hs]; subst; [done|]. intros k x y Hx Hy.
        eapply Hs; [|done]. by apply dict_get_elem.
    + exists false. split; [done|]. split; [done|].
      inversion 1 as [| |? ? ? ? Hx| | |? ? Hk _]; subst; [done|].
      apply not_true_iff_false in Ek. exfalso. apply Ek. by apply same_set_spec.
Qed.

Lemma sim_refl v : json_finite v = true → json_sim v v.
Proof.
  induction v as [|b|n|f|s|a IH|a IH] using json_deep_ind; intros Hf; try by constructor.
  - eapply (sim_num _ _ (Num n 0) (Num n 0)); [done..|apply num_eqb_refl].
  - destruct (finite_number (JFloat f)) as [x Hx]; [done..|].
    eapply sim_num; [done..|apply num_eqb_refl].
  - apply sim_arr; [done|]. intros i x y Hx Hy. assert (x = y) as -> by congruence. rewrite Forall_forall in IH.
    simpl in Hf. rewrite forallb_elem in Hf.
    apply IH; [by eapply list_elem_of_lookup_2|]. by eapply Hf, list_elem_of_lookup_2.
  - apply sim_obj; [done|]. intros k x y Hx Hy. assert (x = y) as -> by congruence. rewrite Forall_forall in IH.
    rewrite json_finite_obj in Hf. apply dict_get_Some_elem in Hy.
    apply (IH (k, y)); [done|]. by eapply Hf.
Qed.

Lemma sim_sym l r : json_sim l r → json_sim r l.
Proof.
  induction 1 as [| |l r a b Ha Hb Hab| |a b Hl _ IH|a b Hk _ IH]; try by constructor.
  - eapply sim_num; [done..|]. by rewrite num_eqb_sym.
  - apply sim_arr; [done|]. intros i x y Hx Hy. by eapply IH.
  - apply sim_obj; [intros k; by rewrite Hk|]. intros k x y Hx Hy. by eapply IH.
Qed.

Lemma sim_trans l m r : json_sim l m → json_sim m r → json_sim l r.
Proof.
  intros Hlm. revert r.
  induction Hlm as [| |l m a b Ha Hb Hab| |a b Hl _ IH|a b Hk _ IH]; intros r Hmr; try done.
  - inversion Hmr; subst; simplify_eq/=; eapply sim_num; try done. by eapply num_eqb_trans.
  - inversion Hmr as [| |? ? ? ? Hv| |? c Hlc Hc|]; subst; [done|]. apply sim_arr; [congruence|].
    intros i x z Hx Hz. assert (i < length a)%nat as Hi by by eapply lookup_lt_Some.
    destruct (lookup_lt_is_Some_2 b i) as [y Hy]; [lia|]. eapply IH; [done..|]. by eapply Hc.
  - inversion Hmr as [| |? ? ? ? Hv| | |? c Hkc Hc]; subst; [done|]. apply sim_obj.
    { intros k. by rewrite Hk. }
    intros k x z Hx Hz. assert (is_Some (dict_get k b)) as [y Hy].
    { apply dict_get_is_Some, Hk, dict_get_is_Some. eauto. }
    eapply IH; [done..|]. by eapply Hc.
Qed.

(** Both orders of the operands give the same answer. *)
Lemma strict_equal_both l r :
  json_wf l = true → json_wf r = true → json_finite l = true → json_finite r = true →
  ∃ b : bool, json_strict_equal l r = Ok b ∧ json_strict_equal r l = Ok b ∧ (b = true ↔ json_sim l r).
Proof.
  intros Hwl Hwr Hfl Hfr.
  destruct (strict_equal_sim l r) as (b & Hb & Hbs); [done..|].
  destruct (strict_equal_sim r l) as (c & Hc & Hcs); [done..|].
  exists b. split; [done|]. split; [|done]. rewrite Hc. f_equal. apply eq_bool_prop_intro.
  rewrite !Is_true_true, Hbs, Hcs. split; apply sim_sym.
Qed.

(** ** Properties *)
(** On finite, well-formed JSON, [json_strict_equal] decides JSON equality:
    it never raises and answers true exactly when the values have the same
    type and are equal as values, numbers compared exactly across int and
    float, arrays pointwise, objects as maps whatever the key order.  So it is
    reflexive, symmetric and transitive there, which Python's [==] mixed with
    [bool] is not for JSON. *)
Theorem json_strict_equal_decides l r :
  json_wf l = true → json_wf r = true → json_finite l = true → json_finite r = true →
  (∃ b : bool, json_strict_equal l r = Ok b ∧ json_strict_equal r l = Ok b ∧ (b = true ↔ json_sim l r)) ∧
  json_strict_equal l l = Ok true ∧
  ∀ s, json_wf s = true → json_finite s = true →
    json_strict_equal l r = Ok true → json_strict_equal r s = Ok true → json_strict_equal l s = Ok true.
Proof.
  intros Hwl Hwr Hfl Hfr. split; [by apply strict_equal_both|].
  destruct (strict_equal_sim l r) as (b & Hb & Hbs); [done..|].
  destruct (strict_equal_sim l l) as (d & Hd & Hds); [done..|]. split.
  - rewrite Hd. f_equal. apply Hds, sim_refl, Hfl.
  - intros s Hws Hfs Hlr Hrs. destruct (strict_equal_sim r s) as (e & He & Hes); [done..|].
    destruct (strict_equal_sim l s) as (f & Hf & Hfs'); [done..|]. rewrite Hf. f_equal.
    apply Hfs'. apply (sim_trans l r s); [apply Hbs|apply Hes]; congruence.
Qed.

Lemma str_compare_eq a b : str_compare a b = Eq ↔ a = b.
Proof.
  revert b. induction a as [|c a IH]; intros [|d b]; simpl; try done.
  destruct (N.compare_spec (code c) (code d)) as [E|E|E].
  - rewrite IH. split; [|by intros [= _ ->]]. intros ->. f_equal.
    unfold code in E. apply (f_equal Ascii.ascii_of_N) in E. by rewrite !Ascii.ascii_N_embedding in E.
  - split; [done|]. intros [= -> _]. lia.
  - split; [done|]. intros [= -> _]. lia.
Qed.

(** The ordering operators are exact and agree with equality.  On two
    finite numbers (ints of any size and floats, mixed or not) or two strings,
    exactly one of [gt], strict equality and [lt] holds, [gte] is the negation of
    [lt] and [lte] of [gt]; on any other finite operands all four raise the type mismatch. *)
Theorem ordered_compare_trichotomy l r :
  json_wf l = true → json_finite l = true → json_finite r = true →
  (∃ lt eq gt : bool,
     ordered_compare OLT l r = Ok lt ∧ json_strict_equal l r = Ok eq ∧ ordered_compare OGT l r = Ok gt ∧
     ordered_compare OGTE l r = Ok (negb lt) ∧ ordered_compare OLTE l r = Ok (negb gt) ∧
     (lt, eq, gt) ∈ [(true, false, false); (false, true, false); (false, false, true)] ∧
     (is_number l && is_number r || is_str l && is_str r = true)) ∨
  (is_number l && is_number r || is_str l && is_str r = false ∧
   ∀ op, ∃ m, ordered_compare op l r = Err (predicate_fail CODE_TYPE_MISMATCH m)).
Proof.
  intros Hwl Hfl Hfr. destruct (is_number l && is_number r) eqn:En.
  - left. apply andb_true_iff in En as [Hl Hr].
    destruct (finite_number l Hl Hfl) as [a Ha], (finite_number r Hr Hfr) as [b Hb].
    unfold ordered_compare. rewrite Hl, Hr, !reject_finite, Ha, Hb by done.
    cbn [andb orb mbind res_bind].
    assert (json_strict_equal l r = Ok (num_eqb a b)) as ->.
    { destruct (strict_equal_sim l r) as (c & -> & Hcs); [done..|]. f_equal.
      apply eq_bool_prop_intro. rewrite !Is_true_true, Hcs. split; [|by apply sim_num].
      inversion 1; subst; simplify_eq/=; done. }
    unfold num_eqb. destruct (num_compare a b); do 3 eexists; repeat (split; [done|]);
      (split; [|done]); rewrite !elem_of_cons; auto.
  - destruct (is_str l && is_str r) eqn:Es.
    + left. destruct l, r; try done. unfold ordered_compare. simpl.
      destruct (str_compare s s0) eqn:Ec.
      * apply str_compare_eq in Ec as ->. rewrite String.eqb_refl.
        do 3 eexists. repeat (split; [done|]). split; [|done]. rewrite !elem_of_cons. auto.
      * assert (String.eqb s s0 = false) as ->
          by (apply String.eqb_neq; intros E%str_compare_eq; congruence).
        do 3 eexists. repeat (split; [done|]). split; [|done]. rewrite !elem_of_cons. auto.
      * assert (String.eqb s s0 = false) as ->
          by (apply String.eqb_neq; intros E%str_compare_eq; congruence).
        do 3 eexists. repeat (split; [done|]). split; [|done]. rewrite !elem_of_cons. auto.
    + right. split; [done|]. intros op. unfold ordered_compare. rewrite En.
      destruct l, r; try done; by eexists.
Qed.

(** Where strict equality and Python's [==] part *)
Example strict_bool_is_no_number :
  json_strict_equal (JBool true) (JInt 1) = Ok false ∧ py_eq (JBool true) (JInt 1) = true.
Proof. done. Qed.
