(* ===== verification/JsonPointer.v ===== *)
(** * JSON Pointer (RFC 6901 subset)

    [execution/json_pointer.py], the pointer grammar of
    [schemas/plan_binding.py] and the pointer encoder of
    [agent/sequential_readonly_pair.py].  [resolve_json_pointer] returns
    [None] for the [MISSING] sentinel, so JSON null ([Some JNull]) and a
    missing path are different results. *)
From S2P Require Import Prelude PyStr PyDict Json.
From Stdlib Require Import Ascii.

Definition SLASH : ascii := "/".
Definition TILDE : ascii := "~".

(** ** Definitions *)

(** The body of [_JSON_POINTER_RE] after the leading slash:
    [(?:[^~/]|~0|~1)+(?:/(?:[^~/]|~0|~1)+)*]; [started] says that the current
    token already has a character. *)
Fixpoint pointer_re_tokens (started : bool) (s : string) : bool :=
  match s with
  | EmptyString => started
  | String c r =>
      if Ascii.eqb c TILDE then
        match r with
        | String e r' => (Ascii.eqb e "0" || Ascii.eqb e "1") && pointer_re_tokens true r'
        | EmptyString => false
        end
      else if Ascii.eqb c SLASH then started && pointer_re_tokens false r
      else pointer_re_tokens true r
  end.

(** [_JSON_POINTER_RE.fullmatch(path)] *)
Definition json_pointer_re (path : string) : bool :=
  match path with
  | String c r => Ascii.eqb c SLASH && (str_empty r || pointer_re_tokens false r)
  | EmptyString => false
  end.

Definition is_valid_json_pointer_subset (path : string) : bool :=
  match path with
  | EmptyString => false
  | String c _ =>
      if negb (Ascii.eqb c SLASH) then false
      else if str_in "#" path then false
      else if str_in "//" path then false
      else if String.eqb path "/" then true
      else json_pointer_re path
  end.

Definition decode_pointer_token (token : string) : string :=
  replace "~0" "~" (replace "~1" "/" token).

Definition pointer_tokens (path : string) : res (list string) :=
  if negb (is_valid_json_pointer_subset path) then Err (PyException "ValueError")
  else if String.eqb path "/" then Ok []
  else Ok (decode_pointer_token <$> tail (split_on SLASH path)).

(** One step of the evaluation loop; [Ok None] is [MISSING]. *)
Definition pointer_step (current : json) (token : string) : res (option json) :=
  match current with
  | JObj d => Ok (dict_get token d)
  | JArr l =>
      if negb (isdigit token) then Ok None
      else if negb (String.eqb token "0") && String.prefix "0" token then Ok None
      else index ← int_of_digits token;
           if (index <? 0)%Z || (Z.of_nat (length l) <=? index)%Z then Ok None
           else Ok (l !! Z.to_nat index)
  | _ => Ok None
  end.

Fixpoint resolve_tokens (current : json) (tokens : list string) : res (option json) :=
  match tokens with
  | [] => Ok (Some current)
  | t :: ts =>
      next ← pointer_step current t;
      match next with
      | None => Ok None
      | Some v => resolve_tokens v ts
      end
  end.

Definition resolve_json_pointer (root : json) (path : string) : res (option json) :=
  tokens ← pointer_tokens path; resolve_tokens root tokens.

(** [sequential_readonly_pair._json_pointer_token] *)
Definition json_pointer_token (name : string) : string :=
  replace "/" "~1" (replace "~" "~0" name).

(** ["/" + "/".join(_json_pointer_token(t) for t in tokens)], the way
    [discover_id_handoffs] writes its path *)
Definition pointer_of_tokens (tokens : list string) : string :=
  String SLASH (join SLASH (json_pointer_token <$> tokens)).

(** Walking a value along object keys and array positions, the specification
    of a path. *)
Inductive path_step := Key (k : string) | Index (i : nat).

Definition step_token (p : path_step) : string :=
  match p with Key k => k | Index i => decimal (N.of_nat i) end.

Fixpoint walk (v : json) (ps : list path_step) : option json :=
  match ps with
  | [] => Some v
  | Key k :: ps => match v with JObj d => x ← dict_get k d; walk x ps | _ => None end
  | Index i :: ps => match v with JArr l => x ← l !! i; walk x ps | _ => None end
  end.

(** ** Escaping *)
Definition escape_char (c : ascii) : string :=
  if Ascii.eqb c TILDE then "~0" else if Ascii.eqb c SLASH then "~1" else String c "".
Definition half_char (c : ascii) : string :=
  if Ascii.eqb c TILDE then "~0" else String c "".

Lemma concat_map_compose f g s :
  concat_map f (concat_map g s) = concat_map (λ c, concat_map f (g c)) s.
Proof.
  assert (Happ : ∀ a b, concat_map f (a +:+ b) = concat_map f a +:+ concat_map f b).
  { intros a b. induction a as [|c a IH]; simpl; [done|]. by rewrite IH, str_app_assoc. }
  induction s as [|c s IH]; simpl; [done|]. by rewrite Happ, IH.
Qed.

Lemma concat_map_ext f g s : (∀ c, f c = g c) → concat_map f s = concat_map g s.
Proof. intros H. induction s as [|c s IH]; simpl; [done|]. by rewrite H, IH. Qed.

Lemma json_pointer_token_escape s : json_pointer_token s = concat_map escape_char s.
Proof.
  unfold json_pointer_token. rewrite !replace_char, concat_map_compose.
  apply concat_map_ext. intros c. unfold escape_char, TILDE, SLASH.
  destruct (Ascii.eqb_spec c "~") as [->|]; [done|]. simpl.
  destruct (Ascii.eqb_spec c "/") as [->|]; [done|]. done.
Qed.

Lemma eqb_false_neq (c d : ascii) : c ≠ d → Ascii.eqb c d = false.
Proof. by destruct (Ascii.eqb_spec c d). Qed.

(** A pattern that starts with [~] is passed over at any other character. *)
Lemma replace_skip pat rep c s :
  c ≠ TILDE →
  replace (String "~" pat) rep (String c s) = String c (replace (String "~" pat) rep s).
Proof.
  change (String "~" pat) with (String TILDE pat). intros H. unfold replace. rewrite replace_from_cons, prefix_cons.
  by destruct (Ascii.eqb_spec TILDE c) as [<-|_].
Qed.

Ltac step_replace IH :=
  unfold replace in *; cbn [String.append];
  repeat (rewrite replace_from_cons, !prefix_cons, ?prefix_nil; simpl; try done);
  by rewrite ?IH.

Lemma decode_one_escape s :
  replace "~1" "/" (concat_map escape_char s) = concat_map half_char s.
Proof.
  induction s as [|c s IH]; [done|]. simpl. unfold escape_char at 1, half_char at 1.
  destruct (Ascii.eqb_spec c TILDE) as [->|Ht]; [|destruct (Ascii.eqb_spec c SLASH) as [->|Hs]].
  - step_replace IH.
  - step_replace IH.
  - simpl. rewrite (replace_skip "1" "/") by done. by rewrite IH.
Qed.

Lemma decode_zero_half s : replace "~0" "~" (concat_map half_char s) = s.
Proof.
  induction s as [|c s IH]; [done|]. simpl. unfold half_char at 1.
  destruct (Ascii.eqb_spec c TILDE) as [->|Ht].
  - step_replace IH.
  - simpl. rewrite (replace_skip "0" "~") by done. by rewrite IH.
Qed.

Lemma decode_escape s : decode_pointer_token (json_pointer_token s) = s.
Proof.
  unfold decode_pointer_token. by rewrite json_pointer_token_escape, decode_one_escape, decode_zero_half.
Qed.

Lemma escape_no_slash s :
  str_all (λ c, negb (Ascii.eqb c SLASH)) (json_pointer_token s) = true.
Proof.
  rewrite json_pointer_token_escape. apply str_all_concat_map. intros c.
  unfold escape_char. destruct (Ascii.eqb_spec c TILDE); [done|].
  destruct (Ascii.eqb_spec c SLASH); [done|]. simpl. by rewrite eqb_false_neq.
Qed.

(** ** The grammar accepts every escaped path *)
Lemma pointer_re_escape s t b :
  pointer_re_tokens b (concat_map escape_char s +:+ t) =
  pointer_re_tokens (b || negb (str_empty s)) t.
Proof.
  revert b. induction s as [|c s IH]; simpl; intros b; [by rewrite orb_false_r|].
  rewrite orb_true_r. unfold escape_char.
  destruct (Ascii.eqb_spec c TILDE) as [->|Ht]; [|destruct (Ascii.eqb_spec c SLASH) as [->|Hs]];
    simpl; rewrite ?eqb_false_neq by done; rewrite IH; done.
Qed.

Lemma escape_nonempty s : str_empty s = false → str_empty (json_pointer_token s) = false.
Proof.
  rewrite json_pointer_token_escape. destruct s as [|c s]; [done|]. simpl.
  unfold escape_char. by repeat case_match.
Qed.

Lemma pointer_re_join ts :
  ts ≠ [] → (∀ t, t ∈ ts → str_empty t = false) →
  pointer_re_tokens false (join SLASH (json_pointer_token <$> ts)) = true.
Proof.
  intros Hne. induction ts as [|t ts IH]; [done|]. intros Ht.
  assert (str_empty t = false) as Hte by (apply Ht; apply list_elem_of_here).
  destruct ts as [|t' ts].
  - simpl. rewrite <- (str_app_nil_r (json_pointer_token t)), json_pointer_token_escape.
    rewrite pointer_re_escape, Hte. done.
  - change (join SLASH (json_pointer_token <$> t :: t' :: ts)) with
      (json_pointer_token t +:+ String SLASH (join SLASH (json_pointer_token <$> t' :: ts))).
    rewrite json_pointer_token_escape, pointer_re_escape, Hte.
    apply IH; [done|]. intros u Hu. apply Ht. by apply list_elem_of_further.
Qed.

(** No character [#], and no [//], appears in an escaped path. *)
Lemma escape_no_char c s :
  c ≠ TILDE → c ≠ "0"%char → c ≠ "1"%char → c ≠ SLASH → str_in (String c "") s = false →
  str_in (String c "") (json_pointer_token s) = false.
Proof.
  intros Ht H0 H1 Hs. rewrite !str_in_char, !negb_false_iff, json_pointer_token_escape.
  induction s as [|d s IH]; simpl; [done|]. intros [Hd Hr]%andb_true_iff.
  rewrite str_all_app, (IH Hr), andb_true_r. unfold escape_char.
  destruct (Ascii.eqb_spec d TILDE); [|destruct (Ascii.eqb_spec d SLASH)]; simpl;
    unfold TILDE, SLASH in *; rewrite ?Hd; repeat rewrite eqb_false_neq by congruence; done.
Qed.

Lemma join_no_char c ts :
  c ≠ SLASH → (∀ t, t ∈ ts → str_in (String c "") t = false) →
  str_in (String c "") (join SLASH ts) = false.
Proof.
  intros Hc. induction ts as [|t ts IH]; intros Ht; [done|].
  assert (str_in (String c "") t = false) as Htc by (apply Ht; apply list_elem_of_here).
  destruct ts as [|t' ts]; [done|].
  change (join SLASH (t :: t' :: ts)) with (t +:+ String SLASH (join SLASH (t' :: ts))).
  rewrite str_in_char, negb_false_iff in *. rewrite str_all_app, Htc, str_all_cons.
  rewrite (eqb_false_neq SLASH c) by done. simpl andb.
  apply IH. intros u Hu. apply Ht. by apply list_elem_of_further.
Qed.

Lemma double_slash_word w t :
  str_all (λ c, negb (Ascii.eqb c SLASH)) w = true → str_in "//" (w +:+ t) = str_in "//" t.
Proof.
  induction w as [|c w IH]; [done|]. simpl str_all.
  rewrite andb_true_iff, negb_true_iff. intros [Hc Hw]. rewrite <- (IH Hw).
  change (String c w +:+ t) with (String c (w +:+ t)).
  rewrite str_in_cons, prefix_cons. change "/"%char with SLASH.
  by rewrite Ascii.eqb_sym, Hc.
Qed.

Lemma double_slash_join ws :
  (∀ w, w ∈ ws → str_empty w = false ∧ str_all (λ c, negb (Ascii.eqb c SLASH)) w = true) →
  str_in "//" (String SLASH (join SLASH ws)) = false.
Proof.
  induction ws as [|w ws IH]; intros Hw; [done|].
  destruct (Hw w (list_elem_of_here _ _)) as [Hne Hns].
  assert (str_in "//" (join SLASH (w :: ws)) = false) as Hj.
  { destruct ws as [|w' ws]; simpl join.
    - rewrite <- (str_app_nil_r w), double_slash_word by done. done.
    - rewrite double_slash_word by done. apply IH.
      intros v Hv. apply Hw. by apply list_elem_of_further. }
  rewrite str_in_cons, Hj, orb_false_r, prefix_cons.
  change "/"%char with SLASH. rewrite Ascii.eqb_refl. simpl andb.
  destruct w as [|c w]; [done|]. simpl in Hns.
  apply andb_true_iff in Hns as [Hc%negb_true_iff _].
  destruct ws; simpl join; cbn [String.append]; rewrite prefix_cons;
    change "/"%char with SLASH; by rewrite Ascii.eqb_sym, Hc.
Qed.

(** ** Tokens *)
(** A token the pointer subset can carry: non-empty and without [#]. *)
Definition token_ok (t : string) : bool := negb (str_empty t) && negb (str_in "#" t).

Lemma pointer_of_tokens_valid ts :
  forallb token_ok ts = true → is_valid_json_pointer_subset (pointer_of_tokens ts) = true.
Proof.
  rewrite forallb_elem. unfold token_ok. intros Hok.
  assert (∀ t, t ∈ ts → str_empty t = false ∧ str_in "#" t = false) as Ht.
  { intros t Hin. specialize (Hok t Hin). by rewrite andb_true_iff, !negb_true_iff in Hok. }
  unfold is_valid_json_pointer_subset, pointer_of_tokens.
  rewrite Ascii.eqb_refl. simpl negb. cbv iota.
  rewrite str_in_cons, prefix_cons. simpl orb.
  rewrite (join_no_char "#") by
    (try done; intros t (u & -> & Hu)%list_elem_of_fmap; apply escape_no_char; naive_solver).
  rewrite double_slash_join by
    (intros w (u & -> & Hu)%list_elem_of_fmap; split; [apply escape_nonempty; naive_solver|apply escape_no_slash]).
  case_match; [done|]. simpl json_pointer_re.
  destruct ts as [|t ts]; [done|]. apply orb_true_iff. right.
  apply pointer_re_join; naive_solver.
Qed.

(** ** Properties *)
Lemma split_pointer ts :
  ts ≠ [] →
  split_on SLASH (pointer_of_tokens ts) = "" :: (json_pointer_token <$> ts).
Proof.
  intros Hne. etrans; [apply (split_on_app SLASH "" _ eq_refl)|].
  rewrite split_join; [done| |].
  - by destruct ts.
  - intros w (t & -> & _)%list_elem_of_fmap. apply escape_no_slash.
Qed.

Lemma pointer_of_tokens_root ts :
  forallb token_ok ts = true → String.eqb (pointer_of_tokens ts) "/" = bool_decide (ts = []).
Proof.
  intros Hok. unfold pointer_of_tokens. destruct ts as [|t ts]; [done|].
  rewrite (bool_decide_eq_false_2 (_ :: _ = [])) by done. apply String.eqb_neq.
  intros [= E]. simpl in Hok. apply andb_true_iff in Hok as [Hok _].
  unfold token_ok in Hok. apply andb_true_iff in Hok as [Hne _]. apply negb_true_iff in Hne.
  apply escape_nonempty in Hne. destruct ts; simpl in E; [by rewrite E in Hne|].
  by destruct (json_pointer_token t).
Qed.

Lemma pointer_tokens_roundtrip_aux ts :
  forallb token_ok ts = true → pointer_tokens (pointer_of_tokens ts) = Ok ts.
Proof.
  intros Hok. unfold pointer_tokens.
  rewrite pointer_of_tokens_valid, pointer_of_tokens_root by done. simpl negb. cbv iota.
  case_bool_decide as Hts; [by subst|]. f_equal. rewrite split_pointer by done. simpl tail.
  rewrite <- list_fmap_compose. rewrite <- (list_fmap_id ts) at 2.
  apply list_fmap_ext. intros _ t _. apply decode_escape.
Qed.

(** Splitting and decoding the pointer that the encoder writes gives back
    the tokens, for every list of non-empty tokens without [#]; tokens may
    contain [/] and [~]. *)
Theorem pointer_tokens_roundtrip ts :
  forallb token_ok ts = true → pointer_tokens (pointer_of_tokens ts) = Ok ts.
Proof. apply pointer_tokens_roundtrip_aux. Qed.

Lemma pointer_tokens_roundtrip_witness :
  pointer_tokens "/a~1b/~0/m~01n" = Ok ["a/b"; "~"; "m~1n"].
Proof. exact (pointer_tokens_roundtrip ["a/b"; "~"; "m~1n"] eq_refl). Defined.

(** A path the pointer syntax can express: keys are non-empty without [#],
    and an index has at most 4300 digits. *)
Definition step_ok (p : path_step) : bool :=
  match p with
  | Key k => token_ok k
  | Index i => (N.of_nat i <? 2 ^ N.of_nat 4299)%N
  end.

Lemma decimal_no_hash n : str_in "#" (decimal n) = false.
Proof.
  rewrite str_in_char, negb_false_iff. eapply str_all_impl; [|apply decimal_digits].
  intros c Hc. destruct (Ascii.eqb_spec c "#") as [->|]; [by vm_compute in Hc|done].
Qed.

Lemma step_token_ok p : step_ok p = true → token_ok (step_token p) = true.
Proof.
  destruct p as [k|i]; [done|]. intros _. unfold token_ok. simpl step_token.
  by rewrite decimal_nonempty, decimal_no_hash.
Qed.

Lemma pointer_step_index l i :
  step_ok (Index i) = true → pointer_step (JArr l) (decimal (N.of_nat i)) = Ok (l !! i).
Proof.
  intros Hi%N.ltb_lt. unfold pointer_step. rewrite decimal_isdigit. simpl negb. cbv iota.
  assert (negb (String.eqb (decimal (N.of_nat i)) "0") && String.prefix "0" (decimal (N.of_nat i))
          = false) as ->.
  { destruct (N.eq_dec (N.of_nat i) 0) as [->|Hz]; [done|].
    by rewrite decimal_leading, andb_false_r. }
  rewrite int_of_digits_decimal by done. simpl.
  rewrite nat_N_Z. simpl. rewrite Nat2Z.id. destruct (Z.leb_spec (Z.of_nat (length l)) (Z.of_nat i)).
  - rewrite orb_true_r, lookup_ge_None_2 by lia. done.
  - rewrite orb_false_r. destruct (Z.ltb_spec (Z.of_nat i) 0); [lia|done].
Qed.

Lemma resolve_tokens_walk v ps x :
  forallb step_ok ps = true → walk v ps = Some x →
  resolve_tokens v (step_token <$> ps) = Ok (Some x).
Proof.
  revert v. induction ps as [|p ps IH]; intros v; [by intros _ [= ->]|].
  simpl forallb. intros [Hp Hps]%andb_true_iff Hw. destruct p as [k|i]; simpl in Hw.
  - destruct v as [| | | | | |d]; try done. simpl.
    destruct (dict_get k d) as [y|]; [|done]. by apply IH.
  - destruct v as [| | | | |l|]; try done.
    apply bind_Some in Hw as (y & Hy & Hw).
    cbn [fmap list_fmap resolve_tokens step_token]. rewrite pointer_step_index by done.
    rewrite Hy. by apply IH.
Qed.

(** Evaluating the pointer written for a path reaches exactly the value
    the path leads to, including a JSON null and including keys that contain
    [/] or [~]. *)
Theorem resolve_json_pointer_walk v ps x :
  forallb step_ok ps = true → walk v ps = Some x →
  resolve_json_pointer v (pointer_of_tokens (step_token <$> ps)) = Ok (Some x).
Proof.
  intros Hok Hw. unfold resolve_json_pointer. rewrite pointer_tokens_roundtrip_aux.
  - by apply resolve_tokens_walk.
  - apply forallb_elem. rewrite forallb_elem in Hok. intros t (p & -> & Hp)%list_elem_of_fmap.
    by apply step_token_ok, Hok.
Qed.

Definition sample_doc : json :=
  JObj [("a/b", JArr [JInt 1; JObj [("~", JNull)]])].

Lemma resolve_json_pointer_walk_witness :
  resolve_json_pointer sample_doc "/a~1b/1/~0" = Ok (Some JNull).
Proof.
  exact (resolve_json_pointer_walk sample_doc [Key "a/b"; Index 1; Key "~"] JNull eq_refl eq_refl).
Defined.

(** Conversely a resolved value is reached by keys and in-range indices. *)
Definition reads (p : path_step) (t : string) : Prop :=
  match p with
  | Key k => t = k
  | Index i => int_of_digits t = Ok (Z.of_nat i)
  end.

Lemma pointer_step_sound v t x :
  pointer_step v t = Ok (Some x) → ∃ p, reads p t ∧ walk v [p] = Some x.
Proof.
  destruct v as [| | | | |l|d]; try done; simpl.
  - repeat case_match; try done. intros (i & Hi & Hx)%bind_Ok.
    destruct (Z.ltb_spec i 0); [done|]. destruct (Z.leb_spec (Z.of_nat (length l)) i); [done|].
    exists (Index (Z.to_nat i)). simpl in *. rewrite Z2Nat.id by lia. split; [done|].
    by injection Hx as ->.
  - intros [= H]. exists (Key t). by rewrite H.
Qed.

Lemma walk_app v ps qs : walk v (ps ++ qs) = (x ← walk v ps; walk x qs).
Proof.
  revert v. induction ps as [|p ps IH]; intros v; [done|]. destruct p; destruct v; try done; simpl.
  - by destruct (dict_get k d); simpl.
  - by destruct (l !! i); simpl.
Qed.

(** Whatever a pointer resolves to is a sub-value of the document, read
    along one key or in-range index per token. *)
Theorem resolve_json_pointer_sound v path x :
  resolve_json_pointer v path = Ok (Some x) →
  ∃ ts ps, pointer_tokens path = Ok ts ∧ Forall2 reads ps ts ∧ walk v ps = Some x.
Proof.
  unfold resolve_json_pointer. intros (ts & Hts & Hr)%bind_Ok. exists ts.
  enough (∃ ps, Forall2 reads ps ts ∧ walk v ps = Some x) as (ps & ? & ?) by eauto.
  clear Hts. revert v Hr. induction ts as [|t ts IH]; simpl; intros v.
  - intros [= ->]. exists []. by split.
  - intros ([y|] & Hy & Hr)%bind_Ok; [|done].
    apply pointer_step_sound in Hy as (p & Hp & Hw). destruct (IH y Hr) as (ps & Hps & Hx).
    exists (p :: ps). split; [by constructor|].
    change (p :: ps) with ([p] ++ ps). by rewrite walk_app, Hw.
Qed.

Lemma resolve_json_pointer_sound_witness :
  ∃ ts ps, pointer_tokens "/a~1b/1" = Ok ts ∧ Forall2 reads ps ts ∧
           walk sample_doc ps = Some (JObj [("~", JNull)]).
Proof. apply resolve_json_pointer_sound. reflexivity. Defined.

(** An index token that [int] accepts whenever [isdigit] does. *)
Definition token_plain (t : string) : bool :=
  negb (str_all is_digit_char t) || (str_all is_ascii_digit t && (String.length t <=? 4300)%nat).

(** C40: on a valid pointer whose digit tokens are ASCII digits of at most 4300
    characters, evaluation never raises: the result is a value or [MISSING]. *)
Theorem resolve_json_pointer_total v path ts :
  pointer_tokens path = Ok ts → forallb token_plain ts = true →
  ∃ r, resolve_json_pointer v path = Ok r.
Proof.
  intros Hts Hp. unfold resolve_json_pointer. rewrite Hts. simpl. clear Hts path.
  revert v Hp. induction ts as [|t ts IH]; simpl; intros v; [eauto|].
  intros [Ht Hp]%andb_true_iff.
  assert (∃ o, pointer_step v t = Ok o) as [[y|] ->]; [|by apply IH|by eexists].
  destruct v as [| | | | |l|d]; simpl; eauto.
  unfold isdigit. destruct (str_empty t) eqn:Et; [by eexists|].
  unfold token_plain in Ht. destruct (str_all is_digit_char t); [|by eexists].
  simpl in *. apply andb_true_iff in Ht as [Ht Hl].
  case_match; [by eexists|]. unfold int_of_digits, MAX_INT_STR_DIGITS.
  rewrite Ht, Et, Hl. simpl. case_match; by eexists.
Qed.

Lemma resolve_json_pointer_total_witness :
  ∃ r, resolve_json_pointer (JArr [JInt 1]) "/7" = Ok r.
Proof. by apply (resolve_json_pointer_total _ _ ["7"]). Defined.

(** The side condition is needed: [isdigit] accepts U+00B2, [int] does not. *)
Example superscript_index_raises :
  resolve_json_pointer (JArr [JInt 1]) (String "/" (String "178" "")) = Err (PyException "ValueError").
Proof. reflexivity. Qed.
