(* ===== verification/PyUuid.v ===== *)
(** * UUIDs

    A [uuid.UUID] is its 128-bit integer.  [uuid_hex] is [.hex], [uuid_str] is
    [str()], and [uuid_parse] is the constructor [uuid.UUID(text)] of the
    standard library, which accepts every spelling that library accepts
    (braces, [urn:uuid:], hyphens anywhere, upper case, and whatever
    [int(text, 16)] takes); [None] stands for [ValueError]. *)
From S2P Require Import Prelude PyStr.
From Stdlib Require Import Ascii.

Definition uuid : Type := N.
#[export] Instance uuid_eq_dec : EqDecision uuid := N.eq_dec.
#[export] Instance uuid_countable : Countable uuid := N_countable.

Definition uuid_ok (u : uuid) : Prop := (u < 2 ^ 128)%N.

(** The [w] low hexadecimal digits of [n], most significant first *)
Fixpoint hex_fixed (w : nat) (n : N) : string :=
  match w with
  | O => ""
  | S w => String (hex_char (n / 16 ^ N.of_nat w mod 16)) (hex_fixed w n)
  end.

Definition uuid_hex (u : uuid) : string := hex_fixed 32 u.

Definition uuid_str (u : uuid) : string :=
  hex_fixed 8 (u / 2 ^ 96) +:+ "-" +:+ hex_fixed 4 (u / 2 ^ 80) +:+ "-" +:+
  hex_fixed 4 (u / 2 ^ 64) +:+ "-" +:+ hex_fixed 4 (u / 2 ^ 48) +:+ "-" +:+ hex_fixed 12 u.

(** ** [int(text, 16)] *)
Definition hex_value (c : ascii) : option N :=
  if in_range 48 57 c then Some (code c - 48)%N
  else if in_range 97 102 c then Some (code c - 87)%N
  else if in_range 65 70 c then Some (code c - 55)%N
  else None.

(** Digits with single underscores between them; [after] says that the last
    character was a digit. *)
Fixpoint hex_digits (after : bool) (acc : N) (s : string) : option N :=
  match s with
  | EmptyString => if after then Some acc else None
  | String c r =>
      if Ascii.eqb c "_" then if after then hex_digits false acc r else None
      else match hex_value c with
           | Some v => hex_digits true (16 * acc + v) r
           | None => None
           end
  end.

(** An optional [0x] may be followed by one underscore. *)
Definition hex_body (s : string) : option N :=
  match s with
  | String z (String x r) =>
      if Ascii.eqb z "0" && (Ascii.eqb x "x" || Ascii.eqb x "X")
      then match r with
           | String u r' => if Ascii.eqb u "_" then hex_digits false 0 r' else hex_digits false 0 r
           | EmptyString => None
           end
      else hex_digits false 0 s
  | _ => hex_digits false 0 s
  end.

Definition int_base16 (s : string) : option Z :=
  match strip s with
  | String c r =>
      if Ascii.eqb c "-" then (λ n, - Z.of_N n)%Z <$> hex_body r
      else if Ascii.eqb c "+" then Z.of_N <$> hex_body r
      else Z.of_N <$> hex_body (String c r)
  | EmptyString => None
  end.

(** [s.strip("{}")] *)
Definition is_brace (c : ascii) : bool := Ascii.eqb c "{" || Ascii.eqb c "}".
Fixpoint lstrip_braces (s : string) : string :=
  match s with
  | String c r => if is_brace c then lstrip_braces r else s
  | EmptyString => EmptyString
  end.
Fixpoint rstrip_braces (s : string) : string :=
  match s with
  | EmptyString => EmptyString
  | String c r =>
      match rstrip_braces r with
      | EmptyString => if is_brace c then EmptyString else String c EmptyString
      | r' => String c r'
      end
  end.

Definition uuid_parse (text : string) : option uuid :=
  let hex := replace "uuid:" "" (replace "urn:" "" text) in
  let hex := replace "-" "" (rstrip_braces (lstrip_braces hex)) in
  if negb (String.length hex =? 32)%nat then None
  else match int_base16 hex with
       | Some n => if (0 <=? n)%Z && (n <? 2 ^ 128)%Z then Some (Z.to_N n) else None
       | None => None
       end.

(** ** Fixed-width hexadecimal *)
Lemma hex_fixed_length w n : String.length (hex_fixed w n) = w.
Proof. induction w as [|w IH]; simpl; [done|]. by rewrite IH. Qed.

Lemma hex_value_char k : (k < 16)%N → hex_value (hex_char k) = Some k.
Proof.
  intros Hk. unfold hex_value, hex_char, in_range, code.
  destruct (N.ltb_spec k 10); rewrite N_ascii_embedding by lia; repeat case_match;
    rewrite ?andb_true_iff, ?andb_false_iff, ?N.leb_le, ?N.leb_gt in *; f_equal; lia.
Qed.

Lemma hex_char_lower k : (k < 16)%N → is_lower_hex (hex_char k) = true.
Proof.
  intros Hk. unfold is_lower_hex, hex_char, in_range, code.
  destruct (N.ltb_spec k 10); rewrite N_ascii_embedding by lia;
    rewrite orb_true_iff, !andb_true_iff, !N.leb_le; lia.
Qed.

Lemma mod16_lt n : (n mod 16 < 16)%N.
Proof. apply N.mod_lt. lia. Qed.

Lemma hex_fixed_lower w n : str_all is_lower_hex (hex_fixed w n) = true.
Proof. induction w as [|w IH]; simpl; [done|]. by rewrite hex_char_lower, IH by apply mod16_lt. Qed.

Lemma lower_hex_not_underscore c : is_lower_hex c = true → Ascii.eqb c "_" = false.
Proof. intros H. destruct (Ascii.eqb_spec c "_") as [->|]; [by vm_compute in H|done]. Qed.

(** Reading [w] digits after [acc] *)
Lemma hex_digits_fixed w n after acc s :
  (w = O → after = true) →
  hex_digits after acc (hex_fixed w n +:+ s)
  = hex_digits true (acc * 16 ^ N.of_nat w + n mod 16 ^ N.of_nat w) s.
Proof.
  revert after acc. induction w as [|w IH]; intros after acc Ha.
  - rewrite (Ha eq_refl). simpl. f_equal. change (16 ^ N.of_nat 0)%N with 1%N.
    rewrite N.mod_1_r. lia.
  - cbn [hex_fixed String.append hex_digits].
    rewrite lower_hex_not_underscore, hex_value_char by (apply hex_char_lower || apply mod16_lt; apply mod16_lt).
    rewrite IH by done. f_equal.
    rewrite Nat2N.inj_succ, N.pow_succ_r', (N.mul_comm 16 (16 ^ _)).
    rewrite N.Div0.mod_mul_r. lia.
Qed.

Lemma hex_fixed_inj w m n :
  (m < 16 ^ N.of_nat w)%N → (n < 16 ^ N.of_nat w)%N → hex_fixed w m = hex_fixed w n → m = n.
Proof.
  intros Hm Hn E. destruct w as [|w].
  - change (16 ^ N.of_nat 0)%N with 1%N in *. lia.
  - pose proof (hex_digits_fixed (S w) m false 0 "" ltac:(done)) as Em.
    pose proof (hex_digits_fixed (S w) n false 0 "" ltac:(done)) as En.
    rewrite E, En in Em. simpl in Em. rewrite !N.mod_small in Em by done.
    injection Em. lia.
Qed.

Lemma uuid_hex_inj u v : uuid_ok u → uuid_ok v → uuid_hex u = uuid_hex v → u = v.
Proof. intros Hu Hv. apply hex_fixed_inj; done. Qed.

Lemma uuid_hex_length u : String.length (uuid_hex u) = 32%nat.
Proof. apply hex_fixed_length. Qed.

(** ** [uuid.UUID(str(u)) == u] *)
Lemma hex_fixed_app a b n :
  hex_fixed (a + b) n = hex_fixed a (n / 16 ^ N.of_nat b) +:+ hex_fixed b n.
Proof.
  induction a as [|a IH]; [done|]. cbn [Nat.add hex_fixed String.append]. rewrite IH. f_equal.
  f_equal. f_equal. rewrite N.Div0.div_div, <- N.pow_add_r. do 2 f_equal. lia.
Qed.

Lemma replace_absent c p rep s :
  str_all (λ d, negb (Ascii.eqb d c)) s = true → replace (String c p) rep s = s.
Proof.
  unfold replace. induction s as [|d s IH]; [done|]. rewrite str_all_cons.
  intros [Hd%negb_true_iff Hs]%andb_true_iff.
  rewrite replace_from_cons, prefix_cons, Ascii.eqb_sym, Hd. simpl andb. by rewrite (IH Hs).
Qed.

Lemma strip_braces_absent s :
  str_all (λ c, negb (is_brace c)) s = true → rstrip_braces (lstrip_braces s) = s.
Proof.
  intros Hs. assert (lstrip_braces s = s) as ->.
  { destruct s as [|c s]; simpl in *; [done|].
    apply andb_true_iff in Hs as [Hc%negb_true_iff _]. by rewrite Hc. }
  induction s as [|c s IH]; simpl in *; [done|].
  apply andb_true_iff in Hs as [Hc%negb_true_iff Hs]. rewrite (IH Hs), Hc. by destruct s.
Qed.

Lemma strip_absent s : str_all (λ c, negb (is_space c)) s = true → strip s = s.
Proof.
  intros Hs. unfold strip. assert (lstrip s = s) as ->.
  { destruct s as [|c s]; simpl in *; [done|].
    apply andb_true_iff in Hs as [Hc%negb_true_iff _]. by rewrite Hc. }
  induction s as [|c s IH]; simpl in *; [done|].
  apply andb_true_iff in Hs as [Hc%negb_true_iff Hs]. rewrite (IH Hs), Hc. by destruct s.
Qed.

(** Facts about every character of a lower-case hexadecimal string are checked
    on all 256 characters. *)
Definition all_ascii : list ascii := (λ n, ascii_of_N (N.of_nat n)) <$> seq 0 256.
Lemma ascii_forall (p : ascii → bool) : forallb p all_ascii = true → ∀ c, p c = true.
Proof.
  intros H c. rewrite forallb_elem in H. apply H. unfold all_ascii. apply list_elem_of_fmap.
  exists (nat_of_ascii c). split; [by rewrite <- (ascii_nat_embedding c) at 1|].
  apply elem_of_seq. pose proof (nat_ascii_bounded c). lia.
Qed.

Definition uuid_char (c : ascii) : bool := is_lower_hex c || Ascii.eqb c "-".

Lemma uuid_str_chars u : str_all uuid_char (uuid_str u) = true.
Proof.
  unfold uuid_str. rewrite !str_all_app.
  assert (∀ w n, str_all uuid_char (hex_fixed w n) = true) as Hh.
  { intros w n. eapply str_all_impl; [|apply hex_fixed_lower]. unfold uuid_char. by intros c ->. }
  by rewrite !Hh.
Qed.

Lemma str_all_of_char (p q : ascii → bool) s :
  forallb (λ c, implb (p c) (q c)) all_ascii = true → str_all p s = true → str_all q s = true.
Proof.
  intros H. apply str_all_impl. intros c Hc. pose proof (ascii_forall _ H c) as Hi. simpl in Hi.
  by rewrite Hc in Hi.
Qed.

Lemma remove_dash_hex w n :
  concat_map (λ c, if Ascii.eqb c "-" then "" else String c "") (hex_fixed w n) = hex_fixed w n.
Proof.
  pose proof (hex_fixed_lower w n) as Hl. induction (hex_fixed w n) as [|c s IH]; [done|].
  simpl in *. apply andb_true_iff in Hl as [Hc Hs]. rewrite (IH Hs).
  by destruct (Ascii.eqb_spec c "-") as [->|]; [vm_compute in Hc|].
Qed.

Lemma concat_map_app f a b : concat_map f (a +:+ b) = concat_map f a +:+ concat_map f b.
Proof. induction a as [|c a IH]; simpl; [done|]. by rewrite IH, str_app_assoc. Qed.

Lemma uuid_str_digits u : replace "-" "" (uuid_str u) = uuid_hex u.
Proof.
  rewrite replace_char. unfold uuid_str, uuid_hex.
  rewrite !concat_map_app, !remove_dash_hex. simpl concat_map. simpl String.append.
  change (hex_fixed 32 u) with (hex_fixed (8 + (4 + (4 + (4 + 12)))) u).
  by rewrite !hex_fixed_app.
Qed.

Lemma hex_body_lower c d s :
  str_all is_lower_hex (String c (String d s)) = true →
  hex_body (String c (String d s)) = hex_digits false 0 (String c (String d s)).
Proof.
  rewrite !str_all_cons, !andb_true_iff. intros (_ & Hd & _). simpl hex_body.
  assert (Ascii.eqb d "x" || Ascii.eqb d "X" = false) as ->; [|by rewrite andb_false_r].
  apply orb_false_iff. split; [destruct (Ascii.eqb_spec d "x") as [->|]|
    destruct (Ascii.eqb_spec d "X") as [->|]]; try done; by vm_compute in Hd.
Qed.

Lemma int_base16_hex w n :
  int_base16 (hex_fixed (S (S w)) n) = Some (Z.of_N (n mod 16 ^ N.of_nat (S (S w)))).
Proof.
  unfold int_base16. pose proof (hex_fixed_lower (S (S w)) n) as Hl.
  rewrite strip_absent by (by eapply str_all_of_char; [|exact Hl]; vm_compute).
  pose proof (hex_digits_fixed (S (S w)) n false 0 "" ltac:(done)) as Hd.
  rewrite str_app_nil_r in Hd. simpl hex_digits at 2 in Hd.
  cbn [hex_fixed] in *.
  set (c := hex_char _) in *. set (d := hex_char _) in *.
  assert (is_lower_hex c = true) as Hc by (by apply andb_true_iff in Hl as [? _]).
  destruct (Ascii.eqb_spec c "-") as [E|_]; [rewrite E in Hc; by vm_compute in Hc|].
  destruct (Ascii.eqb_spec c "+") as [E|_]; [rewrite E in Hc; by vm_compute in Hc|].
  rewrite hex_body_lower, Hd by done. done.
Qed.

Lemma uuid_parse_str u : uuid_ok u → uuid_parse (uuid_str u) = Some u.
Proof.
  intros Hu. unfold uuid_parse. pose proof (uuid_str_chars u) as Hc.
  rewrite (replace_absent "u" "rn:" "" (uuid_str u)) by (by eapply str_all_of_char; [|exact Hc]; vm_compute).
  rewrite (replace_absent "u" "uid:" "" (uuid_str u)) by (by eapply str_all_of_char; [|exact Hc]; vm_compute).
  rewrite strip_braces_absent by (by eapply str_all_of_char; [|exact Hc]; vm_compute).
  rewrite uuid_str_digits, uuid_hex_length. simpl negb. cbv iota.
  unfold uuid_hex. rewrite int_base16_hex, N.mod_small by done.
  unfold uuid_ok in Hu. destruct (Z.leb_spec 0 (Z.of_N u)); [|lia].
  destruct (Z.ltb_spec (Z.of_N u) (2 ^ 128)); [|lia]. simpl. by rewrite N2Z.id.
Qed.
