(* ===== verification/CanonicalHash.v ===== *)
(** * Canonical JSON and its SHA-256 ([core/canonical_hash.py])

    The standard library functions the hash is made of, executable: UTF-8
    encoding, [hashlib.sha256(..).hexdigest()] and
    [json.dumps(.., sort_keys=True, separators=(",", ":"), ensure_ascii=False)],
    the latter with Python's shortest [repr] of a float.  Nothing is assumed of
    the digest: where a theorem needs two digests to differ, it says so. *)
From S2P Require Import Prelude PyStr PyDict Json PyUuid.
From Stdlib Require Import Ascii SpecFloat.

(** ** UTF-8 of the characters U+0000 to U+00FF, as bytes *)
Fixpoint utf8_encode (s : string) : list N :=
  match s with
  | EmptyString => []
  | String c r =>
      let k := code c in
      if (k <? 128)%N then k :: utf8_encode r
      else (192 + k / 64)%N :: (128 + k mod 64)%N :: utf8_encode r
  end.

(** ** SHA-256 (FIPS 180-4), on 32-bit words *)
Definition w32 (n : N) : N := N.land n 4294967295.
Definition add32 (a b : N) : N := w32 (a + b).
Definition rotr (k n : N) : N := N.lor (N.shiftr n k) (w32 (N.shiftl n (32 - k))).

Definition sha_ch (x y z : N) : N := N.lxor (N.land x y) (N.land (N.lxor x 4294967295) z).
Definition sha_maj (x y z : N) : N := N.lxor (N.land x y) (N.lxor (N.land x z) (N.land y z)).
Definition sha_S0 (x : N) : N := N.lxor (rotr 2 x) (N.lxor (rotr 13 x) (rotr 22 x)).
Definition sha_S1 (x : N) : N := N.lxor (rotr 6 x) (N.lxor (rotr 11 x) (rotr 25 x)).
Definition sha_s0 (x : N) : N := N.lxor (rotr 7 x) (N.lxor (rotr 18 x) (N.shiftr x 3)).
Definition sha_s1 (x : N) : N := N.lxor (rotr 17 x) (N.lxor (rotr 19 x) (N.shiftr x 10)).

Definition sha_K : list N :=
  [1116352408; 1899447441; 3049323471; 3921009573; 961987163; 1508970993; 2453635748; 2870763221;
   3624381080; 310598401; 607225278; 1426881987; 1925078388; 2162078206; 2614888103; 3248222580;
   3835390401; 4022224774; 264347078; 604807628; 770255983; 1249150122; 1555081692; 1996064986;
   2554220882; 2821834349; 2952996808; 3210313671; 3336571891; 3584528711; 113926993; 338241895;
   666307205; 773529912; 1294757372; 1396182291; 1695183700; 1986661051; 2177026350; 2456956037;
   2730485921; 2820302411; 3259730800; 3345764771; 3516065817; 3600352804; 4094571909; 275423344;
   430227734; 506948616; 659060556; 883997877; 958139571; 1322822218; 1537002063; 1747873779;
   1955562222; 2024104815; 2227730452; 2361852424; 2428436474; 2756734187; 3204031479; 3329325298]%N.

Definition sha_H0 : list N :=
  [1779033703; 3144134277; 1013904242; 2773480762; 1359893119; 2600822924; 528734635; 1541459225]%N.

(** The message schedule: [ws] holds the words so far, newest first. *)
Fixpoint sha_schedule (k : nat) (ws : list N) : list N :=
  match k with
  | O => ws
  | S k =>
      let w i := default 0%N (ws !! i) in
      sha_schedule k (add32 (add32 (sha_s1 (w 1%nat)) (w 6%nat)) (add32 (sha_s0 (w 14%nat)) (w 15%nat)) :: ws)
  end.

Definition sha_round (st : list N) (kw : N * N) : list N :=
  match st with
  | [a; b; c; d; e; f; g; h] =>
      let t1 := add32 (add32 h (sha_S1 e)) (add32 (sha_ch e f g) (add32 kw.1 kw.2)) in
      let t2 := add32 (sha_S0 a) (sha_maj a b c) in
      [add32 t1 t2; a; b; c; add32 d t1; e; f; g]
  | _ => st
  end.

Definition sha_block (st block : list N) : list N :=
  let ws := rev (sha_schedule 48 (rev block)) in
  zip_with add32 st (foldl sha_round st (zip sha_K ws)).

Fixpoint be_words (bs : list N) : list N :=
  match bs with
  | a :: b :: c :: d :: bs => (a * 16777216 + b * 65536 + c * 256 + d)%N :: be_words bs
  | _ => []
  end.

Definition be_bytes (w : nat) (n : N) : list N :=
  (λ i, (n / 256 ^ N.of_nat i mod 256)%N) <$> rev (seq 0 w).

Definition sha_pad (bs : list N) : list N :=
  let len := length bs in
  let z := ((119 - len mod 64) mod 64)%nat in
  bs ++ [128%N] ++ replicate z 0%N ++ be_bytes 8 (8 * N.of_nat len).

Fixpoint sha_blocks (fuel : nat) (st ws : list N) : list N :=
  match fuel, ws with
  | S fuel, _ :: _ => sha_blocks fuel (sha_block st (take 16 ws)) (drop 16 ws)
  | _, _ => st
  end.

(** The digest as one 256-bit number; the fuel is the number of words. *)
Definition sha256 (bs : list N) : N :=
  let ws := be_words (sha_pad bs) in
  foldl (λ acc w, acc * 4294967296 + w)%N 0%N (sha_blocks (length ws) sha_H0 ws).

(** [hashlib.sha256(s.encode("utf-8")).hexdigest()] *)
Definition sha256_hex (s : string) : string := hex_fixed 64 (sha256 (utf8_encode s)).

Example sha256_abc :
  sha256_hex "abc" = "ba7816bf8f01cfea414140de5dae2223b00361a396177a9cb410ff61f20015ad".
Proof. vm_compute. reflexivity. Qed.
Example sha256_two_blocks :
  sha256_hex "abcdbcdecdefdefgefghfghighijhijkijkljklmklmnlmnomnopnopq"
  = "248d6a61d20638b8e5c026930c3e6039a33ce45964ff2167f6ecedd419db06c1".
Proof. vm_compute. reflexivity. Qed.

(** ** [float.__repr__]: the shortest decimal that reads back as the float *)
(** Powers as a fraction of positive integers: [n * b^e] *)
Definition frac_scale (b : Z) (e : Z) (nd : Z * Z) : Z * Z :=
  (if 0 <=? e then (nd.1 * b ^ e, nd.2) else (nd.1, nd.2 * b ^ (- e)))%Z.
Definition frac_leb (a b : Z * Z) : bool := (a.1 * b.2 <=? b.1 * a.2)%Z.
Definition frac_ltb (a b : Z * Z) : bool := (a.1 * b.2 <? b.1 * a.2)%Z.

(** Does the positive decimal [x] round to the double m * 2^e? *)
Definition rounds_to (m e : Z) (x : Z * Z) : bool :=
  let hi := frac_scale 2 (e - 1) (2 * m + 1, 1)%Z in
  let lo := if ((m =? 2 ^ 52) && (-1074 <? e))%Z
            then frac_scale 2 (e - 2) (4 * m - 1, 1)%Z
            else frac_scale 2 (e - 1) (2 * m - 1, 1)%Z in
  if Z.even m then frac_leb lo x && frac_leb x hi else frac_ltb lo x && frac_ltb x hi.

(** The decimal exponent [k] with 10^(k-1) <= x < 10^k, searched upwards *)
Fixpoint dec_exponent (fuel : nat) (k : Z) (x : Z * Z) : Z :=
  match fuel with
  | O => k
  | S f => if frac_ltb x (frac_scale 10 k (1, 1)%Z) then k else dec_exponent f (k + 1) x
  end.

(** The closest [n]-digit decimal that rounds to the double: its digits D and
    exponent q, the decimal being D * 10^q *)
Definition shortest_at (n : Z) (m e k : Z) : option (Z * Z) :=
  let v := frac_scale 2 e (m, 1)%Z in
  let q := (k - n)%Z in
  let s := frac_scale 10 (- q) v in
  let d := (s.1 / s.2)%Z in
  let dec x := frac_scale 10 q (x, 1)%Z in
  let below := rounds_to m e (dec d) in
  let above := rounds_to m e (dec (d + 1)%Z) in
  let r := (2 * (s.1 - d * s.2))%Z in
  if below && above then
    Some (if (r <? s.2)%Z || ((r =? s.2)%Z && Z.even d) then d else (d + 1)%Z, q)
  else if below then Some (d, q) else if above then Some ((d + 1)%Z, q) else None.

Fixpoint shortest (fuel : nat) (n m e k : Z) : Z * Z :=
  match fuel with
  | O => (m, e)
  | S f => match shortest_at n m e k with
           | Some r => r
           | None => shortest f (n + 1) m e k
           end
  end.

Definition Z_str (n : Z) : string :=
  if (n <? 0)%Z then "-" +:+ decimal (Z.to_N (- n)) else decimal (Z.to_N n).

(** Trailing zeros belong to the exponent. *)
Fixpoint strip_zeros (fuel : nat) (dq : Z * Z) : Z * Z :=
  match fuel with
  | O => dq
  | S f => if (dq.1 mod 10 =? 0)%Z then strip_zeros f (dq.1 / 10, dq.2 + 1)%Z else dq
  end.

(** [repr]'s layout: fixed notation for -4 < point <= 16, else an exponent *)
Definition repr_digits (dq : Z * Z) : string :=
  let ds := Z_str dq.1 in
  let n := String.length ds in
  let point := (Z.of_nat n + dq.2)%Z in
  if ((-4 <? point) && (point <=? 16))%Z then
    if (point <=? 0)%Z then "0." +:+ zeros (Z.to_nat (- point)) +:+ ds
    else if (Z.of_nat n <=? point)%Z then ds +:+ zeros (Z.to_nat (point - Z.of_nat n)) +:+ ".0"
    else String.substring 0 (Z.to_nat point) ds +:+ "." +:+ String.substring (Z.to_nat point) n ds
  else
    let ex := (point - 1)%Z in
    String.substring 0 1 ds +:+ (if (1 <? n)%nat then "." +:+ String.substring 1 n ds else "")
    +:+ "e" +:+ (if (ex <? 0)%Z then "-" else "+") +:+ zero_pad 2 (Z_str (Z.abs ex)).

Definition float_repr (f : spec_float) : string :=
  match f with
  | S754_zero s => if s then "-0.0" else "0.0"
  | S754_infinity s => if s then "-Infinity" else "Infinity"
  | S754_nan => "NaN"
  | S754_finite s m e =>
      let k := dec_exponent 800 (-330) (frac_scale 2 e (Z.pos m, 1)%Z) in
      (if s then "-" else "") +:+ repr_digits (strip_zeros 20 (shortest 20 1 (Z.pos m) e k))
  end.

Example repr_tenth : float_repr (S754_finite false 7205759403792794 (-56)) = "0.1".
Proof. vm_compute. reflexivity. Qed.
Example repr_1e16 : float_repr (S754_finite true 5000000000000000 1) = "-1e+16".
Proof. vm_compute. reflexivity. Qed.
Example repr_least : float_repr (S754_finite false 1 (-1074)) = "5e-324".
Proof. vm_compute. reflexivity. Qed.
Example repr_pow2 : float_repr (S754_finite false 4503599627370496 11) = "9.223372036854776e+18".
Proof. vm_compute. reflexivity. Qed.

(** ** [json.dumps] *)
Definition dquote : ascii := "034"%char.
Definition escape_char (c : ascii) : string :=
  let k := code c in
  if (k =? 34)%N then String "\" (String dquote "")
  else if (k =? 92)%N then "\\"
  else if (k =? 10)%N then "\n" else if (k =? 13)%N then "\r"
  else if (k =? 9)%N then "\t" else if (k =? 8)%N then "\b"
  else if (k =? 12)%N then "\f"
  else if (k <? 32)%N then "\u" +:+ hex_fixed 4 k
  else String c "".

Definition json_string (s : string) : string :=
  String dquote (concat_map escape_char s +:+ String dquote "").

(** [int.__repr__] refuses more than 4300 digits. *)
Definition int_repr (n : Z) : res string :=
  let s := Z_str n in
  _ ← raise_if (MAX_INT_STR_DIGITS <? String.length (decimal (Z.to_N (Z.abs n))))%nat
               (PyException "ValueError");
  Ok s.

(** [sorted(d.items())]: by key, in code-point order *)
Fixpoint insert_key {V} (kv : string * V) (d : dict V) : dict V :=
  match d with
  | [] => [kv]
  | kv' :: d' => match String.compare kv.1 kv'.1 with
                 | Gt => kv' :: insert_key kv d'
                 | _ => kv :: d
                 end
  end.
Definition sort_keys {V} (d : dict V) : dict V := foldr insert_key [] d.

Definition brackets (l r : string) (items : list string) : string := l +:+ join "," items +:+ r.

Fixpoint json_dumps (v : json) : res string :=
  match v with
  | JNull => Ok "null"
  | JBool b => Ok (if b then "true" else "false")
  | JInt n => int_repr n
  | JFloat f => Ok (float_repr f)
  | JStr s => Ok (json_string s)
  | JArr l => items ← res_map json_dumps l; Ok (brackets "[" "]" items)
  | JObj d =>
      items ← (fix go (d : dict json) : res (dict string) :=
                 match d with
                 | [] => Ok []
                 | (k, x) :: d => s ← json_dumps x; r ← go d; Ok ((k, s) :: r)
                 end) d;
      Ok (brackets "{" "}" ((λ kv, json_string kv.1 +:+ ":" +:+ kv.2) <$> sort_keys items))
  end.

(** [compute_canonical_json_hash] *)
Definition compute_canonical_json_hash (payload : json) : res string :=
  encoded ← json_dumps payload; Ok (sha256_hex encoded).

Example canonical_hash_sorted :
  compute_canonical_json_hash (JObj [("b", JInt 2); ("a", JArr [JNull; JBool true])])
  = Ok (sha256_hex (String.concat (String dquote "") ["{"; "a"; ":[null,true],"; "b"; ":2}"])).
Proof. vm_compute. reflexivity. Qed.

(** ** Lemmas *)
Lemma sha256_hex_is_sha256 s : is_sha256_hex (sha256_hex s) = true.
Proof.
  unfold is_sha256_hex, sha256_hex. rewrite andb_true_iff, Nat.eqb_eq.
  split; [apply hex_fixed_length|apply hex_fixed_lower].
Qed.

Lemma canonical_hash_is_sha256 v d :
  compute_canonical_json_hash v = Ok d → is_sha256_hex d = true.
Proof.
  unfold compute_canonical_json_hash. intros H. inv_res. apply sha256_hex_is_sha256.
Qed.

(** [json.dumps(sort_keys=True)] sorts, so a hash does not see the order of the
    keys of an object. *)
Lemma insert_key_perm {V} kv (d : dict V) : insert_key kv d ≡ₚ kv :: d.
Proof.
  induction d as [|kv' d IH]; simpl; [done|].
  destruct (String.compare _ _); [done..|]. rewrite IH. constructor.
Qed.

Lemma sort_keys_perm {V} (d : dict V) : sort_keys d ≡ₚ d.
Proof. induction d; simpl; [done|]. rewrite insert_key_perm. by constructor. Qed.
