(* ===== verification/Domain.v ===== *)
(** * Domain data: enums, the Execution Plan, Execution rows

    The enums of [domain/enums.py] the execution core uses, one Module each, so
    that [StepStatus.SUCCEEDED] reads as it does in the code; the plan models
    of [schemas/execution_plan.py], [schemas/plan_binding.py] and
    [schemas/predicate.py]; the rows of [models/execution.py].

    The enum columns of a row are kept as their enum: the migration
    [20260915_0013] puts a CHECK constraint with exactly these values on each.
    A UUID is its 128-bit number, a timestamp its microseconds since the epoch,
    and [JNull] stands for a NULL in a JSONB column. *)
From S2P Require Import Prelude PyStr PyDict Json JsonPointer PyUuid.

(** ** Enums *)
Module StepStatus.
Inductive step_status :=
| PENDING | READY | RUNNING | WAITING_INPUT | WAITING_APPROVAL | SUCCEEDED
| FAILED | SKIPPED | TIMED_OUT | CANCELLED | UNKNOWN_OUTCOME.

#[global] Instance step_status_eq_dec : EqDecision step_status.
Proof. solve_decision. Defined.

Definition step_status_value (s : step_status) : string :=
  match s with
  | PENDING => "PENDING" | READY => "READY" | RUNNING => "RUNNING"
  | WAITING_INPUT => "WAITING_INPUT" | WAITING_APPROVAL => "WAITING_APPROVAL"
  | SUCCEEDED => "SUCCEEDED" | FAILED => "FAILED" | SKIPPED => "SKIPPED"
  | TIMED_OUT => "TIMED_OUT" | CANCELLED => "CANCELLED"
  | UNKNOWN_OUTCOME => "UNKNOWN_OUTCOME"
  end.
End StepStatus.

Module ExecutionStatus.
Inductive execution_status :=
| CREATED | QUEUED | RUNNING | WAITING_INPUT | WAITING_APPROVAL | CANCEL_REQUESTED
| SUCCEEDED | PARTIALLY_SUCCEEDED | FAILED | CANCELLED | TIMED_OUT.

#[global] Instance execution_status_eq_dec : EqDecision execution_status.
Proof. solve_decision. Defined.

Definition execution_status_value (s : execution_status) : string :=
  match s with
  | CREATED => "CREATED" | QUEUED => "QUEUED" | RUNNING => "RUNNING"
  | WAITING_INPUT => "WAITING_INPUT" | WAITING_APPROVAL => "WAITING_APPROVAL"
  | CANCEL_REQUESTED => "CANCEL_REQUESTED" | SUCCEEDED => "SUCCEEDED"
  | PARTIALLY_SUCCEEDED => "PARTIALLY_SUCCEEDED" | FAILED => "FAILED"
  | CANCELLED => "CANCELLED" | TIMED_OUT => "TIMED_OUT"
  end.
End ExecutionStatus.

(** [AuthorableStepType] *)
Module StepType.
Inductive step_type := TOOL | CONDITION | JOIN | APPROVAL | LOOP.

#[global] Instance step_type_eq_dec : EqDecision step_type.
Proof. solve_decision. Defined.

Definition step_type_value (t : step_type) : string :=
  match t with
  | TOOL => "TOOL" | CONDITION => "CONDITION" | JOIN => "JOIN"
  | APPROVAL => "APPROVAL" | LOOP => "LOOP"
  end.
End StepType.

Module JoinPolicy.
Inductive join_policy := ALL_SUCCESS | ALL_COMPLETE | ANY_SUCCESS.

#[global] Instance join_policy_eq_dec : EqDecision join_policy.
Proof. solve_decision. Defined.

Definition join_policy_value (p : join_policy) : string :=
  match p with
  | ALL_SUCCESS => "ALL_SUCCESS" | ALL_COMPLETE => "ALL_COMPLETE"
  | ANY_SUCCESS => "ANY_SUCCESS"
  end.
End JoinPolicy.

Module LoopMode.
Inductive loop_mode := FOR_EACH | WHILE.

#[global] Instance loop_mode_eq_dec : EqDecision loop_mode.
Proof. solve_decision. Defined.

Definition loop_mode_value (m : loop_mode) : string :=
  match m with FOR_EACH => "FOR_EACH" | WHILE => "WHILE" end.
End LoopMode.

(** [PredicateOperator], split as the predicate classes split it *)
Module PredicateOperator.
Inductive comparison_op := EQ | NE | GT | GTE | LT | LTE | IN | CONTAINS.
Inductive unary_op := EXISTS | IS_NULL.
Inductive logical_op := AND | OR.

#[global] Instance comparison_op_eq_dec : EqDecision comparison_op.
Proof. solve_decision. Defined.
#[global] Instance unary_op_eq_dec : EqDecision unary_op.
Proof. solve_decision. Defined.
#[global] Instance logical_op_eq_dec : EqDecision logical_op.
Proof. solve_decision. Defined.
End PredicateOperator.

(** [PlanOnError] *)
Module PlanOnError.
Inductive plan_on_error := FAIL_EXECUTION | MARK_PARTIAL | CONTINUE.

#[global] Instance plan_on_error_eq_dec : EqDecision plan_on_error.
Proof. solve_decision. Defined.
End PlanOnError.

Export StepStatus (step_status, step_status_eq_dec, step_status_value).
Export ExecutionStatus (execution_status, execution_status_eq_dec, execution_status_value).
Export StepType (step_type, step_type_eq_dec, step_type_value).
Export JoinPolicy (join_policy, join_policy_eq_dec, join_policy_value).
Export LoopMode (loop_mode, loop_mode_eq_dec, loop_mode_value).
Export PredicateOperator (comparison_op, unary_op, logical_op, comparison_op_eq_dec,
  unary_op_eq_dec, logical_op_eq_dec).
Export PlanOnError (plan_on_error, plan_on_error_eq_dec).

(** ** Bindings and predicates *)
(** [PlanBindingValue], a tagged union on [kind] *)
Inductive plan_binding :=
| PlanLiteralBinding (value : json)
| PlanSecretRefBinding (secret_id : uuid)
| PlanInputBinding (path : string)
| PlanStepOutputBinding (step_id path : string)
| PlanExecutionContextBinding (path : string)
| PlanLoopContextBinding (path : string).

(** [_require_json_pointer], raising [ValueError] *)
Definition require_json_pointer (path : string) : res string :=
  _ ← raise_if (negb (is_valid_json_pointer_subset path)) (PyException "ValueError");
  Ok path.

(** [Predicate], a tagged union on [op] *)
#[warnings="-register-all"]
Inductive predicate :=
| ComparisonPredicate (op : comparison_op) (lhs rhs : plan_binding)
| UnaryPredicate (op : unary_op) (operand : plan_binding)
| NotPredicate (child : predicate)
| LogicalPredicate (op : logical_op) (children : list predicate).

(** Induction that reaches the children of [and]/[or]. *)
Fixpoint predicate_deep_ind (P : predicate → Prop)
    (Hcmp : ∀ op l r, P (ComparisonPredicate op l r))
    (Hun : ∀ op b, P (UnaryPredicate op b))
    (Hnot : ∀ c, P c → P (NotPredicate c))
    (Hlog : ∀ op cs, Forall P cs → P (LogicalPredicate op cs)) (p : predicate) : P p :=
  match p with
  | ComparisonPredicate op l r => Hcmp op l r
  | UnaryPredicate op b => Hun op b
  | NotPredicate c => Hnot c (predicate_deep_ind P Hcmp Hun Hnot Hlog c)
  | LogicalPredicate op cs => Hlog op cs ((fix go cs : Forall P cs :=
      match cs with
      | [] => List.Forall_nil P
      | c :: cs => @List.Forall_cons _ P c cs (predicate_deep_ind P Hcmp Hun Hnot Hlog c) (go cs)
      end) cs)
  end.

(** [iter_plan_bindings_in_predicate] *)
Fixpoint iter_plan_bindings_in_predicate (p : predicate) : list plan_binding :=
  match p with
  | ComparisonPredicate _ lhs rhs => [lhs; rhs]
  | UnaryPredicate _ operand => [operand]
  | NotPredicate child => iter_plan_bindings_in_predicate child
  | LogicalPredicate _ children => flat_map iter_plan_bindings_in_predicate children
  end.

(** ** The Execution Plan *)
Inductive plan_source :=
| PlanSourceAgent (agent_version_id : uuid)
| PlanSourceWorkflow (workflow_id : uuid)
| PlanSourceManualToolTest (mcp_tool_id mcp_tool_version_id : uuid).

Record plan_input_definition := PlanInputDefinition {
  pi_type : string;
  pi_required : bool;
  pi_secret : bool }.

Record plan_limits := PlanLimits {
  max_steps : Z;
  max_duration_seconds : Z;
  max_parallelism : Z;
  max_loop_iterations : Z }.

Record plan_step := ExecutionPlanStep {
  ps_id : string;
  ps_name : string;
  ps_type : step_type;
  ps_required : bool;
  ps_depends_on : list string;
  ps_when : option (dict json);
  ps_timeout_seconds : Z;
  ps_on_error : plan_on_error;
  ps_config : dict json }.

Record plan_completion := PlanCompletion {
  pc_response_step_ids : list string }.

Record plan := ExecutionPlanV1 {
  pl_goal : string;
  pl_source : plan_source;
  pl_inputs : dict plan_input_definition;
  pl_limits : plan_limits;
  pl_steps : list plan_step;
  pl_completion : plan_completion }.

(** Typed step configs *)
Record complex_tool_config := ComplexToolStepConfigV1 {
  tc_tool_version_id : uuid;
  tc_bindings : dict plan_binding }.

Record join_config := JoinStepConfigV1 { jc_policy : join_policy }.

Record approval_config := ApprovalStepConfigV1 { ac_approval_policy_id : uuid }.

Record condition_config := ConditionStepConfigV1 { cc_predicate : predicate }.

Record loop_config := LoopStepConfigV1 {
  lc_mode : loop_mode;
  lc_max_iterations : Z;
  lc_body_step_ids : list string;
  lc_collection : option plan_binding;
  lc_predicate : option predicate }.

(** The validators the source itself attaches to its models.  [res unit] is
    [Ok] where the validator returns and [Err] where it raises. *)
Definition value_error : py_error := PyException "ValueError".

(** [_require_non_blank] *)
Definition require_non_blank (value : string) : res string :=
  _ ← raise_if (blank value) value_error;
  Ok value.

(** [LoopStepConfigV1._body_ids]; [seen] is the set built so far. *)
Fixpoint body_ids_loop (value : list string) (seen : gset string) : res unit :=
  match value with
  | [] => Ok tt
  | sid :: value =>
      _ ← raise_if (blank sid) value_error;
      _ ← raise_if (bool_decide (sid ∈ seen)) value_error;
      body_ids_loop value ({[ sid ]} ∪ seen)
  end.

Definition body_ids (value : list string) : res (list string) :=
  _ ← raise_if (match value with [] => true | _ => false end) value_error;
  _ ← body_ids_loop value ∅;
  Ok value.

(** [LoopStepConfigV1._mode_fields] *)
Definition mode_fields (cfg : loop_config) : res unit :=
  match lc_mode cfg with
  | LoopMode.FOR_EACH =>
      _ ← raise_if (match lc_collection cfg with None => true | _ => false end) value_error;
      raise_if (match lc_predicate cfg with Some _ => true | _ => false end) value_error
  | LoopMode.WHILE =>
      _ ← raise_if (match lc_predicate cfg with None => true | _ => false end) value_error;
      raise_if (match lc_collection cfg with Some _ => true | _ => false end) value_error
  end.

(** What a validated [LoopStepConfigV1] satisfies *)
Definition loop_config_ok (cfg : loop_config) : bool :=
  (1 <=? lc_max_iterations cfg)%Z && is_ok (body_ids (lc_body_step_ids cfg))
  && is_ok (mode_fields cfg).

(** What a validated [ExecutionPlanStep] satisfies *)
Definition plan_step_ok (ps : plan_step) : bool :=
  is_ok (require_non_blank (ps_id ps)) && is_ok (require_non_blank (ps_name ps))
  && (1 <=? ps_timeout_seconds ps)%Z.

(** ** Execution rows *)
Record execution_step := ExecutionStep {
  es_id : uuid;
  es_execution_id : uuid;
  es_step_key : string;
  es_step_type : step_type;
  es_mcp_tool_version_id : option uuid;
  es_parent_step_id : option uuid;
  es_sequence_hint : Z;
  es_status : step_status;
  es_step_snapshot : json;
  es_resolved_input : json;
  es_result_inline : json;
  es_result_blob_id : option uuid;
  es_condition_result : option bool;
  es_iteration_no : option Z;
  es_attempt_count : Z;
  es_ready_at : option Z;
  es_started_at : option Z;
  es_finished_at : option Z;
  es_error_code : option string;
  es_error_message : option string;
  es_lock_version : Z }.

Record execution := Execution {
  ex_id : uuid;
  ex_source_type : string;
  ex_trigger_type : string;
  ex_requester_id : uuid;
  ex_agent_request_id : option uuid;
  ex_agent_version_id : option uuid;
  ex_workflow_version_id : option uuid;
  ex_schedule_occurrence_id : option uuid;
  ex_parent_execution_id : option uuid;
  ex_plan_validation_run_id : option uuid;
  ex_status : execution_status;
  ex_plan_schema_version : string;
  ex_plan_snapshot : json;
  ex_plan_hash : string;
  ex_input_snapshot : json;
  ex_policy_snapshot : json;
  ex_result_summary : json;
  ex_error_code : option string;
  ex_error_message : option string;
  ex_trace_id : option string;
  ex_priority : option Z;
  ex_requested_at : Z;
  ex_queued_at : option Z;
  ex_started_at : option Z;
  ex_finished_at : option Z;
  ex_cancel_requested_at : option Z;
  ex_cancel_requested_by : option uuid;
  ex_cancel_reason : option string;
  ex_worker_id : option string;
  ex_lease_token : option uuid;
  ex_lease_expires_at : option Z;
  ex_heartbeat_at : option Z;
  ex_lock_version : Z;
  ex_retention_until : option Z }.

(** The five assignments of every terminal transition of a step: status, error
    code and message, [finished_at = now], [lock_version += 1] *)
Definition finish_step (status : step_status) (code message : string) (now : Z)
    (s : execution_step) : execution_step :=
  {| es_id := es_id s; es_execution_id := es_execution_id s;
     es_step_key := es_step_key s; es_step_type := es_step_type s;
     es_mcp_tool_version_id := es_mcp_tool_version_id s;
     es_parent_step_id := es_parent_step_id s; es_sequence_hint := es_sequence_hint s;
     es_status := status; es_step_snapshot := es_step_snapshot s;
     es_resolved_input := es_resolved_input s; es_result_inline := es_result_inline s;
     es_result_blob_id := es_result_blob_id s;
     es_condition_result := es_condition_result s; es_iteration_no := es_iteration_no s;
     es_attempt_count := es_attempt_count s; es_ready_at := es_ready_at s;
     es_started_at := es_started_at s; es_finished_at := Some now;
     es_error_code := Some code; es_error_message := Some message;
     es_lock_version := es_lock_version s + 1 |}%Z.

(** The two error constructions every module of the core repeats *)
Definition conflict (message : string) : py_error := AppError "RESOURCE_CONFLICT" message 409.
Definition precondition_failed (message : string) : py_error :=
  AppError "EXECUTION_PRECONDITION_FAILED" message 409.

(** ** The interface of the pydantic models

    [model_validate] and [model_dump] are pydantic's: the development takes
    them as functions and relies only on the laws of [PlanSchemaLaws]. *)
Class PlanSchema := {
  validate_step : json → option plan_step;
  dump_step : plan_step → json;
  validate_tool_config : dict json → option complex_tool_config;
  validate_join_config : dict json → option join_config;
  validate_approval_config : dict json → option approval_config;
  validate_condition_config : dict json → option condition_config;
  validate_loop_config : dict json → option loop_config;
  validate_predicate : dict json → option predicate }.

Class PlanSchemaLaws `{PlanSchema} := {
  (** a model's own dump validates back to the model *)
  validate_dump_step ps : plan_step_ok ps = true → validate_step (dump_step ps) = Some ps;
  (** validation runs the validators the source attached *)
  validate_step_ok j ps : validate_step j = Some ps → plan_step_ok ps = true;
  validate_loop_config_ok d cfg : validate_loop_config d = Some cfg → loop_config_ok cfg = true }.

(** Exception of a failed validation *)
Definition validation_error : py_error := PyException "ValidationError".

(** ** Lemmas *)
Lemma body_ids_loop_Ok ids seen :
  body_ids_loop ids seen = Ok tt ↔
  Forall (λ x, blank x = false) ids ∧ NoDup ids ∧ ∀ x, x ∈ ids → x ∉ seen.
Proof.
  revert seen. induction ids as [|x ids IH]; intros seen; simpl.
  - split; [|done]. intros _. split; [by constructor|]. split; [by apply NoDup_nil|].
    by intros y ?%elem_of_nil.
  - rewrite bind_Ok. setoid_rewrite bind_Ok. setoid_rewrite raise_if_Ok.
    setoid_rewrite IH. setoid_rewrite bool_decide_eq_false.
    rewrite Forall_cons, NoDup_cons. split.
    + intros ([] & Hb & [] & Hs & Hbs & Hnd & Hx). split; [done|]. split.
      * split; [|done]. intros Hin. specialize (Hx x Hin). set_solver.
      * intros y [->|Hy]%elem_of_cons; [done|]. specialize (Hx y Hy). set_solver.
    + intros ((Hb & Hbs) & (Hni & Hnd) & Hx). exists tt. split; [done|]. exists tt.
      split; [apply Hx, list_elem_of_here|]. split; [done|]. split; [done|].
      intros y Hy. specialize (Hx y (list_elem_of_further _ _ _ Hy)).
      intros [->%elem_of_singleton|?]%elem_of_union; done.
Qed.

Lemma loop_config_ok_spec cfg :
  loop_config_ok cfg = true →
  (1 ≤ lc_max_iterations cfg)%Z ∧ lc_body_step_ids cfg ≠ [] ∧ NoDup (lc_body_step_ids cfg)
  ∧ (lc_mode cfg = LoopMode.FOR_EACH → is_Some (lc_collection cfg))
  ∧ (lc_mode cfg = LoopMode.WHILE → is_Some (lc_predicate cfg)).
Proof.
  unfold loop_config_ok, body_ids, mode_fields.
  rewrite !andb_true_iff, Z.leb_le. intros [[Hm Hb] Hf]. split; [done|].
  destruct (lc_body_step_ids cfg) as [|x ids]; [done|]. cbn [raise_if mbind res_bind] in Hb.
  destruct (body_ids_loop (x :: ids) ∅) as [[]|] eqn:E; [|done].
  apply body_ids_loop_Ok in E as (_ & Hnd & _).
  split; [done|]. split; [done|].
  destruct (lc_mode cfg), (lc_collection cfg), (lc_predicate cfg); naive_solver.
Qed.

Lemma finish_step_key st c m now s : es_step_key (finish_step st c m now s) = es_step_key s.
Proof. done. Qed.
