(* ===== verification/SchemaExample.v ===== *)
(** * A concrete decoder for the plan models

    An instance of [PlanSchema]: a strict decoder (exact field sets, no
    coercion) for the models of [schemas/execution_plan.py], with a proof of
    [PlanSchemaLaws].  The development's theorems hold for every instance; this one
    makes their witnesses concrete and shows that the laws can be met. *)
From S2P Require Import Prelude PyStr PyDict Json JsonPointer PyUuid Domain.

(** ** Field access *)
Definition exact_fields (req opt : list string) (d : dict json) : bool :=
  forallb (λ k, dict_has k d) req && forallb (λ k, bool_decide (k ∈ req ++ opt)) (dict_keys d)
  && no_dup (dict_keys d).

Definition as_str (v : json) : option string := match v with JStr s => Some s | _ => None end.
Definition as_bool (v : json) : option bool := match v with JBool b => Some b | _ => None end.
Definition as_int (v : json) : option Z := match v with JInt n => Some n | _ => None end.
Definition as_obj (v : json) : option (dict json) := match v with JObj d => Some d | _ => None end.
Definition as_uuid (v : json) : option uuid := match v with JStr s => uuid_parse s | _ => None end.
Definition as_list {A} (f : json → option A) (v : json) : option (list A) :=
  match v with JArr l => mapM f l | _ => None end.
Definition as_option {A} (f : json → option A) (v : json) : option (option A) :=
  match v with JNull => Some None | _ => Some <$> f v end.

Definition field {A} (f : json → option A) (k : string) (d : dict json) : option A :=
  v ← dict_get k d; f v.
Definition field_or {A} (f : json → option A) (k : string) (default : A) (d : dict json) : option A :=
  match dict_get k d with Some v => f v | None => Some default end.

Definition guard_some {A} (b : bool) (a : A) : option A := if b then Some a else None.

(** ** Enums *)
Definition as_enum {A} (table : dict A) (v : json) : option A :=
  match v with JStr s => dict_get s table | _ => None end.
Definition step_types : dict step_type :=
  (λ t, (step_type_value t, t)) <$> [StepType.TOOL; StepType.CONDITION; StepType.JOIN; StepType.APPROVAL; StepType.LOOP].
Definition on_error_value (o : plan_on_error) : string :=
  match o with
  | PlanOnError.FAIL_EXECUTION => "FAIL_EXECUTION" | PlanOnError.MARK_PARTIAL => "MARK_PARTIAL"
  | PlanOnError.CONTINUE => "CONTINUE"
  end.
Definition on_errors : dict plan_on_error :=
  (λ t, (on_error_value t, t)) <$> [PlanOnError.FAIL_EXECUTION; PlanOnError.MARK_PARTIAL; PlanOnError.CONTINUE].
Definition join_policies : dict join_policy :=
  (λ t, (join_policy_value t, t)) <$> [JoinPolicy.ALL_SUCCESS; JoinPolicy.ALL_COMPLETE; JoinPolicy.ANY_SUCCESS].
Definition loop_modes : dict loop_mode :=
  (λ t, (loop_mode_value t, t)) <$> [LoopMode.FOR_EACH; LoopMode.WHILE].
Definition comparison_ops : dict comparison_op :=
  [("eq", PredicateOperator.EQ); ("ne", PredicateOperator.NE); ("gt", PredicateOperator.GT);
   ("gte", PredicateOperator.GTE); ("lt", PredicateOperator.LT); ("lte", PredicateOperator.LTE);
   ("in", PredicateOperator.IN); ("contains", PredicateOperator.CONTAINS)].
Definition unary_ops : dict unary_op :=
  [("exists", PredicateOperator.EXISTS); ("is_null", PredicateOperator.IS_NULL)].
Definition logical_ops : dict logical_op := [("and", PredicateOperator.AND); ("or", PredicateOperator.OR)].

(** ** Models *)
Definition as_pointer (v : json) : option string :=
  s ← as_str v; guard_some (is_valid_json_pointer_subset s) s.

Definition as_binding (v : json) : option plan_binding :=
  d ← as_obj v;
  kind ← field as_str "kind" d;
  if String.eqb kind "LITERAL" then
    x ← field Some "value" d; guard_some (exact_fields ["kind"; "value"] [] d) (PlanLiteralBinding x)
  else if String.eqb kind "SECRET_REF" then
    u ← field as_uuid "secret_id" d;
    guard_some (exact_fields ["kind"; "secret_id"] [] d) (PlanSecretRefBinding u)
  else if String.eqb kind "STEP_OUTPUT" then
    s ← field as_str "step_id" d; p ← field as_pointer "path" d;
    guard_some (exact_fields ["kind"; "step_id"; "path"] [] d && negb (blank s)) (PlanStepOutputBinding s p)
  else
    p ← field as_pointer "path" d;
    if negb (exact_fields ["kind"; "path"] [] d) then None
    else if String.eqb kind "PLAN_INPUT" then Some (PlanInputBinding p)
    else if String.eqb kind "EXECUTION_CONTEXT" then Some (PlanExecutionContextBinding p)
    else if String.eqb kind "LOOP_CONTEXT" then Some (PlanLoopContextBinding p)
    else None.

(** The fuel bounds the nesting of [not], [and] and [or]. *)
Fixpoint as_predicate (fuel : nat) (v : json) : option predicate :=
  match fuel with
  | O => None
  | S fuel =>
      d ← as_obj v;
      op ← field as_str "op" d;
      match dict_get op comparison_ops with
      | Some o =>
          l ← field as_binding "left" d; r ← field as_binding "right" d;
          guard_some (exact_fields ["op"; "left"; "right"] [] d) (ComparisonPredicate o l r)
      | None =>
          match dict_get op unary_ops with
          | Some o => b ← field as_binding "operand" d;
                      guard_some (exact_fields ["op"; "operand"] [] d) (UnaryPredicate o b)
          | None =>
              match dict_get op logical_ops with
              | Some o => cs ← field (as_list (as_predicate fuel)) "children" d;
                          guard_some (exact_fields ["op"; "children"] [] d && (0 <? length cs)%nat)
                            (LogicalPredicate o cs)
              | None =>
                  if String.eqb op "not" then
                    c ← field (as_predicate fuel) "child" d;
                    guard_some (exact_fields ["op"; "child"] [] d) (NotPredicate c)
                  else None
              end
          end
      end
  end.

Definition predicate_depth : nat := 64.

Definition example_validate_step (v : json) : option plan_step :=
  d ← as_obj v;
  id ← field as_str "id" d;
  name ← field as_str "name" d;
  type ← field (as_enum step_types) "type" d;
  required ← field as_bool "required" d;
  depends_on ← field (as_list as_str) "depends_on" d;
  when ← field_or (as_option as_obj) "when" None d;
  timeout ← field as_int "timeout_seconds" d;
  on_error ← field (as_enum on_errors) "on_error" d;
  config ← field as_obj "config" d;
  let ps := ExecutionPlanStep id name type required depends_on when timeout on_error config in
  guard_some (exact_fields ["id"; "name"; "type"; "required"; "depends_on"; "timeout_seconds"; "on_error"; "config"]
                ["when"] d && plan_step_ok ps) ps.

Definition example_dump_step (ps : plan_step) : json :=
  JObj [("id", JStr (ps_id ps)); ("name", JStr (ps_name ps)); ("type", JStr (step_type_value (ps_type ps)));
        ("required", JBool (ps_required ps)); ("depends_on", JArr (JStr <$> ps_depends_on ps));
        ("when", match ps_when ps with Some d => JObj d | None => JNull end);
        ("timeout_seconds", JInt (ps_timeout_seconds ps)); ("on_error", JStr (on_error_value (ps_on_error ps)));
        ("config", JObj (ps_config ps))].

Definition example_tool_config (d : dict json) : option complex_tool_config :=
  u ← field as_uuid "tool_version_id" d;
  bs ← field as_obj "bindings" d;
  bindings ← mapM (λ kv : string * json, b ← as_binding kv.2; Some (kv.1, b)) bs;
  guard_some (exact_fields ["tool_version_id"; "bindings"] [] d) (ComplexToolStepConfigV1 u bindings).

Definition example_loop_config (d : dict json) : option loop_config :=
  mode ← field (as_enum loop_modes) "mode" d;
  m ← field as_int "max_iterations" d;
  bodies ← field (as_list as_str) "body_step_ids" d;
  collection ← field_or (as_option as_binding) "collection" None d;
  pred ← field_or (as_option (as_predicate predicate_depth)) "predicate" None d;
  let cfg := LoopStepConfigV1 mode m bodies collection pred in
  guard_some (exact_fields ["mode"; "max_iterations"; "body_step_ids"] ["collection"; "predicate"] d
              && loop_config_ok cfg) cfg.

#[export] Instance example_schema : PlanSchema := {
  validate_step := example_validate_step;
  dump_step := example_dump_step;
  validate_tool_config := example_tool_config;
  validate_join_config d :=
    (p ← field (as_enum join_policies) "policy" d; guard_some (exact_fields ["policy"] [] d) (JoinStepConfigV1 p));
  validate_approval_config d :=
    (u ← field as_uuid "approval_policy_id" d;
     guard_some (exact_fields ["approval_policy_id"] [] d) (ApprovalStepConfigV1 u));
  validate_condition_config d :=
    (p ← field (as_predicate predicate_depth) "predicate" d;
     guard_some (exact_fields ["predicate"] [] d) (ConditionStepConfigV1 p));
  validate_loop_config := example_loop_config;
  validate_predicate d := as_predicate predicate_depth (JObj d) }.

(** ** The laws *)
Lemma guard_some_Some {A} b (a x : A) : guard_some b a = Some x ↔ b = true ∧ a = x.
Proof. destruct b; simpl; naive_solver. Qed.

Lemma as_list_strs l : as_list as_str (JArr (JStr <$> l)) = Some l.
Proof. unfold as_list. apply mapM_Some. induction l; by constructor. Qed.

#[export] Instance example_schema_laws : PlanSchemaLaws.
Proof.
  split.
  - intros [id name type req deps when timeout onerr cfg] Hok.
    assert (exact_fields ["id"; "name"; "type"; "required"; "depends_on"; "timeout_seconds"; "on_error"; "config"]
      ["when"] (match example_dump_step (ExecutionPlanStep id name type req deps when timeout onerr cfg) with
                | JObj d => d | _ => [] end) = true) as Hf by by vm_compute.
    cbn -[example_dump_step]. unfold example_validate_step.
    change (example_dump_step ?ps) with (JObj (match example_dump_step ps with JObj d => d | _ => [] end)).
    set (d := match example_dump_step _ with JObj d => d | _ => [] end) in *.
    cbn [as_obj mbind option_bind].
    assert (field (as_list as_str) "depends_on" d = Some deps) as -> by apply as_list_strs.
    assert (field (as_enum step_types) "type" d = Some type) as -> by by destruct type.
    assert (field (as_enum on_errors) "on_error" d = Some onerr) as -> by by destruct onerr.
    assert (field_or (as_option as_obj) "when" None d = Some when) as -> by by destruct when.
    change (guard_some (exact_fields ["id"; "name"; "type"; "required"; "depends_on"; "timeout_seconds";
      "on_error"; "config"] ["when"] d && plan_step_ok (ExecutionPlanStep id name type req deps when timeout onerr cfg))
      (ExecutionPlanStep id name type req deps when timeout onerr cfg)
      = Some (ExecutionPlanStep id name type req deps when timeout onerr cfg)).
    by rewrite Hf, Hok.
  - intros j ps Hv. cbn in Hv. unfold example_validate_step in Hv.
    repeat (apply bind_Some in Hv as (? & _ & Hv)). apply guard_some_Some in Hv as [Hb <-].
    by apply andb_true_iff in Hb as [_ ?].
  - intros d cfg Hv. cbn in Hv. unfold example_loop_config in Hv.
    repeat (apply bind_Some in Hv as (? & _ & Hv)). apply guard_some_Some in Hv as [Hb <-].
    by apply andb_true_iff in Hb as [_ ?].
Qed.
