(* ===== verification/LoopRuntime.v ===== *)
(** * LOOP runtime helpers ([execution/loop_runtime.py])

    Body ownership, iteration keys, the LOOP_CONTEXT projections and the WHILE
    control evidence: the append-only [predicate_history] a WHILE parent keeps
    in its [resolved_input], its parser, its append/replay operation, and the
    invariant [assert_while_parent_control_state] that ties it to the parent's
    status and to the materialized iterations. *)
From S2P Require Import Prelude PyStr PyDict Json PyUuid CanonicalHash Domain.

Definition LOOP_RUNTIME_UNSUPPORTED : string := "LOOP_RUNTIME_UNSUPPORTED".
Definition LOOP_MAX_ITERATIONS_EXCEEDED : string := "LOOP_MAX_ITERATIONS_EXCEEDED".
Definition LOOP_TIMEOUT : string := "LOOP_TIMEOUT".

(** [LoopBodyOwnership] *)
Record loop_body_ownership := LoopBodyOwnership {
  body_to_loop : dict string;
  loop_to_body : dict (list string) }.

Section loop_runtime.
Context `{PS : PlanSchema}.

(** ** Body ownership *)
(** The body of [for body_id in cfg.body_step_ids] *)
Definition claim_body (id_set : list string) (loop_id : string) (owners : dict string)
    (body_id : string) : res (dict string) :=
  _ ← raise_if (negb (bool_decide (body_id ∈ id_set)))
        (conflict "LOOP {step.id!r} body_step_id={body_id!r} does not exist.");
  _ ← raise_if (String.eqb body_id loop_id) (conflict "LOOP {step.id!r} cannot own itself.");
  _ ← raise_if (match dict_get body_id owners with
                | Some o => negb (String.eqb o loop_id)
                | None => false
                end) (conflict "Step {body_id!r} belongs to multiple LOOP bodies.");
  Ok (dict_set body_id loop_id owners).

(** The body of [for step in plan.steps] *)
Definition claim_loop (id_set : list string) (own : loop_body_ownership) (step : plan_step)
    : res loop_body_ownership :=
  match ps_type step with
  | StepType.LOOP =>
      cfg ← of_option (conflict "Invalid LOOP config for {step.id!r}.")
                      (validate_loop_config (ps_config step));
      owners ← res_fold (claim_body id_set (ps_id step)) (lc_body_step_ids cfg) (body_to_loop own);
      Ok {| body_to_loop := owners;
            loop_to_body := dict_set (ps_id step) (lc_body_step_ids cfg) (loop_to_body own) |}
  | _ => Ok own
  end.

Definition build_loop_body_ownership (p : plan) : res loop_body_ownership :=
  res_fold (claim_loop (ps_id <$> pl_steps p)) (pl_steps p)
           {| body_to_loop := []; loop_to_body := [] |}.

Definition top_level_plan_steps (p : plan) : res (list plan_step) :=
  ownership ← build_loop_body_ownership p;
  Ok (filter (λ s, dict_has (ps_id s) (body_to_loop ownership) = false) (pl_steps p)).

Definition is_body_template (p : plan) (step_id : string) : res bool :=
  ownership ← build_loop_body_ownership p;
  Ok (dict_has step_id (body_to_loop ownership)).

(** [{ps.id: ps for ps in plan.steps}] *)
Definition plan_steps_by_id (p : plan) : dict plan_step := dict_comp ps_id id (pl_steps p).

Definition unsupported (message : string) : py_error :=
  AppError LOOP_RUNTIME_UNSUPPORTED message 409.

(** The body of [for body_id in body_ids] *)
Definition assert_flat_body (by_id : dict plan_step) (body_id : string) : res unit :=
  body ← dict_item body_id by_id;
  _ ← raise_if (bool_decide (ps_type body = StepType.LOOP))
        (unsupported "Nested LOOP body template {body_id!r} runtime is unsupported.");
  _ ← raise_if (bool_decide (ps_type body = StepType.APPROVAL))
        (unsupported "APPROVAL inside LOOP body {body_id!r} is unsupported.");
  raise_if (negb (bool_decide (ps_type body ∈ [StepType.TOOL; StepType.CONDITION; StepType.JOIN])))
        (unsupported "LOOP body step type {body.type.value!r} for {body_id!r} is unsupported.").

Definition assert_flat_loop (ownership : loop_body_ownership) (by_id : dict plan_step)
    (item : string * list string) : res unit :=
  let '(loop_id, bodies) := item in
  loop_step ← dict_item loop_id by_id;
  cfg ← of_option validation_error (validate_loop_config (ps_config loop_step));
  _ ← raise_if (negb (bool_decide (lc_mode cfg ∈ [LoopMode.FOR_EACH; LoopMode.WHILE])))
        (unsupported "LOOP {loop_id!r} mode={cfg.mode.value!r} is unsupported.");
  _ ← raise_if (dict_has loop_id (body_to_loop ownership))
        (unsupported "Nested LOOP {loop_id!r} runtime is unsupported.");
  res_iter (assert_flat_body by_id) bodies.

Definition assert_flat_foreach_runtime_compatible (p : plan) : res loop_body_ownership :=
  ownership ← build_loop_body_ownership p;
  _ ← res_iter (assert_flat_loop ownership (plan_steps_by_id p)) (loop_to_body ownership);
  Ok ownership.

(** ** Iteration keys *)
Definition iteration_step_key (parent_step_id : uuid) (iteration_no : Z)
    (template_step_id : string) : res string :=
  _ ← raise_if (iteration_no <? 1)%Z
        (conflict "iteration_no must be >= 1 for LOOP body instances.");
  let digest := sha256_hex template_step_id in
  Ok ("loop:" +:+ uuid_hex parent_step_id +:+ ":"
      +:+ zero_pad 6 (decimal (Z.to_N iteration_no)) +:+ ":" +:+ digest).

Definition template_id_from_step_snapshot (step : execution_step) : res string :=
  parsed ← of_option (conflict "ExecutionStep step_snapshot is invalid for template identity.")
                     (validate_step (es_step_snapshot step));
  Ok (ps_id parsed).

Definition hash_collection (collection : list json) : res string :=
  compute_canonical_json_hash (JArr collection).

(** ** LOOP_CONTEXT projections *)
Definition build_loop_context_projection (loop_plan_step_id mode : string) (iteration_no : Z)
    (item : json) (collection_size : Z) : res json :=
  _ ← raise_if (iteration_no <? 1)%Z
        (precondition_failed "LOOP_CONTEXT iteration_no must be >= 1.");
  Ok (JObj [("loop_step_id", JStr loop_plan_step_id); ("mode", JStr mode);
            ("iteration_no", JInt iteration_no); ("index", JInt (iteration_no - 1));
            ("item", item); ("collection_size", JInt collection_size)]).

Definition build_while_loop_context_projection (loop_plan_step_id : string)
    (iteration_no max_iterations : Z) (previous_iteration : json) : res json :=
  _ ← raise_if (iteration_no <? 1)%Z
        (precondition_failed "WHILE LOOP_CONTEXT iteration_no must be >= 1.");
  _ ← raise_if (max_iterations <? 1)%Z (conflict "WHILE max_iterations must be >= 1.");
  Ok (JObj [("loop_step_id", JStr loop_plan_step_id);
            ("mode", JStr (loop_mode_value LoopMode.WHILE));
            ("iteration_no", JInt iteration_no); ("index", JInt (iteration_no - 1));
            ("max_iterations", JInt max_iterations);
            ("previous_iteration", previous_iteration)]).

Definition opt_json {A} (f : A → json) (o : option A) : json :=
  match o with Some a => f a | None => JNull end.

Definition previous_iteration_step_projection (step : execution_step) : json :=
  JObj [("status", JStr (step_status_value (es_status step)));
        ("condition_result", opt_json JBool (es_condition_result step));
        ("error_code", opt_json JStr (es_error_code step));
        ("result_inline", es_result_inline step)].

(** ** WHILE control evidence *)
Definition assert_sha256_hex (value : json) : res string :=
  match value with
  | JStr s =>
      _ ← raise_if (negb (is_sha256_hex s))
            (conflict "{field} must be a 64-char lowercase sha256 hex.");
      Ok s
  | _ => Err (conflict "{field} must be a 64-char lowercase sha256 hex.")
  end.

(** A parsed entry [{"next_iteration_no", "evidence_hash", "result"}] *)
Record while_gate := WhileGate {
  next_iteration_no : Z;
  evidence_hash : string;
  gate_result : bool }.

#[export] Instance while_gate_eq_dec : EqDecision while_gate.
Proof. solve_decision. Defined.

Definition while_gate_json (g : while_gate) : json :=
  JObj [("next_iteration_no", JInt (next_iteration_no g));
        ("evidence_hash", JStr (evidence_hash g)); ("result", JBool (gate_result g))].

(** The control object [{"mode": "WHILE", "predicate_history": history}] *)
Definition while_control_json (history : list while_gate) : json :=
  JObj [("mode", JStr (loop_mode_value LoopMode.WHILE));
        ("predicate_history", JArr (while_gate_json <$> history))].

Definition empty_while_control_evidence : json := while_control_json [].

(** The body of [for idx, entry in enumerate(history)] *)
Definition parse_while_entry (idx : Z) (entry : json) : res while_gate :=
  match entry with
  | JObj e =>
      _ ← raise_if (negb (same_set (dict_keys e) ["next_iteration_no"; "evidence_hash"; "result"]))
            (conflict "WHILE predicate_history entry has unexpected fields.");
      match get_or_none "next_iteration_no" e with
      | JInt n =>
          _ ← raise_if (n <? 1)%Z (conflict "WHILE next_iteration_no must be an int >= 1.");
          _ ← raise_if (negb (n =? idx + 1)%Z)
                (conflict "WHILE predicate_history next_iteration_no values must be contiguous starting at 1.");
          digest ← assert_sha256_hex (get_or_none "evidence_hash" e);
          match get_or_none "result" e with
          | JBool result => Ok (WhileGate n digest result)
          | _ => Err (conflict "WHILE predicate_history result must be a bool.")
          end
      | _ => Err (conflict "WHILE next_iteration_no must be an int >= 1.")
      end
  | _ => Err (conflict "WHILE predicate_history entry must be an object.")
  end.

Fixpoint parse_while_entries (idx : Z) (history : list json) : res (list while_gate) :=
  match history with
  | [] => Ok []
  | entry :: history =>
      g ← parse_while_entry idx entry;
      gs ← parse_while_entries (idx + 1) history;
      Ok (g :: gs)
  end.

(** The parsed history; the parsed object is [while_control_json] of it. *)
Definition parse_while_predicate_history (resolved_input : json) : res (list while_gate) :=
  match resolved_input with
  | JObj d =>
      _ ← raise_if (negb (same_set (dict_keys d) ["mode"; "predicate_history"]))
            (conflict "LOOP resolved_input has unexpected WHILE control fields.");
      _ ← raise_if (negb (py_eq (get_or_none "mode" d) (JStr (loop_mode_value LoopMode.WHILE))))
            (conflict "LOOP resolved_input mode must be WHILE (got {mode!r}).");
      match get_or_none "predicate_history" d with
      | JArr history => parse_while_entries 0 history
      | _ => Err (conflict "WHILE predicate_history must be a list.")
      end
  | _ => Err (conflict "LOOP resolved_input must be a WHILE control object.")
  end.

Definition history_entry_for (history : list while_gate) (n : Z) : option while_gate :=
  find_first (λ e, (next_iteration_no e =? n)%Z) history.

Definition result_inline_hash (result_inline : json) : res string :=
  compute_canonical_json_hash result_inline.

(** [append_or_replay_while_history], returning the updated history *)
Definition append_or_replay_while_history (resolved_input : json) (n : Z) (hash : json)
    (result : bool) : res (list while_gate) :=
  history ← parse_while_predicate_history resolved_input;
  digest ← assert_sha256_hex hash;
  history' ←
    match history_entry_for history n with
    | None =>
        _ ← raise_if (negb (n =? Z.of_nat (length history) + 1)%Z)
              (conflict "WHILE history append for candidate {next_iteration_no} but history length is {len(history)}.");
        Ok (history ++ [WhileGate n digest result])
    | Some existing =>
        _ ← raise_if (negb (String.eqb (evidence_hash existing) digest)
                      || negb (Bool.eqb (gate_result existing) result))
              (conflict "WHILE predicate_history replay mismatch for candidate {next_iteration_no}.");
        Ok history
    end;
  parse_while_predicate_history (while_control_json history').

(** ** Lineage of children and ancestors *)
(** [_ITERATION_TERMINAL] *)
Definition iteration_terminal : list step_status :=
  [StepStatus.SUCCEEDED; StepStatus.FAILED; StepStatus.TIMED_OUT; StepStatus.SKIPPED;
   StepStatus.CANCELLED; StepStatus.UNKNOWN_OUTCOME].

Definition assert_while_child_immutable_lineage (child : execution_step) (parent_step_id : uuid)
    (iteration_no : Z) (template : plan_step) : res unit :=
  _ ← raise_if (negb (bool_decide (es_parent_step_id child = Some parent_step_id)))
        (conflict "WHILE child parent_step_id lineage mismatch.");
  _ ← raise_if (negb (bool_decide (es_iteration_no child = Some iteration_no)))
        (conflict "WHILE child iteration_no={child.iteration_no} != expected {iteration_no}.");
  _ ← raise_if (negb (py_eq (es_step_snapshot child) (dump_step template)))
        (conflict "WHILE child template {template.id!r} step_snapshot is not an exact Plan Step projection.");
  _ ← raise_if (negb (bool_decide (es_step_type child = ps_type template)))
        (conflict "WHILE child template {template.id!r} step_type drift.");
  expected_key ← iteration_step_key parent_step_id iteration_no (ps_id template);
  raise_if (negb (String.eqb (es_step_key child) expected_key))
        (conflict "WHILE child key drift for template {template.id!r}: {child.step_key!r} != {expected_key!r}.").

Definition assert_while_top_level_ancestor_lineage (row : execution_step) (ps : plan_step) : res unit :=
  _ ← raise_if (negb (bool_decide (es_parent_step_id row = None)))
        (conflict "WHILE evidence ancestor {plan_step.id!r} is not top-level.");
  _ ← raise_if (negb (String.eqb (es_step_key row) (ps_id ps)))
        (conflict "WHILE evidence ancestor step_key {row.step_key!r} != Plan id {plan_step.id!r}.");
  _ ← raise_if (negb (bool_decide (es_step_type row = ps_type ps)))
        (conflict "WHILE evidence ancestor {plan_step.id!r} step_type drift.");
  raise_if (negb (py_eq (es_step_snapshot row) (dump_step ps)))
        (conflict "WHILE evidence ancestor {plan_step.id!r} step_snapshot is not an exact Plan Step projection.").

Definition child_instances_for_iteration (steps : list execution_step) (parent_step_id : uuid)
    (iteration_no : Z) : list execution_step :=
  filter (λ s, es_parent_step_id s = Some parent_step_id ∧ es_iteration_no s = Some iteration_no) steps.

(** [max(values) if values else 0] *)
Definition py_max0 (values : list Z) : Z :=
  match values with [] => 0%Z | v :: vs => foldl Z.max v vs end.

Definition max_materialized_iteration (steps : list execution_step) (parent_step_id : uuid) : Z :=
  py_max0 (omap es_iteration_no (filter (λ s, es_parent_step_id s = Some parent_step_id) steps)).

(** The body of [for child in children] that fills [by_template] *)
Definition add_template (by_template : dict execution_step) (child : execution_step)
    : res (dict execution_step) :=
  tid ← template_id_from_step_snapshot child;
  _ ← raise_if (dict_has tid by_template)
        (conflict "WHILE previous iteration {previous_iteration_no} has duplicate template {tid!r}.");
  Ok (dict_set tid child by_template).

(** The body of [for tid in body_step_ids]; [plan_by_id] is [None] for a caller
    that passes no plan. *)
Definition previous_iteration_entry (parent_step_id : uuid) (previous_iteration_no : Z)
    (plan_by_id : option (dict plan_step)) (by_template : dict execution_step) (tid : string)
    : res (string * json) :=
  child ← dict_item tid by_template;
  _ ← raise_if (negb (bool_decide (es_status child ∈ iteration_terminal)))
        (conflict "WHILE previous iteration {previous_iteration_no} step {tid!r} is nonterminal ({child.status!r}).");
  _ ← match plan_by_id with
      | Some by_id =>
          template ← of_option (conflict "WHILE body template {tid!r} missing from Plan.")
                               (dict_get tid by_id);
          assert_while_child_immutable_lineage child parent_step_id previous_iteration_no template
      | None =>
          expected_key ← iteration_step_key parent_step_id previous_iteration_no tid;
          raise_if (negb (String.eqb (es_step_key child) expected_key))
            (conflict "WHILE previous iteration child key drift for {tid!r}.")
      end;
  Ok (tid, previous_iteration_step_projection child).

Definition build_previous_iteration_projection (steps : list execution_step)
    (parent_step_id : uuid) (previous_iteration_no : Z) (body_step_ids : list string)
    (p : option plan) : res json :=
  _ ← raise_if (previous_iteration_no <? 1)%Z
        (conflict "previous_iteration_no must be >= 1.");
  let children := child_instances_for_iteration steps parent_step_id previous_iteration_no in
  _ ← raise_if (negb (length children =? length body_step_ids)%nat)
        (conflict "WHILE previous iteration {previous_iteration_no} has {len(children)} children; expected {len(body_step_ids)}.");
  by_template ← res_fold add_template children [];
  _ ← raise_if (negb (same_set (dict_keys by_template) body_step_ids))
        (conflict "WHILE previous iteration {previous_iteration_no} template set {sorted(by_template)} != body_step_ids {list(body_step_ids)}.");
  step_map ← res_map (previous_iteration_entry parent_step_id previous_iteration_no
                        (plan_steps_by_id <$> p) by_template) body_step_ids;
  Ok (JObj [("iteration_no", JInt previous_iteration_no); ("steps", JObj (dict_of_pairs step_map))]).

(** [_assert_iteration_set_complete_terminal] *)
Definition assert_iteration_child (plan_by_id : dict plan_step) (by_template : dict execution_step)
    (parent : execution_step) (iteration_no : Z) (tid : string) : res unit :=
  child ← dict_item tid by_template;
  template ← dict_item tid plan_by_id;
  _ ← assert_while_child_immutable_lineage child (es_id parent) iteration_no template;
  raise_if (negb (bool_decide (es_status child ∈ iteration_terminal)))
    (conflict "WHILE {parent.step_key!r} iteration {iteration_no} template {tid!r} is nonterminal.").

Definition assert_iteration_set_complete_terminal (steps : list execution_step)
    (parent : execution_step) (iteration_no : Z) (body_step_ids : list string) (p : plan) : res unit :=
  let children := child_instances_for_iteration steps (es_id parent) iteration_no in
  _ ← raise_if (negb (length children =? length body_step_ids)%nat)
        (conflict "WHILE {parent.step_key!r} iteration {iteration_no} incomplete ({len(children)}/{len(body_step_ids)}).");
  pairs ← res_map (λ c, tid ← template_id_from_step_snapshot c; Ok (tid, c)) children;
  let by_template := dict_of_pairs pairs in
  _ ← raise_if (negb (same_set (dict_keys by_template) body_step_ids))
        (conflict "WHILE {parent.step_key!r} iteration {iteration_no} template set mismatch.");
  res_iter (assert_iteration_child (plan_steps_by_id p) by_template parent iteration_no) body_step_ids.

(** ** [assert_while_parent_control_state], a definition per status *)
(** [{c.iteration_no for c in children if c.iteration_no}] *)
Definition present_iterations (children : list execution_step) : list Z :=
  filter (λ n, n ≠ 0%Z) (omap es_iteration_no children).

(** [entry is None or entry["result"] is not result] *)
Definition require_gate (history : list while_gate) (n : Z) (result : bool) (message : string) : res unit :=
  match history_entry_for history n with
  | None => Err (conflict message)
  | Some entry => raise_if (negb (Bool.eqb (gate_result entry) result)) (conflict message)
  end.

(** One iteration of the loops over [1..N]: complete, terminal, true gate *)
Definition require_iteration_done (steps : list execution_step) (parent : execution_step)
    (bodies : list string) (p : plan) (history : list while_gate) (message : string) (n : Z) : res unit :=
  _ ← assert_iteration_set_complete_terminal steps parent n bodies p;
  require_gate history n true message.

(** [status == SUCCEEDED] *)
Definition while_succeeded_state (steps : list execution_step) (parent : execution_step)
    (children : list execution_step) (max_n : Z) (bodies : list string) (p : plan)
    (history : list while_gate) : res unit :=
  _ ← (if (0 <? max_n)%Z then
         _ ← raise_if (negb (same_set (present_iterations children) (range1 max_n)))
               (conflict "WHILE {parent.step_key!r} SUCCEEDED iterations are not contiguous.");
         res_iter (require_iteration_done steps parent bodies p history
                     "WHILE {parent.step_key!r} SUCCEEDED requires true gate for iteration {n}.")
                  (range1 max_n)
       else Ok tt);
  _ ← raise_if (negb (Z.of_nat (length history) =? max_n + 1)%Z)
        (conflict "WHILE {parent.step_key!r} SUCCEEDED history length {len(history)} != iterations_completed+1 ({max_n + 1}).");
  _ ← require_gate history (max_n + 1) false
        "WHILE {parent.step_key!r} SUCCEEDED requires final false gate at candidate {max_n + 1}.";
  let expected_result := JObj [("mode", JStr (loop_mode_value LoopMode.WHILE));
                               ("iterations_completed", JInt max_n)] in
  _ ← raise_if (negb (py_eq (es_result_inline parent) expected_result))
        (conflict "WHILE {parent.step_key!r} SUCCEEDED result_inline must be exactly {expected_result!r}.");
  raise_if (negb (bool_decide (es_error_code parent = None)))
    (conflict "WHILE {parent.step_key!r} SUCCEEDED must have error_code null.").

(** [status == FAILED and error_code == LOOP_MAX_ITERATIONS_EXCEEDED] *)
Definition while_exceeded_state (steps : list execution_step) (parent : execution_step)
    (children : list execution_step) (max_n : Z) (cfg : loop_config) (p : plan)
    (history : list while_gate) : res unit :=
  let m := lc_max_iterations cfg in
  _ ← raise_if (negb (max_n =? m)%Z)
        (conflict "WHILE {parent.step_key!r} LOOP_MAX_ITERATIONS_EXCEEDED requires exactly {m} materialized iterations (got {max_n}).");
  _ ← res_iter (require_iteration_done steps parent (lc_body_step_ids cfg) p history
                  "WHILE {parent.step_key!r} LOOP_MAX_ITERATIONS_EXCEEDED requires true gate for iteration {n}.")
               (range1 m);
  _ ← raise_if (negb (Z.of_nat (length history) =? m + 1)%Z)
        (conflict "WHILE {parent.step_key!r} LOOP_MAX_ITERATIONS_EXCEEDED history length {len(history)} != max_iterations+1 ({m + 1}).");
  _ ← require_gate history (m + 1) true
        "WHILE {parent.step_key!r} LOOP_MAX_ITERATIONS_EXCEEDED requires true gate at candidate {m + 1}.";
  raise_if (existsb (λ c, bool_decide (es_iteration_no c = Some (m + 1)%Z)) children)
    (conflict "WHILE {parent.step_key!r} LOOP_MAX_ITERATIONS_EXCEEDED must not materialize iteration {m + 1}.").

(** [status == RUNNING] *)
Definition while_running_state (steps : list execution_step) (parent : execution_step)
    (children : list execution_step) (max_n : Z) (bodies : list string) (p : plan)
    (history : list while_gate) : res unit :=
  if (max_n <? 1)%Z then
    match history with
    | [] => Ok tt
    | _ =>
        _ ← raise_if (negb (Z.of_nat (length history) =? 1)%Z)
              (conflict "WHILE {parent.step_key!r} RUNNING with no children must have empty predicate_history or exactly gate 1=true/false.");
        raise_if (match history_entry_for history 1 with None => true | Some _ => false end)
          (conflict "WHILE {parent.step_key!r} RUNNING with no children requires history gate 1=true or 1=false (or empty history).")
    end
  else
    let present := present_iterations children in
    _ ← raise_if (negb (same_set present (range1 max_n)))
          (conflict "WHILE {parent.step_key!r} RUNNING iterations are not contiguous.");
    _ ← res_iter (λ n, require_gate history n true
                         "WHILE {parent.step_key!r} RUNNING requires true gate for materialized iteration {n}.")
                 (range1 max_n);
    _ ← res_iter (λ entry, raise_if ((next_iteration_no entry <=? max_n)%Z && negb (gate_result entry))
                    (conflict "WHILE {parent.step_key!r} RUNNING has false gate at or before iteration {max_n}."))
                 history;
    match history_entry_for history (max_n + 1) with
    | Some nxt =>
        _ ← raise_if (bool_decide ((max_n + 1)%Z ∈ present))
              (conflict "WHILE {parent.step_key!r} RUNNING has gate {max_n + 1} while iteration rows already exist.");
        _ ← res_iter (λ n, assert_iteration_set_complete_terminal steps parent n bodies p) (range1 max_n);
        _ ← raise_if (negb (Z.of_nat (length history) =? max_n + 1)%Z)
              (conflict "WHILE {parent.step_key!r} RUNNING history length {len(history)} != materialized+1 ({max_n + 1}).");
        raise_if (negb (Bool.eqb (gate_result nxt) true) && negb (Bool.eqb (gate_result nxt) false))
          (conflict "WHILE {parent.step_key!r} RUNNING gate {max_n + 1} result must be bool.")
    | None =>
        raise_if (max_n <? Z.of_nat (length history))%Z
          (conflict "WHILE {parent.step_key!r} RUNNING history extends past candidate {max_n}.")
    end.

(** [status == TIMED_OUT and error_code == LOOP_TIMEOUT] *)
Definition while_timed_out_state (max_n : Z) (history : list while_gate) : res unit :=
  _ ← (if (0 <? max_n)%Z
       then res_iter (λ n, require_gate history n true
              "WHILE {parent.step_key!r} TIMED_OUT requires true gate for materialized iteration {n}.")
              (range1 max_n)
       else Ok tt);
  raise_if (max_n <? Z.of_nat (length history))%Z
    (conflict "WHILE {parent.step_key!r} TIMED_OUT must not retain a candidate history entry after timeout.").

(** [any error code equal to c] *)
Definition error_code_is (s : execution_step) (c : string) : bool :=
  bool_decide (es_error_code s = Some c).

(** What follows the identity checks, for a parent whose loop config is [cfg] *)
Definition while_control_by_status (parent : execution_step) (p : plan)
    (steps : list execution_step) (cfg : loop_config) : res unit :=
  let children := filter (λ s, es_parent_step_id s = Some (es_id parent)) steps in
  let max_n := max_materialized_iteration children (es_id parent) in
  let bodies := lc_body_step_ids cfg in
  let status := es_status parent in
  if bool_decide (status = StepStatus.SKIPPED) && error_code_is parent "STEP_WHEN_FALSE" then
    _ ← raise_if (match children with [] => false | _ => true end)
          (conflict "WHILE {parent.step_key!r} SKIPPED/STEP_WHEN_FALSE must have no children.");
    raise_if (negb (is_none (es_resolved_input parent)))
      (conflict "WHILE {parent.step_key!r} SKIPPED/STEP_WHEN_FALSE must have no predicate history.")
  else if is_none (es_resolved_input parent) then
    raise_if (negb (bool_decide (status = StepStatus.PENDING)
                    && match children with [] => true | _ => false end))
      (conflict "WHILE {parent.step_key!r} missing resolved_input control evidence in status {status!r}.")
  else
    history ← parse_while_predicate_history (es_resolved_input parent);
    if bool_decide (status = StepStatus.SUCCEEDED) then
      while_succeeded_state steps parent children max_n bodies p history
    else if bool_decide (status = StepStatus.FAILED) && error_code_is parent LOOP_MAX_ITERATIONS_EXCEEDED then
      while_exceeded_state steps parent children max_n cfg p history
    else if bool_decide (status = StepStatus.RUNNING) then
      while_running_state steps parent children max_n bodies p history
    else if bool_decide (status = StepStatus.TIMED_OUT) && error_code_is parent LOOP_TIMEOUT then
      while_timed_out_state max_n history
    else Ok tt.

Definition assert_while_parent_control_state (parent : execution_step) (p : plan)
    (steps : list execution_step) (cfg : option loop_config) : res unit :=
  _ ← raise_if (negb (bool_decide (es_parent_step_id parent = None)))
        (conflict "WHILE control state requires a top-level LOOP parent.");
  _ ← raise_if (negb (bool_decide (es_step_type parent = StepType.LOOP)))
        (conflict "WHILE control state requires step_type LOOP.");
  let invalid := conflict "WHILE {parent.step_key!r} config/snapshot invalid." in
  parent_plan ← of_option invalid (validate_step (es_step_snapshot parent));
  loop_cfg ← match cfg with
             | Some c => Ok c
             | None => of_option invalid (validate_loop_config (ps_config parent_plan))
             end;
  _ ← raise_if (negb (bool_decide (lc_mode loop_cfg = LoopMode.WHILE)))
        (conflict "assert_while_parent_control_state requires WHILE mode.");
  let drift := conflict "WHILE {parent.step_key!r} parent snapshot is not an exact Plan Step projection." in
  expected_parent ← of_option drift
    (find_first (λ ps, String.eqb (ps_id ps) (es_step_key parent)) (pl_steps p));
  _ ← raise_if (negb (py_eq (dump_step expected_parent) (es_step_snapshot parent))) drift;
  while_control_by_status parent p steps loop_cfg.

Definition hash_while_predicate_evidence (evidence : json) : res string :=
  compute_canonical_json_hash evidence.

Definition projected_expanded_step_count (top_level_count collection_size body_step_count : Z) : Z :=
  top_level_count + collection_size * body_step_count.

(** ** FOR_EACH control evidence *)
Record foreach_pin := ForeachPin {
  collection_hash : string;
  collection_size : Z }.

Definition parse_foreach_collection_pin (resolved_input : json) : res foreach_pin :=
  match resolved_input with
  | JObj d =>
      _ ← raise_if (negb (same_set (dict_keys d) ["mode"; "collection_hash"; "collection_size"]))
            (conflict "LOOP resolved_input has unexpected FOR_EACH control fields.");
      _ ← raise_if (negb (py_eq (get_or_none "mode" d) (JStr (loop_mode_value LoopMode.FOR_EACH))))
            (conflict "LOOP resolved_input mode must be FOR_EACH (got {mode!r}).");
      digest ← match get_or_none "collection_hash" d with
               | JStr s =>
                   _ ← raise_if (negb (is_sha256_hex s))
                         (conflict "LOOP collection_hash must be a 64-char lowercase sha256 hex.");
                   Ok s
               | _ => Err (conflict "LOOP collection_hash must be a 64-char lowercase sha256 hex.")
               end;
      let bad := conflict "LOOP collection_size must be an int >= 0 (bool rejected)." in
      match get_or_none "collection_size" d with
      | JInt size => _ ← raise_if (size <? 0)%Z bad; Ok (ForeachPin digest size)
      | _ => Err bad
      end
  | _ => Err (conflict "LOOP resolved_input must be a FOR_EACH control object.")
  end.

(** [tool_version_for_template]: [None] for a step that is no TOOL *)
Definition tool_version_for_template (ps : plan_step) : res (option uuid) :=
  match ps_type ps with
  | StepType.TOOL =>
      cfg ← of_option validation_error (validate_tool_config (ps_config ps));
      Ok (Some (tc_tool_version_id cfg))
  | _ => Ok None
  end.
End loop_runtime.

(** ** WHILE evidence: what parses *)
Definition history_ok (history : list while_gate) : Prop :=
  ∀ i g, history !! i = Some g →
    next_iteration_no g = (Z.of_nat i + 1)%Z ∧ is_sha256_hex (evidence_hash g) = true.

Lemma assert_sha256_hex_Ok v d :
  assert_sha256_hex v = Ok d ↔ v = JStr d ∧ is_sha256_hex d = true.
Proof.
  unfold assert_sha256_hex. destruct v; try naive_solver.
  rewrite bind_Ok. setoid_rewrite raise_if_Ok. setoid_rewrite negb_false_iff. naive_solver.
Qed.

Lemma parse_while_entry_Ok idx v g :
  parse_while_entry idx v = Ok g →
  next_iteration_no g = (idx + 1)%Z ∧ is_sha256_hex (evidence_hash g) = true.
Proof.
  unfold parse_while_entry. destruct v; try done. intros Hrun. inv_res.
  case_match; try done. inv_res. case_match; try done. inv_res.
  select (assert_sha256_hex _ = _) (fun H => apply assert_sha256_hex_Ok in H as [_ ?]).
  select ((_ =? _)%Z = true) (fun H => apply Z.eqb_eq in H). done.
Qed.

Lemma parse_while_entries_Ok idx vs gs :
  parse_while_entries idx vs = Ok gs →
  length gs = length vs ∧
  ∀ i g, gs !! i = Some g →
    next_iteration_no g = (idx + Z.of_nat i + 1)%Z ∧ is_sha256_hex (evidence_hash g) = true.
Proof.
  revert idx gs. induction vs as [|v vs IH]; intros idx gs; simpl.
  - intros [= <-]. done.
  - intros Hrun. inv_res.
    select (parse_while_entry _ _ = _) (fun H => apply parse_while_entry_Ok in H).
    match goal with Hp : parse_while_entries _ _ = _ |- _ => apply IH in Hp as [Hl Hgs] end. split; [simpl; lia|].
    intros [|i] g; simpl.
    + intros [= <-]. destruct_and!. split; [lia|done].
    + intros Hg. apply Hgs in Hg as [? ?]. split; [lia|done].
Qed.

Lemma parse_while_history_ok j h : parse_while_predicate_history j = Ok h → history_ok h.
Proof.
  unfold parse_while_predicate_history. destruct j; try done. intros Hrun. inv_res.
  case_match; try done. apply parse_while_entries_Ok in Hrun as [_ Hh].
  intros i g Hg. apply Hh in Hg. by rewrite Z.add_0_l in Hg.
Qed.

Lemma parse_while_entry_json idx g :
  (0 ≤ idx)%Z → next_iteration_no g = (idx + 1)%Z → is_sha256_hex (evidence_hash g) = true →
  parse_while_entry idx (while_gate_json g) = Ok g.
Proof.
  destruct g as [n d b]. simpl. intros Hi -> Hd.
  assert (assert_sha256_hex (JStr d) = Ok d) as E by by apply assert_sha256_hex_Ok.
  change ((_ ← raise_if (idx + 1 <? 1)%Z (conflict "WHILE next_iteration_no must be an int >= 1.");
    _ ← raise_if (negb (idx + 1 =? idx + 1)%Z)
          (conflict "WHILE predicate_history next_iteration_no values must be contiguous starting at 1.");
    digest ← assert_sha256_hex (JStr d); Ok (WhileGate (idx + 1) digest b))
    = Ok (WhileGate (idx + 1) d b)).
  rewrite E, Z.eqb_refl. destruct (Z.ltb_spec (idx + 1) 1); [lia|done].
Qed.

Lemma parse_while_entries_json idx h :
  (0 ≤ idx)%Z →
  (∀ i g, h !! i = Some g → next_iteration_no g = (idx + Z.of_nat i + 1)%Z ∧
     is_sha256_hex (evidence_hash g) = true) →
  parse_while_entries idx (while_gate_json <$> h) = Ok h.
Proof.
  revert idx. induction h as [|g h IH]; intros idx Hi Hh; [done|].
  rewrite fmap_cons. cbn [parse_while_entries].
  destruct (Hh 0%nat g eq_refl) as [Hn Hd].
  rewrite parse_while_entry_json by (done || lia). cbn [mbind res_bind]. rewrite IH; [done|lia|].
  intros i g' Hg. destruct (Hh (S i) g' Hg). split; [lia|done].
Qed.

(** A well-formed history survives being stored and parsed. *)
Lemma parse_while_control_json h :
  history_ok h → parse_while_predicate_history (while_control_json h) = Ok h.
Proof.
  intros Hh. unfold parse_while_predicate_history, while_control_json.
  transitivity (parse_while_entries 0 (while_gate_json <$> h)); [done|].
  apply parse_while_entries_json; [done|].
  intros i g Hg. rewrite Z.add_0_l. by apply Hh.
Qed.

(** The entry for candidate [n] is the [n]-th one. *)
Lemma history_entry_for_ok h n g :
  history_ok h →
  history_entry_for h n = Some g ↔ (1 ≤ n)%Z ∧ h !! Z.to_nat (n - 1) = Some g.
Proof.
  intros Hh. unfold history_entry_for. split.
  - intros [Hin Hn%Z.eqb_eq]%find_first_Some.
    apply list_elem_of_lookup in Hin as [i Hi]. destruct (Hh i g Hi) as [Hg _].
    split; [lia|]. replace (Z.to_nat (n - 1)) with i by lia. done.
  - intros [Hn Hg]. destruct (find_first _ h) as [g'|] eqn:E.
    + apply find_first_Some in E as [Hin Hn'%Z.eqb_eq].
      apply list_elem_of_lookup in Hin as [i Hi]. destruct (Hh i g' Hi) as [Hg' _].
      replace (Z.to_nat (n - 1)) with i in Hg by lia. congruence.
    + rewrite find_first_None in E. destruct (Hh _ _ Hg) as [Hn' _].
      assert (g ∈ h) as Hin%E by (by eapply list_elem_of_lookup_2).
      apply Z.eqb_neq in Hin. lia.
Qed.

Lemma history_entry_for_None h n :
  history_ok h → history_entry_for h n = None ↔ (n < 1 ∨ Z.of_nat (length h) < n)%Z.
Proof.
  intros Hh. rewrite eq_None_not_Some. unfold is_Some.
  setoid_rewrite (history_entry_for_ok h n _ Hh). split.
  - intros Hno. destruct (decide (n < 1)%Z); [by left|right].
    destruct (decide (Z.of_nat (length h) < n)%Z); [done|]. exfalso. apply Hno.
    destruct (lookup_lt_is_Some_2 h (Z.to_nat (n - 1))) as [g Hg]; [lia|].
    exists g. split; [lia|done].
  - intros Hn [g [Hn1 Hg]]. apply lookup_lt_Some in Hg. lia.
Qed.

(** ** Properties *)
(** When an append or replay succeeds, and with what history *)
Lemma append_history_Ok j h n v r h' :
  parse_while_predicate_history j = Ok h →
  append_or_replay_while_history j n v r = Ok h' ↔
  ∃ d, v = JStr d ∧ is_sha256_hex d = true ∧
    ((n = Z.of_nat (length h) + 1)%Z ∧ h' = h ++ [WhileGate n d r]
     ∨ (1 ≤ n)%Z ∧ h !! Z.to_nat (n - 1) = Some (WhileGate n d r) ∧ h' = h).
Proof.
  intros Hj. pose proof (parse_while_history_ok j h Hj) as Hh.
  unfold append_or_replay_while_history. rewrite Hj. cbn [mbind res_bind].
  assert (∀ g, history_ok (h ++ [WhileGate (Z.of_nat (length h) + 1) g r]) ↔ is_sha256_hex g = true) as Happ.
  { intros g. split.
    - intros Hok. refine (proj2 (Hok (length h) (WhileGate _ g r) _)).
      by rewrite list_lookup_middle.
    - intros Hg i e He. apply lookup_app_Some in He as [He|[Hi He]]; [by apply Hh|].
      apply list_lookup_singleton_Some in He as [Hi' <-]. simpl. split; [lia|done]. }
  rewrite bind_Ok. setoid_rewrite assert_sha256_hex_Ok. split.
  - intros (d & [-> Hd] & Hrun). exists d. do 2 (split; [done|]).
    destruct (history_entry_for h n) as [g|] eqn:E.
    + apply history_entry_for_ok in E as [Hn Hg]; [|done]. inv_res.
      select (String.eqb _ _ = true) (fun H => apply String.eqb_eq in H).
      select (Bool.eqb _ _ = true) (fun H => apply Bool.eqb_prop in H). right. split; [done|].
      destruct (Hh _ _ Hg) as [Hgn _]. destruct g as [n' d' r'].
      cbn [next_iteration_no evidence_hash gate_result] in *. subst.
      split; [rewrite Hg; do 2 f_equal; lia|].
      rewrite (parse_while_control_json _ Hh) in Hrun. congruence.
    + inv_res. select ((_ =? _)%Z = true) (fun H => apply Z.eqb_eq in H as ->). left. split; [done|].
      rewrite parse_while_control_json in Hrun by by apply Happ. congruence.
  - intros (d & -> & Hd & Hcase). exists d. split; [done|].
    destruct Hcase as [[-> ->]|(Hn & Hg & ->)].
    + assert (history_entry_for h (Z.of_nat (length h) + 1) = None) as ->
        by (apply history_entry_for_None; [done|lia]).
      rewrite Z.eqb_refl. cbn [negb raise_if mbind res_bind].
      apply parse_while_control_json. by apply Happ.
    + assert (history_entry_for h n = Some (WhileGate n d r)) as ->
        by by apply history_entry_for_ok.
      cbn [evidence_hash gate_result]. rewrite String.eqb_refl, Bool.eqb_reflx.
      by apply parse_while_control_json.
Qed.

(** [append_or_replay_while_history] is an append-only log with validated
    replay: on parsed evidence [h] it succeeds exactly when the digest is a
    sha256 hex string and either the candidate is the next one, and the result
    is [h] with that one gate appended, or the candidate is already recorded
    with the same digest and the same result, and [h] is returned unchanged.
    Every other call (a gap, a rewrite of a past gate, a changed digest) fails. *)
Theorem append_or_replay_while_history_spec j h n v r h' :
  parse_while_predicate_history j = Ok h →
  append_or_replay_while_history j n v r = Ok h' ↔
  ∃ d, v = JStr d ∧ is_sha256_hex d = true ∧
    ((n = Z.of_nat (length h) + 1)%Z ∧ h' = h ++ [WhileGate n d r]
     ∨ (1 ≤ n)%Z ∧ h !! Z.to_nat (n - 1) = Some (WhileGate n d r) ∧ h' = h).
Proof. apply append_history_Ok. Qed.

(** ** The WHILE control invariant *)
Section while_control.
Context `{PS : PlanSchema}.

Lemma elem_of_dict_values_comp {A} (key : A → string) l k (v : A) :
  dict_get k (dict_comp key id l) = Some v → v ∈ l ∧ key v = k.
Proof. intros (x & Hx & <- & <-)%dict_comp_get. done. Qed.

Lemma require_gate_Ok h n r m u :
  require_gate h n r m = Ok u ↔ ∃ g, history_entry_for h n = Some g ∧ gate_result g = r.
Proof.
  unfold require_gate. destruct (history_entry_for h n) as [g|]; [|naive_solver].
  rewrite raise_if_Ok, negb_false_iff, Bool.eqb_true_iff. naive_solver.
Qed.

(** Gates 1..N that are all true make the first N results true. *)
Lemma gates_true h N m :
  history_ok h → (∀ n, n ∈ range1 N → require_gate h n true m = Ok tt) →
  ∃ t, gate_result <$> h = replicate (Z.to_nat N) true ++ t.
Proof.
  intros Hh Hg. exists (drop (Z.to_nat N) (gate_result <$> h)).
  rewrite <- (take_drop (Z.to_nat N) (gate_result <$> h)) at 1. f_equal.
  apply list_eq. intros i. destruct (decide (i < Z.to_nat N)%nat) as [Hi|Hi].
  - rewrite lookup_take_lt, lookup_replicate_2, list_lookup_fmap by done.
    assert (require_gate h (Z.of_nat i + 1) true m = Ok tt) by (apply Hg, elem_of_range1; lia).
    match goal with Hq : require_gate _ _ _ _ = _ |- _ => apply require_gate_Ok in Hq as (g & Hg' & Hr) end.
    apply history_entry_for_ok in Hg' as [_ Hg']; [|done].
    replace (Z.to_nat (Z.of_nat i + 1 - 1)) with i in Hg' by lia.
    rewrite Hg'. simpl. by rewrite Hr.
  - rewrite lookup_take_ge, (lookup_ge_None_2 (replicate _ _)); [done| |lia].
    rewrite length_replicate. lia.
Qed.

(** Iteration [n] holds exactly one terminal, untampered instance per body. *)
Definition while_iteration_complete (steps : list execution_step) (parent : execution_step)
    (p : plan) (bodies : list string) (n : Z) : Prop :=
  length (child_instances_for_iteration steps (es_id parent) n) = length bodies ∧
  ∀ tid, tid ∈ bodies → ∃ child template,
    child ∈ child_instances_for_iteration steps (es_id parent) n ∧
    template ∈ pl_steps p ∧ ps_id template = tid ∧
    iteration_step_key (es_id parent) n tid = Ok (es_step_key child) ∧
    py_eq (es_step_snapshot child) (dump_step template) = true ∧
    es_step_type child = ps_type template ∧ es_status child ∈ iteration_terminal.

Lemma dict_of_pairs_get {V} (l : dict V) k v :
  dict_get k (dict_of_pairs l) = Some v → (k, v) ∈ l.
Proof.
  assert ((λ x, (x.1, x.2)) <$> l = l) as E.
  { induction l as [|[] l IH]; simpl; [done|]. by f_equal. }
  intros Hg. rewrite <- E in Hg. change (dict_get k (dict_comp fst snd l) = Some v) in Hg.
  by apply dict_comp_get in Hg as ([k' v'] & ? & <- & <-).
Qed.

Lemma assert_iteration_complete_Ok steps parent p bodies n :
  assert_iteration_set_complete_terminal steps parent n bodies p = Ok tt →
  while_iteration_complete steps parent p bodies n.
Proof.
  unfold assert_iteration_set_complete_terminal. intros Hrun. inv_res.
  split; [by apply Nat.eqb_eq|]. intros tid Htid. specialize (Hrun tid Htid).
  unfold assert_iteration_child, dict_item in Hrun. inv_res.
  unfold assert_while_child_immutable_lineage in *. inv_res.
  match goal with Hm : res_map _ _ = Ok _ |- _ => rename Hm into Hmap end.
  match goal with Hd : dict_get tid (dict_of_pairs _) = Some ?c |- _ =>
    exists c; apply dict_of_pairs_get in Hd; rename Hd into Hc end.
  match goal with Hd : dict_get tid (plan_steps_by_id p) = Some ?t |- _ =>
    exists t; apply elem_of_dict_values_comp in Hd as [Ht Hid] end.
  apply res_map_Ok in Hmap.
  apply list_elem_of_lookup in Hc as [i Hi].
  eapply Forall2_lookup_r in Hmap as (c' & Hc' & Hm); [|done]. inv_res.
  repeat split; try done; [by eapply list_elem_of_lookup_2|].
  match goal with Hk : String.eqb _ _ = true |- _ => apply String.eqb_eq in Hk; rewrite Hk end.
  done.
Qed.

Lemma max_materialized_children steps id :
  max_materialized_iteration (filter (λ s, es_parent_step_id s = Some id) steps) id
  = max_materialized_iteration steps id.
Proof.
  unfold max_materialized_iteration. rewrite list_filter_filter.
  do 2 f_equal. apply list_filter_iff. naive_solver.
Qed.

Lemma require_iterations_done steps parent bodies p h m N :
  history_ok h → (∀ n, n ∈ range1 N → require_iteration_done steps parent bodies p h m n = Ok tt) →
  (∃ t, gate_result <$> h = replicate (Z.to_nat N) true ++ t) ∧
  ∀ n, (1 ≤ n ≤ N)%Z → while_iteration_complete steps parent p bodies n.
Proof.
  intros Hh Hd. split.
  - apply (gates_true h N m Hh). intros n Hn. specialize (Hd n Hn).
    unfold require_iteration_done in Hd. by inv_res.
  - intros n Hn%elem_of_range1. specialize (Hd n Hn).
    unfold require_iteration_done in Hd. inv_res. by apply assert_iteration_complete_Ok.
Qed.

(** The last gate, when the history has exactly one more entry than N *)
Lemma gates_last h N r m t :
  history_ok h → gate_result <$> h = replicate (Z.to_nat N) true ++ t →
  Z.of_nat (length h) = (N + 1)%Z → require_gate h (N + 1) r m = Ok tt → t = [r].
Proof.
  intros Hh Hg Hl (g & Hgn & <-)%require_gate_Ok.
  apply history_entry_for_ok in Hgn as [HN Hgn]; [|done].
  replace (Z.to_nat (N + 1 - 1)) with (Z.to_nat N) in Hgn by lia.
  assert (length t = 1%nat) as Ht.
  { apply (f_equal length) in Hg. rewrite length_fmap, length_app, length_replicate in Hg. lia. }
  destruct t as [|x [|]]; simpl in Ht; try lia.
  apply (f_equal (λ l, l !! Z.to_nat N)) in Hg.
  rewrite list_lookup_fmap, Hgn, lookup_app_r, length_replicate, Nat.sub_diag in Hg
    by (rewrite length_replicate; lia).
  simpl in Hg. congruence.
Qed.

(** How the gates of an accepted history end, by the parent's status, after
    [N] materialized iterations *)
Definition while_gates_spec (parent : execution_step) (cfg : loop_config) (N : nat)
    (iterations_complete : Prop) (gates : list bool) : Prop :=
  match es_status parent with
  | StepStatus.SUCCEEDED =>
      gates = replicate N true ++ [false] ∧ iterations_complete ∧ es_error_code parent = None
  | StepStatus.FAILED =>
      error_code_is parent LOOP_MAX_ITERATIONS_EXCEEDED = true →
      gates = replicate (S N) true ∧ iterations_complete ∧ Z.of_nat N = lc_max_iterations cfg
  | StepStatus.RUNNING =>
      gates = replicate N true ∨ ∃ b, gates = replicate N true ++ [b] ∧ iterations_complete
  | StepStatus.TIMED_OUT =>
      error_code_is parent LOOP_TIMEOUT = true → gates = replicate N true
  | _ => True
  end.

Ltac gates_prefix H := apply require_iterations_done in H as [[t Ht] Hc]; [|done].

Lemma while_succeeded_Ok steps parent children N bodies p h :
  history_ok h → while_succeeded_state steps parent children N bodies p h = Ok tt →
  gate_result <$> h = replicate (Z.to_nat N) true ++ [false]
  ∧ (∀ n, (1 ≤ n ≤ N)%Z → while_iteration_complete steps parent p bodies n)
  ∧ es_error_code parent = None.
Proof.
  intros Hh Hrun. unfold while_succeeded_state in Hrun. inv_res.
  match goal with Hl : (Z.of_nat _ =? _)%Z = true |- _ => apply Z.eqb_eq in Hl; rename Hl into Hlen end.
  match goal with Hg : require_gate _ _ _ _ = _ |- _ => rename Hg into Hlast end.
  match goal with Hi : (if _ then _ else _) = Ok tt |- _ => rename Hi into Hit end.
  assert ((∃ t, gate_result <$> h = replicate (Z.to_nat N) true ++ t) ∧
          ∀ n, (1 ≤ n ≤ N)%Z → while_iteration_complete steps parent p bodies n) as [[t Ht] Hc].
  { destruct (Z.ltb_spec 0 N) as [HN|HN].
    - inv_res. by eapply require_iterations_done.
    - split; [|intros n ?; lia]. exists (gate_result <$> h). by replace (Z.to_nat N) with 0%nat by lia. }
  split; [|split; [done|]].
  - rewrite Ht. f_equal. by eapply (gates_last h N).
  - done.
Qed.

Lemma while_exceeded_Ok steps parent children N cfg p h :
  history_ok h → (1 ≤ lc_max_iterations cfg)%Z →
  while_exceeded_state steps parent children N cfg p h = Ok tt →
  gate_result <$> h = replicate (S (Z.to_nat N)) true
  ∧ (∀ n, (1 ≤ n ≤ N)%Z → while_iteration_complete steps parent p (lc_body_step_ids cfg) n)
  ∧ N = lc_max_iterations cfg.
Proof.
  intros Hh Hm Hrun. unfold while_exceeded_state in Hrun.
  inv_res. repeat match goal with Hl : (_ =? _)%Z = true |- _ => apply Z.eqb_eq in Hl end.
  subst N. match goal with Hg : require_gate _ _ _ _ = _ |- _ => rename Hg into Hlast end.
  match goal with Hi : ∀ _, _ ∈ range1 _ → _ |- _ => gates_prefix Hi end.
  split; [|done]. rewrite Ht.
  assert (t = [true]) as -> by by eapply gates_last.
  by rewrite <- replicate_S_end.
Qed.

Lemma while_running_Ok steps parent children N bodies p h :
  history_ok h → while_running_state steps parent children N bodies p h = Ok tt →
  gate_result <$> h = replicate (Z.to_nat N) true
  ∨ ∃ b, gate_result <$> h = replicate (Z.to_nat N) true ++ [b]
      ∧ ∀ n, (1 ≤ n ≤ N)%Z → while_iteration_complete steps parent p bodies n.
Proof.
  intros Hh Hrun. unfold while_running_state in Hrun.
  destruct (Z.ltb_spec N 1) as [HN|HN].
  - replace (Z.to_nat N) with 0%nat by lia. destruct h as [|g h]; [by left|right].
    inv_res. match goal with Hl : (_ =? _)%Z = true |- _ => apply Z.eqb_eq in Hl end.
    destruct h; simpl in *; [|lia]. exists (gate_result g). split; [done|intros n ?; lia].
  - inv_res. match goal with Hi : ∀ _, _ ∈ range1 _ → require_gate _ _ _ _ = _ |- _ =>
      destruct (gates_true h N _ Hh Hi) as [t Ht] end.
    assert (length (gate_result <$> h) = (Z.to_nat N + length t)%nat) as Hlen
      by (by rewrite Ht, length_app, length_replicate).
    rewrite length_fmap in Hlen.
    destruct (history_entry_for h (N + 1)) as [nxt|] eqn:En.
    + right. inv_res. match goal with Hl : (_ =? _)%Z = true |- _ => apply Z.eqb_eq in Hl end.
      destruct t as [|b [|]]; simpl in Hlen; try lia. exists b. split; [done|].
      intros n Hn%elem_of_range1. apply assert_iteration_complete_Ok. auto.
    + left. inv_res. destruct (Z.ltb_spec N (Z.of_nat (length h))); [done|].
      destruct t; simpl in Hlen; [|lia]. by rewrite app_nil_r in Ht.
Qed.

Lemma while_timed_out_Ok N h :
  history_ok h → while_timed_out_state N h = Ok tt →
  gate_result <$> h = replicate (Z.to_nat N) true.
Proof.
  intros Hh Hrun. unfold while_timed_out_state in Hrun. inv_res.
  destruct (Z.ltb_spec N (Z.of_nat (length h))); [done|].
  destruct (Z.ltb_spec 0 N) as [HN|HN].
  - inv_res. destruct (gates_true h N _ Hh ltac:(eassumption)) as [t Ht].
    assert (length (gate_result <$> h) = (Z.to_nat N + length t)%nat) as Hlen
      by (by rewrite Ht, length_app, length_replicate).
    rewrite length_fmap in Hlen. destruct t; simpl in Hlen; [|lia]. by rewrite app_nil_r in Ht.
  - destruct h; simpl in *; [|lia]. by replace (Z.to_nat N) with 0%nat by lia.
Qed.

(** What an accepted WHILE parent guarantees.  A parent skipped by its [when]
    has no children and no history; only a PENDING one without children may lack
    control evidence; otherwise the evidence parses, and its gates are those
    [while_gates_spec] asks for with N the highest materialized iteration. *)
Definition while_control_ok (parent : execution_step) (p : plan) (steps : list execution_step)
    (cfg : loop_config) : Prop :=
  let N := max_materialized_iteration steps (es_id parent) in
  let complete := ∀ n, (1 ≤ n ≤ N)%Z → while_iteration_complete steps parent p (lc_body_step_ids cfg) n in
  if bool_decide (es_status parent = StepStatus.SKIPPED) && error_code_is parent "STEP_WHEN_FALSE" then
    es_resolved_input parent = JNull ∧ ∀ s, s ∈ steps → es_parent_step_id s ≠ Some (es_id parent)
  else if is_none (es_resolved_input parent) then
    es_status parent = StepStatus.PENDING ∧ ∀ s, s ∈ steps → es_parent_step_id s ≠ Some (es_id parent)
  else ∃ h, parse_while_predicate_history (es_resolved_input parent) = Ok h ∧
         while_gates_spec parent cfg (Z.to_nat N) complete (gate_result <$> h).

Lemma while_parent_control_state_ok parent p steps cfg :
  loop_config_ok cfg = true →
  assert_while_parent_control_state parent p steps (Some cfg) = Ok tt →
  while_control_ok parent p steps cfg.
Proof.
  intros (Hm & _)%loop_config_ok_spec Hrun. unfold while_control_ok.
  set (N := max_materialized_iteration steps (es_id parent)).
  set (complete := ∀ n, (1 ≤ n ≤ N)%Z → _).
  unfold assert_while_parent_control_state in Hrun. inv_res.
  unfold while_control_by_status in Hrun. rewrite max_materialized_children in Hrun. fold N in Hrun.
  assert (filter (λ s, es_parent_step_id s = Some (es_id parent)) steps = [] →
          ∀ s, s ∈ steps → es_parent_step_id s ≠ Some (es_id parent)) as Hno.
  { intros Hf s Hs Hp. assert (s ∈ filter (λ s, es_parent_step_id s = Some (es_id parent)) steps) as Hin
      by by apply list_elem_of_filter. rewrite Hf in Hin. by apply not_elem_of_nil in Hin. }
  case_match eqn:Hskip; [|case_match eqn:Hnone].
  - destruct (filter _ steps) eqn:Ef; inv_res; [|done].
    split; [|by apply Hno]. by destruct (es_resolved_input parent).
  - inv_res. destruct (filter _ steps) eqn:Ef; [|done]. split; [done|by apply Hno].
  - inv_res. eexists. split; [done|].
    match goal with Hp : parse_while_predicate_history _ = Ok _ |- _ =>
      pose proof (parse_while_history_ok _ _ Hp) as Hh end.
    unfold while_gates_spec. destruct (es_status parent); try done;
      repeat first [ progress cbn [andb] in Hrun
                   | rewrite bool_decide_eq_true_2 in Hrun by done
                   | rewrite bool_decide_eq_false_2 in Hrun by done ].
    + by eapply while_running_Ok.
    + by eapply while_succeeded_Ok.
    + intros Hcode. rewrite Hcode in Hrun.
      apply while_exceeded_Ok in Hrun as (Hg & Hc & HN); [|done|lia].
      split; [done|]. split; [done|]. rewrite HN. lia.
    + intros Hcode. rewrite Hcode in Hrun. by apply while_timed_out_Ok.
Qed.

(** ** Iteration keys *)
Lemma decimal_value_zero_pad w s : decimal_value 0 (zero_pad w s) = decimal_value 0 s.
Proof. unfold zero_pad. induction (w - String.length s)%nat as [|k IH]; [done|]. exact IH. Qed.

Lemma iteration_step_key_Ok parent n t k :
  iteration_step_key parent n t = Ok k ↔
  (1 ≤ n)%Z ∧ k = "loop:" +:+ uuid_hex parent +:+ ":"
      +:+ zero_pad 6 (decimal (Z.to_N n)) +:+ ":" +:+ sha256_hex t.
Proof.
  unfold iteration_step_key. rewrite bind_Ok. setoid_rewrite raise_if_Ok.
  setoid_rewrite Z.ltb_ge. naive_solver.
Qed.

(** A child key determines the parent row, the iteration number and the
    digest of the body template id, so two instances share a key only when the
    SHA-256 digests of their template ids collide. *)
Theorem iteration_step_key_inj p n t p' n' t' k :
  uuid_ok p → uuid_ok p' →
  iteration_step_key p n t = Ok k → iteration_step_key p' n' t' = Ok k →
  p = p' ∧ n = n' ∧ sha256_hex t = sha256_hex t'.
Proof.
  intros Hp Hp' [Hn ->]%iteration_step_key_Ok [Hn' Hk]%iteration_step_key_Ok.
  apply str_app_inv_head in Hk.
  apply str_app_inj in Hk as [Hu Hk]; [|by rewrite !uuid_hex_length].
  apply str_app_inv_head in Hk.
  assert (String.length (sha256_hex t) = String.length (sha256_hex t')) as Hl
    by (unfold sha256_hex; by rewrite !hex_fixed_length).
  assert (String.length (zero_pad 6 (decimal (Z.to_N n)))
          = String.length (zero_pad 6 (decimal (Z.to_N n')))) as Hz.
  { apply (f_equal String.length) in Hk. rewrite !str_length_app in Hk. lia. }
  apply str_app_inj in Hk as [Hz' Hk]; [|done]. apply str_app_inv_head in Hk.
  apply (f_equal (decimal_value 0)) in Hz'.
  rewrite !decimal_value_zero_pad, !decimal_value_decimal in Hz'.
  split; [by apply uuid_hex_inj|]. split; [lia|done].
Qed.

(** The child key of every iteration below 2^20, so of every iteration the
    system's hard limit of 500 admits, fits the 128-character column. *)
Theorem iteration_step_key_fits p n t k :
  (n < 2 ^ 20)%Z → iteration_step_key p n t = Ok k → (String.length k ≤ 128)%nat.
Proof.
  intros Hn [H1 ->]%iteration_step_key_Ok.
  pose proof (decimal_length (Z.to_N n) 20 ltac:(simpl in *; lia)) as Hd.
  rewrite !str_length_app, uuid_hex_length. unfold zero_pad, sha256_hex.
  rewrite str_length_app, hex_fixed_length.
  assert (∀ j, String.length (zeros j) = j) as -> by (induction j; simpl; auto).
  simpl String.length. lia.
Qed.

(** ** Ownership *)
(** Step [l] of [steps] is a LOOP whose config lists exactly [bs]. *)
Definition loop_owns (steps : list plan_step) (l : string) (bs : list string) : Prop :=
  ∃ step cfg, step ∈ steps ∧ ps_type step = StepType.LOOP ∧ ps_id step = l ∧
    validate_loop_config (ps_config step) = Some cfg ∧ lc_body_step_ids cfg = bs.

Definition ownership_of (ids : list string) (steps : list plan_step) (own : loop_body_ownership) : Prop :=
  (∀ l bs, dict_get l (loop_to_body own) = Some bs ↔ loop_owns steps l bs) ∧
  (∀ b l, dict_get b (body_to_loop own) = Some l ↔ ∃ bs, loop_owns steps l bs ∧ b ∈ bs) ∧
  (∀ b l, dict_get b (body_to_loop own) = Some l → b ∈ ids ∧ b ≠ l).

Lemma loop_owns_snoc steps s l bs :
  loop_owns (steps ++ [s]) l bs ↔ loop_owns steps l bs ∨ loop_owns [s] l bs.
Proof.
  unfold loop_owns. setoid_rewrite elem_of_app. naive_solver.
Qed.

Lemma claim_bodies_Ok ids l bs owners owners' :
  res_fold (claim_body ids l) bs owners = Ok owners' →
  (∀ b x, dict_get b owners' = Some x ↔
     if decide (b ∈ bs) then x = l else dict_get b owners = Some x) ∧
  ∀ b, b ∈ bs → b ∈ ids ∧ b ≠ l ∧ (dict_get b owners = None ∨ dict_get b owners = Some l).
Proof.
  revert owners. induction bs as [|b0 bs IH]; intros owners; simpl.
  - intros [= <-]. split; [done|]. by intros b ?%elem_of_nil.
  - intros (x0 & Hx & Hrun)%bind_Ok. unfold claim_body in Hx. inv_res.
    match goal with Hf : String.eqb _ _ = false |- _ => apply String.eqb_neq in Hf end.
    match goal with Hf : (match _ with Some _ => _ | None => _ end) = false |- _ => rename Hf into Hown end.
    assert (dict_get b0 owners = None ∨ dict_get b0 owners = Some l) as Hb0.
    { destruct (dict_get b0 owners); [right|by left].
      apply negb_false_iff, String.eqb_eq in Hown. by subst. }
    apply IH in Hrun as [Hget Hin]. split.
    + intros b x. rewrite Hget. destruct (decide (b = b0)) as [->|Hne].
      * rewrite dict_get_set_eq. rewrite (decide_True (P := b0 ∈ b0 :: bs)) by apply list_elem_of_here.
        case_decide; naive_solver.
      * rewrite dict_get_set_ne by done. rewrite (decide_ext (b ∈ b0 :: bs) (b ∈ bs)); [done|].
        rewrite elem_of_cons. naive_solver.
    + intros b [->|Hb]%elem_of_cons; [done|]. destruct (Hin b Hb) as (Hi & Hl & Ho).
      split; [done|]. split; [done|]. destruct (decide (b = b0)) as [->|Hne]; [done|].
      by rewrite dict_get_set_ne in Ho.
Qed.

Lemma claim_loop_Ok ids steps own step own' :
  ps_id step ∉ ps_id <$> steps → ownership_of ids steps own →
  claim_loop ids own step = Ok own' → ownership_of ids (steps ++ [step]) own'.
Proof.
  intros Hfresh (Hl & Hb & Hi) Hrun. unfold claim_loop in Hrun.
  assert (∀ l bs, loop_owns steps l bs → l ≠ ps_id step) as Hne.
  { intros l bs (s & cfg & Hs & _ & <- & _) E. apply Hfresh.
    rewrite <- E. by apply list_elem_of_fmap_2. }
  destruct (decide (ps_type step = StepType.LOOP)) as [Ht|Ht].
  2: { assert (own' = own) as -> by (by destruct (ps_type step); simplify_eq).
       assert (∀ l bs, ¬ loop_owns [step] l bs) as Hno
         by (intros l bs (s & cfg & ->%list_elem_of_singleton & ? & _); done).
       split; [|split; [|done]]; setoid_rewrite loop_owns_snoc; naive_solver. }
  rewrite Ht in Hrun. inv_res. rename x into cfg.
  match goal with Hf : res_fold _ _ _ = Ok _ |- _ => apply claim_bodies_Ok in Hf as [Hget Hin] end.
  match goal with Hv : validate_loop_config _ = _ |- _ => rename Hv into Hcfg end.
  assert (∀ l bs, loop_owns [step] l bs ↔ l = ps_id step ∧ bs = lc_body_step_ids cfg) as Hnew.
  { intros l bs. split.
    - intros (s & c & ->%list_elem_of_singleton & _ & <- & Hc & <-). by simplify_eq.
    - intros [-> ->]. exists step, cfg. by rewrite list_elem_of_singleton. }
  split; [|split]; simpl.
  - intros l bs. rewrite loop_owns_snoc, Hnew, <- Hl. destruct (decide (l = ps_id step)) as [->|Hll].
    + rewrite dict_get_set_eq, Hl. split; [naive_solver|]. intros [?%Hne|[_ ->]]; done.
    + rewrite dict_get_set_ne by done. naive_solver.
  - intros b l. rewrite Hget. setoid_rewrite loop_owns_snoc. setoid_rewrite Hnew. case_decide as Hd.
    + destruct (Hin b Hd) as (_ & _ & Hfree). split; [naive_solver|].
      intros (bs & [Ho|[-> ->]] & Hbs); [|done].
      assert (dict_get b (body_to_loop own) = Some l) as E by (apply Hb; eauto).
      destruct Hfree; simplify_eq; naive_solver.
    + rewrite Hb. naive_solver.
  - intros b l. rewrite Hget. case_decide as Hd; [intros ->|by apply Hi].
    by destruct (Hin b Hd) as (? & ? & _).
Qed.

Lemma ownership_of_build p own :
  NoDup (ps_id <$> pl_steps p) → build_loop_body_ownership p = Ok own →
  ownership_of (ps_id <$> pl_steps p) (pl_steps p) own.
Proof.
  intros Hnd Hrun. unfold build_loop_body_ownership in Hrun.
  assert (∀ ids rest pre o, NoDup (ps_id <$> (pre ++ rest)) → ownership_of ids pre o →
    res_fold (claim_loop ids) rest o = Ok own → ownership_of ids (pre ++ rest) own) as Hfold.
  { intros ids. induction rest as [|s rest IH]; intros pre o Hn Ho; simpl.
    - intros [= <-]. by rewrite app_nil_r.
    - intros (o' & Ho' & Hr)%bind_Ok. rewrite cons_middle, app_assoc in *.
      apply (IH _ o'); [done| |done]. apply (claim_loop_Ok ids pre o s); [|done..].
      rewrite !fmap_app, !NoDup_app in Hn. destruct Hn as ((_ & Hd & _) & _ & _).
      intros Hin. apply (Hd _ Hin). simpl. apply list_elem_of_here. }
  assert (ownership_of (ps_id <$> pl_steps p) [] (LoopBodyOwnership [] [])) as H0.
  { split; [|split]; intros x y; simpl; [|split; [done|]|done].
    - split; [done|]. by intros (s & c & Hs%elem_of_nil & _).
    - by intros (bs & (s & c & Hs%elem_of_nil & _) & _). }
  exact (Hfold _ (pl_steps p) [] _ Hnd H0 Hrun).
Qed.

(** On a plan with unique step ids, [build_loop_body_ownership] succeeds
    only with the exact ownership relation of the LOOP configs: a template is
    owned by LOOP [l] iff [l]'s validated config lists it, each template has at
    most one owner, every owned id is a plan step, and no LOOP owns itself. *)
Theorem build_loop_body_ownership_sound p own :
  NoDup (ps_id <$> pl_steps p) → build_loop_body_ownership p = Ok own →
  (∀ l bs, dict_get l (loop_to_body own) = Some bs ↔ loop_owns (pl_steps p) l bs) ∧
  (∀ b l, dict_get b (body_to_loop own) = Some l ↔
     ∃ bs, dict_get l (loop_to_body own) = Some bs ∧ b ∈ bs) ∧
  (∀ b l, dict_get b (body_to_loop own) = Some l → b ∈ ps_id <$> pl_steps p ∧ b ≠ l) ∧
  (∀ l l' bs bs' b, dict_get l (loop_to_body own) = Some bs → dict_get l' (loop_to_body own) = Some bs' →
     b ∈ bs → b ∈ bs' → l = l').
Proof.
  intros Hnd Hrun. destruct (ownership_of_build p own Hnd Hrun) as (Hl & Hb & Hi).
  split; [done|]. split; [|split; [done|]].
  - intros b l. rewrite Hb. by setoid_rewrite <- Hl.
  - intros l l' bs bs' b H1 H2 Hb1 Hb2.
    assert (dict_get b (body_to_loop own) = Some l) by (apply Hb; exists bs; by rewrite <- Hl).
    assert (dict_get b (body_to_loop own) = Some l') by (apply Hb; exists bs'; by rewrite <- Hl).
    congruence.
Qed.

(** An accepted plan has no nested LOOP and no APPROVAL in a body: every
    template that a LOOP lists is a TOOL, CONDITION or JOIN step of the plan,
    and no LOOP is itself owned. *)
Theorem assert_flat_foreach_runtime_compatible_sound p own :
  assert_flat_foreach_runtime_compatible p = Ok own →
  build_loop_body_ownership p = Ok own ∧
  ∀ l bs, dict_get l (loop_to_body own) = Some bs →
    dict_get l (body_to_loop own) = None ∧
    ∀ b, b ∈ bs → ∃ body, body ∈ pl_steps p ∧ ps_id body = b ∧
      ps_type body ∈ [StepType.TOOL; StepType.CONDITION; StepType.JOIN].
Proof.
  intros Hrun. unfold assert_flat_foreach_runtime_compatible in Hrun. inv_res.
  split; [done|]. intros l bs Hl%dict_get_Some_elem.
  match goal with Hf : ∀ _, _ ∈ loop_to_body _ → _ |- _ => specialize (Hf _ Hl); rename Hf into Hloop end.
  unfold assert_flat_loop, dict_item in Hloop. inv_res. split.
  - match goal with Hf : dict_has _ _ = false |- _ => unfold dict_has in Hf end. inv_res.
    by apply eq_None_not_Some.
  - intros b Hb. specialize (Hloop b Hb). unfold assert_flat_body, dict_item in Hloop. inv_res.
    match goal with Hf : dict_get b _ = Some ?s |- _ =>
      apply elem_of_dict_values_comp in Hf as [Hs Hid]; exists s end. done.
Qed.

(** [build_previous_iteration_projection] only projects a finished
    iteration: when it returns, the iteration holds one instance per body
    template and nothing else, and the value is the iteration number with, in
    body order, each template's durable status, condition result, error code
    and inline result, taken from a terminal child with the canonical key. *)
Theorem build_previous_iteration_projection_sound steps parent n bodies p j :
  build_previous_iteration_projection steps parent n bodies (Some p) = Ok j →
  ∃ m, j = JObj [("iteration_no", JInt n); ("steps", JObj (dict_of_pairs m))] ∧ (1 ≤ n)%Z ∧
    length (child_instances_for_iteration steps parent n) = length bodies ∧
    Forall2 (λ tid e, ∃ child template,
      e = (tid, previous_iteration_step_projection child) ∧
      child ∈ child_instances_for_iteration steps parent n ∧
      template ∈ pl_steps p ∧ ps_id template = tid ∧ es_status child ∈ iteration_terminal ∧
      iteration_step_key parent n tid = Ok (es_step_key child) ∧
      py_eq (es_step_snapshot child) (dump_step template) = true) bodies m.
Proof.
  intros Hrun. unfold build_previous_iteration_projection in Hrun. inv_res.
  match goal with Hm : res_map _ _ = Ok ?m |- _ => rename Hm into Hmap; exists m end.
  match goal with Hm : (n <? 1)%Z = false |- _ => apply Z.ltb_ge in Hm end.
  match goal with Hm : (_ =? _)%nat = true |- _ => apply Nat.eqb_eq in Hm end.
  do 3 (split; [done|]).
  match goal with Hf : res_fold add_template _ _ = Ok ?d |- _ =>
    assert (∀ k c, dict_get k d = Some c → c ∈ child_instances_for_iteration steps parent n) as Hin;
    [revert Hf; apply (res_fold_inv (λ d, ∀ k c, dict_get k d = Some c → c ∈ _))|] end.
  - intros d c d' Hc Hd Hadd k c' Hk. unfold add_template in Hadd. inv_res.
    match goal with Hk : dict_get k (dict_set ?t _ _) = _ |- _ => destruct (decide (k = t)) as [->|] end.
    + rewrite dict_get_set_eq in Hk. by simplify_eq.
    + rewrite dict_get_set_ne in Hk by done. eauto.
  - done.
  - apply res_map_Ok in Hmap. eapply Forall2_impl; [exact Hmap|]. clear Hmap.
    intros tid e He. unfold previous_iteration_entry, dict_item in He. inv_res.
    simpl in *. inv_res. unfold assert_while_child_immutable_lineage in *. inv_res.
    match goal with Hd : dict_get tid (plan_steps_by_id p) = Some ?t |- _ =>
      apply elem_of_dict_values_comp in Hd as [Ht Hid] end.
    match goal with Hk : String.eqb _ _ = true |- _ => apply String.eqb_eq in Hk end.
    eexists _, _. split; [done|]. split; [by eapply Hin|]. repeat (split; [done|]).
    split; [|done]. subst tid. congruence.
Qed.
End while_control.
