(* ===== verification/Completion.v ===== *)
(** * Error policy and completion ([execution/completion.py])

    The cleanup of the steps a stopped chain never started, the neutrality
    rules for skipped steps, the ALL_REQUIRED aggregation that decides how an
    execution ends, and the result summary.  A Python dict of row objects that
    a function updates in place is a [dict] that the model passes through. *)
From S2P Require Import Prelude PyStr PyDict Json PyUuid Domain LoopRuntime.

(** [_FAILURE_LIKE], [_KNOWN_FAILURE_STATUSES] and the code sets *)
Definition failure_like : list step_status :=
  [StepStatus.FAILED; StepStatus.TIMED_OUT; StepStatus.UNKNOWN_OUTCOME; StepStatus.CANCELLED].
Definition known_failure_statuses : list step_status := [StepStatus.FAILED; StepStatus.TIMED_OUT].
Definition continuable_on_error : list plan_on_error :=
  [PlanOnError.MARK_PARTIAL; PlanOnError.CONTINUE].
Definition intentional_skip_codes : list string := ["STEP_WHEN_FALSE"; "UPSTREAM_CONDITION_SKIPPED"].
Definition loop_stopped_child_codes : list string := ["UPSTREAM_LOOP_STOPPED"].
Definition skip_reason_code : string := "UPSTREAM_EXECUTION_STOPPED".
Definition skip_reason_message : string :=
  "Upstream Execution stopped; downstream Step was not started.".

(** [step.error_code in codes]; [None] is in no set of strings *)
Definition error_code_in (s : execution_step) (codes : list string) : bool :=
  match es_error_code s with Some c => bool_decide (c ∈ codes) | None => false end.

Definition is_continuable_known_failure (on_error : plan_on_error) (status : step_status) : bool :=
  bool_decide (on_error ∈ continuable_on_error) && bool_decide (status ∈ known_failure_statuses).

Definition fail_fast_execution_status (status : step_status) : execution_status :=
  if bool_decide (status = StepStatus.TIMED_OUT) then ExecutionStatus.TIMED_OUT
  else ExecutionStatus.FAILED.

(** [next((s for s in steps if s.id == id), None)] *)
Definition step_with_id (steps : list execution_step) (id : uuid) : option execution_step :=
  find_first (λ s, bool_decide (es_id s = id)) steps.

(** ** [skip_remaining_pending] *)
(** The loop state: the rows, the skipped keys, [seen_after] *)
Record skip_state := SkipState {
  sk_rows : dict execution_step;
  sk_skipped : list string;
  sk_seen_after : bool }.

Definition skip_remaining_step (after_step_key : string) (now : Z) (st : skip_state) (key : string)
    : res skip_state :=
  if String.eqb key after_step_key then Ok (SkipState (sk_rows st) (sk_skipped st) true)
  else if negb (sk_seen_after st) then Ok st
  else
    step ← dict_item key (sk_rows st);
    if negb (bool_decide (es_status step = StepStatus.PENDING)) then Ok st
    else Ok (SkipState
      (dict_set key (finish_step StepStatus.SKIPPED skip_reason_code skip_reason_message now step)
         (sk_rows st))
      (sk_skipped st ++ [key]) (sk_seen_after st)).

Definition skip_remaining_pending (ordered_step_keys : list string) (after_step_key : string)
    (by_key : dict execution_step) (now : Z) : res (dict execution_step * list string) :=
  st ← res_fold (skip_remaining_step after_step_key now) ordered_step_keys
         (SkipState by_key [] false);
  Ok (sk_rows st, sk_skipped st).

(** ** Neutral skips *)
Definition is_intentional_conditional_skip_for_completion (s : execution_step) : bool :=
  bool_decide (es_status s = StepStatus.SKIPPED) && error_code_in s intentional_skip_codes.

Section completion.
Context `{PS : PlanSchema}.

Definition is_loop_stopped_child_neutral_for_completion (step : execution_step)
    (steps : list execution_step) : bool :=
  match es_parent_step_id step with
  | None => false
  | Some parent_step_id =>
      if negb (error_code_in step loop_stopped_child_codes) then false
      else if negb (bool_decide (es_status step ∈ [StepStatus.SKIPPED; StepStatus.CANCELLED])) then false
      else match step_with_id steps parent_step_id with
           | None => false
           | Some parent =>
               if negb (bool_decide (es_step_type parent = StepType.LOOP)) then false
               else if negb (bool_decide (es_status parent ∈ [StepStatus.FAILED; StepStatus.TIMED_OUT]))
               then false
               else match validate_step (es_step_snapshot parent) with
                    | None => false
                    | Some parent_ps => bool_decide (ps_on_error parent_ps ∈ continuable_on_error)
                    end
           end
  end.

(** ** ALL_REQUIRED aggregation *)
Record completion_decision := CompletionDecision {
  cd_status : execution_status;
  cd_error_code : option string;
  cd_error_message : option string }.

(** The three [nonlocal] flags *)
Record completion_flags := CompletionFlags {
  mark_partial_failure : bool;
  continue_required_failure : bool;
  required_all_succeeded : bool }.

Definition required_unsatisfied (f : completion_flags) : completion_flags :=
  CompletionFlags (mark_partial_failure f) (continue_required_failure f) false.

(** [_apply] *)
Definition apply_step (steps : list execution_step) (ps : plan_step) (step : execution_step)
    (f : completion_flags) : completion_flags :=
  if is_loop_stopped_child_neutral_for_completion step steps then f
  else
    let failed := bool_decide (es_status step ∈ failure_like) in
    let required_ok :=
      if ps_required ps then
        if bool_decide (es_status step = StepStatus.SUCCEEDED) then required_all_succeeded f
        else if is_intentional_conditional_skip_for_completion step then required_all_succeeded f
        else false
      else required_all_succeeded f in
    if negb failed then
      CompletionFlags (mark_partial_failure f) (continue_required_failure f) required_ok
    else
      CompletionFlags
        (if bool_decide (ps_on_error ps = PlanOnError.MARK_PARTIAL) then true
         else mark_partial_failure f)
        (if ps_required ps && bool_decide (ps_on_error ps = PlanOnError.CONTINUE) then true
         else continue_required_failure f)
        required_ok.

(** The body of [for ps in top_level_plan_steps(plan)] *)
Definition apply_top_level (steps : list execution_step) (top_level_by_key : dict execution_step)
    (f : completion_flags) (ps : plan_step) : completion_flags :=
  match dict_get (ps_id ps) top_level_by_key with
  | None => required_unsatisfied f
  | Some step => apply_step steps ps step f
  end.

(** The body of [for step in steps] *)
Definition apply_body_instance (steps : list execution_step) (f : completion_flags)
    (step : execution_step) : completion_flags :=
  match es_parent_step_id step with
  | None => f
  | Some _ =>
      match validate_step (es_step_snapshot step) with
      | None => required_unsatisfied f
      | Some ps => apply_step steps ps step f
      end
  end.

Definition top_level_rows (steps : list execution_step) : dict execution_step :=
  dict_comp es_step_key id (filter (λ s, es_parent_step_id s = None) steps).

Definition aggregate_all_required (p : plan) (steps : list execution_step) : res completion_decision :=
  let any_succeeded := existsb (λ s, bool_decide (es_status s = StepStatus.SUCCEEDED)) steps in
  top_level ← top_level_plan_steps p;
  let f := foldl (apply_top_level steps (top_level_rows steps))
             (CompletionFlags false false true) top_level in
  let f := foldl (apply_body_instance steps) f steps in
  if required_all_succeeded f && negb (mark_partial_failure f) then
    Ok (CompletionDecision ExecutionStatus.SUCCEEDED None None)
  else if any_succeeded && (mark_partial_failure f || continue_required_failure f) then
    Ok (CompletionDecision ExecutionStatus.PARTIALLY_SUCCEEDED None None)
  else
    Ok (CompletionDecision ExecutionStatus.FAILED (Some "ALL_REQUIRED_UNSATISFIED")
          (Some "ALL_REQUIRED completion policy was not satisfied.")).

(** ** [build_result_summary] *)
Definition select_response (by_key : dict execution_step) (selected : dict json) (sid : string) : dict json :=
  match dict_get sid by_key with
  | None => selected
  | Some step =>
      if negb (bool_decide (es_status step = StepStatus.SUCCEEDED)) then selected
      else if is_none (es_result_inline step) then selected
      else dict_set sid (JObj [("status", JStr (step_status_value (es_status step)))]) selected
  end.

Definition build_result_summary (status : execution_status) (steps : list execution_step)
    (p : option plan) : json :=
  let summary :=
    [("status", JStr (execution_status_value status));
     ("step_keys", JArr ((λ s, JStr (es_step_key s)) <$> steps));
     ("step_count", JInt (Z.of_nat (length steps)));
     ("step_statuses", JObj (dict_comp es_step_key (λ s, JStr (step_status_value (es_status s))) steps))] in
  match p with
  | Some p =>
      match pc_response_step_ids (pl_completion p) with
      | [] => JObj summary
      | ids =>
          match foldl (select_response (dict_comp es_step_key id steps)) [] ids with
          | [] => JObj summary
          | selected => JObj (dict_set "response_steps" (JObj selected) summary)
          end
      end
  | None => JObj summary
  end.

(** [plan_step_for] *)
Definition plan_step_for (step : execution_step) : res plan_step :=
  of_option validation_error (validate_step (es_step_snapshot step)).

(** ** What ALL_REQUIRED means *)
(** The evidence of one plan step: its row, or nothing usable *)
Definition top_level_evidence (steps : list execution_step) (top_level : list plan_step)
    : list (option (plan_step * execution_step)) :=
  (λ ps, pair ps <$> dict_get (ps_id ps) (top_level_rows steps)) <$> top_level.
Definition body_evidence (steps : list execution_step) : list (option (plan_step * execution_step)) :=
  (λ s, (λ ps, (ps, s)) <$> validate_step (es_step_snapshot s))
    <$> filter (λ s, es_parent_step_id s ≠ None) steps.
Definition evidence (steps : list execution_step) (top_level : list plan_step) :=
  top_level_evidence steps top_level ++ body_evidence steps.

(** A required step is satisfied by success or by an intended skip; a child a
    continuable LOOP stopped does not count. *)
Definition satisfied (steps : list execution_step) (e : option (plan_step * execution_step)) : Prop :=
  match e with
  | None => False
  | Some (ps, s) =>
      is_loop_stopped_child_neutral_for_completion s steps = true
      ∨ ps_required ps = false ∨ es_status s = StepStatus.SUCCEEDED
      ∨ is_intentional_conditional_skip_for_completion s = true
  end.

(** A failure that counts, under policy [on_error] *)
Definition counted_failure (steps : list execution_step) (on_error : plan_on_error)
    (e : option (plan_step * execution_step)) : Prop :=
  match e with
  | None => False
  | Some (ps, s) =>
      is_loop_stopped_child_neutral_for_completion s steps = false
      ∧ es_status s ∈ failure_like ∧ ps_on_error ps = on_error
  end.

Definition required_evidence (e : option (plan_step * execution_step)) : Prop :=
  match e with None => False | Some (ps, _) => ps_required ps = true end.

(** The flags say of the evidence folded so far what they are named for. *)
Definition flags_of (steps : list execution_step) (es : list (option (plan_step * execution_step)))
    (f : completion_flags) : Prop :=
  (required_all_succeeded f = true ↔ Forall (satisfied steps) es) ∧
  (mark_partial_failure f = true ↔ Exists (counted_failure steps PlanOnError.MARK_PARTIAL) es) ∧
  (continue_required_failure f = true ↔
     Exists (λ e, counted_failure steps PlanOnError.CONTINUE e ∧ required_evidence e) es).

Definition apply_evidence (steps : list execution_step) (f : completion_flags)
    (e : option (plan_step * execution_step)) : completion_flags :=
  match e with None => required_unsatisfied f | Some (ps, s) => apply_step steps ps s f end.

Lemma required_flag (req ok skip fr : bool) :
  (if req then if ok then fr else if skip then fr else false else fr) = true ↔
  fr = true ∧ (req = false ∨ ok = true ∨ skip = true).
Proof. destruct req, ok, skip, fr; intuition congruence. Qed.

Lemma or_flag (b f : bool) : (if b then true else f) = true ↔ f = true ∨ b = true.
Proof. destruct b, f; intuition congruence. Qed.

Lemma apply_evidence_flags steps es f e :
  flags_of steps es f → flags_of steps (es ++ [e]) (apply_evidence steps f e).
Proof.
  intros (Hr & Hm & Hc). unfold flags_of. rewrite Forall_app, !Exists_app, Forall_singleton.
  rewrite !Exists_cons, !Exists_nil, <- Hr, <- Hm, <- Hc. clear Hr Hm Hc.
  destruct e as [[ps s]|]; simpl; [|intuition congruence].
  unfold apply_step. destruct (is_loop_stopped_child_neutral_for_completion s steps); simpl;
    [intuition congruence|].
  destruct f as [fm fc fr]; simpl.
  destruct (bool_decide (es_status s ∈ failure_like)) eqn:Ef; simpl;
    rewrite ?bool_decide_eq_true, ?bool_decide_eq_false in Ef;
    rewrite ?required_flag, ?or_flag, ?andb_true_iff, !bool_decide_eq_true.
  - intuition congruence.
  - intuition congruence.
Qed.

Lemma foldl_evidence_flags steps es f es' :
  flags_of steps es' f → flags_of steps (es' ++ es) (foldl (apply_evidence steps) f es).
Proof.
  revert f es'. induction es as [|e es IH]; intros f es' Hf; simpl; [by rewrite app_nil_r|].
  rewrite cons_middle, app_assoc. by apply IH, apply_evidence_flags.
Qed.

(** The two loops of the code fold over the evidence. *)
Lemma fold_top_level steps top f :
  foldl (apply_top_level steps (top_level_rows steps)) f top
  = foldl (apply_evidence steps) f (top_level_evidence steps top).
Proof.
  revert f. induction top as [|ps top IH]; intros f; simpl; [done|]. rewrite IH. f_equal.
  unfold apply_top_level, apply_evidence. by destruct (dict_get _ _).
Qed.

Lemma fold_body_instances all steps f :
  foldl (apply_body_instance all) f steps = foldl (apply_evidence all) f (body_evidence steps).
Proof.
  revert f. induction steps as [|s steps IH]; intros f; simpl; [done|].
  unfold body_evidence. rewrite filter_cons.
  unfold apply_body_instance at 2. destruct (es_parent_step_id s) eqn:E.
  - rewrite decide_True by done. simpl. rewrite IH. f_equal.
    by destruct (validate_step (es_step_snapshot s)).
  - rewrite decide_False by naive_solver. apply IH.
Qed.

Lemma aggregate_flags steps top :
  flags_of steps (evidence steps top)
    (foldl (apply_body_instance steps)
       (foldl (apply_top_level steps (top_level_rows steps)) (CompletionFlags false false true) top)
       steps).
Proof.
  rewrite fold_top_level, fold_body_instances, <- foldl_app.
  apply (foldl_evidence_flags steps _ _ []).
  split; [split; [by constructor|done]|]. split; split; try done; by intros ?%Exists_nil.
Qed.

(** C32: ALL_REQUIRED, exactly.  Over the evidence of an execution (the row of
    every top-level plan step, every LOOP body instance), the aggregation
    returns SUCCEEDED iff every required step is satisfied and no counted
    failure has MARK_PARTIAL; otherwise PARTIALLY_SUCCEEDED iff some step
    succeeded and some counted failure is MARK_PARTIAL, or CONTINUE on a required step;
    otherwise FAILED with ALL_REQUIRED_UNSATISFIED.  A missing top-level row or
    an unreadable body snapshot satisfies nothing. *)
Theorem aggregate_all_required_spec p steps d :
  aggregate_all_required p steps = Ok d ↔
  ∃ top, top_level_plan_steps p = Ok top ∧
    let es := evidence steps top in
    let ok := Forall (satisfied steps) es ∧ ¬ Exists (counted_failure steps PlanOnError.MARK_PARTIAL) es in
    let partial := (∃ s, s ∈ steps ∧ es_status s = StepStatus.SUCCEEDED) ∧
      (Exists (counted_failure steps PlanOnError.MARK_PARTIAL) es ∨
       Exists (λ e, counted_failure steps PlanOnError.CONTINUE e ∧ required_evidence e) es) in
    ok ∧ d = CompletionDecision ExecutionStatus.SUCCEEDED None None
    ∨ ¬ ok ∧ partial ∧ d = CompletionDecision ExecutionStatus.PARTIALLY_SUCCEEDED None None
    ∨ ¬ ok ∧ ¬ partial ∧
      d = CompletionDecision ExecutionStatus.FAILED (Some "ALL_REQUIRED_UNSATISFIED")
            (Some "ALL_REQUIRED completion policy was not satisfied.").
Proof.
  unfold aggregate_all_required. cbv zeta. rewrite bind_Ok. apply exist_proper. intros top.
  apply and_iff_compat_l. destruct (aggregate_flags steps top) as (Hr & Hm & Hc).
  destruct (foldl (apply_body_instance steps) _ steps) as [fm fc fr]. simpl in *.
  rewrite <- Hr, <- Hm, <- Hc.
  assert ((∃ s, s ∈ steps ∧ es_status s = StepStatus.SUCCEEDED) ↔
          existsb (λ s, bool_decide (es_status s = StepStatus.SUCCEEDED)) steps = true) as ->
    by (rewrite existsb_elem; by setoid_rewrite bool_decide_eq_true).
  generalize (existsb (λ s, bool_decide (es_status s = StepStatus.SUCCEEDED)) steps). intros any.
  clear. destruct fr, fm, any, fc; simpl; split;
    (intros [= <-] || intros [[? ->]|[(? & ? & ->)|(? & ? & ->)]]); naive_solver.
Qed.

(** A SUCCEEDED execution left no required step out: every required
    top-level plan step has its row, and that row succeeded or was skipped on
    purpose by the control flow. *)
Theorem succeeded_execution_required_steps p steps d top ps :
  aggregate_all_required p steps = Ok d → cd_status d = ExecutionStatus.SUCCEEDED →
  top_level_plan_steps p = Ok top → ps ∈ top → ps_required ps = true →
  ∃ s, s ∈ steps ∧ es_step_key s = ps_id ps ∧ es_parent_step_id s = None ∧
    (es_status s = StepStatus.SUCCEEDED ∨ is_intentional_conditional_skip_for_completion s = true).
Proof.
  intros Hrun Hd Htop Hps Hreq. unfold aggregate_all_required in Hrun. rewrite Htop in Hrun.
  cbn [mbind res_bind] in Hrun. destruct (aggregate_flags steps top) as ([Hsat _] & _).
  destruct (foldl (apply_body_instance steps) _ steps) as [fm fc fr]. simpl in Hrun, Hsat.
  destruct fr; [|by repeat case_match; simplify_eq/=]. specialize (Hsat eq_refl). clear Hrun.
  assert (satisfied steps (pair ps <$> dict_get (ps_id ps) (top_level_rows steps))) as Hs.
  { rewrite Forall_forall in Hsat. apply Hsat. apply elem_of_app. left.
    apply list_elem_of_fmap. by exists ps. }
  destruct (dict_get (ps_id ps) (top_level_rows steps)) as [s|] eqn:Es; [|done].
  apply elem_of_dict_values_comp in Es as [[Hp Hin]%list_elem_of_filter Hk].
  exists s. split; [done|]. split; [done|]. split; [done|]. simpl in Hs. destruct Hs as [Hn|[?|[?|?]]]; [|congruence|by left|by right].
  unfold is_loop_stopped_child_neutral_for_completion in Hn. by rewrite Hp in Hn.
Qed.

(** ** Fail-fast cleanup *)
Lemma filter_ext_in {A} (P Q : A → Prop) `{!∀ x, Decision (P x), !∀ x, Decision (Q x)} (l : list A) :
  (∀ x, x ∈ l → P x ↔ Q x) → filter P l = filter Q l.
Proof.
  induction l as [|x l IH]; intros HPQ; [done|]. rewrite !filter_cons.
  rewrite (decide_ext (P x) (Q x)) by (apply HPQ, list_elem_of_here).
  rewrite IH by (intros y Hy; apply HPQ; by apply list_elem_of_further). done.
Qed.

Definition pending_in (rows : dict execution_step) (k : string) : Prop :=
  es_status <$> dict_get k rows = Some StepStatus.PENDING.
#[local] Instance pending_in_dec rows k : Decision (pending_in rows k).
Proof. unfold pending_in. apply _. Defined.

Definition skip_step (now : Z) : execution_step → execution_step :=
  finish_step StepStatus.SKIPPED skip_reason_code skip_reason_message now.

Lemma skip_remaining_step_seen after now rows sk k s :
  k ≠ after → dict_get k rows = Some s →
  skip_remaining_step after now (SkipState rows sk true) k
  = Ok (if bool_decide (es_status s = StepStatus.PENDING)
        then SkipState (dict_set k (skip_step now s) rows) (sk ++ [k]) true
        else SkipState rows sk true).
Proof.
  intros Hne Hs. unfold skip_remaining_step, dict_item. rewrite (proj2 (String.eqb_neq k after)) by done.
  simpl. rewrite Hs. simpl. by case_bool_decide.
Qed.

Lemma skip_remaining_after post after rows sk now :
  NoDup (after :: post) → (∀ k, k ∈ post → k ∈ dict_keys rows) →
  ∃ rows', res_fold (skip_remaining_step after now) post (SkipState rows sk true)
    = Ok (SkipState rows' (sk ++ filter (pending_in rows) post) true) ∧
  ∀ k, dict_get k rows' =
    if bool_decide (k ∈ post ∧ pending_in rows k)
    then skip_step now <$> dict_get k rows else dict_get k rows.
Proof.
  revert rows sk. induction post as [|k0 post IH]; intros rows sk [Hni Hnd]%NoDup_cons Hrows.
  - exists rows. simpl. by rewrite app_nil_r.
  - apply not_elem_of_cons in Hni as [Hne Hni]. apply NoDup_cons in Hnd as [Hk0 Hnd].
    pose proof (Hrows k0 (list_elem_of_here _ _)) as [s Hs]%dict_get_is_Some.
    cbn [res_fold]. rewrite (skip_remaining_step_seen after now rows sk k0 s) by done.
    cbn [mbind res_bind].
    assert (NoDup (after :: post)) as Hnd' by by apply NoDup_cons.
    rewrite filter_cons. destruct (decide (es_status s = StepStatus.PENDING)) as [Hp|Hp].
    + rewrite bool_decide_eq_true_2 by done.
      destruct (IH (dict_set k0 (skip_step now s) rows) (sk ++ [k0]) Hnd') as (rows' & Hrun & Hget).
      { intros k Hk. rewrite dict_keys_set_elem. right. by apply Hrows, list_elem_of_further. }
      exists rows'. rewrite Hrun. split.
      * rewrite decide_True by (unfold pending_in; rewrite Hs; simpl; congruence).
        rewrite <- app_assoc. do 4 f_equal. apply filter_ext_in. intros k Hk. unfold pending_in.
        rewrite dict_get_set_ne; [done|]. by intros ->.
      * intros k. rewrite Hget. destruct (decide (k = k0)) as [->|Hk].
        -- rewrite bool_decide_eq_false_2 by naive_solver. rewrite dict_get_set_eq, Hs.
           rewrite bool_decide_eq_true_2; [done|]. split; [apply list_elem_of_here|].
           unfold pending_in. rewrite Hs. simpl. congruence.
        -- pose proof (dict_get_set_ne k k0 (skip_step now s) rows Hk) as E.
           case_bool_decide as Hb1; case_bool_decide as Hb2; rewrite ?E; try done; exfalso;
             unfold pending_in in *; rewrite E in *; rewrite elem_of_cons in *; naive_solver.
    + rewrite bool_decide_eq_false_2 by done.
      destruct (IH rows sk Hnd') as (rows' & Hrun & Hget).
      { intros k Hk. by apply Hrows, list_elem_of_further. }
      assert (¬ pending_in rows k0) as Hnp
        by (unfold pending_in; rewrite Hs; simpl; congruence).
      exists rows'. rewrite decide_False by done. split; [done|].
      intros k. rewrite Hget. case_bool_decide as Hb1; case_bool_decide as Hb2; try done;
        exfalso; rewrite elem_of_cons in Hb2; naive_solver.
Qed.

(** The cleanup after a fail-fast stop only cancels what never started.
    For distinct keys that all have rows, each row whose key comes after the
    stopping step and that is PENDING becomes SKIPPED with
    UPSTREAM_EXECUTION_STOPPED and one more [lock_version]; every other row is
    left exactly as it was; the returned keys are the skipped ones, in order. *)
Theorem skip_remaining_pending_spec pre post after rows now :
  NoDup (pre ++ after :: post) → (∀ k, k ∈ post → k ∈ dict_keys rows) →
  ∃ rows', skip_remaining_pending (pre ++ after :: post) after rows now
    = Ok (rows', filter (pending_in rows) post) ∧
  ∀ k, dict_get k rows' =
    if bool_decide (k ∈ post ∧ pending_in rows k)
    then skip_step now <$> dict_get k rows
    else dict_get k rows.
Proof.
  intros Hnd Hrows. unfold skip_remaining_pending. rewrite res_fold_app.
  apply NoDup_app in Hnd as (_ & Hdis & Hnd).
  assert (∀ ks, after ∉ ks → res_fold (skip_remaining_step after now) ks (SkipState rows [] false)
            = Ok (SkipState rows [] false)) as Hpre.
  { induction ks as [|k ks IH]; [done|]. intros [Hne Hni]%not_elem_of_cons. cbn [res_fold].
    assert (skip_remaining_step after now (SkipState rows [] false) k = Ok (SkipState rows [] false)) as ->.
    { unfold skip_remaining_step. by rewrite (proj2 (String.eqb_neq k after)) by done. }
    by apply IH. }
  rewrite Hpre by (intros Hin; apply (Hdis _ Hin), list_elem_of_here). cbn [mbind res_bind res_fold].
  assert (skip_remaining_step after now (SkipState rows [] false) after = Ok (SkipState rows [] true)) as ->
    by (unfold skip_remaining_step; by rewrite String.eqb_refl).
  cbn [mbind res_bind].
  destruct (skip_remaining_after post after rows [] now Hnd Hrows) as (rows' & Hrun & Hget).
  exists rows'. rewrite Hrun. done.
Qed.
End completion.
