(* ===== verification/Kahn.v ===== *)
(** * Kahn's algorithm as [validate_tool_join_dag] runs it (dag.py 574-607)

    The scheduling keys, their dependencies and their dependents are Python
    dicts; the queue is re-sorted by the order key after every push.  The order
    key may raise, so it is a fallible function.  [topological] is the abstract
    specification: the run succeeds with an order that satisfies it exactly
    when such an order exists. *)
From S2P Require Import Prelude PyStr PyDict.

Section kahn.
Context {K : Type} (key_leb : K → K → bool) (order_key : string → res K).
Context (deps dependents : dict (list string)).

(** [l.sort(key=_order_key)] *)
Definition sort_keys_by_order (l : list string) : res (list string) :=
  ks ← res_map (λ k, o ← order_key k; Ok (o, k)) l;
  Ok (snd <$> sort_by (λ a b, key_leb a.1 b.1) ks).

(** The body of [for nxt in sorted(dependents\[cur\])] *)
Definition kahn_visit (st : dict Z * list string) (nxt : string) : res (dict Z * list string) :=
  let '(indeg, queue) := st in
  d ← dict_item nxt indeg;
  let d := (d - 1)%Z in
  let indeg := dict_set nxt d indeg in
  if (d =? 0)%Z then queue' ← sort_keys_by_order (queue ++ [nxt]); Ok (indeg, queue')
  else Ok (indeg, queue).

Definition out_of_fuel : py_error := PyException "OutOfFuel".

(** [while queue: ...]; the fuel bounds the number of iterations. *)
Fixpoint kahn_loop (fuel : nat) (indeg : dict Z) (queue seen : list string) : res (list string) :=
  match fuel with
  | O => Err out_of_fuel
  | S fuel =>
      match queue with
      | [] => Ok seen
      | cur :: queue =>
          ds ← dict_item cur dependents;
          nxts ← sort_keys_by_order ds;
          st ← res_fold kahn_visit nxts (indeg, queue);
          kahn_loop fuel st.1 st.2 (seen ++ [cur])
      end
  end.

Definition initial_indegree : dict Z := (λ kv, (kv.1, Z.of_nat (length kv.2))) <$> deps.

(** The keys in Kahn order: all of them, or only the reachable ones.  Each
    iteration moves one key to [seen], so one more than the number of keys is
    enough fuel. *)
Definition kahn_order : res (list string) :=
  let queue := (filter (λ kd, kd.2 = 0%Z) initial_indegree).*1 in
  queue ← sort_keys_by_order queue;
  kahn_loop (S (length deps)) initial_indegree queue [].

(** ** Specification *)
Definition deps_of (k : string) : list string := default [] (dict_get k deps).
Definition occ (x : string) (l : list string) : nat := length (filter (λ y, y = x) l).

(** Every key once, each after all its dependencies *)
Definition topological (order : list string) : Prop :=
  order ≡ₚ dict_keys deps ∧
  ∀ a k b, order = a ++ k :: b → ∀ d, d ∈ deps_of k → d ∈ a.

(** [dependents] is the converse of [deps], with multiplicities. *)
Definition dependents_ok : Prop :=
  (∀ d, d ∈ dict_keys deps → d ∈ dict_keys dependents) ∧
  (∀ d l, dict_get d dependents = Some l →
     (∀ k, k ∈ l → k ∈ dict_keys deps) ∧
     ∀ k, k ∈ dict_keys deps → occ k l = occ d (deps_of k)).

(** The dependencies of [k] not yet in [seen] *)
Definition waiting (seen : list string) (k : string) : nat :=
  length (filter (λ d, d ∉ seen) (deps_of k)).

(** ** Lemmas *)
Lemma occ_cons x y l : occ x (y :: l) = ((if decide (y = x) then 1 else 0) + occ x l)%nat.
Proof. unfold occ. rewrite filter_cons. by case_decide. Qed.

Lemma occ_perm x l l' : l ≡ₚ l' → occ x l = occ x l'.
Proof. intros Hp. unfold occ. by rewrite Hp. Qed.

Lemma waiting_snoc seen cur k :
  cur ∉ seen → waiting seen k = (waiting (seen ++ [cur]) k + occ cur (deps_of k))%nat.
Proof.
  intros Hc. unfold waiting, occ. induction (deps_of k) as [|d l IH]; [done|].
  rewrite !filter_cons. destruct (decide (d = cur)) as [->|Hd].
  - rewrite decide_True by done. rewrite (decide_False (P := cur ∉ seen ++ [cur])); [simpl; lia|].
    intros Hn. apply Hn, elem_of_app. right. apply list_elem_of_here.
  - destruct (decide (d ∉ seen)) as [Hs|Hs].
    + rewrite decide_True; [simpl; lia|].
      intros [?|?%list_elem_of_singleton]%elem_of_app; done.
    + rewrite decide_False; [done|]. intros Hn. apply Hs. intros ?. apply Hn, elem_of_app. by left.
Qed.

Lemma waiting_zero seen k : waiting seen k = 0%nat ↔ ∀ d, d ∈ deps_of k → d ∈ seen.
Proof.
  unfold waiting. rewrite length_zero_iff_nil. split.
  - intros Hf d Hd. destruct (decide (d ∈ seen)) as [|Hn]; [done|].
    assert (d ∈ filter (λ d, d ∉ seen) (deps_of k)) as Hin by by apply list_elem_of_filter.
    rewrite Hf in Hin. by apply elem_of_nil in Hin.
  - intros Hd. destruct (filter _ _) as [|d l] eqn:E; [done|].
    assert (d ∈ filter (λ d, d ∉ seen) (deps_of k)) as [Hn Hin]%list_elem_of_filter
      by (rewrite E; apply list_elem_of_here). by apply Hd in Hin.
Qed.

Lemma sort_keys_by_order_perm l l' : sort_keys_by_order l = Ok l' → l' ≡ₚ l.
Proof.
  unfold sort_keys_by_order. intros Hrun. inv_res. rewrite sort_by_perm.
  match goal with Hm : res_map _ _ = Ok _ |- _ => apply res_map_Ok in Hm as Hf end.
  clear -Hf. induction Hf as [|k kv l ks Hk _ IH]; [done|]. inv_res. simpl. by rewrite IH.
Qed.

Lemma sort_keys_by_order_total l :
  (∀ k, k ∈ l → is_ok (order_key k) = true) → ∃ l', sort_keys_by_order l = Ok l'.
Proof.
  intros Hok. unfold sort_keys_by_order.
  assert (∃ ks, res_map (λ k, o ← order_key k; Ok (o, k)) l = Ok ks) as [ks ->]; [|by eexists].
  induction l as [|k l IH]; [by eexists|]. simpl.
  pose proof (Hok k (list_elem_of_here _ _)) as Hk. destruct (order_key k); [|done]. simpl.
  destruct IH as [ks ->]; [|by eexists]. intros k' Hk'. apply Hok. by apply list_elem_of_further.
Qed.

(** ** The invariant *)
Definition keys_known (l : list string) : Prop := ∀ k, k ∈ l → k ∈ dict_keys deps.

(** [rest] are the visits of the current key still to be made. *)
Definition kahn_inv (indeg : dict Z) (queue seen rest : list string) : Prop :=
  NoDup (seen ++ queue) ∧ keys_known (seen ++ queue) ∧
  ∀ k, k ∈ dict_keys deps →
    dict_get k indeg = Some (Z.of_nat (waiting seen k + occ k rest)) ∧
    ((waiting seen k + occ k rest = 0)%nat ↔ k ∈ seen ++ queue).

Lemma occ_head k l : occ k (k :: l) = S (occ k l).
Proof. rewrite occ_cons, decide_True by done. done. Qed.

Lemma occ_other k x l : x ≠ k → occ k (x :: l) = occ k l.
Proof. intros. rewrite occ_cons, decide_False by done. done. Qed.

Lemma kahn_visit_inv seen rest nxt indeg queue st :
  nxt ∈ dict_keys deps → kahn_inv indeg queue seen (nxt :: rest) →
  kahn_visit (indeg, queue) nxt = Ok st → kahn_inv st.1 st.2 seen rest.
Proof.
  intros Hn (Hnd & Hkn & Hk) Hrun. unfold kahn_visit, dict_item in Hrun.
  destruct (Hk nxt Hn) as [Hget Hin]. rewrite Hget in Hrun. cbn [of_option mbind res_bind] in Hrun.
  rewrite occ_head in Hrun, Hin.
  assert (nxt ∉ seen ++ queue) as Hfresh by (intros H0%Hin; lia).
  set (w := (waiting seen nxt + occ nxt rest)%nat).
  replace (Z.of_nat (waiting seen nxt + S (occ nxt rest)) - 1)%Z with (Z.of_nat w) in Hrun by lia.
  assert (∀ k, k ∈ dict_keys deps →
    dict_get k (dict_set nxt (Z.of_nat w) indeg) = Some (Z.of_nat (waiting seen k + occ k rest))
    ∧ (k ≠ nxt → (waiting seen k + occ k rest = 0)%nat ↔ k ∈ seen ++ queue)) as Hstep.
  { intros k Hkk. destruct (decide (k = nxt)) as [->|Hne]; [by rewrite dict_get_set_eq|].
    destruct (Hk k Hkk) as [Hg Hi]. rewrite occ_other in Hg, Hi by done.
    by rewrite dict_get_set_ne. }
  destruct (Z.eqb_spec (Z.of_nat w) 0) as [Hz|Hz].
  - apply bind_Ok in Hrun as (queue' & Hq & [= <-]). apply sort_keys_by_order_perm in Hq. simpl.
    assert (seen ++ queue' ≡ₚ nxt :: (seen ++ queue)) as Hp by (rewrite Hq; solve_Permutation).
    unfold kahn_inv, keys_known. split; [rewrite Hp; by apply NoDup_cons|].
    split; [intros k; rewrite Hp; intros [->|?]%elem_of_cons; auto|].
    intros k Hkk. destruct (Hstep k Hkk) as [Hg Hi]. split; [done|]. rewrite Hp, elem_of_cons.
    destruct (decide (k = nxt)) as [->|Hne]; [|naive_solver].
    split; [by left|]. intros _. fold w. lia.
  - injection Hrun as <-. simpl. split; [done|]. split; [done|]. intros k Hkk.
    destruct (Hstep k Hkk) as [Hg Hi]. split; [done|].
    destruct (decide (k = nxt)) as [->|Hne]; [|by apply Hi].
    split; [intros ?; fold w in H; lia|done].
Qed.

Lemma kahn_visits_inv seen nxts indeg queue st :
  (∀ k, k ∈ nxts → k ∈ dict_keys deps) → kahn_inv indeg queue seen nxts →
  res_fold kahn_visit nxts (indeg, queue) = Ok st → kahn_inv st.1 st.2 seen [].
Proof.
  revert indeg queue. induction nxts as [|n nxts IH]; intros indeg queue Hn Hinv; simpl.
  - by intros [= <-].
  - intros ([indeg' queue'] & Hv & Hrun)%bind_Ok.
    apply (IH indeg' queue'); [| |done].
    + intros k Hk. by apply Hn, list_elem_of_further.
    + apply (kahn_visit_inv seen nxts n indeg queue (indeg', queue')); [|done..].
      apply Hn, list_elem_of_here.
Qed.

(** Taking [cur] off the queue starts the visits of its dependents. *)
Lemma kahn_pop_inv indeg queue seen cur nxts :
  (∀ k, k ∈ dict_keys deps → occ k nxts = occ cur (deps_of k)) →
  kahn_inv indeg (cur :: queue) seen [] → kahn_inv indeg queue (seen ++ [cur]) nxts.
Proof.
  intros Hocc (Hnd & Hkn & Hk). unfold kahn_inv. rewrite <- app_assoc. split; [done|]. split; [done|].
  intros k Hkk. destruct (Hk k Hkk) as [Hg Hi].
  assert (cur ∉ seen) as Hc.
  { apply NoDup_app in Hnd as (_ & Hd & _). intros Hin. apply (Hd _ Hin), list_elem_of_here. }
  rewrite (waiting_snoc seen cur k Hc) in Hg, Hi. rewrite Hocc by done. 
  unfold occ at 1 in Hg. unfold occ at 2 in Hi. simpl in Hg, Hi.
  rewrite Nat.add_0_r in Hg, Hi. done.
Qed.

(** The order so far respects the dependencies. *)
Definition respects (seen : list string) : Prop :=
  ∀ a k b, seen = a ++ k :: b → ∀ d, d ∈ deps_of k → d ∈ a.

Lemma respects_snoc seen cur :
  respects seen → (∀ d, d ∈ deps_of cur → d ∈ seen) → respects (seen ++ [cur]).
Proof.
  intros Hs Hc a k b Hab d Hd. destruct b as [|x b _] using rev_ind.
  - apply app_inj_tail in Hab as [-> ->]. auto.
  - rewrite app_comm_cons, app_assoc in Hab. apply app_inj_tail in Hab as [Hab _]. by eapply Hs.
Qed.

(** A finished run leaves every key whose dependencies it met behind it. *)
Lemma kahn_loop_sound fuel indeg queue seen order :
  dependents_ok → kahn_inv indeg queue seen [] → respects seen →
  kahn_loop fuel indeg queue seen = Ok order →
  respects order ∧ ∃ indeg', kahn_inv indeg' [] order [].
Proof.
  intros [Hdk Hd]. revert indeg queue seen. induction fuel as [|fuel IH]; [done|].
  intros indeg queue seen Hinv Hres Hrun. simpl in Hrun. destruct queue as [|cur queue].
  { injection Hrun as <-. split; [done|]. by exists indeg. }
  unfold dict_item in Hrun. apply bind_Ok in Hrun as (ds & Hds & Hrun). apply of_option_Ok in Hds.
  apply bind_Ok in Hrun as (nxts & Hn & Hrun). apply sort_keys_by_order_perm in Hn.
  apply bind_Ok in Hrun as (st & Hst & Hrun). destruct (Hd cur ds Hds) as [Hknown Hocc].
  assert (∀ d, d ∈ deps_of cur → d ∈ seen) as Hmet.
  { apply waiting_zero. destruct Hinv as (_ & Hkn & Hk).
    assert (cur ∈ seen ++ cur :: queue) as Hin by (apply elem_of_app; right; apply list_elem_of_here).
    destruct (Hk cur (Hkn _ Hin)) as [_ Hz]. apply Hz in Hin. lia. }
  eapply IH; [|by apply respects_snoc|exact Hrun].
  - eapply kahn_visits_inv; [|apply kahn_pop_inv|exact Hst]; [| |done].
    + intros k. rewrite Hn. apply Hknown.
    + intros k Hk. rewrite (occ_perm k nxts ds Hn). by apply Hocc.
Qed.

(** ** Totality and completeness *)
Context (Hkey : ∀ k, k ∈ dict_keys deps → is_ok (order_key k) = true).

Lemma sort_known_total l : keys_known l → ∃ l', sort_keys_by_order l = Ok l'.
Proof using Hkey. intros Hl. apply sort_keys_by_order_total. intros k Hk. by apply Hkey, Hl. Qed.

Lemma kahn_visits_total seen nxts indeg queue :
  (∀ k, k ∈ nxts → k ∈ dict_keys deps) → kahn_inv indeg queue seen nxts →
  ∃ st, res_fold kahn_visit nxts (indeg, queue) = Ok st.
Proof using Hkey.
  revert indeg queue. induction nxts as [|n nxts IH]; intros indeg queue Hn Hinv; [by eexists|].
  assert (n ∈ dict_keys deps) as Hnk by apply Hn, list_elem_of_here.
  assert (∃ st, kahn_visit (indeg, queue) n = Ok st) as [[indeg' queue'] Hv].
  { destruct Hinv as (_ & Hkn & Hk). destruct (Hk n Hnk) as [Hg _].
    unfold kahn_visit, dict_item. rewrite Hg. cbn [of_option mbind res_bind]. case_match; [|by eexists].
    destruct (sort_known_total (queue ++ [n])) as [q Hq]; [|rewrite Hq; by eexists].
    intros k [Hk'| ->%list_elem_of_singleton]%elem_of_app; [|done].
    apply Hkn, elem_of_app. by right. }
  cbn [res_fold]. rewrite Hv. cbn [mbind res_bind].
  apply IH; [intros k Hk; by apply Hn, list_elem_of_further|].
  by apply (kahn_visit_inv seen nxts n indeg queue (indeg', queue')).
Qed.

Lemma kahn_loop_total fuel indeg queue seen :
  dependents_ok → kahn_inv indeg queue seen [] → (length deps < fuel + length seen)%nat →
  ∃ order, kahn_loop fuel indeg queue seen = Ok order.
Proof using Hkey.
  intros Hdep. revert indeg queue seen. induction fuel as [|fuel IH]; intros indeg queue seen Hinv Hf.
  - exfalso. destruct Hinv as (Hnd & Hkn & _).
    assert (length (seen ++ queue) ≤ length (dict_keys deps))%nat as Hle.
    { apply submseteq_length, NoDup_submseteq; [done|]. exact Hkn. }
    rewrite length_app in Hle. unfold dict_keys in Hle. rewrite length_fmap in Hle. lia.
  - simpl. destruct queue as [|cur queue]; [by eexists|].
    destruct Hdep as [Hdk Hd].
    assert (cur ∈ dict_keys deps) as Hc.
    { destruct Hinv as (_ & Hkn & _). apply Hkn, elem_of_app. right. apply list_elem_of_here. }
    pose proof (Hdk cur Hc) as [ds Hds]%dict_get_is_Some. destruct (Hd cur ds Hds) as [Hknown Hocc].
    unfold dict_item. rewrite Hds. cbn [of_option mbind res_bind].
    destruct (sort_known_total ds Hknown) as [nxts Hn]. rewrite Hn. cbn [mbind res_bind].
    apply sort_keys_by_order_perm in Hn.
    assert (∀ k, k ∈ nxts → k ∈ dict_keys deps) as Hnk by (intros k; rewrite Hn; apply Hknown).
    assert (kahn_inv indeg queue (seen ++ [cur]) nxts) as Hpop.
    { apply kahn_pop_inv; [|done]. intros k Hk. rewrite (occ_perm k nxts ds Hn). by apply Hocc. }
    destruct (kahn_visits_total _ nxts indeg queue Hnk Hpop) as [st Hst]. rewrite Hst.
    cbn [mbind res_bind]. apply IH; [by eapply kahn_visits_inv|].
    rewrite length_app. simpl. lia.
Qed.

(** If a topological order exists, a run that stopped has seen every key. *)
Lemma kahn_complete indeg order o :
  kahn_inv indeg [] order [] → topological o → ∀ k, k ∈ dict_keys deps → k ∈ order.
Proof.
  intros (_ & _ & Hk) [Hp Ho].
  assert (∀ a b, o = a ++ b → ∀ k, k ∈ a → k ∈ order) as Hpre.
  { induction a as [|x a IH] using rev_ind; [by intros b _ k ?%elem_of_nil|].
    intros b Hb k [Hka| ->%list_elem_of_singleton]%elem_of_app; rewrite <- app_assoc in Hb.
    - by eapply (IH (x :: b)).
    - assert (x ∈ dict_keys deps) as Hx.
      { rewrite <- Hp, Hb. apply elem_of_app. right. apply list_elem_of_here. }
      destruct (Hk x Hx) as [_ Hz]. rewrite app_nil_r in Hz. apply Hz.
      unfold occ. simpl. rewrite Nat.add_0_r. apply waiting_zero. intros d Hd.
      eapply (IH (x :: b)); [done|]. by eapply Ho. }
  intros k Hkk. apply (Hpre o []); [by rewrite app_nil_r|]. by rewrite Hp.
Qed.

Lemma initial_inv queue :
  dict_wf deps → queue ≡ₚ (filter (λ kd, kd.2 = 0%Z) initial_indegree).*1 →
  kahn_inv initial_indegree queue [] [].
Proof.
  intros Hwf Hq.
  assert (∀ k, k ∈ dict_keys deps →
    dict_get k initial_indegree = Some (Z.of_nat (length (deps_of k)))) as Hg.
  { intros k Hk. unfold deps_of, initial_indegree. clear -Hk. induction deps as [|[k' l] d IH].
    - by apply elem_of_nil in Hk.
    - simpl. case_decide; [done|]. apply IH. by apply elem_of_cons in Hk as [?|?]. }
  assert (dict_keys initial_indegree = dict_keys deps) as Hkeys
    by (unfold dict_keys, initial_indegree; rewrite <- list_fmap_compose; by apply list_fmap_ext).
  assert (∀ k, k ∈ queue ↔ k ∈ dict_keys deps ∧ length (deps_of k) = 0%nat) as Hqk.
  { intros k. rewrite Hq, list_elem_of_fmap. setoid_rewrite list_elem_of_filter. split.
    - intros ([k' d] & -> & Hz & Hin). simpl in *.
      assert (k' ∈ dict_keys deps) as Hk by (rewrite <- Hkeys; by apply (list_elem_of_fmap_2 fst _ (k', d))).
      split; [done|]. assert (dict_wf initial_indegree) as Hwf' by (unfold dict_wf; by rewrite Hkeys).
      apply dict_get_elem in Hin; [|done]. rewrite Hg in Hin by done. simplify_eq. lia.
    - intros [Hk Hz]. exists (k, 0%Z). split; [done|]. split; [done|].
      apply dict_get_Some_elem. rewrite Hg by done. by rewrite Hz. }
  split; [|split].
  - rewrite Hq. simpl. assert (NoDup initial_indegree.*1) as Hn
      by (change (NoDup (dict_keys initial_indegree)); by rewrite Hkeys).
    revert Hn. generalize initial_indegree as l. clear. intros l Hn.
    induction l as [|[k d] l IH]; [by apply NoDup_nil|].
    simpl in Hn. apply NoDup_cons in Hn as [Hk Hn]. rewrite filter_cons. case_decide; [|by apply IH].
    simpl. apply NoDup_cons. split; [|by apply IH]. intros ([k' d'] & -> & [_ Hin]%list_elem_of_filter)%list_elem_of_fmap.
    apply Hk. by apply (list_elem_of_fmap_2 fst _ (k', d')).
  - intros k [?%elem_of_nil|Hk]%elem_of_app; [done|]. by apply Hqk in Hk as [? _].
  - intros k Hk. rewrite Hg by done. unfold occ. simpl. rewrite Nat.add_0_r.
    assert (waiting [] k = length (deps_of k)) as ->.
    { unfold waiting. f_equal. induction (deps_of k) as [|d l IH]; [done|].
      rewrite filter_cons, decide_True by by apply not_elem_of_nil. by rewrite IH. }
    split; [done|]. rewrite Hqk. naive_solver.
Qed.

(** The run, for the callers of [kahn_order] *)
Lemma kahn_order_run :
  dict_wf deps → dependents_ok →
  ∃ order, kahn_order = Ok order ∧ NoDup order ∧ respects order ∧
    (∀ k, k ∈ order → k ∈ dict_keys deps) ∧
    (length order = length deps ↔ ∃ o, topological o) ∧
    (length order = length deps → topological order).
Proof using Hkey.
  intros Hwf Hdep. unfold kahn_order.
  destruct (sort_known_total ((filter (λ kd, kd.2 = 0%Z) initial_indegree).*1)) as [queue Hq].
  { intros k ([k' d] & -> & [_ Hin]%list_elem_of_filter)%list_elem_of_fmap. simpl.
    apply (list_elem_of_fmap_2 fst) in Hin. unfold initial_indegree in Hin.
    rewrite <- list_fmap_compose in Hin. exact Hin. }
  rewrite Hq. cbn [mbind res_bind]. apply sort_keys_by_order_perm in Hq.
  pose proof (initial_inv queue Hwf Hq) as Hinv.
  destruct (kahn_loop_total (S (length deps)) _ _ _ Hdep Hinv) as [order Hrun]; [simpl; lia|].
  assert (respects []) as Hr0 by (intros [] ? ? ?; done).
  destruct (kahn_loop_sound _ _ _ _ _ Hdep Hinv Hr0 Hrun) as (Hres & indeg' & Hfin).
  pose proof Hfin as (Hnd & Hkn & _). rewrite app_nil_r in Hnd, Hkn.
  assert (length (dict_keys deps) = length deps) as Hlen by (unfold dict_keys; by rewrite length_fmap).
  assert (length order = length deps → topological order) as Htop.
  { intros Hl. split; [|done]. apply submseteq_length_Permutation; [by apply NoDup_submseteq|lia]. }
  exists order. do 4 (split; [done|]). split; [|done]. split; [intros Hl; exists order; by apply Htop|].
  intros [o Ho]. rewrite <- Hlen. apply Permutation_length, NoDup_Permutation; [done|done|].
  intros k. split; [apply Hkn|]. by apply (kahn_complete indeg' order o).
Qed.

End kahn.

(** ** The specification is decidable *)

Fixpoint respects_from (deps : dict (list string)) (pre rest : list string) : bool :=
  match rest with
  | [] => true
  | k :: rest => forallb (λ d, bool_decide (d ∈ pre)) (deps_of deps k) && respects_from deps (pre ++ [k]) rest
  end.

Lemma respects_from_spec deps rest : ∀ pre,
  respects_from deps pre rest = true ↔
  ∀ a k b, rest = a ++ k :: b → ∀ d, d ∈ deps_of deps k → d ∈ pre ++ a.
Proof.
  induction rest as [|x rest IH]; intros pre; simpl; [split; [intros _ [] ? ? ?; done|done]|].
  rewrite andb_true_iff, forallb_forall, IH. setoid_rewrite <- list_elem_of_In. split.
  - intros [Hx Hr] [|y a] k b Heq d Hd; simplify_eq/=.
    + rewrite app_nil_r. by apply (bool_decide_eq_true _), Hx.
    + replace (pre ++ y :: a) with ((pre ++ [y]) ++ a) by (by rewrite <- app_assoc). by apply (Hr a k b).
  - intros H. split.
    + intros d Hd. apply bool_decide_eq_true. rewrite <- (app_nil_r pre). by apply (H [] x rest).
    + intros a k b -> d Hd. rewrite <- app_assoc. by apply (H (x :: a) k b).
Qed.

#[export] Instance topological_dec deps order : Decision (topological deps order).
Proof.
  refine (cast_if_and (decide (order ≡ₚ dict_keys deps)) (decide (respects_from deps [] order = true)));
    unfold topological; rewrite <- ?(respects_from_spec deps order []) in *; naive_solver.
Defined.
