(* ===== verification/DagValidate.v ===== *)
(** * Runtime DAG validation ([validate_tool_join_dag], execution/dag.py)

    The validator in the order of the code: row and plan key checks, the
    top-level steps, the LOOP body instances, the shape of the iterations, the
    WHILE control states, and Kahn's order of the scheduling graph.  Every
    check is the code's, with the code's error. *)
From S2P Require Import Prelude PyStr PyDict Json PyUuid Domain LoopRuntime Completion Kahn.

(** [ToolJoinDag] *)
Record tool_join_dag := ToolJoinDag {
  ordered_step_keys : list string;
  root_tool_keys : list string;
  dag_max_parallelism : Z;
  dependents : dict (list string);
  dependencies : dict (list string) }.

(** [_TOP_LEVEL_RUNTIME_TYPES], [_BODY_RUNTIME_TYPES], [_CHILD_TERMINAL] *)
Definition top_level_runtime_types : list step_type :=
  [StepType.TOOL; StepType.CONDITION; StepType.JOIN; StepType.APPROVAL; StepType.LOOP].
Definition body_runtime_types : list step_type := [StepType.TOOL; StepType.CONDITION; StepType.JOIN].
Definition child_terminal : list step_status :=
  [StepStatus.SUCCEEDED; StepStatus.FAILED; StepStatus.TIMED_OUT; StepStatus.SKIPPED;
   StepStatus.CANCELLED; StepStatus.UNKNOWN_OUTCOME].

(** [x is not None] *)

Section dag_validate.
Context `{PS : PlanSchema}.

(** ** One step *)
(** [_validate_typed_config] *)
Definition validate_typed_config (ps : plan_step) (step : execution_step) (depends_on : list string)
    (allow_loop : bool) : res unit :=
  match ps_type ps with
  | StepType.TOOL =>
      match es_mcp_tool_version_id step with
      | None => Err (conflict "TOOL Step {ps.id!r} missing mcp_tool_version_id.")
      | Some tv =>
          cfg ← of_option (conflict "Invalid TOOL config for {ps.id!r}.")
                          (validate_tool_config (ps_config ps));
          _ ← raise_if (negb (bool_decide (tc_tool_version_id cfg = tv)))
                (conflict "TOOL {ps.id!r} mcp_tool_version_id does not match config.tool_version_id.");
          raise_if (1 <? length depends_on)%nat
            (conflict "TOOL {ps.id!r} direct fan-in is unsupported; use an explicit JOIN.")
      end
  | StepType.CONDITION =>
      _ ← raise_if (is_some (es_mcp_tool_version_id step))
            (conflict "CONDITION Step {ps.id!r} must have null mcp_tool_version_id.");
      _ ← of_option (conflict "Invalid CONDITION config for {ps.id!r}.")
                    (validate_condition_config (ps_config ps));
      Ok tt
  | StepType.JOIN =>
      _ ← raise_if (is_some (es_mcp_tool_version_id step))
            (conflict "JOIN Step {ps.id!r} must have null mcp_tool_version_id.");
      _ ← of_option (conflict "Invalid JOIN config for {ps.id!r}.")
                    (validate_join_config (ps_config ps));
      raise_if (is_nil depends_on) (conflict "JOIN {ps.id!r} requires one or more dependencies.")
  | StepType.APPROVAL =>
      _ ← raise_if (is_some (es_mcp_tool_version_id step))
            (conflict "APPROVAL Step {ps.id!r} must have null mcp_tool_version_id.");
      _ ← of_option (conflict "Invalid APPROVAL config for {ps.id!r}.")
                    (validate_approval_config (ps_config ps));
      Ok tt
  | StepType.LOOP =>
      if allow_loop then
        _ ← raise_if (is_some (es_mcp_tool_version_id step))
              (conflict "LOOP Step {ps.id!r} must have null mcp_tool_version_id.");
        _ ← of_option (conflict "Invalid LOOP config for {ps.id!r}.")
                      (validate_loop_config (ps_config ps));
        Ok tt
      else Err (conflict "Unsupported Plan Step type {ps.type!r}.")
  end.

(** [_assert_exact_plan_projection] *)
Definition assert_exact_plan_projection (ps : plan_step) (step : execution_step) : res unit :=
  parsed ← of_option (conflict "step_snapshot invalid for {ps.id!r}.")
                     (validate_step (es_step_snapshot step));
  _ ← raise_if (negb (String.eqb (ps_id parsed) (ps_id ps))
                || negb (bool_decide (ps_type parsed = ps_type ps)))
        (conflict "Step identity/type mismatch for {ps.id!r}.");
  _ ← raise_if (negb (py_eq (dump_step parsed) (es_step_snapshot step)))
        (conflict "step_snapshot drift for {ps.id!r}.");
  _ ← raise_if (negb (py_eq (dump_step ps) (es_step_snapshot step)))
        (conflict "step_snapshot is not an exact projection of immutable Plan Step {ps.id!r}.");
  raise_if (negb (bool_decide (es_step_type step = ps_type ps)))
    (conflict "ExecutionStep.step_type {step.step_type!r} does not match immutable Plan Step type {ps.type.value!r} for {ps.id!r}.").

(** ** The scheduling graph under construction *)
Record dag_graph := DagGraph {
  g_deps : dict (list string);
  g_dependents : dict (list string) }.

(** [deps\[key\] = ds; dependents.setdefault(key, \[\]);
    for dep in ds: dependents.setdefault(dep, \[\]).append(key)] *)
Definition add_node (key : string) (ds : list string) (g : dag_graph) : dag_graph :=
  DagGraph (dict_set key ds (g_deps g))
           (foldl (λ d dep, dict_push dep key d) (dict_setdefault key [] (g_dependents g)) ds).

(** The body of [for ps in top_level_plan] *)
Definition validate_top_step (by_key : dict execution_step) (top_level_ids : list string)
    (has_loop_bodies : bool) (g : dag_graph) (ps : plan_step) : res dag_graph :=
  step ← dict_item (ps_id ps) by_key;
  _ ← raise_if (is_some (es_parent_step_id step))
        (conflict "Top-level Step {ps.id!r} has parent_step_id set.");
  _ ← assert_exact_plan_projection ps step;
  _ ← raise_if (negb (bool_decide (es_step_type step ∈ top_level_runtime_types)))
        (conflict "Unsupported runtime step_type {step.step_type!r}.");
  let depends_on := ps_depends_on ps in
  _ ← raise_if (negb (no_dup depends_on)) (conflict "Duplicate depends_on on Step {ps.id!r}.");
  _ ← res_iter (λ dep, raise_if (negb (bool_decide (dep ∈ top_level_ids)))
                         (conflict "Step {ps.id!r} depends on missing {dep!r}.")) depends_on;
  _ ← validate_typed_config ps step depends_on has_loop_bodies;
  Ok (add_node (ps_id ps) depends_on g).

(** [{s.id: s for s in rows}.get(id)]: the last row with the id *)
Definition row_by_id (rows : list execution_step) (id : uuid) : option execution_step :=
  find_first (λ s, bool_decide (es_id s = id)) (rev rows).

(** The runtime dependencies of a body instance: the LOOP entry edge is
    dropped, a body template becomes its key in the same iteration. *)
Fixpoint body_runtime_deps (parent : execution_step) (iteration_no : Z) (bodies : list string)
    (plan_deps : list string) : res (list string) :=
  match plan_deps with
  | [] => Ok []
  | dep :: plan_deps =>
      if String.eqb dep (es_step_key parent) then body_runtime_deps parent iteration_no bodies plan_deps
      else if bool_decide (dep ∈ bodies) then
        key ← iteration_step_key (es_id parent) iteration_no dep;
        keys ← body_runtime_deps parent iteration_no bodies plan_deps;
        Ok (key :: keys)
      else Err (conflict "LOOP body {template.id!r} has invalid depends_on {dep!r}.")
  end.

(** The body of [for child in child_rows] *)
Definition validate_child (plan_by_id : dict plan_step) (ownership : loop_body_ownership)
    (top_rows : list execution_step) (g : dag_graph) (child : execution_step) : res dag_graph :=
  match es_iteration_no child, es_parent_step_id child with
  | Some iteration_no, Some parent_id =>
      _ ← raise_if (iteration_no <? 1)%Z (conflict "LOOP body instance iteration_no must be >= 1.");
      parent ← of_option (conflict "LOOP body instance parent_step_id is invalid.")
                         (row_by_id top_rows parent_id);
      _ ← raise_if (negb (bool_decide (es_step_type parent = StepType.LOOP)))
            (conflict "LOOP body instance parent must be a LOOP Step.");
      _ ← raise_if (is_some (es_parent_step_id parent)) (conflict "LOOP parent must be a top-level Step.");
      loop_ps ← dict_item (es_step_key parent) plan_by_id;
      _ ← assert_exact_plan_projection loop_ps parent;
      template ← of_option (conflict "LOOP body instance step_snapshot is invalid.")
                           (validate_step (es_step_snapshot child));
      expected_template ← of_option (conflict "Unknown LOOP body template {template.id!r}.")
                                    (dict_get (ps_id template) plan_by_id);
      _ ← raise_if (negb (py_eq (dump_step expected_template) (es_step_snapshot child)))
            (conflict "LOOP body instance snapshot is not an exact projection of template {template.id!r}.");
      let bodies := default [] (dict_get (es_step_key parent) (loop_to_body ownership)) in
      _ ← raise_if (negb (bool_decide (ps_id template ∈ bodies)))
            (conflict "Template {template.id!r} is not owned by LOOP {parent.step_key!r}.");
      _ ← raise_if (negb (bool_decide (es_step_type child = ps_type template)))
            (conflict "LOOP body instance step_type mismatches template.");
      _ ← raise_if (negb (bool_decide (es_step_type child ∈ body_runtime_types)))
            (conflict "Unsupported LOOP body step_type {child.step_type!r}.");
      expected_key ← iteration_step_key (es_id parent) iteration_no (ps_id template);
      _ ← raise_if (negb (String.eqb (es_step_key child) expected_key))
            (conflict "LOOP body instance step_key is not canonical.");
      expected_tv ← tool_version_for_template expected_template;
      _ ← raise_if (negb (bool_decide (es_mcp_tool_version_id child = expected_tv)))
            (conflict "LOOP body TOOL mcp_tool_version_id mismatches template.");
      let plan_deps := ps_depends_on expected_template in
      runtime_deps ← body_runtime_deps parent iteration_no bodies plan_deps;
      _ ← raise_if (bool_decide (ps_type template = StepType.TOOL) && (1 <? length runtime_deps)%nat)
            (conflict "TOOL {template.id!r} direct fan-in is unsupported; use an explicit JOIN.");
      _ ← raise_if (bool_decide (ps_type template = StepType.JOIN) && is_nil plan_deps)
            (conflict "JOIN {template.id!r} requires one or more dependencies.");
      _ ← validate_typed_config expected_template child
            (filter (λ d, d ≠ es_step_key parent) plan_deps) false;
      Ok (add_node (es_step_key child) runtime_deps g)
  | None, _ => Err (conflict "LOOP body instance iteration_no must be >= 1.")
  | Some iteration_no, None =>
      _ ← raise_if (iteration_no <? 1)%Z (conflict "LOOP body instance iteration_no must be >= 1.");
      Err (conflict "LOOP body instance parent_step_id is invalid.")
  end.

(** ** [_validate_loop_iteration_shapes] *)
(** The checks of one iteration [n]; the state is [active_nonterminal]. *)
Definition validate_iteration (parent : execution_step) (children : list execution_step)
    (bodies : list string) (active_nonterminal : option Z) (n : Z) : res (option Z) :=
  let iter_children := filter (λ c, es_iteration_no c = Some n) children in
  templates ← res_map template_id_from_step_snapshot iter_children;
  _ ← raise_if (negb (no_dup templates))
        (conflict "LOOP {parent.step_key!r} iteration {n} has duplicate body templates.");
  _ ← raise_if (negb (same_set templates bodies))
        (conflict "LOOP {parent.step_key!r} iteration {n} template set {sorted(templates)} != body_step_ids {list(body_ids)}.");
  _ ← raise_if (negb (length iter_children =? length bodies)%nat)
        (conflict "LOOP {parent.step_key!r} iteration {n} is incomplete.");
  _ ← res_iter (λ c,
        tid ← template_id_from_step_snapshot c;
        expected_key ← iteration_step_key (es_id parent) n tid;
        raise_if (negb (String.eqb (es_step_key c) expected_key))
          (conflict "LOOP {parent.step_key!r} iteration {n} child key drift for template {tid!r}."))
        iter_children;
  let nonterminal := filter (λ c, es_status c ∉ child_terminal) iter_children in
  if is_nil nonterminal then Ok active_nonterminal
  else
    _ ← raise_if (is_some active_nonterminal)
          (conflict "LOOP {parent.step_key!r} has multiple active iterations; only one nonterminal iteration is allowed.");
    Ok (Some n).

(** The iteration bound and, for WHILE, the gates *)
Definition loop_bound (parent : execution_step) (cfg : loop_config) : res (Z * option (list while_gate)) :=
  match lc_mode cfg with
  | LoopMode.FOR_EACH =>
      pin ← parse_foreach_collection_pin (es_resolved_input parent);
      Ok (collection_size pin, None)
  | LoopMode.WHILE =>
      history ← parse_while_predicate_history (es_resolved_input parent);
      Ok (lc_max_iterations cfg, Some history)
  end.

Definition validate_parent_shape (ownership : loop_body_ownership) (top_rows child_rows : list execution_step)
    (plan_by_id : dict plan_step) (parent_id : uuid) : res unit :=
  let children := filter (λ c, es_parent_step_id c = Some parent_id) child_rows in
  parent ← of_option (conflict "LOOP children reference a missing parent LOOP Step.")
                     (row_by_id top_rows parent_id);
  let bodies := default [] (dict_get (es_step_key parent) (loop_to_body ownership)) in
  _ ← raise_if (is_nil bodies) (conflict "LOOP {parent.step_key!r} has no body_step_ids.");
  loop_ps ← dict_item (es_step_key parent) plan_by_id;
  cfg ← of_option validation_error (validate_loop_config (ps_config loop_ps));
  _ ← raise_if (negb (bool_decide (lc_body_step_ids cfg = bodies)))
        (conflict "LOOP {parent.step_key!r} body ownership drift.");
  bound ← loop_bound parent cfg;
  _ ← res_iter (λ child,
        match es_iteration_no child with
        | None => Err (conflict "LOOP body instance missing iteration_no.")
        | Some n => raise_if ((n <? 1) || (bound.1 <? n))%Z
                      (conflict "LOOP body iteration_no={child.iteration_no} outside bound={max_bound}.")
        end) children;
  let max_iter := max_materialized_iteration children (es_id parent) in
  if (max_iter <? 1)%Z then Ok tt
  else
    _ ← raise_if (negb (same_set (present_iterations children) (range1 max_iter)))
          (conflict "LOOP {parent.step_key!r} materialized iterations {sorted(present_iters)} are not contiguous 1..{max_iter}.");
    _ ← match bound.2 with
        | None => Ok tt
        | Some history =>
            res_iter (λ n, require_gate history n true
                "WHILE {parent.step_key!r} iteration {n} lacks a true predicate_history gate.")
              (range1 max_iter)
        end;
    active ← res_fold (validate_iteration parent children bodies) (range1 max_iter) None;
    raise_if (match active with Some n => negb (n =? max_iter)%Z | None => false end)
      (conflict "LOOP {parent.step_key!r} active iteration {active_nonterminal} is not the highest materialized iteration {max_iter}.").

(** The parents of the children, each once, in order of first appearance *)
Definition parents_of (child_rows : list execution_step) : list uuid :=
  foldl (λ acc s, match es_parent_step_id s with
                  | Some u => if bool_decide (u ∈ acc) then acc else acc ++ [u]
                  | None => acc
                  end) [] child_rows.

Definition validate_loop_iteration_shapes (ownership : loop_body_ownership)
    (top_rows child_rows : list execution_step) (plan_by_id : dict plan_step) : res unit :=
  res_iter (validate_parent_shape ownership top_rows child_rows plan_by_id) (parents_of child_rows).

(** ** WHILE control state of every top-level WHILE *)
Definition validate_while_control (p : plan) (steps : list execution_step)
    (plan_by_id : dict plan_step) (top : execution_step) : res unit :=
  if negb (bool_decide (es_step_type top = StepType.LOOP)) then Ok tt
  else
    match (loop_ps ← dict_get (es_step_key top) plan_by_id; validate_loop_config (ps_config loop_ps)) with
    | None => Ok tt
    | Some loop_cfg =>
        if negb (bool_decide (lc_mode loop_cfg = LoopMode.WHILE)) then Ok tt
        else assert_while_parent_control_state top p steps (Some loop_cfg)
    end.

(** ** Scheduling order *)
(** [{ps.id: i for i, ps in enumerate(plan.steps)}.get(key, 10_000)] *)
Definition plan_order_index (p : plan) (key : string) : Z :=
  default 10000%Z (dict_get key (dict_comp (ps_id ∘ snd) (λ ip, Z.of_nat ip.1) (imap pair (pl_steps p)))).

Definition dag_order_key (p : plan) (by_key : dict execution_step) (top_rows : list execution_step)
    (step_key : string) : res (Z * Z * Z * Z) :=
  step ← dict_item step_key by_key;
  match es_parent_step_id step with
  | None => Ok (0, plan_order_index p step_key, 0, 0)%Z
  | Some parent_id =>
      parent ← of_option (PyException "KeyError") (row_by_id top_rows parent_id);
      template_id ← template_id_from_step_snapshot step;
      Ok (1, plan_order_index p (es_step_key parent), default 0 (es_iteration_no step),
          plan_order_index p template_id)%Z
  end.

(** Lexicographic [<=] on the key tuples *)
Definition order_key_leb (a b : Z * Z * Z * Z) : bool :=
  let '(a1, a2, a3, a4) := a in
  let '(b1, b2, b3, b4) := b in
  ((a1 <? b1) || ((a1 =? b1) && ((a2 <? b2) || ((a2 =? b2) && ((a3 <? b3) ||
    ((a3 =? b3) && (a4 <=? b4)))))))%Z.

(** ** [validate_tool_join_dag] *)
(** The checks on the row and plan keys, before any step is looked at *)
Definition validate_row_keys (p : plan) (steps : list execution_step) (has_loop_bodies : bool)
    (top_level_ids : list string) : res unit :=
  let by_key := dict_comp es_step_key id steps in
  let top_rows := filter (λ s, es_parent_step_id s = None) steps in
  let child_rows := filter (λ s, es_parent_step_id s ≠ None) steps in
  if negb has_loop_bodies then
    _ ← raise_if (negb (is_nil child_rows)) (conflict "Runtime DAG Steps must have parent_step_id null.");
    _ ← raise_if (negb (length (pl_steps p) =? length steps)%nat)
          (conflict "Execution Step count does not match plan.steps.");
    _ ← raise_if (negb (same_set (dict_keys by_key) (ps_id <$> pl_steps p)))
          (conflict "ExecutionStep keys do not exactly match Plan Step IDs.");
    res_iter (λ s, raise_if (bool_decide (es_step_type s = StepType.LOOP))
      (conflict "Step type {s.step_type!r} unsupported without LOOP body ownership.")) steps
  else
    _ ← raise_if (existsb (λ s, is_some (es_iteration_no s)) top_rows)
          (conflict "Top-level runtime Steps must have iteration_no null.");
    raise_if (negb (same_set (dict_keys (dict_comp es_step_key id top_rows)) top_level_ids))
      (conflict "Top-level ExecutionStep keys do not exactly match non-body Plan Step IDs.").

(** The validated graph, before Kahn *)
Definition validate_dag_graph (p : plan) (steps : list execution_step) : res dag_graph :=
  _ ← raise_if (is_nil steps) (conflict "Execution has no Steps to orchestrate.");
  let by_key := dict_comp es_step_key id steps in
  _ ← raise_if (negb (length by_key =? length steps)%nat)
        (conflict "ExecutionStep step_key values are not unique.");
  ownership ← build_loop_body_ownership p;
  let has_loop_bodies := negb (is_nil (body_to_loop ownership)) in
  let plan_by_id := plan_steps_by_id p in
  _ ← (if has_loop_bodies then _ ← assert_flat_foreach_runtime_compatible p; Ok tt else Ok tt);
  top_level_plan ← top_level_plan_steps p;
  let top_level_ids := ps_id <$> top_level_plan in
  let top_rows := filter (λ s, es_parent_step_id s = None) steps in
  let child_rows := filter (λ s, es_parent_step_id s ≠ None) steps in
  _ ← validate_row_keys p steps has_loop_bodies top_level_ids;
  g ← res_fold (validate_top_step by_key top_level_ids has_loop_bodies) top_level_plan (DagGraph [] []);
  g ← res_fold (validate_child plan_by_id ownership top_rows) child_rows g;
  _ ← (if is_nil child_rows then Ok tt
       else validate_loop_iteration_shapes ownership top_rows child_rows plan_by_id);
  _ ← res_iter (validate_while_control p steps plan_by_id) top_rows;
  Ok (DagGraph (g_deps g) (foldl (λ d k, dict_setdefault k [] d) (g_dependents g) (dict_keys (g_deps g)))).

Definition validate_tool_join_dag (p : plan) (steps : list execution_step) : res tool_join_dag :=
  g ← validate_dag_graph p steps;
  top_level_plan ← top_level_plan_steps p;
  let by_key := dict_comp es_step_key id steps in
  let top_rows := filter (λ s, es_parent_step_id s = None) steps in
  seen ← kahn_order order_key_leb (dag_order_key p by_key top_rows) (g_deps g) (g_dependents g);
  _ ← raise_if (negb (length seen =? length (g_deps g))%nat)
        (conflict "Runtime DAG contains a cycle or unreachable Steps.");
  root_tools ← res_map (λ key, step ← dict_item key by_key; Ok (key, es_step_type step))
    (filter (λ key, is_nil (default [] (dict_get key (g_deps g))) = true) (ps_id <$> top_level_plan));
  let max_parallelism := max_parallelism (pl_limits p) in
  _ ← raise_if (max_parallelism <? 1)%Z (conflict "Plan.limits.max_parallelism must be >= 1.");
  Ok {| ordered_step_keys := seen;
        root_tool_keys := (filter (λ kt, kt.2 = StepType.TOOL) root_tools).*1;
        dag_max_parallelism := max_parallelism;
        dependents := g_dependents g;
        dependencies := g_deps g |}.

(** ** The graph invariant *)
(** [dependents] counts exactly the edges of [deps], and has every node. *)
Definition graph_ok (g : dag_graph) : Prop :=
  dict_wf (g_deps g) ∧
  (∀ k, k ∈ dict_keys (g_deps g) → k ∈ dict_keys (g_dependents g)) ∧
  ∀ d k, occ k (default [] (dict_get d (g_dependents g))) = occ d (deps_of (g_deps g) k).

Lemma occ_app x l l' : occ x (l ++ l') = (occ x l + occ x l')%nat.
Proof. unfold occ. by rewrite filter_app, length_app. Qed.

Lemma occ_replicate x n y : occ x (replicate n y) = if decide (y = x) then n else 0%nat.
Proof.
  induction n as [|n IH]; simpl; [by case_decide|]. rewrite occ_cons, IH. by case_decide.
Qed.

Lemma occ_pos x l : (0 < occ x l)%nat ↔ x ∈ l.
Proof.
  induction l as [|y l IH]; [split; [unfold occ; simpl; lia|by intros ?%elem_of_nil]|].
  rewrite occ_cons, elem_of_cons, <- IH. case_decide; subst.
  - split; [by left|lia].
  - split; [right; lia|]. intros [->|?]; [done|lia].
Qed.

Lemma push_all_get key ds d (D : dict (list string)) :
  default [] (dict_get d (foldl (λ D dep, dict_push dep key D) D ds))
  = default [] (dict_get d D) ++ replicate (occ d ds) key.
Proof.
  revert D. induction ds as [|x ds IH]; intros D; simpl; [by rewrite app_nil_r|].
  rewrite IH, occ_cons. destruct (decide (x = d)) as [->|Hne]; simpl.
  - rewrite dict_get_push_eq. simpl. by rewrite <- app_assoc.
  - by rewrite dict_get_push_ne by done.
Qed.

Lemma push_all_keys key ds x (D : dict (list string)) :
  x ∈ dict_keys D → x ∈ dict_keys (foldl (λ D dep, dict_push dep key D) D ds).
Proof.
  revert D. induction ds as [|y ds IH]; intros D HD; simpl; [done|].
  apply IH. unfold dict_push. rewrite dict_keys_set_elem. by right.
Qed.

Lemma setdefault_get d key (D : dict (list string)) :
  default [] (dict_get d (dict_setdefault key [] D)) = default [] (dict_get d D).
Proof. rewrite dict_get_setdefault. case_decide; [|done]. by destruct (dict_get d D). Qed.

Lemma setdefault_keys x key (D : dict (list string)) :
  x ∈ dict_keys (dict_setdefault key [] D) ↔ x = key ∨ x ∈ dict_keys D.
Proof.
  rewrite <- !dict_get_is_Some, dict_get_setdefault. case_decide; subst; [|naive_solver].
  split; [by left|]. eauto.
Qed.

Lemma add_node_ok key ds g :
  key ∉ dict_keys (g_deps g) → graph_ok g → graph_ok (add_node key ds g).
Proof.
  intros Hk (Hwf & Hin & Hocc). split; [by apply dict_set_wf|]. split; simpl.
  - intros k. rewrite dict_keys_set_elem. intros Hk'. apply push_all_keys, setdefault_keys.
    destruct Hk' as [->|?]; [by left|right; auto].
  - intros d k. rewrite push_all_get, setdefault_get, occ_app, Hocc, occ_replicate.
    unfold deps_of. case_decide; subst.
    + apply dict_get_None in Hk. rewrite Hk, dict_get_set_eq. done.
    + rewrite dict_get_set_ne by done. lia.
Qed.

Lemma add_node_keys key ds g :
  key ∉ dict_keys (g_deps g) → dict_keys (g_deps (add_node key ds g)) = dict_keys (g_deps g) ++ [key].
Proof. intros Hk. simpl. rewrite dict_set_fresh by done. unfold dict_keys. by rewrite fmap_app. Qed.

(** ** The two loops that build it *)
Lemma validate_top_step_Ok by_key ids b g ps g' :
  validate_top_step by_key ids b g ps = Ok g' →
  g' = add_node (ps_id ps) (ps_depends_on ps) g ∧
  ∃ s, dict_get (ps_id ps) by_key = Some s ∧ es_parent_step_id s = None.
Proof.
  unfold validate_top_step, dict_item. intros Hrun. inv_res. split; [done|].
  eexists. split; [done|]. by destruct (es_parent_step_id _).
Qed.

Lemma validate_child_Ok by_id own rows g c g' :
  validate_child by_id own rows g c = Ok g' →
  ∃ ds u parent t, g' = add_node (es_step_key c) ds g ∧ es_parent_step_id c = Some u ∧
    row_by_id rows u = Some parent ∧ template_id_from_step_snapshot c = Ok t.
Proof.
  unfold validate_child. intros Hrun. do 2 (case_match; [|by inv_res]). inv_res.
  do 3 eexists. eexists (ps_id _). split; [done|]. split; [done|]. split; [done|].
  unfold template_id_from_step_snapshot.
  match goal with Hv : validate_step _ = Some _ |- _ => by rewrite Hv end.
Qed.

Lemma fold_top_Ok by_key ids b tops g g' :
  NoDup (dict_keys (g_deps g) ++ (ps_id <$> tops)) → graph_ok g →
  res_fold (validate_top_step by_key ids b) tops g = Ok g' →
  graph_ok g' ∧ dict_keys (g_deps g') = dict_keys (g_deps g) ++ (ps_id <$> tops) ∧
  (∀ k, k ∈ dict_keys (g_deps g) → dict_get k (g_deps g') = dict_get k (g_deps g)) ∧
  ∀ ps, ps ∈ tops → dict_get (ps_id ps) (g_deps g') = Some (ps_depends_on ps) ∧
    ∃ s, dict_get (ps_id ps) by_key = Some s ∧ es_parent_step_id s = None.
Proof.
  revert g. induction tops as [|ps tops IH]; intros g Hnd Hg; simpl.
  - intros [= <-]. rewrite app_nil_r. do 3 (split; [done|]). by intros ps ?%elem_of_nil.
  - intros (g1 & Hg1 & Hrun)%bind_Ok. apply validate_top_step_Ok in Hg1 as [-> Hrow].
    assert (ps_id ps ∉ dict_keys (g_deps g)) as Hf.
    { apply NoDup_app in Hnd as (_ & Hd & _). intros Hin. apply (Hd _ Hin). simpl. apply list_elem_of_here. }
    pose proof (add_node_keys (ps_id ps) (ps_depends_on ps) g Hf) as Hk.
    apply IH in Hrun as (Hok & Hkeys & Hold & Hget); [|rewrite Hk, <- app_assoc; done|by apply add_node_ok].
    split; [done|]. rewrite Hkeys, Hk, <- app_assoc. split; [done|].
    assert (∀ k, k ∈ dict_keys (g_deps g) → dict_get k (g_deps g') = dict_get k (g_deps g)) as Hold'.
    { intros k Hin. rewrite Hold by (rewrite Hk; apply elem_of_app; by left). simpl.
      apply dict_get_set_ne. by intros ->. }
    split; [done|]. intros ps' [->|Hin]%elem_of_cons; [|by apply Hget].
    split; [|done]. rewrite Hold by (rewrite Hk; apply elem_of_app; right; apply list_elem_of_here).
    simpl. apply dict_get_set_eq.
Qed.

Lemma fold_child_Ok by_id own rows cs g g' :
  NoDup (dict_keys (g_deps g) ++ (es_step_key <$> cs)) → graph_ok g →
  res_fold (validate_child by_id own rows) cs g = Ok g' →
  graph_ok g' ∧ dict_keys (g_deps g') = dict_keys (g_deps g) ++ (es_step_key <$> cs) ∧
  (∀ k, k ∈ dict_keys (g_deps g) → dict_get k (g_deps g') = dict_get k (g_deps g)) ∧
  ∀ c, c ∈ cs → ∃ u parent t, es_parent_step_id c = Some u ∧
    row_by_id rows u = Some parent ∧ template_id_from_step_snapshot c = Ok t.
Proof.
  revert g. induction cs as [|c cs IH]; intros g Hnd Hg; simpl.
  - intros [= <-]. rewrite app_nil_r. do 3 (split; [done|]). by intros c ?%elem_of_nil.
  - intros (g1 & Hg1 & Hrun)%bind_Ok.
    apply validate_child_Ok in Hg1 as (ds & u & parent & t & -> & Hu & Hp & Ht).
    assert (es_step_key c ∉ dict_keys (g_deps g)) as Hf.
    { apply NoDup_app in Hnd as (_ & Hd & _). intros Hin. apply (Hd _ Hin). simpl. apply list_elem_of_here. }
    pose proof (add_node_keys (es_step_key c) ds g Hf) as Hk.
    apply IH in Hrun as (Hok & Hkeys & Hold & Hget); [|rewrite Hk, <- app_assoc; done|by apply add_node_ok].
    split; [done|]. rewrite Hkeys, Hk, <- app_assoc. split; [done|]. split.
    { intros k Hin. rewrite Hold by (rewrite Hk; apply elem_of_app; by left). simpl.
      apply dict_get_set_ne. by intros ->. }
    intros c' [->|Hin]%elem_of_cons; [eauto 10|by apply Hget].
Qed.

(** ** What an accepted graph satisfies *)
Lemma dict_comp_full {A} (key : A → string) (l : list A) :
  length (dict_comp key id l) = length l → NoDup (key <$> l).
Proof.
  intros Hl. assert (dict_keys (dict_comp key id l) ≡ₚ key <$> l) as Hp.
  { apply submseteq_length_Permutation.
    - apply NoDup_submseteq; [apply dict_comp_wf|]. intros x. by rewrite dict_comp_keys.
    - unfold dict_keys. rewrite !length_fmap. lia. }
  rewrite <- Hp. apply dict_comp_wf.
Qed.

Definition rows_top (steps : list execution_step) := filter (λ s, es_parent_step_id s = None) steps.
Definition rows_child (steps : list execution_step) := filter (λ s, es_parent_step_id s ≠ None) steps.

Lemma rows_split steps : steps ≡ₚ rows_top steps ++ rows_child steps.
Proof.
  unfold rows_top, rows_child. induction steps as [|s steps IH]; [done|]. rewrite !filter_cons.
  destruct (decide (es_parent_step_id s = None)) as [E|E].
  - rewrite (decide_False (P := es_parent_step_id s ≠ None)) by (intros H; by apply H). simpl.
    by constructor.
  - rewrite (decide_True (P := es_parent_step_id s ≠ None)) by done.
    rewrite <- Permutation_middle. by constructor.
Qed.

(** The keys of the top-level rows are the ids of the top-level plan steps. *)
Lemma validate_row_keys_Ok p steps own top :
  build_loop_body_ownership p = Ok own → top_level_plan_steps p = Ok top →
  validate_row_keys p steps (negb (is_nil (body_to_loop own))) (ps_id <$> top) = Ok tt →
  ∀ k, k ∈ es_step_key <$> rows_top steps ↔ k ∈ ps_id <$> top.
Proof.
  intros Hown Htop Hrun k. unfold validate_row_keys in Hrun.
  unfold top_level_plan_steps in Htop. rewrite Hown in Htop. cbn [mbind res_bind] in Htop.
  injection Htop as <-. destruct (body_to_loop own) as [|x l] eqn:Eb.
  - simpl in Hrun. inv_res.
    match goal with Hs : same_set _ _ = true |- _ => rewrite same_set_spec in Hs; rename Hs into Hset end.
    match goal with Hc : is_nil _ = true |- _ => rename Hc into Hchild end.
    assert (rows_child steps = []) as Hnil by (unfold rows_child in *; by destruct (filter _ steps)).
    assert (es_step_key <$> rows_top steps ≡ₚ es_step_key <$> steps) as ->
      by (rewrite (rows_split steps) at 2; by rewrite Hnil, app_nil_r).
    assert (filter (λ s, dict_has (ps_id s) [] = false) (pl_steps p) = pl_steps p) as ->.
    { clear. induction (pl_steps p) as [|s l IH]; [done|]. rewrite filter_cons, decide_True by done.
      by rewrite IH. }
    rewrite <- Hset, dict_comp_keys. done.
  - simpl in Hrun. inv_res. rewrite same_set_spec in Hrun. rewrite <- Hrun, dict_comp_keys. done.
Qed.

Lemma setdefault_all_ok g ks :
  graph_ok g → graph_ok (DagGraph (g_deps g) (foldl (λ d k, dict_setdefault k [] d) (g_dependents g) ks)).
Proof.
  intros (Hwf & Hin & Hocc). split; [done|]. simpl. revert Hin Hocc.
  generalize (g_dependents g) as D. induction ks as [|k ks IH]; intros D Hin Hocc; [done|].
  simpl. apply IH.
  - intros x Hx. apply setdefault_keys. right. by apply Hin.
  - intros d x. by rewrite setdefault_get.
Qed.

Lemma validate_dag_graph_Ok p steps g :
  NoDup (ps_id <$> pl_steps p) → validate_dag_graph p steps = Ok g →
  ∃ top, top_level_plan_steps p = Ok top ∧ graph_ok g ∧ NoDup (es_step_key <$> steps) ∧
    (dict_keys (g_deps g) ≡ₚ es_step_key <$> steps) ∧
    (∀ ps, ps ∈ top → dict_get (ps_id ps) (g_deps g) = Some (ps_depends_on ps)) ∧
    ∀ k, k ∈ dict_keys (g_deps g) →
      is_ok (dag_order_key p (dict_comp es_step_key id steps) (rows_top steps) k) = true.
Proof.
  intros Hnd Hrun. unfold validate_dag_graph in Hrun. fold (rows_top steps) (rows_child steps) in Hrun.
  apply bind_Ok in Hrun as ([] & _ & Hrun). apply bind_Ok in Hrun as ([] & Hlen & Hrun).
  apply raise_if_Ok, negb_false_iff, Nat.eqb_eq, dict_comp_full in Hlen.
  apply bind_Ok in Hrun as (own & Hown & Hrun). apply bind_Ok in Hrun as ([] & _ & Hrun).
  apply bind_Ok in Hrun as (top & Htop & Hrun). apply bind_Ok in Hrun as ([] & Hkeys & Hrun).
  apply bind_Ok in Hrun as (g1 & Hg1 & Hrun). apply bind_Ok in Hrun as (g2 & Hg2 & Hrun).
  apply bind_Ok in Hrun as ([] & _ & Hrun). apply bind_Ok in Hrun as ([] & _ & Hrun).
  injection Hrun as <-. exists top. split; [done|].
  pose proof (validate_row_keys_Ok p steps own top Hown Htop Hkeys) as Hset.
  assert (NoDup (ps_id <$> top)) as Hndt.
  { unfold top_level_plan_steps in Htop. rewrite Hown in Htop. injection Htop as <-.
    eapply sublist_NoDup; [exact Hnd|]. apply fmap_sublist, sublist_filter. }
  assert (NoDup (es_step_key <$> (rows_top steps ++ rows_child steps))) as Hnds
    by (by rewrite <- rows_split).
  rewrite fmap_app in Hnds. apply NoDup_app in Hnds as (Hn1 & Hdis & Hn2).
  apply fold_top_Ok in Hg1 as (Hok1 & Hk1 & _ & Hget1); [|by rewrite app_nil_l|].
  2: { split; [by apply NoDup_nil|]. split; [by intros k ?%elem_of_nil|done]. }
  simpl in Hk1. apply fold_child_Ok in Hg2 as (Hok2 & Hk2 & Hold2 & Hget2); [|rewrite Hk1|done].
  2: { apply NoDup_app. split; [done|]. split; [|done]. intros k Hk. apply Hdis. by apply Hset. }
  assert (dict_keys (g_deps g2) ≡ₚ es_step_key <$> steps) as Hperm.
  { trans (es_step_key <$> (rows_top steps ++ rows_child steps)).
    - rewrite Hk2, Hk1, fmap_app. apply Permutation_app_tail.
      apply NoDup_Permutation; [done..|]. intros k. by rewrite Hset.
    - apply fmap_Permutation. symmetry. apply rows_split. }
  split; [|split; [done|split; [done|split]]]; simpl.
  - by apply (setdefault_all_ok g2).
  - intros ps Hps. destruct (Hget1 ps Hps) as [Hg _]. rewrite Hold2; [done|].
    rewrite Hk1. by apply list_elem_of_fmap_2.
  - intros k Hk. rewrite Hperm in Hk. apply list_elem_of_fmap in Hk as (s & -> & Hs).
    unfold dag_order_key, dict_item. rewrite dict_comp_get_NoDup by done. cbn [of_option mbind res_bind id].
    destruct (es_parent_step_id s) as [u|] eqn:Eu; [|done].
    destruct (Hget2 s) as (u' & parent & t & Hu' & Hp & Ht).
    { apply list_elem_of_filter. split; [by rewrite Eu|done]. }
    rewrite Eu in Hu'. injection Hu' as <-. by rewrite Hp, Ht.
Qed.

Lemma graph_ok_dependents g : graph_ok g → dependents_ok (g_deps g) (g_dependents g).
Proof.
  intros (_ & Hin & Hocc). split; [done|]. intros d l Hd.
  assert (∀ k, occ k l = occ d (deps_of (g_deps g) k)) as Ho
    by (intros k; rewrite <- Hocc; by rewrite Hd).
  split; [|intros k _; apply Ho]. intros k Hk%occ_pos. rewrite Ho in Hk.
  apply dict_get_is_Some. unfold deps_of in Hk.
  destruct (dict_get k (g_deps g)); [eauto|]. unfold occ in Hk. simpl in Hk. lia.
Qed.

(** The roots are top-level TOOL rows without dependencies. *)
Lemma root_tool_keys_sound p steps dag :
  NoDup (ps_id <$> pl_steps p) → validate_tool_join_dag p steps = Ok dag →
  NoDup (es_step_key <$> steps) ∧ NoDup (root_tool_keys dag) ∧ (1 ≤ dag_max_parallelism dag)%Z ∧
  dag_max_parallelism dag = max_parallelism (pl_limits p) ∧
  ∀ k, k ∈ root_tool_keys dag →
    deps_of (dependencies dag) k = [] ∧ ∃ s, s ∈ steps ∧ es_step_key s = k ∧ es_step_type s = StepType.TOOL.
Proof.
  intros Hnd Hrun. unfold validate_tool_join_dag in Hrun. apply bind_Ok in Hrun as (g & Hg & Hrun).
  destruct (validate_dag_graph_Ok p steps g Hnd Hg) as (top & Htop & _ & Hnds & _ & _ & _).
  rewrite Htop in Hrun. cbn [mbind res_bind] in Hrun. inv_res.
  match goal with Hl : (_ <? 1)%Z = false |- _ => apply Z.ltb_ge in Hl end.
  match goal with Hm : res_map _ _ = Ok _ |- _ => apply res_map_Ok in Hm; rename Hm into Hmap end.
  simpl. split; [done|]. set (ks := filter _ (ps_id <$> top)) in *.
  assert (NoDup ks) as Hks.
  { apply NoDup_filter. unfold top_level_plan_steps in Htop. apply bind_Ok in Htop as (own & _ & Htop).
    injection Htop as <-. eapply sublist_NoDup; [exact Hnd|]. apply fmap_sublist, sublist_filter. }
  match type of Hmap with Forall2 _ _ ?l => rename l into rts end.
  assert (rts.*1 = ks) as Hfst.
  { clear -Hmap. induction Hmap as [|k [k' t] ks rts Hk _ IH]; [done|]. cbn. f_equal; [by inv_res|exact IH]. }
  split; [|split; [done|split; [done|]]].
  - eapply sublist_NoDup; [rewrite <- Hfst in Hks; exact Hks|]. apply fmap_sublist, sublist_filter.
  - intros k ([k' t] & -> & [Ht Hin]%list_elem_of_filter)%list_elem_of_fmap. simpl in *.
    apply list_elem_of_lookup in Hin as [i Hi].
    eapply Forall2_lookup_r in Hmap as (k0 & Hk0 & Hm); [|done]. inv_res. split.
    + apply list_elem_of_lookup_2, list_elem_of_filter in Hk0 as [Hnil _].
      unfold deps_of. by destruct (default [] _).
    + match goal with Hd : dict_item _ _ = Ok _ |- _ =>
        unfold dict_item in Hd; apply of_option_Ok, dict_comp_get in Hd as (s & Hs & Hk & Hx) end.
      exists s. unfold id in Hx. by subst.
Qed.


(** With a topological order of the graph the validator accepts. *)
Lemma validate_tool_join_dag_total p steps g o :
  NoDup (ps_id <$> pl_steps p) → (1 ≤ max_parallelism (pl_limits p))%Z →
  validate_dag_graph p steps = Ok g → topological (g_deps g) o →
  is_ok (validate_tool_join_dag p steps) = true.
Proof.
  intros Hnd Hmp Hg Htopo.
  destruct (validate_dag_graph_Ok p steps g Hnd Hg) as (top & Htop & Hok & Hnds & Hperm & Hdeps & Hkey).
  destruct (kahn_order_run order_key_leb _ _ _ Hkey (proj1 Hok) (graph_ok_dependents g Hok))
    as (order & Hko & _ & _ & _ & Hlen & _).
  unfold validate_tool_join_dag. fold (rows_top steps). rewrite Hg, Htop. cbn [mbind res_bind].
  rewrite Hko. cbn [mbind res_bind]. assert (length order = length (g_deps g)) as Ho by (apply Hlen; by exists o).
  rewrite (proj2 (Nat.eqb_eq _ _) Ho). cbn [negb raise_if mbind res_bind].
  assert (∀ ks, (∀ k, k ∈ ks → k ∈ es_step_key <$> steps) →
    ∃ l, res_map (λ key, step ← dict_item key (dict_comp es_step_key id steps);
                        Ok (key, es_step_type step)) ks = Ok l) as Hmap.
  { induction ks as [|k ks IH]; intros Hks; [by eexists|].
    assert (k ∈ es_step_key <$> steps) as (s & -> & Hs)%list_elem_of_fmap by apply Hks, list_elem_of_here.
    simpl. unfold dict_item. rewrite dict_comp_get_NoDup by done. simpl.
    destruct IH as [l Hl]; [intros x Hx; by apply Hks, list_elem_of_further|].
    unfold dict_item in Hl. rewrite Hl. by eexists. }
  destruct (Hmap (filter (λ key, is_nil (default [] (dict_get key (g_deps g))) = true) (ps_id <$> top)))
    as [l Hl].
  { intros k [_ (ps & -> & Hps)%list_elem_of_fmap]%list_elem_of_filter.
    rewrite <- Hperm. apply dict_get_is_Some. rewrite Hdeps by done. eauto. }
  rewrite Hl. cbn [mbind res_bind]. destruct (Z.ltb_spec (max_parallelism (pl_limits p)) 1); [lia|done].
Qed.

End dag_validate.
