(* ===== verification/DagLoops.v ===== *)
(** * LOOPs of a validated execution

    What [validate_tool_join_dag] guarantees about LOOP body instances and WHILE
    control evidence: [_validate_loop_iteration_shapes] and
    [assert_while_parent_control_state] as invariants of the rows. *)
From S2P Require Import Prelude PyStr PyDict Json PyUuid Domain LoopRuntime Completion Kahn DagValidate.

Section dag_loops.
Context `{PS : PlanSchema}.

(** Iteration [n] of [parent] holds exactly one canonical instance per body. *)
Definition iteration_exact (parent : execution_step) (children : list execution_step)
    (bodies : list string) (n : Z) : Prop :=
  ∃ templates,
    Forall2 (λ c t, template_id_from_step_snapshot c = Ok t ∧
                    iteration_step_key (es_id parent) n t = Ok (es_step_key c))
      (filter (λ c, es_iteration_no c = Some n) children) templates ∧
    NoDup templates ∧ (∀ t, t ∈ templates ↔ t ∈ bodies).

(** The shape of the instances of one LOOP row *)
Definition loop_shape_ok (parent : execution_step) (children : list execution_step)
    (bodies : list string) (bound : Z) (history : option (list while_gate)) : Prop :=
  let N := max_materialized_iteration children (es_id parent) in
  (∀ c, c ∈ children → ∃ n, es_iteration_no c = Some n ∧ (1 ≤ n ≤ bound)%Z) ∧
  ((1 ≤ N)%Z →
     (∀ n, n ∈ present_iterations children ↔ (1 ≤ n ≤ N)%Z) ∧
     (∀ n, (1 ≤ n ≤ N)%Z → iteration_exact parent children bodies n) ∧
     (∀ c n, c ∈ children → es_iteration_no c = Some n → (1 ≤ n)%Z → es_status c ∉ child_terminal → n = N) ∧
     match history with
     | None => True
     | Some h => ∀ n, (1 ≤ n ≤ N)%Z → ∃ g, history_entry_for h n = Some g ∧ gate_result g = true
     end).

(** One iteration: exact, and the active one is tracked. *)
Lemma validate_iteration_Ok parent children bodies active n active' :
  validate_iteration parent children bodies active n = Ok active' →
  iteration_exact parent children bodies n ∧
  ((∀ c, c ∈ children → es_iteration_no c = Some n → es_status c ∈ child_terminal) ∧ active' = active
   ∨ active = None ∧ active' = Some n).
Proof.
  unfold validate_iteration. intros Hrun.
  apply bind_Ok in Hrun as (ts & Hts & Hrun). inv_res.
  match goal with Hd : no_dup _ = true |- _ => unfold no_dup in Hd end. inv_res.
  match goal with Hs : same_set _ _ = true |- _ => rewrite same_set_spec in Hs; rename Hs into Hset end.
  match goal with Hk : ∀ _, _ → _ = Ok tt |- _ => rename Hk into Hkeys end.
  apply res_map_Ok in Hts. split.
  - exists ts. split; [|done]. apply Forall2_same_length_lookup. split; [by eapply Forall2_length|].
    intros i c t Hc Ht. pose proof (Forall2_lookup_lr _ _ _ _ _ _ Hts Hc Ht) as Hct. split; [done|].
    specialize (Hkeys c (list_elem_of_lookup_2 _ _ _ Hc)). rewrite Hct in Hkeys. simpl in Hkeys. inv_res.
    match goal with Hk : String.eqb _ _ = true |- _ => apply String.eqb_eq in Hk; rewrite Hk end. done.
  - destruct (filter (λ c, es_status c ∉ child_terminal) _) as [|c0 l] eqn:Ef; simpl in Hrun; inv_res.
    + left. split; [|done]. intros c Hc Hn. destruct (decide (es_status c ∈ child_terminal)) as [|Hnt]; [done|].
      assert (c ∈ filter (λ c, es_status c ∉ child_terminal)
                    (filter (λ c, es_iteration_no c = Some n) children)) as Hin
        by (apply list_elem_of_filter; split; [done|]; by apply list_elem_of_filter).
      rewrite Ef in Hin. by apply elem_of_nil in Hin.
    + right. by destruct active.
Qed.

(** The fold over 1..N leaves [active] at the only nonterminal iteration. *)
Lemma validate_iterations_Ok parent children bodies ns active :
  res_fold (validate_iteration parent children bodies) ns None = Ok active →
  (∀ n, n ∈ ns → iteration_exact parent children bodies n) ∧
  ∀ c n, c ∈ children → es_iteration_no c = Some n → n ∈ ns → es_status c ∉ child_terminal → active = Some n.
Proof.
  revert active. induction ns as [|n ns IH] using rev_ind; intros active.
  - intros [= <-]. split; [by intros n ?%elem_of_nil|]. by intros c n _ _ ?%elem_of_nil.
  - rewrite res_fold_app. intros (a & Ha & Hrun)%bind_Ok.
    apply bind_Ok in Hrun as (a' & Ha' & [= <-]). destruct (IH a Ha) as [Hex Hact].
    apply validate_iteration_Ok in Ha' as [Hn Hcase]. split.
    + intros m [Hm| ->%list_elem_of_singleton]%elem_of_app; auto.
    + intros c m Hc Hm [Hin| ->%list_elem_of_singleton]%elem_of_app Hst.
      * destruct Hcase as [[_ ->]|[-> _]]; [by eapply Hact|]. by specialize (Hact c m Hc Hm Hin Hst).
      * destruct Hcase as [[Ht _]|[_ ->]]; [|done]. exfalso. by apply Hst, (Ht c).
Qed.

Lemma validate_parent_shape_Ok own tops children_rows by_id u :
  validate_parent_shape own tops children_rows by_id u = Ok tt →
  ∃ parent cfg bound history, row_by_id tops u = Some parent ∧
    dict_get (es_step_key parent) (loop_to_body own) = Some (lc_body_step_ids cfg) ∧
    loop_bound parent cfg = Ok (bound, history) ∧
    loop_shape_ok parent (filter (λ c, es_parent_step_id c = Some u) children_rows)
      (lc_body_step_ids cfg) bound history.
Proof.
  unfold validate_parent_shape. set (children := filter _ children_rows). intros Hrun.
  apply bind_Ok in Hrun as (parent & Hparent & Hrun). apply of_option_Ok in Hparent.
  apply bind_Ok in Hrun as ([] & Hnil & Hrun). apply raise_if_Ok in Hnil.
  apply bind_Ok in Hrun as (lps & Hlps & Hrun). apply bind_Ok in Hrun as (cfg & Hcfg & Hrun).
  apply bind_Ok in Hrun as ([] & Hb & Hrun).
  apply raise_if_Ok, negb_false_iff, bool_decide_eq_true in Hb.
  apply bind_Ok in Hrun as ([bound history] & Hbound & Hrun).
  apply bind_Ok in Hrun as ([] & Hiters & Hrun). rewrite res_iter_Ok in Hiters.
  exists parent, cfg, bound, history. split; [done|]. split.
  { rewrite Hb. revert Hnil. by destruct (dict_get _ _). }
  split; [done|]. unfold loop_shape_ok. set (N := max_materialized_iteration children (es_id parent)) in *.
  split.
  { intros c Hc. specialize (Hiters c Hc). destruct (es_iteration_no c) as [n|]; [|done]. inv_res.
    exists n. split; [done|]. simpl in *. lia. }
  intros HN. destruct (Z.ltb_spec N 1) as [|_]; [lia|].
  apply bind_Ok in Hrun as ([] & Hpres & Hrun). apply raise_if_Ok, negb_false_iff in Hpres.
  rewrite same_set_spec in Hpres. apply bind_Ok in Hrun as ([] & Hgates & Hrun).
  apply bind_Ok in Hrun as (active & Hfold & Hrun). apply raise_if_Ok in Hrun.
  apply validate_iterations_Ok in Hfold as [Hex Hact]. rewrite <- Hb in *. split; [|split; [|split]].
  - intros n. by rewrite Hpres, elem_of_range1.
  - intros n Hn. apply Hex. by apply elem_of_range1.
  - intros c n Hc Hn H1 Hst.
    assert (n ∈ range1 N) as Hin.
    { apply Hpres. unfold present_iterations. apply list_elem_of_filter. split; [lia|].
      apply list_elem_of_omap. by exists c. }
    rewrite (Hact c n Hc Hn Hin Hst) in Hrun. apply negb_false_iff, Z.eqb_eq in Hrun. done.
  - destruct history as [h|]; [|done]. cbn [snd] in Hgates. rewrite res_iter_Ok in Hgates. intros n Hn%elem_of_range1.
    by apply Hgates, require_gate_Ok in Hn.
Qed.

Lemma parents_of_elem rows s u :
  s ∈ rows → es_parent_step_id s = Some u → u ∈ parents_of rows.
Proof.
  intros Hs Hu. unfold parents_of.
  assert (∀ rows acc, (u ∈ acc ∨ ∃ s, s ∈ rows ∧ es_parent_step_id s = Some u) →
    u ∈ foldl (λ acc s, match es_parent_step_id s with
                        | Some u => if bool_decide (u ∈ acc) then acc else acc ++ [u]
                        | None => acc end) acc rows) as Hgen; [|apply Hgen; eauto].
  clear. induction rows as [|r rows IH]; intros acc [Ha|(s & Hs & Hu)]; simpl.
  - done.
  - by apply elem_of_nil in Hs.
  - apply IH. left. destruct (es_parent_step_id r); [|done]. case_bool_decide; [done|].
    apply elem_of_app. by left.
  - apply IH. apply elem_of_cons in Hs as [->|Hs]; [left|right; eauto]. rewrite Hu.
    case_bool_decide; [done|]. apply elem_of_app. right. apply list_elem_of_here.
Qed.

Lemma validate_dag_graph_loops p steps g :
  validate_dag_graph p steps = Ok g → ∃ own top g0, build_loop_body_ownership p = Ok own ∧
    top_level_plan_steps p = Ok top ∧
    (∀ u, u ∈ parents_of (rows_child steps) →
       validate_parent_shape own (rows_top steps) (rows_child steps) (plan_steps_by_id p) u = Ok tt) ∧
    (∀ s, s ∈ rows_top steps → validate_while_control p steps (plan_steps_by_id p) s = Ok tt) ∧
    ∃ g1, res_fold (validate_child (plan_steps_by_id p) own (rows_top steps)) (rows_child steps) g0 = Ok g1.
Proof.
  unfold validate_dag_graph. fold (rows_top steps) (rows_child steps). intros Hrun.
  apply bind_Ok in Hrun as ([] & _ & Hrun). apply bind_Ok in Hrun as ([] & _ & Hrun).
  apply bind_Ok in Hrun as (own & Hown & Hrun). apply bind_Ok in Hrun as ([] & _ & Hrun).
  apply bind_Ok in Hrun as (top & Htop & Hrun). apply bind_Ok in Hrun as ([] & _ & Hrun).
  apply bind_Ok in Hrun as (g0 & _ & Hrun). apply bind_Ok in Hrun as (g1 & Hg1 & Hrun).
  apply bind_Ok in Hrun as ([] & Hshape & Hrun). apply bind_Ok in Hrun as ([] & Hctl & _).
  exists own, top, g0. do 2 (split; [done|]). rewrite res_iter_Ok in Hctl. split; [|eauto].
  destruct (rows_child steps) as [|c cs]; [by intros u ?%elem_of_nil|].
  cbn [is_nil] in Hshape. unfold validate_loop_iteration_shapes in Hshape. by rewrite res_iter_Ok in Hshape.
Qed.


(** C30: every WHILE LOOP of a validated execution satisfies the control
    invariant.  With N its highest materialized iteration: a SUCCEEDED loop
    recorded N true gates and a final false one and all N iterations are
    complete, terminal and untampered; a loop FAILED with
    LOOP_MAX_ITERATIONS_EXCEEDED recorded N+1 true gates with N its configured
    maximum; a RUNNING loop recorded N true gates and at most one more, which
    requires the N iterations to be complete; a LOOP_TIMEOUT loop recorded
    exactly N true gates. *)
Theorem validated_while_control `{!PlanSchemaLaws} p steps dag s ps cfg :
  validate_tool_join_dag p steps = Ok dag →
  s ∈ steps → es_parent_step_id s = None → es_step_type s = StepType.LOOP →
  dict_get (es_step_key s) (plan_steps_by_id p) = Some ps →
  validate_loop_config (ps_config ps) = Some cfg → lc_mode cfg = LoopMode.WHILE →
  while_control_ok s p steps cfg.
Proof.
  intros Hrun Hs Htop Htype Hps Hcfg Hmode. unfold validate_tool_join_dag in Hrun.
  apply bind_Ok in Hrun as (g & Hg & _).
  destruct (validate_dag_graph_loops p steps g Hg) as (own & top & g0 & _ & _ & _ & Hctl & _).
  specialize (Hctl s). unfold validate_while_control in Hctl.
  rewrite Hps in Hctl. simpl in Hctl. rewrite Hcfg, Htype, Hmode, !bool_decide_eq_true_2 in Hctl by done.
  simpl in Hctl. apply while_parent_control_state_ok; [by eapply validate_loop_config_ok|].
  apply Hctl. by apply list_elem_of_filter.
Qed.
End dag_loops.
