(* ===== verification/DagSchedule.v ===== *)
(** * Scheduling decisions on a validated DAG (execution/dag.py, second half)

    When a dependency lets its dependents go on, which PENDING steps may start,
    when a JOIN barrier is ready and what its policy decides, the DAG-wide
    cleanup after a stop, and the choice of the stop cause.  Functions that look
    a row up by key can raise [KeyError], so they return [res]. *)
From S2P Require Import Prelude PyStr PyDict Json PyUuid Domain LoopRuntime Completion Kahn DagValidate.

(** [_JOIN_BARRIER_TERMINAL] *)
Definition join_barrier_terminal : list step_status :=
  [StepStatus.SUCCEEDED; StepStatus.FAILED; StepStatus.TIMED_OUT; StepStatus.CANCELLED;
   StepStatus.SKIPPED; StepStatus.UNKNOWN_OUTCOME].

Definition is_intentional_conditional_skip (step : execution_step) : bool :=
  bool_decide (es_status step = StepStatus.SKIPPED) && error_code_in step intentional_skip_codes.

Section dag_schedule.
Context `{PS : PlanSchema}.

(** ** Progression of a dependency *)
Definition dependency_progression_complete (dep_step : execution_step)
    (dependent_step : option execution_step) : bool :=
  if match dependent_step with
     | Some d => is_some (es_parent_step_id d)
                 && bool_decide (es_parent_step_id d = Some (es_id dep_step))
                 && bool_decide (es_step_type dep_step = StepType.LOOP)
                 && bool_decide (es_status dep_step = StepStatus.RUNNING)
     | None => false
     end then true
  else if bool_decide (es_status dep_step = StepStatus.SUCCEEDED) then true
  else if is_intentional_conditional_skip dep_step then false
  else match plan_step_for dep_step with
       | Ok ps => is_continuable_known_failure (ps_on_error ps) (es_status dep_step)
       | Err _ => false
       end.

(** [_parent_loop_running_if_body] *)
Definition parent_loop_running_if_body (step : execution_step) (by_key : dict execution_step) : bool :=
  match es_parent_step_id step with
  | None => true
  | Some parent_id =>
      match step_with_id (dict_values by_key) parent_id with
      | None => false
      | Some parent => bool_decide (es_step_type parent = StepType.LOOP)
                       && bool_decide (es_status parent = StepStatus.RUNNING)
      end
  end.

(** [dag.dependencies.get(step.step_key, ())] *)
Definition dag_deps (dag : tool_join_dag) (step : execution_step) : list string :=
  default [] (dict_get (es_step_key step) (dependencies dag)).

Definition has_intentional_skip_dependency (step : execution_step) (dag : tool_join_dag)
    (by_key : dict execution_step) : res bool :=
  res_any (λ dep_id, dep ← dict_item dep_id by_key; Ok (is_intentional_conditional_skip dep))
          (dag_deps dag step).

(** The last loop of every eligibility function *)
Definition direct_deps_progressed (step : execution_step) (dag : tool_join_dag)
    (by_key : dict execution_step) : res bool :=
  res_all (λ dep_id, dep ← dict_item dep_id by_key;
                     Ok (dependency_progression_complete dep (Some step)))
          (dag_deps dag step).

(** ** Eligibility *)
Definition tool_structurally_eligible (step : execution_step) (dag : tool_join_dag)
    (by_key : dict execution_step) : res bool :=
  if negb (bool_decide (es_status step = StepStatus.PENDING)) then Ok false
  else if negb (bool_decide (es_step_type step = StepType.TOOL)) then Ok false
  else if negb (parent_loop_running_if_body step by_key) then Ok false
  else
    skip ← has_intentional_skip_dependency step dag by_key;
    if skip : bool then Ok false else direct_deps_progressed step dag by_key.

Definition condition_structurally_eligible (step : execution_step) (dag : tool_join_dag)
    (by_key : dict execution_step) : res bool :=
  if negb (bool_decide (es_status step = StepStatus.PENDING)) then Ok false
  else if negb (bool_decide (es_step_type step = StepType.CONDITION)) then Ok false
  else if negb (parent_loop_running_if_body step by_key) then Ok false
  else
    skip ← has_intentional_skip_dependency step dag by_key;
    if skip : bool then Ok false else direct_deps_progressed step dag by_key.

Definition approval_structurally_eligible (step : execution_step) (dag : tool_join_dag)
    (by_key : dict execution_step) : res bool :=
  if negb (bool_decide (es_status step = StepStatus.PENDING)) then Ok false
  else if negb (bool_decide (es_step_type step = StepType.APPROVAL)) then Ok false
  else
    skip ← has_intentional_skip_dependency step dag by_key;
    if skip : bool then Ok false else direct_deps_progressed step dag by_key.

Definition loop_structurally_eligible (step : execution_step) (dag : tool_join_dag)
    (by_key : dict execution_step) : res bool :=
  if negb (bool_decide (es_status step = StepStatus.PENDING)) then Ok false
  else if negb (bool_decide (es_step_type step = StepType.LOOP)) then Ok false
  else if is_some (es_parent_step_id step) then Ok false
  else
    skip ← has_intentional_skip_dependency step dag by_key;
    if skip : bool then Ok false else direct_deps_progressed step dag by_key.

Definition join_barrier_ready (step : execution_step) (dag : tool_join_dag)
    (by_key : dict execution_step) : res bool :=
  if negb (bool_decide (es_status step = StepStatus.PENDING)) then Ok false
  else if negb (bool_decide (es_step_type step = StepType.JOIN)) then Ok false
  else if negb (parent_loop_running_if_body step by_key) then Ok false
  else
    let deps := dag_deps dag step in
    if is_nil deps then Ok false
    else res_all (λ d, dep ← dict_item d by_key;
                       Ok (bool_decide (es_status dep ∈ join_barrier_terminal))) deps.
End dag_schedule.

(** [evaluate_join_policy]; the policy is the string it is stored as. *)
Definition evaluate_join_policy (policy_value : string) (dependency_statuses : list step_status)
    : res (step_status * option string) :=
  if String.eqb policy_value (join_policy_value JoinPolicy.ALL_SUCCESS) then
    if forallb (λ s, bool_decide (s = StepStatus.SUCCEEDED)) dependency_statuses
    then Ok (StepStatus.SUCCEEDED, None)
    else Ok (StepStatus.FAILED, Some "JOIN_POLICY_UNSATISFIED")
  else if String.eqb policy_value (join_policy_value JoinPolicy.ALL_COMPLETE) then
    Ok (StepStatus.SUCCEEDED, None)
  else if String.eqb policy_value (join_policy_value JoinPolicy.ANY_SUCCESS) then
    if existsb (λ s, bool_decide (s = StepStatus.SUCCEEDED)) dependency_statuses
    then Ok (StepStatus.SUCCEEDED, None)
    else Ok (StepStatus.FAILED, Some "JOIN_POLICY_UNSATISFIED")
  else Err (conflict "Unsupported JOIN policy {policy_value!r}.").

Definition count_tool_slots (steps : list execution_step) : Z :=
  Z.of_nat (length (filter (λ s, es_step_type s = StepType.TOOL ∧
                                 es_status s ∈ [StepStatus.READY; StepStatus.RUNNING]) steps)).

(** ** DAG-wide cleanup *)
(** [for step in by_key.values(): if p(step): update step; keys.append(..)] *)
Definition update_rows (p : execution_step → bool) (f : execution_step → execution_step)
    (by_key : dict execution_step) : dict execution_step * list string :=
  ((λ kv, (kv.1, if p kv.2 then f kv.2 else kv.2)) <$> by_key,
   es_step_key <$> filter (λ s, p s = true) (dict_values by_key)).

Definition skip_all_pending (by_key : dict execution_step) (now : Z) : dict execution_step * list string :=
  update_rows (λ step, bool_decide (es_status step = StepStatus.PENDING))
    (finish_step StepStatus.SKIPPED "UPSTREAM_EXECUTION_STOPPED"
       "Upstream Execution stopped; downstream Step was not started." now) by_key.

(** The negation of the guard that continues *)
Definition unused_ready_tool (step : execution_step) : bool :=
  negb (negb (bool_decide (es_step_type step = StepType.TOOL))
        || negb (bool_decide (es_status step = StepStatus.READY))
        || is_some (es_started_at step)
        || negb (es_attempt_count step =? 0)%Z).

Definition cancel_unused_ready_tools (by_key : dict execution_step) (now : Z)
    : dict execution_step * list string :=
  update_rows unused_ready_tool
    (finish_step StepStatus.CANCELLED "UPSTREAM_EXECUTION_STOPPED"
       "Upstream Execution stopped before TOOL Attempt start." now) by_key.

(** ** The stop cause of a wave *)
Record stop_cause := StopCause {
  sc_step_key : string;
  sc_plan_index : Z;
  sc_kind : string;
  sc_step_status : string;
  sc_error_code : option string;
  sc_error_message : option string }.

Definition stop_cause_precedence (kind : string) : Z :=
  default 99%Z (dict_get kind [("FATAL", 0); ("FAIL_EXECUTION_TIMED_OUT", 1);
                               ("FAIL_EXECUTION_FAILED", 2)]%Z).

(** [<=] of the key tuples [(precedence, plan_index, step_key)] *)
Definition stop_cause_leb (a b : stop_cause) : bool :=
  let pa := stop_cause_precedence (sc_kind a) in
  let pb := stop_cause_precedence (sc_kind b) in
  (pa <? pb)%Z || ((pa =? pb)%Z &&
    ((sc_plan_index a <? sc_plan_index b)%Z || ((sc_plan_index a =? sc_plan_index b)%Z
      && str_leb (sc_step_key a) (sc_step_key b)))).

Definition pick_stop_cause (causes : list stop_cause) : option stop_cause :=
  match sort_by stop_cause_leb causes with
  | [] => None
  | c :: _ => Some c
  end.

Definition is_single_tool_execution (steps : list execution_step) : bool :=
  let of_type t := length (filter (λ s, es_step_type s = t) steps) in
  (of_type StepType.TOOL =? 1)%nat && (of_type StepType.JOIN =? 0)%nat
  && (of_type StepType.CONDITION =? 0)%nat && (of_type StepType.APPROVAL =? 0)%nat
  && (of_type StepType.LOOP =? 0)%nat && (length steps =? 1)%nat.

(** ** Properties *)
Section properties.
Context `{PS : PlanSchema}.

(** What unblocks [dependent]: a running LOOP its own body instances; else
    success, or a FAILED/TIMED_OUT whose plan step says to continue. *)
Definition unblocks (dep dependent : execution_step) : Prop :=
  (es_parent_step_id dependent = Some (es_id dep) ∧ es_step_type dep = StepType.LOOP ∧
   es_status dep = StepStatus.RUNNING)
  ∨ es_status dep = StepStatus.SUCCEEDED
  ∨ (es_status dep ∈ known_failure_statuses ∧
     ∃ ps, validate_step (es_step_snapshot dep) = Some ps ∧ ps_on_error ps ≠ PlanOnError.FAIL_EXECUTION).

Lemma dependency_progression_complete_spec dep dependent :
  dependency_progression_complete dep (Some dependent) = true ↔ unblocks dep dependent.
Proof.
  unfold dependency_progression_complete, unblocks.
  set (entry := is_some (es_parent_step_id dependent) && _ && _ && _).
  assert (entry = true ↔ es_parent_step_id dependent = Some (es_id dep) ∧
            es_step_type dep = StepType.LOOP ∧ es_status dep = StepStatus.RUNNING) as <-.
  { unfold entry. rewrite !andb_true_iff, !bool_decide_eq_true.
    destruct (es_parent_step_id dependent); simpl; intuition congruence. }
  destruct entry; [tauto|]. case_bool_decide as Hs; [tauto|].
  assert (∀ o, bool_decide (o ∈ continuable_on_error) = true ↔ o ≠ PlanOnError.FAIL_EXECUTION) as Hc
    by (intros []; rewrite bool_decide_eq_true; unfold continuable_on_error;
        rewrite !elem_of_cons, elem_of_nil; intuition congruence).
  unfold plan_step_for, is_continuable_known_failure.
  destruct (is_intentional_conditional_skip dep) eqn:Ek.
  - unfold is_intentional_conditional_skip in Ek. inv_res. split; [done|].
    intros [?|[?|[Hf _]]]; [done..|]. unfold known_failure_statuses in Hf.
    rewrite !elem_of_cons, elem_of_nil in Hf. intuition congruence.
  - destruct (validate_step (es_step_snapshot dep)) as [ps|]; simpl.
    + rewrite andb_true_iff, Hc, bool_decide_eq_true. naive_solver.
    + naive_solver.
Qed.

Lemma deps_core_spec step dag by_key :
  (skip ← has_intentional_skip_dependency step dag by_key;
   if skip : bool then Ok false else direct_deps_progressed step dag by_key) = Ok true ↔
  ∀ d, d ∈ dag_deps dag step → ∃ dep, dict_get d by_key = Some dep ∧
    is_intentional_conditional_skip dep = false ∧ unblocks dep step.
Proof.
  unfold has_intentional_skip_dependency, direct_deps_progressed, dict_item.
  rewrite bind_Ok. split.
  - intros ([] & Hskip & Hrun); [done|]. rewrite res_any_Ok_false in Hskip.
    rewrite res_all_Ok_true in Hrun. intros d Hd. specialize (Hskip d Hd). specialize (Hrun d Hd).
    destruct (dict_get d by_key) as [dep|]; [|done]. simpl in *. exists dep. split; [done|].
    split; [congruence|]. apply dependency_progression_complete_spec. congruence.
  - intros Hd. exists false. rewrite res_any_Ok_false, res_all_Ok_true.
    split; intros d Hin; destruct (Hd d Hin) as (dep & Hdep & Hns & Hub); rewrite Hdep; simpl.
    + by rewrite Hns.
    + f_equal. by apply dependency_progression_complete_spec.
Qed.

Lemma guarded_true (c : bool) (r : res bool) :
  (if negb c then Ok false else r) = Ok true ↔ c = true ∧ r = Ok true.
Proof. destruct c; simpl; naive_solver. Qed.

(** Every direct dependency has a row, was not skipped on purpose, and unblocks
    the step. *)
Definition deps_unblocked (step : execution_step) (dag : tool_join_dag) (by_key : dict execution_step) : Prop :=
  ∀ d, d ∈ dag_deps dag step → ∃ dep, dict_get d by_key = Some dep ∧
    is_intentional_conditional_skip dep = false ∧ unblocks dep step.

(** When a step may start.  A TOOL, CONDITION, APPROVAL or LOOP step is
    eligible exactly when it is PENDING, every direct dependency has a row that
    succeeded or failed under a continuing error policy (or is its own running
    LOOP) and none was skipped on purpose; a TOOL or CONDITION inside a LOOP
    body further needs its parent LOOP RUNNING, and a LOOP must be top-level. *)
Theorem structurally_eligible_spec step dag by_key :
  (tool_structurally_eligible step dag by_key = Ok true ↔
     es_status step = StepStatus.PENDING ∧ es_step_type step = StepType.TOOL ∧
     parent_loop_running_if_body step by_key = true ∧ deps_unblocked step dag by_key) ∧
  (condition_structurally_eligible step dag by_key = Ok true ↔
     es_status step = StepStatus.PENDING ∧ es_step_type step = StepType.CONDITION ∧
     parent_loop_running_if_body step by_key = true ∧ deps_unblocked step dag by_key) ∧
  (approval_structurally_eligible step dag by_key = Ok true ↔
     es_status step = StepStatus.PENDING ∧ es_step_type step = StepType.APPROVAL ∧
     deps_unblocked step dag by_key) ∧
  (loop_structurally_eligible step dag by_key = Ok true ↔
     es_status step = StepStatus.PENDING ∧ es_step_type step = StepType.LOOP ∧
     es_parent_step_id step = None ∧ deps_unblocked step dag by_key).
Proof.
  unfold tool_structurally_eligible, condition_structurally_eligible,
    approval_structurally_eligible, loop_structurally_eligible.
  rewrite <- (negb_involutive (is_some (es_parent_step_id step))).
  rewrite !guarded_true, !bool_decide_eq_true, !deps_core_spec. unfold deps_unblocked.
  destruct (es_parent_step_id step); simpl; intuition congruence.
Qed.

(** A JOIN fires only behind a full barrier: it is ready exactly when it is
    PENDING, its parent LOOP (if any) is RUNNING, it has dependencies, and all
    of them have rows in a terminal status. *)
Theorem join_barrier_ready_spec step dag by_key :
  join_barrier_ready step dag by_key = Ok true ↔
  es_status step = StepStatus.PENDING ∧ es_step_type step = StepType.JOIN ∧
  parent_loop_running_if_body step by_key = true ∧ dag_deps dag step ≠ [] ∧
  ∀ d, d ∈ dag_deps dag step → ∃ dep, dict_get d by_key = Some dep ∧
    es_status dep ∈ join_barrier_terminal.
Proof.
  unfold join_barrier_ready. rewrite !guarded_true, !bool_decide_eq_true.
  do 3 apply and_iff_compat_l. destruct (dag_deps dag step) as [|d0 ds]; [naive_solver|].
  simpl is_nil. cbv iota. rewrite res_all_Ok_true. split.
  - intros Hd. split; [done|]. intros d Hin. specialize (Hd d Hin). unfold dict_item in Hd.
    destruct (dict_get d by_key) as [dep|]; [|done]. simpl in Hd. exists dep. split; [done|].
    injection Hd as Hd. by apply bool_decide_eq_true in Hd.
  - intros [_ Hd] d Hin. destruct (Hd d Hin) as (dep & Hdep & Ht). unfold dict_item. rewrite Hdep.
    simpl. f_equal. by apply bool_decide_eq_true.
Qed.
End properties.

(** The JOIN policies.  ALL_SUCCESS succeeds iff every dependency
    succeeded, ANY_SUCCESS iff one did, ALL_COMPLETE always; a JOIN that does
    not succeed FAILS with JOIN_POLICY_UNSATISFIED, and no other outcome or
    error is possible for a known policy. *)
Theorem evaluate_join_policy_spec pol ss :
  let wins := match pol with
              | JoinPolicy.ALL_SUCCESS => Forall (λ s, s = StepStatus.SUCCEEDED) ss
              | JoinPolicy.ALL_COMPLETE => True
              | JoinPolicy.ANY_SUCCESS => StepStatus.SUCCEEDED ∈ ss
              end in
  (wins ∧ evaluate_join_policy (join_policy_value pol) ss = Ok (StepStatus.SUCCEEDED, None)) ∨
  (¬ wins ∧ evaluate_join_policy (join_policy_value pol) ss
            = Ok (StepStatus.FAILED, Some "JOIN_POLICY_UNSATISFIED")).
Proof.
  destruct pol; unfold evaluate_join_policy; simpl.
  - destruct (forallb _ ss) eqn:E.
    + left. split; [|done]. apply Forall_forall. rewrite forallb_elem in E.
      intros s Hs. specialize (E s Hs). by inv_res.
    + right. split; [|done]. intros Hf. rewrite Forall_forall in Hf.
      apply not_true_iff_false in E. apply E, forallb_elem. intros s Hs. apply bool_decide_eq_true. auto.
  - by left.
  - destruct (existsb _ ss) eqn:E.
    + left. apply existsb_elem in E as (s & Hs & Hb). inv_res. by subst s.
    + right. split; [|done]. intros Hin. rewrite existsb_elem_false in E. specialize (E _ Hin).
      by inv_res.
Qed.

(** ** Cleanup *)
Lemma update_rows_get p f by_key k :
  dict_get k (update_rows p f by_key).1 = (λ s, if p s then f s else s) <$> dict_get k by_key.
Proof. induction by_key as [|[k' s] d IH]; simpl; [done|]. by case_decide. Qed.

(** The DAG-wide stop leaves nothing that could still start.  After
    [skip_all_pending] and [cancel_unused_ready_tools], a PENDING row is SKIPPED
    and a READY TOOL that never started is CANCELLED, both with
    UPSTREAM_EXECUTION_STOPPED and one more [lock_version]; every other row is
    exactly as before; so no row is PENDING and none is an unused READY TOOL. *)
Theorem stop_cleanup_spec by_key now k :
  let rows := (cancel_unused_ready_tools (skip_all_pending by_key now).1 now).1 in
  dict_get k rows =
    (λ s, if bool_decide (es_status s = StepStatus.PENDING)
          then finish_step StepStatus.SKIPPED "UPSTREAM_EXECUTION_STOPPED"
                 "Upstream Execution stopped; downstream Step was not started." now s
          else if unused_ready_tool s
          then finish_step StepStatus.CANCELLED "UPSTREAM_EXECUTION_STOPPED"
                 "Upstream Execution stopped before TOOL Attempt start." now s
          else s) <$> dict_get k by_key ∧
  ∀ s, dict_get k rows = Some s → es_status s ≠ StepStatus.PENDING ∧ unused_ready_tool s = false.
Proof.
  intros rows. assert (∀ st c m t, st ≠ StepStatus.READY → unused_ready_tool (finish_step st c m now t) = false) as Hfin.
  { intros st c m t Hst. unfold unused_ready_tool. simpl. rewrite (bool_decide_eq_false_2 (st = _)) by done.
    simpl. by rewrite orb_true_r. }
  assert (dict_get k rows = (λ s, if bool_decide (es_status s = StepStatus.PENDING)
          then finish_step StepStatus.SKIPPED "UPSTREAM_EXECUTION_STOPPED"
                 "Upstream Execution stopped; downstream Step was not started." now s
          else if unused_ready_tool s
          then finish_step StepStatus.CANCELLED "UPSTREAM_EXECUTION_STOPPED"
                 "Upstream Execution stopped before TOOL Attempt start." now s
          else s) <$> dict_get k by_key) as Hget.
  { unfold rows, cancel_unused_ready_tools, skip_all_pending. rewrite !update_rows_get.
    destruct (dict_get k by_key) as [s|]; [|done]. simpl. f_equal.
    case_bool_decide; [by rewrite Hfin by done|done]. }
  split; [done|]. intros s Hs. rewrite Hget in Hs.
  destruct (dict_get k by_key) as [s0|]; [|done]. simpl in Hs. injection Hs as <-.
  case_bool_decide as Hp; [split; [done|by apply Hfin]|].
  destruct (unused_ready_tool s0) eqn:Eu; [split; [done|by apply Hfin]|done].
Qed.

(** ** The stop cause *)
Lemma stop_cause_leb_spec a b :
  stop_cause_leb a b = true ↔
  let pa := stop_cause_precedence (sc_kind a) in let pb := stop_cause_precedence (sc_kind b) in
  (pa < pb ∨ pa = pb ∧ (sc_plan_index a < sc_plan_index b ∨
    sc_plan_index a = sc_plan_index b ∧ str_leb (sc_step_key a) (sc_step_key b) = true))%Z.
Proof.
  unfold stop_cause_leb. simpl.
  by rewrite !orb_true_iff, !andb_true_iff, !orb_true_iff, !andb_true_iff, !Z.ltb_lt, !Z.eqb_eq.
Qed.

(** The stop cause is deterministic: it is one of the causes and comes
    before every other one in the order (FATAL, then timed out, then failed;
    then plan order; then key), whatever the order in which a wave finished;
    there is none only when there are no causes. *)
Theorem pick_stop_cause_least causes :
  match pick_stop_cause causes with
  | None => causes = []
  | Some c => c ∈ causes ∧ ∀ d, d ∈ causes → stop_cause_leb c d = true
  end.
Proof.
  unfold pick_stop_cause. destruct (sort_by stop_cause_leb causes) as [|c l] eqn:E.
  - apply Permutation_nil. rewrite <- (sort_by_perm stop_cause_leb causes). by rewrite E.
  - split; [rewrite <- (sort_by_perm stop_cause_leb causes), E; apply list_elem_of_here|].
    eapply sort_by_head; [| |exact E].
    + intros a b. rewrite !stop_cause_leb_spec. simpl.
      destruct (str_leb_total (sc_step_key a) (sc_step_key b)) as [->| ->];
        generalize (stop_cause_precedence (sc_kind a)) (stop_cause_precedence (sc_kind b));
        intros pa pb; destruct (Z.lt_trichotomy pa pb) as [?|[?|?]];
        destruct (Z.lt_trichotomy (sc_plan_index a) (sc_plan_index b)) as [?|[?|?]]; intuition lia.
    + intros x y z. rewrite !stop_cause_leb_spec. simpl.
      pose proof (str_leb_trans (sc_step_key x) (sc_step_key y) (sc_step_key z)) as Ht.
      revert Ht. generalize (str_leb (sc_step_key x) (sc_step_key y) = true) as P.
      generalize (str_leb (sc_step_key y) (sc_step_key z) = true) as Q.
      generalize (str_leb (sc_step_key x) (sc_step_key z) = true) as R. intros R Q P.
      intros Ht [?|(? & [?|(? & ?)])] [?|(? & [?|(? & ?)])]; try (left; lia); right;
        (split; [lia|]); try (left; lia); right; (split; [lia|auto]).
Qed.
