(* ===== verification/BindingResolver.v ===== *)
(** Ancestors of a step, and the resolution of its bindings. *)
From S2P Require Import Prelude PyStr PyDict Json JsonPointer PyUuid CanonicalHash Domain LoopRuntime Completion Kahn.

(** * Transitive dependency ancestors ([_transitive_ancestors], binding_resolver.py)

    A memoized depth-first walk of [depends_on].  The cache is passed through;
    the walk of a cyclic plan does not end in Python but in [RecursionError],
    which the fuel of the model stands for. *)

Abbreviation ancestor_cache := (dict (gset string)).

Definition recursion_error : py_error := PyException "RecursionError".

(** [for dep in deps.get(sid, \[\]): out.add(dep); out |= walk(dep)] *)
Definition add_ancestors (walk : ancestor_cache → string → res (ancestor_cache * gset string))
    (st : ancestor_cache * gset string) (dep : string) : res (ancestor_cache * gset string) :=
  let '(cache, out) := st in
  let out := {[ dep ]} ∪ out in
  w ← walk cache dep;
  Ok (w.1, out ∪ w.2).

Fixpoint ancestors_walk (fuel : nat) (deps : dict (list string)) (cache : ancestor_cache)
    (sid : string) : res (ancestor_cache * gset string) :=
  match dict_get sid cache with
  | Some s => Ok (cache, s)
  | None =>
      match fuel with
      | O => Err recursion_error
      | S fuel =>
          r ← res_fold (add_ancestors (ancestors_walk fuel deps)) (default [] (dict_get sid deps))
                (cache, ∅);
          Ok (dict_set sid r.2 r.1, r.2)
      end
  end.

(** [{s.id: \[d for d in s.depends_on if d in ids\] for s in plan.steps}] *)
Definition plan_deps (p : plan) : dict (list string) :=
  let ids := ps_id <$> pl_steps p in
  dict_comp ps_id (λ s, filter (λ d, d ∈ ids) (ps_depends_on s)) (pl_steps p).

(** The set [ids] is walked in the order of the plan; a memoized walk gives
    every key the same set in any order. *)
Definition transitive_ancestors (p : plan) : res ancestor_cache :=
  res_fold (λ cache sid, r ← ancestors_walk (S (length (pl_steps p))) (plan_deps p) cache sid; Ok r.1)
           (dict_keys (plan_deps p)) [].

(** ** Specification *)
Section spec.
Context (deps : dict (list string)).

(** [b] is a direct dependency of [a]; [ancestor] is its transitive closure. *)
Definition depends (a b : string) : Prop := b ∈ default [] (dict_get a deps).
Definition ancestor (k x : string) : Prop := tc depends k x.

Definition cache_sound (cache : ancestor_cache) : Prop :=
  ∀ k s, dict_get k cache = Some s → ∀ x, x ∈ s ↔ ancestor k x.

Definition cache_extends (c c' : ancestor_cache) : Prop :=
  ∀ k, k ∈ dict_keys c → k ∈ dict_keys c'.

Lemma ancestor_step k x : ancestor k x ↔ ∃ d, depends k d ∧ (x = d ∨ ancestor d x).
Proof.
  split.
  - destruct 1 as [k x Hd|k d x Hd Hx]; [by exists x; auto|exists d; auto].
  - intros (d & Hd & [->|Hx]); [by apply tc_once|by eapply tc_l].
Qed.

(** A rank that decreases along dependencies bounds the depth of the walk. *)
Lemma ancestors_walk_correct (rank : string → nat) fuel cache sid :
  (∀ a b, depends a b → (rank b < rank a)%nat) → (rank sid < fuel)%nat → cache_sound cache →
  ∃ cache' out, ancestors_walk fuel deps cache sid = Ok (cache', out) ∧ cache_sound cache' ∧
    cache_extends cache cache' ∧ sid ∈ dict_keys cache' ∧ ∀ x, x ∈ out ↔ ancestor sid x.
Proof.
  intros Hrank. revert cache sid. induction fuel as [|fuel IH]; intros cache sid Hr Hc; [lia|].
  simpl. destruct (dict_get sid cache) as [s|] eqn:Es.
  { exists cache, s. split; [done|]. split; [done|]. split; [by intros k|].
    split; [apply dict_get_is_Some; eauto|by apply Hc]. }
  assert (∀ ds cache out, (∀ d, d ∈ ds → depends sid d) → cache_sound cache →
    ∃ cache' out', res_fold (add_ancestors (ancestors_walk fuel deps)) ds (cache, out) = Ok (cache', out') ∧
      cache_sound cache' ∧ cache_extends cache cache' ∧
      ∀ x, x ∈ out' ↔ x ∈ out ∨ ∃ d, d ∈ ds ∧ (x = d ∨ ancestor d x)) as Hfold.
  { induction ds as [|d ds IHd]; intros c out Hds Hsound.
    - exists c, out. split; [done|]. split; [done|]. split; [by intros k|].
      intros x. split; [by left|]. by intros [?|(d & ?%elem_of_nil & _)].
    - assert (rank d < rank sid)%nat as Hd by apply Hrank, Hds, list_elem_of_here.
      destruct (IH c d) as (c1 & o1 & Hw & Hs1 & He1 & _ & Ho1); [lia|done|].
      destruct (IHd c1 ({[ d ]} ∪ out ∪ o1)) as (c2 & o2 & Hf & Hs2 & He2 & Ho2);
        [intros x Hx; by apply Hds, list_elem_of_further|done|].
      exists c2, o2. cbn [res_fold]. unfold add_ancestors at 2. rewrite Hw. cbn [mbind res_bind fst snd].
      rewrite Hf. split; [done|]. split; [done|]. split; [intros k Hk; by apply He2, He1|].
      intros x. rewrite Ho2, !elem_of_union, elem_of_singleton, Ho1. setoid_rewrite elem_of_cons.
      naive_solver. }
  destruct (Hfold (default [] (dict_get sid deps)) cache ∅) as (c & out & Hf & Hs & He & Ho); [done|done|].
  rewrite Hf. cbn [mbind res_bind fst snd].
  assert (∀ x, x ∈ out ↔ ancestor sid x) as Hout.
  { intros x. rewrite Ho, ancestor_step, elem_of_empty. unfold depends. naive_solver. }
  exists (dict_set sid out c), out. split; [done|]. split; [|split; [|split]].
  - intros k s Hk. destruct (decide (k = sid)) as [->|Hne].
    + rewrite dict_get_set_eq in Hk. by injection Hk as <-.
    + rewrite dict_get_set_ne in Hk by done. by apply Hs.
  - intros k Hk. apply dict_keys_set_elem. right. by apply He.
  - apply dict_keys_set_elem. by left.
  - done.
Qed.
End spec.

(** A topological order of the keys gives the rank: the position. *)
Lemma topological_rank deps o :
  topological deps o → ∃ rank : string → nat,
    (∀ a b, depends deps a b → (rank b < rank a)%nat) ∧ ∀ k, k ∈ dict_keys deps → (rank k < length deps)%nat.
Proof.
  intros [Hp Ho].
  set (pos := fix pos (l : list string) (k : string) : nat :=
         match l with [] => O | x :: l => if decide (x = k) then O else S (pos l k) end).
  assert (∀ l k, k ∈ l → ∃ a b, l = a ++ k :: b ∧ pos l k = length a ∧ k ∉ a) as Hsplit.
  { induction l as [|x l IH]; intros k Hk; [by apply elem_of_nil in Hk|]. simpl.
    destruct (decide (x = k)) as [->|Hne]; [exists [], l; split; [done|split; [done|apply not_elem_of_nil]]|].
    apply elem_of_cons in Hk as [->|Hk]; [done|].
    destruct (IH k Hk) as (a & b & -> & -> & Hna). exists (x :: a), b. split; [done|]. split; [done|].
    apply not_elem_of_cons. done. }
  assert (∀ a b k, k ∈ a → (pos (a ++ b) k < length a)%nat) as Hbefore.
  { induction a as [|x a IH]; intros b k Hk; [by apply elem_of_nil in Hk|]. simpl.
    destruct (decide (x = k)); [lia|]. apply elem_of_cons in Hk as [->|Hk]; [done|].
    specialize (IH b k Hk). lia. }
  assert (length o = length deps) as Hlen
    by (rewrite Hp; unfold dict_keys; by rewrite length_fmap).
  exists (pos o). split.
  - intros a b Hab. assert (a ∈ o) as Ha.
    { rewrite Hp. apply dict_get_is_Some. unfold depends in Hab.
      destruct (dict_get a deps); [eauto|]. simpl in Hab. by apply elem_of_nil in Hab. }
    destruct (Hsplit o a Ha) as (l & r & Hl & -> & _).
    assert (b ∈ l) as Hb by (eapply Ho; [exact Hl|exact Hab]).
    rewrite Hl. by apply Hbefore.
  - intros k Hk. rewrite <- Hp in Hk. destruct (Hsplit o k Hk) as (a & b & E & -> & _).
    rewrite <- Hlen, E, length_app. simpl. lia.
Qed.

(** On an acyclic plan [_transitive_ancestors] returns, for every step id,
    exactly the ids reachable through one or more [depends_on] edges between
    plan steps; the memoized walk never exhausts its stack. *)
Theorem transitive_ancestors_spec p o :
  topological (plan_deps p) o →
  ∃ cache, transitive_ancestors p = Ok cache ∧
    ∀ k, k ∈ ps_id <$> pl_steps p →
      ∃ s, dict_get k cache = Some s ∧ ∀ x, x ∈ s ↔ ancestor (plan_deps p) k x.
Proof.
  intros Hto. destruct (topological_rank _ o Hto) as (rank & Hrank & Hbound).
  assert (length (plan_deps p) ≤ length (pl_steps p))%nat as Hlen.
  { assert (length (dict_keys (plan_deps p)) ≤ length (ps_id <$> pl_steps p))%nat as H.
    { apply submseteq_length, NoDup_submseteq; [apply dict_comp_wf|]. intros k. unfold plan_deps. by rewrite dict_comp_keys. }
    unfold dict_keys in H. rewrite !length_fmap in H. done. }
  unfold transitive_ancestors. set (f := λ _ _, _).
  assert (∀ ks cache, (∀ k, k ∈ ks → k ∈ dict_keys (plan_deps p)) → cache_sound (plan_deps p) cache →
    ∃ cache', res_fold f ks cache = Ok cache' ∧ cache_sound (plan_deps p) cache' ∧
      cache_extends cache cache' ∧ ∀ k, k ∈ ks → k ∈ dict_keys cache') as Hfold.
  { induction ks as [|k ks IH]; intros c Hks Hc.
    - exists c. split; [done|]. split; [done|]. split; [by intros k|]. by intros k ?%elem_of_nil.
    - destruct (ancestors_walk_correct (plan_deps p) rank (S (length (pl_steps p))) c k)
        as (c1 & o1 & Hw & Hs1 & He1 & Hk1 & _); [done| |done|].
      { pose proof (Hbound k (Hks k (list_elem_of_here _ _))). lia. }
      destruct (IH c1) as (c2 & Hf & Hs2 & He2 & Hk2);
        [intros x Hx; by apply Hks, list_elem_of_further|done|].
      exists c2. cbn [res_fold]. unfold f at 2. rewrite Hw. cbn [mbind res_bind fst]. rewrite Hf.
      split; [done|]. split; [done|]. split; [intros x Hx; by apply He2, He1|].
      intros x [->|Hx]%elem_of_cons; [by apply He2|by apply Hk2]. }
  destruct (Hfold (dict_keys (plan_deps p)) []) as (cache & Hf & Hs & _ & Hk); [done|done|].
  exists cache. split; [done|]. intros k Hin.
  assert (k ∈ dict_keys cache) as [s Hsome]%dict_get_is_Some by (apply Hk; unfold plan_deps; by rewrite dict_comp_keys).
  exists s. split; [done|]. by apply Hs.
Qed.

(** * Runtime binding resolution (execution/binding_resolver.py)

    Every [BindingKind] resolved against the execution's durable evidence.
    [Ok (Some v)] is a value (JSON [null] included), [Ok None] the MISSING
    sentinel, which only a caller with [missing_ok] sees. *)

Definition LOOP_COLLECTION_TYPE_MISMATCH : string := "LOOP_COLLECTION_TYPE_MISMATCH".

(** [build_execution_context_projection] *)
Definition build_execution_context_projection (e : execution) : json :=
  JObj [("execution_id", JStr (uuid_str (ex_id e)));
        ("source_type", JStr (ex_source_type e));
        ("trigger_type", JStr (ex_trigger_type e));
        ("trace_id", opt_json JStr (ex_trace_id e))].

(** [binding.kind in _DYNAMIC_KINDS] *)
Definition is_dynamic_binding (b : plan_binding) : bool :=
  match b with
  | PlanInputBinding _ | PlanStepOutputBinding _ _ | PlanExecutionContextBinding _
  | PlanLoopContextBinding _ => true
  | PlanLiteralBinding _ | PlanSecretRefBinding _ => false
  end.

Definition binding_kinds_include_dynamic (bindings : dict plan_binding) : bool :=
  existsb is_dynamic_binding (dict_values bindings).

(** ** SECRET_REF values *)
Definition SECRET_REF : string := "SECRET_REF".

Definition secret_ref_resolved (secret_id : uuid) : json :=
  JObj [("kind", JStr SECRET_REF); ("secret_id", JStr (uuid_str secret_id))].

(** [_parse_secret_id] *)
Definition parse_secret_id (value : json) : option uuid :=
  match value with JStr s => uuid_parse s | _ => None end.

Definition is_secret_ref_value (value : json) : bool :=
  match value with
  | JObj d =>
      if negb (length d =? 2)%nat then false
      else if negb (py_eq (get_or_none "kind" d) (JStr SECRET_REF)) then false
      else match parse_secret_id (get_or_none "secret_id" d) with Some _ => true | None => false end
  | _ => false
  end.

Definition canonicalize_secret_ref_value (value : json) : res json :=
  match value with
  | JObj d =>
      _ ← raise_if (negb (py_eq (get_or_none "kind" d) (JStr SECRET_REF)))
            (precondition_failed "SECRET_REF value kind must be SECRET_REF.");
      _ ← raise_if (negb (same_set (dict_keys d) ["kind"; "secret_id"]))
            (precondition_failed "SECRET_REF value must contain exactly kind and secret_id.");
      secret_id ← of_option (precondition_failed "SECRET_REF secret_id must be a valid UUID string.")
                            (parse_secret_id (get_or_none "secret_id" d));
      Ok (secret_ref_resolved secret_id)
  | _ => Err (precondition_failed "SECRET_REF value must be an object.")
  end.

(** [isinstance(value, dict) and value.get("kind") == SECRET_REF] *)
Definition secret_ref_shaped (value : json) : bool :=
  match value with
  | JObj d => py_eq (get_or_none "kind" d) (JStr SECRET_REF)
  | _ => false
  end.

(** [if value is MISSING: if missing_ok: return MISSING; raise]; a present
    value goes on. *)
Definition require_present (missing_ok : bool) (message : string) (value : option json)
    (k : json → res (option json)) : res (option json) :=
  match value with
  | Some v => k v
  | None => if missing_ok then Ok None else Err (precondition_failed message)
  end.

(** ** PLAN_INPUT *)
(** [_assert_plan_input_secret_safe] *)
Definition assert_root_secret_safe (root : dict json) (item : string * plan_input_definition) : res unit :=
  let '(key, decl) := item in
  if negb (pi_secret decl) then Ok tt
  else match dict_get key root with
       | None => raise_if (pi_required decl)
                   (precondition_failed "PLAN_INPUT '/' required secret input {key!r} is MISSING.")
       | Some v => raise_if (negb (is_secret_ref_value v))
                     (precondition_failed "PLAN_INPUT '/' secret input {key!r} is not a canonical SECRET_REF reference.")
       end.

(** [path.split("/", 2)\[1\]], decoded *)
Definition first_input_token (path : string) : string :=
  decode_pointer_token (nth 1 (split_on SLASH path) "").

Definition assert_plan_input_secret_safe (p : plan) (path : string) (root : dict json) (value : json)
    : res unit :=
  if String.eqb path "/" then res_iter (assert_root_secret_safe root) (pl_inputs p)
  else
    match dict_get (first_input_token path) (pl_inputs p) with
    | None => Ok tt
    | Some decl =>
        if negb (pi_secret decl) then Ok tt
        else raise_if (negb (is_secret_ref_value value))
               (precondition_failed "PLAN_INPUT {path!r} is declared secret but is not a canonical SECRET_REF reference.")
    end.

(** [_project_plan_input_root] *)
Definition project_input (p : plan) (item : string * json) : res (string * json) :=
  let '(key, value) := item in
  match dict_get key (pl_inputs p) with
  | Some decl =>
      if pi_secret decl || secret_ref_shaped value
      then v ← canonicalize_secret_ref_value value; Ok (key, v) else Ok (key, value)
  | None =>
      if secret_ref_shaped value then v ← canonicalize_secret_ref_value value; Ok (key, v)
      else Ok (key, value)
  end.

Definition project_plan_input_root (p : plan) (root : dict json) : res json :=
  items ← res_map (project_input p) root; Ok (JObj items).

(** [_resolve_plan_input] *)
Definition resolve_plan_input (e : execution) (p : plan) (path : string) (missing_ok : bool)
    : res (option json) :=
  match ex_input_snapshot e with
  | JNull => Err (precondition_failed "Execution.input_snapshot is missing for PLAN_INPUT.")
  | JObj root =>
      value ← resolve_json_pointer (JObj root) path;
      require_present missing_ok "PLAN_INPUT path {path!r} is MISSING (not JSON null)." value (λ v,
        _ ← assert_plan_input_secret_safe p path root v;
        if String.eqb path "/" then r ← project_plan_input_root p root; Ok (Some r)
        else if secret_ref_shaped v then r ← canonicalize_secret_ref_value v; Ok (Some r)
        else Ok (Some v))
  | _ => Err (precondition_failed "Execution.input_snapshot must be a JSON object.")
  end.

Section resolver.
Context `{PS : PlanSchema}.

(** ** STEP_OUTPUT *)
Definition ancestors_of (ancestors : ancestor_cache) (k : string) : gset string :=
  default ∅ (dict_get k ancestors).

(** The top-level branch of [_resolve_step_output] *)
Definition top_level_output_source (step_id : string) (owning_step : execution_step)
    (by_key : dict execution_step) (ancestors : ancestor_cache) (ownership : loop_body_ownership)
    : res execution_step :=
  _ ← raise_if (dict_has step_id (body_to_loop ownership))
        (precondition_failed "STEP_OUTPUT source {binding.step_id!r} is a LOOP body template and cannot be referenced from a top-level Step.");
  source ← of_option (precondition_failed "STEP_OUTPUT source step {binding.step_id!r} is missing.")
                     (dict_get step_id by_key);
  _ ← raise_if (negb (bool_decide (es_parent_step_id source = None)))
        (precondition_failed "STEP_OUTPUT source {binding.step_id!r} must be a top-level ExecutionStep.");
  _ ← raise_if (negb (bool_decide (step_id ∈ ancestors_of ancestors (es_step_key owning_step))))
        (precondition_failed "STEP_OUTPUT source {binding.step_id!r} is not a transitive dependency ancestor of {owning_step.step_key!r}.");
  Ok source.

(** The same-body branch of [_resolve_body_instance_step_output_source] *)
Definition same_body_source (step_id owning_template : string) (owning_step : execution_step)
    (by_key : dict execution_step) (ancestors : ancestor_cache) : res execution_step :=
  _ ← raise_if (match es_iteration_no owning_step with Some n => (n <? 1)%Z | None => true end)
        (precondition_failed "STEP_OUTPUT same-body resolve requires iteration_no >= 1.");
  _ ← raise_if (negb (bool_decide (step_id ∈ ancestors_of ancestors owning_template)))
        (precondition_failed "STEP_OUTPUT source {binding.step_id!r} is not a same-iteration dependency ancestor of {owning_template!r}.");
  let siblings := filter (λ s, es_parent_step_id s = es_parent_step_id owning_step ∧
                               es_iteration_no s = es_iteration_no owning_step) (dict_values by_key) in
  named ← res_map (λ s, t ← template_id_from_step_snapshot s; Ok (t, s)) siblings;
  match filter (λ ts, ts.1 = step_id) named with
  | [] => Err (precondition_failed "STEP_OUTPUT same-body source {binding.step_id!r} is missing for iteration_no={owning_step.iteration_no}.")
  | [ts] => Ok ts.2
  | _ => Err (precondition_failed "STEP_OUTPUT same-body source {binding.step_id!r} is ambiguous within the iteration.")
  end.

(** The outside-body branch *)
Definition outside_body_source (step_id parent_loop_id : string) (by_key : dict execution_step)
    (ancestors : ancestor_cache) : res execution_step :=
  let missing := precondition_failed "STEP_OUTPUT outside-body source step {binding.step_id!r} is missing." in
  source ← of_option missing (dict_get step_id by_key);
  _ ← raise_if (negb (bool_decide (es_parent_step_id source = None))) missing;
  _ ← raise_if (negb (bool_decide (step_id ∈ ancestors_of ancestors parent_loop_id)))
        (precondition_failed "STEP_OUTPUT source {binding.step_id!r} is not a transitive dependency ancestor of owning LOOP {parent_loop_id!r}.");
  Ok source.

(** [_resolve_body_instance_step_output_source] *)
Definition body_instance_output_source (step_id : string) (owning_step : execution_step)
    (by_key : dict execution_step) (ancestors : ancestor_cache) (owners : dict string)
    : res execution_step :=
  owning_template ← template_id_from_step_snapshot owning_step;
  parent_loop_id ← of_option
    (precondition_failed "STEP_OUTPUT consumer template {owning_template!r} is not a LOOP body template.")
    (dict_get owning_template owners);
  if bool_decide (dict_get step_id owners = Some parent_loop_id)
  then same_body_source step_id owning_template owning_step by_key ancestors
  else outside_body_source step_id parent_loop_id by_key ancestors.

(** [_assert_step_output_source_lineage] *)
Definition assert_step_output_source_lineage (step_id : string) (source : execution_step) (p : plan)
    : res unit :=
  let invalid := precondition_failed "STEP_OUTPUT source {binding.step_id!r} step_snapshot is invalid." in
  let other_id := precondition_failed "STEP_OUTPUT source snapshot id {snapshot_id!r} does not match binding.step_id {binding.step_id!r}." in
  _ ← match es_parent_step_id source with
      | None =>
          raise_if (negb (String.eqb (es_step_key source) step_id))
            (precondition_failed "STEP_OUTPUT source step_key {source.step_key!r} does not match binding.step_id {binding.step_id!r}.")
      | Some _ =>
          snapshot_id ← catch_any (template_id_from_step_snapshot source) (Err invalid);
          raise_if (negb (String.eqb snapshot_id step_id)) other_id
      end;
  expected ← of_option (precondition_failed "STEP_OUTPUT source {binding.step_id!r} has no matching Plan Step.")
               (find_first (λ ps, String.eqb (ps_id ps) step_id) (pl_steps p));
  parsed ← of_option invalid (validate_step (es_step_snapshot source));
  _ ← raise_if (negb (String.eqb (ps_id parsed) step_id)) other_id;
  _ ← raise_if (negb (py_eq (dump_step expected) (es_step_snapshot source)))
        (precondition_failed "STEP_OUTPUT source {binding.step_id!r} step_snapshot does not match Execution.plan_snapshot.");
  raise_if (negb (bool_decide (ps_type parsed = ps_type expected))
            || negb (String.eqb (ps_id parsed) (ps_id expected)))
    (precondition_failed "STEP_OUTPUT source {binding.step_id!r} identity is inconsistent with the Plan projection.").

(** [_resolve_step_output] *)
Definition resolve_step_output (step_id path : string) (owning_step : execution_step)
    (by_key : dict execution_step) (p : plan) (ancestors : ancestor_cache) (missing_ok : bool)
    : res (option json) :=
  ownership ← build_loop_body_ownership p;
  source ← match es_parent_step_id owning_step with
           | None => top_level_output_source step_id owning_step by_key ancestors ownership
           | Some _ => body_instance_output_source step_id owning_step by_key ancestors
                         (body_to_loop ownership)
           end;
  _ ← assert_step_output_source_lineage step_id source p;
  _ ← raise_if (negb (bool_decide (es_execution_id source = es_execution_id owning_step)))
        (precondition_failed "STEP_OUTPUT source belongs to another Execution.");
  _ ← raise_if (negb (bool_decide (es_status source = StepStatus.SUCCEEDED)))
        (precondition_failed "STEP_OUTPUT source {binding.step_id!r} must be SUCCEEDED (got {source.status!r}).");
  _ ← raise_if (is_none (es_result_inline source))
        (precondition_failed "STEP_OUTPUT source {binding.step_id!r} has no result_inline.");
  value ← resolve_json_pointer (es_result_inline source) path;
  require_present missing_ok "STEP_OUTPUT path {binding.path!r} on {binding.step_id!r} is MISSING (not JSON null)."
    value (λ v, Ok (Some v)).

(** ** LOOP_CONTEXT *)
(** A binding of any kind but LOOP_CONTEXT: [resolve_binding] without the
    branch that resolves a LOOP's collection, whose binding is never one *)
Definition resolve_flat_binding (b : plan_binding) (e : execution) (owning_step : execution_step)
    (by_key : dict execution_step) (p : plan) (ancestors : ancestor_cache) (missing_ok : bool)
    : res (option json) :=
  match b with
  | PlanLiteralBinding value => Ok (Some value)
  | PlanSecretRefBinding secret_id => Ok (Some (secret_ref_resolved secret_id))
  | PlanInputBinding path => resolve_plan_input e p path missing_ok
  | PlanStepOutputBinding step_id path =>
      resolve_step_output step_id path owning_step by_key p ancestors missing_ok
  | PlanExecutionContextBinding path =>
      value ← resolve_json_pointer (build_execution_context_projection e) path;
      require_present missing_ok "EXECUTION_CONTEXT path {binding.path!r} is MISSING (not JSON null)."
        value (λ v, Ok (Some v))
  | PlanLoopContextBinding _ => Err (precondition_failed "LOOP collection binding must not use LOOP_CONTEXT.")
  end.

(** [_build_while_body_context] *)
Definition build_while_body_context (parent : execution_step) (parent_plan_step : plan_step)
    (cfg : loop_config) (by_key : dict execution_step) (iteration_no : Z) (p : plan) : res json :=
  previous ← (if (iteration_no =? 1)%Z then Ok JNull
              else build_previous_iteration_projection (dict_values by_key) (es_id parent)
                     (iteration_no - 1) (lc_body_step_ids cfg) (Some p));
  build_while_loop_context_projection (ps_id parent_plan_step) iteration_no (lc_max_iterations cfg) previous.

(** [_build_foreach_body_context] *)
Definition build_foreach_body_context (e : execution) (iteration_no : Z)
    (parent : execution_step) (parent_plan_step : plan_step) (cfg : loop_config)
    (by_key : dict execution_step) (p : plan) (ancestors : ancestor_cache) : res json :=
  binding ← of_option (precondition_failed "LOOP_CONTEXT requires FOR_EACH collection on parent LOOP.")
                      (lc_collection cfg);
  value ← resolve_flat_binding binding e parent by_key p ancestors false;
  match value with
  | Some (JArr collection) =>
      match es_resolved_input parent with
      | JObj parent_ri =>
          actual_hash ← hash_collection collection;
          let actual_size := Z.of_nat (length collection) in
          _ ← raise_if (negb (py_eq (get_or_none "collection_hash" parent_ri) (JStr actual_hash))
                        || negb (py_eq (get_or_none "collection_size" parent_ri) (JInt actual_size)))
                (precondition_failed "LOOP {parent_plan_step.id!r} collection hash/size drifted from pinned parent.resolved_input.");
          _ ← raise_if (actual_size <? iteration_no)%Z
                (precondition_failed "LOOP_CONTEXT iteration_no={owning_step.iteration_no} exceeds collection_size={actual_size}.");
          item ← of_option (PyException "IndexError") (collection !! Z.to_nat (iteration_no - 1));
          build_loop_context_projection (ps_id parent_plan_step) (loop_mode_value (lc_mode cfg))
            iteration_no item actual_size
      | _ => Err (precondition_failed "LOOP parent resolved_input is missing for LOOP_CONTEXT.")
      end
  | _ => Err (AppError LOOP_COLLECTION_TYPE_MISMATCH
                "LOOP {parent_plan_step.id!r} collection must resolve to a JSON array (got {type(collection).__name__})." 409)
  end.

(** The projection a body instance sees, after the lineage checks *)
Definition body_loop_context (e : execution) (owning_step : execution_step)
    (by_key : dict execution_step) (p : plan) (ancestors : ancestor_cache) (parent_id : uuid) : res json :=
  parent ← of_option (precondition_failed "LOOP_CONTEXT owning LOOP parent Step is missing.")
                     (step_with_id (dict_values by_key) parent_id);
  _ ← raise_if (negb (bool_decide (es_execution_id parent = es_execution_id owning_step)))
        (precondition_failed "LOOP_CONTEXT parent belongs to another Execution.");
  _ ← raise_if (negb (bool_decide (es_parent_step_id parent = None)))
        (precondition_failed "LOOP_CONTEXT parent must be a top-level LOOP Step.");
  _ ← raise_if (negb (bool_decide (es_step_type parent = StepType.LOOP)))
        (precondition_failed "LOOP_CONTEXT parent Step must be type LOOP.");
  match es_iteration_no owning_step with
  | None => Err (precondition_failed "LOOP_CONTEXT requires owning Step iteration_no >= 1.")
  | Some iteration_no =>
      _ ← raise_if (iteration_no <? 1)%Z
            (precondition_failed "LOOP_CONTEXT requires owning Step iteration_no >= 1.");
      let invalid := precondition_failed "LOOP_CONTEXT parent/child Plan snapshot is invalid." in
      parent_plan_step ← of_option invalid (validate_step (es_step_snapshot parent));
      child_plan_step ← of_option invalid (validate_step (es_step_snapshot owning_step));
      cfg ← of_option invalid (validate_loop_config (ps_config parent_plan_step));
      _ ← raise_if (negb (String.eqb (ps_id parent_plan_step) (es_step_key parent)))
            (precondition_failed "LOOP_CONTEXT parent step_key does not match Plan LOOP id.");
      _ ← raise_if (negb (bool_decide (ps_id child_plan_step ∈ lc_body_step_ids cfg)))
            (precondition_failed "LOOP_CONTEXT child template {child_plan_step.id!r} is not in LOOP {parent_plan_step.id!r} body_step_ids.");
      match lc_mode cfg with
      | LoopMode.WHILE => build_while_body_context parent parent_plan_step cfg by_key iteration_no p
      | LoopMode.FOR_EACH =>
          build_foreach_body_context e iteration_no parent parent_plan_step cfg by_key p ancestors
      end
  end.

(** [_resolve_loop_context]; [override] is the WHILE candidate projection. *)
Definition resolve_loop_context (path : string) (e : execution) (owning_step : execution_step)
    (by_key : dict execution_step) (p : plan) (ancestors : ancestor_cache) (missing_ok : bool)
    (override : option (dict json)) : res (option json) :=
  projection ← match override with
    | Some o => Ok (JObj o)
    | None =>
        match es_parent_step_id owning_step with
        | None => Err (precondition_failed "LOOP_CONTEXT is only valid inside a LOOP body instance (owning Step has no parent_step_id).")
        | Some parent_id => body_loop_context e owning_step by_key p ancestors parent_id
        end
    end;
  value ← resolve_json_pointer projection path;
  require_present missing_ok "LOOP_CONTEXT path {binding.path!r} is MISSING (not JSON null)."
    value (λ v, Ok (Some v)).

(** ** [resolve_binding] and [resolve] *)
Definition resolve_binding (b : plan_binding) (e : execution) (owning_step : execution_step)
    (by_key : dict execution_step) (p : plan) (ancestors : ancestor_cache) (missing_ok : bool)
    (override : option (dict json)) : res (option json) :=
  match b with
  | PlanLoopContextBinding path =>
      resolve_loop_context path e owning_step by_key p ancestors missing_ok override
  | _ => resolve_flat_binding b e owning_step by_key p ancestors missing_ok
  end.

(** One item of the loop of [resolve]; a MISSING value has raised. *)
Definition resolve_item (e : execution) (step : execution_step) (by_key : dict execution_step)
    (p : plan) (ancestors : ancestor_cache) (item : string * plan_binding) : res (string * json) :=
  v ← resolve_binding item.2 e step by_key p ancestors false None;
  v ← of_option (PyException "MISSING") v;
  Ok (item.1, v).

Definition resolve (e : execution) (step : execution_step) (steps : list execution_step)
    (bindings : dict plan_binding) (p : plan) : res (dict json) :=
  _ ← raise_if (negb (bool_decide (es_execution_id step = ex_id e)))
        (conflict "Step does not belong to Execution during Binding resolve.");
  let by_key := dict_comp es_step_key id steps in
  _ ← raise_if (match dict_get (es_step_key step) by_key with
                | Some s => negb (bool_decide (es_id s = es_id step))
                | None => true
                end) (conflict "Owning Step missing from Execution Step set.");
  ancestors ← transitive_ancestors p;
  items ← res_map (resolve_item e step by_key p ancestors) bindings;
  Ok (dict_of_pairs items).
End resolver.

(** ** Secret safety *)
Lemma secret_ref_resolved_is_ref u : uuid_ok u → is_secret_ref_value (secret_ref_resolved u) = true.
Proof.
  intros Hu. change (match uuid_parse (uuid_str u) with Some _ => true | None => false end = true).
  by rewrite uuid_parse_str.
Qed.

Lemma uuid_parse_ok s u : uuid_parse s = Some u → uuid_ok u.
Proof.
  unfold uuid_parse, uuid_ok. intros Hp. repeat (case_match; try done). simplify_eq.
  match goal with Hr : _ && _ = true |- _ => apply andb_true_iff in Hr as [?%Z.leb_le ?%Z.ltb_lt] end.
  lia.
Qed.

(** A canonical reference is what canonicalization returns. *)
Lemma canonicalize_secret_ref_Ok v w :
  canonicalize_secret_ref_value v = Ok w → ∃ u, uuid_ok u ∧ w = secret_ref_resolved u.
Proof.
  unfold canonicalize_secret_ref_value. destruct v; try done. intros Hrun. inv_res.
  eexists. split; [|done]. unfold parse_secret_id in *. case_match; try done. by eapply uuid_parse_ok.
Qed.

Lemma is_secret_ref_shaped v : is_secret_ref_value v = true → secret_ref_shaped v = true.
Proof.
  unfold is_secret_ref_value, secret_ref_shaped. destruct v; try done.
  destruct (length d =? 2)%nat; simpl; [|done]. by destruct (py_eq _ _).
Qed.

(** Canonicalization is idempotent and exact: what it returns is an exact
    SECRET_REF of a valid UUID, which canonicalizes to itself and which
    [is_secret_ref_value] accepts; different UUIDs give different references. *)
Theorem canonicalize_secret_ref_idempotent v w :
  canonicalize_secret_ref_value v = Ok w →
  canonicalize_secret_ref_value w = Ok w ∧ is_secret_ref_value w = true ∧
  ∃ u, uuid_ok u ∧ w = secret_ref_resolved u ∧
    ∀ u', uuid_ok u' → secret_ref_resolved u' = w → u' = u.
Proof.
  intros (u & Hu & ->)%canonicalize_secret_ref_Ok. split; [|split].
  - change ((secret_id ← of_option (precondition_failed "SECRET_REF secret_id must be a valid UUID string.")
                            (uuid_parse (uuid_str u)); Ok (secret_ref_resolved secret_id))
            = Ok (secret_ref_resolved u)). by rewrite uuid_parse_str.
  - by apply secret_ref_resolved_is_ref.
  - exists u. do 2 (split; [done|]). intros u' Hu' E.
    apply (f_equal (λ j, match j with JObj [_; (_, JStr s)] => uuid_parse s | _ => None end)) in E.
    unfold secret_ref_resolved in E. rewrite !uuid_parse_str in E by done. by injection E.
Qed.

Lemma require_present_Ok mo m v k r :
  require_present mo m v k = Ok r → (∃ x, v = Some x ∧ k x = Ok r) ∨ (v = None ∧ mo = true ∧ r = None).
Proof. destruct v, mo; simpl; naive_solver. Qed.

(** A declared secret input never resolves to plaintext.  If the plan
    declares the input [first_input_token path] secret, a PLAN_INPUT binding of
    any path under it yields MISSING or an exact SECRET_REF; the root path
    yields an object in which every declared secret is an exact SECRET_REF. *)
Theorem resolve_plan_input_secret_safe e p path mo v :
  resolve_plan_input e p path mo = Ok (Some v) →
  (path ≠ "/" → ∀ decl, dict_get (first_input_token path) (pl_inputs p) = Some decl → pi_secret decl = true →
     ∃ u, uuid_ok u ∧ v = secret_ref_resolved u) ∧
  (path = "/" → ∃ d, v = JObj d ∧ ∀ k x, (k, x) ∈ d → ∀ decl, dict_get k (pl_inputs p) = Some decl →
     pi_secret decl = true → ∃ u, uuid_ok u ∧ x = secret_ref_resolved u).
Proof.
  unfold resolve_plan_input. destruct (ex_input_snapshot e) as [| | | | | |root]; try done.
  intros (val & Hval & Hrun)%bind_Ok.
  apply require_present_Ok in Hrun as [(x & -> & Hrun)|(_ & _ & ?)]; [|done].
  apply bind_Ok in Hrun as ([] & Hsafe & Hrun). split.
  - intros Hpath decl Hdecl Hsec. unfold assert_plan_input_secret_safe in Hsafe.
    rewrite (proj2 (String.eqb_neq path "/") Hpath) in Hsafe, Hrun.
    rewrite Hdecl, Hsec in Hsafe. simpl in Hsafe. inv_res.
    rewrite is_secret_ref_shaped in Hrun by done. inv_res. by eapply canonicalize_secret_ref_Ok.
  - intros ->. simpl in Hrun. inv_res. unfold project_plan_input_root in *. inv_res.
    eexists. split; [done|]. intros k x' Hin decl Hdecl Hsec.
    match goal with Hm : res_map _ _ = Ok _ |- _ => apply res_map_Ok in Hm; rename Hm into Hmap end.
    apply list_elem_of_lookup in Hin as [i Hi].
    eapply Forall2_lookup_r in Hmap as ([kk vv] & _ & Hp); [|done].
    unfold project_input in Hp. destruct (dict_get kk (pl_inputs p)) as [d0|] eqn:E0.
    + destruct (pi_secret d0 || secret_ref_shaped vv) eqn:Eo; inv_res.
      * by eapply canonicalize_secret_ref_Ok.
      * congruence.
    + destruct (secret_ref_shaped vv); inv_res; congruence.
Qed.

(** ** STEP_OUTPUT safety *)
Section output.
Context `{PS : PlanSchema}.

Lemma body_source_parts step_id owning by_key anc owners s :
  body_instance_output_source step_id owning by_key anc owners = Ok s →
  ∃ tpl loop, template_id_from_step_snapshot owning = Ok tpl ∧ dict_get tpl owners = Some loop ∧
    s ∈ dict_values by_key ∧
    (es_parent_step_id s = es_parent_step_id owning ∧ es_iteration_no s = es_iteration_no owning ∧
       step_id ∈ ancestors_of anc tpl ∧ dict_get step_id owners = Some loop
     ∨ es_parent_step_id s = None ∧ step_id ∈ ancestors_of anc loop ∧
       dict_get step_id owners ≠ Some loop).
Proof.
  unfold body_instance_output_source. intros Hrun.
  apply bind_Ok in Hrun as (tpl & Htpl & Hrun). apply bind_Ok in Hrun as (loop & Hloop & Hrun).
  apply of_option_Ok in Hloop. exists tpl, loop. do 2 (split; [done|]). case_bool_decide as Ho.
  - unfold same_body_source in Hrun. apply bind_Ok in Hrun as ([] & _ & Hrun).
    apply bind_Ok in Hrun as ([] & Hanc & Hrun). apply bind_Ok in Hrun as (named & Hmap & Hrun).
    destruct (filter (λ ts, ts.1 = step_id) named) as [|[t s'] [|]] eqn:Ef; try done.
    injection Hrun as <-. simpl. inv_res.
    assert ((t, s') ∈ filter (λ ts, ts.1 = step_id) named) as [_ Hin]%list_elem_of_filter
      by (rewrite Ef; apply list_elem_of_here).
    apply res_map_Ok in Hmap. apply list_elem_of_lookup in Hin as [i Hi].
    eapply Forall2_lookup_r in Hmap as (s0 & Hs0 & Ht); [|done]. inv_res.
    apply list_elem_of_lookup_2, list_elem_of_filter in Hs0 as [[? ?] ?]. split; [done|]. by left.
  - unfold outside_body_source in Hrun. inv_res. split; [|by right].
    match goal with Hg : dict_get step_id by_key = Some _ |- _ =>
      apply dict_get_Some_elem, (list_elem_of_fmap_2 snd) in Hg end. done.
Qed.

(** C33: a STEP_OUTPUT binding only ever reads finished, untampered, upstream
    evidence of its own execution.  When it resolves, the source row is
    SUCCEEDED, belongs to the consumer's execution, carries the exact plan
    projection of [step_id], and the value lies in its inline result at the
    path; for a top-level consumer the source is a top-level ancestor, for a body
    instance it is a same-iteration sibling that is an ancestor of the
    consumer's template, or a top-level ancestor of the owning LOOP. *)
Theorem resolve_step_output_safe step_id path owning by_key p anc mo v :
  resolve_step_output step_id path owning by_key p anc mo = Ok (Some v) →
  ∃ s ps, s ∈ dict_values by_key ∧ es_status s = StepStatus.SUCCEEDED ∧
    es_execution_id s = es_execution_id owning ∧ resolve_json_pointer (es_result_inline s) path = Ok (Some v) ∧
    ps ∈ pl_steps p ∧ ps_id ps = step_id ∧ py_eq (dump_step ps) (es_step_snapshot s) = true ∧
    match es_parent_step_id owning with
    | None => es_parent_step_id s = None ∧ step_id ∈ ancestors_of anc (es_step_key owning)
    | Some u =>
        ∃ tpl loop own, template_id_from_step_snapshot owning = Ok tpl ∧
          build_loop_body_ownership p = Ok own ∧ dict_get tpl (body_to_loop own) = Some loop ∧
          (es_parent_step_id s = Some u ∧ es_iteration_no s = es_iteration_no owning ∧
             step_id ∈ ancestors_of anc tpl
           ∨ es_parent_step_id s = None ∧ step_id ∈ ancestors_of anc loop)
    end.
Proof.
  unfold resolve_step_output. intros (own & Hown & Hrun)%bind_Ok.
  apply bind_Ok in Hrun as (s & Hs & Hrun). inv_res.
  unfold assert_step_output_source_lineage in *. inv_res.
  match goal with Hf : find_first _ _ = Some ?ps |- _ =>
    apply find_first_Some in Hf as [Hps Hid%String.eqb_eq]; exists s, ps end.
  match goal with Hr : require_present _ _ _ _ = _ |- _ =>
    apply require_present_Ok in Hr as [(x' & -> & Hr)|(_ & _ & ?)]; [|done]; inv_res end.
  destruct (es_parent_step_id owning) as [u|] eqn:Eu.
  - apply body_source_parts in Hs as (tpl & loop & Htpl & Hloop & Hin & Hcase). rewrite Eu in Hcase.
    do 7 (split; [done|]). exists tpl, loop, own. do 3 (split; [done|]).
    destruct Hcase as [(? & ? & ? & _)|(? & ? & _)]; [by left|by right].
  - unfold top_level_output_source in Hs. inv_res.
    match goal with Hg : dict_get _ by_key = Some _ |- _ =>
      apply dict_get_Some_elem, (list_elem_of_fmap_2 snd) in Hg end.
    do 7 (split; [done|]). done.
Qed.
End output.
