(* ===== verification/PredicateEvaluator.v ===== *)
(** * Predicate evaluation (execution/predicate_evaluator.py)

    [and]/[or] left to right with short circuit, [not], the unary tests and the
    comparisons, over operands resolved by the binding resolver.  An operand is
    a value or MISSING; every failure carries one of three codes, or is a built-in
    exception of the resolver. *)
From S2P Require Import Prelude PyStr PyDict Json JsonStrict JsonPointer PyUuid Domain LoopRuntime BindingResolver.

Section evaluator.
Context `{PS : PlanSchema}.

(** What one evaluation fixes *)
Record eval_env := EvalEnv {
  ee_execution : execution;
  ee_owning_step : execution_step;
  ee_by_key : dict execution_step;
  ee_plan : plan;
  ee_ancestors : ancestor_cache;
  ee_override : option (dict json) }.

(** [_resolve_operand] *)
Definition resolve_operand (env : eval_env) (b : plan_binding) : res (option json) :=
  match resolve_binding b (ee_execution env) (ee_owning_step env) (ee_by_key env) (ee_plan env)
          (ee_ancestors env) true (ee_override env) with
  | Ok v => Ok v
  | Err (AppError code message status) =>
      if bool_decide (code ∈ [CODE_OPERAND_MISSING; CODE_TYPE_MISMATCH; CODE_EVAL_FAILED])
      then Err (AppError code message status)
      else Err (predicate_fail CODE_EVAL_FAILED message)
  | Err (PyException kind) => Err (PyException kind)
  end.

Definition is_secret_binding (b : plan_binding) : bool :=
  match b with PlanSecretRefBinding _ => true | _ => false end.

(** [_eval_unary] *)
Definition eval_unary (env : eval_env) (op : unary_op) (b : plan_binding) : res bool :=
  if is_secret_binding b then
    Ok (match op with PredicateOperator.EXISTS => true | PredicateOperator.IS_NULL => false end)
  else
    value ← resolve_operand env b;
    Ok (match op, value with
        | PredicateOperator.EXISTS, None => false
        | PredicateOperator.EXISTS, Some _ => true
        | PredicateOperator.IS_NULL, None => false
        | PredicateOperator.IS_NULL, Some v => is_none v
        end).

(** [any(f(item) for item in items)] *)
Definition strict_member (f : json → res bool) (items : list json) : res bool := res_any f items.

(** The operators of [_eval_comparison], on present, non-secret operands *)
Definition compare_values (op : comparison_op) (l r : json) : res bool :=
  match op with
  | PredicateOperator.EQ => json_strict_equal l r
  | PredicateOperator.NE => b ← json_strict_equal l r; Ok (negb b)
  | PredicateOperator.GT => ordered_compare OGT l r
  | PredicateOperator.GTE => ordered_compare OGTE l r
  | PredicateOperator.LT => ordered_compare OLT l r
  | PredicateOperator.LTE => ordered_compare OLTE l r
  | PredicateOperator.IN =>
      match r with
      | JArr items => strict_member (json_strict_equal l) items
      | _ => Err (predicate_fail CODE_TYPE_MISMATCH "`in` right operand must be an array (got {_json_type_name(right)}).")
      end
  | PredicateOperator.CONTAINS =>
      match l, r with
      | JStr hay, JStr needle => Ok (str_in needle hay)
      | JArr items, _ => strict_member (λ item, json_strict_equal item r) items
      | _, _ => Err (predicate_fail CODE_TYPE_MISMATCH
          "`contains` allows string⊃string or array⊃value (got {_json_type_name(left)} / {_json_type_name(right)}).")
      end
  end.

(** [_eval_comparison] *)
Definition eval_comparison (env : eval_env) (op : comparison_op) (lhs rhs : plan_binding) : res bool :=
  _ ← raise_if (is_secret_binding lhs || is_secret_binding rhs)
        (predicate_fail CODE_TYPE_MISMATCH "SECRET_REF cannot be used in binary Predicate comparisons.");
  left_value ← resolve_operand env lhs;
  right_value ← resolve_operand env rhs;
  let missing := predicate_fail CODE_OPERAND_MISSING "Predicate binary operand resolved to MISSING." in
  l ← of_option missing left_value;
  r ← of_option missing right_value;
  _ ← raise_if (is_secret_ref_value l || is_secret_ref_value r)
        (predicate_fail CODE_TYPE_MISMATCH "SECRET_REF values cannot be used in binary Predicate comparisons.");
  _ ← reject_non_finite_number l;
  _ ← reject_non_finite_number r;
  compare_values op l r.

(** [_eval] *)
Fixpoint eval (env : eval_env) (p : predicate) : res bool :=
  match p with
  | LogicalPredicate PredicateOperator.AND children =>
      (fix all (cs : list predicate) : res bool :=
         match cs with
         | [] => Ok true
         | c :: cs => b ← eval env c; if b : bool then all cs else Ok false
         end) children
  | LogicalPredicate PredicateOperator.OR children =>
      (fix any (cs : list predicate) : res bool :=
         match cs with
         | [] => Ok false
         | c :: cs => b ← eval env c; if b : bool then Ok true else any cs
         end) children
  | NotPredicate child => b ← eval env child; Ok (negb b)
  | UnaryPredicate op b => eval_unary env op b
  | ComparisonPredicate op lhs rhs => eval_comparison env op lhs rhs
  end.

(** [evaluate]: the predicate comes parsed or as a dict. *)
Definition evaluate (p : predicate + dict json) (e : execution) (owning_step : execution_step)
    (steps : list execution_step) (pl : plan) (override : option (dict json)) : res bool :=
  parsed ← match p with
           | inl q => Ok q
           | inr d => of_option (predicate_fail CODE_EVAL_FAILED "Predicate evidence is malformed and cannot be evaluated.")
                        (validate_predicate d)
           end;
  let by_key := dict_comp es_step_key id steps in
  _ ← raise_if (match dict_get (es_step_key owning_step) by_key with
                | Some s => negb (bool_decide (es_id s = es_id owning_step))
                | None => true
                end) (predicate_fail CODE_EVAL_FAILED "Owning Step missing from Execution Step set for Predicate.");
  ancestors ← transitive_ancestors pl;
  eval (EvalEnv e owning_step by_key pl ancestors override) parsed.

(** ** Properties *)
Lemma eval_and env cs : eval env (LogicalPredicate PredicateOperator.AND cs) = res_all (eval env) cs.
Proof.
  simpl. induction cs as [|c cs IH]; [done|]. simpl.
  destruct (eval env c) as [[]|]; simpl; [apply IH|done..].
Qed.

Lemma eval_or env cs : eval env (LogicalPredicate PredicateOperator.OR cs) = res_any (eval env) cs.
Proof.
  simpl. induction cs as [|c cs IH]; [done|]. simpl.
  destruct (eval env c) as [[]|]; simpl; [done|apply IH|done].
Qed.

(** Boolean semantics of a predicate under a valuation of its leaves *)
Fixpoint denote (leaf : predicate → bool) (p : predicate) : bool :=
  match p with
  | LogicalPredicate PredicateOperator.AND cs => forallb (denote leaf) cs
  | LogicalPredicate PredicateOperator.OR cs => existsb (denote leaf) cs
  | NotPredicate c => negb (denote leaf c)
  | _ => leaf p
  end.

(** The value of a leaf that evaluates *)
Definition leaf_value (env : eval_env) (p : predicate) : bool :=
  match eval env p with Ok b => b | Err _ => false end.


(** Secrets never take part in a comparison.  A comparison that returns had
    two present operands neither of which is a SECRET_REF binding nor resolved
    to a SECRET_REF value, and both were comparable: not a bare non-finite float. *)
Theorem eval_comparison_no_secret env op lhs rhs b :
  eval env (ComparisonPredicate op lhs rhs) = Ok b →
  is_secret_binding lhs = false ∧ is_secret_binding rhs = false ∧
  ∃ l r, resolve_operand env lhs = Ok (Some l) ∧ resolve_operand env rhs = Ok (Some r) ∧
    is_secret_ref_value l = false ∧ is_secret_ref_value r = false ∧
    reject_non_finite_number l = Ok tt ∧ reject_non_finite_number r = Ok tt ∧ compare_values op l r = Ok b.
Proof.
  simpl. unfold eval_comparison. intros Hrun. inv_res. subst. do 2 (split; [done|]).
  do 2 eexists. repeat (split; [done|]). done.
Qed.
End evaluator.

(** Membership is strict equality with some element: on finite, well-formed
    values [in] and array [contains] never raise, and hold exactly when the
    array has an element equal to the operand as a JSON value. *)
Theorem membership_is_strict_equality x items :
  json_wf x = true → json_finite x = true →
  json_wf (JArr items) = true → json_finite (JArr items) = true →
  ∃ b : bool, compare_values PredicateOperator.IN x (JArr items) = Ok b ∧
    compare_values PredicateOperator.CONTAINS (JArr items) x = Ok b ∧
    (b = true ↔ ∃ y, y ∈ items ∧ json_sim x y).
Proof.
  simpl. unfold strict_member. intros Hwx Hfx Hwi Hfi.
  induction items as [|y items IH]; simpl in *.
  - exists false. split; [done|]. split; [done|]. split; [done|]. by intros (y & ?%elem_of_nil & _).
  - inv_res. destruct (strict_equal_both x y) as (t & Hxy & Hyx & Hsim); [done..|].
    rewrite Hxy, Hyx. simpl. destruct t.
    + exists true. do 2 (split; [done|]). split; [|done]. intros _. exists y.
      split; [apply list_elem_of_here|by apply Hsim].
    + destruct IH as (b & -> & -> & Hb); [done..|]. exists b. do 2 (split; [done|]). rewrite Hb.
      setoid_rewrite elem_of_cons. split; [naive_solver|].
      intros (z & [->|Hz] & Hs); [|by exists z]. apply Hsim in Hs. done.
Qed.
