(* ===== verification/Rows.v ===== *)
(** * Rows of an execution and their updates

    The attempt, tool-call, approval, input-request and event rows next to the
    execution and its steps ([models/execution.py], [models/approval.py],
    [models/mcp_input_request.py], [models/execution_event.py]), the queries of
    [repositories/execution.py] the runtime uses, and the event writer of
    [execution/events.py].

    A [store] holds the rows of one execution, as its row lock serializes them:
    a service call is a function of the store.  An ORM object is its row, so an
    assignment to a field is an update of the row with that id.  Random ids of
    events and the flushes that make pending changes visible are left out. *)
From S2P Require Import Prelude PyStr PyDict Json PyUuid Domain.

(** ** Enums *)
(** [StepAttemptStatus], with the same values as [ToolCallNormalizedStatus] *)
Module AttemptStatus.
Inductive attempt_status := STARTED | SUCCEEDED | FAILED | TIMED_OUT | CANCELLED | UNKNOWN_OUTCOME.

#[global] Instance attempt_status_eq_dec : EqDecision attempt_status.
Proof. solve_decision. Defined.
End AttemptStatus.

Module ApprovalStatus.
Inductive approval_status := PENDING | APPROVED | REJECTED | EXPIRED | CANCELLED.

#[global] Instance approval_status_eq_dec : EqDecision approval_status.
Proof. solve_decision. Defined.
End ApprovalStatus.

(** [McpInputRequestStatus] *)
Module InputStatus.
Inductive input_status := OPEN | ANSWERED | REJECTED | EXPIRED | UNSUPPORTED.

#[global] Instance input_status_eq_dec : EqDecision input_status.
Proof. solve_decision. Defined.
End InputStatus.

Module RiskClass.
Inductive risk_class := READ_ONLY | IDEMPOTENT_WRITE | NON_IDEMPOTENT_WRITE | DESTRUCTIVE | UNKNOWN.

#[global] Instance risk_class_eq_dec : EqDecision risk_class.
Proof. solve_decision. Defined.
End RiskClass.

Export AttemptStatus (attempt_status, attempt_status_eq_dec).
Export ApprovalStatus (approval_status, approval_status_eq_dec).
Export InputStatus (input_status, input_status_eq_dec).
Export RiskClass (risk_class, risk_class_eq_dec).

(** ** Rows *)
Record step_attempt := StepAttempt {
  sa_id : uuid;
  sa_step_execution_id : uuid;
  sa_attempt_no : Z;
  sa_status : attempt_status;
  sa_worker_id : option string;
  sa_lease_expires_at : option Z;
  sa_idempotency_key : string;
  sa_request_snapshot : json;
  sa_result_inline : json;
  sa_error_layer : option string;
  sa_error_code : option string;
  sa_error_message : option string;
  sa_is_retryable : option bool;
  sa_started_at : Z;
  sa_finished_at : option Z }.

Record tool_call := ToolCall {
  cl_id : uuid;
  cl_step_attempt_id : uuid;
  cl_mcp_server_id : uuid;
  cl_mcp_tool_version_id : uuid;
  cl_remote_request_id : string;
  cl_request_meta : json;
  cl_response_meta : json;
  cl_normalized_status : attempt_status;
  cl_response_bytes : option Z;
  cl_started_at : Z;
  cl_first_byte_at : option Z;
  cl_finished_at : option Z }.

Record approval_request := ApprovalRequest {
  ar_id : uuid;
  ar_execution_id : uuid;
  ar_step_execution_id : uuid;
  ar_approval_policy_id : uuid;
  ar_status : approval_status;
  ar_decision_mode : string;
  ar_required_approvals : Z;
  ar_approval_scope : json;
  ar_context_snapshot : json;
  ar_context_hash : string;
  ar_requested_at : Z;
  ar_expires_at : Z;
  ar_resolved_at : option Z;
  ar_requested_by : uuid;
  ar_lock_version : Z }.

Record mcp_input_request := McpInputRequest {
  ir_id : uuid;
  ir_execution_id : uuid;
  ir_step_execution_id : uuid;
  ir_step_attempt_id : uuid;
  ir_protocol_era : string;
  ir_input_requests : json;
  ir_request_state : json;
  ir_round_no : Z;
  ir_status : input_status;
  ir_response_payload : json;
  ir_requested_at : Z;
  ir_expires_at : Z;
  ir_answered_at : option Z;
  ir_answered_by : option uuid }.

Record execution_event := ExecutionEvent {
  ev_execution_id : uuid;
  ev_step_execution_id : option uuid;
  ev_event_type : string;
  ev_visibility : string;
  ev_payload : json;
  ev_payload_version : Z;
  ev_occurred_at : Z }.

Record store := Store {
  st_execution : execution;
  st_steps : list execution_step;
  st_attempts : list step_attempt;
  st_calls : list tool_call;
  st_approvals : list approval_request;
  st_inputs : list mcp_input_request;
  st_events : list execution_event }.

(** ** Assignments

    [set_field] builds the function that assigns one field of a row: the record
    of all its fields, with that one replaced. *)
Ltac set_field eta proj v r :=
  let t := eval cbv beta delta [eta] in (eta r) in
  let p := eval pattern (proj r) in t in
  match p with ?f _ => let u := eval cbv beta in (f v) in exact u end.

(** [x |> f |> g]: the assignments [f], then [g] *)
Declare Scope mcp_scope.
Notation "x |> f" := (f x) (at level 69, left associativity, only parsing) : mcp_scope.
#[global] Open Scope mcp_scope.

Definition execution_eta (e : execution) : execution :=
  {| ex_id := ex_id e; ex_source_type := ex_source_type e; ex_trigger_type := ex_trigger_type e;
     ex_requester_id := ex_requester_id e; ex_agent_request_id := ex_agent_request_id e;
     ex_agent_version_id := ex_agent_version_id e; ex_workflow_version_id := ex_workflow_version_id e;
     ex_schedule_occurrence_id := ex_schedule_occurrence_id e;
     ex_parent_execution_id := ex_parent_execution_id e;
     ex_plan_validation_run_id := ex_plan_validation_run_id e; ex_status := ex_status e;
     ex_plan_schema_version := ex_plan_schema_version e; ex_plan_snapshot := ex_plan_snapshot e;
     ex_plan_hash := ex_plan_hash e; ex_input_snapshot := ex_input_snapshot e;
     ex_policy_snapshot := ex_policy_snapshot e; ex_result_summary := ex_result_summary e;
     ex_error_code := ex_error_code e; ex_error_message := ex_error_message e; ex_trace_id := ex_trace_id e;
     ex_priority := ex_priority e; ex_requested_at := ex_requested_at e; ex_queued_at := ex_queued_at e;
     ex_started_at := ex_started_at e; ex_finished_at := ex_finished_at e;
     ex_cancel_requested_at := ex_cancel_requested_at e; ex_cancel_requested_by := ex_cancel_requested_by e;
     ex_cancel_reason := ex_cancel_reason e; ex_worker_id := ex_worker_id e;
     ex_lease_token := ex_lease_token e; ex_lease_expires_at := ex_lease_expires_at e;
     ex_heartbeat_at := ex_heartbeat_at e; ex_lock_version := ex_lock_version e;
     ex_retention_until := ex_retention_until e |}.
Definition set_ex_status (v : execution_status) (e : execution) : execution :=
  ltac:(set_field execution_eta ex_status v e).
Definition set_ex_result_summary (v : json) (e : execution) : execution :=
  ltac:(set_field execution_eta ex_result_summary v e).
Definition set_ex_error_code (v : option string) (e : execution) : execution :=
  ltac:(set_field execution_eta ex_error_code v e).
Definition set_ex_error_message (v : option string) (e : execution) : execution :=
  ltac:(set_field execution_eta ex_error_message v e).
Definition set_ex_queued_at (v : option Z) (e : execution) : execution :=
  ltac:(set_field execution_eta ex_queued_at v e).
Definition set_ex_started_at (v : option Z) (e : execution) : execution :=
  ltac:(set_field execution_eta ex_started_at v e).
Definition set_ex_finished_at (v : option Z) (e : execution) : execution :=
  ltac:(set_field execution_eta ex_finished_at v e).
Definition set_ex_cancel_requested_at (v : option Z) (e : execution) : execution :=
  ltac:(set_field execution_eta ex_cancel_requested_at v e).
Definition set_ex_cancel_requested_by (v : option uuid) (e : execution) : execution :=
  ltac:(set_field execution_eta ex_cancel_requested_by v e).
Definition set_ex_cancel_reason (v : option string) (e : execution) : execution :=
  ltac:(set_field execution_eta ex_cancel_reason v e).
Definition set_ex_worker_id (v : option string) (e : execution) : execution :=
  ltac:(set_field execution_eta ex_worker_id v e).
Definition set_ex_lease_token (v : option uuid) (e : execution) : execution :=
  ltac:(set_field execution_eta ex_lease_token v e).
Definition set_ex_lease_expires_at (v : option Z) (e : execution) : execution :=
  ltac:(set_field execution_eta ex_lease_expires_at v e).
Definition set_ex_heartbeat_at (v : option Z) (e : execution) : execution :=
  ltac:(set_field execution_eta ex_heartbeat_at v e).
Definition set_ex_lock_version (v : Z) (e : execution) : execution :=
  ltac:(set_field execution_eta ex_lock_version v e).

Definition execution_step_eta (s : execution_step) : execution_step :=
  {| es_id := es_id s; es_execution_id := es_execution_id s; es_step_key := es_step_key s;
     es_step_type := es_step_type s; es_mcp_tool_version_id := es_mcp_tool_version_id s;
     es_parent_step_id := es_parent_step_id s; es_sequence_hint := es_sequence_hint s;
     es_status := es_status s; es_step_snapshot := es_step_snapshot s;
     es_resolved_input := es_resolved_input s; es_result_inline := es_result_inline s;
     es_result_blob_id := es_result_blob_id s; es_condition_result := es_condition_result s;
     es_iteration_no := es_iteration_no s; es_attempt_count := es_attempt_count s;
     es_ready_at := es_ready_at s; es_started_at := es_started_at s; es_finished_at := es_finished_at s;
     es_error_code := es_error_code s; es_error_message := es_error_message s;
     es_lock_version := es_lock_version s |}.
Definition set_es_status (v : step_status) (s : execution_step) : execution_step :=
  ltac:(set_field execution_step_eta es_status v s).
Definition set_es_resolved_input (v : json) (s : execution_step) : execution_step :=
  ltac:(set_field execution_step_eta es_resolved_input v s).
Definition set_es_result_inline (v : json) (s : execution_step) : execution_step :=
  ltac:(set_field execution_step_eta es_result_inline v s).
Definition set_es_attempt_count (v : Z) (s : execution_step) : execution_step :=
  ltac:(set_field execution_step_eta es_attempt_count v s).
Definition set_es_ready_at (v : option Z) (s : execution_step) : execution_step :=
  ltac:(set_field execution_step_eta es_ready_at v s).
Definition set_es_started_at (v : option Z) (s : execution_step) : execution_step :=
  ltac:(set_field execution_step_eta es_started_at v s).
Definition set_es_finished_at (v : option Z) (s : execution_step) : execution_step :=
  ltac:(set_field execution_step_eta es_finished_at v s).
Definition set_es_error_code (v : option string) (s : execution_step) : execution_step :=
  ltac:(set_field execution_step_eta es_error_code v s).
Definition set_es_error_message (v : option string) (s : execution_step) : execution_step :=
  ltac:(set_field execution_step_eta es_error_message v s).
Definition set_es_lock_version (v : Z) (s : execution_step) : execution_step :=
  ltac:(set_field execution_step_eta es_lock_version v s).

Definition step_attempt_eta (a : step_attempt) : step_attempt :=
  {| sa_id := sa_id a; sa_step_execution_id := sa_step_execution_id a; sa_attempt_no := sa_attempt_no a;
     sa_status := sa_status a; sa_worker_id := sa_worker_id a; sa_lease_expires_at := sa_lease_expires_at a;
     sa_idempotency_key := sa_idempotency_key a; sa_request_snapshot := sa_request_snapshot a;
     sa_result_inline := sa_result_inline a; sa_error_layer := sa_error_layer a;
     sa_error_code := sa_error_code a; sa_error_message := sa_error_message a;
     sa_is_retryable := sa_is_retryable a; sa_started_at := sa_started_at a;
     sa_finished_at := sa_finished_at a |}.
Definition set_sa_status (v : attempt_status) (a : step_attempt) : step_attempt :=
  ltac:(set_field step_attempt_eta sa_status v a).
Definition set_sa_worker_id (v : option string) (a : step_attempt) : step_attempt :=
  ltac:(set_field step_attempt_eta sa_worker_id v a).
Definition set_sa_lease_expires_at (v : option Z) (a : step_attempt) : step_attempt :=
  ltac:(set_field step_attempt_eta sa_lease_expires_at v a).
Definition set_sa_result_inline (v : json) (a : step_attempt) : step_attempt :=
  ltac:(set_field step_attempt_eta sa_result_inline v a).
Definition set_sa_error_layer (v : option string) (a : step_attempt) : step_attempt :=
  ltac:(set_field step_attempt_eta sa_error_layer v a).
Definition set_sa_error_code (v : option string) (a : step_attempt) : step_attempt :=
  ltac:(set_field step_attempt_eta sa_error_code v a).
Definition set_sa_error_message (v : option string) (a : step_attempt) : step_attempt :=
  ltac:(set_field step_attempt_eta sa_error_message v a).
Definition set_sa_is_retryable (v : option bool) (a : step_attempt) : step_attempt :=
  ltac:(set_field step_attempt_eta sa_is_retryable v a).
Definition set_sa_finished_at (v : option Z) (a : step_attempt) : step_attempt :=
  ltac:(set_field step_attempt_eta sa_finished_at v a).

Definition tool_call_eta (c : tool_call) : tool_call :=
  {| cl_id := cl_id c; cl_step_attempt_id := cl_step_attempt_id c; cl_mcp_server_id := cl_mcp_server_id c;
     cl_mcp_tool_version_id := cl_mcp_tool_version_id c; cl_remote_request_id := cl_remote_request_id c;
     cl_request_meta := cl_request_meta c; cl_response_meta := cl_response_meta c;
     cl_normalized_status := cl_normalized_status c; cl_response_bytes := cl_response_bytes c;
     cl_started_at := cl_started_at c; cl_first_byte_at := cl_first_byte_at c;
     cl_finished_at := cl_finished_at c |}.
Definition set_cl_normalized_status (v : attempt_status) (c : tool_call) : tool_call :=
  ltac:(set_field tool_call_eta cl_normalized_status v c).
Definition set_cl_response_meta (v : json) (c : tool_call) : tool_call :=
  ltac:(set_field tool_call_eta cl_response_meta v c).
Definition set_cl_response_bytes (v : option Z) (c : tool_call) : tool_call :=
  ltac:(set_field tool_call_eta cl_response_bytes v c).
Definition set_cl_first_byte_at (v : option Z) (c : tool_call) : tool_call :=
  ltac:(set_field tool_call_eta cl_first_byte_at v c).
Definition set_cl_finished_at (v : option Z) (c : tool_call) : tool_call :=
  ltac:(set_field tool_call_eta cl_finished_at v c).

Definition approval_request_eta (r : approval_request) : approval_request :=
  {| ar_id := ar_id r; ar_execution_id := ar_execution_id r; ar_step_execution_id := ar_step_execution_id r;
     ar_approval_policy_id := ar_approval_policy_id r; ar_status := ar_status r;
     ar_decision_mode := ar_decision_mode r; ar_required_approvals := ar_required_approvals r;
     ar_approval_scope := ar_approval_scope r; ar_context_snapshot := ar_context_snapshot r;
     ar_context_hash := ar_context_hash r; ar_requested_at := ar_requested_at r;
     ar_expires_at := ar_expires_at r; ar_resolved_at := ar_resolved_at r;
     ar_requested_by := ar_requested_by r; ar_lock_version := ar_lock_version r |}.
Definition set_ar_status (v : approval_status) (r : approval_request) : approval_request :=
  ltac:(set_field approval_request_eta ar_status v r).
Definition set_ar_resolved_at (v : option Z) (r : approval_request) : approval_request :=
  ltac:(set_field approval_request_eta ar_resolved_at v r).
Definition set_ar_lock_version (v : Z) (r : approval_request) : approval_request :=
  ltac:(set_field approval_request_eta ar_lock_version v r).

Definition mcp_input_request_eta (r : mcp_input_request) : mcp_input_request :=
  {| ir_id := ir_id r; ir_execution_id := ir_execution_id r; ir_step_execution_id := ir_step_execution_id r;
     ir_step_attempt_id := ir_step_attempt_id r; ir_protocol_era := ir_protocol_era r;
     ir_input_requests := ir_input_requests r; ir_request_state := ir_request_state r;
     ir_round_no := ir_round_no r; ir_status := ir_status r;
     ir_response_payload := ir_response_payload r; ir_requested_at := ir_requested_at r;
     ir_expires_at := ir_expires_at r;
     ir_answered_at := ir_answered_at r; ir_answered_by := ir_answered_by r |}.
Definition set_ir_status (v : input_status) (r : mcp_input_request) : mcp_input_request :=
  ltac:(set_field mcp_input_request_eta ir_status v r).
Definition set_ir_response_payload (v : json) (r : mcp_input_request) : mcp_input_request :=
  ltac:(set_field mcp_input_request_eta ir_response_payload v r).
Definition set_ir_answered_at (v : option Z) (r : mcp_input_request) : mcp_input_request :=
  ltac:(set_field mcp_input_request_eta ir_answered_at v r).
Definition set_ir_answered_by (v : option uuid) (r : mcp_input_request) : mcp_input_request :=
  ltac:(set_field mcp_input_request_eta ir_answered_by v r).

Definition store_eta (st : store) : store :=
  {| st_execution := st_execution st; st_steps := st_steps st; st_attempts := st_attempts st;
     st_calls := st_calls st; st_approvals := st_approvals st; st_inputs := st_inputs st;
     st_events := st_events st |}.
Definition set_st_execution (v : execution) (st : store) : store :=
  ltac:(set_field store_eta st_execution v st).
Definition set_st_steps (v : list execution_step) (st : store) : store :=
  ltac:(set_field store_eta st_steps v st).
Definition set_st_attempts (v : list step_attempt) (st : store) : store :=
  ltac:(set_field store_eta st_attempts v st).
Definition set_st_calls (v : list tool_call) (st : store) : store := ltac:(set_field store_eta st_calls v st).
Definition set_st_approvals (v : list approval_request) (st : store) : store :=
  ltac:(set_field store_eta st_approvals v st).
Definition set_st_inputs (v : list mcp_input_request) (st : store) : store :=
  ltac:(set_field store_eta st_inputs v st).
Definition set_st_events (v : list execution_event) (st : store) : store :=
  ltac:(set_field store_eta st_events v st).

(** ** Queries and updates *)
Definition upd_where {A} (p : A → Prop) `{∀ x, Decision (p x)} (f : A → A) (l : list A) : list A :=
  (λ x, if decide (p x) then f x else x) <$> l.

Definition upd_execution (f : execution → execution) (st : store) : store :=
  set_st_execution (f (st_execution st)) st.
Definition upd_step (id : uuid) (f : execution_step → execution_step) (st : store) : store :=
  set_st_steps (upd_where (λ s, es_id s = id) f (st_steps st)) st.
Definition upd_attempt (id : uuid) (f : step_attempt → step_attempt) (st : store) : store :=
  set_st_attempts (upd_where (λ a, sa_id a = id) f (st_attempts st)) st.
Definition upd_call (id : uuid) (f : tool_call → tool_call) (st : store) : store :=
  set_st_calls (upd_where (λ c, cl_id c = id) f (st_calls st)) st.

(** [lock_version += 1] *)
Definition bump_execution (e : execution) : execution := set_ex_lock_version (ex_lock_version e + 1)%Z e.
Definition bump_step (s : execution_step) : execution_step := set_es_lock_version (es_lock_version s + 1)%Z s.

(** [order_by(sequence_hint.asc(), step_key.asc())] *)
Definition step_order (a b : execution_step) : bool :=
  (es_sequence_hint a <? es_sequence_hint b)%Z
  || (es_sequence_hint a =? es_sequence_hint b)%Z && str_leb (es_step_key a) (es_step_key b).
Definition list_steps (st : store) : list execution_step :=
  sort_by step_order (filter (λ s, es_execution_id s = ex_id (st_execution st)) (st_steps st)).

Definition get_step (id : uuid) (st : store) : option execution_step :=
  find_first (λ s, bool_decide (es_id s = id)) (st_steps st).
Definition get_attempt (id : uuid) (st : store) : option step_attempt :=
  find_first (λ a, bool_decide (sa_id a = id)) (st_attempts st).
Definition get_tool_call (id : uuid) (st : store) : option tool_call :=
  find_first (λ c, bool_decide (cl_id c = id)) (st_calls st).

Definition list_attempts (step_id : uuid) (st : store) : list step_attempt :=
  sort_by (λ a b, sa_attempt_no a <=? sa_attempt_no b)%Z
    (filter (λ a, sa_step_execution_id a = step_id) (st_attempts st)).
Definition list_tool_calls (attempt_id : uuid) (st : store) : list tool_call :=
  sort_by (λ a b, cl_started_at a <=? cl_started_at b)%Z
    (filter (λ c, cl_step_attempt_id c = attempt_id) (st_calls st)).
(** [order_by(attempt_no.desc()).limit(1)] *)
Definition get_started_attempt (step_id : uuid) (st : store) : option step_attempt :=
  head (sort_by (λ a b, sa_attempt_no b <=? sa_attempt_no a)%Z
    (filter (λ a, sa_step_execution_id a = step_id ∧ sa_status a = AttemptStatus.STARTED) (st_attempts st))).

(** ** Events *)
Definition execution_event_type (s : execution_status) : string :=
  match s with
  | ExecutionStatus.CREATED => "execution.created" | ExecutionStatus.QUEUED => "execution.queued"
  | ExecutionStatus.RUNNING => "execution.started" | ExecutionStatus.WAITING_INPUT => "execution.waiting_input"
  | ExecutionStatus.WAITING_APPROVAL => "execution.waiting_approval"
  | ExecutionStatus.CANCEL_REQUESTED => "execution.cancel_requested"
  | ExecutionStatus.SUCCEEDED => "execution.succeeded"
  | ExecutionStatus.PARTIALLY_SUCCEEDED => "execution.partially_succeeded"
  | ExecutionStatus.FAILED => "execution.failed" | ExecutionStatus.CANCELLED => "execution.cancelled"
  | ExecutionStatus.TIMED_OUT => "execution.timed_out"
  end.

Definition step_event_type (s : step_status) : option string :=
  match s with
  | StepStatus.READY => Some "execution.step.ready" | StepStatus.RUNNING => Some "execution.step.started"
  | StepStatus.WAITING_INPUT => Some "execution.step.waiting_input"
  | StepStatus.WAITING_APPROVAL => Some "execution.step.waiting_approval"
  | StepStatus.SUCCEEDED => Some "execution.step.succeeded" | StepStatus.FAILED => Some "execution.step.failed"
  | StepStatus.SKIPPED => Some "execution.step.skipped"
  | StepStatus.PENDING | StepStatus.TIMED_OUT | StepStatus.CANCELLED | StepStatus.UNKNOWN_OUTCOME => None
  end.

Definition execution_lifecycle_payload (e : execution) : json :=
  JObj [("execution_id", JStr (uuid_str (ex_id e))); ("status", JStr (execution_status_value (ex_status e)))].
Definition step_lifecycle_payload (s : execution_step) : json :=
  JObj [("execution_id", JStr (uuid_str (es_execution_id s))); ("step_execution_id", JStr (uuid_str (es_id s)));
        ("status", JStr (step_status_value (es_status s)))].

(** [ExecutionEventWriter.append], with its default visibility and payload
    version; none of its argument checks can fail on the literal types above. *)
Definition USER : string := "USER".
Definition PAYLOAD_VERSION : Z := 1.
Definition append_event (execution_id : uuid) (step_execution_id : option uuid) (event_type : string) (payload : json)
    (occurred_at : Z) (st : store) : store :=
  set_st_events (st_events st ++ [ExecutionEvent execution_id step_execution_id event_type USER payload
                                    PAYLOAD_VERSION occurred_at]) st.

Definition emit_execution_status_changed (previous_status : execution_status) (now : Z) (st : store) : store :=
  let e := st_execution st in
  if decide (previous_status = ex_status e) then st
  else append_event (ex_id e) None (execution_event_type (ex_status e)) (execution_lifecycle_payload e) now st.

Definition emit_step_status_changed (s : execution_step) (previous_status : step_status) (now : Z) (st : store)
    : store :=
  if decide (previous_status = es_status s) then st
  else match step_event_type (es_status s) with
       | None => st
       | Some t => append_event (es_execution_id s) (Some (es_id s)) t (step_lifecycle_payload s) now st
       end.

(** The event of a step row after its update; [step] is the row before it. *)
Definition emit_of_step (now : Z) (step : execution_step) (st : store) : store :=
  match get_step (es_id step) st with
  | Some s => emit_step_status_changed s (es_status step) now st
  | None => st
  end.

(** ** Lemmas *)
Section upd_where.
Context {A : Type}.
Implicit Types (l : list A).

Lemma elem_of_upd_where (p : A → Prop) `{∀ x, Decision (p x)} f l y :
  y ∈ upd_where p f l ↔ ∃ x, x ∈ l ∧ y = if decide (p x) then f x else x.
Proof. unfold upd_where. rewrite list_elem_of_fmap. naive_solver. Qed.

Lemma upd_where_proj {B} (g : A → B) (p : A → Prop) `{∀ x, Decision (p x)} f l :
  (∀ x, g (f x) = g x) → g <$> upd_where p f l = g <$> l.
Proof.
  intros Hg. unfold upd_where. rewrite <- list_fmap_compose. apply list_fmap_ext. intros _ x _.
  simpl. case_decide; [apply Hg|done].
Qed.

Lemma upd_where_none (p : A → Prop) `{∀ x, Decision (p x)} f l :
  (∀ x, x ∈ l → ¬ p x) → upd_where p f l = l.
Proof.
  intros Hp. unfold upd_where. rewrite <- (list_fmap_id l) at 2. apply Forall_fmap_ext_1.
  rewrite Forall_forall. intros x Hx. rewrite decide_False; [done|by apply Hp].
Qed.

(** Updates of several rows by key, one after the other *)
Lemma upd_where_fold {B} (key : A → uuid) (k : B → uuid) f (L : list B) l :
  (∀ x, key (f x) = key x) → (∀ x, f (f x) = f x) →
  foldl (λ l b, upd_where (λ x, key x = k b) f l) l L = upd_where (λ x, key x ∈ k <$> L) f l.
Proof.
  intros Hk Hf. induction L as [|b L IH] using rev_ind.
  - simpl. symmetry. apply upd_where_none. intros x _. apply not_elem_of_nil.
  - rewrite foldl_app. simpl. rewrite IH. unfold upd_where. rewrite <- list_fmap_compose.
    apply list_fmap_ext. intros _ x _. unfold compose. rewrite fmap_app.
    destruct (decide (key x ∈ k <$> L)) as [H|H].
    + rewrite (decide_True (P := key x ∈ (k <$> L) ++ (k <$> [b]))) by (apply elem_of_app; by left).
      rewrite Hk. case_decide; [apply Hf|done].
    + apply decide_ext. rewrite elem_of_app. simpl. rewrite list_elem_of_singleton. naive_solver.
Qed.
End upd_where.

(** A row is determined by its key. *)
Lemma key_inj {A B} (key : A → B) (l : list A) x y :
  NoDup (key <$> l) → x ∈ l → y ∈ l → key x = key y → x = y.
Proof.
  intros Hnd Hx Hy Heq. apply list_elem_of_lookup in Hx as [i Hi]. apply list_elem_of_lookup in Hy as [j Hj].
  assert (i = j) as <-; [|congruence].
  apply (NoDup_lookup (key <$> l) i j (key x)); [done| |]; rewrite list_lookup_fmap; [by rewrite Hi|].
  rewrite Hj. simpl. by rewrite Heq.
Qed.

Lemma find_key {A} (key : A → uuid) (l : list A) x :
  NoDup (key <$> l) → x ∈ l → find_first (λ y, bool_decide (key y = key x)) l = Some x.
Proof.
  intros Hnd Hx. destruct (find_first _ l) as [y|] eqn:E.
  - apply find_first_Some in E as [Hy Hk%bool_decide_eq_true]. f_equal. by apply (key_inj key l).
  - rewrite find_first_None in E. specialize (E x Hx). by rewrite bool_decide_true in E.
Qed.

Lemma find_key_Some {A} (key : A → uuid) (l : list A) id x :
  find_first (λ y, bool_decide (key y = id)) l = Some x → x ∈ l ∧ key x = id.
Proof. intros [Hx Hk%bool_decide_eq_true]%find_first_Some. done. Qed.

Lemma upd_where_upd_where {A} (key : A → uuid) f k K (l : list A) :
  (∀ x, key (f x) = key x) → (∀ x, f (f x) = f x) ∨ k ∉ K →
  upd_where (λ x, key x ∈ K) f (upd_where (λ x, key x = k) f l) = upd_where (λ x, key x ∈ k :: K) f l.
Proof.
  intros Hk Hf. unfold upd_where. rewrite <- list_fmap_compose. apply list_fmap_ext. intros _ x _. unfold compose.
  destruct (decide (key x = k)) as [Heq|Hne].
  - rewrite (decide_True (P := key x ∈ k :: K)) by (rewrite Heq; left). rewrite Hk.
    case_decide; [|done]. destruct Hf as [Hf|Hf]; [by rewrite Hf|congruence].
  - apply decide_ext. rewrite elem_of_cons. naive_solver.
Qed.

Lemma find_first_upd_where {A} (key : A → uuid) (p : A → Prop) `{∀ x, Decision (p x)} f k (l : list A) :
  (∀ x, key (f x) = key x) →
  find_first (λ x, bool_decide (key x = k)) (upd_where p f l)
    = (λ x, if decide (p x) then f x else x) <$> find_first (λ x, bool_decide (key x = k)) l.
Proof.
  intros Hk. unfold upd_where. induction l as [|x l IH]; [done|]. cbn [fmap list_fmap find_first].
  assert (key (if decide (p x) then f x else x) = key x) as -> by (case_decide; auto).
  case_bool_decide; [done|apply IH].
Qed.

Lemma elem_of_list_steps s st : s ∈ list_steps st ↔ s ∈ st_steps st ∧ es_execution_id s = ex_id (st_execution st).
Proof. unfold list_steps. rewrite sort_by_perm, list_elem_of_filter. naive_solver. Qed.

Lemma elem_of_list_attempts a id st : a ∈ list_attempts id st ↔ a ∈ st_attempts st ∧ sa_step_execution_id a = id.
Proof. unfold list_attempts. rewrite sort_by_perm, list_elem_of_filter. naive_solver. Qed.

Lemma elem_of_list_tool_calls c id st : c ∈ list_tool_calls id st ↔ c ∈ st_calls st ∧ cl_step_attempt_id c = id.
Proof. unfold list_tool_calls. rewrite sort_by_perm, list_elem_of_filter. naive_solver. Qed.

(** Event appends change no other row. *)
Lemma emit_execution_rows p now st :
  let st' := emit_execution_status_changed p now st in
  st_execution st' = st_execution st ∧ st_steps st' = st_steps st ∧ st_attempts st' = st_attempts st ∧
  st_calls st' = st_calls st ∧ st_approvals st' = st_approvals st ∧ st_inputs st' = st_inputs st.
Proof. unfold emit_execution_status_changed. simpl. by case_decide. Qed.

Lemma emit_step_rows s p now st :
  let st' := emit_step_status_changed s p now st in
  st_execution st' = st_execution st ∧ st_steps st' = st_steps st ∧ st_attempts st' = st_attempts st ∧
  st_calls st' = st_calls st ∧ st_approvals st' = st_approvals st ∧ st_inputs st' = st_inputs st.
Proof. unfold emit_step_status_changed. simpl. case_decide; [done|]. by destruct (step_event_type _). Qed.

Lemma emit_of_step_rows now s st :
  let st' := emit_of_step now s st in
  st_execution st' = st_execution st ∧ st_steps st' = st_steps st ∧ st_attempts st' = st_attempts st ∧
  st_calls st' = st_calls st ∧ st_approvals st' = st_approvals st ∧ st_inputs st' = st_inputs st.
Proof. unfold emit_of_step. simpl. destruct (get_step _ _); [apply emit_step_rows|done]. Qed.

(** ** Well-formed stores: primary and foreign keys *)
Record store_wf (st : store) : Prop := StoreWf {
  wf_step_ids : NoDup (es_id <$> st_steps st);
  wf_attempt_ids : NoDup (sa_id <$> st_attempts st);
  wf_call_ids : NoDup (cl_id <$> st_calls st);
  wf_steps s : s ∈ st_steps st → es_execution_id s = ex_id (st_execution st);
  wf_attempts a : a ∈ st_attempts st → sa_step_execution_id a ∈ es_id <$> st_steps st;
  wf_calls c : c ∈ st_calls st → cl_step_attempt_id c ∈ sa_id <$> st_attempts st }.

Lemma list_steps_wf st s : store_wf st → s ∈ list_steps st ↔ s ∈ st_steps st.
Proof. intros Hwf. rewrite elem_of_list_steps. split; [by intros []|]. intros Hs. split; [done|by apply Hwf]. Qed.
