(* ===== verification/Cancellation.v ===== *)
(** * Cancellation ([execution/cancellation.py])

    The durable transitions of a cancelled execution, under its row lock:
    request, reconciliation, the two settlements of the tool runner, and the
    recovery of a cancellation whose worker died.  Every function is a function
    of the [store]; none calls a tool. *)
From S2P Require Import Prelude PyStr PyDict Json PyUuid Domain Completion Rows.

Definition TERMINAL_EXECUTION : list execution_status :=
  [ExecutionStatus.SUCCEEDED; ExecutionStatus.PARTIALLY_SUCCEEDED; ExecutionStatus.FAILED;
   ExecutionStatus.TIMED_OUT; ExecutionStatus.CANCELLED].
Definition NON_CANCEL_TERMINAL_EXECUTION : list execution_status :=
  [ExecutionStatus.SUCCEEDED; ExecutionStatus.PARTIALLY_SUCCEEDED; ExecutionStatus.FAILED;
   ExecutionStatus.TIMED_OUT].
Definition TERMINAL_STEP : list step_status :=
  [StepStatus.SUCCEEDED; StepStatus.FAILED; StepStatus.TIMED_OUT; StepStatus.UNKNOWN_OUTCOME;
   StepStatus.SKIPPED; StepStatus.CANCELLED].
Definition IMMEDIATE_EXECUTION_STATUSES : list execution_status :=
  [ExecutionStatus.CREATED; ExecutionStatus.QUEUED; ExecutionStatus.WAITING_APPROVAL;
   ExecutionStatus.WAITING_INPUT].

Inductive cancellation_mode := IDEMPOTENT | IMMEDIATE | REQUESTED | RECONCILED.

Record cancellation_outcome := CancellationOutcome {
  co_status : execution_status;
  co_cancel_requested_at : option Z;
  co_finished_at : option Z;
  co_mode : cancellation_mode }.

(** [_outcome] *)
Definition outcome (st : store) (mode : cancellation_mode) : cancellation_outcome :=
  let e := st_execution st in CancellationOutcome (ex_status e) (ex_cancel_requested_at e) (ex_finished_at e) mode.

Definition is_terminal_step_status (s : step_status) : bool := bool_decide (s ∈ TERMINAL_STEP).
Definition is_terminal_execution_status (s : execution_status) : bool := bool_decide (s ∈ TERMINAL_EXECUTION).

Definition cancellation_is_requested (e : execution) : bool :=
  bool_decide (ex_status e = ExecutionStatus.CANCEL_REQUESTED)
  || match ex_cancel_requested_at e with Some _ => true | None => false end.

Definition call_started (c : tool_call) : bool := bool_decide (cl_normalized_status c = AttemptStatus.STARTED).

(** The joins with [step_attempts] and [execution_steps] *)
Definition call_of_step (st : store) (step_id : uuid) (c : tool_call) : bool :=
  existsb (λ a, bool_decide (sa_id a = cl_step_attempt_id c ∧ sa_step_execution_id a = step_id)) (st_attempts st).
Definition list_started_tool_calls (st : store) : list tool_call :=
  filter (λ c, call_started c && existsb (λ s, call_of_step st (es_id s) c) (list_steps st) = true) (st_calls st).
Definition step_has_started_tool_call (st : store) (step_id : uuid) : bool :=
  existsb (λ c, call_started c && call_of_step st step_id c) (st_calls st).

(** ** Assignments *)
(** [_clear_execution_lease] *)
Definition clear_execution_lease (e : execution) : execution :=
  e |> set_ex_worker_id None |> set_ex_lease_token None |> set_ex_lease_expires_at None
    |> set_ex_heartbeat_at None.

(** [_cancel_step] *)
Definition cancel_step (now : Z) (s : execution_step) : execution_step :=
  if is_terminal_step_status (es_status s) then s
  else s |> set_es_status StepStatus.CANCELLED |> set_es_finished_at (Some now) |> set_es_error_code None
         |> set_es_error_message None |> bump_step.

(** [_cancel_attempt] *)
Definition cancel_attempt (now : Z) (a : step_attempt) : step_attempt :=
  if negb (bool_decide (sa_status a = AttemptStatus.STARTED)) then a
  else a |> set_sa_status AttemptStatus.CANCELLED |> set_sa_finished_at (Some now) |> set_sa_worker_id None
         |> set_sa_lease_expires_at None |> set_sa_error_code None |> set_sa_error_message None.

(** [_cancel_started_attempts_without_inflight_tool_call], on one attempt *)
Definition cancel_idle_attempt (now : Z) (st : store) (attempt : step_attempt) : store :=
  if negb (bool_decide (sa_status attempt = AttemptStatus.STARTED)) then st
  else if existsb call_started (list_tool_calls (sa_id attempt) st) then st
  else upd_attempt (sa_id attempt) (cancel_attempt now) st.
Definition cancel_started_attempts_without_inflight_tool_call (now : Z) (step_id : uuid) (st : store) : store :=
  foldl (cancel_idle_attempt now) st (list_attempts step_id st).

(** [_cancel_pending_approvals] *)
Definition cancel_pending_approvals (now : Z) (st : store) : store :=
  set_st_approvals
    (upd_where (λ r, ar_execution_id r = ex_id (st_execution st) ∧ ar_status r = ApprovalStatus.PENDING)
       (λ r, r |> set_ar_status ApprovalStatus.CANCELLED |> set_ar_resolved_at (Some now)
               |> set_ar_lock_version (ar_lock_version r + 1)%Z)
       (st_approvals st)) st.

(** [_reject_open_mrtr_requests] *)
Definition reject_open_mrtr_requests (now : Z) (answered_by : option uuid) (st : store) : store :=
  set_st_inputs
    (upd_where (λ r, ir_execution_id r = ex_id (st_execution st) ∧ ir_status r = InputStatus.OPEN)
       (λ r, r |> set_ir_status InputStatus.REJECTED |> set_ir_answered_at (Some now)
               |> set_ir_answered_by answered_by |> set_ir_response_payload JNull)
       (st_inputs st)) st.

(** The body of the loop of [_cancel_safe_nonterminal_steps] *)
Definition cancel_safe_step (now : Z) (preserve_step_ids : list uuid) (st : store) (step : execution_step) : store :=
  if bool_decide (es_id step ∈ preserve_step_ids) then st
  else if is_terminal_step_status (es_status step) then st
  else
    let cancel_attempts := cancel_started_attempts_without_inflight_tool_call now (es_id step) in
    match es_status step with
    | StepStatus.RUNNING =>
        if step_has_started_tool_call st (es_id step) then st
        else upd_step (es_id step) (cancel_step now) (cancel_attempts st)
    | StepStatus.WAITING_INPUT | StepStatus.WAITING_APPROVAL =>
        upd_step (es_id step) (cancel_step now) (cancel_attempts st)
    | _ => upd_step (es_id step) (cancel_step now) st
    end.
Definition cancel_safe_nonterminal_steps (now : Z) (preserve_step_ids : list uuid) (steps : list execution_step)
    (st : store) : store :=
  foldl (cancel_safe_step now preserve_step_ids) st steps.

(** [_set_cancel_metadata_once] *)
Definition set_cancel_metadata_once (now : Z) (requested_by : option uuid) (reason : option string)
    (e : execution) : execution :=
  match ex_cancel_requested_at e with
  | Some _ => e
  | None => e |> set_ex_cancel_requested_at (Some now) |> set_ex_cancel_requested_by requested_by
              |> set_ex_cancel_reason reason
  end.

(** [_finalize_cancelled] *)
Definition finalize_cancelled (now : Z) (steps : list execution_step) (e : execution) : execution :=
  e |> set_ex_status ExecutionStatus.CANCELLED |> set_ex_finished_at (Some now) |> set_ex_error_code None
    |> set_ex_error_message None
    |> set_ex_result_summary (build_result_summary ExecutionStatus.CANCELLED steps None)
    |> clear_execution_lease |> bump_execution.

(** The four calls both ends of a cancellation make *)
Definition cancel_everything (now : Z) (answered_by : option uuid) (preserve_step_ids : list uuid) (st : store) : store :=
  st |> cancel_pending_approvals now |> reject_open_mrtr_requests now answered_by
     |> cancel_safe_nonterminal_steps now preserve_step_ids (list_steps st).

Definition finish_cancelled (now : Z) (previous_status : execution_status) (st : store) : store :=
  st |> upd_execution (finalize_cancelled now (list_steps st)) |> emit_execution_status_changed previous_status now.

(** ** Request *)
(** [preserve_ids]: the RUNNING steps with an attempt of a started call *)
Definition preserve_ids (st : store) : list uuid :=
  let attempt_ids := cl_step_attempt_id <$> list_started_tool_calls st in
  es_id <$> filter (λ s, es_status s = StepStatus.RUNNING ∧
    existsb (λ a, bool_decide (sa_id a ∈ attempt_ids)) (list_attempts (es_id s) st) = true) (list_steps st).

Definition apply_cancellation_locked (now : Z) (requested_by : option uuid) (reason : option string) (st : store)
    : res (store * cancellation_outcome) :=
  let status := ex_status (st_execution st) in
  if bool_decide (status = ExecutionStatus.CANCELLED) then Ok (st, outcome st IDEMPOTENT)
  else if bool_decide (status = ExecutionStatus.CANCEL_REQUESTED) then Ok (st, outcome st IDEMPOTENT)
  else
    _ ← raise_if (bool_decide (status ∈ NON_CANCEL_TERMINAL_EXECUTION))
          (conflict "Terminal Execution cannot be cancelled.");
    let st := upd_execution (set_cancel_metadata_once now requested_by reason) st in
    let started_calls := list_started_tool_calls st in
    let preserved := preserve_ids st in
    if bool_decide (status ∈ IMMEDIATE_EXECUTION_STATUSES)
       || bool_decide (status = ExecutionStatus.RUNNING) && match started_calls with [] => true | _ => false end
    then
      let st := st |> cancel_everything now requested_by [] |> finish_cancelled now status in
      Ok (st, outcome st IMMEDIATE)
    else
      let st := st |> cancel_everything now requested_by preserved
                   |> upd_execution (λ e, e |> set_ex_status ExecutionStatus.CANCEL_REQUESTED |> bump_execution)
                   |> emit_execution_status_changed status now in
      Ok (st, outcome st REQUESTED).

(** ** Reconciliation *)
Definition is_unknown_step (s : execution_step) : bool := bool_decide (es_status s = StepStatus.UNKNOWN_OUTCOME).

(** The branch for a step of unknown outcome; [cause] is the object the code
    found before the remaining steps are cancelled, which leaves it as it is. *)
Definition fail_unknown (now : Z) (st : store) : store :=
  let st := cancel_everything now (ex_cancel_requested_by (st_execution st)) [] st in
  let steps := list_steps st in
  let cause := find_first is_unknown_step steps in
  st |> upd_execution (λ e,
          e |> set_ex_status ExecutionStatus.FAILED |> set_ex_finished_at (Some now)
            |> set_ex_error_code (cause ≫= es_error_code) |> set_ex_error_message (cause ≫= es_error_message)
            |> set_ex_result_summary (build_result_summary ExecutionStatus.FAILED steps None)
            |> clear_execution_lease |> bump_execution)
     |> emit_execution_status_changed (ex_status (st_execution st)) now.

Definition reconcile_cancel_requested_locked (now : Z) (st : store) : res (store * cancellation_outcome) :=
  let status := ex_status (st_execution st) in
  if bool_decide (status = ExecutionStatus.CANCELLED) then Ok (st, outcome st IDEMPOTENT)
  else if bool_decide (status = ExecutionStatus.FAILED) then Ok (st, outcome st IDEMPOTENT)
  else
    _ ← raise_if (negb (bool_decide (status = ExecutionStatus.CANCEL_REQUESTED)))
          (conflict "Execution is not CANCEL_REQUESTED.");
    match list_started_tool_calls st with
    | _ :: _ => Ok (st, outcome st REQUESTED)
    | [] =>
        if existsb is_unknown_step (list_steps st) then
          let st := fail_unknown now st in Ok (st, outcome st RECONCILED)
        else
          let st := st |> cancel_everything now (ex_cancel_requested_by (st_execution st)) []
                       |> finish_cancelled now status in
          Ok (st, outcome st RECONCILED)
    end.

(** ** Settlements of the tool runner *)
(** The corruption branch both share: an execution that is not CANCEL_REQUESTED *)
Definition force_cancel_requested (now : Z) (st : store) : store :=
  let e := st_execution st in
  if bool_decide (ex_status e = ExecutionStatus.CANCEL_REQUESTED) then st
  else
    st |> upd_execution (λ e,
            let e := match ex_cancel_requested_at e with
                     | None => set_ex_cancel_requested_at (Some now) e
                     | Some _ => e
                     end in
            e |> set_ex_status ExecutionStatus.CANCEL_REQUESTED |> bump_execution)
       |> emit_execution_status_changed (ex_status e) now.

Definition settle_input_required_after_cancel_locked (now : Z) (step_id attempt_id call_id : uuid)
    (persist_meta : json) (response_bytes first_byte_at : option Z) (st : store)
    : res (store * cancellation_outcome) :=
  st |> upd_call call_id (λ c, c |> set_cl_normalized_status AttemptStatus.SUCCEEDED
          |> set_cl_response_meta persist_meta |> set_cl_response_bytes response_bytes
          |> set_cl_first_byte_at first_byte_at |> set_cl_finished_at (Some now))
     |> upd_attempt attempt_id (cancel_attempt now)
     |> upd_step step_id (cancel_step now)
     |> force_cancel_requested now
     |> reconcile_cancel_requested_locked now.

Definition cancel_prepared_invocation_before_send (now : Z) (step_id attempt_id call_id : uuid) (st : store)
    : res (store * cancellation_outcome) :=
  st |> upd_call call_id (λ c,
          if call_started c
          then c |> set_cl_normalized_status AttemptStatus.CANCELLED |> set_cl_finished_at (Some now) else c)
     |> upd_attempt attempt_id (cancel_attempt now)
     |> upd_step step_id (cancel_step now)
     |> force_cancel_requested now
     |> reconcile_cancel_requested_locked now.

(** ** Recovery of an expired cancellation *)
Definition ERROR_CODE_CANCEL_RECOVERY_UNKNOWN : string := "CANCEL_RECOVERY_UNKNOWN_OUTCOME".
Definition ERROR_LAYER_WORKER : string := "WORKER".
Definition ERROR_MSG_CANCEL_RECOVERY_UNKNOWN : string :=
  "Worker lease expired under CANCEL_REQUESTED after tools/call evidence was"
  +:+ " started; remote outcome is unknown and is not retried or re-invoked.".

(** Python's [x or d] on strings *)
Definition str_or (x : option string) (d : string) : string :=
  match x with Some s => if String.eqb s "" then d else s | None => d end.

(** The end of both assignments to an attempt *)
Definition close_attempt (now : Z) (a : step_attempt) : step_attempt :=
  a |> set_sa_is_retryable (Some false) |> set_sa_finished_at (Some now) |> set_sa_worker_id None
    |> set_sa_lease_expires_at None.

Definition unknown_attempt (now : Z) (a : step_attempt) : step_attempt :=
  a |> set_sa_status AttemptStatus.UNKNOWN_OUTCOME |> set_sa_error_layer (Some ERROR_LAYER_WORKER)
    |> set_sa_error_code (Some ERROR_CODE_CANCEL_RECOVERY_UNKNOWN)
    |> set_sa_error_message (Some ERROR_MSG_CANCEL_RECOVERY_UNKNOWN) |> close_attempt now.

(** Case B: a started call may have crossed the send boundary. *)
Definition unknown_step (now : Z) (s : execution_step) : execution_step :=
  s |> set_es_status StepStatus.UNKNOWN_OUTCOME |> set_es_error_code (Some ERROR_CODE_CANCEL_RECOVERY_UNKNOWN)
    |> set_es_error_message (Some ERROR_MSG_CANCEL_RECOVERY_UNKNOWN) |> set_es_finished_at (Some now) |> bump_step.

(** [steps_by_id.get(id)] *)
Definition step_by_id (id : uuid) (st : store) : option execution_step :=
  find_first (λ s, bool_decide (es_id s = id)) (list_steps st).

Definition abandon_attempt (now : Z) (attempt_id : uuid) (st : store) : store :=
  match get_attempt attempt_id st with
  | None => st
  | Some attempt =>
      let st := upd_attempt attempt_id (unknown_attempt now) st in
      match step_by_id (sa_step_execution_id attempt) st with
      | None => st
      | Some step =>
          if is_terminal_step_status (es_status step) then st
          else st |> upd_step (es_id step) (unknown_step now) |> emit_of_step now step
      end
  end.

Definition abandon_call (now : Z) (st : store) (call : tool_call) : store :=
  match get_tool_call (cl_id call) st with
  | None => st
  | Some locked =>
      if negb (call_started locked) then st
      else st |> upd_call (cl_id call) (λ c, c |> set_cl_normalized_status AttemptStatus.UNKNOWN_OUTCOME
                                               |> set_cl_finished_at (Some now))
              |> abandon_attempt now (cl_step_attempt_id locked)
  end.

(** The scan for durable evidence of an unknown outcome, attempt by attempt *)
Definition lift_attempt (now : Z) (a : step_attempt) : step_attempt :=
  if negb (bool_decide (sa_status a = AttemptStatus.STARTED)) then a
  else a |> set_sa_status AttemptStatus.UNKNOWN_OUTCOME |> set_sa_error_layer (Some ERROR_LAYER_WORKER)
         |> set_sa_error_code (Some (str_or (sa_error_code a) ERROR_CODE_CANCEL_RECOVERY_UNKNOWN))
         |> set_sa_error_message (Some (str_or (sa_error_message a) ERROR_MSG_CANCEL_RECOVERY_UNKNOWN))
         |> close_attempt now.

Definition call_unknown (c : tool_call) : bool :=
  bool_decide (cl_normalized_status c = AttemptStatus.UNKNOWN_OUTCOME).

Definition scan_attempt (now : Z) (acc : store * bool) (attempt : step_attempt) : store * bool :=
  let '(st, step_has_unknown) := acc in
  let tool_calls := list_tool_calls (sa_id attempt) st in
  if existsb call_started tool_calls then acc
  else
    let attempt_unknown := bool_decide (sa_status attempt = AttemptStatus.UNKNOWN_OUTCOME) in
    let toolcall_unknown := existsb call_unknown tool_calls in
    if negb attempt_unknown && negb toolcall_unknown then acc
    else (if toolcall_unknown then upd_attempt (sa_id attempt) (lift_attempt now) st else st, true).

Definition promote_step (now : Z) (s : execution_step) : execution_step :=
  s |> set_es_status StepStatus.UNKNOWN_OUTCOME
    |> set_es_error_code (Some (str_or (es_error_code s) ERROR_CODE_CANCEL_RECOVERY_UNKNOWN))
    |> set_es_error_message (Some (str_or (es_error_message s) ERROR_MSG_CANCEL_RECOVERY_UNKNOWN))
    |> set_es_finished_at (match es_finished_at s with None => Some now | f => f end) |> bump_step.

Definition scan_step (now : Z) (st : store) (step : execution_step) : store :=
  let '(st, step_has_unknown) := foldl (scan_attempt now) (st, false) (list_attempts (es_id step) st) in
  if negb step_has_unknown then st
  else match get_step (es_id step) st with
       | None => st
       | Some locked =>
           if is_unknown_step locked then st
           else st |> upd_step (es_id step) (promote_step now) |> emit_of_step now locked
       end.

(** [sorted(steps, key=lambda s: str(s.id))] *)
Definition steps_by_str_id (st : store) : list execution_step :=
  sort_by (λ a b, str_leb (uuid_str (es_id a)) (uuid_str (es_id b))) (list_steps st).

Definition restore_cancel_metadata (original e : execution) : execution :=
  (match ex_cancel_requested_at original with
   | Some t => set_ex_cancel_requested_at (Some t) e
   | None => e
   end) |> set_ex_cancel_requested_by (ex_cancel_requested_by original)
        |> set_ex_cancel_reason (ex_cancel_reason original).

Definition recover_expired_cancel_requested_locked (now : Z) (st : store) : res (store * cancellation_outcome) :=
  let status := ex_status (st_execution st) in
  if bool_decide (status ∈ [ExecutionStatus.CANCELLED; ExecutionStatus.FAILED]) then Ok (st, outcome st IDEMPOTENT)
  else
    _ ← raise_if (negb (bool_decide (status = ExecutionStatus.CANCEL_REQUESTED)))
          (conflict "Execution is not CANCEL_REQUESTED.");
    let original := st_execution st in
    let st := foldl (abandon_call now) st (list_started_tool_calls st) in
    let st := foldl (scan_step now) st (steps_by_str_id st) in
    r ← reconcile_cancel_requested_locked now st;
    Ok (upd_execution (restore_cancel_metadata original) r.1, r.2).
