(* ===== verification/CancelSound.v ===== *)
(** * What cancellation guarantees

    Every started or unknown tool call is evidence of a possible side effect.
    Recovery and reconciliation of a cancelled execution never end in CANCELLED
    over such evidence, and a cancellation settles every step it may settle. *)
From S2P Require Import Prelude PyStr PyDict Json PyUuid Domain Completion Rows Cancellation.

(** ** Keys never change *)
Definition same_keys (st st' : store) : Prop :=
  ex_id (st_execution st') = ex_id (st_execution st) ∧
  (λ s, (es_id s, es_execution_id s)) <$> st_steps st' = (λ s, (es_id s, es_execution_id s)) <$> st_steps st ∧
  (λ a, (sa_id a, sa_step_execution_id a)) <$> st_attempts st'
    = (λ a, (sa_id a, sa_step_execution_id a)) <$> st_attempts st ∧
  (λ c, (cl_id c, cl_step_attempt_id c)) <$> st_calls st' = (λ c, (cl_id c, cl_step_attempt_id c)) <$> st_calls st.

#[export] Instance same_keys_preorder : PreOrder same_keys.
Proof. split; [by intros st|]. intros a b c (?&?&?&?) (?&?&?&?). repeat split; congruence. Qed.

Lemma fmap_fst {A B C} (f : A → B) (g : A → C) (l l' : list A) :
  (λ x, (f x, g x)) <$> l' = (λ x, (f x, g x)) <$> l → f <$> l' = f <$> l ∧ g <$> l' = g <$> l.
Proof.
  intros H. split; [apply (f_equal (fmap fst)) in H|apply (f_equal (fmap snd)) in H];
    by rewrite <- !list_fmap_compose in H.
Qed.

Lemma same_keys_wf st st' : same_keys st st' → store_wf st → store_wf st'.
Proof.
  intros (He & [Hs Hse]%fmap_fst & [Ha Has]%fmap_fst & [Hc Hca]%fmap_fst) [H1 H2 H3 H4 H5 H6].
  split; [congruence..| | |].
  - intros s Hin. rewrite He. apply (list_elem_of_fmap_2 es_execution_id) in Hin. rewrite Hse in Hin.
    apply list_elem_of_fmap in Hin as (x & -> & Hx). by apply H4.
  - intros a Hin. rewrite Hs. apply (list_elem_of_fmap_2 sa_step_execution_id) in Hin. rewrite Has in Hin.
    apply list_elem_of_fmap in Hin as (x & -> & Hx). by apply H5.
  - intros c Hin. rewrite Ha. apply (list_elem_of_fmap_2 cl_step_attempt_id) in Hin. rewrite Hca in Hin.
    apply list_elem_of_fmap in Hin as (x & -> & Hx). by apply H6.
Qed.

Lemma upd_step_keys id f st :
  (∀ s, es_id (f s) = es_id s ∧ es_execution_id (f s) = es_execution_id s) → same_keys st (upd_step id f st).
Proof.
  intros Hf. split; [done|]. split; [|done]. apply upd_where_proj. intros s. destruct (Hf s) as [-> ->]. done.
Qed.

Lemma upd_attempt_keys id f st :
  (∀ a, sa_id (f a) = sa_id a ∧ sa_step_execution_id (f a) = sa_step_execution_id a) →
  same_keys st (upd_attempt id f st).
Proof.
  intros Hf. split; [done|]. split; [done|]. split; [|done]. apply upd_where_proj. intros s.
  destruct (Hf s) as [-> ->]. done.
Qed.

Lemma upd_call_keys id f st :
  (∀ c, cl_id (f c) = cl_id c ∧ cl_step_attempt_id (f c) = cl_step_attempt_id c) → same_keys st (upd_call id f st).
Proof.
  intros Hf. split; [done|]. split; [done|]. split; [done|]. apply upd_where_proj. intros s.
  destruct (Hf s) as [-> ->]. done.
Qed.

(** ** Evidence *)
Definition call_evidence (c : tool_call) : Prop :=
  cl_normalized_status c ∈ [AttemptStatus.STARTED; AttemptStatus.UNKNOWN_OUTCOME].

(** A tool may have run and nobody knows: a started or unknown call, an unknown
    attempt or an unknown step. *)
Definition ambiguous (st : store) : Prop :=
  (∃ c, c ∈ st_calls st ∧ call_evidence c) ∨
  (∃ a, a ∈ st_attempts st ∧ sa_status a = AttemptStatus.UNKNOWN_OUTCOME) ∨
  ∃ s, s ∈ st_steps st ∧ es_status s = StepStatus.UNKNOWN_OUTCOME.

Lemma call_of_step_spec st id c :
  call_of_step st id c = true ↔
  ∃ a, a ∈ st_attempts st ∧ sa_id a = cl_step_attempt_id c ∧ sa_step_execution_id a = id.
Proof. unfold call_of_step. rewrite existsb_elem. setoid_rewrite bool_decide_eq_true. naive_solver. Qed.

(** Every call belongs to a step of the execution. *)
Lemma call_has_step st c :
  store_wf st → c ∈ st_calls st →
  ∃ s, s ∈ list_steps st ∧ call_of_step st (es_id s) c = true.
Proof.
  intros Hwf Hc. pose proof (wf_calls _ Hwf c Hc) as Ha. apply list_elem_of_fmap in Ha as (a & Ha & Hin).
  pose proof (wf_attempts _ Hwf a Hin) as Hs. apply list_elem_of_fmap in Hs as (s & Hs & Hins).
  exists s. rewrite list_steps_wf, call_of_step_spec by done. split; [done|]. by exists a.
Qed.

Lemma started_calls_elem st c :
  store_wf st → c ∈ list_started_tool_calls st ↔ c ∈ st_calls st ∧ cl_normalized_status c = AttemptStatus.STARTED.
Proof.
  intros Hwf. unfold list_started_tool_calls, call_started. rewrite list_elem_of_filter, andb_true_iff,
    bool_decide_eq_true, existsb_elem. split; [naive_solver|]. intros [Hc Hs].
  split; [|done]. split; [done|]. by apply call_has_step.
Qed.

Lemma no_started_calls st :
  store_wf st → list_started_tool_calls st = [] ↔
  ∀ c, c ∈ st_calls st → cl_normalized_status c ≠ AttemptStatus.STARTED.
Proof.
  intros Hwf. split.
  - intros Hnil c Hc Hs. assert (c ∈ list_started_tool_calls st) as H by by apply started_calls_elem.
    rewrite Hnil in H. by apply elem_of_nil in H.
  - intros H. destruct (list_started_tool_calls st) as [|c l] eqn:E; [done|].
    assert (c ∈ list_started_tool_calls st) as Hin by (rewrite E; left).
    apply started_calls_elem in Hin as [Hc Hs]; [|done]. by destruct (H c Hc).
Qed.

(** ** Settling the steps *)
(** The step stays as it is: preserved, terminal, or running with a call in
    flight. *)
Definition keeps (P : list uuid) (st : store) (s : execution_step) : bool :=
  bool_decide (es_id s ∈ P) || is_terminal_step_status (es_status s)
  || bool_decide (es_status s = StepStatus.RUNNING) && step_has_started_tool_call st (es_id s).

Definition settle (now : Z) (P : list uuid) (st : store) (s : execution_step) : execution_step :=
  if keeps P st s then s else cancel_step now s.

Definition attempts_settled (now : Z) : list step_attempt → list step_attempt → Prop :=
  Forall2 (λ a a', a' = a ∨ a' = cancel_attempt now a).

Lemma cancel_attempt_idemp now a : cancel_attempt now (cancel_attempt now a) = cancel_attempt now a.
Proof. unfold cancel_attempt at 2 3. case_bool_decide as H; simpl; [done|]. unfold cancel_attempt. by rewrite bool_decide_false. Qed.

Lemma cancel_attempt_keys now a :
  sa_id (cancel_attempt now a) = sa_id a ∧ sa_step_execution_id (cancel_attempt now a) = sa_step_execution_id a.
Proof. unfold cancel_attempt. by case_bool_decide. Qed.

Lemma cancel_step_keys now s :
  es_id (cancel_step now s) = es_id s ∧ es_execution_id (cancel_step now s) = es_execution_id s.
Proof. unfold cancel_step. by case_match. Qed.

#[export] Instance attempts_settled_preorder now : PreOrder (attempts_settled now).
Proof.
  split.
  - intros l. apply Forall_Forall2_diag, Forall_true. by left.
  - intros l1 l2 l3 H. revert l3. induction H as [|a b l1 l2 Hab _ IH]; intros l3 H3;
      inversion H3 as [|? c ? l3' H2 H4]; subst; constructor.
    + destruct Hab as [Hb|Hb], H2 as [Hc|Hc]; subst; [by left|by right..|right; apply cancel_attempt_idemp].
    + by apply IH.
Qed.

Lemma attempts_settled_upd now p `{∀ a, Decision (p a)} l : attempts_settled now l (upd_where p (cancel_attempt now) l).
Proof.
  unfold upd_where. apply Forall2_fmap_r, Forall_Forall2_diag, Forall_true. intros a. unfold compose. case_decide; [by right|by left].
Qed.

(** Only step and attempt rows change while a step is settled. *)
Definition same_rest (st st' : store) : Prop :=
  st_execution st' = st_execution st ∧ st_calls st' = st_calls st ∧ st_approvals st' = st_approvals st ∧
  st_inputs st' = st_inputs st ∧ st_events st' = st_events st.

#[export] Instance same_rest_preorder : PreOrder same_rest.
Proof. split; [by intros st|]. intros a b c (?&?&?&?&?) (?&?&?&?&?). repeat split; congruence. Qed.

Lemma cancel_idle_attempts now id st :
  let st' := cancel_started_attempts_without_inflight_tool_call now id st in
  same_keys st st' ∧ same_rest st st' ∧ st_steps st' = st_steps st ∧
  attempts_settled now (st_attempts st) (st_attempts st').
Proof.
  unfold cancel_started_attempts_without_inflight_tool_call. generalize (list_attempts id st). intros L. simpl.
  revert st. induction L as [|a L IH]; intros st; [by repeat split|]. simpl.
  destruct (IH (cancel_idle_attempt now st a)) as (H1 & H2 & H3 & H4).
  unfold cancel_idle_attempt in *. case_bool_decide; simpl in *; [|done].
  destruct (existsb call_started _); [done|]. split; [|split; [|split]].
  - etrans; [|exact H1]. apply upd_attempt_keys, cancel_attempt_keys.
  - etrans; [|exact H2]. done.
  - rewrite H3. done.
  - etrans; [|exact H4]. apply attempts_settled_upd.
Qed.

(** One step of the loop *)
Lemma cancel_safe_step_rows now P st s :
  let st' := cancel_safe_step now P st s in
  same_keys st st' ∧ same_rest st st' ∧ attempts_settled now (st_attempts st) (st_attempts st') ∧
  st_steps st' = if keeps P st s then st_steps st
                 else upd_where (λ x, es_id x = es_id s) (cancel_step now) (st_steps st).
Proof.
  unfold cancel_safe_step, keeps. simpl. case_bool_decide as HP; [by repeat split|]. simpl.
  destruct (is_terminal_step_status (es_status s)); [by repeat split|]. simpl.
  destruct (cancel_idle_attempts now (es_id s) st) as (H1 & H2 & H3 & H4).
  assert (∀ st1, same_keys st1 (upd_step (es_id s) (cancel_step now) st1)) as Hk
    by (intros st1; apply upd_step_keys, cancel_step_keys).
  destruct (es_status s) eqn:Es; simpl;
    try (split; [apply Hk|done]);
    try (split; [by etrans; [exact H1|apply Hk]|split; [exact H2|split; [exact H4|by rewrite <- H3]]]).
  destruct (step_has_started_tool_call st (es_id s)); [by repeat split|].
  split; [by etrans; [exact H1|apply Hk]|]. split; [exact H2|]. split; [exact H4|]. by rewrite <- H3.
Qed.

Lemma existsb_fmap {A B} (f : A → B) p (l : list A) : existsb p (f <$> l) = existsb (λ x, p (f x)) l.
Proof. induction l as [|x l IH]; [done|]. simpl. by rewrite <- IH. Qed.

Lemma existsb_pointwise {A} (p q : A → bool) (l : list A) : (∀ x, p x = q x) → existsb p l = existsb q l.
Proof. intros H. induction l as [|x l IH]; [done|]. simpl. by rewrite H, IH. Qed.

Lemma call_of_step_same st st' id c : same_keys st st' → call_of_step st' id c = call_of_step st id c.
Proof.
  intros (_ & _ & Ha & _). unfold call_of_step.
  pose (p := λ k : uuid * uuid, bool_decide (k.1 = cl_step_attempt_id c ∧ k.2 = id)).
  transitivity (existsb p ((λ a, (sa_id a, sa_step_execution_id a)) <$> st_attempts st')).
  - by rewrite existsb_fmap.
  - rewrite Ha. by rewrite existsb_fmap.
Qed.

Lemma step_has_started_same st st' id :
  same_keys st st' → same_rest st st' → step_has_started_tool_call st' id = step_has_started_tool_call st id.
Proof.
  intros Hk (_ & Hc & _). unfold step_has_started_tool_call. rewrite Hc. apply existsb_pointwise.
  intros c. by rewrite (call_of_step_same st st').
Qed.

Lemma keeps_same P st st' s : same_keys st st' → same_rest st st' → keeps P st' s = keeps P st s.
Proof. intros Hk Hr. unfold keeps. by rewrite (step_has_started_same st st'). Qed.

Lemma settle_id now P st s : es_id (settle now P st s) = es_id s.
Proof. unfold settle. case_match; [done|apply cancel_step_keys]. Qed.

(** The loop settles every listed step and changes no other. *)
Lemma cancel_safe_rows now P L st :
  NoDup (es_id <$> st_steps st) → NoDup (es_id <$> L) → (∀ s, s ∈ L → s ∈ st_steps st) →
  let st' := cancel_safe_nonterminal_steps now P L st in
  same_keys st st' ∧ same_rest st st' ∧ attempts_settled now (st_attempts st) (st_attempts st') ∧
  st_steps st' = (λ s, if decide (es_id s ∈ es_id <$> L) then settle now P st s else s) <$> st_steps st.
Proof.
  intros Hnd. simpl. unfold cancel_safe_nonterminal_steps. induction L as [|x L IH] using rev_ind; intros HL Hin.
  { simpl. repeat split; try done. symmetry. rewrite <- (list_fmap_id (st_steps st)) at 2.
    apply list_fmap_ext. intros _ s _. done. }
  rewrite fmap_app, NoDup_app in HL. destruct HL as (HL & Hx & _).
  destruct IH as (H1 & H2 & H3 & H4); [done|intros s Hs; apply Hin, elem_of_app; by left|].
  rewrite foldl_app. simpl. set (st1 := foldl _ st L) in *.
  destruct (cancel_safe_step_rows now P st1 x) as (K1 & K2 & K3 & K4).
  split; [by etrans|]. split; [by etrans|]. split; [by etrans|]. rewrite K4, (keeps_same P st st1) by done.
  assert (∀ s, s ∈ st_steps st → es_id s = es_id x → s = x) as Hinj.
  { intros s Hs Heq. apply (key_inj es_id (st_steps st)); [done..| |done]. apply Hin, elem_of_app. right. left. }
  assert (es_id x ∉ es_id <$> L) as Hfresh by (intros Hf; apply (Hx _ Hf); left).
  transitivity ((λ s, if decide (es_id s = es_id x) then settle now P st s
                      else if decide (es_id s ∈ es_id <$> L) then settle now P st s else s) <$> st_steps st).
  - destruct (keeps P st x) eqn:Ek; rewrite H4; [|unfold upd_where; rewrite <- list_fmap_compose];
      apply list_fmap_ext; intros _ s Hs%list_elem_of_lookup_2.
    + destruct (decide (es_id s = es_id x)) as [Heq|]; [|done]. rewrite (Hinj s Hs Heq).
      rewrite decide_False by done. unfold settle. by rewrite Ek.
    + simpl. destruct (decide (es_id s = es_id x)) as [Heq|Hne].
      * rewrite (Hinj s Hs Heq). rewrite (decide_False (P := es_id x ∈ _)) by done.
        rewrite decide_True by done. unfold settle. by rewrite Ek.
      * rewrite decide_False; [done|]. by case_decide; rewrite ?settle_id.
  - apply list_fmap_ext. intros _ s _. rewrite fmap_app.
    destruct (decide (es_id s = es_id x)) as [Heq|Hne].
    + rewrite decide_True; [done|]. apply elem_of_app. right. rewrite Heq. left.
    + apply decide_ext. rewrite elem_of_app. simpl. rewrite list_elem_of_singleton. naive_solver.
Qed.

Lemma list_steps_perm st : store_wf st → list_steps st ≡ₚ st_steps st.
Proof.
  intros Hwf. unfold list_steps. rewrite sort_by_perm. rewrite filter_all; [done|].
  intros s Hs. by apply Hwf.
Qed.

(** No approval is left pending and no input request open. *)
Definition no_open_waits (st : store) : Prop :=
  (∀ r, r ∈ st_approvals st → ar_execution_id r = ex_id (st_execution st) → ar_status r ≠ ApprovalStatus.PENDING) ∧
  ∀ r, r ∈ st_inputs st → ir_execution_id r = ex_id (st_execution st) → ir_status r ≠ InputStatus.OPEN.

Lemma cancel_everything_rows now by_ P st :
  store_wf st →
  let st' := cancel_everything now by_ P st in
  same_keys st st' ∧ st_execution st' = st_execution st ∧ st_calls st' = st_calls st ∧
  st_events st' = st_events st ∧ no_open_waits st' ∧
  attempts_settled now (st_attempts st) (st_attempts st') ∧ st_steps st' = settle now P st <$> st_steps st.
Proof.
  intros Hwf. unfold cancel_everything. simpl.
  set (st1 := reject_open_mrtr_requests now by_ (cancel_pending_approvals now st)).
  destruct (cancel_safe_rows now P (list_steps st) st1) as (H1 & (E1 & E2 & E3 & E4 & E5) & H3 & H4);
    [apply Hwf|rewrite list_steps_perm by done; apply Hwf|by intros s Hs%list_steps_wf|].
  split; [exact H1|]. split; [exact E1|]. split; [exact E2|]. split; [exact E5|]. split; [|split; [exact H3|]].
  - split; intros r; [rewrite E3|rewrite E4]; rewrite E1; simpl; intros (x & _ & ->)%elem_of_upd_where;
      case_decide as Hd; simpl; try done; intros Hx Hp; by apply Hd.
  - rewrite H4. apply list_fmap_ext. intros _ s Hs%list_elem_of_lookup_2.
    rewrite decide_True by (apply list_elem_of_fmap_2, list_steps_wf; done). done.
Qed.

Lemma settle_terminal now P st s :
  keeps P st s = true ∧ settle now P st s = s ∨ is_terminal_step_status (es_status (settle now P st s)) = true.
Proof. unfold settle. destruct (keeps P st s); [by left|right]. unfold cancel_step. by case_match. Qed.

Lemma settle_unknown now P st s :
  es_status (settle now P st s) = StepStatus.UNKNOWN_OUTCOME ↔ es_status s = StepStatus.UNKNOWN_OUTCOME.
Proof.
  unfold settle, cancel_step. destruct (keeps P st s) eqn:Ek; [done|]. case_match eqn:Et; [done|]. simpl.
  split; [done|]. intros E. by rewrite E in Et.
Qed.

Lemma attempts_settled_unknown now l l' :
  attempts_settled now l l' →
  (∃ a, a ∈ l' ∧ sa_status a = AttemptStatus.UNKNOWN_OUTCOME) ↔
  (∃ a, a ∈ l ∧ sa_status a = AttemptStatus.UNKNOWN_OUTCOME).
Proof.
  induction 1 as [|a a' l l' Ha _ IH]; [done|]. setoid_rewrite elem_of_cons.
  assert (sa_status a' = AttemptStatus.UNKNOWN_OUTCOME ↔ sa_status a = AttemptStatus.UNKNOWN_OUTCOME) as Hs.
  { destruct Ha as [Ha|Ha]; subst; [done|]. unfold cancel_attempt. case_bool_decide as Hd; [|done]. simpl.
    rewrite Hd. done. }
  naive_solver.
Qed.

Lemma existsb_unknown st : store_wf st →
  existsb is_unknown_step (list_steps st) = true ↔ ∃ s, s ∈ st_steps st ∧ es_status s = StepStatus.UNKNOWN_OUTCOME.
Proof.
  intros Hwf. rewrite existsb_elem. setoid_rewrite list_steps_wf; [|done]. unfold is_unknown_step.
  by setoid_rewrite bool_decide_eq_true.
Qed.

(** The end states of a cancelled execution *)
Definition settled (st st' : store) : Prop :=
  same_keys st st' ∧ ex_worker_id (st_execution st') = None ∧ ex_lease_token (st_execution st') = None ∧
  ex_lease_expires_at (st_execution st') = None ∧ ex_heartbeat_at (st_execution st') = None ∧
  is_Some (ex_finished_at (st_execution st')) ∧ no_open_waits st' ∧
  ∀ s, s ∈ st_steps st' → is_terminal_step_status (es_status s) = true.

Lemma settle_all_terminal now st s :
  (∀ c, c ∈ st_calls st → cl_normalized_status c ≠ AttemptStatus.STARTED) →
  is_terminal_step_status (es_status (settle now [] st s)) = true.
Proof.
  intros Hns. destruct (settle_terminal now [] st s) as [[Hk ->]|H]; [|done]. unfold keeps in Hk.
  rewrite bool_decide_false in Hk by apply not_elem_of_nil. simpl in Hk.
  destruct (is_terminal_step_status (es_status s)); [done|]. simpl in Hk. apply andb_true_iff in Hk as [_ Hk].
  unfold step_has_started_tool_call in Hk. apply existsb_elem in Hk as (c & Hc & Hk).
  apply andb_true_iff in Hk as [Hk _]. unfold call_started in Hk. apply bool_decide_eq_true in Hk.
  by destruct (Hns c Hc).
Qed.

(** The cancel request itself is never rewritten. *)
Definition same_request (e e' : execution) : Prop :=
  ex_cancel_requested_at e' = ex_cancel_requested_at e ∧ ex_cancel_requested_by e' = ex_cancel_requested_by e ∧
  ex_cancel_reason e' = ex_cancel_reason e.

Lemma reconcile_ends now st :
  store_wf st → ex_status (st_execution st) = ExecutionStatus.CANCEL_REQUESTED → list_started_tool_calls st = [] →
  ∃ st' o, reconcile_cancel_requested_locked now st = Ok (st', o) ∧ o = outcome st' RECONCILED ∧ settled st st' ∧
    st_calls st' = st_calls st ∧ attempts_settled now (st_attempts st) (st_attempts st') ∧
    st_steps st' = settle now [] st <$> st_steps st ∧ same_request (st_execution st) (st_execution st') ∧
    ex_status (st_execution st')
    = if existsb is_unknown_step (list_steps st) then ExecutionStatus.FAILED else ExecutionStatus.CANCELLED.
Proof.
  intros Hwf Hst Hns. unfold reconcile_cancel_requested_locked. rewrite Hst, Hns.
  rewrite !bool_decide_false by done. rewrite bool_decide_true by done. cbn [negb raise_if mbind res_bind].
  destruct (cancel_everything_rows now (ex_cancel_requested_by (st_execution st)) [] st Hwf)
    as (Hk & He & Hc & _ & Hw & Ha & Hs).
  set (st1 := cancel_everything now (ex_cancel_requested_by (st_execution st)) [] st) in *.
  assert (∀ s, s ∈ st_steps st1 → is_terminal_step_status (es_status s) = true) as Hterm.
  { intros s Hin. rewrite Hs in Hin. apply list_elem_of_fmap in Hin as (x & -> & _).
    apply settle_all_terminal. by apply no_started_calls. }
  assert (∀ f p st2, (∀ e, ex_id (f e) = ex_id e ∧ ex_worker_id (f e) = None ∧ ex_lease_token (f e) = None ∧
      ex_lease_expires_at (f e) = None ∧ ex_heartbeat_at (f e) = None ∧ is_Some (ex_finished_at (f e)) ∧
      same_request e (f e)) →
    st2 = emit_execution_status_changed p now (upd_execution f st1) →
    settled st st2 ∧ st_calls st2 = st_calls st ∧ attempts_settled now (st_attempts st) (st_attempts st2) ∧
    st_steps st2 = settle now [] st <$> st_steps st ∧ same_request (st_execution st) (st_execution st2) ∧
    ex_status (st_execution st2) = ex_status (f (st_execution st1))) as Hend.
  { intros f p st2 Hf ->. destruct (emit_execution_rows p now (upd_execution f st1)) as (E1 & E2 & E3 & E4 & E5 & E6).
    destruct (Hf (st_execution st1)) as (F1 & F2 & F3 & F4 & F5 & F6 & F7).
    unfold settled, no_open_waits, same_keys. rewrite E1, E2, E3, E4, E5, E6. simpl. rewrite F1.
    destruct Hk as (K1 & K2 & K3 & K4). repeat (split; [first [done|apply Hw|by rewrite <- He]|]). done. }
  destruct (existsb is_unknown_step (list_steps st)); eexists _, _; (split; [done|]); (split; [done|]);
    unfold fail_unknown, finish_cancelled; fold st1;
    match goal with |- settled _ (emit_execution_status_changed ?p _ (upd_execution ?f _)) ∧ _ =>
      destruct (Hend f p _ ltac:(by intros e) eq_refl) as (H1 & H2 & H3 & H4 & H5 & H6) end;
    repeat (split; [assumption|]); exact H6.
Qed.

(** ** Recovery, first pass: calls in flight become unknown *)
Definition same_others (st st' : store) : Prop :=
  same_keys st st' ∧ st_execution st' = st_execution st ∧ st_approvals st' = st_approvals st ∧
  st_inputs st' = st_inputs st.

#[export] Instance same_others_preorder : PreOrder same_others.
Proof.
  split; [by intros st|]. intros a b c (?&?&?&?) (?&?&?&?). split; [by etrans|]. repeat split; congruence.
Qed.

Lemma abandon_attempt_rows now id st :
  let st' := abandon_attempt now id st in same_others st st' ∧ st_calls st' = st_calls st.
Proof.
  unfold abandon_attempt. simpl. destruct (get_attempt id st) as [a|]; [|done].
  set (st1 := upd_attempt id (unknown_attempt now) st).
  assert (same_others st st1 ∧ st_calls st1 = st_calls st) as [H1 H2].
  { split; [|done]. split; [|done]. by apply upd_attempt_keys. }
  destruct (step_by_id (sa_step_execution_id a) st1) as [s|]; [|done].
  destruct (is_terminal_step_status (es_status s)); [done|].
  set (st2 := upd_step (es_id s) (unknown_step now) st1).
  destruct (emit_of_step_rows now s st2) as (E1 & E2 & E3 & E4 & E5 & E6).
  split; [|by rewrite E4]. etrans; [exact H1|].
  assert (same_keys st1 st2) as (K1 & K2 & K3 & K4) by by apply upd_step_keys.
  split; [|by rewrite E1, E5, E6]. unfold same_keys. by rewrite E1, E2, E3, E4.
Qed.

Lemma abandon_call_rows now st c :
  store_wf st →
  let st' := abandon_call now st c in
  same_others st st' ∧
  (∀ c', c' ∈ st_calls st' → cl_normalized_status c' = AttemptStatus.STARTED → c' ∈ st_calls st ∧ cl_id c' ≠ cl_id c) ∧
  (ambiguous st' ↔ ambiguous st).
Proof.
  intros Hwf. unfold abandon_call. simpl. destruct (get_tool_call (cl_id c) st) as [l|] eqn:El.
  2: { split; [done|]. split; [|done]. intros c' Hc' _. split; [done|]. intros Heq. unfold get_tool_call in El.
       rewrite find_first_None in El. specialize (El c' Hc'). by rewrite bool_decide_true in El. }
  apply find_key_Some in El as [Hl Hid]. destruct (call_started l) eqn:Es; unfold call_started in Es.
  - simpl. apply bool_decide_eq_true in Es. set (mark := λ c0, set_cl_finished_at _ _).
    set (st1 := upd_call (cl_id c) mark st).
    destruct (abandon_attempt_rows now (cl_step_attempt_id l) st1) as [H1 H2].
    assert (same_keys st st1) as Hk by by apply upd_call_keys. split; [|split; [|split; intros _]].
    + etrans; [|exact H1]. done.
    + rewrite H2. intros c' (x & Hx & ->)%elem_of_upd_where. case_decide as Hd; [done|]. done.
    + left. exists l. split; [done|]. unfold call_evidence. rewrite Es. left.
    + left. exists (mark l). rewrite H2. split; [|right; left]. apply elem_of_upd_where.
      exists l. split; [done|]. by rewrite decide_True.
  - simpl. split; [done|]. split; [|done]. intros c' Hc' Hs. split; [done|]. intros Heq.
    apply bool_decide_eq_false in Es. apply Es. rewrite <- Hs. f_equal.
    symmetry. apply (key_inj cl_id (st_calls st)); [apply Hwf|done..|congruence].
Qed.

Lemma abandon_calls_rows now L st :
  store_wf st →
  let st' := foldl (abandon_call now) st L in
  same_others st st' ∧
  (∀ c', c' ∈ st_calls st' → cl_normalized_status c' = AttemptStatus.STARTED →
     c' ∈ st_calls st ∧ cl_id c' ∉ cl_id <$> L) ∧
  (ambiguous st' ↔ ambiguous st).
Proof.
  revert st. induction L as [|c L IH]; intros st Hwf; simpl.
  { split; [done|]. split; [|done]. intros c' Hc _. split; [done|apply not_elem_of_nil]. }
  destruct (abandon_call_rows now st c Hwf) as (H1 & H2 & H3).
  destruct (IH (abandon_call now st c)) as (K1 & K2 & K3); [eapply same_keys_wf; [apply H1|done]|].
  split; [by etrans|]. split; [|by rewrite K3].
  intros c' Hc' Hs. destruct (K2 c' Hc' Hs) as [Hin Hout]. destruct (H2 c' Hin Hs) as [? ?].
  split; [done|]. by apply not_elem_of_cons.
Qed.

Lemma abandon_all now st :
  store_wf st →
  let st' := foldl (abandon_call now) st (list_started_tool_calls st) in
  same_others st st' ∧ (∀ c, c ∈ st_calls st' → cl_normalized_status c ≠ AttemptStatus.STARTED) ∧
  (ambiguous st' ↔ ambiguous st).
Proof.
  intros Hwf. destruct (abandon_calls_rows now (list_started_tool_calls st) st Hwf) as (H1 & H2 & H3).
  split; [done|]. split; [|done]. intros c Hc Hs. destruct (H2 c Hc Hs) as [Hin Hout]. apply Hout.
  apply list_elem_of_fmap_2. by apply started_calls_elem.
Qed.

(** ** Recovery, second pass: unknown evidence reaches the step *)
Definition attempt_evidence (st : store) (a : step_attempt) : Prop :=
  sa_status a = AttemptStatus.UNKNOWN_OUTCOME ∨
  ∃ c, c ∈ st_calls st ∧ cl_step_attempt_id c = sa_id a ∧ cl_normalized_status c = AttemptStatus.UNKNOWN_OUTCOME.
Definition step_evidence (st : store) (id : uuid) : Prop :=
  ∃ a, a ∈ st_attempts st ∧ sa_step_execution_id a = id ∧ attempt_evidence st a.
Definition none_started (st : store) : Prop :=
  ∀ c, c ∈ st_calls st → cl_normalized_status c ≠ AttemptStatus.STARTED.

Lemma ambiguous_steps st :
  store_wf st → none_started st →
  ambiguous st ↔ (∃ id, step_evidence st id) ∨ ∃ s, s ∈ st_steps st ∧ es_status s = StepStatus.UNKNOWN_OUTCOME.
Proof.
  intros Hwf Hns. unfold ambiguous. split.
  - intros [(c & Hc & He)|[(a & Ha & He)|Hs]]; [left|left|by right].
    + unfold call_evidence in He. rewrite !elem_of_cons, elem_of_nil in He. destruct He as [He|[He|[]]];
        [by destruct (Hns c Hc)|].
      pose proof (wf_calls _ Hwf c Hc) as Hk. apply list_elem_of_fmap in Hk as (a & Hk & Ha).
      exists (sa_step_execution_id a), a. split; [done|]. split; [done|]. right. by exists c.
    + exists (sa_step_execution_id a), a. split; [done|]. split; [done|]. by left.
  - intros [(id & a & Ha & _ & [He|(c & Hc & _ & He)])|Hs]; [right; left; by exists a| |by right; right].
    left. exists c. split; [done|]. unfold call_evidence. rewrite He. right. left.
Qed.

Lemma lift_attempt_keys now a :
  sa_id (lift_attempt now a) = sa_id a ∧ sa_step_execution_id (lift_attempt now a) = sa_step_execution_id a.
Proof. unfold lift_attempt. by case_bool_decide. Qed.

Lemma lift_attempt_unknown now a :
  sa_status a = AttemptStatus.UNKNOWN_OUTCOME → sa_status (lift_attempt now a) = AttemptStatus.UNKNOWN_OUTCOME.
Proof. unfold lift_attempt. by case_bool_decide. Qed.

Lemma lift_evidence now id st sid :
  (∃ c, c ∈ st_calls st ∧ cl_step_attempt_id c = id ∧ cl_normalized_status c = AttemptStatus.UNKNOWN_OUTCOME) →
  step_evidence (upd_attempt id (lift_attempt now) st) sid ↔ step_evidence st sid.
Proof.
  intros Hcall. unfold step_evidence, attempt_evidence. simpl. split.
  - intros (a' & (a & Ha & ->)%elem_of_upd_where & Hs & He). exists a. split; [done|].
    case_decide as Hd; [|done]. destruct (lift_attempt_keys now a) as [K1 K2]. rewrite K2 in Hs. rewrite K1 in He.
    split; [done|]. right. by rewrite Hd.
  - intros (a & Ha & Hs & He). eexists. split; [apply elem_of_upd_where; exists a; split; [done|reflexivity]|].
    case_decide as Hd; [|done]. destruct (lift_attempt_keys now a) as [-> ->]. split; [done|]. right. by rewrite Hd.
Qed.

Lemma scan_attempt_rows now st flag a :
  none_started st →
  let r := scan_attempt now (st, flag) a in
  same_others st r.1 ∧ st_calls r.1 = st_calls st ∧ st_steps r.1 = st_steps st ∧
  (∀ sid, step_evidence r.1 sid ↔ step_evidence st sid) ∧ (r.2 = true ↔ flag = true ∨ attempt_evidence st a).
Proof.
  intros Hns. unfold scan_attempt. simpl.
  assert (existsb call_started (list_tool_calls (sa_id a) st) = false) as ->.
  { apply existsb_elem_false. intros c [Hc _]%elem_of_list_tool_calls. by apply bool_decide_eq_false, Hns. }
  assert (existsb call_unknown (list_tool_calls (sa_id a) st) = true ↔
    ∃ c, c ∈ st_calls st ∧ cl_step_attempt_id c = sa_id a ∧ cl_normalized_status c = AttemptStatus.UNKNOWN_OUTCOME)
    as Hu.
  { rewrite existsb_elem. setoid_rewrite elem_of_list_tool_calls. unfold call_unknown.
    setoid_rewrite bool_decide_eq_true. naive_solver. }
  unfold attempt_evidence. rewrite <- Hu. case_bool_decide as Hs; simpl;
    destruct (existsb call_unknown _) eqn:Ec; simpl;
    try (repeat (split; [done|]); naive_solver);
    (split; [split; [apply upd_attempt_keys, lift_attempt_keys|done]|]; split; [done|]; split; [done|];
     split; [intros sid; apply lift_evidence; by apply Hu|naive_solver]).
Qed.

Lemma attempt_evidence_calls st st' a :
  st_calls st' = st_calls st → attempt_evidence st' a ↔ attempt_evidence st a.
Proof. intros H. unfold attempt_evidence. by rewrite H. Qed.

(** What a scan changes: rows of attempts and steps, never a call, and no
    evidence. *)
Definition scanned (st st' : store) : Prop :=
  same_others st st' ∧ st_calls st' = st_calls st ∧ ∀ sid, step_evidence st' sid ↔ step_evidence st sid.

#[export] Instance scanned_preorder : PreOrder scanned.
Proof.
  split; [by intros st|]. intros a b c (?&?&H1) (?&?&H2). split; [by etrans|]. split; [congruence|].
  intros sid. by rewrite H2, H1.
Qed.

Lemma scan_attempts_rows now L st flag :
  none_started st →
  let r := foldl (scan_attempt now) (st, flag) L in
  scanned st r.1 ∧ st_steps r.1 = st_steps st ∧
  (r.2 = true ↔ flag = true ∨ ∃ a, a ∈ L ∧ attempt_evidence st a).
Proof.
  revert st flag. induction L as [|a L IH]; intros st flag Hns; cbn [foldl].
  { split; [done|]. split; [done|]. setoid_rewrite elem_of_nil. naive_solver. }
  destruct (scan_attempt_rows now st flag a Hns) as (H1 & H2 & H3 & H4 & H5).
  destruct (scan_attempt now (st, flag) a) as [st1 flag1] eqn:E. simpl in *.
  destruct (IH st1 flag1) as (K1 & K2 & K3); [unfold none_started; by rewrite H2|].
  split; [by etrans; [|exact K1]|]. split; [congruence|]. rewrite K3, H5.
  setoid_rewrite (attempt_evidence_calls st st1); [|done]. setoid_rewrite elem_of_cons. naive_solver.
Qed.

Lemma step_evidence_rows st st' sid :
  st_attempts st' = st_attempts st → st_calls st' = st_calls st → step_evidence st' sid ↔ step_evidence st sid.
Proof. intros Ha Hc. unfold step_evidence, attempt_evidence. by rewrite Ha, Hc. Qed.

(** The steps of [l'] are those of [l], UNKNOWN ones those already so and
    those in [E]. *)
Definition marked (E : uuid → Prop) : list execution_step → list execution_step → Prop :=
  Forall2 (λ s s', es_id s' = es_id s ∧
    (es_status s' = StepStatus.UNKNOWN_OUTCOME ↔ es_status s = StepStatus.UNKNOWN_OUTCOME ∨ E (es_id s))).

Lemma marked_none E l : (∀ s, s ∈ l → E (es_id s) → es_status s = StepStatus.UNKNOWN_OUTCOME) → marked E l l.
Proof. intros H. apply Forall_Forall2_diag, Forall_forall. intros s Hs. split; [done|]. naive_solver. Qed.

Lemma marked_trans E1 E2 E3 l1 l2 l3 :
  (∀ id, E3 id ↔ E1 id ∨ E2 id) → marked E1 l1 l2 → marked E2 l2 l3 → marked E3 l1 l3.
Proof.
  intros HE H12. revert l3. induction H12 as [|s1 s2 l1 l2 [Hi Hs] _ IH]; intros l3 H23;
    inversion H23 as [|? s3 ? l3' [Hi' Hs'] H]; subst; constructor; [|by apply IH].
  split; [congruence|]. rewrite Hs', Hs, HE, Hi. tauto.
Qed.

Lemma marked_upd E id f l :
  (∀ s, es_id (f s) = es_id s) → (∀ s, es_status (f s) = StepStatus.UNKNOWN_OUTCOME) →
  (∀ i, E i ↔ i = id) → marked E l (upd_where (λ s, es_id s = id) f l).
Proof.
  intros Hid Hst HE. apply Forall2_fmap_r, Forall_Forall2_diag, Forall_true. intros s. unfold compose.
  rewrite HE. case_decide; [rewrite Hid, Hst|]; naive_solver.
Qed.

Lemma marked_unknown E l l' :
  marked E l l' →
  (∃ s, s ∈ l' ∧ es_status s = StepStatus.UNKNOWN_OUTCOME) ↔
  (∃ s, s ∈ l ∧ es_status s = StepStatus.UNKNOWN_OUTCOME) ∨ ∃ s, s ∈ l ∧ E (es_id s).
Proof.
  induction 1 as [|s s' l l' [Hi Hs] _ IH]; [setoid_rewrite elem_of_nil; naive_solver|].
  setoid_rewrite elem_of_cons. naive_solver.
Qed.

(** One step of the scan: its row becomes UNKNOWN exactly on evidence. *)
Lemma scan_step_rows now st x :
  store_wf st → none_started st → es_id x ∈ es_id <$> st_steps st →
  let st' := scan_step now st x in
  scanned st st' ∧ marked (λ id, id = es_id x ∧ step_evidence st id) (st_steps st) (st_steps st').
Proof.
  intros Hwf Hns Hx. unfold scan_step.
  destruct (scan_attempts_rows now (list_attempts (es_id x) st) st false Hns) as (H1 & H2 & H3).
  destruct (foldl _ _ _) as [st1 flag]. simpl in *.
  assert (flag = true ↔ step_evidence st (es_id x)) as Hev.
  { rewrite H3. unfold step_evidence. setoid_rewrite elem_of_list_attempts. naive_solver. }
  clear H3. destruct flag; simpl.
  2: { split; [done|]. rewrite H2. apply marked_none. intros s _ [Heq He]. rewrite Heq in He. by apply Hev in He. }
  apply list_elem_of_fmap in Hx as (y & Hy & Hin).
  unfold get_step. rewrite H2, Hy, (find_key es_id _ y (wf_step_ids _ Hwf) Hin).
  destruct (is_unknown_step y) eqn:Eu; unfold is_unknown_step in Eu.
  - split; [done|]. rewrite H2. apply marked_none. intros s Hs [Heq _]. apply bool_decide_eq_true in Eu.
    by rewrite (key_inj es_id (st_steps st) s y (wf_step_ids _ Hwf) Hs Hin Heq).
  - set (st2 := upd_step (es_id y) (promote_step now) st1).
    destruct (emit_of_step_rows now y st2) as (E1 & E2 & E3 & E4 & E5 & E6).
    split.
    + etrans; [exact H1|]. assert (same_keys st1 st2) as (K1 & K2 & K3 & K4) by by apply upd_step_keys.
      split; [|split; [done|intros sid; by apply step_evidence_rows]].
      split; [|by rewrite E1, E5, E6]. unfold same_keys. by rewrite E1, E2, E3, E4.
    + rewrite E2. simpl. rewrite H2. apply marked_upd; [done|done|]. intros i. rewrite <- Hy.
      split; [by intros []|]. intros ->. split; [done|]. by apply Hev.
Qed.

Lemma scan_steps_rows now L st :
  store_wf st → none_started st → (∀ x, x ∈ L → es_id x ∈ es_id <$> st_steps st) →
  let st' := foldl (scan_step now) st L in
  scanned st st' ∧ marked (λ id, id ∈ es_id <$> L ∧ step_evidence st id) (st_steps st) (st_steps st').
Proof.
  revert st. induction L as [|x L IH]; intros st Hwf Hns HL; cbn [foldl].
  { split; [done|]. apply marked_none. intros s _ [[]%elem_of_nil _]. }
  destruct (scan_step_rows now st x Hwf Hns) as ((H1 & H2 & H3) & H4); [apply HL; left|].
  set (st1 := scan_step now st x) in *. destruct (IH st1) as (K1 & K2).
  - by eapply same_keys_wf; [apply H1|].
  - unfold none_started. by rewrite H2.
  - destruct H1 as ((_ & [Hs _]%fmap_fst & _) & _). rewrite Hs. intros y Hy. apply HL. by right.
  - split; [by etrans; [|exact K1]|]. eapply marked_trans; [|exact H4|exact K2]. intros id. simpl.
    rewrite H3. cbn [fmap list_fmap]. rewrite elem_of_cons. tauto.
Qed.

(** The scan lifts all the evidence there is to the steps. *)
Lemma scan_all now st :
  store_wf st → none_started st →
  let st' := foldl (scan_step now) st (steps_by_str_id st) in
  scanned st st' ∧
  (ambiguous st ↔ ∃ s, s ∈ st_steps st' ∧ es_status s = StepStatus.UNKNOWN_OUTCOME).
Proof.
  intros Hwf Hns. simpl. assert (∀ x, x ∈ steps_by_str_id st ↔ x ∈ st_steps st) as HL.
  { intros x. unfold steps_by_str_id. rewrite sort_by_perm. by apply list_steps_wf. }
  destruct (scan_steps_rows now (steps_by_str_id st) st Hwf Hns) as (H1 & H2).
  { intros x Hx%HL. by apply list_elem_of_fmap_2. }
  split; [done|]. rewrite (marked_unknown _ _ _ H2), ambiguous_steps by done.
  assert ((∃ id, step_evidence st id) ↔
    ∃ s, s ∈ st_steps st ∧ es_id s ∈ es_id <$> steps_by_str_id st ∧ step_evidence st (es_id s)) as ->; [|tauto].
  split; [|naive_solver]. intros (id & a & Ha & Hs & He). pose proof (wf_attempts _ Hwf a Ha) as Hk.
  rewrite Hs in Hk. apply list_elem_of_fmap in Hk as (s & -> & Hin). exists s. split; [done|].
  split; [by apply list_elem_of_fmap_2, HL|]. by exists a.
Qed.

(** ** The guarantees *)
Lemma none_started_same st st' : st_calls st' = st_calls st → none_started st' ↔ none_started st.
Proof. intros H. unfold none_started. by rewrite H. Qed.

Lemma settle_steps_unknown now P st0 l :
  (∃ s : execution_step, s ∈ (settle now P st0 <$> l : list _) ∧ es_status s = StepStatus.UNKNOWN_OUTCOME) ↔
  ∃ s, s ∈ l ∧ es_status s = StepStatus.UNKNOWN_OUTCOME.
Proof.
  setoid_rewrite list_elem_of_fmap. split.
  - intros (s & (x & -> & Hx) & Hs). apply settle_unknown in Hs. by exists x.
  - intros (x & Hx & Hs). exists (settle now P st0 x). split; [by exists x|by apply settle_unknown].
Qed.

(** After the scan every evidence shows as an UNKNOWN step. *)
Lemma ambiguous_scanned st st' :
  store_wf st → none_started st → scanned st st' →
  (ambiguous st ↔ ∃ s, s ∈ st_steps st' ∧ es_status s = StepStatus.UNKNOWN_OUTCOME) →
  ambiguous st' → ∃ s, s ∈ st_steps st' ∧ es_status s = StepStatus.UNKNOWN_OUTCOME.
Proof.
  intros Hwf Hns ((Hk & _) & Hc & He) Hiff Hamb.
  rewrite ambiguous_steps in Hamb; [|by eapply same_keys_wf|by apply (none_started_same st)].
  destruct Hamb as [[id Hid]|]; [|done]. apply Hiff, ambiguous_steps; [done..|]. left. exists id. by apply He.
Qed.

(** C12: Recovering a cancelled execution whose worker died always ends it: the
    lease is gone, nothing waits, every step is terminal, no call is started.
    It ends CANCELLED only when no call, attempt or step left an unknown
    outcome behind, a call in flight when the worker died included; otherwise
    it ends FAILED with an UNKNOWN_OUTCOME step to show for it.  The recorded
    request is kept. *)
Theorem recover_cancel_never_hides_unknown now st :
  store_wf st → ex_status (st_execution st) = ExecutionStatus.CANCEL_REQUESTED →
  ∃ st' o, recover_expired_cancel_requested_locked now st = Ok (st', o) ∧
    settled st st' ∧ none_started st' ∧ same_request (st_execution st) (st_execution st') ∧
    co_status o = ex_status (st_execution st') ∧
    ((ambiguous st ∧ ex_status (st_execution st') = ExecutionStatus.FAILED ∧
      ∃ s, s ∈ st_steps st' ∧ es_status s = StepStatus.UNKNOWN_OUTCOME) ∨
     (¬ ambiguous st ∧ ex_status (st_execution st') = ExecutionStatus.CANCELLED ∧ ¬ ambiguous st')).
Proof.
  intros Hwf Hst. unfold recover_expired_cancel_requested_locked. rewrite Hst.
  rewrite bool_decide_false, bool_decide_true by (rewrite ?elem_of_cons, ?elem_of_nil; naive_solver).
  cbn [negb raise_if mbind res_bind].
  destruct (abandon_all now st Hwf) as ((A1 & A2 & A3 & A4) & A5 & A6).
  set (st1 := foldl (abandon_call now) st _) in *. assert (store_wf st1) as Hwf1 by by eapply same_keys_wf.
  destruct (scan_all now st1 Hwf1 A5) as (((B1 & B2 & B3 & B4) & B5 & B6) & B7).
  set (st2 := foldl (scan_step now) st1 _) in *. assert (store_wf st2) as Hwf2 by by eapply same_keys_wf.
  assert (none_started st2) as Hns by by apply (none_started_same st1).
  destruct (reconcile_ends now st2 Hwf2) as (st3 & o & -> & -> & Hset & Hc & Ha & Hs & Hr & Hend);
    [congruence|by apply no_started_calls|].
  cbn [mbind res_bind fst snd]. eexists _, _. split; [done|].
  rewrite B2, A2 in Hr.
  assert (∀ e, ex_status (restore_cancel_metadata (st_execution st) e) = ex_status e) as Hrs.
  { intros e. unfold restore_cancel_metadata. by destruct (ex_cancel_requested_at _). }
  assert ((∃ s, s ∈ st_steps st3 ∧ es_status s = StepStatus.UNKNOWN_OUTCOME) ↔ ambiguous st) as Hu
    by (rewrite Hs, settle_steps_unknown, <- B7; done).
  cbn [upd_execution set_st_execution st_execution st_steps outcome co_status]. rewrite Hrs. split; [|split; [|split; [|split; [done|]]]].
  - destruct Hset as (K1 & K2). assert (same_keys st st3) as K by (etrans; [exact A1|etrans; [exact B1|exact K1]]).
    destruct K as (K3 & K4). unfold settled, same_keys, no_open_waits, restore_cancel_metadata in *. simpl.
    by destruct (ex_cancel_requested_at (st_execution st)).
  - by apply (none_started_same st2).
  - destruct Hr as (R1 & R2 & R3). unfold same_request, restore_cancel_metadata.
    by destruct (ex_cancel_requested_at (st_execution st)).
  - assert (ambiguous st ↔ existsb is_unknown_step (list_steps st2) = true) as Hiff
      by (rewrite existsb_unknown, <- B7 by done; by symmetry).
    destruct (existsb is_unknown_step (list_steps st2)) eqn:Eu; [left|right].
    + split; [by apply Hiff|]. split; [done|]. by apply Hu, Hiff.
    + assert (¬ ambiguous st) as Hno by (rewrite Hiff; done). split; [done|]. split; [done|].
      intros Hamb. apply Hno, A6, B7. apply (ambiguous_scanned st1 st2); [done..|].
      destruct Hamb as [H|[H|H]]; [left|right; left|right; right]; simpl in H.
      * by rewrite Hc in H.
      * by apply (attempts_settled_unknown now _ _ Ha).
      * by rewrite Hs, settle_steps_unknown in H.
Qed.

(** *** The request *)
(** Nothing left to do on the step before its call returns *)
Definition quiet (st : store) (s : execution_step) : Prop :=
  is_terminal_step_status (es_status s) = true ∨
  es_status s = StepStatus.RUNNING ∧ step_has_started_tool_call st (es_id s) = true.

Lemma preserve_ids_started st id :
  store_wf st → id ∈ preserve_ids st →
  ∃ s, s ∈ st_steps st ∧ es_id s = id ∧ es_status s = StepStatus.RUNNING ∧ step_has_started_tool_call st id = true.
Proof.
  intros Hwf (s & -> & Hs)%list_elem_of_fmap. apply list_elem_of_filter in Hs as [[Hr Ha] Hs].
  apply list_steps_wf in Hs; [|done]. exists s. split; [done|]. split; [done|]. split; [done|].
  apply existsb_elem in Ha as (a & [Ha Has]%elem_of_list_attempts & Hc%bool_decide_eq_true).
  apply list_elem_of_fmap in Hc as (c & Hc & [Hin Hst]%started_calls_elem); [|done].
  unfold step_has_started_tool_call. apply existsb_elem. exists c. split; [done|]. apply andb_true_iff.
  split; [by apply bool_decide_eq_true|]. apply call_of_step_spec. by exists a.
Qed.

Lemma settle_quiet now P st s :
  store_wf st → s ∈ st_steps st → (∀ id, id ∈ P → id ∈ preserve_ids st) → quiet st (settle now P st s).
Proof.
  intros Hwf Hs HP. destruct (settle_terminal now P st s) as [[Hk ->]|H]; [|by left]. unfold keeps in Hk.
  rewrite !orb_true_iff, andb_true_iff, !bool_decide_eq_true in Hk. destruct Hk as [[Hk|Hk]|Hk]; [|by left|by right].
  apply HP, preserve_ids_started in Hk as (x & Hx & Hid & Hr & Hk); [|done].
  rewrite <- (key_inj es_id (st_steps st) x s (wf_step_ids _ Hwf) Hx Hs Hid). right. by rewrite Hid.
Qed.

(** What a request that is acted upon leaves behind *)
Definition cancelling (now : Z) (by_ : option uuid) (reason : option string) (st st' : store) : Prop :=
  let e := st_execution st in let e' := st_execution st' in
  same_keys st st' ∧ st_calls st' = st_calls st ∧ no_open_waits st' ∧
  attempts_settled now (st_attempts st) (st_attempts st') ∧
  (∀ s, s ∈ st_steps st' → quiet st s) ∧
  match ex_cancel_requested_at e with
  | Some _ => same_request e e'
  | None => ex_cancel_requested_at e' = Some now ∧ ex_cancel_requested_by e' = by_ ∧ ex_cancel_reason e' = reason
  end.

Lemma request_rows now by_ reason st :
  let st1 := upd_execution (set_cancel_metadata_once now by_ reason) st in
  ex_id (st_execution st1) = ex_id (st_execution st) ∧
  list_started_tool_calls st1 = list_started_tool_calls st ∧ preserve_ids st1 = preserve_ids st.
Proof.
  simpl. unfold preserve_ids, list_started_tool_calls, list_steps, set_cancel_metadata_once. simpl.
  by destruct (ex_cancel_requested_at _).
Qed.

Lemma cancelling_rows now by_ reason P f prev st :
  store_wf st → (∀ id, id ∈ P → id ∈ preserve_ids st) →
  (∀ e, ex_id (f e) = ex_id e ∧ same_request e (f e)) →
  let st' := emit_execution_status_changed prev now
    (upd_execution f (cancel_everything now by_ P (upd_execution (set_cancel_metadata_once now by_ reason) st))) in
  cancelling now by_ reason st st' ∧
  st_execution st' = f (set_cancel_metadata_once now by_ reason (st_execution st)).
Proof.
  intros Hwf HP Hf. simpl. set (st1 := upd_execution (set_cancel_metadata_once now by_ reason) st).
  destruct (request_rows now by_ reason st) as (Hid & _ & Hpi). fold st1 in Hid, Hpi.
  assert (store_wf st1) as Hwf1 by (eapply same_keys_wf; [|exact Hwf]; by split).
  destruct (cancel_everything_rows now by_ P st1 Hwf1) as ((Hk1 & Hk) & He & Hc & _ & Hw & Ha & Hs).
  set (st2 := cancel_everything now by_ P st1) in *.
  destruct (emit_execution_rows prev now (upd_execution f st2)) as (E1 & E2 & E3 & E4 & E5 & E6).
  destruct (Hf (st_execution st2)) as [F1 F2].
  unfold cancelling, same_keys, no_open_waits. rewrite E1, E2, E3, E4, E5, E6.
  cbn [upd_execution set_st_execution st_execution st_steps st_attempts st_calls st_approvals st_inputs].
  split; [|by rewrite He]. rewrite F1. split; [split; [congruence|exact Hk]|]. split; [exact Hc|].
  split; [exact Hw|]. split; [exact Ha|]. split.
  - rewrite Hs. intros s (x & -> & Hx)%list_elem_of_fmap. change (quiet st1 (settle now P st1 x)).
    apply settle_quiet; [done..|]. by rewrite Hpi.
  - rewrite He in F2 |- *. destruct F2 as (R1 & R2 & R3). unfold same_request. rewrite R1, R2, R3. simpl.
    unfold set_cancel_metadata_once. by destruct (ex_cancel_requested_at (st_execution st)) eqn:Eat.
Qed.

