(* ===== verification/PolicySelection.v ===== *)
(** The lineage of an execution, and the policy it pinned. *)
From S2P Require Import Prelude PyStr PyDict Json PyUuid CanonicalHash Domain.

(** * Plan and schedule lineage of an execution

    [assert_execution_plan_lineage] ([execution/orchestrator.py]), the two
    schedule lineages ([execution/schedule_lineage.py]) and the plan hash
    ([schemas/execution_plan.py]).  Validation of a whole plan is pydantic's:
    the class [PlanParser] takes it as a function. *)

(** [BindingValue] of [schemas/parameter_binding.py] *)
Inductive binding_value := LiteralBindingValue (value : json) | SecretRefBindingValue (secret_id : uuid).

(** [ToolStepConfigV1] *)
Record agent_tool_config := ToolStepConfigV1 {
  atc_tool_version_id : uuid;
  atc_bindings : dict binding_value }.

(** [model_validate] of [ExecutionPlanV1] and [ToolStepConfigV1], [None] where
    it raises, and [model_dump] of a plan and of a binding *)
Class PlanParser := {
  validate_plan : json → option plan;
  dump_plan : plan → json;
  validate_agent_tool_config : dict json → option agent_tool_config;
  dump_binding : plan_binding → json }.

(** [ExecutionSourceType] *)
Definition AGENT_REQUEST : string := "AGENT_REQUEST".
Definition WORKFLOW_VERSION : string := "WORKFLOW_VERSION".
Definition SCHEDULE_OCCURRENCE : string := "SCHEDULE_OCCURRENCE".
Definition MANUAL_TOOL_TEST : string := "MANUAL_TOOL_TEST".

(** [plan.source.type] *)
Definition plan_source_type (p : plan) : string :=
  match pl_source p with
  | PlanSourceAgent _ => "AGENT" | PlanSourceWorkflow _ => "WORKFLOW"
  | PlanSourceManualToolTest _ _ => "MANUAL_TOOL_TEST"
  end.

(** [schema_version: Literal["1.0"]] *)
Definition plan_schema_version (p : plan) : string := "1.0".

Definition compute_plan_hash (plan_snapshot : json) : res string := compute_canonical_json_hash plan_snapshot.

Definition is_workflow_schedule_occurrence (e : execution) : bool :=
  String.eqb (ex_source_type e) SCHEDULE_OCCURRENCE
  && is_some (ex_schedule_occurrence_id e)
  && is_some (ex_workflow_version_id e)
  && negb (is_some (ex_agent_request_id e))
  && negb (is_some (ex_agent_version_id e))
  && negb (is_some (ex_plan_validation_run_id e)).

Definition is_agent_schedule_occurrence (e : execution) : bool :=
  String.eqb (ex_source_type e) SCHEDULE_OCCURRENCE
  && is_some (ex_schedule_occurrence_id e)
  && negb (is_some (ex_workflow_version_id e))
  && is_some (ex_agent_request_id e)
  && is_some (ex_agent_version_id e)
  && is_some (ex_plan_validation_run_id e).

Section lineage.
Context {parser : PlanParser}.

Definition assert_execution_plan_lineage (e : execution) : res plan :=
  p ← of_option (conflict "Execution plan snapshot is invalid.") (validate_plan (ex_plan_snapshot e));
  let inconsistent := conflict "Execution plan snapshot/hash lineage is inconsistent." in
  _ ← raise_if (negb (String.eqb (ex_plan_schema_version e) (plan_schema_version p))) inconsistent;
  h ← compute_plan_hash (ex_plan_snapshot e);
  _ ← raise_if (negb (String.eqb h (ex_plan_hash e))) inconsistent;
  Ok p.

Lemma assert_execution_plan_lineage_Ok e p :
  assert_execution_plan_lineage e = Ok p →
  validate_plan (ex_plan_snapshot e) = Some p ∧ ex_plan_schema_version e = plan_schema_version p ∧
  compute_plan_hash (ex_plan_snapshot e) = Ok (ex_plan_hash e).
Proof.
  unfold assert_execution_plan_lineage. intros H. inv_res.
  repeat match goal with H : String.eqb _ _ = true |- _ => apply String.eqb_eq in H end. by subst.
Qed.
End lineage.

(** The two schedule lineages exclude each other. *)
Lemma schedule_lineage_exclusive e :
  is_workflow_schedule_occurrence e = true → is_agent_schedule_occurrence e = false.
Proof.
  unfold is_workflow_schedule_occurrence, is_agent_schedule_occurrence.
  intros H. apply not_true_iff_false. intros H'. rewrite !andb_true_iff in H, H'.
  destruct (ex_workflow_version_id e); simpl in *; naive_solver.
Qed.

(** * Pinned tool policies ([execution/policy_selection.py])

    Which policy object of [Execution.policy_snapshot] a TOOL step runs under,
    by the source of the execution. *)

Definition WORKFLOW_POLICY_SCHEMA : string := "workflow_execution_policy.v1".
Definition AGENT_REQUEST_SEQUENTIAL_POLICY_SCHEMA : string := "agent_request_sequential_policy.v1".
Definition WORKFLOW_TOP_LEVEL_KEYS : list string := ["schema_version"; "workflow_id"; "workflow_version_id"; "tool_steps"].
Definition WORKFLOW_ENTRY_KEYS : list string := ["tool_version_id"; "policy"].
Definition AGENT_SEQ_TOP_LEVEL_KEYS : list string := ["schema_version"; "agent_version_id"; "tool_steps"].
Definition AGENT_SEQ_ENTRY_KEYS : list string := ["tool_version_id"; "policy"].
Definition DETERMINISTIC_TOOL_STEP_ID : string := "tool_1".

Definition canonical_uuid_str (value : json) : res string :=
  match value with
  | JStr s =>
      u ← of_option (conflict "policy_snapshot.{field} is not a valid UUID.") (uuid_parse s);
      _ ← raise_if (negb (String.eqb s (uuid_str u))) (conflict "policy_snapshot.{field} must be a canonical UUID.");
      Ok (uuid_str u)
  | _ => Err (conflict "policy_snapshot.{field} must be a UUID string.")
  end.

Definition plan_tool_steps (p : plan) : list plan_step := filter (λ s, ps_type s = StepType.TOOL) (pl_steps p).

(** [isinstance(v, dict)], with the dict *)
Definition require_dict (v : json) (e : py_error) : res (dict json) :=
  match v with JObj d => Ok d | _ => Err e end.

Section policy.
Context {schema : PlanSchema} {parser : PlanParser}.

(** One round of the loop over the plan's TOOL steps; [config_tool] is the tool
    version of the step's own config. *)
Definition check_policy_entry (kind missing mismatch : string) (entry_keys : list string) (config_tool : option uuid)
    (tool_steps : dict json) (step : plan_step) : res unit :=
  entry ← require_dict (get_or_none (ps_id step) tool_steps)
    (conflict missing);
  _ ← raise_if (negb (same_set (dict_keys entry) entry_keys))
        (conflict (kind +:+ " policy entry for {step.id!r} must contain exactly tool_version_id and policy."));
  cfg ← of_option (conflict "Plan TOOL config invalid for plan_step_id={step.id!r}.") config_tool;
  entry_tool ← canonical_uuid_str (get_or_none "tool_version_id" entry);
  _ ← raise_if (negb (String.eqb entry_tool (uuid_str cfg)))
        (conflict mismatch);
  raise_if (negb (is_dict (get_or_none "policy" entry)))
    (conflict (kind +:+ " policy entry.policy missing for plan_step_id={step.id!r}.")).

Definition complex_tool_version (step : plan_step) : option uuid :=
  tc_tool_version_id <$> validate_tool_config (ps_config step).

(** Workflow *)
Definition assert_workflow_policy_lineage (e : execution) (snapshot : dict json) : res (dict json) :=
  _ ← raise_if (negb (same_set (dict_keys snapshot) WORKFLOW_TOP_LEVEL_KEYS))
        (conflict ("Workflow policy_snapshot must contain exactly "
           +:+ "schema_version, workflow_id, workflow_version_id, tool_steps."));
  _ ← raise_if (negb (py_eq (get_or_none "schema_version" snapshot) (JStr WORKFLOW_POLICY_SCHEMA)))
        (conflict "Workflow Execution.policy_snapshot schema_version mismatch.");
  version ← of_option (conflict ("Workflow-compatible Execution missing workflow_version_id "
              +:+ "(source_type={execution.source_type!r}).")) (ex_workflow_version_id e);
  p ← of_option (conflict "Execution.plan_snapshot is invalid for policy lineage.")
        (validate_plan (ex_plan_snapshot e));
  match pl_source p with
  | PlanSourceWorkflow workflow_id =>
      snap_workflow_id ← canonical_uuid_str (get_or_none "workflow_id" snapshot);
      _ ← raise_if (negb (String.eqb snap_workflow_id (uuid_str workflow_id)))
            (conflict "Workflow policy_snapshot.workflow_id mismatch.");
      snap_version ← canonical_uuid_str (get_or_none "workflow_version_id" snapshot);
      _ ← raise_if (negb (String.eqb snap_version (uuid_str version)))
            (conflict "Workflow policy_snapshot.workflow_version_id mismatch.");
      tool_steps ← require_dict (get_or_none "tool_steps" snapshot)
        (conflict "Workflow policy_snapshot.tool_steps is malformed.");
      _ ← raise_if (negb (same_set (dict_keys tool_steps) (ps_id <$> plan_tool_steps p)))
            (conflict ("Workflow policy_snapshot.tool_steps must exactly match "
               +:+ "all Plan TOOL template ids."));
      _ ← res_iter (λ step, check_policy_entry "Workflow" "Workflow policy entry missing for plan_step_id={step.id!r}."
                              "Workflow policy entry tool_version_id mismatch for plan_step_id={step.id!r}."
                              WORKFLOW_ENTRY_KEYS (complex_tool_version step) tool_steps step) (plan_tool_steps p);
      Ok tool_steps
  | _ => Err (conflict "Workflow policy lineage requires Plan source type WORKFLOW.")
  end.

(** The first step of a sequential pair has the static tool config. *)
Definition agent_seq_tool_version (index : nat) (step : plan_step) : option uuid :=
  if (index =? 0)%nat && String.eqb (ps_id step) DETERMINISTIC_TOOL_STEP_ID
  then atc_tool_version_id <$> validate_agent_tool_config (ps_config step)
  else complex_tool_version step.

(** Agent request, sequential pair *)
Definition assert_agent_sequential_policy_lineage (e : execution) (snapshot : dict json) : res (dict json) :=
  _ ← raise_if (negb (same_set (dict_keys snapshot) AGENT_SEQ_TOP_LEVEL_KEYS))
        (conflict ("Agent sequential policy_snapshot must contain exactly "
           +:+ "schema_version, agent_version_id, tool_steps."));
  _ ← raise_if (negb (py_eq (get_or_none "schema_version" snapshot) (JStr AGENT_REQUEST_SEQUENTIAL_POLICY_SCHEMA)))
        (conflict "Agent sequential policy_snapshot schema_version mismatch.");
  version ← of_option (conflict "Agent sequential Execution missing agent_version_id.") (ex_agent_version_id e);
  p ← of_option (conflict "Execution.plan_snapshot is invalid for sequential policy lineage.")
        (validate_plan (ex_plan_snapshot e));
  match pl_source p with
  | PlanSourceAgent agent_version_id =>
      _ ← raise_if (negb (length (pl_steps p) =? 2)%nat)
            (conflict "Agent sequential policy requires exactly 2 TOOL steps.");
      snap_version ← canonical_uuid_str (get_or_none "agent_version_id" snapshot);
      _ ← raise_if (negb (String.eqb snap_version (uuid_str version)))
            (conflict "Agent sequential policy_snapshot.agent_version_id mismatch.");
      _ ← raise_if (negb (String.eqb snap_version (uuid_str agent_version_id)))
            (conflict "Agent sequential policy agent_version_id Plan mismatch.");
      tool_steps ← require_dict (get_or_none "tool_steps" snapshot)
        (conflict "Agent sequential policy_snapshot.tool_steps is malformed.");
      _ ← raise_if (negb (same_set (dict_keys tool_steps) (ps_id <$> plan_tool_steps p)))
            (conflict ("Agent sequential policy_snapshot.tool_steps must exactly match "
               +:+ "all Plan TOOL step ids."));
      _ ← res_iter (λ '(index, step), check_policy_entry "Agent sequential"
                      "Agent sequential policy entry missing for {step.id!r}."
                      "Agent sequential policy tool_version_id mismatch for plan_step_id={step.id!r}."
                      AGENT_SEQ_ENTRY_KEYS (agent_seq_tool_version index step) tool_steps step)
            (zip (seq 0 (length (plan_tool_steps p))) (plan_tool_steps p));
      Ok tool_steps
  | _ => Err (conflict "Agent sequential policy requires Plan source type AGENT.")
  end.

(** [str(v)] of an entry's tool version; only a string can equal a UUID's. *)
Definition entry_tool_is (entry : dict json) (tool_version_id : uuid) : bool :=
  match get_or_none "tool_version_id" entry with JStr s => String.eqb s (uuid_str tool_version_id) | _ => false end.

(** [_workflow_step_policy] and [_agent_sequential_step_policy] after their
    lineage check *)
Definition select_entry (kind : string) (tool_steps : dict json) (plan_step_id : string) (tool_version_id : uuid)
    : res (dict json) :=
  entry ← require_dict (get_or_none plan_step_id tool_steps)
    (conflict (kind +:+ " policy entry missing for plan_step_id={plan_step_id!r}."));
  _ ← raise_if (negb (entry_tool_is entry tool_version_id))
        (conflict (kind +:+ " policy tool_version_id mismatch for plan_step_id={plan_step_id!r}."));
  require_dict (get_or_none "policy" entry)
    (conflict (kind +:+ " policy entry.policy missing for plan_step_id={plan_step_id!r}.")).

Definition workflow_step_policy (e : execution) (snapshot : dict json) (plan_step_id : string) (tool_version_id : uuid)
    : res (dict json) :=
  tool_steps ← assert_workflow_policy_lineage e snapshot;
  select_entry "Workflow" tool_steps plan_step_id tool_version_id.
Definition agent_sequential_step_policy (e : execution) (snapshot : dict json) (plan_step_id : string)
    (tool_version_id : uuid) : res (dict json) :=
  tool_steps ← assert_agent_sequential_policy_lineage e snapshot;
  select_entry "Agent sequential" tool_steps plan_step_id tool_version_id.

Definition get_expected_tool_policy_snapshot (e : execution) (plan_step_id : string) (tool_version_id : uuid)
    : res (dict json) :=
  snapshot ← require_dict (ex_policy_snapshot e) (conflict "Execution.policy_snapshot is missing or malformed.");
  let source := ex_source_type e in
  let schema_is s := py_eq (get_or_none "schema_version" snapshot) (JStr s) in
  if String.eqb source AGENT_REQUEST || (String.eqb source SCHEDULE_OCCURRENCE && is_agent_schedule_occurrence e) then
    if schema_is AGENT_REQUEST_SEQUENTIAL_POLICY_SCHEMA
    then agent_sequential_step_policy e snapshot plan_step_id tool_version_id
    else Ok snapshot
  else if String.eqb source WORKFLOW_VERSION
          || (String.eqb source SCHEDULE_OCCURRENCE && is_workflow_schedule_occurrence e) then
    workflow_step_policy e snapshot plan_step_id tool_version_id
  else if String.eqb source MANUAL_TOOL_TEST then
    if schema_is WORKFLOW_POLICY_SCHEMA then workflow_step_policy e snapshot plan_step_id tool_version_id
    else Ok snapshot
  else Err (conflict "Unsupported Execution.source_type for policy selection: {execution.source_type!r}.").
End policy.

Definition build_workflow_execution_policy_snapshot (workflow_id workflow_version_id : uuid) (tool_steps : dict json)
    : dict json :=
  [("schema_version", JStr WORKFLOW_POLICY_SCHEMA); ("workflow_id", JStr (uuid_str workflow_id));
   ("workflow_version_id", JStr (uuid_str workflow_version_id)); ("tool_steps", JObj tool_steps)].

(** ** What a selected policy is *)
Section policy_sound.
Context {schema : PlanSchema} {parser : PlanParser}.

Lemma require_dict_Ok v e d : require_dict v e = Ok d ↔ v = JObj d.
Proof. unfold require_dict. destruct v; naive_solver. Qed.

Lemma canonical_uuid_str_Ok v s :
  canonical_uuid_str v = Ok s ↔ v = JStr s ∧ ∃ u, uuid_parse s = Some u ∧ s = uuid_str u.
Proof.
  unfold canonical_uuid_str. destruct v as [| | | |s'| |]; try (split; [done|by intros [? _]]). split.
  - intros H. inv_res. match goal with H : String.eqb _ _ = true |- _ => apply String.eqb_eq in H; subst end. eauto.
  - intros ([= ->] & u & Hu & Hs). rewrite Hu. cbn [of_option mbind res_bind].
    rewrite (proj2 (String.eqb_eq _ _) Hs). cbn. by rewrite Hs.
Qed.

Lemma check_policy_entry_Ok k m1 m2 keys cfg ts step :
  check_policy_entry k m1 m2 keys cfg ts step = Ok tt →
  ∃ entry u policy, get_or_none (ps_id step) ts = JObj entry ∧ cfg = Some u ∧
    get_or_none "tool_version_id" entry = JStr (uuid_str u) ∧ get_or_none "policy" entry = JObj policy.
Proof.
  unfold check_policy_entry. intros H. apply bind_Ok in H as (entry & He%require_dict_Ok & H).
  apply bind_Ok in H as ([] & _ & H). apply bind_Ok in H as (u & Hu%of_option_Ok & H).
  apply bind_Ok in H as (s & Hs%canonical_uuid_str_Ok & H). apply bind_Ok in H as ([] & Heq & H).
  apply raise_if_Ok, negb_false_iff, String.eqb_eq in Heq. subst s.
  apply raise_if_Ok, negb_false_iff in H. destruct (get_or_none "policy" entry) as [| | | | | |policy] eqn:Ep; try done.
  exists entry, u, policy. by destruct Hs.
Qed.

Lemma select_entry_Ok k ts id tv policy :
  select_entry k ts id tv = Ok policy →
  ∃ entry, get_or_none id ts = JObj entry ∧ get_or_none "tool_version_id" entry = JStr (uuid_str tv) ∧
    get_or_none "policy" entry = JObj policy.
Proof.
  unfold select_entry. intros H. apply bind_Ok in H as (entry & He%require_dict_Ok & H).
  apply bind_Ok in H as ([] & Ht & H). apply raise_if_Ok, negb_false_iff in Ht. apply require_dict_Ok in H.
  exists entry. split; [done|]. split; [|done]. unfold entry_tool_is in Ht.
  destruct (get_or_none "tool_version_id" entry); try done. by apply String.eqb_eq in Ht as ->.
Qed.

(** The policy a workflow step runs under is the one its own entry pins: the
    snapshot is of this workflow version, the plan is the validated one, [id] is
    a TOOL of it, and the entry's tool version, the one asked for and the one of
    the step's config in the plan agree. *)
Theorem workflow_step_policy_sound e snapshot id tv policy :
  workflow_step_policy e snapshot id tv = Ok policy →
  ∃ p wid vid step cfg tool_steps entry,
    validate_plan (ex_plan_snapshot e) = Some p ∧ pl_source p = PlanSourceWorkflow wid ∧
    ex_workflow_version_id e = Some vid ∧
    get_or_none "workflow_id" snapshot = JStr (uuid_str wid) ∧
    get_or_none "workflow_version_id" snapshot = JStr (uuid_str vid) ∧
    step ∈ pl_steps p ∧ ps_type step = StepType.TOOL ∧ ps_id step = id ∧
    validate_tool_config (ps_config step) = Some cfg ∧ uuid_str (tc_tool_version_id cfg) = uuid_str tv ∧
    get_or_none "tool_steps" snapshot = JObj tool_steps ∧ get_or_none id tool_steps = JObj entry ∧
    get_or_none "tool_version_id" entry = JStr (uuid_str tv) ∧ get_or_none "policy" entry = JObj policy.
Proof.
  unfold workflow_step_policy, assert_workflow_policy_lineage. intros H.
  apply bind_Ok in H as (ts & Hl & (entry & He & Ht & Hp)%select_entry_Ok).
  apply bind_Ok in Hl as ([] & _ & Hl). apply bind_Ok in Hl as ([] & _ & Hl).
  apply bind_Ok in Hl as (vid & Hvid%of_option_Ok & Hl). apply bind_Ok in Hl as (p & Hplan%of_option_Ok & Hl).
  destruct (pl_source p) as [|wid|] eqn:Esrc; try done.
  apply bind_Ok in Hl as (s1 & [Hw _]%canonical_uuid_str_Ok & Hl). apply bind_Ok in Hl as ([] & E1 & Hl).
  apply bind_Ok in Hl as (s2 & [Hv _]%canonical_uuid_str_Ok & Hl). apply bind_Ok in Hl as ([] & E2 & Hl).
  apply bind_Ok in Hl as (ts' & Hts%require_dict_Ok & Hl). apply bind_Ok in Hl as ([] & Hkeys & Hl).
  apply bind_Ok in Hl as ([] & Hiter & Hl). injection Hl as ->.
  apply raise_if_Ok, negb_false_iff, String.eqb_eq in E1, E2. subst s1 s2.
  apply raise_if_Ok, negb_false_iff in Hkeys. rewrite same_set_spec in Hkeys.
  assert (id ∈ ps_id <$> plan_tool_steps p) as (step & -> & Hstep)%list_elem_of_fmap.
  { apply Hkeys, dict_get_is_Some. unfold get_or_none in He. by destruct (dict_get id ts). }
  rewrite res_iter_Ok in Hiter.
  destruct (check_policy_entry_Ok _ _ _ _ _ _ _ (Hiter step Hstep)) as (entry' & u & policy' & He' & Hu & Ht' & _).
  rewrite He in He'. injection He' as <-. rewrite Ht in Ht'.
  assert (uuid_str u = uuid_str tv) as Heq by congruence. clear Ht'.
  apply list_elem_of_filter in Hstep as [Htool Hin].
  unfold complex_tool_version in Hu. apply fmap_Some in Hu as (cfg & Hcfg & Hu). subst u.
  exists p, wid, vid, step, cfg, ts, entry. split_and!; done.
Qed.

Lemma canonical_uuid_str_of u : uuid_ok u → canonical_uuid_str (JStr (uuid_str u)) = Ok (uuid_str u).
Proof. intros Hu. apply canonical_uuid_str_Ok. split; [done|]. exists u. split; [by apply uuid_parse_str|done]. Qed.

(** The entries the caller gives to [build_workflow_execution_policy_snapshot] *)
Definition policy_entry (tv : uuid) (policy : dict json) : json :=
  JObj [("tool_version_id", JStr (uuid_str tv)); ("policy", JObj policy)].

Lemma check_own_entry k m1 m2 ts step u policy :
  uuid_ok u → dict_get (ps_id step) ts = Some (policy_entry u policy) →
  check_policy_entry k m1 m2 WORKFLOW_ENTRY_KEYS (Some u) ts step = Ok tt.
Proof.
  intros Hu Hts. unfold check_policy_entry.
  assert (get_or_none (ps_id step) ts = policy_entry u policy) as -> by (unfold get_or_none; by rewrite Hts).
  cbn [default from_option id require_dict policy_entry mbind res_bind].
  change (same_set _ WORKFLOW_ENTRY_KEYS) with true. change (get_or_none "tool_version_id" _) with (JStr (uuid_str u)).
  cbn [negb raise_if of_option mbind res_bind]. rewrite canonical_uuid_str_of by done.
  cbn [mbind res_bind]. by rewrite String.eqb_refl.
Qed.

(** The snapshot built for a workflow execution gives back each step's
    policy: with one entry for every TOOL of the plan, under its config's tool
    version, selection returns exactly the policy of that entry. *)
Theorem build_policy_roundtrip e p wid vid tools step cfg policy :
  ex_source_type e = WORKFLOW_VERSION → ex_workflow_version_id e = Some vid → uuid_ok vid → uuid_ok wid →
  validate_plan (ex_plan_snapshot e) = Some p → pl_source p = PlanSourceWorkflow wid →
  ex_policy_snapshot e = JObj (build_workflow_execution_policy_snapshot wid vid tools) →
  (∀ k, k ∈ dict_keys tools ↔ k ∈ ps_id <$> plan_tool_steps p) →
  (∀ s, s ∈ plan_tool_steps p → ∃ c q, validate_tool_config (ps_config s) = Some c ∧
     uuid_ok (tc_tool_version_id c) ∧ dict_get (ps_id s) tools = Some (policy_entry (tc_tool_version_id c) q)) →
  step ∈ plan_tool_steps p → validate_tool_config (ps_config step) = Some cfg →
  dict_get (ps_id step) tools = Some (policy_entry (tc_tool_version_id cfg) policy) →
  get_expected_tool_policy_snapshot e (ps_id step) (tc_tool_version_id cfg) = Ok policy.
Proof.
  intros Hsrc Hv Hvok Hwok Hplan Hwf Hsnap Hkeys Hall Hstep Hcfg Hent.
  unfold get_expected_tool_policy_snapshot. rewrite Hsnap, Hsrc. cbn [require_dict mbind res_bind String.eqb].
  change (String.eqb WORKFLOW_VERSION AGENT_REQUEST || _) with false.
  change (String.eqb WORKFLOW_VERSION WORKFLOW_VERSION || _) with true. cbv iota.
  unfold workflow_step_policy, assert_workflow_policy_lineage. rewrite Hv, Hplan.
  change (same_set _ WORKFLOW_TOP_LEVEL_KEYS) with true.
  change (py_eq (get_or_none "schema_version" _) _) with true.
  cbn [negb raise_if of_option mbind res_bind]. rewrite Hwf.
  change (get_or_none "workflow_id" _) with (JStr (uuid_str wid)). rewrite canonical_uuid_str_of by done.
  cbn [mbind res_bind]. rewrite String.eqb_refl.
  change (get_or_none "workflow_version_id" _) with (JStr (uuid_str vid)). rewrite canonical_uuid_str_of by done.
  cbn [negb raise_if mbind res_bind]. rewrite String.eqb_refl.
  change (get_or_none "tool_steps" _) with (JObj tools). cbn [negb raise_if require_dict mbind res_bind].
  rewrite (proj2 (same_set_spec (dict_keys tools) (ps_id <$> plan_tool_steps p))) by done.
  cbn [negb raise_if mbind res_bind].
  match goal with |- context [res_iter ?f ?l] => assert (res_iter f l = Ok tt) as -> end.
  { apply res_iter_Ok. intros s Hs. destruct (Hall s Hs) as (c & q & Hc & Hok & Hd).
    unfold complex_tool_version. rewrite Hc. by eapply check_own_entry. }
  cbn [mbind res_bind]. unfold select_entry.
  assert (get_or_none (ps_id step) tools = policy_entry (tc_tool_version_id cfg) policy) as ->
    by (unfold get_or_none; by rewrite Hent).
  cbn [default from_option id require_dict policy_entry mbind res_bind].
  change (entry_tool_is _ _) with (String.eqb (uuid_str (tc_tool_version_id cfg)) (uuid_str (tc_tool_version_id cfg))).
  by rewrite String.eqb_refl.
Qed.
End policy_sound.
