(* ===== verification/RetryDecision.v ===== *)
(** * Retry decision ([execution/retry_decision.py])

    The bounded automatic retry of a failed tool call, the risk classes of
    [execution/recovery.py] and the classification of MCP failures of
    [execution/tool_runner.py].  A risk class is the string the policy pins.
    [total_seconds()] is compared exactly: a binary64 holds the microseconds of
    any two timestamps less than 285 years apart. *)
From S2P Require Import Prelude PyStr PyDict Json Domain Rows.

(** [RiskClass] *)
Definition risk_class_value (r : risk_class) : string :=
  match r with
  | RiskClass.READ_ONLY => "READ_ONLY" | RiskClass.IDEMPOTENT_WRITE => "IDEMPOTENT_WRITE"
  | RiskClass.NON_IDEMPOTENT_WRITE => "NON_IDEMPOTENT_WRITE" | RiskClass.DESTRUCTIVE => "DESTRUCTIVE"
  | RiskClass.UNKNOWN => "UNKNOWN"
  end.
Definition all_risk_classes : list risk_class :=
  [RiskClass.READ_ONLY; RiskClass.IDEMPOTENT_WRITE; RiskClass.NON_IDEMPOTENT_WRITE; RiskClass.DESTRUCTIVE;
   RiskClass.UNKNOWN].

Definition SAFE_RETRY_RISKS : list string := risk_class_value <$> [RiskClass.READ_ONLY; RiskClass.IDEMPOTENT_WRITE].
Definition UNSAFE_RISKS : list string :=
  risk_class_value <$> [RiskClass.NON_IDEMPOTENT_WRITE; RiskClass.DESTRUCTIVE; RiskClass.UNKNOWN].
Definition NORMAL_AUTO_RETRY_RISKS : list string := [risk_class_value RiskClass.READ_ONLY].

Definition is_safe_retry_risk (risk_class : string) : bool := bool_decide (risk_class ∈ SAFE_RETRY_RISKS).
Definition is_unsafe_ambiguous_risk (risk_class : string) : bool := bool_decide (risk_class ∈ UNSAFE_RISKS).
Definition is_normal_auto_retry_risk (risk_class : string) : bool :=
  bool_decide (risk_class ∈ NORMAL_AUTO_RETRY_RISKS).

Definition can_safe_retry (attempt_count max_attempts : Z) : bool :=
  if (max_attempts <? 1)%Z || (attempt_count <? 0)%Z then false else (attempt_count <? max_attempts)%Z.

(** [MCPClientError]; [pre_send] marks its subclass [_PreSendFailClosed]. *)
Record mcp_client_error := MCPClientError {
  me_error_layer : string;
  me_error_code : string;
  me_message : string;
  me_retryable : bool;
  me_outcome_unknown : bool;
  me_pre_send : bool }.

Definition pre_send_fail_closed (error_code message : string) : mcp_client_error :=
  MCPClientError "PROTOCOL" error_code message false false true.

(** [_classify_mcp_failure]: the three terminal statuses a step, its attempt and
    its call share *)
Definition classify_mcp_failure (exc : mcp_client_error) (risk_class : string) : attempt_status :=
  let safe_risk := is_safe_retry_risk risk_class in
  if me_outcome_unknown exc && negb safe_risk then AttemptStatus.UNKNOWN_OUTCOME
  else if String.eqb (me_error_layer exc) "TIMEOUT" && safe_risk then AttemptStatus.TIMED_OUT
  else AttemptStatus.FAILED.

(** ** Pinned policy *)
Definition pinned_tool_policy (policy_snapshot : json) : dict json :=
  match policy_snapshot with
  | JObj d => match get_or_none "tool_policy" d with JObj p => p | _ => [] end
  | _ => []
  end.
Definition pinned_max_attempts (policy_snapshot : json) : option Z :=
  match get_or_none "max_attempts" (pinned_tool_policy policy_snapshot) with
  | JInt raw => if (raw <? 1)%Z then None else Some raw
  | _ => None
  end.
Definition pinned_risk_class (policy_snapshot : json) : option string :=
  match get_or_none "risk_class" (pinned_tool_policy policy_snapshot) with
  | JStr raw => if str_empty raw then None else Some raw
  | _ => None
  end.
Definition pinned_backoff_policy (policy_snapshot : json) : json :=
  get_or_none "backoff_policy" (pinned_tool_policy policy_snapshot).

(** [timedelta(seconds=n)] in microseconds *)
Definition seconds (n : Z) : Z := (n * 1000000)%Z.

Definition step_timeout_budget_exhausted (step_started_at timeout_seconds : option Z) (now : Z) : bool :=
  match step_started_at, timeout_seconds with
  | Some started, Some timeout => if (timeout <? 1)%Z then true else (seconds timeout <=? now - started)%Z
  | _, _ => false
  end.

(** ** The decision *)
Inductive retry_reason :=
| NO_ERROR | R_UNKNOWN_OUTCOME | R_SUCCEEDED | NOT_RETRYABLE | UNSAFE_OR_UNSUPPORTED_RISK
| BACKOFF_POLICY_UNSUPPORTED | MAX_ATTEMPTS_EXHAUSTED | STEP_TIMEOUT_EXHAUSTED | SAFE_RETRY.

Record safe_retry_decision := SafeRetryDecision { schedule_retry : bool; rd_reason : retry_reason }.

Definition decide_safe_transient_retry (call_error : option mcp_client_error) (classified_terminal : attempt_status)
    (risk_class : string) (attempt_count max_attempts : Z) (backoff_policy : json)
    (step_started_at timeout_seconds : option Z) (ts : Z) : safe_retry_decision :=
  match call_error with
  | None => SafeRetryDecision false NO_ERROR
  | Some exc =>
      if bool_decide (classified_terminal = AttemptStatus.UNKNOWN_OUTCOME)
      then SafeRetryDecision false R_UNKNOWN_OUTCOME
      else if bool_decide (classified_terminal = AttemptStatus.SUCCEEDED) then SafeRetryDecision false R_SUCCEEDED
      else if negb (me_retryable exc) then SafeRetryDecision false NOT_RETRYABLE
      else if negb (is_normal_auto_retry_risk risk_class) then SafeRetryDecision false UNSAFE_OR_UNSUPPORTED_RISK
      else if negb (is_none backoff_policy) then SafeRetryDecision false BACKOFF_POLICY_UNSUPPORTED
      else if negb (can_safe_retry attempt_count max_attempts) then SafeRetryDecision false MAX_ATTEMPTS_EXHAUSTED
      else if step_timeout_budget_exhausted step_started_at timeout_seconds ts
      then SafeRetryDecision false STEP_TIMEOUT_EXHAUSTED
      else SafeRetryDecision true SAFE_RETRY
  end.

(** ** Lemmas *)
(** The two recovery classes partition the risk classes. *)
Lemma risk_partition r :
  is_unsafe_ambiguous_risk (risk_class_value r) = negb (is_safe_retry_risk (risk_class_value r)).
Proof. by destruct r. Qed.

Lemma auto_retry_is_safe r : is_normal_auto_retry_risk r = true → is_safe_retry_risk r = true.
Proof.
  unfold is_normal_auto_retry_risk, is_safe_retry_risk. rewrite !bool_decide_eq_true.
  intros ->%list_elem_of_singleton. left.
Qed.

Lemma can_safe_retry_spec a m : can_safe_retry a m = true ↔ (0 ≤ a < m)%Z.
Proof. unfold can_safe_retry. destruct (Z.ltb_spec m 1), (Z.ltb_spec a 0); simpl; rewrite ?Z.ltb_lt; lia || (split; [done|lia]). Qed.

Local Ltac destruct_bool_eqs :=
  repeat match goal with H : negb _ = true |- _ => apply negb_true_iff in H end; congruence.

(** An automatic retry is scheduled exactly for a retryable failure of a
    READ_ONLY tool whose outcome is known, under no backoff policy, with an
    attempt left below the pinned bound and time left in the step's budget. *)
Theorem decide_retry_spec call_error classified risk count max_attempts backoff started timeout ts :
  schedule_retry (decide_safe_transient_retry call_error classified risk count max_attempts backoff started timeout ts)
    = true ↔
  ∃ exc, call_error = Some exc ∧ me_retryable exc = true ∧ risk = "READ_ONLY" ∧ backoff = JNull ∧
    classified ≠ AttemptStatus.UNKNOWN_OUTCOME ∧ classified ≠ AttemptStatus.SUCCEEDED ∧
    (0 ≤ count < max_attempts)%Z ∧
    ∀ s t, started = Some s → timeout = Some t → (1 ≤ t)%Z ∧ (ts < s + seconds t)%Z.
Proof.
  unfold decide_safe_transient_retry. destruct call_error as [exc|]; [|naive_solver].
  assert (is_normal_auto_retry_risk risk = true ↔ risk = "READ_ONLY") as Hr
    by (unfold is_normal_auto_retry_risk, NORMAL_AUTO_RETRY_RISKS; by rewrite bool_decide_eq_true, list_elem_of_singleton).
  assert (is_none backoff = true ↔ backoff = JNull) as Hb by by destruct backoff.
  assert (step_timeout_budget_exhausted started timeout ts = false ↔
    ∀ s t, started = Some s → timeout = Some t → (1 ≤ t)%Z ∧ (ts < s + seconds t)%Z) as Ht.
  { unfold step_timeout_budget_exhausted. destruct started as [s|], timeout as [t|]; try (by split; [intros _ ? ? ? ?|]).
    destruct (Z.ltb_spec t 1); [split; [done|]; intros H'; destruct (H' s t); [done..|lia]|].
    rewrite Z.leb_gt. split; [intros ? ? ? [= <-] [= <-]; lia|]. intros H'. destruct (H' s t); [done..|lia]. }
  pose proof (can_safe_retry_spec count max_attempts) as Hc.
  setoid_rewrite <- Ht. setoid_rewrite <- Hc. setoid_rewrite <- Hr. setoid_rewrite <- Hb. clear Ht Hc Hr Hb.
  assert (∀ P : Prop, ¬ P → (false = true ↔ P)) as Hno by naive_solver.
  case_bool_decide as H1; [apply Hno; intros (? & _ & _ & _ & _ & ? & _); done|].
  case_bool_decide as H2; [apply Hno; intros (? & _ & _ & _ & _ & _ & ? & _); done|].
  repeat (case_match; [apply Hno; intros (? & [= <-] & ? & ? & ? & _ & _ & ? & ?); simpl in *; destruct_bool_eqs|]).
  split; [|done]. intros _. exists exc. repeat match goal with H : negb _ = false |- _ => apply negb_false_iff in H end.
  done.
Qed.

(** The outcome of a call is classified UNKNOWN exactly when the client
    could not tell whether it took effect and the tool is not safe to repeat;
    such a call is never retried automatically. *)
Theorem unknown_outcome_never_retried exc risk count max_attempts backoff started timeout ts :
  (classify_mcp_failure exc risk = AttemptStatus.UNKNOWN_OUTCOME ↔
   me_outcome_unknown exc = true ∧ is_safe_retry_risk risk = false) ∧
  (is_safe_retry_risk risk = false →
   schedule_retry (decide_safe_transient_retry (Some exc) (classify_mcp_failure exc risk) risk count max_attempts
     backoff started timeout ts) = false).
Proof.
  split.
  - unfold classify_mcp_failure. destruct (me_outcome_unknown exc), (is_safe_retry_risk risk); simpl;
      rewrite ?andb_false_r; try (destruct (String.eqb _ _)); naive_solver.
  - intros Hr. unfold decide_safe_transient_retry. repeat (case_match; [done|]).
    match goal with H : negb (is_normal_auto_retry_risk risk) = false |- _ =>
      apply negb_false_iff, auto_retry_is_safe in H; congruence end.
Qed.
