(* ===== verification/LoopReconcile.v ===== *)
(** * Running a LOOP ([execution/loop_reconcile.py])

    Pins and gates of a LOOP before each iteration, the budget of step rows,
    the rows of an iteration, and the ends of a LOOP.  A function that assigns
    to [loop_step] returns the new row; the rows it reads next to it are passed
    with that row in place, as the object is the one of the step list. *)
From S2P Require Import Prelude PyStr PyDict Json JsonStrict PyUuid CanonicalHash Domain LoopRuntime Completion.
From S2P Require Import BindingResolver PredicateEvaluator Rows PolicySelection RetryDecision.

Definition UPSTREAM_LOOP_STOPPED : string := "UPSTREAM_LOOP_STOPPED".
Definition PLAN_LIMIT_EXCEEDED : string := "PLAN_LIMIT_EXCEEDED".

(** The step list with an assigned row in place *)
Definition replace_row (s : execution_step) (steps : list execution_step) : list execution_step :=
  upd_where (λ x, es_id x = es_id s) (λ _, s) steps.

Section loop_reconcile.
Context {schema : PlanSchema} {parser : PlanParser}.

Definition runtime_plan_step (step : execution_step) (plan_by_id : dict plan_step) : res plan_step :=
  parsed ← of_option (conflict "step_snapshot invalid for {step.step_key!r}.")
             (validate_step (es_step_snapshot step));
  expected ← of_option (conflict "No Plan Step for template {parsed.id!r}.") (dict_get (ps_id parsed) plan_by_id);
  _ ← raise_if (negb (py_eq (dump_step expected) (es_step_snapshot step)))
        (conflict "step_snapshot is not an exact projection of immutable Plan Step {parsed.id!r}.");
  Ok expected.

(** ** FOR_EACH: the pinned collection *)
Definition resolve_foreach_collection (e : execution) (loop_step : execution_step) (p : plan)
    (steps : list execution_step) (cfg : loop_config) : res (list json) :=
  match lc_mode cfg, lc_collection cfg with
  | LoopMode.FOR_EACH, Some collection =>
      _ ← raise_if (match collection with PlanLoopContextBinding _ => true | _ => false end)
            (precondition_failed "LOOP collection must not use LOOP_CONTEXT in this slice.");
      ancestors ← transitive_ancestors p;
      value ← resolve_binding collection e loop_step (dict_comp es_step_key id steps) p ancestors false None;
      match value with
      | Some (JArr items) => Ok items
      | _ => Err (AppError LOOP_COLLECTION_TYPE_MISMATCH
                    "FOR_EACH collection must resolve to a JSON array/list." 409)
      end
  | _, _ => Err (conflict "FOR_EACH LOOP requires a collection binding.")
  end.

Definition pin_collection_evidence (loop_step : execution_step) (collection : list json) : res execution_step :=
  h ← hash_collection collection;
  Ok (set_es_resolved_input
        (JObj [("mode", JStr (loop_mode_value LoopMode.FOR_EACH)); ("collection_hash", JStr h);
               ("collection_size", JInt (Z.of_nat (length collection)))]) loop_step).

Definition pin_while_control_evidence (loop_step : execution_step) : execution_step :=
  set_es_resolved_input empty_while_control_evidence loop_step.

Definition assert_collection_pin_stable (loop_step : execution_step) (collection : list json) : res unit :=
  pinned ← parse_foreach_collection_pin (es_resolved_input loop_step);
  actual_hash ← hash_collection collection;
  raise_if (negb (String.eqb (collection_hash pinned) actual_hash)
            || negb (collection_size pinned =? Z.of_nat (length collection))%Z)
    (precondition_failed "FOR_EACH collection hash/size drifted from pinned evidence.").

(** The configuration in a LOOP row's snapshot *)
Definition loop_config_of (loop_step : execution_step) : option loop_config :=
  ps ← validate_step (es_step_snapshot loop_step); validate_loop_config (ps_config ps).

Definition revalidate_foreach_collection_pin (e : execution) (loop_step : execution_step) (p : plan)
    (steps : list execution_step) (child_iteration_no : option Z) : res (list json) :=
  cfg ← of_option (conflict "LOOP config invalid during collection pin revalidation.") (loop_config_of loop_step);
  _ ← parse_foreach_collection_pin (es_resolved_input loop_step);
  collection ← resolve_foreach_collection e loop_step p steps cfg;
  _ ← assert_collection_pin_stable loop_step collection;
  _ ← match child_iteration_no with
      | Some n => raise_if ((n <? 1)%Z || (Z.of_nat (length collection) <? n)%Z)
                    (conflict "LOOP child iteration_no={child_iteration_no} is outside pinned collection_size={size}.")
      | None => Ok tt
      end;
  Ok collection.

(** ** WHILE: the gate of a candidate iteration *)
Definition build_while_candidate_context (loop_step : execution_step) (p : plan) (cfg : loop_config)
    (steps : list execution_step) (n : Z) : res json :=
  _ ← raise_if (negb (bool_decide (lc_mode cfg = LoopMode.WHILE)))
        (conflict "WHILE candidate context requires WHILE mode.");
  _ ← raise_if (n <? 1)%Z (conflict "candidate_iteration_no must be >= 1.");
  parent_plan ← of_option (conflict "WHILE LOOP step_snapshot is invalid.")
                  (validate_step (es_step_snapshot loop_step));
  previous ← (if (n =? 1)%Z then Ok JNull
              else build_previous_iteration_projection steps (es_id loop_step) (n - 1) (lc_body_step_ids cfg) (Some p));
  build_while_loop_context_projection (ps_id parent_plan) n (lc_max_iterations cfg) previous.

(** The evidence of one top-level ancestor *)
Definition ancestor_evidence (by_key : dict execution_step) (plan_by_id : dict plan_step) (step_key : string)
    : res json :=
  row ← of_option (conflict "WHILE evidence missing top-level ancestor {step_key!r}.") (dict_get step_key by_key);
  plan_step ← dict_item step_key plan_by_id;
  _ ← assert_while_top_level_ancestor_lineage row plan_step;
  h ← result_inline_hash (es_result_inline row);
  Ok (JObj [("step_key", JStr step_key); ("step_type", JStr (step_type_value (es_step_type row)));
            ("status", JStr (step_status_value (es_status row)));
            ("condition_result", opt_json JBool (es_condition_result row));
            ("error_code", opt_json JStr (es_error_code row)); ("result_inline_hash", JStr h)]).

(** The evidence of one body step of the previous iteration *)
Definition previous_evidence (loop_id : uuid) (prev_no : Z) (by_template : dict execution_step)
    (plan_by_id : dict plan_step) (tid : string) : res json :=
  child ← dict_item tid by_template;
  template ← dict_item tid plan_by_id;
  _ ← assert_while_child_immutable_lineage child loop_id prev_no template;
  h ← result_inline_hash (es_result_inline child);
  Ok (JObj [("template_id", JStr tid); ("runtime_step_key", JStr (es_step_key child));
            ("status", JStr (step_status_value (es_status child)));
            ("condition_result", opt_json JBool (es_condition_result child));
            ("error_code", opt_json JStr (es_error_code child)); ("result_inline_hash", JStr h)]).

(** [previous_iteration] of the evidence object, [n > 1] *)
Definition previous_iteration_evidence (loop_step : execution_step) (p : plan) (cfg : loop_config)
    (steps : list execution_step) (prev_no : Z) : res json :=
  _ ← build_previous_iteration_projection steps (es_id loop_step) prev_no (lc_body_step_ids cfg) (Some p);
  pairs ← res_map (λ c, tid ← template_id_from_step_snapshot c; Ok (tid, c))
            (child_instances_for_iteration steps (es_id loop_step) prev_no);
  items ← res_map (previous_evidence (es_id loop_step) prev_no (dict_of_pairs pairs) (plan_steps_by_id p))
            (lc_body_step_ids cfg);
  Ok (JArr items).

Definition build_while_evidence_object (p : plan) (e : execution) (loop_step : execution_step) (cfg : loop_config)
    (steps : list execution_step) (n : Z) : res json :=
  _ ← raise_if (n <? 1)%Z (conflict "candidate_iteration_no must be >= 1.");
  plan_hash ← compute_plan_hash (dump_plan p);
  input_hash ← compute_canonical_json_hash (ex_input_snapshot e);
  exec_ctx_hash ← compute_canonical_json_hash (build_execution_context_projection e);
  ancestors ← transitive_ancestors p;
  ownership ← build_loop_body_ownership p;
  let ancestor_ids := ancestors_of ancestors (es_step_key loop_step) in
  let keys := filter (λ k, dict_has k (body_to_loop ownership) = false ∧ k ∈ ancestor_ids) (ps_id <$> pl_steps p) in
  top ← res_map (ancestor_evidence (dict_comp es_step_key id steps) (plan_steps_by_id p)) keys;
  previous ← (if (n =? 1)%Z then Ok JNull else previous_iteration_evidence loop_step p cfg steps (n - 1));
  Ok (JObj [("plan_hash", JStr plan_hash); ("candidate_iteration_no", JInt n);
            ("input_snapshot_hash", JStr input_hash); ("execution_context_hash", JStr exec_ctx_hash);
            ("top_level_ancestors", JArr top); ("previous_iteration", previous)]).

(** The digest and the fresh value of the predicate of candidate [n], as both
    the gate and its revalidation compute them *)
Definition as_override (context : json) : option (dict json) :=
  match context with JObj d => Some d | _ => None end.
Definition gate_evidence (e : execution) (loop_step : execution_step) (p : plan) (cfg : loop_config)
    (steps : list execution_step) (n : Z) : res (json * string) :=
  context ← build_while_candidate_context loop_step p cfg steps n;
  evidence ← build_while_evidence_object p e loop_step cfg steps n;
  evidence_hash ← hash_while_predicate_evidence evidence;
  Ok (context, evidence_hash).

Definition evaluate_while_gate (e : execution) (loop_step : execution_step) (p : plan) (cfg : loop_config)
    (steps : list execution_step) (n : Z) : res (execution_step * bool) :=
  match lc_mode cfg, lc_predicate cfg with
  | LoopMode.WHILE, Some pred =>
      let loop_step := if is_none (es_resolved_input loop_step) then pin_while_control_evidence loop_step
                       else loop_step in
      let steps := replace_row loop_step steps in
      _ ← parse_while_predicate_history (es_resolved_input loop_step);
      ce ← gate_evidence e loop_step p cfg steps n;
      result ← evaluate (inl pred) e loop_step steps p (as_override ce.1);
      updated ← append_or_replay_while_history (es_resolved_input loop_step) n (JStr ce.2) result;
      Ok (set_es_resolved_input (while_control_json updated) loop_step, result)
  | _, _ => Err (conflict "WHILE gate requires WHILE predicate.")
  end.

Definition revalidate_while_predicate_gate (e : execution) (loop_step : execution_step) (p : plan)
    (steps : list execution_step) (child_iteration_no : Z) : res unit :=
  _ ← raise_if (child_iteration_no <? 1)%Z (conflict "WHILE child gate requires iteration_no >= 1.");
  cfg ← of_option (conflict "WHILE parent config invalid during gate revalidation.") (loop_config_of loop_step);
  _ ← raise_if (negb (bool_decide (lc_mode cfg = LoopMode.WHILE)))
        (conflict "WHILE gate revalidation requires WHILE parent LOOP.");
  control ← parse_while_predicate_history (es_resolved_input loop_step);
  entry ← of_option (conflict "WHILE predicate_history missing gate for iteration {child_iteration_no}.")
            (history_entry_for control child_iteration_no);
  _ ← raise_if (negb (gate_result entry))
        (conflict "WHILE predicate_history gate for iteration {child_iteration_no} is not true.");
  ce ← gate_evidence e loop_step p cfg steps child_iteration_no;
  _ ← raise_if (negb (String.eqb ce.2 (evidence_hash entry)))
        (conflict "WHILE evidence_hash drift for iteration {child_iteration_no}.");
  fresh ← match lc_predicate cfg with
          | Some pred => evaluate (inl pred) e loop_step steps p (as_override ce.1)
          | None => Err (predicate_fail CODE_EVAL_FAILED "Unsupported Predicate node.")
          end;
  raise_if (negb fresh) (conflict "WHILE Predicate reevaluation is not true for iteration {child_iteration_no}.").

Definition loop_timeout_exceeded (loop_step : execution_step) (now : Z) : bool :=
  match es_started_at loop_step, validate_step (es_step_snapshot loop_step) with
  | Some started, Some plan_step => (seconds (ps_timeout_seconds plan_step) <=? now - started)%Z
  | _, _ => false
  end.

(** ** The budget of step rows *)
Definition children_of (id : uuid) (steps : list execution_step) : list execution_step :=
  filter (λ s, es_parent_step_id s = Some id) steps.

(** [except AppError: raise; except Exception: raise message] *)
Definition reraise_app {A} (m : res A) (message : string) : res A :=
  match m with
  | Err (PyException _) => Err (conflict message)
  | m => m
  end.

(** The reservation of one row: the pinned children of a RUNNING FOR_EACH LOOP
    that are not there yet *)
Definition reserved_rows (plan_by_id : dict plan_step) (steps : list execution_step) (step : execution_step) : res Z :=
  if is_some (es_parent_step_id step) || negb (bool_decide (es_step_type step = StepType.LOOP))
     || negb (bool_decide (es_status step = StepStatus.RUNNING))
  then Ok 0%Z
  else
    cfg ← of_option (conflict "RUNNING LOOP {step.step_key!r} has malformed config for expanded max_steps projection.")
            (loop_config_of step);
    _ ← raise_if (match dict_get (es_step_key step) plan_by_id with
                  | Some expected => negb (py_eq (dump_step expected) (es_step_snapshot step))
                  | None => true
                  end) (conflict "RUNNING LOOP {step.step_key!r} snapshot drift during expanded max_steps projection.");
    match lc_mode cfg with
    | LoopMode.FOR_EACH =>
        pin ← reraise_app (parse_foreach_collection_pin (es_resolved_input step))
                "RUNNING FOR_EACH LOOP {step.step_key!r} has malformed pin for expanded max_steps.";
        let expected_children := (collection_size pin * Z.of_nat (length (lc_body_step_ids cfg)))%Z in
        let actual_children := Z.of_nat (length (children_of (es_id step) steps)) in
        _ ← raise_if (expected_children <? actual_children)%Z
              (conflict "LOOP {step.step_key!r} has more child rows ({actual_children}) than pinned budget ({expected_children}).");
        Ok (expected_children - actual_children)%Z
    | LoopMode.WHILE => _ ← parse_while_predicate_history (es_resolved_input step); Ok 0%Z
    end.

Definition plan_limit_exceeded (message : string) : py_error := AppError PLAN_LIMIT_EXCEEDED message 409.

Definition assert_global_expanded_max_steps (p : plan) (steps : list execution_step) : res unit :=
  remaining ← res_fold (λ acc step, r ← reserved_rows (plan_steps_by_id p) steps step; Ok (acc + r)%Z) steps 0%Z;
  raise_if (max_steps (pl_limits p) <? Z.of_nat (length steps) + remaining)%Z
    (plan_limit_exceeded "Projected runtime step count {projected} exceeds limits.max_steps={plan.limits.max_steps}.").

(** [assert_expanded_max_steps] drops its other arguments. *)
Definition assert_expanded_max_steps (p : plan) (steps : list execution_step) : res unit :=
  assert_global_expanded_max_steps p steps.

Definition assert_while_next_iteration_max_steps (p : plan) (steps : list execution_step) (body_step_count : Z)
    : res unit :=
  _ ← raise_if (max_steps (pl_limits p) <? Z.of_nat (length steps) + body_step_count)%Z
        (plan_limit_exceeded "WHILE next iteration would exceed limits.max_steps={plan.limits.max_steps} (existing={len(steps)}, body={body_step_count}).");
  assert_global_expanded_max_steps p steps.

(** ** The rows of an iteration *)
(** [ExecutionRepository.create_step] *)
Definition create_step (id execution_id : uuid) (step_key : string) (step_type : step_type)
    (mcp_tool_version_id parent_step_id : option uuid) (sequence_hint : Z) (status : step_status)
    (step_snapshot : json) (lock_version : Z) (iteration_no : option Z) : execution_step :=
  {| es_id := id; es_execution_id := execution_id; es_step_key := step_key; es_step_type := step_type;
     es_mcp_tool_version_id := mcp_tool_version_id; es_parent_step_id := parent_step_id;
     es_sequence_hint := sequence_hint; es_status := status; es_step_snapshot := step_snapshot;
     es_resolved_input := JNull; es_result_inline := JNull; es_result_blob_id := None;
     es_condition_result := None; es_iteration_no := iteration_no; es_attempt_count := 0; es_ready_at := None;
     es_started_at := None; es_finished_at := None; es_error_code := None; es_error_message := None;
     es_lock_version := lock_version |}.

(** One turn of the creation loop; [new_id] is [uuid4] of that turn. *)
Definition materialize_child (new_id : nat → uuid) (e : execution) (loop_step : execution_step)
    (plan_by_id : dict plan_step) (n base_hint : Z) (item : nat * string) : res execution_step :=
  let '(offset, body_id) := item in
  template ← dict_item body_id plan_by_id;
  key ← iteration_step_key (es_id loop_step) n body_id;
  tv ← tool_version_for_template template;
  Ok (create_step (new_id offset) (ex_id e) key (ps_type template) tv (Some (es_id loop_step))
        (base_hint + Z.of_nat offset) StepStatus.PENDING (dump_step template) 1 (Some n)).

(** The rows inserted, and the rows returned *)
Definition materialize_iteration (new_id : nat → uuid) (e : execution) (loop_step : execution_step) (p : plan)
    (cfg : loop_config) (n : Z) (existing_steps : list execution_step)
    : res (list execution_step * list execution_step) :=
  _ ← raise_if (n <? 1)%Z (conflict "iteration_no must be >= 1.");
  let existing := child_instances_for_iteration existing_steps (es_id loop_step) n in
  let bodies := lc_body_step_ids cfg in
  if negb (is_nil existing) then
    _ ← raise_if (negb (length existing =? length bodies)%nat)
          (conflict "Partial LOOP iteration {iteration_no} materialization detected.");
    Ok ([], existing)
  else
    _ ← raise_if (max_steps (pl_limits p) <? Z.of_nat (length existing_steps) + Z.of_nat (length bodies))%Z
          (plan_limit_exceeded "Materializing iteration {iteration_no} would exceed limits.max_steps={plan.limits.max_steps} (existing={len(existing_steps)}, body={len(cfg.body_step_ids)}).");
    let base_hint := (py_max0 (es_sequence_hint <$> existing_steps) + 1)%Z in
    created ← res_map (materialize_child new_id e loop_step (plan_steps_by_id p) n base_hint)
                (imap pair bodies);
    Ok (created, created).

Definition iteration_complete (steps : list execution_step) (parent_step_id : uuid) (n : Z) (body_step_count : nat)
    : bool :=
  let children := child_instances_for_iteration steps parent_step_id n in
  (length children =? body_step_count)%nat && forallb (λ c, bool_decide (es_status c ∈ iteration_terminal)) children.

Definition active_iteration_no (steps : list execution_step) (parent_step_id : uuid) : Z :=
  max_materialized_iteration steps parent_step_id.
End loop_reconcile.

(** ** The ends of a LOOP *)
Definition finish_loop (status : step_status) (code message : option string) (now : Z) (s : execution_step)
    : execution_step :=
  s |> set_es_status status |> set_es_error_code code |> set_es_error_message message
    |> set_es_finished_at (Some now) |> bump_step.

Definition succeed_loop (collection_size iterations_completed now : Z) (loop_step : execution_step) : execution_step :=
  loop_step |> set_es_result_inline
      (JObj [("mode", JStr (loop_mode_value LoopMode.FOR_EACH)); ("iterations_completed", JInt iterations_completed);
             ("collection_size", JInt collection_size)])
    |> finish_loop StepStatus.SUCCEEDED None None now.

Definition succeed_while_loop (iterations_completed now : Z) (loop_step : execution_step) : execution_step :=
  loop_step |> set_es_result_inline
      (JObj [("mode", JStr (loop_mode_value LoopMode.WHILE)); ("iterations_completed", JInt iterations_completed)])
    |> finish_loop StepStatus.SUCCEEDED None None now.

Definition fail_loop_known (status : step_status) (error_code error_message : string) (now : Z)
    (loop_step : execution_step) : execution_step :=
  finish_loop status (Some error_code) (Some error_message) now loop_step.

(** [stop_loop_owned_untouched_children], on one row *)
Definition stop_child (loop_id : uuid) (now : Z) (step : execution_step) : res execution_step :=
  if negb (bool_decide (es_parent_step_id step = Some loop_id)) then Ok step
  else if bool_decide (es_status step ∈ iteration_terminal) then Ok step
  else if bool_decide (es_status step = StepStatus.PENDING) then
    Ok (finish_loop StepStatus.SKIPPED (Some UPSTREAM_LOOP_STOPPED)
          (Some "Owning LOOP stopped before this body Step was started.") now step)
  else if bool_decide (es_step_type step = StepType.TOOL) && bool_decide (es_status step = StepStatus.READY)
          && negb (is_some (es_started_at step)) && (es_attempt_count step =? 0)%Z then
    Ok (finish_loop StepStatus.CANCELLED (Some UPSTREAM_LOOP_STOPPED)
          (Some "Owning LOOP stopped before TOOL Attempt start.") now step)
  else if bool_decide (es_status step = StepStatus.RUNNING) then
    Err (conflict "LOOP {loop_step.step_key!r} became terminal while body Step {step.step_key!r} is still RUNNING.")
  else Err (conflict "LOOP {loop_step.step_key!r} stop cannot clean body Step {step.step_key!r} in status {step.status!r}.").

Definition stop_loop_owned_untouched_children (loop_step : execution_step) (now : Z) (by_key : dict execution_step)
    : res (dict execution_step) :=
  res_map (λ kv : string * execution_step, s ← stop_child (es_id loop_step) now kv.2; Ok (kv.1, s)) by_key.
