(* ===== verification/LoopReconcileSound.v ===== *)
(** * What the gates of a LOOP guarantee

    The check before a tool call of a body step recomputes what the gate of its
    iteration decided.  It agrees with the gate as long as the evidence rows are
    the same: the rows of the iteration itself and the control evidence on the
    LOOP row do not enter it. *)
From S2P Require Import Prelude PyStr PyDict Json JsonStrict PyUuid CanonicalHash Domain LoopRuntime Completion.
From S2P Require Import BindingResolver PredicateEvaluator Rows PolicySelection RetryDecision LoopReconcile.

(** ** Evaluation under more rows *)
Section mono.
Context {schema : PlanSchema} {parser : PlanParser}.

Lemma eval_mono env env' p b :
  (∀ x v, resolve_operand env x = Ok v → resolve_operand env' x = Ok v) →
  eval env p = Ok b → eval env' p = Ok b.
Proof.
  intros Hr. revert b. induction p as [op l r|op x|c IH|op cs IH] using predicate_deep_ind; intros b.
  - simpl. unfold eval_comparison. intros H. apply bind_Ok in H as ([] & H1 & H).
    apply bind_Ok in H as (l' & Hl & H). apply bind_Ok in H as (r' & Hr' & H).
    rewrite H1. cbn [mbind res_bind]. rewrite (Hr _ _ Hl). cbn [mbind res_bind].
    rewrite (Hr _ _ Hr'). exact H.
  - simpl. unfold eval_unary. destruct (is_secret_binding x); [done|]. intros H.
    apply bind_Ok in H as (v & Hv & H). rewrite (Hr _ _ Hv). exact H.
  - simpl. intros H. apply bind_Ok in H as (v & Hv & H). rewrite (IH _ Hv). exact H.
  - destruct op.
    + rewrite !eval_and. revert b. induction IH as [|c cs IHc _ IHcs]; intros b; [done|]. simpl. intros H.
      apply bind_Ok in H as (v & Hv & H). rewrite (IHc _ Hv). simpl. destruct v; [by apply IHcs|done].
    + rewrite !eval_or. revert b. induction IH as [|c cs IHc _ IHcs]; intros b; [done|]. simpl. intros H.
      apply bind_Ok in H as (v & Hv & H). rewrite (IHc _ Hv). simpl. destruct v; [done|by apply IHcs].
Qed.

(** Rows that differ in their control evidence only *)
Definition row_agree (r r' : execution_step) : Prop := ∃ ri, r' = set_es_resolved_input ri r.

(** Every top-level row is still found under its key. *)
Definition by_key_agree (bk bk' : dict execution_step) : Prop :=
  ∀ k r, dict_get k bk = Some r → es_parent_step_id r = None →
    ∃ r', dict_get k bk' = Some r' ∧ row_agree r r'.

Lemma resolve_step_output_mono id path owner owner' bk bk' p anc mo v :
  by_key_agree bk bk' → row_agree owner owner' → es_parent_step_id owner = None →
  resolve_step_output id path owner bk p anc mo = Ok v →
  resolve_step_output id path owner' bk' p anc mo = Ok v.
Proof.
  intros Hbk [ri ->] Htop H. unfold resolve_step_output in *.
  apply bind_Ok in H as (own & Hown & H). rewrite Hown. cbn [mbind res_bind].
  change (es_parent_step_id (set_es_resolved_input ri owner)) with (es_parent_step_id owner). rewrite Htop in *.
  apply bind_Ok in H as (src & Hsrc & H). unfold top_level_output_source in *.
  apply bind_Ok in Hsrc as ([] & H1 & Hsrc). apply bind_Ok in Hsrc as (s & Hs%of_option_Ok & Hsrc).
  apply bind_Ok in Hsrc as ([] & H2 & Hsrc). apply bind_Ok in Hsrc as ([] & H3 & Hsrc). injection Hsrc as <-.
  pose proof H2 as Hnone. apply raise_if_Ok, negb_false_iff, bool_decide_eq_true in Hnone.
  destruct (Hbk id s Hs Hnone) as (s' & Hs' & [ri' ->]).
  change (es_step_key (set_es_resolved_input ri owner)) with (es_step_key owner).
  rewrite H1, Hs'. cbn [mbind res_bind of_option].
  change (es_parent_step_id (set_es_resolved_input ri' s)) with (es_parent_step_id s).
  rewrite H2, H3. cbn [mbind res_bind]. exact H.
Qed.

Lemma resolve_binding_mono b e owner owner' bk bk' p anc mo o v :
  by_key_agree bk bk' → row_agree owner owner' → es_parent_step_id owner = None → (o = None → match b with PlanLoopContextBinding _ => False | _ => True end) →
  resolve_binding b e owner bk p anc mo o = Ok v → resolve_binding b e owner' bk' p anc mo o = Ok v.
Proof.
  intros Hbk Hrow Htop Ho. destruct b; simpl; try done.
  - by apply resolve_step_output_mono.
  - unfold resolve_loop_context. destruct o as [d|]; [done|]. destruct (Ho eq_refl).
Qed.

(** ** The rows two evaluations share *)
(** [steps'] is [steps] with the LOOP row rewritten and rows added. *)
Record loop_rows (loop : execution_step) (steps : list execution_step) (loop' : execution_step)
    (new : list execution_step) : Prop := LoopRows {
  lr_member : loop ∈ steps;
  lr_top : es_parent_step_id loop = None;
  lr_ids : NoDup (es_id <$> steps);
  lr_keys : NoDup (es_step_key <$> steps ++ new);
  lr_same : row_agree loop loop' }.

Lemma replace_row_elem loop loop' steps x :
  es_id loop' = es_id loop →
  x ∈ replace_row loop' steps ↔ ∃ y, y ∈ steps ∧ x = if decide (es_id y = es_id loop) then loop' else y.
Proof. intros Hid. unfold replace_row. rewrite elem_of_upd_where. by rewrite Hid. Qed.

Section rows.
#[local] Set Default Proof Using "Type*".
Context (loop loop' : execution_step) (steps new : list execution_step).
Context (H : loop_rows loop steps loop' new).
Let steps' := replace_row loop' steps ++ new.

Lemma lr_id : es_id loop' = es_id loop.
Proof. by destruct (lr_same _ _ _ _ H) as [ri ->]. Qed.

Lemma lr_row x : x ∈ steps → ∃ x', x' ∈ steps' ∧ row_agree x x' ∧ es_step_key x' = es_step_key x.
Proof.
  intros Hx. destruct (decide (es_id x = es_id loop)) as [Hd|Hd].
  - assert (x = loop) as -> by (apply (key_inj es_id steps); try done; apply H).
    exists loop'. split; [|split; [apply H|by destruct (lr_same _ _ _ _ H) as [ri ->]]].
    apply elem_of_app. left. apply (replace_row_elem loop); [apply lr_id|]. exists loop.
    split; [done|]. by rewrite decide_True.
  - exists x. split; [|split; [by exists (es_resolved_input x); destruct x|done]].
    apply elem_of_app. left. apply (replace_row_elem loop); [apply lr_id|]. exists x.
    split; [done|]. by rewrite decide_False.
Qed.

Lemma lr_keys_eq : es_step_key <$> steps' = es_step_key <$> steps ++ new.
Proof.
  unfold steps'. rewrite !fmap_app. f_equal. unfold replace_row, upd_where. rewrite <- list_fmap_compose.
  apply Forall_fmap_ext_1, Forall_forall. intros x Hx. unfold compose. case_decide as Hd; [|done].
  rewrite lr_id in Hd. assert (x = loop) as -> by (apply (key_inj es_id steps); try done; apply H).
  by destruct (lr_same _ _ _ _ H) as [ri ->].
Qed.

Lemma lr_by_key : by_key_agree (dict_comp es_step_key id steps) (dict_comp es_step_key id steps').
Proof.
  intros k r (x & Hx & <- & <-)%dict_comp_get _. destruct (lr_row x Hx) as (x' & Hx' & Hr & Hk).
  exists x'. split; [|done]. unfold id. rewrite <- Hk.
  apply (dict_comp_get_NoDup es_step_key (λ s, s)); [|done]. rewrite lr_keys_eq. apply H.
Qed.

Lemma filter_replace (P : execution_step → Prop) `{∀ x, Decision (P x)} :
  (∀ x, es_id x = es_id loop → x ∈ steps → ¬ P x) → ¬ P loop' →
  filter P (replace_row loop' steps) = filter P steps.
Proof.
  intros HP HP'. unfold replace_row, upd_where.
  assert (∀ l : list execution_step, (∀ x, x ∈ l → x ∈ steps) →
    filter P ((λ x, if decide (es_id x = es_id loop') then loop' else x) <$> l) = filter P l) as Hl; [|by apply Hl].
  induction l as [|x l IH]; intros Hl; [done|]. rewrite fmap_cons, !filter_cons, IH by (intros; apply Hl; by right).
  destruct (decide (es_id x = es_id loop')) as [Hd|Hd]; [|done].
  rewrite (decide_False (P := P loop')) by done. rewrite decide_False; [done|]. apply HP; [|apply Hl; left].
  by rewrite Hd, lr_id.
Qed.

Lemma ancestor_evidence_mono plan_by_id k v :
  ancestor_evidence (dict_comp es_step_key id steps) plan_by_id k = Ok v →
  ancestor_evidence (dict_comp es_step_key id steps') plan_by_id k = Ok v.
Proof.
  unfold ancestor_evidence. intros E. apply bind_Ok in E as (r & Hr%of_option_Ok & E).
  apply bind_Ok in E as (ps & Hps & E). apply bind_Ok in E as ([] & Ha & E).
  assert (es_parent_step_id r = None) as Htop.
  { pose proof Ha as Ha'. unfold assert_while_top_level_ancestor_lineage in Ha'.
    apply bind_Ok in Ha' as ([] & Ha' & _). by apply raise_if_Ok, negb_false_iff, bool_decide_eq_true in Ha'. }
  destruct (lr_by_key k r Hr Htop) as (r' & -> & [ri ->]). cbn [of_option mbind res_bind].
  rewrite Hps. cbn [mbind res_bind].
  change (assert_while_top_level_ancestor_lineage (set_es_resolved_input ri r) ps) with
    (assert_while_top_level_ancestor_lineage r ps). rewrite Ha. exact E.
Qed.

Lemma res_map_mono {A B} (f g : A → res B) l ys :
  (∀ x y, f x = Ok y → g x = Ok y) → res_map f l = Ok ys → res_map g l = Ok ys.
Proof.
  intros Hfg. rewrite !res_map_Ok. intros Hl. induction Hl; constructor; auto.
Qed.

Lemma evaluate_mono q e p o b :
  o ≠ None →
  evaluate (inl q) e loop steps p o = Ok b → evaluate (inl q) e loop' steps' p o = Ok b.
Proof.
  intros Ho. unfold evaluate. cbn [mbind res_bind]. intros E. apply bind_Ok in E as ([] & Hown & E).
  apply bind_Ok in E as (an & Han & E). rewrite Han.
  assert (dict_get (es_step_key loop') (dict_comp es_step_key id steps') = Some loop') as Hget.
  { apply (dict_comp_get_NoDup es_step_key (λ s, s)); [rewrite lr_keys_eq; apply H|].
    apply elem_of_app. left. apply (replace_row_elem loop); [apply lr_id|]. exists loop.
    split; [apply H|]. by rewrite decide_True. }
  rewrite Hget, bool_decide_true by done. cbn [negb raise_if mbind res_bind].
  eapply eval_mono; [|exact E]. intros x v Hx. unfold resolve_operand in *.
  cbn [ee_execution ee_owning_step ee_by_key ee_plan ee_ancestors ee_override] in *.
  destruct (resolve_binding x e loop _ p an true o) as [w|err] eqn:Ew.
  - injection Hx as ->. erewrite resolve_binding_mono; [done|apply lr_by_key|apply H|apply H|done|exact Ew].
  - destruct err; [case_bool_decide|]; discriminate Hx.
Qed.

(** The added rows are the children of one iteration. *)
Context (n : Z) (Hnew : ∀ s, s ∈ new → es_parent_step_id s = Some (es_id loop) ∧ es_iteration_no s = Some n).

Lemma lr_children m : m ≠ n →
  child_instances_for_iteration steps' (es_id loop) m = child_instances_for_iteration steps (es_id loop) m.
Proof.
  intros Hm. unfold child_instances_for_iteration, steps'. rewrite filter_app.
  rewrite filter_replace.
  - rewrite (filter_nil_all _ new); [by rewrite app_nil_r|]. intros s Hs [_ Hn].
    destruct (Hnew s Hs) as [_ Hn']. congruence.
  - intros x Hid Hx [Hp _]. assert (x = loop) as -> by (apply (key_inj es_id steps); try done; apply H).
    by rewrite (lr_top _ _ _ _ H) in Hp.
  - intros [Hp _]. pose proof (lr_top _ _ _ _ H) as Ht. destruct (lr_same _ _ _ _ H) as [ri Hl]. rewrite Hl in Hp. simpl in Hp. congruence.
Qed.

(** ** The evidence is the same *)
Lemma previous_projection_eq m bodies p : m ≠ n →
  build_previous_iteration_projection steps' (es_id loop) m bodies p =
  build_previous_iteration_projection steps (es_id loop) m bodies p.
Proof. intros Hm. unfold build_previous_iteration_projection. by rewrite (lr_children m Hm). Qed.

Lemma candidate_context_eq p cfg :
  build_while_candidate_context loop' p cfg steps' n = build_while_candidate_context loop p cfg steps n.
Proof.
  unfold build_while_candidate_context. rewrite lr_id, previous_projection_eq by lia.
  by destruct (lr_same _ _ _ _ H) as [ri ->].
Qed.

Lemma gate_evidence_mono e p cfg ce :
  gate_evidence e loop p cfg steps n = Ok ce → gate_evidence e loop' p cfg steps' n = Ok ce.
Proof.
  unfold gate_evidence. rewrite candidate_context_eq. intros E. apply bind_Ok in E as (ctx & Hctx & E).
  rewrite Hctx. cbn [mbind res_bind]. apply bind_Ok in E as (ev & Hev & E).
  assert (build_while_evidence_object p e loop' cfg steps' n = Ok ev) as ->; [|exact E].
  unfold build_while_evidence_object in *.
  apply bind_Ok in Hev as ([] & H1 & Hev). rewrite H1. cbn [mbind res_bind].
  apply bind_Ok in Hev as (ph & H2 & Hev). rewrite H2. cbn [mbind res_bind].
  apply bind_Ok in Hev as (ih & H3 & Hev). rewrite H3. cbn [mbind res_bind].
  apply bind_Ok in Hev as (eh & H4 & Hev). rewrite H4. cbn [mbind res_bind].
  apply bind_Ok in Hev as (an & H5 & Hev). rewrite H5. cbn [mbind res_bind].
  apply bind_Ok in Hev as (ow & H6 & Hev). rewrite H6. cbn [mbind res_bind].
  apply bind_Ok in Hev as (top & H7 & Hev). apply bind_Ok in Hev as (pv & H8 & Hev).
  assert (es_step_key loop' = es_step_key loop) as -> by by destruct (lr_same _ _ _ _ H) as [ri ->].
  erewrite (res_map_mono _ _ _ _ (ancestor_evidence_mono (plan_steps_by_id p)) H7). cbn [mbind res_bind].
  destruct (n =? 1)%Z eqn:En; [by rewrite <- Hev, H8|].
  unfold previous_iteration_evidence. rewrite lr_id, previous_projection_eq, lr_children by lia.
  unfold previous_iteration_evidence in H8. rewrite H8. exact Hev.
Qed.

End rows.

(** ** The gate *)
Lemma updated_history j m d r h :
  append_or_replay_while_history j m (JStr d) r = Ok h →
  parse_while_predicate_history (while_control_json h) = Ok h ∧
  history_entry_for h m = Some (WhileGate m d r).
Proof.
  intros E. destruct (parse_while_predicate_history j) as [h0|err] eqn:Hj.
  2: { unfold append_or_replay_while_history in E. by rewrite Hj in E. }
  assert (parse_while_predicate_history (while_control_json h) = Ok h) as Hp.
  { pose proof E as E'. unfold append_or_replay_while_history in E'. rewrite Hj in E'. cbn [mbind res_bind] in E'.
    apply bind_Ok in E' as (d' & _ & E'). apply bind_Ok in E' as (h' & _ & E').
    apply parse_while_control_json. by eapply parse_while_history_ok. }
  split; [done|]. apply history_entry_for_ok; [by eapply parse_while_history_ok|].
  destruct (proj1 (append_history_Ok _ _ _ _ _ _ Hj) E) as (d' & Hd & _ & Hcase).
  injection Hd as <-. destruct Hcase as [[Hm Hh]|(H1 & H2 & Hh)]; rewrite Hh; [|done].
  split; [lia|]. replace (Z.to_nat (m - 1)) with (length h0) by lia. subst m. by rewrite list_lookup_middle.
Qed.

Lemma while_gate_again e loop loop' p cfg steps new n :
  evaluate_while_gate e loop p cfg steps n = Ok (loop', true) →
  loop ∈ steps → es_parent_step_id loop = None → NoDup (es_id <$> steps) → NoDup (es_step_key <$> steps ++ new) →
  (∀ s, s ∈ new → es_parent_step_id s = Some (es_id loop) ∧ es_iteration_no s = Some n) →
  loop_config_of loop = Some cfg → (1 ≤ n)%Z →
  revalidate_while_predicate_gate e loop' p (replace_row loop' steps ++ new) n = Ok tt.
Proof.
  unfold evaluate_while_gate. intros E Hin Htop Hids Hkeys Hnew Hcfg Hn.
  destruct (lc_mode cfg) eqn:Em; [done|]. destruct (lc_predicate cfg) as [pred|] eqn:Ep; [|done].
  set (loop1 := if is_none _ then _ else _) in E.
  apply bind_Ok in E as (h0 & Hh0 & E). apply bind_Ok in E as (ce & Hce & E).
  apply bind_Ok in E as (r & Hr & E). apply bind_Ok in E as (h & Hh & E). injection E as <- ->.
  set (loop2 := set_es_resolved_input (while_control_json h) loop1).
  assert (row_agree loop loop1) as H01
    by (unfold loop1; destruct (is_none _); [by eexists|exists (es_resolved_input loop); by destruct loop]).
  assert (loop_rows loop steps loop1 new) as R0 by by constructor.
  assert (es_id loop1 = es_id loop) as Hid by by destruct H01 as [ri ->].
  assert (es_step_key loop1 = es_step_key loop) as Hkey by by destruct H01 as [ri ->].
  assert (loop_rows loop1 (replace_row loop1 steps) loop2 new) as R1.
  { pose proof (lr_keys_eq _ _ _ _ R0) as Hk. constructor.
    - apply (replace_row_elem loop); [done|]. exists loop. split; [done|]. by rewrite decide_True.
    - by destruct H01 as [ri ->].
    - unfold replace_row, upd_where. rewrite <- list_fmap_compose.
      assert (es_id ∘ (λ x, if decide (es_id x = es_id loop1) then loop1 else x) <$> steps = es_id <$> steps) as ->; [|done].
      apply list_fmap_ext. intros _ x _. unfold compose. by case_decide.
    - rewrite Hk. done.
    - by exists (while_control_json h). }
  assert (∀ s, s ∈ new → es_parent_step_id s = Some (es_id loop1) ∧ es_iteration_no s = Some n) as Hnew1
    by by rewrite Hid.
  assert (replace_row loop2 (replace_row loop1 steps) = replace_row loop2 steps) as Hrep.
  { unfold replace_row, upd_where. rewrite <- list_fmap_compose. apply list_fmap_ext. intros _ x _. unfold compose.
    change (es_id loop2) with (es_id loop1). destruct (decide (es_id x = es_id loop1)); [by rewrite decide_True|].
    by rewrite decide_False. }
  rewrite <- Hrep. destruct (updated_history _ _ _ _ _ Hh) as [Hp He].
  unfold revalidate_while_predicate_gate. destruct (Z.ltb_spec n 1); [lia|]. cbn [raise_if mbind res_bind].
  assert (loop_config_of loop2 = Some cfg) as ->.
  { rewrite <- Hcfg. unfold loop_config_of. change (es_step_snapshot loop2) with (es_step_snapshot loop1).
    by destruct H01 as [ri ->]. }
  cbn [of_option mbind res_bind]. rewrite bool_decide_true by done. cbn [negb raise_if mbind res_bind].
  change (es_resolved_input loop2) with (while_control_json h). rewrite Hp. cbn [mbind res_bind].
  rewrite He. cbn [of_option mbind res_bind gate_result negb raise_if evidence_hash].
  rewrite (gate_evidence_mono _ _ _ _ R1 n Hnew1 _ _ _ _ Hce). cbn [mbind res_bind]. rewrite String.eqb_refl.
  cbn [negb raise_if mbind res_bind]. rewrite Ep.
  assert (as_override ce.1 ≠ None) as Ho.
  { unfold gate_evidence in Hce. apply bind_Ok in Hce as (ctx & Hctx & Hce). apply bind_Ok in Hce as (ev & _ & Hce).
    apply bind_Ok in Hce as (hh & _ & Hce). injection Hce as <-. simpl.
    unfold build_while_candidate_context, build_while_loop_context_projection in Hctx. inv_res. done. }
  by rewrite (evaluate_mono _ _ _ _ R1 _ _ _ _ _ Ho Hr).
Qed.

(** A WHILE gate that opened stays open for its iteration.  When the
    predicate of candidate [n] evaluated to true and the control evidence was
    recorded, the check before each tool call of the iteration passes: with the
    new evidence on the LOOP row and the rows of iteration [n] added, nothing it
    recomputes has changed. *)
Theorem while_gate_revalidates e loop loop' p cfg steps new n :
  evaluate_while_gate e loop p cfg steps n = Ok (loop', true) →
  loop ∈ steps → es_parent_step_id loop = None → NoDup (es_id <$> steps) → NoDup (es_step_key <$> steps ++ new) →
  (∀ s, s ∈ new → es_parent_step_id s = Some (es_id loop) ∧ es_iteration_no s = Some n) →
  loop_config_of loop = Some cfg → (1 ≤ n)%Z →
  revalidate_while_predicate_gate e loop' p (replace_row loop' steps ++ new) n = Ok tt.
Proof. apply while_gate_again. Qed.

Lemma gate_row_agree e loop loop' p cfg steps n b :
  evaluate_while_gate e loop p cfg steps n = Ok (loop', b) → row_agree loop loop'.
Proof.
  unfold evaluate_while_gate. destruct (lc_mode cfg), (lc_predicate cfg); try done. intros E.
  apply bind_Ok in E as (h0 & _ & E). apply bind_Ok in E as (ce & _ & E).
  apply bind_Ok in E as (r & _ & E). apply bind_Ok in E as (h & _ & E). injection E as <- _.
  destruct (is_none _); by eexists.
Qed.

(** ** The pinned collection *)
(** A pinned collection stays pinned.  What a FOR_EACH LOOP resolved when it
    started, pinned by hash and size, is resolved again and accepted by the
    check before each tool call of its body, for every iteration up to the
    size and whatever rows of its iterations have been added. *)
Lemma foreach_pin_again e loop loop' p cfg steps new collection k :
  resolve_foreach_collection e loop p steps cfg = Ok collection → pin_collection_evidence loop collection = Ok loop' →
  loop ∈ steps → es_parent_step_id loop = None → NoDup (es_id <$> steps) → NoDup (es_step_key <$> steps ++ new) →
  loop_config_of loop = Some cfg → (1 ≤ k ≤ Z.of_nat (length collection))%Z →
  revalidate_foreach_collection_pin e loop' p (replace_row loop' steps ++ new) (Some k) = Ok collection.
Proof.
  intros Hres Hpin Hin Htop Hids Hkeys Hcfg Hk.
  unfold pin_collection_evidence in Hpin. apply bind_Ok in Hpin as (h & Hh & Hpin). injection Hpin as <-.
  set (ri := JObj _). set (loop' := set_es_resolved_input ri loop).
  assert (loop_rows loop steps loop' new) as R by (constructor; try done; by eexists).
  assert (parse_foreach_collection_pin ri = Ok (ForeachPin h (Z.of_nat (length collection)))) as Hparse.
  { unfold ri, parse_foreach_collection_pin.
    change (same_set _ _) with true. change (py_eq _ _) with true. cbn [negb raise_if mbind res_bind].
    change (get_or_none "collection_hash" _) with (JStr h).
    change (get_or_none "collection_size" _) with (JInt (Z.of_nat (length collection))).
    cbv iota. assert (is_sha256_hex h = true) as -> by by eapply canonical_hash_is_sha256.
    cbn [negb raise_if mbind res_bind]. destruct (Z.ltb_spec (Z.of_nat (length collection)) 0); [lia|done]. }
  assert (resolve_foreach_collection e loop' p (replace_row loop' steps ++ new) cfg = Ok collection) as Hres'.
  { unfold resolve_foreach_collection in *. destruct (lc_mode cfg); [|done]. destruct (lc_collection cfg) as [b|]; [|done].
    apply bind_Ok in Hres as ([] & Hb & Hres). rewrite Hb. cbn [mbind res_bind].
    apply bind_Ok in Hres as (an & Han & Hres). rewrite Han. cbn [mbind res_bind].
    apply bind_Ok in Hres as (v & Hv & Hres).
    erewrite resolve_binding_mono; [exact Hres|exact (lr_by_key loop loop' steps new R)|by eexists|done| |exact Hv].
    intros _. by destruct b. }
  unfold revalidate_foreach_collection_pin. change (loop_config_of loop') with (loop_config_of loop). rewrite Hcfg.
  cbn [of_option mbind res_bind]. change (es_resolved_input loop') with ri. rewrite Hparse. cbn [mbind res_bind].
  rewrite Hres'. cbn [mbind res_bind]. unfold assert_collection_pin_stable.
  change (es_resolved_input loop') with ri. rewrite Hparse. cbn [mbind res_bind]. rewrite Hh. cbn [mbind res_bind].
  cbn [collection_hash collection_size]. rewrite String.eqb_refl, Z.eqb_refl. cbn [negb orb raise_if mbind res_bind].
  destruct (Z.ltb_spec k 1); [lia|]. destruct (Z.ltb_spec (Z.of_nat (length collection)) k); [lia|done].
Qed.

(** ** The rows of an iteration *)
(** The row of body template [b] in iteration [n] *)
Definition iteration_row (e : execution) (loop : execution_step) (p : plan) (n : Z) (b : string) (s : execution_step) : Prop :=
  ∃ template, dict_get b (plan_steps_by_id p) = Some template ∧
    iteration_step_key (es_id loop) n b = Ok (es_step_key s) ∧
    tool_version_for_template template = Ok (es_mcp_tool_version_id s) ∧
    es_step_type s = ps_type template ∧ es_step_snapshot s = dump_step template ∧
    es_parent_step_id s = Some (es_id loop) ∧ es_iteration_no s = Some n ∧ es_execution_id s = ex_id e ∧
    es_status s = StepStatus.PENDING ∧ es_attempt_count s = 0%Z ∧ es_resolved_input s = JNull.

Lemma imap_pair_Forall2 {A B} (P : A → B → Prop) (f : nat * A → res B) l ys :
  (∀ i x y, f (i, x) = Ok y → P x y) → res_map f (imap pair l) = Ok ys → Forall2 P l ys.
Proof.
  intros HP. rewrite res_map_Ok. intros H. apply Forall2_same_length_lookup. pose proof (Forall2_length _ _ _ H) as Hl. rewrite length_imap in Hl.
  split; [done|]. intros i x y Hx Hy.
  eapply HP, (Forall2_lookup_lr _ _ _ i (i, x) y H); [|done]. rewrite list_lookup_imap, Hx. done.
Qed.

Lemma materialize_rows new_id e loop p n base bodies rows :
  res_map (materialize_child new_id e loop (plan_steps_by_id p) n base) (imap pair bodies) = Ok rows →
  Forall2 (iteration_row e loop p n) bodies rows.
Proof.
  apply imap_pair_Forall2. intros i b s H. unfold materialize_child in H.
  apply bind_Ok in H as (tpl & Ht%of_option_Ok & H). apply bind_Ok in H as (k & Hk & H).
  apply bind_Ok in H as (tv & Htv & H). injection H as <-. exists tpl. by split_and!.
Qed.

Lemma new_rows_children e loop p n bodies rows :
  Forall2 (iteration_row e loop p n) bodies rows → ∀ s, s ∈ rows →
  es_parent_step_id s = Some (es_id loop) ∧ es_iteration_no s = Some n ∧ es_status s = StepStatus.PENDING.
Proof.
  intros H s Hs. apply list_elem_of_lookup in Hs as [i Hi].
  eapply Forall2_lookup_r in H as (b & _ & tpl & _ & _ & _ & _ & _ & H1 & H2 & _ & H3 & _); [|done]. done.
Qed.

Lemma children_app loop n steps rows :
  (∀ s, s ∈ rows → es_parent_step_id s = Some (es_id loop) ∧ es_iteration_no s = Some n ∧ es_status s = StepStatus.PENDING) →
  child_instances_for_iteration (steps ++ rows) (es_id loop) n =
  child_instances_for_iteration steps (es_id loop) n ++ rows.
Proof.
  intros H. unfold child_instances_for_iteration. rewrite filter_app. f_equal.
  apply filter_all. intros s Hs. by destruct (H s Hs) as (H1 & H2 & _).
Qed.

(** The rows of an iteration exist exactly once.  Materializing an iteration
    either finds its complete set of rows and inserts nothing, or finds none and
    inserts one PENDING row per body template, with the template's key, type,
    tool version and snapshot, within the plan's step limit; in both cases a
    second run inserts nothing and returns the same rows. *)
Theorem materialize_iteration_spec new_id e loop p cfg n steps ins out :
  lc_body_step_ids cfg ≠ [] →
  materialize_iteration new_id e loop p cfg n steps = Ok (ins, out) →
  length out = length (lc_body_step_ids cfg) ∧
  out = child_instances_for_iteration (steps ++ ins) (es_id loop) n ∧
  (ins = [] ∨ ins = out ∧ child_instances_for_iteration steps (es_id loop) n = [] ∧
     Forall2 (iteration_row e loop p n) (lc_body_step_ids cfg) ins ∧
     (Z.of_nat (length (steps ++ ins)) ≤ max_steps (pl_limits p))%Z) ∧
  ∀ new_id', materialize_iteration new_id' e loop p cfg n (steps ++ ins) = Ok ([], out).
Proof.
  intros Hne H. unfold materialize_iteration in H. apply bind_Ok in H as ([] & Hn & H).
  assert (length out = length (lc_body_step_ids cfg) ∧
    out = child_instances_for_iteration (steps ++ ins) (es_id loop) n ∧
    (ins = [] ∨ ins = out ∧ child_instances_for_iteration steps (es_id loop) n = [] ∧
      Forall2 (iteration_row e loop p n) (lc_body_step_ids cfg) ins ∧
      (Z.of_nat (length (steps ++ ins)) ≤ max_steps (pl_limits p))%Z)) as (Hl & Hc & Hcase).
  - destruct (child_instances_for_iteration steps (es_id loop) n) as [|c cs] eqn:Ec; cbn [is_nil negb] in H.
    + apply bind_Ok in H as ([] & Hlim & H). apply raise_if_Ok, Z.ltb_ge in Hlim.
      apply bind_Ok in H as (rows & Hrows%materialize_rows & H). injection H as <- <-.
      pose proof (Forall2_length _ _ _ Hrows) as Hlen. split; [done|].
      rewrite (children_app loop n) by by eapply new_rows_children. rewrite Ec. split; [done|]. right.
      split_and!; try done. rewrite length_app. lia.
    + apply bind_Ok in H as ([] & Hlen & H). injection H as <- <-.
      apply raise_if_Ok, negb_false_iff, Nat.eqb_eq in Hlen. rewrite app_nil_r, Ec. by split_and!; auto.
  - split; [done|]. split; [done|]. split; [done|]. intros new_id'. unfold materialize_iteration. rewrite Hn, <- Hc.
    cbn [mbind res_bind]. destruct out as [|s out]; [by destruct (lc_body_step_ids cfg)|]. cbn [is_nil negb].
    by rewrite Hl, Nat.eqb_refl.
Qed.

(** ** The budget of rows *)
Definition total (rs : list Z) : Z := foldr Z.add 0%Z rs.

Lemma budget_iff p steps :
  assert_global_expanded_max_steps p steps = Ok tt ↔
  ∃ rs, res_map (reserved_rows (plan_steps_by_id p) steps) steps = Ok rs ∧
    (Z.of_nat (length steps) + total rs ≤ max_steps (pl_limits p))%Z.
Proof.
  unfold assert_global_expanded_max_steps. set (f := reserved_rows _ steps).
  assert (∀ l acc r, res_fold (λ acc step, r ← f step; Ok (acc + r)%Z) l acc = Ok r ↔
    ∃ rs, res_map f l = Ok rs ∧ r = (acc + total rs)%Z) as Hf.
  { induction l as [|s l IH]; intros acc r; cbn [res_fold res_map].
    - split; [intros [= <-]; exists []; simpl; split; [done|lia]|intros (rs & [= <-] & ->); simpl; f_equal; lia].
    - destruct (f s) as [x|err]; cbn [mbind res_bind]; [|naive_solver]. rewrite IH. split.
      + intros (rs & -> & ->). exists (x :: rs). cbn. split; [done|]. unfold total. cbn. lia.
      + intros (rs & H & ->). apply bind_Ok in H as (ys & Hys & [= <-]). exists ys. split; [done|]. unfold total. cbn. lia. }
  rewrite bind_Ok. setoid_rewrite Hf. setoid_rewrite raise_if_Ok. setoid_rewrite Z.ltb_ge. split.
  - intros (a & (rs & H & ->) & Hle). exists rs. split; [done|lia].
  - intros (rs & H & Hle). exists (total rs). split; [exists rs; split; [done|lia]|lia].
Qed.

Lemma reserved_rows_nonneg plan_by_id steps s r : reserved_rows plan_by_id steps s = Ok r → (0 ≤ r)%Z.
Proof.
  unfold reserved_rows. destruct (_ || _); [intros [= <-]; lia|]. intros H.
  apply bind_Ok in H as (cfg & _ & H). apply bind_Ok in H as ([] & _ & H). destruct (lc_mode cfg).
  - apply bind_Ok in H as (pin & _ & H). apply bind_Ok in H as ([] & Hle & H). injection H as <-.
    apply raise_if_Ok, Z.ltb_ge in Hle. lia.
  - apply bind_Ok in H as (h & _ & H). injection H as <-. lia.
Qed.

(** A running top-level FOR_EACH row with its configuration and its pin *)
Definition running_foreach (loop : execution_step) (cfg : loop_config) (pin : foreach_pin) : Prop :=
  es_parent_step_id loop = None ∧ es_step_type loop = StepType.LOOP ∧ es_status loop = StepStatus.RUNNING ∧
  loop_config_of loop = Some cfg ∧ lc_mode cfg = LoopMode.FOR_EACH ∧
  parse_foreach_collection_pin (es_resolved_input loop) = Ok pin.

Lemma reserved_running plan_by_id steps loop cfg pin r :
  running_foreach loop cfg pin → reserved_rows plan_by_id steps loop = Ok r →
  r = (collection_size pin * Z.of_nat (length (lc_body_step_ids cfg)) -
       Z.of_nat (length (children_of (es_id loop) steps)))%Z.
Proof.
  intros (H1 & H2 & H3 & H4 & H5 & H6) H. unfold reserved_rows in H. rewrite H1, H2, H3, H4 in H.
  rewrite !bool_decide_true in H by done. cbn [is_some negb orb of_option mbind res_bind] in H.
  apply bind_Ok in H as ([] & _ & H). rewrite H5, H6 in H. cbn [reraise_app mbind res_bind] in H.
  apply bind_Ok in H as ([] & _ & H). by injection H as <-.
Qed.

Lemma children_of_app_other id steps rows :
  (∀ s, s ∈ rows → es_parent_step_id s ≠ Some id) → children_of id (steps ++ rows) = children_of id steps.
Proof.
  intros H. unfold children_of. rewrite filter_app.
  rewrite (filter_nil_all _ rows) by done. by rewrite app_nil_r.
Qed.

Lemma reserved_other plan_by_id steps rows s loop :
  (∀ x, x ∈ rows → es_parent_step_id x = Some (es_id loop)) → es_id s ≠ es_id loop →
  reserved_rows plan_by_id (steps ++ rows) s = reserved_rows plan_by_id steps s.
Proof.
  intros Hrows Hid. unfold reserved_rows. rewrite children_of_app_other; [done|].
  intros x Hx. rewrite (Hrows x Hx). congruence.
Qed.

Lemma reserved_loop plan_by_id steps rows loop cfg pin r :
  running_foreach loop cfg pin → reserved_rows plan_by_id steps loop = Ok r →
  (∀ x, x ∈ rows → es_parent_step_id x = Some (es_id loop)) → (Z.of_nat (length rows) ≤ r)%Z →
  reserved_rows plan_by_id (steps ++ rows) loop = Ok (r - Z.of_nat (length rows))%Z.
Proof.
  intros Hrun Hr Hrows Hle. pose proof (reserved_running _ _ _ _ _ _ Hrun Hr) as ->.
  destruct Hrun as (H1 & H2 & H3 & H4 & H5 & H6). unfold reserved_rows in *. rewrite H1, H2, H3, H4 in *.
  rewrite !bool_decide_true in * by done. cbn [is_some negb orb of_option mbind res_bind] in *.
  apply bind_Ok in Hr as ([] & Hd & Hr). rewrite Hd. rewrite H5, H6 in *. cbn [reraise_app mbind res_bind] in *.
  assert (children_of (es_id loop) (steps ++ rows) = children_of (es_id loop) steps ++ rows) as ->
    by (unfold children_of; rewrite filter_app; f_equal; by apply filter_all).
  rewrite length_app. destruct (Z.ltb_spec (collection_size pin * Z.of_nat (length (lc_body_step_ids cfg)))
    (Z.of_nat (length (children_of (es_id loop) steps) + length rows))); [lia|].
  cbn [raise_if mbind res_bind]. f_equal. lia.
Qed.

Lemma reserved_pending plan_by_id steps s : es_parent_step_id s ≠ None → reserved_rows plan_by_id steps s = Ok 0%Z.
Proof. intros H. unfold reserved_rows. by destruct (es_parent_step_id s). Qed.

Lemma total_app xs ys : total (xs ++ ys) = (total xs + total ys)%Z.
Proof. unfold total. induction xs as [|x xs IH]; [done|]. cbn. rewrite IH. lia. Qed.

Lemma total_le (r : Z) rs : (∀ x, x ∈ rs → (0 ≤ x)%Z) → r ∈ rs → (r ≤ total rs)%Z.
Proof.
  intros Hnn Hin. induction rs as [|x rs IH]; [by apply elem_of_nil in Hin|]. unfold total in *. cbn.
  assert (0 ≤ foldr Z.add 0 rs)%Z as Hp.
  { assert (∀ y, y ∈ rs → (0 ≤ y)%Z) as Hr by (intros; apply Hnn; by right). clear -Hr.
    induction rs as [|y rs IH]; cbn; [lia|]. assert (0 ≤ y)%Z by (apply Hr; left).
    assert (0 ≤ foldr Z.add 0 rs)%Z; [apply IH; intros; apply Hr; by right|lia]. }
  assert (0 ≤ x)%Z by (apply Hnn; left). apply elem_of_cons in Hin as [->|Hin]; [lia|].
  assert (r ≤ foldr Z.add 0 rs)%Z; [apply IH; [intros; apply Hnn; by right|done]|lia].
Qed.

(** Rows of one iteration move from the reservation to the rows. *)
Lemma reserved_after plan_by_id steps loop cfg pin rows L rs :
  running_foreach loop cfg pin → NoDup (es_id <$> L) → (∀ s, s ∈ L → es_id s = es_id loop → s = loop) → loop ∈ L →
  res_map (reserved_rows plan_by_id steps) L = Ok rs →
  (∀ r, reserved_rows plan_by_id steps loop = Ok r → (Z.of_nat (length rows) ≤ r)%Z) →
  (∀ x, x ∈ rows → es_parent_step_id x = Some (es_id loop)) →
  ∃ rs', res_map (reserved_rows plan_by_id (steps ++ rows)) L = Ok rs' ∧
    (total rs' = total rs - Z.of_nat (length rows))%Z.
Proof.
  intros Hrun. revert rs. induction L as [|s L IH]; intros rs Hnd Huniq Hin Hrs Hle Hrows; [by apply elem_of_nil in Hin|].
  cbn [res_map] in *. apply bind_Ok in Hrs as (r & Hr & Hrs). apply bind_Ok in Hrs as (rs0 & Hrs0 & [= <-]).
  apply NoDup_cons in Hnd as [Hnin Hnd]. unfold total. cbn.
  destruct (decide (es_id s = es_id loop)) as [Hid|Hid].
  - assert (s = loop) as -> by (apply Huniq; [left|done]).
    rewrite (reserved_loop _ _ _ _ _ _ _ Hrun Hr Hrows) by by apply Hle. cbn [mbind res_bind].
    assert (res_map (reserved_rows plan_by_id (steps ++ rows)) L = Ok rs0) as ->.
    { rewrite <- Hrs0. clear -Hnin Hrows. induction L as [|x L IHL]; [done|]. cbn [res_map].
      rewrite (reserved_other _ _ _ _ loop); [|done|].
      - rewrite IHL; [done|]. intros Hx. apply Hnin. by right.
      - intros Heq. apply Hnin. rewrite <- Heq. left. }
    cbn [mbind res_bind]. exists ((r - Z.of_nat (length rows))%Z :: rs0). split; [done|]. cbn. lia.
  - apply elem_of_cons in Hin as [->|Hin]; [done|].
    destruct (IH rs0 Hnd) as (rs' & H1 & H2); [|done..|].
    { intros x Hx. apply Huniq. by right. }
    rewrite (reserved_other _ _ _ _ loop) by done. rewrite Hr. cbn [mbind res_bind]. rewrite H1. cbn [mbind res_bind].
    exists (r :: rs'). split; [done|]. unfold total in H2. cbn. lia.
Qed.

(** A pinned FOR_EACH LOOP never runs out of rows.  While the global
    projection is accepted and the LOOP has children left to create, the step
    limit does not stop the next iteration, and after its rows are inserted the
    projection is accepted again, for the LOOPs running next to it as well. *)
Theorem foreach_budget_invariant new_id e loop p cfg pin n steps :
  assert_global_expanded_max_steps p steps = Ok tt →
  loop ∈ steps → NoDup (es_id <$> steps) → running_foreach loop cfg pin →
  (Z.of_nat (length (children_of (es_id loop) steps) + length (lc_body_step_ids cfg))
   ≤ collection_size pin * Z.of_nat (length (lc_body_step_ids cfg)))%Z →
  (Z.of_nat (length steps + length (lc_body_step_ids cfg)) ≤ max_steps (pl_limits p))%Z ∧
  match materialize_iteration new_id e loop p cfg n steps with
  | Ok (ins, _) => assert_global_expanded_max_steps p (steps ++ ins) = Ok tt
  | Err err => ∀ m, err ≠ plan_limit_exceeded m
  end.
Proof.
  intros Hb Hin Hnd Hrun Hleft. apply budget_iff in Hb as (rs & Hrs & Hle).
  assert (∃ r, reserved_rows (plan_steps_by_id p) steps loop = Ok r ∧ r ∈ rs) as (r & Hr & Hrin).
  { apply res_map_Ok in Hrs. apply list_elem_of_lookup in Hin as [i Hi].
    eapply Forall2_lookup_l in Hrs as (r & Hri & Hr); [|done]. exists r. split; [done|]. by eapply list_elem_of_lookup_2. }
  assert (∀ x, x ∈ rs → (0 ≤ x)%Z) as Hnn.
  { intros x Hx. apply res_map_Ok in Hrs. apply list_elem_of_lookup in Hx as [i Hi].
    eapply Forall2_lookup_r in Hrs as (s & _ & Hs); [|done]. by eapply reserved_rows_nonneg. }
  pose proof (total_le r rs Hnn Hrin) as Htot. pose proof (reserved_running _ _ _ _ _ _ Hrun Hr) as Hreq.
  split; [lia|].
  destruct (materialize_iteration new_id e loop p cfg n steps) as [[ins out]|err] eqn:Em.
  - unfold materialize_iteration in Em. apply bind_Ok in Em as ([] & _ & Em).
    destruct (negb _).
    + apply bind_Ok in Em as ([] & _ & Em). injection Em as <- <-. rewrite app_nil_r. apply budget_iff. by exists rs.
    + apply bind_Ok in Em as ([] & _ & Em). apply bind_Ok in Em as (rows & Hrows%materialize_rows & Em).
      injection Em as <- <-. pose proof (Forall2_length _ _ _ Hrows) as Hlen.
      assert (∀ x, x ∈ rows → es_parent_step_id x = Some (es_id loop)) as Hpar
        by (intros x Hx; by eapply new_rows_children).
      destruct (reserved_after (plan_steps_by_id p) steps loop cfg pin rows steps rs) as (rs' & Hrs' & Htot'); try done.
      { intros s Hs Hid. by apply (key_inj es_id steps). }
      { intros r' Hr'. assert (r' = r) as -> by congruence. lia. }
      apply budget_iff. exists (rs' ++ ((λ _, 0%Z) <$> rows)). split.
      * rewrite res_map_Ok in Hrs' |- *. apply Forall2_app; [done|]. apply Forall2_fmap_r, Forall_Forall2_diag, Forall_forall.
        intros x Hx. apply reserved_pending. by rewrite (Hpar x Hx).
      * rewrite total_app, length_app. assert (total ((λ _, 0%Z) <$> rows) = 0%Z) as ->; [|lia].
        clear. unfold total. induction rows as [|x rows IH]; [done|]. rewrite fmap_cons. cbn. rewrite IH. lia.
  - intros m ->. unfold materialize_iteration in Em. apply bind_Err in Em as [Em|([] & _ & Em)].
    { unfold raise_if in Em. by case_match. }
    destruct (negb _).
    + apply bind_Err in Em as [Em|([] & _ & Em)]; [|done]. unfold raise_if in Em. by case_match.
    + apply bind_Err in Em as [Em|([] & _ & Em)].
      { unfold raise_if in Em. case_match eqn:E; [|done]. apply Z.ltb_lt in E. lia. }
      apply bind_Err in Em as [Em|(rows & _ & Em)]; [|done].
      revert Em. generalize (imap pair (lc_body_step_ids cfg)) as items. intros items.
      induction items as [|[i b] items IH]; [done|]. cbn [res_map]. intros Em.
      apply bind_Err in Em as [Em|(x & _ & Em)]; [|by apply bind_Err in Em as [Em|(? & _ & Em)]; [apply IH|]].
      unfold materialize_child in Em. apply bind_Err in Em as [Em|(t & _ & Em)].
      { unfold dict_item, of_option in Em. by case_match. }
      apply bind_Err in Em as [Em|(k & _ & Em)].
      { unfold iteration_step_key in Em. apply bind_Err in Em as [Em|(? & _ & Em)]; [|done]. unfold raise_if in Em. by case_match. }
      apply bind_Err in Em as [Em|(tv & _ & Em)]; [|done]. unfold tool_version_for_template in Em.
      case_match; try done. apply bind_Err in Em as [Em|(? & _ & Em)]; [|done].
      unfold of_option in Em. by case_match.
Qed.

(** ** Stopping a LOOP *)
(** Stopping a LOOP leaves no child of it open.  When the cleanup succeeds,
    every child of the LOOP is terminal, PENDING ones as SKIPPED and unstarted
    READY TOOLs as CANCELLED; terminal children and the rows of everything else
    are untouched; and it succeeds exactly when no child is in flight. *)
Theorem stop_children_spec loop now by_key :
  match stop_loop_owned_untouched_children loop now by_key with
  | Ok by_key' =>
      Forall2 (λ kv kv', kv'.1 = kv.1 ∧
        (es_parent_step_id kv.2 ≠ Some (es_id loop) → kv'.2 = kv.2) ∧
        (es_parent_step_id kv.2 = Some (es_id loop) →
           (es_status kv'.2 ∈ iteration_terminal) ∧
           ((es_status kv.2 ∈ iteration_terminal) → kv'.2 = kv.2) ∧
           ((es_status kv.2 ∉ iteration_terminal) → es_error_code kv'.2 = Some UPSTREAM_LOOP_STOPPED ∧
              es_attempt_count kv'.2 = es_attempt_count kv.2 ∧ es_finished_at kv'.2 = Some now))) by_key by_key'
  | Err _ => ∃ kv, kv ∈ by_key ∧ es_parent_step_id kv.2 = Some (es_id loop) ∧
      (es_status kv.2 ∉ iteration_terminal) ∧ es_status kv.2 ≠ StepStatus.PENDING
  end.
Proof.
  unfold stop_loop_owned_untouched_children. set (f := λ kv : string * execution_step, _).
  destruct (res_map f by_key) as [d|err] eqn:E.
  - apply res_map_Ok in E. eapply Forall2_impl; [exact E|]. intros [k s] kv' H. unfold f in H. simpl in H.
    apply bind_Ok in H as (s' & H & [= <-]). simpl. unfold stop_child in H.
    destruct (decide (es_parent_step_id s = Some (es_id loop))) as [Hp|Hp].
    2: { rewrite bool_decide_false in H by done. injection H as <-. by split_and!. }
    rewrite bool_decide_true in H by done. cbn [negb] in H. split; [done|]. split; [done|]. intros _.
    destruct (decide (es_status s ∈ iteration_terminal)) as [Ht|Ht].
    { rewrite bool_decide_true in H by done. injection H as <-. by split_and!. }
    rewrite bool_decide_false in H by done. destruct (bool_decide (es_status s = StepStatus.PENDING)).
    { injection H as <-. split; [by apply (bool_decide_unpack _)|]. by split_and!. }
    destruct (_ && _).
    { injection H as <-. split; [by apply (bool_decide_unpack _)|]. by split_and!. }
    by case_bool_decide.
  - revert err E. induction by_key as [|[k s] d IH]; intros err E; [done|]. cbn [res_map] in E.
    apply bind_Err in E as [E|(x & _ & E)].
    2: { apply bind_Err in E as [E|(? & _ & E)]; [|done]. destruct (IH err E) as (kv & Hkv & H). exists kv.
         split; [by right|done]. }
    exists (k, s). split; [left|]. unfold f in E. simpl in E. apply bind_Err in E as [E|(? & _ & E)]; [|done].
    unfold stop_child in E. simpl.
    destruct (decide (es_parent_step_id s = Some (es_id loop))) as [Hp|Hp].
    2: { rewrite bool_decide_false in E by done. done. }
    rewrite bool_decide_true in E by done. cbn [negb] in E. split; [done|].
    destruct (decide (es_status s ∈ iteration_terminal)) as [Ht|Ht].
    { rewrite bool_decide_true in E by done. done. }
    split; [done|]. intros Hpend. rewrite bool_decide_false in E by done. by rewrite bool_decide_true in E by done.
Qed.
End mono.
