(* ===== verification/ToolLineage.v ===== *)
(** The lineage of TOOL steps and attempts, and what acceptance means. *)
From S2P Require Import Prelude PyStr PyDict Json PyUuid CanonicalHash Domain LoopRuntime BindingResolver Rows.
From S2P Require Import PolicySelection RetryDecision LoopReconcile LoopReconcileSound.

(** * Lineage of a TOOL step ([execution/lineage.py])

    The checks before a tool call: the step is an exact projection of the
    pinned plan, and a started attempt holds the inputs the bindings give
    today. *)

Definition LINEAGE_SOURCES : list string := [AGENT_REQUEST; MANUAL_TOOL_TEST; WORKFLOW_VERSION; SCHEDULE_OCCURRENCE].

(** [ToolStepLineage] *)
Record tool_step_lineage := ToolStepLineage {
  tl_tool_version_id : uuid;
  tl_bindings : dict plan_binding;
  tl_plan : plan;
  tl_plan_step : plan_step;
  tl_agent_request_static_only : bool }.

(** [isinstance(dumped, dict) and "kind" in dumped] *)
Definition has_kind (dumped : json) : bool :=
  match dumped with JObj d => dict_has "kind" d | _ => false end.

(** Both kinds of an agent binding are handled; the last branch of the code is
    for a kind [BindingValue] does not have. *)
Definition materialize_secret_safe_resolved_input (bindings : dict binding_value) : dict json :=
  (λ kb : string * binding_value,
     (kb.1, match kb.2 with
            | LiteralBindingValue value => value
            | SecretRefBindingValue secret_id => secret_ref_resolved secret_id
            end)) <$> bindings.

(** [_agent_bindings_as_plan]: each binding dumped and parsed as a plan binding *)
Definition agent_bindings_as_plan (bindings : dict binding_value) : dict plan_binding :=
  (λ kb : string * binding_value,
     (kb.1, match kb.2 with
            | LiteralBindingValue value => PlanLiteralBinding value
            | SecretRefBindingValue secret_id => PlanSecretRefBinding secret_id
            end)) <$> bindings.

Section lineage.
Context {schema : PlanSchema} {parser : PlanParser}.

Definition build_secret_safe_request_snapshot (tool_version_id : uuid) (step_key : string)
    (bindings : dict plan_binding) (resolved_input : json) : res json :=
  safe_bindings ← res_map (λ kb : string * plan_binding,
    let dumped := dump_binding kb.2 in
    _ ← raise_if (negb (has_kind dumped)) (precondition_failed "Unsupported binding payload for key {key!r}.");
    Ok (kb.1, dumped)) bindings;
  Ok (JObj [("tool_version_id", JStr (uuid_str tool_version_id)); ("step_key", JStr step_key);
            ("bindings", JObj safe_bindings); ("resolved_input", resolved_input)]).

Definition serialize_plan_bindings (bindings : dict plan_binding) : dict json :=
  (λ kb : string * plan_binding, (kb.1, dump_binding kb.2)) <$> bindings.

(** [next((ps for ps in plan.steps if ps.id == id), None)] *)
Definition plan_step_with_id (p : plan) (id : string) : option plan_step :=
  find_first (λ ps, String.eqb (ps_id ps) id) (pl_steps p).

(** The end both branches share: the config of the plan step, with its tool
    version *)
Definition complex_config_lineage (step : execution_step) (p : plan) (plan_step expected : plan_step)
    : res tool_step_lineage :=
  complex_cfg ← of_option (conflict "Execution TOOL Step config is invalid.")
                  (validate_tool_config (ps_config expected));
  _ ← raise_if (negb (bool_decide (es_mcp_tool_version_id step = Some (tc_tool_version_id complex_cfg))))
        (conflict "TOOL Step foundation lineage is inconsistent.");
  Ok (ToolStepLineage (tc_tool_version_id complex_cfg) (tc_bindings complex_cfg) p plan_step false).

(** [kind not in (STEP_OUTPUT, LITERAL)] *)
Definition sequential_binding_ok (b : plan_binding) : bool :=
  match b with PlanStepOutputBinding _ _ | PlanLiteralBinding _ => true | _ => false end.

(** The AgentRequest branch of [_assert_top_level_tool_step_lineage] *)
Definition agent_config_lineage (step : execution_step) (p : plan) (plan_step expected : plan_step)
    : res tool_step_lineage :=
  match validate_agent_tool_config (ps_config expected) with
  | Some tool_config =>
      _ ← raise_if (negb (bool_decide (es_mcp_tool_version_id step = Some (atc_tool_version_id tool_config))))
            (conflict "TOOL Step foundation lineage is inconsistent.");
      Ok (ToolStepLineage (atc_tool_version_id tool_config) (agent_bindings_as_plan (atc_bindings tool_config)) p
            plan_step true)
  | None =>
      _ ← raise_if (negb (length (pl_steps p) =? 2)%nat) (conflict "Execution TOOL Step config is invalid.");
      lineage ← complex_config_lineage step p plan_step expected;
      _ ← raise_if (negb (forallb sequential_binding_ok (dict_values (tl_bindings lineage))))
            (conflict "AgentRequest sequential companion TOOL bindings must be STEP_OUTPUT or evidenced LITERAL.");
      Ok lineage
  end.

Definition assert_top_level_tool_step_lineage (e : execution) (step : execution_step) (p : plan)
    : res tool_step_lineage :=
  _ ← raise_if (negb (bool_decide (es_step_type step = StepType.TOOL)) || negb (is_some (es_mcp_tool_version_id step))
                || is_some (es_parent_step_id step))
        (conflict "ExecutionStep is inconsistent with TOOL orchestration foundation.");
  plan_step ← of_option (conflict "Execution plan/step snapshot is invalid.") (validate_step (es_step_snapshot step));
  expected ← of_option (conflict "No plan step matches step_key={step.step_key!r}.")
               (plan_step_with_id p (es_step_key step));
  _ ← raise_if (negb (py_eq (dump_step expected) (es_step_snapshot step)))
        (conflict "Execution plan/step snapshot lineage is inconsistent.");
  _ ← raise_if (negb (String.eqb (ps_id plan_step) (es_step_key step))
                || negb (String.eqb (ps_id plan_step) (ps_id expected))
                || negb (bool_decide (ps_type plan_step = StepType.TOOL)))
        (conflict "TOOL Step foundation lineage is inconsistent.");
  if String.eqb (ex_source_type e) AGENT_REQUEST || is_agent_schedule_occurrence e
  then agent_config_lineage step p plan_step expected
  else complex_config_lineage step p plan_step expected.

(** [_assert_loop_child_tool_step_lineage]: the parent row *)
Definition assert_loop_parent (e : execution) (step : execution_step) (steps : list execution_step)
    : res execution_step :=
  parent ← of_option (conflict "LOOP child TOOL parent Step is missing.")
             (find_first (λ s, bool_decide (Some (es_id s) = es_parent_step_id step)) steps);
  _ ← raise_if (negb (bool_decide (es_execution_id parent = ex_id e))
                || negb (bool_decide (es_execution_id step = ex_id e)))
        (conflict "LOOP child TOOL parent/child Execution mismatch.");
  _ ← raise_if (is_some (es_parent_step_id parent)) (conflict "LOOP child TOOL parent must be a top-level LOOP Step.");
  _ ← raise_if (negb (bool_decide (es_step_type parent = StepType.LOOP)))
        (conflict "LOOP child TOOL parent Step must be type LOOP.");
  _ ← raise_if (negb (bool_decide (es_status parent = StepStatus.RUNNING)))
        (conflict "LOOP child TOOL parent must be RUNNING (got {parent.status!r}).");
  Ok parent.

(** The parent's snapshot is the plan's LOOP. *)
Definition assert_loop_parent_snapshot (parent : execution_step) (parent_plan_step : plan_step) (p : plan) : res unit :=
  _ ← raise_if (negb (bool_decide (ps_type parent_plan_step = StepType.LOOP)))
        (conflict "LOOP child TOOL parent snapshot type must be LOOP.");
  _ ← raise_if (negb (String.eqb (es_step_key parent) (ps_id parent_plan_step)))
        (conflict "LOOP parent step_key does not match Plan LOOP id.");
  expected_parent ← of_option (conflict "No plan step matches LOOP step_key={parent.step_key!r}.")
                      (plan_step_with_id p (es_step_key parent));
  raise_if (negb (py_eq (dump_step expected_parent) (es_step_snapshot parent)))
    (conflict "LOOP parent plan/step snapshot lineage is inconsistent.").

(** The child is an instance of its body template. *)
Definition assert_body_template (step parent : execution_step) (parent_plan_step child_plan_step : plan_step)
    (loop_cfg : loop_config) (p : plan) (n : Z) : res plan_step :=
  ownership ← build_loop_body_ownership p;
  _ ← raise_if (negb (bool_decide (ps_id child_plan_step ∈ lc_body_step_ids loop_cfg)))
        (conflict "TOOL template {plan_step.id!r} is not in LOOP {parent_plan_step.id!r} body_step_ids.");
  _ ← raise_if (negb (bool_decide (dict_get (ps_id child_plan_step) (body_to_loop ownership) = Some (ps_id parent_plan_step))))
        (conflict "TOOL template {plan_step.id!r} ownership does not match parent LOOP {parent_plan_step.id!r}.");
  expected ← of_option (conflict "No plan step matches LOOP body template {plan_step.id!r}.")
               (plan_step_with_id p (ps_id child_plan_step));
  _ ← raise_if (negb (py_eq (dump_step expected) (es_step_snapshot step)))
        (conflict "Execution plan/step snapshot lineage is inconsistent.");
  _ ← raise_if (negb (bool_decide (ps_type child_plan_step = StepType.TOOL))
                || negb (String.eqb (ps_id child_plan_step) (ps_id expected)))
        (conflict "LOOP child TOOL Step foundation lineage is inconsistent.");
  expected_key ← iteration_step_key (es_id parent) n (ps_id child_plan_step);
  _ ← raise_if (negb (String.eqb (es_step_key step) expected_key))
        (conflict "LOOP child step_key {step.step_key!r} does not match deterministic key {expected_key!r}.");
  template_id ← template_id_from_step_snapshot step;
  _ ← raise_if (negb (String.eqb template_id (ps_id child_plan_step)))
        (conflict "LOOP child TOOL template identity is inconsistent.");
  Ok expected.

(** The gate before a call of a body TOOL *)
Definition assert_loop_gate (e : execution) (parent : execution_step) (loop_cfg : loop_config) (p : plan)
    (steps : list execution_step) (n : Z) : res unit :=
  match lc_mode loop_cfg with
  | LoopMode.FOR_EACH =>
      _ ← parse_foreach_collection_pin (es_resolved_input parent);
      _ ← revalidate_foreach_collection_pin e parent p steps (Some n); Ok tt
  | LoopMode.WHILE => revalidate_while_predicate_gate e parent p steps n
  end.

Definition assert_loop_child_tool_step_lineage (e : execution) (step : execution_step) (p : plan)
    (steps : option (list execution_step)) : res tool_step_lineage :=
  _ ← raise_if (negb (bool_decide (es_step_type step = StepType.TOOL)))
        (conflict "LOOP child lineage requires step_type TOOL.");
  _ ← raise_if (negb (is_some (es_mcp_tool_version_id step)))
        (conflict "LOOP child TOOL Step requires mcp_tool_version_id.");
  let no_iteration := conflict "LOOP child TOOL Step requires iteration_no >= 1." in
  n ← of_option no_iteration (es_iteration_no step);
  _ ← raise_if (n <? 1)%Z no_iteration;
  steps ← of_option (conflict "LOOP child TOOL lineage requires the Execution Step set.") steps;
  parent ← assert_loop_parent e step steps;
  let invalid := conflict "Execution plan/step snapshot is invalid." in
  parent_plan_step ← of_option invalid (validate_step (es_step_snapshot parent));
  plan_step ← of_option invalid (validate_step (es_step_snapshot step));
  loop_cfg ← of_option invalid (validate_loop_config (ps_config parent_plan_step));
  _ ← assert_loop_parent_snapshot parent parent_plan_step p;
  expected ← assert_body_template step parent parent_plan_step plan_step loop_cfg p n;
  lineage ← complex_config_lineage step p plan_step expected;
  _ ← assert_loop_gate e parent loop_cfg p steps n;
  Ok lineage.

Definition assert_tool_step_lineage (e : execution) (step : execution_step) (steps : option (list execution_step))
    : res tool_step_lineage :=
  _ ← raise_if (negb (bool_decide (ex_source_type e ∈ LINEAGE_SOURCES)))
        (conflict "Replay lineage supports AGENT_REQUEST / MANUAL_TOOL_TEST / WORKFLOW_VERSION / SCHEDULE_OCCURRENCE only.");
  p ← of_option (conflict "Execution plan/step snapshot is invalid.") (validate_plan (ex_plan_snapshot e));
  _ ← raise_if (negb (String.eqb (ex_plan_schema_version e) (plan_schema_version p)))
        (conflict "Execution plan_schema_version does not match plan snapshot.");
  h ← compute_plan_hash (ex_plan_snapshot e);
  _ ← raise_if (negb (String.eqb h (ex_plan_hash e)))
        (conflict "Execution plan snapshot/hash lineage is inconsistent.");
  _ ← raise_if (is_nil (pl_steps p)) (conflict "Execution plan must contain at least one Step.");
  if is_some (es_parent_step_id step) then assert_loop_child_tool_step_lineage e step p steps
  else assert_top_level_tool_step_lineage e step p.

Definition assert_agent_request_plan_step_lineage (e : execution) (step : execution_step)
    (steps : option (list execution_step)) : res agent_tool_config :=
  lineage ← assert_tool_step_lineage e step steps;
  of_option (conflict "TOOL Step config is not AgentRequest-compatible (LITERAL/SECRET_REF only).")
    (validate_agent_tool_config
       [("tool_version_id", JStr (uuid_str (tl_tool_version_id lineage)));
        ("bindings", JObj (serialize_plan_bindings (tl_bindings lineage)))]).

(** ** Replay of a started attempt *)
Definition assert_started_attempt_replay_lineage (e : execution) (step : execution_step) (attempt : step_attempt)
    (lineage : tool_step_lineage) (steps : list execution_step) (worker_id : option string) : res unit :=
  _ ← raise_if (negb (bool_decide (sa_status attempt = AttemptStatus.STARTED)))
        (conflict "Replay Attempt must be STARTED.");
  _ ← raise_if (negb (bool_decide (sa_step_execution_id attempt = es_id step)))
        (conflict "StepAttempt lineage does not match Step.");
  _ ← raise_if (negb (sa_attempt_no attempt =? es_attempt_count step)%Z)
        (conflict "StepAttempt attempt_no does not match Step.attempt_count.");
  _ ← raise_if (is_some worker_id && negb (bool_decide (sa_worker_id attempt = worker_id)))
        (conflict "RUNNING Step Attempt worker mismatch.");
  expected_resolved ← resolve e step steps (tl_bindings lineage) (tl_plan lineage);
  _ ← raise_if (negb (py_eq (es_resolved_input step) (JObj expected_resolved)))
        (conflict "Step.resolved_input does not match deterministic Binding resolution (retry drift).");
  expected_request ← build_secret_safe_request_snapshot (tl_tool_version_id lineage) (es_step_key step)
                       (tl_bindings lineage) (JObj expected_resolved);
  raise_if (negb (py_eq (sa_request_snapshot attempt) expected_request))
    (conflict "StepAttempt.request_snapshot does not match pinned Tool bindings.").

Definition assert_resume_attempt_lineage (e : execution) (step : execution_step) (attempt : step_attempt)
    (steps : list execution_step) (worker_id : option string) : res tool_step_lineage :=
  lineage ← assert_tool_step_lineage e step (Some steps);
  _ ← assert_started_attempt_replay_lineage e step attempt lineage steps worker_id;
  Ok lineage.
End lineage.

(** * What the lineage checks guarantee

    A resumed attempt repeats the request it was started with, and the rows a
    LOOP materializes pass the check before a tool call. *)

Section sound.
Context {schema : PlanSchema} {parser : PlanParser}.

Lemma complex_config_Ok step p ps expected lin :
  complex_config_lineage step p ps expected = Ok lin →
  tl_plan lin = p ∧ es_mcp_tool_version_id step = Some (tl_tool_version_id lin) ∧
  ∃ cfg, validate_tool_config (ps_config expected) = Some cfg ∧ tl_tool_version_id lin = tc_tool_version_id cfg ∧
    tl_bindings lin = tc_bindings cfg.
Proof.
  unfold complex_config_lineage. intros H. apply bind_Ok in H as (cfg & Hcfg%of_option_Ok & H).
  apply bind_Ok in H as ([] & Htv & [= <-]). apply raise_if_Ok, negb_false_iff, bool_decide_eq_true in Htv.
  split; [done|]. split; [done|]. by exists cfg.
Qed.

Lemma agent_config_Ok step p ps expected lin :
  agent_config_lineage step p ps expected = Ok lin →
  tl_plan lin = p ∧ es_mcp_tool_version_id step = Some (tl_tool_version_id lin).
Proof.
  unfold agent_config_lineage. destruct (validate_agent_tool_config _) as [cfg|]; intros H.
  - apply bind_Ok in H as ([] & Htv & [= <-]). by apply raise_if_Ok, negb_false_iff, bool_decide_eq_true in Htv.
  - apply bind_Ok in H as ([] & _ & H). apply bind_Ok in H as (l & Hl%complex_config_Ok & H).
    apply bind_Ok in H as ([] & _ & [= <-]). by destruct Hl as (? & ? & _).
Qed.

Lemma plan_step_with_id_Some p id ps : plan_step_with_id p id = Some ps → ps ∈ pl_steps p ∧ ps_id ps = id.
Proof. intros [Hin Hid%String.eqb_eq]%find_first_Some. done. Qed.

(** What an accepted step is *)
Record tool_of_plan (e : execution) (step : execution_step) (lin : tool_step_lineage) : Prop := ToolOfPlan {
  tp_plan : validate_plan (ex_plan_snapshot e) = Some (tl_plan lin);
  tp_hash : compute_plan_hash (ex_plan_snapshot e) = Ok (ex_plan_hash e);
  tp_type : es_step_type step = StepType.TOOL;
  tp_version : es_mcp_tool_version_id step = Some (tl_tool_version_id lin);
  tp_projection : ∃ ps, ps ∈ pl_steps (tl_plan lin) ∧ py_eq (dump_step ps) (es_step_snapshot step) = true;
  tp_gate : ∀ id, es_parent_step_id step = Some id → ∃ n, es_iteration_no step = Some n ∧ (1 ≤ n)%Z }.

Lemma tool_step_lineage_Ok e step steps lin :
  assert_tool_step_lineage e step steps = Ok lin → tool_of_plan e step lin.
Proof.
  unfold assert_tool_step_lineage. intros H. apply bind_Ok in H as ([] & _ & H).
  apply bind_Ok in H as (p & Hp%of_option_Ok & H). apply bind_Ok in H as ([] & _ & H).
  apply bind_Ok in H as (h & Hh & H). apply bind_Ok in H as ([] & He & H). apply bind_Ok in H as ([] & _ & H).
  apply raise_if_Ok, negb_false_iff, String.eqb_eq in He. subst h.
  destruct (es_parent_step_id step) as [id|] eqn:Eparent; cbn [is_some] in H.
  - unfold assert_loop_child_tool_step_lineage in H. apply bind_Ok in H as ([] & Ht & H).
    apply raise_if_Ok, negb_false_iff, bool_decide_eq_true in Ht. apply bind_Ok in H as ([] & _ & H).
    apply bind_Ok in H as (n & Hn%of_option_Ok & H). apply bind_Ok in H as ([] & Hge & H).
    apply raise_if_Ok, Z.ltb_ge in Hge. apply bind_Ok in H as (rows & _ & H).
    apply bind_Ok in H as (parent & _ & H). apply bind_Ok in H as (pps & _ & H). apply bind_Ok in H as (cps & _ & H).
    apply bind_Ok in H as (cfg & _ & H). apply bind_Ok in H as ([] & _ & H). apply bind_Ok in H as (ex & Hex & H).
    apply bind_Ok in H as (l & Hl & H). apply bind_Ok in H as ([] & _ & [= <-]).
    apply complex_config_Ok in Hl as (Hlp & Hv & _). unfold assert_body_template in Hex.
    apply bind_Ok in Hex as (own & _ & Hex). apply bind_Ok in Hex as ([] & _ & Hex). apply bind_Ok in Hex as ([] & _ & Hex).
    apply bind_Ok in Hex as (ps & Hps%of_option_Ok & Hex). apply bind_Ok in Hex as ([] & Hsnap & _).
    apply plan_step_with_id_Some in Hps as [Hps _]. apply raise_if_Ok, negb_false_iff in Hsnap.
    constructor; rewrite ?Hlp; try done; [by exists ps|]. intros _ _. by exists n.
  - unfold assert_top_level_tool_step_lineage in H. apply bind_Ok in H as ([] & Ht & H).
    apply raise_if_Ok, orb_false_iff in Ht as [Ht _]. apply orb_false_iff in Ht as [Ht _].
    apply negb_false_iff, bool_decide_eq_true in Ht. apply bind_Ok in H as (sps & _ & H).
    apply bind_Ok in H as (ps & Hps%of_option_Ok & H). apply bind_Ok in H as ([] & Hsnap & H).
    apply bind_Ok in H as ([] & _ & H). apply plan_step_with_id_Some in Hps as [Hps _].
    apply raise_if_Ok, negb_false_iff in Hsnap.
    assert (tl_plan lin = p ∧ es_mcp_tool_version_id step = Some (tl_tool_version_id lin)) as [Hlp Hv].
    { destruct (_ || _); [by eapply agent_config_Ok|]. apply complex_config_Ok in H. naive_solver. }
    constructor; rewrite ?Hlp; try done; [by exists ps|]. by rewrite Eparent.
Qed.

(** A resumed attempt repeats its request.  An attempt passes the resume
    check only when it is STARTED, is the latest of its step, the step is a TOOL
    projected from the pinned, hashed plan at the pinned tool version, and both
    the step's input and the attempt's request are what the bindings of that
    plan resolve to on the evidence of today. *)
Theorem resume_lineage_sound e step attempt steps worker lin :
  assert_resume_attempt_lineage e step attempt steps worker = Ok lin →
  tool_of_plan e step lin ∧
  sa_status attempt = AttemptStatus.STARTED ∧ sa_step_execution_id attempt = es_id step ∧
  sa_attempt_no attempt = es_attempt_count step ∧ (worker ≠ None → sa_worker_id attempt = worker) ∧
  ∃ resolved request, resolve e step steps (tl_bindings lin) (tl_plan lin) = Ok resolved ∧
    build_secret_safe_request_snapshot (tl_tool_version_id lin) (es_step_key step) (tl_bindings lin) (JObj resolved)
      = Ok request ∧
    py_eq (es_resolved_input step) (JObj resolved) = true ∧ py_eq (sa_request_snapshot attempt) request = true.
Proof.
  unfold assert_resume_attempt_lineage. intros H. apply bind_Ok in H as (l & Hl%tool_step_lineage_Ok & H).
  apply bind_Ok in H as ([] & Hr & [= ->]). unfold assert_started_attempt_replay_lineage in Hr.
  apply bind_Ok in Hr as ([] & H1 & Hr). apply bind_Ok in Hr as ([] & H2 & Hr). apply bind_Ok in Hr as ([] & H3 & Hr).
  apply bind_Ok in Hr as ([] & H4 & Hr). apply bind_Ok in Hr as (ri & H5 & Hr). apply bind_Ok in Hr as ([] & H6 & Hr).
  apply bind_Ok in Hr as (rq & H7 & H8).
  apply raise_if_Ok, negb_false_iff, bool_decide_eq_true in H1, H2. apply raise_if_Ok, negb_false_iff, Z.eqb_eq in H3.
  apply raise_if_Ok, negb_false_iff in H6, H8. apply raise_if_Ok in H4.
  split; [done|]. split_and!; try done.
  - intros Hw. destruct worker as [w|]; [|done]. by apply negb_false_iff, bool_decide_eq_true in H4.
  - by exists ri, rq.
Qed.

(** ** Fresh rows of an iteration *)
(** A RUNNING top-level LOOP row of an execution whose plan is the pinned one *)
Record loop_of_plan (e : execution) (p : plan) (loop : execution_step) (lps : plan_step) (cfg : loop_config)
    (steps : list execution_step) : Prop := LoopOfPlan {
  lp_source : ex_source_type e ∈ LINEAGE_SOURCES;
  lp_plan : assert_execution_plan_lineage e = Ok p;
  lp_plan_ids : NoDup (ps_id <$> pl_steps p);
  lp_dumps : ∀ ps, ps ∈ pl_steps p → plan_step_ok ps = true ∧ py_eq (dump_step ps) (dump_step ps) = true;
  lp_member : loop ∈ steps;
  lp_execution : es_execution_id loop = ex_id e;
  lp_top : es_parent_step_id loop = None;
  lp_type : es_step_type loop = StepType.LOOP;
  lp_running : es_status loop = StepStatus.RUNNING;
  lp_step : lps ∈ pl_steps p ∧ ps_type lps = StepType.LOOP ∧ ps_id lps = es_step_key loop;
  lp_snapshot : validate_step (es_step_snapshot loop) = Some lps ∧ py_eq (dump_step lps) (es_step_snapshot loop) = true;
  lp_config : validate_loop_config (ps_config lps) = Some cfg;
  lp_ids : NoDup (es_id <$> steps) }.

(** The gate of iteration [n] has opened, leaving [loop'] as the LOOP row. *)
Definition gate_opened (e : execution) (p : plan) (loop loop' : execution_step) (cfg : loop_config)
    (steps : list execution_step) (n : Z) : Prop :=
  match lc_mode cfg with
  | LoopMode.FOR_EACH => ∃ items, resolve_foreach_collection e loop p steps cfg = Ok items ∧
      pin_collection_evidence loop items = Ok loop' ∧ (1 ≤ n ≤ Z.of_nat (length items))%Z
  | LoopMode.WHILE => evaluate_while_gate e loop p cfg steps n = Ok (loop', true) ∧ (1 ≤ n)%Z
  end.

Lemma plan_step_with_own_id p ps :
  NoDup (ps_id <$> pl_steps p) → ps ∈ pl_steps p → plan_step_with_id p (ps_id ps) = Some ps.
Proof.
  intros Hnd Hin. unfold plan_step_with_id. destruct (find_first _ _) as [x|] eqn:E.
  - apply find_first_Some in E as [Hx Hid%String.eqb_eq]. f_equal. by apply (key_inj ps_id (pl_steps p)).
  - rewrite find_first_None in E. specialize (E ps Hin). by rewrite String.eqb_refl in E.
Qed.

Lemma plan_steps_by_id_get p b ps :
  NoDup (ps_id <$> pl_steps p) → dict_get b (plan_steps_by_id p) = Some ps → ps ∈ pl_steps p ∧ ps_id ps = b.
Proof. intros _ (x & Hx & Hb & Hps)%dict_comp_get. unfold id in Hps. by subst. Qed.

Lemma find_parent steps (x : execution_step) :
  NoDup (es_id <$> steps) → x ∈ steps →
  find_first (λ s, bool_decide (Some (es_id s) = Some (es_id x))) steps = Some x.
Proof.
  intros Hnd Hx. destruct (find_first _ steps) as [y|] eqn:E.
  - apply find_first_Some in E as [Hy Hk%bool_decide_eq_true]. f_equal. injection Hk as Hk. by apply (key_inj es_id steps).
  - rewrite find_first_None in E. specialize (E x Hx). by rewrite bool_decide_true in E.
Qed.

Lemma gate_opened_row e p loop loop' cfg steps n :
  gate_opened e p loop loop' cfg steps n → row_agree loop loop' ∧ (1 ≤ n)%Z.
Proof.
  unfold gate_opened. destruct (lc_mode cfg).
  - intros (items & _ & Hp & Hn). split; [|lia]. unfold pin_collection_evidence in Hp.
    apply bind_Ok in Hp as (h & _ & [= <-]). by eexists.
  - intros [Hg Hn]. split; [|done]. by eapply gate_row_agree.
Qed.

Lemma gate_opened_again e p loop loop' lps cfg steps new n :
  loop_of_plan e p loop lps cfg steps → gate_opened e p loop loop' cfg steps n →
  NoDup (es_step_key <$> steps ++ new) →
  (∀ s, s ∈ new → es_parent_step_id s = Some (es_id loop) ∧ es_iteration_no s = Some n) →
  assert_loop_gate e loop' cfg p (replace_row loop' steps ++ new) n = Ok tt.
Proof.
  intros Hl Hg Hkeys Hnew.
  assert (loop_config_of loop = Some cfg) as Hcfg.
  { unfold loop_config_of. destruct (lp_snapshot _ _ _ _ _ _ Hl) as [-> _]. simpl. apply Hl. }
  unfold assert_loop_gate, gate_opened in *. destruct (lc_mode cfg) eqn:Em.
  - destruct Hg as (items & H1 & H2 & H3).
    pose proof (foreach_pin_again e loop loop' p cfg steps new items n H1 H2 (lp_member _ _ _ _ _ _ Hl)
      (lp_top _ _ _ _ _ _ Hl) (lp_ids _ _ _ _ _ _ Hl) Hkeys Hcfg H3) as Hre.
    rewrite Hre. unfold revalidate_foreach_collection_pin in Hre. apply bind_Ok in Hre as (c & _ & Hre).
    apply bind_Ok in Hre as (pin & Hpin & _). by rewrite Hpin.
  - destruct Hg as [H1 Hn]. apply (while_gate_again e loop loop' p cfg steps new n); try done; apply Hl.
Qed.

(** The rows a call inserts are rows of the iteration. *)
Lemma materialized_rows new_id e loop p cfg n steps ins out s :
  materialize_iteration new_id e loop p cfg n steps = Ok (ins, out) → s ∈ ins →
  ∃ b, b ∈ lc_body_step_ids cfg ∧ iteration_row e loop p n b s.
Proof.
  intros Hm Hs. unfold materialize_iteration in Hm. apply bind_Ok in Hm as ([] & _ & Hm). destruct (negb _).
  - apply bind_Ok in Hm as ([] & _ & [= <- <-]). by apply elem_of_nil in Hs.
  - apply bind_Ok in Hm as ([] & _ & Hm). apply bind_Ok in Hm as (rows & Hrows%materialize_rows & [= <- <-]).
    apply list_elem_of_lookup in Hs as [i Hi]. eapply Forall2_lookup_r in Hrows as (b & Hb & Hrow); [|done].
    exists b. split; [by eapply list_elem_of_lookup_2|done].
Qed.

Section fresh_row.
Context (e : execution) (p : plan) (loop : execution_step) (lps : plan_step) (cfg : loop_config)
  (steps : list execution_step).
Hypothesis Hloop : loop_of_plan e p loop lps cfg steps.
#[local] Set Default Proof Using "Type*".

(** The part of the check that is about the execution *)
Lemma fresh_execution s rows :
  assert_tool_step_lineage e s rows =
  if is_some (es_parent_step_id s) then assert_loop_child_tool_step_lineage e s p rows
  else assert_top_level_tool_step_lineage e s p.
Proof.
  destruct Hloop as [Hsrc Hplan _ _ _ _ _ _ _ (Hin & _) _ _ _].
  unfold assert_tool_step_lineage. rewrite bool_decide_true by done. cbn [negb raise_if mbind res_bind].
  apply assert_execution_plan_lineage_Ok in Hplan as (H1 & H2 & H3). rewrite H1. cbn [of_option mbind res_bind].
  rewrite H2, String.eqb_refl. cbn [negb raise_if mbind res_bind]. rewrite H3. cbn [mbind res_bind].
  rewrite String.eqb_refl. cbn [negb raise_if mbind res_bind]. by destruct (pl_steps p); [apply elem_of_nil in Hin|].
Qed.
Context (ri : json).
Let loop' := set_es_resolved_input ri loop.

Lemma fresh_rows_ids ins :
  NoDup (es_id <$> steps ++ ins) →
  NoDup (es_id <$> replace_row loop' steps ++ ins) ∧ loop' ∈ replace_row loop' steps ++ ins.
Proof.
  intros Hids. unfold replace_row, upd_where. split.
  - rewrite fmap_app, <- list_fmap_compose. rewrite fmap_app in Hids.
    assert (es_id ∘ (λ x, if decide (es_id x = es_id loop') then loop' else x) <$> steps = es_id <$> steps) as ->; [|done].
    apply list_fmap_ext. intros _ x _. unfold compose. by case_decide.
  - apply elem_of_app. left. apply list_elem_of_fmap. exists loop.
    split; [by rewrite decide_True|apply Hloop].
Qed.

Lemma fresh_parent s rows :
  NoDup (es_id <$> rows) → loop' ∈ rows → es_parent_step_id s = Some (es_id loop) → es_execution_id s = ex_id e →
  assert_loop_parent e s rows = Ok loop'.
Proof.
  intros Hids Hmem Hpar Hex. unfold assert_loop_parent. rewrite Hpar. change (es_id loop) with (es_id loop').
  rewrite (find_parent rows loop') by done. cbn [of_option mbind res_bind].
  change (es_execution_id loop') with (es_execution_id loop).
  rewrite Hex, (lp_execution _ _ _ _ _ _ Hloop), !bool_decide_true by (done || apply Hloop).
  cbn [negb orb raise_if mbind res_bind]. change (es_parent_step_id loop') with (es_parent_step_id loop).
  by rewrite (lp_top _ _ _ _ _ _ Hloop).
Qed.

Lemma fresh_parent_snapshot : assert_loop_parent_snapshot loop' lps p = Ok tt.
Proof.
  destruct (lp_step _ _ _ _ _ _ Hloop) as (H1 & H2 & H3). unfold assert_loop_parent_snapshot.
  change (es_step_key loop') with (es_step_key loop).
  rewrite <- H3, H2, bool_decide_true, String.eqb_refl by done. cbn [negb raise_if mbind res_bind].
  rewrite plan_step_with_own_id by (done || apply Hloop). cbn [of_option mbind res_bind].
  change (es_step_snapshot loop') with (es_step_snapshot loop). by rewrite (proj2 (lp_snapshot _ _ _ _ _ _ Hloop)).
Qed.

Lemma fresh_template `{!PlanSchemaLaws} own n s template :
  build_loop_body_ownership p = Ok own → iteration_row e loop p n (ps_id template) s →
  (ps_id template ∈ lc_body_step_ids cfg) → template ∈ pl_steps p → es_step_snapshot s = dump_step template →
  es_step_type s = StepType.TOOL → es_step_type s = ps_type template →
  assert_body_template s loop' lps template cfg p n = Ok template.
Proof.
  intros Hown (_ & _ & Hkey & _) Hb Htin Hsn Htool Hty.
  destruct (lp_dumps _ _ _ _ _ _ Hloop template Htin) as [Hok Hself].
  unfold assert_body_template. rewrite Hown. cbn [mbind res_bind]. rewrite (bool_decide_true (_ ∈ _) Hb).
  cbn [negb raise_if mbind res_bind].
  assert (dict_get (ps_id template) (body_to_loop own) = Some (ps_id lps)) as ->.
  { destruct (ownership_of_build p own (lp_plan_ids _ _ _ _ _ _ Hloop) Hown) as (_ & Hb2l & _). apply Hb2l.
    exists (lc_body_step_ids cfg). split; [|done]. exists lps, cfg. split_and!; try done; apply Hloop. }
  rewrite (bool_decide_true (Some _ = Some _)) by done. cbn [negb raise_if mbind res_bind].
  rewrite plan_step_with_own_id by (done || apply Hloop). cbn [of_option mbind res_bind].
  rewrite Hsn, Hself, <- Hty, Htool, bool_decide_true, String.eqb_refl by done. cbn [negb orb raise_if mbind res_bind].
  change (es_id loop') with (es_id loop). rewrite Hkey. cbn [mbind res_bind]. rewrite String.eqb_refl.
  cbn [negb raise_if mbind res_bind]. unfold template_id_from_step_snapshot. rewrite Hsn, (validate_dump_step template Hok).
  cbn [of_option mbind res_bind]. by rewrite String.eqb_refl.
Qed.

End fresh_row.

(** C34: The rows a LOOP materializes can be called.  When the gate of an
    iteration opened, WHILE predicate or FOR_EACH pin, every TOOL row inserted
    for it passes the lineage check before its tool call, with the tool version
    and the bindings the plan gives its body template. *)
Theorem fresh_body_tool_lineage `{!PlanSchemaLaws} new_id e p own loop loop' lps cfg n steps ins out s :
  loop_of_plan e p loop lps cfg steps → build_loop_body_ownership p = Ok own →
  gate_opened e p loop loop' cfg steps n →
  materialize_iteration new_id e loop p cfg n steps = Ok (ins, out) →
  NoDup (es_id <$> steps ++ ins) → NoDup (es_step_key <$> steps ++ ins) →
  s ∈ ins → es_step_type s = StepType.TOOL →
  ∃ lin template tool, assert_tool_step_lineage e s (Some (replace_row loop' steps ++ ins)) = Ok lin ∧
    template ∈ pl_steps p ∧ (ps_id template ∈ lc_body_step_ids cfg) ∧
    validate_tool_config (ps_config template) = Some tool ∧
    tl_plan lin = p ∧ tl_tool_version_id lin = tc_tool_version_id tool ∧ tl_bindings lin = tc_bindings tool.
Proof.
  intros Hl Hown Hg Hm Hids Hkeys Hs Htool. destruct (gate_opened_row _ _ _ _ _ _ _ Hg) as [[ri ->] Hn].
  assert (∀ x, x ∈ ins → es_parent_step_id x = Some (es_id loop) ∧ es_iteration_no x = Some n) as Hnew.
  { intros x Hx. by destruct (materialized_rows _ _ _ _ _ _ _ _ _ _ Hm Hx) as (b & _ & tpl & _ & _ & _ & _ & _ & H1 & H2 & _). }
  pose proof (gate_opened_again _ _ _ _ _ _ _ ins n Hl Hg Hkeys Hnew) as Hgate.
  destruct (fresh_rows_ids _ _ _ _ _ _ Hl ri _ Hids) as [Hids' Hmem'].
  destruct (materialized_rows _ _ _ _ _ _ _ _ _ _ Hm Hs) as (b & Hb & Hrow).
  pose proof Hrow as (template & Ht & _ & Htv & Hty & Hsn & Hpar & Hit & Hex & _).
  destruct (plan_steps_by_id_get _ _ _ (lp_plan_ids _ _ _ _ _ _ Hl) Ht) as [Htin <-].
  destruct (lp_dumps _ _ _ _ _ _ Hl template Htin) as [Hok _].
  unfold tool_version_for_template in Htv. rewrite <- Hty, Htool in Htv.
  apply bind_Ok in Htv as (tool & Htc%of_option_Ok & Htv). injection Htv as Htv.
  exists (ToolStepLineage (tc_tool_version_id tool) (tc_bindings tool) p template false), template, tool.
  split; [|done]. rewrite (fresh_execution _ _ _ _ _ _ Hl), Hpar. cbn [is_some].
  unfold assert_loop_child_tool_step_lineage. rewrite Htool, bool_decide_true by done.
  rewrite <- Htv, Hit. cbn [negb raise_if mbind res_bind is_some of_option].
  destruct (Z.ltb_spec n 1); [lia|]. cbn [raise_if mbind res_bind].
  rewrite (fresh_parent _ _ _ _ _ _ Hl ri) by done. cbn [mbind res_bind].
  change (es_step_snapshot (set_es_resolved_input ri loop)) with (es_step_snapshot loop).
  rewrite (proj1 (lp_snapshot _ _ _ _ _ _ Hl)), Hsn. cbn [of_option mbind res_bind].
  rewrite (validate_dump_step template Hok). cbn [of_option mbind res_bind].
  rewrite (lp_config _ _ _ _ _ _ Hl). cbn [of_option mbind res_bind].
  rewrite (fresh_parent_snapshot _ _ _ _ _ _ Hl). cbn [mbind res_bind].
  rewrite (fresh_template _ _ _ _ _ _ Hl ri own) by done. cbn [mbind res_bind].
  unfold complex_config_lineage. rewrite Htc. cbn [of_option mbind res_bind].
  rewrite <- Htv, (bool_decide_true (Some _ = Some _)) by done. cbn [negb raise_if mbind res_bind].
  by rewrite Hgate.
Qed.
End sound.
