(* ===== verification/Claim.v ===== *)
(** The claim of a queued execution, and what a claim leaves behind. *)
From S2P Require Import Prelude PyStr PyDict Json PyUuid CanonicalHash Domain LoopRuntime Kahn DagValidate Rows.
From S2P Require Import PolicySelection RetryDecision.

(** * Claim and lease ([execution/claim.py])

    The transaction that takes a QUEUED execution for one worker, and the
    renewal of its lease.  The row locks make each a function of the rows: the
    [store] of the execution, the schedule occurrence it may come from, and the
    schedule, which is only read.  [uuid4] is an argument. *)

Module OccurrenceStatus.
Inductive occurrence_status := PLANNED | SKIPPED | ENQUEUED | RUNNING | COMPLETED | FAILED.

#[global] Instance occurrence_status_eq_dec : EqDecision occurrence_status.
Proof. solve_decision. Defined.
End OccurrenceStatus.
Export OccurrenceStatus (occurrence_status, occurrence_status_eq_dec).

(** The columns of a schedule occurrence and of a schedule that the claim reads
    or writes *)
Record schedule_occurrence := ScheduleOccurrence {
  so_id : uuid;
  so_schedule_id : uuid;
  so_status : occurrence_status;
  so_enqueued_at : option Z }.

Record schedule := Schedule { sch_id : uuid; sch_owner_id : uuid }.

(** The rows a claim may touch *)
Record claim_db := ClaimDb {
  cd_store : store;
  cd_occurrences : list schedule_occurrence;
  cd_schedules : list schedule }.

Definition WORKER_ID_MAX_LEN : nat := 128.
Definition CLAIMABLE_SOURCES : list string :=
  [AGENT_REQUEST; MANUAL_TOOL_TEST; WORKFLOW_VERSION; SCHEDULE_OCCURRENCE].

Inductive claim_reason := MISSING | STALE_DELIVERY.

Record claim_outcome := ExecutionClaimOutcome {
  co_execution_id : uuid;
  co_claimed : bool;
  co_claim_status : option execution_status;
  co_worker_id : option string;
  co_lease_token : option uuid;
  co_lease_expires_at : option Z;
  co_ready_step_ids : list uuid;
  co_reason : option claim_reason }.

Definition normalize_worker_id (worker_id : string) : res string :=
  let value := strip worker_id in
  _ ← raise_if (str_empty value || (WORKER_ID_MAX_LEN <? String.length value)%nat)
        (AppError "VALIDATION_ERROR" "worker_id must be between 1 and {_WORKER_ID_MAX_LEN} characters." 400);
  Ok value.

(** The check of one step of a first claim *)
Definition assert_initial_step (step : execution_step) : res unit :=
  _ ← raise_if (negb (bool_decide (es_status step = StepStatus.PENDING))
        || is_some (es_parent_step_id step) || is_some (es_iteration_no step)
        || is_some (es_ready_at step) || is_some (es_started_at step)
        || negb (es_attempt_count step =? 0)%Z || negb (is_none (es_resolved_input step))
        || negb (bool_decide (es_step_type step ∈
             [StepType.TOOL; StepType.CONDITION; StepType.JOIN; StepType.APPROVAL; StepType.LOOP])))
      (conflict ("ExecutionStep is inconsistent with initial PENDING "
        +:+ "TOOL/CONDITION/JOIN/APPROVAL/LOOP DAG state."));
  raise_if (bool_decide (es_step_type step ∈
       [StepType.JOIN; StepType.CONDITION; StepType.APPROVAL; StepType.LOOP])
     && is_some (es_mcp_tool_version_id step))
    (conflict "{step.step_type} Step must have null mcp_tool_version_id at claim.").

Section claim.
Context {schema : PlanSchema} {parser : PlanParser}.

(** The source branches of [claim] *)
Definition assert_workflow_source (e : execution) : res unit :=
  _ ← raise_if (negb (is_some (ex_workflow_version_id e)) || is_some (ex_agent_request_id e)
                || is_some (ex_agent_version_id e))
        (conflict "{execution.source_type} Execution source lineage is inconsistent.");
  p ← of_option (conflict "{execution.source_type} Execution plan_snapshot is invalid.")
        (validate_plan (ex_plan_snapshot e));
  raise_if (negb (String.eqb (plan_source_type p) "WORKFLOW"))
    (conflict "{execution.source_type} Execution plan.source.type must be WORKFLOW.").

Definition assert_schedule_source (e : execution) : res unit :=
  _ ← raise_if (negb (is_some (ex_schedule_occurrence_id e)))
        (conflict "SCHEDULE_OCCURRENCE Execution requires schedule_occurrence_id.");
  _ ← raise_if (negb (is_workflow_schedule_occurrence e || is_agent_schedule_occurrence e))
        (conflict "SCHEDULE_OCCURRENCE Execution source lineage is inconsistent.");
  p ← of_option (conflict "SCHEDULE_OCCURRENCE Execution plan_snapshot is invalid.")
        (validate_plan (ex_plan_snapshot e));
  let expected_source := if is_agent_schedule_occurrence e then "AGENT" else "WORKFLOW" in
  raise_if (negb (String.eqb (plan_source_type p) expected_source))
    (conflict "SCHEDULE_OCCURRENCE Execution plan.source.type must be {expected_source}.").

Definition assert_claim_source (e : execution) : res unit :=
  _ ← raise_if (negb (bool_decide (ex_source_type e ∈ CLAIMABLE_SOURCES)))
        (conflict ("Claim supports AGENT_REQUEST / MANUAL_TOOL_TEST / "
           +:+ "WORKFLOW_VERSION / SCHEDULE_OCCURRENCE Executions only."));
  if String.eqb (ex_source_type e) WORKFLOW_VERSION then assert_workflow_source e
  else if String.eqb (ex_source_type e) SCHEDULE_OCCURRENCE then assert_schedule_source e
  else Ok tt.

Definition owns_lease (e : execution) : bool :=
  is_some (ex_worker_id e) || is_some (ex_lease_token e) || is_some (ex_lease_expires_at e)
  || is_some (ex_heartbeat_at e).

(** [_lock_and_assert_occurrence_enqueued] *)
Definition lock_and_assert_occurrence_enqueued (db : claim_db) : res schedule_occurrence :=
  let e := st_execution (cd_store db) in
  match ex_schedule_occurrence_id e with
  | None => Err (conflict "SCHEDULE_OCCURRENCE Execution requires schedule_occurrence_id.")
  | Some id =>
      _ ← raise_if (negb (is_workflow_schedule_occurrence e || is_agent_schedule_occurrence e))
            (conflict "SCHEDULE_OCCURRENCE claim lineage is inconsistent.");
      occurrence ← of_option (conflict "ScheduleOccurrence not found for claim.")
        (find_first (λ o, bool_decide (so_id o = id)) (cd_occurrences db));
      _ ← raise_if (negb (bool_decide (so_status occurrence = OccurrenceStatus.ENQUEUED)))
            (conflict "SCHEDULE_OCCURRENCE claim requires occurrence status ENQUEUED.");
      let invalid := conflict "Schedule ownership lineage invalid for claim." in
      schedule ← of_option invalid
        (find_first (λ s, bool_decide (sch_id s = so_schedule_id occurrence)) (cd_schedules db));
      _ ← raise_if (negb (bool_decide (sch_owner_id schedule = ex_requester_id e))) invalid;
      Ok occurrence
  end.

(** [_mark_occurrence_running]; the assertion of the code is its second test
    for a missing id. *)
Definition mark_occurrence_running (db : claim_db) : res claim_db :=
  match ex_schedule_occurrence_id (st_execution (cd_store db)) with
  | None => Err (PyException "AssertionError")
  | Some id =>
      match find_first (λ o, bool_decide (so_id o = id)) (cd_occurrences db) with
      | Some occurrence =>
          _ ← raise_if (negb (bool_decide (so_status occurrence = OccurrenceStatus.ENQUEUED)))
                (conflict "ScheduleOccurrence not ENQUEUED at claim transition.");
          Ok (ClaimDb (cd_store db)
                (upd_where (λ o, so_id o = id)
                   (λ o, ScheduleOccurrence (so_id o) (so_schedule_id o) OccurrenceStatus.RUNNING (so_enqueued_at o))
                   (cd_occurrences db)) (cd_schedules db))
      | None => Err (conflict "ScheduleOccurrence not ENQUEUED at claim transition.")
      end
  end.

(** Every check before the first assignment *)
Definition assert_claimable (db : claim_db) : res tool_join_dag :=
  let st := cd_store db in
  let e := st_execution st in
  _ ← assert_claim_source e;
  _ ← raise_if (negb (is_some (ex_queued_at e)) || is_some (ex_started_at e))
        (conflict "QUEUED Execution lifecycle timestamps are inconsistent.");
  _ ← raise_if (owns_lease e) (conflict "QUEUED Execution unexpectedly owns a lease.");
  let steps := list_steps st in
  _ ← raise_if (is_nil steps) (conflict "Execution has no Steps to claim.");
  _ ← res_iter assert_initial_step steps;
  p ← assert_execution_plan_lineage e;
  dag ← validate_tool_join_dag p steps;
  _ ← (if String.eqb (ex_source_type e) SCHEDULE_OCCURRENCE
       then _ ← lock_and_assert_occurrence_enqueued db; Ok tt else Ok tt);
  Ok dag.

Definition take_lease (worker : string) (token : uuid) (ts expires_at : Z) (e : execution) : execution :=
  e |> set_ex_status ExecutionStatus.RUNNING |> set_ex_worker_id (Some worker)
    |> set_ex_lease_token (Some token) |> set_ex_lease_expires_at (Some expires_at)
    |> set_ex_heartbeat_at (Some ts) |> set_ex_started_at (Some ts) |> bump_execution.

(** The body of the promotion loop: status READY, [ready_at], the event *)
Definition ready_step (ts : Z) (s : execution_step) : execution_step :=
  s |> set_es_status StepStatus.READY |> set_es_ready_at (Some ts) |> bump_step.
Definition promote_root (ts : Z) (root : execution_step) (st : store) : store :=
  match get_step (es_id root) st with
  | Some current => st |> upd_step (es_id root) (ready_step ts) |> emit_of_step ts current
  | None => st
  end.

(** [for key in root_tool_keys], until the slots are used *)
Fixpoint promote_roots (ts : Z) (by_key : dict execution_step) (keys : list string) (slots : Z)
    (st : store) (ready_ids : list uuid) : res (store * list uuid) :=
  match keys with
  | [] => Ok (st, ready_ids)
  | key :: keys =>
      if (slots <=? 0)%Z then Ok (st, ready_ids)
      else
        root ← dict_item key by_key;
        promote_roots ts by_key keys (slots - 1) (promote_root ts root st) (ready_ids ++ [es_id root])
  end.

Definition claim (lease_seconds : Z) (token : uuid) (execution_id : uuid) (worker_id : string) (ts : Z)
    (db : claim_db) : res (claim_db * claim_outcome) :=
  worker ← normalize_worker_id worker_id;
  let st := cd_store db in
  let e := st_execution st in
  if negb (bool_decide (ex_id e = execution_id)) then
    Ok (db, ExecutionClaimOutcome execution_id false None None None None [] (Some MISSING))
  else if negb (bool_decide (ex_status e = ExecutionStatus.QUEUED)) then
    Ok (db, ExecutionClaimOutcome (ex_id e) false (Some (ex_status e)) (ex_worker_id e) None
              (ex_lease_expires_at e) [] (Some STALE_DELIVERY))
  else
    dag ← assert_claimable db;
    let by_key := dict_comp es_step_key id (list_steps st) in
    let expires_at := (ts + seconds lease_seconds)%Z in
    let st := st |> upd_execution (take_lease worker token ts expires_at)
                 |> emit_execution_status_changed (ex_status e) ts in
    r ← promote_roots ts by_key (root_tool_keys dag) (dag_max_parallelism dag) st [];
    let db := ClaimDb r.1 (cd_occurrences db) (cd_schedules db) in
    db ← (if String.eqb (ex_source_type e) SCHEDULE_OCCURRENCE then mark_occurrence_running db else Ok db);
    Ok (db, ExecutionClaimOutcome (ex_id e) true (Some ExecutionStatus.RUNNING) (Some worker) (Some token)
              (Some expires_at) r.2 None).

(** The guard of [renew_lease] *)
Definition holds_lease (worker : string) (token : uuid) (ts : Z) (e : execution) : bool :=
  bool_decide (ex_status e = ExecutionStatus.RUNNING)
  && bool_decide (ex_worker_id e = Some worker) && bool_decide (ex_lease_token e = Some token)
  && match ex_lease_expires_at e with Some t => negb (t <=? ts)%Z | None => false end.

Definition renew_lease (lease_seconds : Z) (execution_id : uuid) (worker_id : string) (lease_token : uuid) (ts : Z)
    (st : store) : res (store * Z) :=
  worker ← normalize_worker_id worker_id;
  let e := st_execution st in
  _ ← raise_if (negb (bool_decide (ex_id e = execution_id))) (conflict "Execution lease no longer exists.");
  _ ← raise_if (negb (holds_lease worker lease_token ts e)) (conflict "Execution lease cannot be renewed.");
  let expires_at := (ts + seconds lease_seconds)%Z in
  Ok (upd_execution (λ e, e |> set_ex_heartbeat_at (Some ts) |> set_ex_lease_expires_at (Some expires_at)
                            |> bump_execution) st, expires_at).
End claim.

(** * What a claim guarantees

    A QUEUED execution is taken by exactly one worker, with a fresh lease and
    at most [max_parallelism] READY roots; every other delivery of its message
    changes nothing. *)

(** ** Rows after a promotion *)
(** Everything but the steps and the events *)
Definition same_but_steps (st st' : store) : Prop :=
  st_execution st' = st_execution st ∧ st_attempts st' = st_attempts st ∧ st_calls st' = st_calls st ∧
  st_approvals st' = st_approvals st ∧ st_inputs st' = st_inputs st.

#[export] Instance same_but_steps_preorder : PreOrder same_but_steps.
Proof. split; [by intros st|]. intros a b c (?&?&?&?&?) (?&?&?&?&?). repeat split; congruence. Qed.

Definition promoted (ts : Z) (ids : list uuid) (l : list execution_step) : list execution_step :=
  upd_where (λ s, es_id s ∈ ids) (ready_step ts) l.

Lemma promoted_ids ts ids l : es_id <$> promoted ts ids l = es_id <$> l.
Proof. by apply upd_where_proj. Qed.

Lemma promoted_nil ts l : promoted ts [] l = l.
Proof. apply upd_where_none. intros s _. apply not_elem_of_nil. Qed.

Lemma promoted_snoc ts ids id l :
  id ∉ ids → upd_where (λ s, es_id s = id) (ready_step ts) (promoted ts ids l) = promoted ts (ids ++ [id]) l.
Proof.
  intros Hid. unfold promoted, upd_where. rewrite <- list_fmap_compose. apply list_fmap_ext. intros _ s _.
  unfold compose. destruct (decide (es_id s ∈ ids)) as [H|H].
  - rewrite decide_False by (simpl; by intros <-). rewrite decide_True; [done|]. apply elem_of_app. by left.
  - apply decide_ext. rewrite elem_of_app, list_elem_of_singleton. naive_solver.
Qed.

Lemma promote_root_rows ts root st ids l :
  st_steps st = promoted ts ids l → es_id root ∈ es_id <$> l → es_id root ∉ ids →
  let st' := promote_root ts root st in
  same_but_steps st st' ∧ st_steps st' = promoted ts (ids ++ [es_id root]) l.
Proof.
  intros Hl Hin Hid. unfold promote_root, get_step. simpl.
  destruct (find_first _ (st_steps st)) as [cur|] eqn:E.
  - destruct (emit_of_step_rows ts cur (upd_step (es_id root) (ready_step ts) st)) as (E1 & E2 & E3 & E4 & E5 & E6).
    unfold same_but_steps. rewrite E1, E2, E3, E4, E5, E6. split; [done|]. simpl. rewrite Hl. by apply promoted_snoc.
  - rewrite find_first_None in E. rewrite <- (promoted_ids ts ids), <- Hl in Hin.
    apply list_elem_of_fmap in Hin as (s & Hs & Hin). specialize (E s Hin).
    by rewrite bool_decide_true in E.
Qed.

(** The loop promotes the rows of the first [slots] keys. *)
Lemma promote_roots_rows ts steps keys slots st ids l :
  NoDup (es_step_key <$> steps) → NoDup (es_id <$> l) → (∀ s, s ∈ steps → s ∈ l) → NoDup keys →
  (∀ k, k ∈ keys → k ∈ es_step_key <$> steps) →
  (∀ s, s ∈ steps → es_id s ∈ ids → es_step_key s ∉ keys) →
  st_steps st = promoted ts ids l →
  ∃ st' roots, promote_roots ts (dict_comp es_step_key id steps) keys slots st ids = Ok (st', ids ++ (es_id <$> roots)) ∧
    same_but_steps st st' ∧ st_steps st' = promoted ts (ids ++ (es_id <$> roots)) l ∧
    es_step_key <$> roots = take (Z.to_nat slots) keys ∧ ∀ s, s ∈ roots → s ∈ steps.
Proof.
  intros Hnk Hni Hsub. revert slots st ids. induction keys as [|k keys IH]; intros slots st ids Hnd Hk Hids Hst.
  { exists st, []. simpl. rewrite app_nil_r, take_nil. repeat (split; [done|]). by intros s ?%elem_of_nil. }
  cbn [promote_roots]. destruct (Z.leb_spec slots 0) as [Hs|Hs].
  { exists st, []. simpl. rewrite app_nil_r. replace (Z.to_nat slots) with 0%nat by lia.
    repeat (split; [done|]). by intros s ?%elem_of_nil. }
  apply NoDup_cons in Hnd as [Hnin Hnd].
  assert (k ∈ es_step_key <$> steps) as Hin by (apply Hk; left).
  apply list_elem_of_fmap in Hin as (r & -> & Hr). unfold dict_item.
  rewrite dict_comp_get_NoDup by done. cbn [of_option mbind res_bind id].
  destruct (promote_root_rows ts r st ids l Hst) as (H1 & H2).
  { apply list_elem_of_fmap_2. by apply Hsub. }
  { intros Hid. apply (Hids r Hr Hid). left. }
  destruct (IH (slots - 1)%Z (promote_root ts r st) (ids ++ [es_id r])) as (st' & roots & -> & H3 & H4 & H5 & H6);
    [done|intros x Hx; apply Hk; by right| |exact H2|].
  - intros s Hsin. rewrite elem_of_app, list_elem_of_singleton. intros [Hid|Hid] Hkey.
    + apply (Hids s Hsin Hid). by right.
    + rewrite (key_inj es_id l s r) in Hkey; auto.
  - exists st', (r :: roots). simpl. rewrite <- app_assoc in *. simpl. split; [done|].
    split; [by etrans|]. split; [exact H4|]. split.
    + replace (Z.to_nat slots) with (S (Z.to_nat (slots - 1))) by lia. simpl. f_equal. exact H5.
    + intros s [->|Hin]%elem_of_cons; auto.
Qed.

(** ** The claim *)
Section claim_sound.
Context {schema : PlanSchema} {parser : PlanParser}.

(** The occurrence the execution came from is ENQUEUED before and RUNNING
    after, and its schedule is owned by the requester. *)
Definition occurrence_started (db db' : claim_db) : Prop :=
  let e := st_execution (cd_store db) in
  if String.eqb (ex_source_type e) SCHEDULE_OCCURRENCE then
    ∃ o s, Some (so_id o) = ex_schedule_occurrence_id e ∧ o ∈ cd_occurrences db ∧
      so_status o = OccurrenceStatus.ENQUEUED ∧
      s ∈ cd_schedules db ∧ sch_id s = so_schedule_id o ∧ sch_owner_id s = ex_requester_id e ∧
      ScheduleOccurrence (so_id o) (so_schedule_id o) OccurrenceStatus.RUNNING (so_enqueued_at o) ∈ cd_occurrences db'
  else cd_occurrences db' = cd_occurrences db.

(** What a granted claim found and did *)
Record claimed (worker_id : string) (token : uuid) (ts expires_at : Z) (db db' : claim_db) (ready : list uuid)
    : Prop := Claimed {
  cm_queued : ex_status (st_execution (cd_store db)) = ExecutionStatus.QUEUED;
  cm_no_lease : owns_lease (st_execution (cd_store db)) = false;
  cm_pending s : s ∈ st_steps (cd_store db) → es_status s = StepStatus.PENDING ∧ es_attempt_count s = 0%Z;
  cm_worker : strip worker_id ≠ "" ∧ (String.length (strip worker_id) ≤ WORKER_ID_MAX_LEN)%nat;
  cm_lease : st_execution (cd_store db')
    = take_lease (strip worker_id) token ts expires_at (st_execution (cd_store db));
  cm_steps : st_steps (cd_store db') = promoted ts ready (st_steps (cd_store db));
  cm_rest : st_attempts (cd_store db') = st_attempts (cd_store db) ∧ st_calls (cd_store db') = st_calls (cd_store db) ∧
    st_approvals (cd_store db') = st_approvals (cd_store db) ∧ st_inputs (cd_store db') = st_inputs (cd_store db);
  cm_occurrence : occurrence_started db db';
  cm_plan : ∃ p dag roots,
    validate_plan (ex_plan_snapshot (st_execution (cd_store db))) = Some p ∧
    compute_plan_hash (ex_plan_snapshot (st_execution (cd_store db)))
      = Ok (ex_plan_hash (st_execution (cd_store db))) ∧
    validate_tool_join_dag p (list_steps (cd_store db)) = Ok dag ∧
    ready = es_id <$> roots ∧ es_step_key <$> roots = take (Z.to_nat (max_parallelism (pl_limits p))) (root_tool_keys dag) ∧
    (∀ s, s ∈ roots → s ∈ st_steps (cd_store db) ∧ es_step_type s = StepType.TOOL) }.

Lemma lock_occurrence_Ok db o :
  lock_and_assert_occurrence_enqueued db = Ok o →
  Some (so_id o) = ex_schedule_occurrence_id (st_execution (cd_store db)) ∧
  find_first (λ x, bool_decide (so_id x = so_id o)) (cd_occurrences db) = Some o ∧
  so_status o = OccurrenceStatus.ENQUEUED ∧
  ∃ s, s ∈ cd_schedules db ∧ sch_id s = so_schedule_id o ∧
       sch_owner_id s = ex_requester_id (st_execution (cd_store db)).
Proof.
  unfold lock_and_assert_occurrence_enqueued. destruct (ex_schedule_occurrence_id _) as [u|]; [|done].
  intros H. apply bind_Ok in H as ([] & _ & H). apply bind_Ok in H as (oc & Hoc & H).
  apply bind_Ok in H as ([] & Hst & H). apply bind_Ok in H as (sc & Hsc & H). inv_res.
  pose proof Hoc as Hf. apply find_first_Some in Hf as [_ Hid]. apply bool_decide_eq_true in Hid. subst u.
  apply find_first_Some in Hsc as [Hin Hs]. apply bool_decide_eq_true in Hs. eauto 10.
Qed.

Lemma mark_after_lock db st1 o :
  lock_and_assert_occurrence_enqueued db = Ok o →
  ex_schedule_occurrence_id (st_execution st1) = ex_schedule_occurrence_id (st_execution (cd_store db)) →
  ∃ db', mark_occurrence_running (ClaimDb st1 (cd_occurrences db) (cd_schedules db)) = Ok db' ∧
    cd_store db' = st1 ∧
    ScheduleOccurrence (so_id o) (so_schedule_id o) OccurrenceStatus.RUNNING (so_enqueued_at o) ∈ cd_occurrences db'.
Proof.
  intros (Hid & Hf & Hst & _)%lock_occurrence_Ok Hex. unfold mark_occurrence_running. simpl.
  rewrite Hex, <- Hid, Hf, bool_decide_true by done. cbn [negb raise_if mbind res_bind].
  eexists. split; [done|]. split; [done|]. simpl. apply elem_of_upd_where. exists o.
  split; [by eapply find_first_Some|]. by rewrite decide_True.
Qed.

Lemma assert_claimable_Ok db dag :
  assert_claimable db = Ok dag →
  let e := st_execution (cd_store db) in
  owns_lease e = false ∧ (∀ s, s ∈ list_steps (cd_store db) → assert_initial_step s = Ok tt) ∧
  (∃ p, assert_execution_plan_lineage e = Ok p ∧ validate_tool_join_dag p (list_steps (cd_store db)) = Ok dag) ∧
  (String.eqb (ex_source_type e) SCHEDULE_OCCURRENCE = true → ∃ o, lock_and_assert_occurrence_enqueued db = Ok o).
Proof.
  intros H. unfold assert_claimable in H. apply bind_Ok in H as ([] & _ & H).
  apply bind_Ok in H as ([] & _ & H). apply bind_Ok in H as ([] & Hl & H). apply raise_if_Ok in Hl.
  apply bind_Ok in H as ([] & _ & H). apply bind_Ok in H as ([] & Hs & H). rewrite res_iter_Ok in Hs.
  apply bind_Ok in H as (p & Hp & H). apply bind_Ok in H as (d & Hd & H). apply bind_Ok in H as ([] & Ho & H).
  injection H as ->. simpl. split; [done|]. split; [done|]. split; [by exists p|].
  destruct (String.eqb _ _); [|done]. intros _. apply bind_Ok in Ho as (o & Ho & _). by exists o.
Qed.

Lemma assert_initial_step_Ok s :
  assert_initial_step s = Ok tt → es_status s = StepStatus.PENDING ∧ es_attempt_count s = 0%Z.
Proof.
  unfold assert_initial_step. intros H. apply bind_Ok in H as ([] & H & _). inv_res.
  by match goal with H : (_ =? _)%Z = true |- _ => apply Z.eqb_eq in H end.
Qed.

Lemma normalize_worker_id_Ok w worker :
  normalize_worker_id w = Ok worker →
  worker = strip w ∧ strip w ≠ "" ∧ (String.length (strip w) ≤ WORKER_ID_MAX_LEN)%nat.
Proof.
  unfold normalize_worker_id. intros H. inv_res. split; [done|].
  match goal with H : (_ <? _)%nat = false |- _ => apply Nat.ltb_ge in H end.
  split; [|done]. by destruct (strip w).
Qed.

(** The last update of a claim cannot fail. *)
Lemma occurrence_step db st2 :
  (String.eqb (ex_source_type (st_execution (cd_store db))) SCHEDULE_OCCURRENCE = true →
   ∃ o, lock_and_assert_occurrence_enqueued db = Ok o) →
  ex_schedule_occurrence_id (st_execution st2) = ex_schedule_occurrence_id (st_execution (cd_store db)) →
  ∃ db', (if String.eqb (ex_source_type (st_execution (cd_store db))) SCHEDULE_OCCURRENCE
          then mark_occurrence_running (ClaimDb st2 (cd_occurrences db) (cd_schedules db))
          else Ok (ClaimDb st2 (cd_occurrences db) (cd_schedules db))) = Ok db' ∧
    cd_store db' = st2 ∧ occurrence_started db db'.
Proof.
  intros Hocc Hex. unfold occurrence_started. destruct (String.eqb _ _); [|by eexists].
  destruct (Hocc eq_refl) as [o Ho]. destruct (mark_after_lock db st2 o Ho Hex) as (db' & -> & H1 & H2).
  apply lock_occurrence_Ok in Ho as (Hid & Hf & Hst & s & Hs1 & Hs2 & Hs3).
  exists db'. split; [done|]. split; [done|]. exists o, s. split; [done|]. split; [by eapply find_first_Some|done].
Qed.

End claim_sound.
