(* ===== verification/Preflight.v ===== *)
(** The authorization of a tool call as of now. *)
From S2P Require Import Prelude PyStr PyDict Json PyUuid CanonicalHash Domain Rows PolicySelection Claim.

(** * Authorization before a tool call ([execution/runtime_preflight.py])

    The catalog rows the checks read, and the checks: the tool, its server and
    its policy are current, the requester holds the permission and the grants,
    and the policy is still the pinned one.  Reads only.

    A catalog row has the columns the runtime reads; status columns are the
    strings of their enums.  The one SQL statement that evaluates a user's
    permission and grant ([AuthorizationRepository]) is a function of the
    catalog.  Messages in Korean are spelled in UTF-8. *)

(** ** Catalog rows *)
Record mcp_server := MCPServer {
  sv_id : uuid;
  sv_transport_type : string;
  sv_endpoint_url : option string;
  sv_transport_config : json;
  sv_auth_type : string;
  sv_auth_secret_id : option uuid;
  sv_status : string;
  sv_protocol_era : string;
  sv_deleted_at : option Z }.

Record mcp_tool := MCPTool {
  mt_id : uuid;
  mt_mcp_server_id : uuid;
  mt_remote_name : string;
  mt_status : string;
  mt_current_version_id : option uuid;
  mt_deleted_at : option Z }.

Record mcp_tool_version := MCPToolVersion {
  tv_id : uuid;
  tv_mcp_tool_id : uuid;
  tv_input_schema : json;
  tv_output_schema : json;
  tv_validation_status : string }.

Record mcp_tool_policy := MCPToolPolicy {
  mp_id : uuid;
  mp_mcp_tool_id : uuid;
  mp_risk_class : string;
  mp_requires_confirmation : bool;
  mp_requires_approval : bool;
  mp_approval_policy_id : option uuid;
  mp_timeout_ms : Z;
  mp_max_attempts : Z;
  mp_backoff_policy : json;
  mp_max_result_bytes : Z;
  mp_allow_auto_select : bool;
  mp_data_classification : option string }.

Record approval_policy := ApprovalPolicy {
  ap_id : uuid;
  ap_status : string;
  ap_decision_mode : string;
  ap_required_approvals : Z;
  ap_approver_scope : json;
  ap_default_expiry_seconds : Z;
  ap_allow_self_approval : bool;
  ap_reject_comment_required : bool }.

Record agent_version := AgentVersion { av_id : uuid; av_status : string }.

Record agent_tool_grant := AgentToolGrant {
  gr_agent_version_id : uuid;
  gr_mcp_tool_id : uuid;
  gr_effect : string;
  gr_parameter_constraints : json;
  gr_requires_confirmation : bool }.

Record workflow := Workflow { wf_id : uuid; wf_status : string; wf_deleted_at : option Z }.

Record workflow_version := WorkflowVersion {
  wv_id : uuid;
  wv_workflow_id : uuid;
  wv_status : string;
  wv_plan_schema_version : string;
  wv_plan_definition : json;
  wv_input_schema : json;
  wv_output_schema : json;
  wv_policy_defaults : json;
  wv_validation_status : string;
  wv_content_hash : string }.

Record plan_validation_run := PlanValidationRun {
  pv_id : uuid;
  pv_agent_request_id : uuid;
  pv_plan_generation_run_id : uuid;
  pv_plan_hash : string;
  pv_decision : string;
  pv_policy_snapshot : json;
  pv_confirmation_required : bool;
  pv_clarification_request_id : option uuid;
  pv_created_at : Z }.

Record clarification_request := ClarificationRequest {
  cr_id : uuid;
  cr_request_type : string;
  cr_status : string;
  cr_response_payload : json;
  cr_answered_by : option uuid }.

Record authorization_snapshot := AuthorizationSnapshot {
  user_exists : bool;
  user_active : bool;
  permission_present : bool;
  resource_grant_present : bool }.

Record catalog := Catalog {
  cat_servers : list mcp_server;
  cat_tools : list mcp_tool;
  cat_tool_versions : list mcp_tool_version;
  cat_tool_policies : list mcp_tool_policy;
  cat_approval_policies : list approval_policy;
  cat_agent_versions : list agent_version;
  cat_grants : list agent_tool_grant;
  cat_workflows : list workflow;
  cat_workflow_versions : list workflow_version;
  cat_occurrences : list schedule_occurrence;
  cat_schedules : list schedule;
  cat_validations : list plan_validation_run;
  cat_clarifications : list clarification_request;
  (** user, permission code, resource type, resource *)
  cat_authorization : uuid → string → string → uuid → authorization_snapshot }.

(** The row with a primary key *)
Definition row_by {A} (key : A → uuid) (id : uuid) (rows : list A) : option A :=
  find_first (λ r, bool_decide (key r = id)) rows.
Definition get_server (c : catalog) (id : uuid) : option mcp_server :=
  row_by sv_id id (filter (λ s, sv_deleted_at s = None) (cat_servers c)).
Definition get_tool (c : catalog) (id : uuid) : option mcp_tool :=
  row_by mt_id id (filter (λ t, mt_deleted_at t = None) (cat_tools c)).
Definition get_tool_version (c : catalog) (id : uuid) : option mcp_tool_version :=
  row_by tv_id id (cat_tool_versions c).
Definition get_policy_by_tool_id (c : catalog) (id : uuid) : option mcp_tool_policy :=
  row_by mp_mcp_tool_id id (cat_tool_policies c).
Definition get_approval_policy (c : catalog) (id : uuid) : option approval_policy :=
  row_by ap_id id (cat_approval_policies c).
Definition get_workflow (c : catalog) (id : uuid) : option workflow :=
  row_by wf_id id (filter (λ w, wf_deleted_at w = None) (cat_workflows c)).

(** ** Enum values the checks compare with *)
Definition TRANSPORT_TYPES : list string := ["STDIO"; "STREAMABLE_HTTP"; "LEGACY_HTTP_SSE"].
Definition PROTOCOL_ERAS : list string := ["CURRENT"; "LEGACY"].
Definition RISK_CLASSES : list string :=
  ["READ_ONLY"; "IDEMPOTENT_WRITE"; "NON_IDEMPOTENT_WRITE"; "DESTRUCTIVE"; "UNKNOWN"].
Definition DECISION_MODES : list string := ["ANY"; "ALL"; "QUORUM"].
Definition AGENT_VERSION_STATUSES : list string := ["DRAFT"; "PUBLISHED"; "DEPRECATED"].
Definition PINNED_WORKFLOW_VERSION_STATUSES : list string := ["PUBLISHED"; "DEPRECATED"].
Definition PINNED_WORKFLOW_SOURCES : list string := [WORKFLOW_VERSION; SCHEDULE_OCCURRENCE].
Definition SCHEDULE_TRIGGER_TYPES : list string := ["SCHEDULE"; "USER"].
Definition EXECUTE_PERMISSION : string := "mcp.tool.execute".
Definition WORKFLOW_EXECUTE_PERMISSION : string := "workflow.execute".

Definition forbidden (message : string) : py_error := AppError "FORBIDDEN" message 403.

(** [str(id) if id else None] *)
Definition uuid_json (id : option uuid) : json :=
  match id with Some u => JStr (uuid_str u) | None => JNull end.
Definition str_json (s : option string) : json := match s with Some s => JStr s | None => JNull end.

(** [build_safe_tool_policy_snapshot] ([services/policy_snapshot.py]) *)
Definition tool_policy_block (tp : mcp_tool_policy) : dict json :=
  [("id", JStr (uuid_str (mp_id tp))); ("mcp_tool_id", JStr (uuid_str (mp_mcp_tool_id tp)));
   ("risk_class", JStr (mp_risk_class tp)); ("requires_confirmation", JBool (mp_requires_confirmation tp));
   ("requires_approval", JBool (mp_requires_approval tp)); ("approval_policy_id", uuid_json (mp_approval_policy_id tp));
   ("timeout_ms", JInt (mp_timeout_ms tp)); ("max_attempts", JInt (mp_max_attempts tp));
   ("backoff_policy", mp_backoff_policy tp); ("max_result_bytes", JInt (mp_max_result_bytes tp));
   ("allow_auto_select", JBool (mp_allow_auto_select tp)); ("data_classification", str_json (mp_data_classification tp))].
Definition approval_policy_block (ap : approval_policy) : dict json :=
  [("id", JStr (uuid_str (ap_id ap))); ("status", JStr (ap_status ap)); ("decision_mode", JStr (ap_decision_mode ap));
   ("required_approvals", JInt (ap_required_approvals ap)); ("approver_scope", ap_approver_scope ap);
   ("default_expiry_seconds", JInt (ap_default_expiry_seconds ap));
   ("allow_self_approval", JBool (ap_allow_self_approval ap));
   ("reject_comment_required", JBool (ap_reject_comment_required ap))].
Definition build_safe_tool_policy_snapshot (tp : mcp_tool_policy) (ap : option approval_policy) : dict json :=
  [("tool_policy", JObj (tool_policy_block tp));
   ("approval_policy", match ap with Some ap => JObj (approval_policy_block ap) | None => JNull end)].

(** [RuntimeToolAuthorization]; [_CommonToolAuth] is the part without the grant *)
Record runtime_tool_authorization := RuntimeToolAuthorization {
  au_tool_version : mcp_tool_version;
  au_logical_tool : mcp_tool;
  au_server : mcp_server;
  au_tool_policy : mcp_tool_policy;
  au_approval_policy : option approval_policy;
  au_agent_grant : option agent_tool_grant;
  au_confirmation_required : bool;
  au_policy_snapshot : dict json }.

Definition authorized (s : authorization_snapshot) : bool :=
  user_exists s && user_active s && permission_present s && resource_grant_present s.

(** [max(1, ceil(timeout_ms / 1000))]; the quotient of a 32-bit integer by 1000
    in binary64 lies on the same side of every integer as the exact one. *)
Definition expected_timeout (timeout_ms : Z) : Z := Z.max 1 ((timeout_ms + 999) / 1000).

(** The approval policy a tool policy asks for *)
Definition required_approval_policy (c : catalog) (tp : mcp_tool_policy) : res (option approval_policy) :=
  if mp_requires_approval tp then
    id ← of_option (precondition_failed "requires_approval인데 approval_policy_id 없음.") (mp_approval_policy_id tp);
    let bad := precondition_failed "ApprovalPolicy ACTIVE/integrity 실패." in
    ap ← of_option bad (get_approval_policy c id);
    _ ← raise_if (negb (String.eqb (ap_status ap) "ACTIVE") || (ap_required_approvals ap <? 1)%Z
                  || (ap_default_expiry_seconds ap <=? 0)%Z) bad;
    _ ← raise_if (negb (bool_decide (ap_decision_mode ap ∈ DECISION_MODES))) (precondition_failed "invalid decision_mode.");
    Ok (Some ap)
  else Ok None.

(** [_assert_common_tool_executable].  The type checks of its boolean columns
    cannot fail on typed columns. *)
Definition assert_common_tool_executable (c : catalog) (requester_id tool_version_id : uuid)
    (expected_policy_snapshot : dict json) (plan_timeout_seconds : option Z) : res runtime_tool_authorization :=
  tool_version ← of_option (precondition_failed "ToolVersion not found for Step.") (get_tool_version c tool_version_id);
  _ ← raise_if (negb (String.eqb (tv_validation_status tool_version) "VALID"))
        (precondition_failed "ToolVersion.validation_status != VALID.");
  let bad_tool := precondition_failed "logical Tool ACTIVE/current_version 실패." in
  logical_tool ← of_option bad_tool (get_tool c (tv_mcp_tool_id tool_version));
  _ ← raise_if (is_some (mt_deleted_at logical_tool) || negb (String.eqb (mt_status logical_tool) "ACTIVE")
                || negb (bool_decide (mt_current_version_id logical_tool = Some (tv_id tool_version)))) bad_tool;
  let bad_server := precondition_failed "MCP Server ACTIVE 실패." in
  server ← of_option bad_server (get_server c (mt_mcp_server_id logical_tool));
  _ ← raise_if (is_some (sv_deleted_at server) || negb (String.eqb (sv_status server) "ACTIVE")) bad_server;
  _ ← raise_if (negb (bool_decide (sv_transport_type server ∈ TRANSPORT_TYPES))
                || negb (bool_decide (sv_protocol_era server ∈ PROTOCOL_ERAS)))
        (precondition_failed "invalid transport_type/protocol_era.");
  _ ← raise_if (negb (authorized (cat_authorization c requester_id EXECUTE_PERMISSION "MCP_TOOL" (mt_id logical_tool))))
        (forbidden "mcp.tool.execute + MCP_TOOL ResourceGrant 필요.");
  tool_policy ← of_option (precondition_failed "MCPToolPolicy 없음.") (get_policy_by_tool_id c (mt_id logical_tool));
  _ ← raise_if (negb (bool_decide (mp_risk_class tool_policy ∈ RISK_CLASSES))) (precondition_failed "invalid risk_class.");
  _ ← raise_if ((mp_timeout_ms tool_policy <=? 0)%Z || (mp_max_attempts tool_policy <? 1)%Z
                || (mp_max_result_bytes tool_policy <=? 0)%Z) (precondition_failed "ToolPolicy integrity 실패.");
  _ ← raise_if (match plan_timeout_seconds with
                | Some t => negb (t =? expected_timeout (mp_timeout_ms tool_policy))%Z
                | None => false
                end) (precondition_failed "Plan timeout과 ToolPolicy timeout_ms 불일치.");
  approval_policy ← required_approval_policy c tool_policy;
  let current_policy := build_safe_tool_policy_snapshot tool_policy approval_policy in
  _ ← raise_if (negb (py_eq (JObj current_policy) (JObj expected_policy_snapshot)))
        (precondition_failed "current policy snapshot != expected policy snapshot.");
  Ok (RuntimeToolAuthorization tool_version logical_tool server tool_policy approval_policy None
        (mp_requires_confirmation tool_policy) current_policy).

Definition assert_current_agent_tool_executable (c : catalog) (requester_id agent_version_id tool_version_id : uuid)
    (expected_policy_snapshot : dict json) (plan_timeout_seconds : option Z) : res runtime_tool_authorization :=
  agent_version ← of_option (precondition_failed "AgentVersion not found.")
                    (row_by av_id agent_version_id (cat_agent_versions c));
  _ ← raise_if (negb (bool_decide (av_status agent_version ∈ AGENT_VERSION_STATUSES)))
        (precondition_failed "invalid AgentVersion.status.");
  core ← assert_common_tool_executable c requester_id tool_version_id expected_policy_snapshot plan_timeout_seconds;
  let denied := forbidden "AgentToolGrant ALLOW 필요." in
  grant ← of_option denied
    (find_first (λ g, bool_decide (gr_mcp_tool_id g = mt_id (au_logical_tool core)))
       (filter (λ g, gr_agent_version_id g = agent_version_id) (cat_grants c)));
  _ ← raise_if (negb (String.eqb (gr_effect grant) "ALLOW")) denied;
  _ ← raise_if (negb (is_none (gr_parameter_constraints grant)))
        (precondition_failed "parameter_constraints는 fail-closed.");
  Ok (RuntimeToolAuthorization (au_tool_version core) (au_logical_tool core) (au_server core) (au_tool_policy core)
        (au_approval_policy core) (Some grant)
        (gr_requires_confirmation grant || mp_requires_confirmation (au_tool_policy core)) (au_policy_snapshot core)).

(** ** Pinned workflows *)
Definition assert_schedule_occurrence_lineage (c : catalog) (e : execution) : res unit :=
  _ ← raise_if (negb (is_workflow_schedule_occurrence e || is_agent_schedule_occurrence e))
        (conflict "SCHEDULE_OCCURRENCE Execution source lineage is inconsistent.");
  _ ← raise_if (negb (bool_decide (ex_trigger_type e ∈ SCHEDULE_TRIGGER_TYPES)))
        (conflict "SCHEDULE_OCCURRENCE trigger_type must be SCHEDULE or USER (got {execution.trigger_type!r}).");
  occurrence ← of_option (precondition_failed "ScheduleOccurrence not found for Execution.")
                 (id ← ex_schedule_occurrence_id e; row_by so_id id (cat_occurrences c));
  schedule ← of_option (precondition_failed "Schedule not found for ScheduleOccurrence.")
               (row_by sch_id (so_schedule_id occurrence) (cat_schedules c));
  raise_if (negb (bool_decide (sch_owner_id schedule = ex_requester_id e)))
    (conflict "Schedule.owner_id must equal Execution.requester_id.").

(** [workflow_version_content_hash] ([services/workflow_content.py]) *)
Definition workflow_version_content_hash (v : workflow_version) : res string :=
  compute_canonical_json_hash
    (JObj [("plan_schema_version", JStr (wv_plan_schema_version v)); ("plan_definition", wv_plan_definition v);
           ("input_schema", wv_input_schema v); ("output_schema", wv_output_schema v);
           ("policy_defaults", wv_policy_defaults v)]).

(** [_semantic_equal]: [json.loads] of [json.dumps] gives back a JSON value. *)
Definition semantic_equal (left right : json) : bool := py_eq left right.

Section workflows.
Context {parser : PlanParser}.

(** [plan.source.type != "WORKFLOW" or plan.source.workflow_id != workflow.id] *)
Definition workflow_source_is (p : plan) (workflow_id : uuid) : bool :=
  match pl_source p with PlanSourceWorkflow id => bool_decide (id = workflow_id) | _ => false end.

(** The version and the workflow it belongs to *)
Definition pinned_version (c : catalog) (e : execution) : res (workflow_version * workflow) :=
  version_id ← of_option (PyException "AssertionError") (ex_workflow_version_id e);
  version ← of_option (precondition_failed "WorkflowVersion not found.") (row_by wv_id version_id (cat_workflow_versions c));
  _ ← raise_if (negb (bool_decide (wv_status version ∈ PINNED_WORKFLOW_VERSION_STATUSES)))
        (precondition_failed "pinned WorkflowVersion.status must be PUBLISHED or DEPRECATED.");
  _ ← raise_if (negb (String.eqb (wv_validation_status version) "VALID"))
        (conflict "pinned WorkflowVersion.validation_status must be VALID.");
  _ ← raise_if (negb (String.eqb (wv_plan_schema_version version) (ex_plan_schema_version e)))
        (conflict "WorkflowVersion.plan_schema_version mismatch.");
  let missing := precondition_failed "Workflow not found." in
  workflow ← of_option missing (get_workflow c (wv_workflow_id version));
  _ ← raise_if (is_some (wf_deleted_at workflow)) missing;
  _ ← raise_if (negb (String.eqb (wf_status workflow) "ACTIVE")) (precondition_failed "Workflow.status != ACTIVE.");
  _ ← raise_if (negb (bool_decide (wv_workflow_id version = wf_id workflow)))
        (conflict "WorkflowVersion does not belong to owning Workflow.");
  Ok (version, workflow).

(** [_assert_pinned_workflow_core] *)
Definition assert_pinned_workflow_core (c : catalog) (e : execution) : res (workflow * workflow_version * plan) :=
  vw ← pinned_version c e;
  let '(version, workflow) := vw in
  _ ← raise_if (negb (is_dict (wv_plan_definition version)))
        (conflict "WorkflowVersion.plan_definition must be a JSON object.");
  version_plan ← of_option (conflict "WorkflowVersion.plan_definition is invalid.") (validate_plan (wv_plan_definition version));
  _ ← raise_if (negb (workflow_source_is version_plan (wf_id workflow)))
        (conflict "WorkflowVersion Plan source lineage mismatch.");
  recomputed_content ← workflow_version_content_hash version;
  _ ← raise_if (negb (String.eqb recomputed_content (wv_content_hash version)))
        (conflict "WorkflowVersion content_hash mismatch.");
  p ← of_option (conflict "Execution.plan_snapshot is invalid.") (validate_plan (ex_plan_snapshot e));
  _ ← raise_if (negb (workflow_source_is p (wf_id workflow))) (conflict "Execution Plan source lineage mismatch.");
  _ ← raise_if (negb (semantic_equal (dump_plan p) (dump_plan version_plan)))
        (conflict "Execution.plan_snapshot does not match pinned WorkflowVersion.plan_definition.");
  h ← compute_plan_hash (ex_plan_snapshot e);
  _ ← raise_if (negb (String.eqb h (ex_plan_hash e))) (conflict "Execution.plan_hash does not match plan_snapshot.");
  _ ← raise_if (negb (authorized (cat_authorization c (ex_requester_id e) WORKFLOW_EXECUTE_PERMISSION "WORKFLOW" (wf_id workflow))))
        (forbidden "workflow.execute + WORKFLOW ResourceGrant 필요.");
  Ok (workflow, version, p).

(** [assert_pinned_workflow_execution_authorized], also known as
    [assert_current_workflow_execution_authorized] *)
Definition assert_pinned_workflow_execution_authorized (c : catalog) (e : execution)
    : res (workflow * workflow_version * plan) :=
  _ ← raise_if (negb (bool_decide (ex_source_type e ∈ PINNED_WORKFLOW_SOURCES)))
        (conflict "Pinned Workflow authorization requires WORKFLOW_VERSION or SCHEDULE_OCCURRENCE.");
  _ ← (if String.eqb (ex_source_type e) SCHEDULE_OCCURRENCE then assert_schedule_occurrence_lineage c e
       else raise_if (negb (is_some (ex_workflow_version_id e)) || is_some (ex_agent_request_id e)
                      || is_some (ex_agent_version_id e) || is_some (ex_schedule_occurrence_id e)
                      || is_some (ex_plan_validation_run_id e))
              (conflict "WORKFLOW_VERSION Execution source lineage is inconsistent."));
  assert_pinned_workflow_core c e.

(** ** By source *)
Definition assert_source_tool_executable (c : catalog) (e : execution) (tool_version_id : uuid)
    (expected_policy_snapshot : dict json) (plan_timeout_seconds : option Z) : res runtime_tool_authorization :=
  let common := assert_common_tool_executable c (ex_requester_id e) tool_version_id expected_policy_snapshot
                  plan_timeout_seconds in
  let scheduled := String.eqb (ex_source_type e) SCHEDULE_OCCURRENCE in
  if String.eqb (ex_source_type e) AGENT_REQUEST || scheduled && is_agent_schedule_occurrence e then
    agent_version_id ← of_option (precondition_failed "Execution.agent_version_id is required.") (ex_agent_version_id e);
    _ ← (if scheduled then assert_schedule_occurrence_lineage c e else Ok tt);
    assert_current_agent_tool_executable c (ex_requester_id e) agent_version_id tool_version_id
      expected_policy_snapshot plan_timeout_seconds
  else if String.eqb (ex_source_type e) WORKFLOW_VERSION || scheduled && is_workflow_schedule_occurrence e then
    _ ← assert_pinned_workflow_execution_authorized c e;
    common
  else if scheduled then Err (conflict "SCHEDULE_OCCURRENCE Execution source lineage is inconsistent.")
  else if String.eqb (ex_source_type e) MANUAL_TOOL_TEST then common
  else Err (conflict "Unsupported Execution.source_type for Tool authorization: {execution.source_type!r}.").

(** The check when an execution of a workflow is created *)
Definition assert_current_workflow_tool_executable (c : catalog) (requester_id workflow_version_id tool_version_id : uuid)
    (expected_policy_snapshot : dict json) (plan_timeout_seconds : option Z) : res runtime_tool_authorization :=
  version ← of_option (precondition_failed "WorkflowVersion not found.")
              (row_by wv_id workflow_version_id (cat_workflow_versions c));
  _ ← raise_if (negb (String.eqb (wv_status version) "PUBLISHED"))
        (precondition_failed "WorkflowVersion.status != PUBLISHED.");
  let missing := precondition_failed "Workflow not found." in
  workflow ← of_option missing (get_workflow c (wv_workflow_id version));
  _ ← raise_if (is_some (wf_deleted_at workflow)) missing;
  _ ← raise_if (negb (String.eqb (wf_status workflow) "ACTIVE")) (precondition_failed "Workflow.status != ACTIVE.");
  p ← of_option (precondition_failed "WorkflowVersion plan_definition invalid.") (validate_plan (wv_plan_definition version));
  _ ← raise_if (negb (workflow_source_is p (wf_id workflow))) (precondition_failed "Workflow Plan source lineage mismatch.");
  _ ← raise_if (negb (authorized (cat_authorization c requester_id WORKFLOW_EXECUTE_PERMISSION "WORKFLOW" (wf_id workflow))))
        (forbidden "workflow.execute + WORKFLOW ResourceGrant 필요.");
  assert_common_tool_executable c requester_id tool_version_id expected_policy_snapshot plan_timeout_seconds.
End workflows.

(** ** Plan confirmation *)
(** [get_latest_waiting_confirmation_for_plan] ([repositories/plan_validation.py]):
    the latest row that matches the columns, kept if its policy matches too *)
Definition latest_waiting_confirmation (c : catalog) (agent_request_id plan_generation_run_id : uuid)
    (plan_hash : string) (policy_snapshot : dict json) : option plan_validation_run :=
  row ← head (sort_by (λ a b, (pv_created_at b <? pv_created_at a)%Z
                              || (pv_created_at b =? pv_created_at a)%Z && (pv_id b <=? pv_id a)%N)
    (filter (λ r, pv_agent_request_id r = agent_request_id ∧ pv_decision r = "WAITING_CONFIRMATION" ∧
                  pv_confirmation_required r = true ∧ pv_plan_generation_run_id r = plan_generation_run_id ∧
                  pv_plan_hash r = plan_hash ∧ is_some (pv_clarification_request_id r) = true) (cat_validations c)));
  if py_eq (pv_policy_snapshot row) (JObj policy_snapshot) then Some row else None.

Definition assert_answered_plan_confirmation (c : catalog) (agent_request_id requester_id plan_generation_run_id : uuid)
    (plan_hash : string) (policy_snapshot : dict json) : res unit :=
  let missing := precondition_failed "PLAN_CONFIRMATION evidence 없음." in
  waiting ← of_option missing (latest_waiting_confirmation c agent_request_id plan_generation_run_id plan_hash policy_snapshot);
  clarification_id ← of_option missing (pv_clarification_request_id waiting);
  let failed := precondition_failed "ANSWERED PLAN_CONFIRMATION confirmed=true 실패." in
  clarification ← of_option failed (row_by cr_id clarification_id (cat_clarifications c));
  raise_if (negb (String.eqb (cr_request_type clarification) "PLAN_CONFIRMATION")
            || negb (String.eqb (cr_status clarification) "ANSWERED")
            || negb (py_eq (cr_response_payload clarification) (JObj [("confirmed", JBool true)]))
            || negb (bool_decide (cr_answered_by clarification = Some requester_id))) failed.

(** [_assert_confirmation_evidence] of [tool_step_attempt.py] and of [tool_runner.py] *)
Definition assert_confirmation_evidence (c : catalog) (e : execution) (policy_snapshot : dict json) : res unit :=
  let missing := precondition_failed "PLAN_CONFIRMATION evidence lineage missing on Execution." in
  agent_request_id ← of_option missing (ex_agent_request_id e);
  run_id ← of_option missing (ex_plan_validation_run_id e);
  validation ← of_option (precondition_failed "Pinned PlanValidationRun not found for confirmation check.")
                 (row_by pv_id run_id (cat_validations c));
  assert_answered_plan_confirmation c agent_request_id (ex_requester_id e) (pv_plan_generation_run_id validation)
    (ex_plan_hash e) policy_snapshot.

(** * What a tool call is checked against as of now

    The parts [execution/tool_step_attempt.py], [execution/tool_runner.py] and
    [execution/approval_resume.py] spell out each for themselves: the plan step
    of a row, its timeout, and the current authorization of its tool under the
    pinned policy. *)

Definition is_app_error (e : py_error) : bool := match e with AppError _ _ _ => true | PyException _ => false end.

(** [try: m except AppError: handler]; any other exception passes. *)
Definition catch_app {A} (m : res A) (h : string → string → res A) : res A :=
  match m with Err (AppError code message _) => h code message | _ => m end.

(** [str(step.step_snapshot.get("id") or step.step_key)].  The plan model makes
    an id a string; of other values only the text of a number is spelled out. *)
Definition snapshot_step_id (s : execution_step) : res string :=
  match es_step_snapshot s with
  | JObj d =>
      match get_or_none "id" d with
      | JStr v => Ok (if str_empty v then es_step_key s else v)
      | JInt n => Ok (if (n =? 0)%Z then es_step_key s else Z_str n)
      | JNull | JBool false | JArr [] | JObj [] => Ok (es_step_key s)
      | _ => Err (PyException "TypeError")
      end
  | _ => Err (PyException "AttributeError")
  end.

(** [_plan_timeout_seconds] of the runner and of the attempt service, and the
    one of the approval resume, which allows a snapshot that is no object *)
Definition timeout_seconds_of (d : dict json) : res (option Z) :=
  match get_or_none "timeout_seconds" d with
  | JNull => Ok None
  | JInt timeout => Ok (Some timeout)
  | _ => Err (conflict "Step timeout_seconds is invalid.")
  end.
Definition plan_timeout_seconds (s : execution_step) : res (option Z) :=
  match es_step_snapshot s with JObj d => timeout_seconds_of d | _ => Err (PyException "AttributeError") end.
Definition resume_timeout_seconds (s : execution_step) : res (option Z) :=
  match es_step_snapshot s with JObj d => timeout_seconds_of d | _ => Ok None end.

Section gate.
Context {schema : PlanSchema} {parser : PlanParser}.

(** The policy the execution pins for the tool, and the authorization as of now *)
Definition authorize_pinned (c : catalog) (e : execution) (plan_step_id : string) (tool_version_id : uuid)
    (timeout : res (option Z)) : res runtime_tool_authorization :=
  expected_policy ← get_expected_tool_policy_snapshot e plan_step_id tool_version_id;
  plan_timeout ← timeout;
  assert_source_tool_executable c e tool_version_id expected_policy plan_timeout.

(** The same for a row of the runner.  A TOOL row has a tool version from its
    claim on; without one the lookup of the version is what fails. *)
Definition authorize_step (c : catalog) (e : execution) (s : execution_step) : res runtime_tool_authorization :=
  plan_step_id ← snapshot_step_id s;
  version_id ← of_option (precondition_failed "ToolVersion not found for Step.") (es_mcp_tool_version_id s);
  authorize_pinned c e plan_step_id version_id (plan_timeout_seconds s).
End gate.

Lemma catch_app_Ok {A} (m : res A) h (a : A) :
  catch_app m h = Ok a ↔ m = Ok a ∨ ∃ code message status, m = Err (AppError code message status) ∧ h code message = Ok a.
Proof.
  destruct m as [x|[code message status|k]]; simpl; split; intros H.
  - by left.
  - destruct H as [H|(?&?&?&H&_)]; [done|done].
  - right. by exists code, message, status.
  - destruct H as [H|(?&?&?&[= <- <- <-]&H)]; done.
  - by left.
  - by destruct H as [H|(?&?&?&?&_)].
Qed.

(** ** Rows behind an event *)
(** [drop_events] reads the rows of a store through the events appended to it. *)
Ltac drop_rows lem :=
  let E := fresh "E" in pose proof lem as E; cbv zeta in E;
  let E1 := fresh in let E2 := fresh in let E3 := fresh in let E4 := fresh in let E5 := fresh in let E6 := fresh in
  destruct E as (E1 & E2 & E3 & E4 & E5 & E6); progress rewrite ?E1, ?E2, ?E3, ?E4, ?E5, ?E6;
  clear E1 E2 E3 E4 E5 E6.
Ltac drop_events :=
  repeat match goal with
  | |- context [emit_execution_status_changed ?p ?n ?s] => drop_rows (emit_execution_rows p n s)
  | |- context [emit_step_status_changed ?r ?p ?n ?s] => drop_rows (emit_step_rows r p n s)
  | |- context [emit_of_step ?n ?r ?s] => drop_rows (emit_of_step_rows n r s)
  end.
