(* ===== verification/Authorization.v ===== *)
(** * Users, roles and grants

    The rows of [models/auth.py] that decide what a user may do, the single SQL
    statement of [repositories/authorization.py] and the resolver of
    [services/authorization.py] that asks the same in several queries. *)
From S2P Require Import Prelude PyUuid Rows Preflight.

Record user := User { us_id : uuid; us_status : string; us_deleted_at : option Z }.
Record role := Role { ro_id : uuid; ro_code : string; ro_deleted_at : option Z }.
Record permission := Permission { pe_id : uuid; pe_code : string }.
Record resource_grant := ResourceGrant {
  rg_user_id : option uuid;
  rg_role_id : option uuid;
  rg_resource_type : string;
  rg_resource_id : uuid }.

Record directory := Directory {
  dr_users : list user;
  dr_roles : list role;
  dr_permissions : list permission;
  dr_user_roles : list (uuid * uuid);
  dr_role_permissions : list (uuid * uuid);
  dr_grants : list resource_grant }.

(** ** The statement of [get_resource_authorization_snapshot] *)
Definition live_user (user_id : uuid) (u : user) : bool :=
  bool_decide (us_id u = user_id) && negb (is_some (us_deleted_at u)).
Definition active (u : user) : bool := String.eqb (us_status u) "ACTIVE".
Definition live_role (r : role) : bool := negb (is_some (ro_deleted_at r)).

(** [build_effective_permission_exists]: the joined rows *)
Definition effective_permission_exists (d : directory) (user_id : uuid) (permission_code : string) : bool :=
  existsb (λ u, existsb (λ ur : uuid * uuid, existsb (λ r, existsb (λ rp : uuid * uuid, existsb (λ p,
    bool_decide (ur.1 = us_id u) && bool_decide (ro_id r = ur.2) && bool_decide (rp.1 = ro_id r)
    && bool_decide (pe_id p = rp.2)
    && (live_user user_id u && active u && live_role r && String.eqb (pe_code p) permission_code))
    (dr_permissions d)) (dr_role_permissions d)) (dr_roles d)) (dr_user_roles d)) (dr_users d).

(** [build_effective_resource_grant_exists] *)
Definition live_role_grant (d : directory) (user_id : uuid) (g : resource_grant) : bool :=
  match rg_role_id g with
  | Some role_id =>
      existsb (λ ur : uuid * uuid, existsb (λ r,
        bool_decide (ro_id r = ur.2) && (bool_decide (ur.1 = user_id) && bool_decide (ur.2 = role_id) && live_role r))
        (dr_roles d)) (dr_user_roles d)
  | None => false
  end.
Definition effective_resource_grant_exists (d : directory) (user_id : uuid) (resource_type : string) (resource_id : uuid)
    : bool :=
  existsb (λ g, String.eqb (rg_resource_type g) resource_type && bool_decide (rg_resource_id g = resource_id)
                && (bool_decide (rg_user_id g = Some user_id) || live_role_grant d user_id g)) (dr_grants d).

Definition get_resource_authorization_snapshot (d : directory) (user_id : uuid) (permission_code resource_type : string)
    (resource_id : uuid) : authorization_snapshot :=
  AuthorizationSnapshot
    (existsb (live_user user_id) (dr_users d))
    (existsb (λ u, live_user user_id u && active u) (dr_users d))
    (effective_permission_exists d user_id permission_code)
    (effective_resource_grant_exists d user_id resource_type resource_id).

(** ** The resolver, query by query *)
(** [UserRepository.get] *)
Definition get_user (d : directory) (user_id : uuid) : option user := find_first (live_user user_id) (dr_users d).
(** [UserRoleRepository.list_roles]; the order by code is not observed. *)
Definition list_roles (d : directory) (user_id : uuid) : list role :=
  flat_map (λ ur : uuid * uuid,
    filter (λ r, ro_id r = ur.2 ∧ ur.1 = user_id ∧ live_role r = true) (dr_roles d)) (dr_user_roles d).
Definition list_role_ids (d : directory) (user_id : uuid) : list uuid := ro_id <$> list_roles d user_id.
(** [RolePermissionRepository.list_permissions] *)
Definition list_permissions (d : directory) (role_id : uuid) : list permission :=
  flat_map (λ rp : uuid * uuid,
    filter (λ p, pe_id p = rp.2 ∧ rp.1 = role_id) (dr_permissions d)) (dr_role_permissions d).

Definition get_effective_permission_codes (d : directory) (user_id : uuid) : list string :=
  match get_user d user_id with
  | Some u => if active u then flat_map (λ id, pe_code <$> list_permissions d id) (list_role_ids d user_id) else []
  | None => []
  end.
Definition has_permission (d : directory) (user_id : uuid) (permission_code : string) : bool :=
  bool_decide (permission_code ∈ get_effective_permission_codes d user_id).

(** [ResourceGrantRepository.has_effective_grant] *)
Definition has_effective_grant (d : directory) (user_id : uuid) (resource_type : string) (resource_id : uuid) : bool :=
  (0 <? Z.of_nat (length (filter (λ g, rg_resource_type g = resource_type ∧ rg_resource_id g = resource_id ∧
     (rg_user_id g = Some user_id ∨
      match rg_role_id g with Some r => bool_decide (r ∈ list_role_ids d user_id) | None => false end = true))
     (dr_grants d))))%Z.
Definition has_resource_grant (d : directory) (user_id : uuid) (resource_type : string) (resource_id : uuid) : bool :=
  match get_user d user_id with
  | Some u => active u && has_effective_grant d user_id resource_type resource_id
  | None => false
  end.

(** [authorize_resource]: the decision and its reason code *)
Definition authorize_resource (d : directory) (user_id : uuid) (permission_code resource_type : string)
    (resource_id : uuid) : bool * string :=
  let s := get_resource_authorization_snapshot d user_id permission_code resource_type resource_id in
  if negb (user_exists s) then (false, "USER_NOT_FOUND")
  else if negb (user_active s) then (false, "USER_NOT_ACTIVE")
  else if negb (permission_present s) then (false, "PERMISSION_MISSING")
  else if negb (resource_grant_present s) then (false, "RESOURCE_GRANT_MISSING")
  else (true, "ALLOWED").

(** ** The two agree *)
Lemma elem_of_list_roles d user_id r :
  r ∈ list_roles d user_id ↔ (user_id, ro_id r) ∈ dr_user_roles d ∧ r ∈ dr_roles d ∧ live_role r = true.
Proof.
  unfold list_roles. rewrite list_elem_of_In, in_flat_map. setoid_rewrite <- list_elem_of_In.
  setoid_rewrite list_elem_of_filter. split.
  - intros ([u ro] & Hur & (Hid & Hu & Hl) & Hr). simpl in *. by subst.
  - intros (Hur & Hr & Hl). by exists (user_id, ro_id r).
Qed.

Lemma elem_of_list_role_ids d user_id id :
  id ∈ list_role_ids d user_id ↔ (user_id, id) ∈ dr_user_roles d ∧ ∃ r, r ∈ dr_roles d ∧ ro_id r = id ∧ live_role r = true.
Proof.
  unfold list_role_ids. rewrite list_elem_of_fmap. setoid_rewrite elem_of_list_roles. naive_solver.
Qed.

Lemma elem_of_list_permissions d role_id p :
  p ∈ list_permissions d role_id ↔ (role_id, pe_id p) ∈ dr_role_permissions d ∧ p ∈ dr_permissions d.
Proof.
  unfold list_permissions. rewrite list_elem_of_In, in_flat_map. setoid_rewrite <- list_elem_of_In.
  setoid_rewrite list_elem_of_filter. split.
  - intros ([ro pe] & Hrp & (Hid & Hr) & Hp). simpl in *. by subst.
  - intros (Hrp & Hp). by exists (role_id, pe_id p).
Qed.

Section users.
Context (d : directory).
Hypothesis users_key : NoDup (us_id <$> dr_users d).

Lemma get_user_Some user_id u : get_user d user_id = Some u ↔ u ∈ dr_users d ∧ live_user user_id u = true.
Proof using Type*.
  split; [apply find_first_Some|]. intros [Hu Hl]. unfold get_user. destruct (find_first _ _) as [v|] eqn:E.
  - apply find_first_Some in E as [Hv Hlv]. f_equal. apply (key_inj us_id (dr_users d)); [done..|].
    unfold live_user in Hl, Hlv. inv_res. congruence.
  - rewrite find_first_None in E. specialize (E u Hu). congruence.
Qed.

Lemma active_user user_id :
  existsb (λ u, live_user user_id u && active u) (dr_users d) = true ↔
  ∃ u, get_user d user_id = Some u ∧ active u = true.
Proof using Type*.
  rewrite existsb_elem. split.
  - intros (u & Hu & [Hl Ha]%andb_true_iff). exists u. split; [by apply get_user_Some|done].
  - intros (u & [Hu Hl]%get_user_Some & Ha). exists u. by rewrite Hl, Ha.
Qed.

Lemma has_permission_exists user_id permission_code :
  has_permission d user_id permission_code = effective_permission_exists d user_id permission_code.
Proof using Type*.
  apply Bool.eq_iff_eq_true. unfold has_permission, get_effective_permission_codes, effective_permission_exists.
  rewrite bool_decide_eq_true, existsb_elem. split.
  - destruct (get_user d user_id) as [u|] eqn:Eu; [|by intros ?%elem_of_nil].
    destruct (active u) eqn:Ea; [|by intros ?%elem_of_nil]. apply get_user_Some in Eu as [Hu Hl].
    rewrite list_elem_of_In, in_flat_map. intros (id & Hid%list_elem_of_In & Hp%list_elem_of_In).
    apply elem_of_list_role_ids in Hid as (Hur & r & Hr & Hrid & Hrl).
    apply list_elem_of_fmap in Hp as (p & -> & Hp). apply elem_of_list_permissions in Hp as [Hrp Hp].
    assert (us_id u = user_id) as Huid by (unfold live_user in Hl; by inv_res).
    exists u. split; [done|]. apply existsb_elem. exists (user_id, id). split; [done|].
    apply existsb_elem. exists r. split; [done|]. apply existsb_elem. exists (id, pe_id p). split; [done|].
    apply existsb_elem. exists p. split; [done|]. cbn [fst snd].
    by rewrite Hl, Ea, Hrl, String.eqb_refl, !bool_decide_true by done.
  - intros (u & Hu & H). apply existsb_elem in H as ([u' ro] & Hur & H). apply existsb_elem in H as (r & Hr & H).
    apply existsb_elem in H as ([ro' pe] & Hrp & H). apply existsb_elem in H as (p & Hp & H). simpl in H. inv_res.
    match goal with H : String.eqb _ _ = true |- _ => apply String.eqb_eq in H end. subst.
    assert (us_id u = user_id) as Huid by (match goal with H : live_user _ _ = true |- _ => unfold live_user in H; by inv_res end).
    assert (get_user d user_id = Some u) as -> by (by apply get_user_Some).
    match goal with H : active u = true |- _ => rewrite H end.
    rewrite list_elem_of_In, in_flat_map. exists (ro_id r). rewrite <- !list_elem_of_In. split.
    + apply elem_of_list_role_ids. subst. split; [done|]. by exists r.
    + apply list_elem_of_fmap. exists p. split; [done|]. by apply elem_of_list_permissions.
Qed.

Lemma has_effective_grant_exists user_id resource_type resource_id :
  has_effective_grant d user_id resource_type resource_id = effective_resource_grant_exists d user_id resource_type resource_id.
Proof.
  apply Bool.eq_iff_eq_true. unfold has_effective_grant, effective_resource_grant_exists.
  rewrite Z.ltb_lt, existsb_elem.
  assert (∀ g, match rg_role_id g with Some r => bool_decide (r ∈ list_role_ids d user_id) | None => false end
               = live_role_grant d user_id g) as Hg.
  { intros g. unfold live_role_grant. destruct (rg_role_id g) as [role_id|]; [|done].
    apply Bool.eq_iff_eq_true. rewrite bool_decide_eq_true, elem_of_list_role_ids, existsb_elem. split.
    - intros (Hur & r & Hr & Hid & Hl). exists (user_id, role_id). split; [done|]. apply existsb_elem. exists r.
      split; [done|]. simpl. by rewrite !bool_decide_true, Hl by done.
    - intros ([u ro] & Hur & H). apply existsb_elem in H as (r & Hr & H). simpl in H. inv_res. subst.
      split; [done|]. by exists r. }
  split.
  - intros Hl. destruct (filter _ (dr_grants d)) as [|g l] eqn:E; [simpl in Hl; lia|].
    assert (g ∈ g :: l) as Hin by left. rewrite <- E, list_elem_of_filter in Hin. destruct Hin as ((Ht & Hi & Hu) & Hin).
    exists g. split; [done|]. rewrite Ht, String.eqb_refl, (bool_decide_true (_ = resource_id)) by done. cbn [andb].
    rewrite Hg in Hu.
    destruct Hu as [Hu|Hu]; [by rewrite bool_decide_true|]. rewrite Hu. by rewrite orb_true_r.
  - intros (g & Hin & [[Ht%String.eqb_eq Hi%bool_decide_eq_true]%andb_true_iff H]%andb_true_iff).
    assert (g ∈ filter (λ g, rg_resource_type g = resource_type ∧ rg_resource_id g = resource_id ∧
       (rg_user_id g = Some user_id ∨ match rg_role_id g with Some r => bool_decide (r ∈ list_role_ids d user_id) | None => false end = true))
       (dr_grants d)) as Hf.
    { apply list_elem_of_filter. split; [|done]. split; [done|]. split; [done|]. rewrite Hg.
      apply orb_true_iff in H as [H|H]; [left; by apply bool_decide_eq_true in H|by right]. }
    destruct (filter _ _); [by apply elem_of_nil in Hf|]. simpl. lia.
Qed.
End users.

