(* ===== verification/ApprovalContext.v ===== *)
(** * What an approval is bound to

    The snapshots an approval request is bound to by hash, for a tool whose
    policy asks for approval ([approval/context.py]) and for an APPROVAL step of
    the plan ([approval/step_context.py]), and the pure rules of
    [approval/decision.py]: who may decide and when the votes decide. *)
From S2P Require Import Prelude PyStr PyDict Json PyUuid CanonicalHash Domain LoopRuntime BindingResolver Rows.
From S2P Require Import PolicySelection Preflight.

Definition APPROVAL_CONTEXT_SCHEMA_VERSION : string := "approval_context.v1".
Definition APPROVAL_STEP_CONTEXT_SCHEMA_VERSION : string := "approval_step_context.v1".
Definition APPROVAL_KIND_AUTHORABLE_STEP : string := "AUTHORABLE_STEP".

(** [uuid.UUID(str(v))]: of the non-strings only an integer can print as a UUID. *)
Definition uuid_of_json (v : json) : option uuid :=
  match v with JStr s => uuid_parse s | JInt n => uuid_parse (Z_str n) | _ => None end.

(** [v in {...}] for a set of strings: a list or an object has no hash. *)
Definition json_in_strs (v : json) (l : list string) : res bool :=
  match v with
  | JStr s => Ok (bool_decide (s ∈ l))
  | JArr _ | JObj _ => Err (PyException "TypeError")
  | _ => Ok false
  end.

(** [isinstance(v, str) and v] *)
Definition nonempty_str (v : json) : bool := match v with JStr s => negb (str_empty s) | _ => false end.

(** ** [validate_approver_scope] *)
Definition role_code (v : json) : res string :=
  match v with
  | JStr s => if blank s then Err (conflict "ApprovalRequest approval_scope.role_codes contains a blank or non-string code.")
              else Ok (strip s)
  | _ => Err (conflict "ApprovalRequest approval_scope.role_codes contains a blank or non-string code.")
  end.

Definition validate_approver_scope (scope : json) : res (option (list string)) :=
  match scope with
  | JNull => Ok None
  | JObj [] => Ok None
  | JObj d =>
      _ ← raise_if (negb (same_set (dict_keys d) ["role_codes"]))
            (conflict "ApprovalRequest approval_scope has unsupported keys.");
      match get_or_none "role_codes" d with
      | JArr (c :: cs) => codes ← res_map role_code (c :: cs); Ok (Some codes)
      | _ => Err (conflict "ApprovalRequest approval_scope.role_codes must be a non-empty list.")
      end
  | _ => Err (conflict "ApprovalRequest approval_scope is malformed.")
  end.

(** ** [aggregate_decision] *)
(** [ApprovalDecisionValue] *)
Inductive decision_value := APPROVE | REJECT.

#[export] Instance decision_value_eq_dec : EqDecision decision_value.
Proof. solve_decision. Defined.

Record approval_decision := ApprovalDecision {
  ad_id : uuid;
  ad_approval_request_id : uuid;
  ad_decided_by : uuid;
  ad_decision : decision_value;
  ad_comment : option string;
  ad_context_hash : string;
  ad_decided_at : Z }.

Definition votes (v : decision_value) (decisions : list approval_decision) : Z :=
  Z.of_nat (length (filter (λ d, ad_decision d = v) decisions)).

Definition aggregate_decision (mode : string) (required_approvals : Z) (decisions : list approval_decision)
    : res (option approval_status) :=
  _ ← raise_if (required_approvals <? 1)%Z (conflict "ApprovalRequest.required_approvals must be >= 1.");
  let approve_count := votes APPROVE decisions in
  let reject_count := votes REJECT decisions in
  if String.eqb mode "ANY" then
    Ok (if (1 <=? approve_count)%Z then Some ApprovalStatus.APPROVED
        else if (1 <=? reject_count)%Z then Some ApprovalStatus.REJECTED else None)
  else if String.eqb mode "ALL" then
    Ok (if (1 <=? reject_count)%Z then Some ApprovalStatus.REJECTED
        else if (required_approvals <=? approve_count)%Z then Some ApprovalStatus.APPROVED else None)
  else if String.eqb mode "QUORUM" then
    Ok (if (required_approvals <=? approve_count)%Z then Some ApprovalStatus.APPROVED
        else if (required_approvals <=? reject_count)%Z then Some ApprovalStatus.REJECTED else None)
  else Err (conflict "Unsupported decision_mode {mode!r}.").

(** ** The context of a tool call *)
(** [_assert_secret_safe_resolved_input]: the loop body *)
Definition assert_reference_only (kv : string * json) : res unit :=
  match kv.2 with
  | JObj d =>
      if py_eq (get_or_none "kind" d) (JStr "SECRET_REF") then
        _ ← raise_if (negb (same_set (dict_keys d) ["kind"; "secret_id"]))
              (precondition_failed "SECRET_REF for {key!r} must be reference-only (kind + secret_id).");
        raise_if (negb (is_some (uuid_of_json (get_or_none "secret_id" d))))
          (precondition_failed "SECRET_REF secret_id for {key!r} is invalid.")
      else Ok tt
  | _ => Ok tt
  end.
Definition assert_secret_safe_resolved_input (resolved_input : dict json) : res unit :=
  res_iter assert_reference_only resolved_input.

Definition approval_context_base (e : execution) (s : execution_step) (tool_version_id : uuid) (tp : mcp_tool_policy)
    (ap : approval_policy) (resolved_input : dict json) : dict json :=
  [("schema_version", JStr APPROVAL_CONTEXT_SCHEMA_VERSION); ("execution_id", JStr (uuid_str (ex_id e)));
   ("step_execution_id", JStr (uuid_str (es_id s))); ("step_key", JStr (es_step_key s));
   ("requester_id", JStr (uuid_str (ex_requester_id e))); ("mcp_tool_version_id", JStr (uuid_str tool_version_id));
   ("plan_hash", JStr (ex_plan_hash e)); ("risk_class", JStr (mp_risk_class tp)); ("resolved_input", JObj resolved_input);
   ("tool_policy", JObj [("id", JStr (uuid_str (mp_id tp))); ("requires_approval", JBool (mp_requires_approval tp));
                         ("requires_confirmation", JBool (mp_requires_confirmation tp));
                         ("approval_policy_id", uuid_json (mp_approval_policy_id tp)); ("risk_class", JStr (mp_risk_class tp))]);
   ("approval_policy", JObj [("id", JStr (uuid_str (ap_id ap))); ("status", JStr (ap_status ap));
                             ("decision_mode", JStr (ap_decision_mode ap));
                             ("required_approvals", JInt (ap_required_approvals ap));
                             ("default_expiry_seconds", JInt (ap_default_expiry_seconds ap));
                             ("allow_self_approval", JBool (ap_allow_self_approval ap));
                             ("reject_comment_required", JBool (ap_reject_comment_required ap))])].

(** The keys added for each source *)
Definition approval_context_source (e : execution) : res (dict json) :=
  if String.eqb (ex_source_type e) MANUAL_TOOL_TEST then
    _ ← raise_if (is_some (ex_agent_version_id e) || is_some (ex_workflow_version_id e))
          (precondition_failed "MANUAL_TOOL_TEST approval context must not include agent_version_id or workflow_version_id.");
    _ ← raise_if (is_some (ex_schedule_occurrence_id e))
          (precondition_failed "MANUAL_TOOL_TEST approval context must not include schedule_occurrence_id.");
    Ok [("agent_version_id", JNull); ("source_type", JStr MANUAL_TOOL_TEST)]
  else
    match ex_workflow_version_id e with
    | Some w =>
        _ ← raise_if (is_some (ex_agent_version_id e))
              (precondition_failed "ToolPolicy approval context cannot include both agent_version_id and workflow_version_id.");
        _ ← raise_if (str_empty (ex_source_type e))
              (precondition_failed "Workflow ToolPolicy approval context requires source_type.");
        Ok [("agent_version_id", JNull); ("workflow_version_id", JStr (uuid_str w)); ("source_type", JStr (ex_source_type e))]
    | None =>
        a ← of_option (precondition_failed "Approval context requires agent_version_id.") (ex_agent_version_id e);
        Ok [("agent_version_id", JStr (uuid_str a))]
    end.

Definition build_approval_context_snapshot (e : execution) (s : execution_step) (tp : mcp_tool_policy)
    (ap : approval_policy) (resolved_input : dict json) : res (dict json) :=
  tool_version_id ← of_option (precondition_failed "Approval context requires mcp_tool_version_id.") (es_mcp_tool_version_id s);
  _ ← assert_secret_safe_resolved_input resolved_input;
  source ← approval_context_source e;
  Ok (approval_context_base e s tool_version_id tp ap resolved_input ++ source).

Definition compute_approval_context_hash (context_snapshot : dict json) : res string :=
  compute_canonical_json_hash (JObj context_snapshot).

(** ** The context of an APPROVAL step *)
Definition corrupted (field : string) : py_error :=
  conflict ("ApprovalRequest context_snapshot " +:+ field +:+ " is corrupted.").
Definition parse_context_uuid (field : string) (value : json) : res uuid := of_option (corrupted field) (uuid_of_json value).
Definition parse_optional_context_uuid (field : string) (value : json) : res (option uuid) :=
  if is_none value then Ok None else u ← parse_context_uuid field value; Ok (Some u).
Definition require_positive_int (field : string) (value : json) : res unit :=
  match value with JInt n => raise_if (n <? 1)%Z (corrupted field) | _ => Err (corrupted field) end.
Definition require_bool (field : string) (value : json) : res unit :=
  raise_if (negb (is_bool value)) (corrupted field).

Definition POLICY_SNAPSHOT_FIELDS : list string :=
  ["id"; "status"; "decision_mode"; "required_approvals"; "approver_scope"; "default_expiry_seconds";
   "allow_self_approval"; "reject_comment_required"].
Definition UPSTREAM_EVIDENCE_FIELDS : list string :=
  ["step_key"; "step_type"; "status"; "condition_result"; "error_code"; "result_inline_hash"].
Definition CANONICAL_STEP_TYPES : list string := ["TOOL"; "CONDITION"; "LOOP"; "JOIN"; "APPROVAL"].
Definition CANONICAL_STEP_STATUSES : list string :=
  step_status_value <$> [StepStatus.PENDING; StepStatus.READY; StepStatus.RUNNING; StepStatus.WAITING_INPUT;
    StepStatus.WAITING_APPROVAL; StepStatus.SUCCEEDED; StepStatus.FAILED; StepStatus.SKIPPED; StepStatus.CANCELLED;
    StepStatus.TIMED_OUT; StepStatus.UNKNOWN_OUTCOME].

(** [_validate_approval_policy_snapshot]; the field set is exact, so the
    lookups after its check cannot fail. *)
Definition validate_approval_policy_snapshot (approval_policy : json) : res unit :=
  match approval_policy with
  | JObj d =>
      _ ← raise_if (negb (same_set (dict_keys d) POLICY_SNAPSHOT_FIELDS))
            (conflict "ApprovalRequest approval_policy snapshot fields are corrupted.");
      _ ← parse_context_uuid "approval_policy.id" (get_or_none "id" d);
      status ← json_in_strs (get_or_none "status" d) ["ACTIVE"; "INACTIVE"];
      _ ← raise_if (negb status) (conflict "ApprovalRequest approval_policy.status is corrupted.");
      mode ← json_in_strs (get_or_none "decision_mode" d) DECISION_MODES;
      _ ← raise_if (negb mode) (conflict "ApprovalRequest approval_policy.decision_mode is corrupted.");
      _ ← require_positive_int "approval_policy.required_approvals" (get_or_none "required_approvals" d);
      _ ← raise_if (match get_or_none "default_expiry_seconds" d with JInt n => (n <=? 0)%Z | _ => true end)
            (conflict "ApprovalRequest approval_policy.default_expiry_seconds is corrupted.");
      _ ← require_bool "approval_policy.allow_self_approval" (get_or_none "allow_self_approval" d);
      _ ← require_bool "approval_policy.reject_comment_required" (get_or_none "reject_comment_required" d);
      _ ← validate_approver_scope (get_or_none "approver_scope" d);
      Ok tt
  | _ => Err (conflict "ApprovalRequest approval_policy snapshot is corrupted.")
  end.

Definition upstream_corrupted (field : string) : py_error :=
  conflict ("ApprovalRequest upstream_evidence[{index}]" +:+ field +:+ " is corrupted.").
Definition validate_upstream_evidence_item (item : json) : res unit :=
  match item with
  | JObj d =>
      _ ← raise_if (negb (same_set (dict_keys d) UPSTREAM_EVIDENCE_FIELDS))
            (conflict "ApprovalRequest upstream_evidence[{index}] fields are corrupted.");
      _ ← raise_if (negb (nonempty_str (get_or_none "step_key" d))) (upstream_corrupted ".step_key");
      type ← json_in_strs (get_or_none "step_type" d) CANONICAL_STEP_TYPES;
      _ ← raise_if (negb type) (upstream_corrupted ".step_type");
      status ← json_in_strs (get_or_none "status" d) CANONICAL_STEP_STATUSES;
      _ ← raise_if (negb status) (upstream_corrupted ".status");
      let condition_result := get_or_none "condition_result" d in
      _ ← raise_if (negb (is_none condition_result) && negb (is_bool condition_result)) (upstream_corrupted ".condition_result");
      let error_code := get_or_none "error_code" d in
      _ ← raise_if (negb (is_none error_code) && negb (is_str error_code)) (upstream_corrupted ".error_code");
      raise_if (match get_or_none "result_inline_hash" d with
                | JNull => false | JStr h => negb (is_sha256_hex h) | _ => true
                end) (upstream_corrupted ".result_inline_hash")
  | _ => Err (upstream_corrupted "")
  end.

(** [hash_result_inline] *)
Definition hash_result_inline (result_inline : json) : res json :=
  if is_none result_inline then Ok JNull else h ← compute_canonical_json_hash result_inline; Ok (JStr h).

(** [_transitive_ancestor_keys] *)
Definition transitive_ancestor_keys (p : plan) (step_key : string) : res (list string) :=
  w ← ancestors_walk (S (length (pl_steps p))) (plan_deps p) [] step_key;
  Ok (filter (λ k, k ∈ w.2) (ps_id <$> pl_steps p)).

Definition upstream_evidence_item (s : execution_step) : res json :=
  h ← hash_result_inline (es_result_inline s);
  Ok (JObj [("step_key", JStr (es_step_key s)); ("step_type", JStr (step_type_value (es_step_type s)));
            ("status", JStr (step_status_value (es_status s))); ("condition_result", opt_json JBool (es_condition_result s));
            ("error_code", str_json (es_error_code s)); ("result_inline_hash", h)]).
Definition build_upstream_evidence (p : plan) (owning_step_key : string) (by_key : dict execution_step) : res (list json) :=
  keys ← transitive_ancestor_keys p owning_step_key;
  res_map (λ key, s ← dict_item key by_key; upstream_evidence_item s) keys.

Section step_context.
Context {schema : PlanSchema}.

(** The checks of [build_approval_step_context_snapshot] *)
Definition check_approval_step (s : execution_step) (p : plan) (ap : approval_policy) : res unit :=
  _ ← raise_if (negb (bool_decide (es_step_type s = StepType.APPROVAL)))
        (precondition_failed "Authorable approval context requires APPROVAL Step.");
  _ ← raise_if (is_some (es_mcp_tool_version_id s)) (precondition_failed "APPROVAL Step must have null mcp_tool_version_id.");
  _ ← raise_if (negb (String.eqb (ap_status ap) "ACTIVE"))
        (precondition_failed "ApprovalPolicy must be ACTIVE for authorable APPROVAL.");
  _ ← raise_if (ap_default_expiry_seconds ap <=? 0)%Z
        (precondition_failed "ApprovalPolicy.default_expiry_seconds must be > 0.");
  let invalid := precondition_failed "APPROVAL Step snapshot/config is invalid." in
  plan_step ← of_option invalid (validate_step (es_step_snapshot s));
  cfg ← of_option invalid (validate_approval_config (ps_config plan_step));
  _ ← raise_if (negb (py_eq (dump_step plan_step) (es_step_snapshot s)))
        (precondition_failed "APPROVAL step_snapshot drift vs Plan projection.");
  _ ← raise_if (match find_first (λ ps, String.eqb (ps_id ps) (es_step_key s)) (pl_steps p) with
                | Some expected => negb (py_eq (dump_step expected) (es_step_snapshot s))
                | None => true
                end) (precondition_failed "APPROVAL Step is not an exact immutable Plan projection.");
  raise_if (negb (bool_decide (ac_approval_policy_id cfg = ap_id ap)))
    (precondition_failed "ApprovalPolicy id does not match APPROVAL Step config.").

Definition build_approval_step_context_snapshot (e : execution) (s : execution_step) (p : plan) (ap : approval_policy)
    (steps : list execution_step) : res (dict json) :=
  _ ← check_approval_step s p ap;
  upstream ← build_upstream_evidence p (es_step_key s) (dict_comp es_step_key id steps);
  Ok [("schema_version", JStr APPROVAL_STEP_CONTEXT_SCHEMA_VERSION); ("approval_kind", JStr APPROVAL_KIND_AUTHORABLE_STEP);
      ("execution_id", JStr (uuid_str (ex_id e))); ("step_execution_id", JStr (uuid_str (es_id s)));
      ("step_key", JStr (es_step_key s)); ("requester_id", JStr (uuid_str (ex_requester_id e)));
      ("source_type", JStr (ex_source_type e)); ("trigger_type", JStr (ex_trigger_type e));
      ("agent_version_id", uuid_json (ex_agent_version_id e)); ("workflow_version_id", uuid_json (ex_workflow_version_id e));
      ("plan_hash", JStr (ex_plan_hash e)); ("approval_policy", JObj (approval_policy_block ap));
      ("upstream_evidence", JArr upstream)].
End step_context.

Definition compute_approval_step_context_hash (context_snapshot : dict json) : res string :=
  compute_canonical_json_hash (JObj context_snapshot).

(** [for key in required: if key not in snapshot: raise] *)
Definition require_key (d : dict json) (key : string) : res unit :=
  raise_if (negb (dict_has key d)) (conflict "ApprovalRequest context_snapshot missing {key!r}.").

Definition STEP_CONTEXT_REQUIRED : list string :=
  ["execution_id"; "step_execution_id"; "step_key"; "requester_id"; "source_type"; "trigger_type"; "agent_version_id";
   "workflow_version_id"; "plan_hash"; "approval_policy"; "upstream_evidence"].

Definition validate_stored_approval_step_context (snapshot : json) : res (dict json) :=
  match snapshot with
  | JObj d =>
      _ ← raise_if (negb (py_eq (get_or_none "schema_version" d) (JStr APPROVAL_STEP_CONTEXT_SCHEMA_VERSION)))
            (conflict "ApprovalRequest context_snapshot schema is invalid.");
      _ ← raise_if (negb (py_eq (get_or_none "approval_kind" d) (JStr APPROVAL_KIND_AUTHORABLE_STEP)))
            (conflict "Authorable ApprovalRequest approval_kind is invalid.");
      _ ← res_iter (require_key d) STEP_CONTEXT_REQUIRED;
      _ ← parse_context_uuid "execution_id" (get_or_none "execution_id" d);
      _ ← parse_context_uuid "step_execution_id" (get_or_none "step_execution_id" d);
      _ ← parse_context_uuid "requester_id" (get_or_none "requester_id" d);
      _ ← parse_optional_context_uuid "agent_version_id" (get_or_none "agent_version_id" d);
      _ ← parse_optional_context_uuid "workflow_version_id" (get_or_none "workflow_version_id" d);
      _ ← raise_if (negb (nonempty_str (get_or_none "step_key" d))) (corrupted "step_key");
      _ ← raise_if (negb (nonempty_str (get_or_none "plan_hash" d))) (corrupted "plan_hash");
      _ ← validate_approval_policy_snapshot (get_or_none "approval_policy" d);
      match get_or_none "upstream_evidence" d with
      | JArr upstream => _ ← res_iter validate_upstream_evidence_item upstream; Ok d
      | _ => Err (conflict "ApprovalRequest upstream_evidence must be a list.")
      end
  | _ => Err (conflict "ApprovalRequest context_snapshot is corrupted.")
  end.

(** [snapshot\["k"\]] *)
Definition json_item (k : string) (d : dict json) : res json := dict_item k d.

Definition assert_approval_step_lineage_matches (e : execution) (s : execution_step) (d : dict json) : res unit :=
  ex ← json_item "execution_id" d; snap_exec ← parse_context_uuid "execution_id" ex;
  st ← json_item "step_execution_id" d; snap_step ← parse_context_uuid "step_execution_id" st;
  rq ← json_item "requester_id" d; snap_requester ← parse_context_uuid "requester_id" rq;
  snap_agent ← parse_optional_context_uuid "agent_version_id" (get_or_none "agent_version_id" d);
  snap_workflow ← parse_optional_context_uuid "workflow_version_id" (get_or_none "workflow_version_id" d);
  _ ← match get_or_none "approval_policy" d with
      | JObj policy => match dict_get "id" policy with
                       | Some id => _ ← parse_context_uuid "approval_policy.id" id; Ok tt
                       | None => Ok tt
                       end
      | _ => Ok tt
      end;
  raise_if (negb (bool_decide (snap_exec = ex_id e)) || negb (bool_decide (snap_step = es_id s))
            || negb (bool_decide (snap_requester = ex_requester_id e))
            || negb (bool_decide (snap_agent = ex_agent_version_id e))
            || negb (bool_decide (snap_workflow = ex_workflow_version_id e))
            || negb (py_eq (get_or_none "step_key" d) (JStr (es_step_key s)))
            || negb (py_eq (get_or_none "plan_hash" d) (JStr (ex_plan_hash e)))
            || negb (py_eq (get_or_none "source_type" d) (JStr (ex_source_type e)))
            || negb (py_eq (get_or_none "trigger_type" d) (JStr (ex_trigger_type e)))
            || negb (bool_decide (es_step_type s = StepType.APPROVAL)))
    (conflict "Authorable ApprovalRequest context_snapshot lineage does not match Execution/Step.").

(** [project_safe_approval_step_context]: [snapshot.get("k") or default] keeps
    a falsy value out, which none of the branches below looks into. *)
Definition safe_upstream_item (item : json) : option json :=
  match item with
  | JObj d => Some (JObj [("step_key", get_or_none "step_key" d); ("status", get_or_none "status" d)])
  | _ => None
  end.
Definition project_safe_approval_step_context (d : dict json) : dict json :=
  let safe_upstream := match get_or_none "upstream_evidence" d with JArr items => omap safe_upstream_item items | _ => [] end in
  let policy_id := match get_or_none "approval_policy" d with JObj policy => get_or_none "id" policy | _ => JNull end in
  [("approval_kind", JStr APPROVAL_KIND_AUTHORABLE_STEP); ("step_key", get_or_none "step_key" d);
   ("approval_policy_id", policy_id); ("upstream_steps", JArr safe_upstream)].
