(* ===== verification/Outbox.v ===== *)
(** * The durable outbox ([repositories/outbox.py], [execution/queue.py])

    Rows that announce a message to the broker, written in the transaction that
    makes the message due; the staging of CREATED executions; and the relay
    that publishes the rows at least once.

    [flush] checks the unique [dedupe_key]; the broker is a parameter, a
    function of the message that raises or returns.  Row locks are left out:
    each call is a function of the rows. *)
From S2P Require Import Prelude PyStr PyDict Json PyUuid CanonicalHash Domain Rows PolicySelection Claim Preflight.
From S2P Require Import ApprovalContext.

Record outbox_event := OutboxEvent {
  ox_id : uuid;
  ox_event_type : string;
  ox_aggregate_type : string;
  ox_aggregate_id : uuid;
  ox_dedupe_key : string;
  ox_payload : json;
  ox_created_at : Z;
  ox_last_attempt_at : option Z;
  ox_published_at : option Z;
  ox_publish_attempt_count : Z;
  ox_last_error_code : option string;
  ox_lock_version : Z }.

(** ** [OutboxRepository] *)
(** [session.add(row)] and the flush that checks the unique constraints *)
Definition insert_outbox (row : outbox_event) (rows : list outbox_event) : res (list outbox_event) :=
  _ ← raise_if (existsb (λ r, bool_decide (ox_id r = ox_id row)
                            || String.eqb (ox_dedupe_key r) (ox_dedupe_key row)) rows)
        (PyException "IntegrityError");
  Ok (rows ++ [row]).

(** The arguments every constructor below passes alike *)
Definition new_outbox (id : uuid) (event_type aggregate_type : string) (aggregate_id : uuid) (dedupe_key : string)
    (payload : dict json) (created_at : Z) : outbox_event :=
  OutboxEvent id event_type aggregate_type aggregate_id dedupe_key (JObj payload) created_at None None 0 None 1.

Definition initial_dedupe (execution_id : uuid) : string :=
  "execution:" +:+ uuid_str execution_id +:+ ":initial".
Definition approval_resume_dedupe (execution_id approval_request_id : uuid) : string :=
  "execution:" +:+ uuid_str execution_id +:+ ":approval:" +:+ uuid_str approval_request_id +:+ ":resume".
Definition mrtr_resume_dedupe (execution_id input_request_id : uuid) : string :=
  "execution:" +:+ uuid_str execution_id +:+ ":mrtr:" +:+ uuid_str input_request_id +:+ ":resume".
Definition factory_job_dedupe (job_id : uuid) : string := "factory_job:" +:+ uuid_str job_id +:+ ":openapi_analyze".
Definition factory_test_run_dedupe (test_run_id : uuid) : string :=
  "factory_test_run:" +:+ uuid_str test_run_id +:+ ":sandbox_test".
Definition tool_embedding_prefix (tool_version_id embedding_profile_id : uuid) : string :=
  "tool_embedding:" +:+ uuid_str tool_version_id +:+ ":" +:+ uuid_str embedding_profile_id +:+ ":ensure:".

Definition create_execution_dispatch (id execution_id : uuid) (created_at : Z) : outbox_event :=
  new_outbox id "EXECUTION_DISPATCH" "EXECUTION" execution_id (initial_dedupe execution_id)
    [("execution_id", JStr (uuid_str execution_id))] created_at.
Definition create_execution_approval_resume (id execution_id approval_request_id : uuid) (created_at : Z) : outbox_event :=
  new_outbox id "EXECUTION_APPROVAL_RESUME" "EXECUTION" execution_id
    (approval_resume_dedupe execution_id approval_request_id)
    [("execution_id", JStr (uuid_str execution_id)); ("approval_request_id", JStr (uuid_str approval_request_id))]
    created_at.
Definition create_execution_mrtr_resume (id execution_id input_request_id : uuid) (created_at : Z) : outbox_event :=
  new_outbox id "EXECUTION_MRTR_RESUME" "EXECUTION" execution_id (mrtr_resume_dedupe execution_id input_request_id)
    [("execution_id", JStr (uuid_str execution_id)); ("input_request_id", JStr (uuid_str input_request_id))] created_at.
Definition create_factory_job_dispatch (id job_id : uuid) (created_at : Z) : outbox_event :=
  new_outbox id "FACTORY_JOB_DISPATCH" "TOOL_FACTORY_JOB" job_id (factory_job_dedupe job_id)
    [("job_id", JStr (uuid_str job_id))] created_at.
Definition create_factory_test_run_dispatch (id test_run_id : uuid) (created_at : Z) : outbox_event :=
  new_outbox id "FACTORY_TEST_RUN_DISPATCH" "TOOL_FACTORY_TEST_RUN" test_run_id (factory_test_run_dedupe test_run_id)
    [("test_run_id", JStr (uuid_str test_run_id))] created_at.
(** [id] is the occurrence id as well *)
Definition create_tool_embedding_ensure (id tool_version_id embedding_profile_id : uuid) (created_at : Z) : outbox_event :=
  new_outbox id "TOOL_EMBEDDING_ENSURE" "MCP_TOOL_VERSION" tool_version_id
    (tool_embedding_prefix tool_version_id embedding_profile_id +:+ uuid_str id)
    [("tool_version_id", JStr (uuid_str tool_version_id)); ("embedding_profile_id", JStr (uuid_str embedding_profile_id))]
    created_at.

(** [order_by(created_at.asc(), id.asc())] *)
Definition outbox_order (a b : outbox_event) : bool :=
  (ox_created_at a <? ox_created_at b)%Z || (ox_created_at a =? ox_created_at b)%Z && (ox_id a <=? ox_id b)%N.
Definition outbox_order_desc (a b : outbox_event) : bool :=
  (ox_created_at b <? ox_created_at a)%Z || (ox_created_at a =? ox_created_at b)%Z && (ox_id b <=? ox_id a)%N.

Definition ensure_of_profile (embedding_profile_id : uuid) (r : outbox_event) : bool :=
  match ox_payload r with
  | JObj payload => py_eq (get_or_none "embedding_profile_id" payload) (JStr (uuid_str embedding_profile_id))
  | _ => false
  end.
Definition find_unpublished_tool_embedding_ensure (tool_version_id embedding_profile_id : uuid)
    (rows : list outbox_event) : option outbox_event :=
  find_first (ensure_of_profile embedding_profile_id)
    (sort_by outbox_order (filter (λ r, ox_event_type r = "TOOL_EMBEDDING_ENSURE" ∧ ox_published_at r = None ∧
                                        ox_aggregate_id r = tool_version_id) rows)).
Definition find_latest_tool_embedding_ensure (tool_version_id embedding_profile_id : uuid)
    (rows : list outbox_event) : option outbox_event :=
  find_first (ensure_of_profile embedding_profile_id)
    (sort_by outbox_order_desc (filter (λ r, ox_event_type r = "TOOL_EMBEDDING_ENSURE" ∧
                                             ox_aggregate_id r = tool_version_id) rows)).

Definition claim_unpublished_batch (limit : Z) (rows : list outbox_event) : list outbox_event :=
  take (Z.to_nat limit)
    (sort_by outbox_order (filter (λ r, ox_published_at r = None ∧ ox_event_type r ≠ "AGENT_SCHEDULE_PLAN") rows)).

(** [mark_published] and [record_publish_failure] *)
Definition publish_attempt (published_at : option Z) (error : option string) (now : Z) (r : outbox_event) : outbox_event :=
  OutboxEvent (ox_id r) (ox_event_type r) (ox_aggregate_type r) (ox_aggregate_id r) (ox_dedupe_key r) (ox_payload r)
    (ox_created_at r) (Some now) published_at (ox_publish_attempt_count r + 1) error (ox_lock_version r + 1).
Definition mark_published (now : Z) : outbox_event → outbox_event := publish_attempt (Some now) None now.
Definition record_publish_failure (now : Z) : outbox_event → outbox_event :=
  publish_attempt None (Some "PUBLISH_FAILED") now.

(** ** Validation of a row ([execution/queue.py]) *)
(** The payload is an object with exactly the given keys, each a UUID. *)
Definition payload_uuids (message : string) (keys : list string) (payload : json) : res (list uuid) :=
  match payload with
  | JObj d =>
      _ ← raise_if (negb (same_set (dict_keys d) keys)) (conflict message);
      res_map (λ k, of_option (conflict message) (uuid_of_json (get_or_none k d))) keys
  | _ => Err (conflict message)
  end.

Definition lineage_matches (r : outbox_event) (event_type aggregate_type : string) (aggregate_id : uuid)
    (dedupe_ok : bool) : bool :=
  String.eqb (ox_event_type r) event_type && String.eqb (ox_aggregate_type r) aggregate_type
  && bool_decide (aggregate_id = ox_aggregate_id r) && dedupe_ok.

(** A message with one id, and one with two *)
Definition validate_one (what event_type aggregate_type key : string) (dedupe : uuid → string) (r : outbox_event)
    : res uuid :=
  ids ← payload_uuids (what +:+ " Outbox payload is corrupted.") [key] (ox_payload r);
  match ids with
  | [id] =>
      _ ← raise_if (negb (lineage_matches r event_type aggregate_type id (String.eqb (ox_dedupe_key r) (dedupe id))))
            (conflict (what +:+ " Outbox lineage is corrupted."));
      Ok id
  | _ => Err (PyException "KeyError")
  end.
Definition validate_two (what event_type aggregate_type key1 key2 : string) (dedupe_ok : uuid → uuid → string → bool)
    (r : outbox_event) : res (uuid * uuid) :=
  ids ← payload_uuids (what +:+ " Outbox payload is corrupted.") [key1; key2] (ox_payload r);
  match ids with
  | [id1; id2] =>
      _ ← raise_if (negb (lineage_matches r event_type aggregate_type id1 (dedupe_ok id1 id2 (ox_dedupe_key r))))
            (conflict (what +:+ " Outbox lineage is corrupted."));
      Ok (id1, id2)
  | _ => Err (PyException "KeyError")
  end.

Definition validate_execution_dispatch_event : outbox_event → res uuid :=
  validate_one "Execution dispatch" "EXECUTION_DISPATCH" "EXECUTION" "execution_id" initial_dedupe.
Definition validate_execution_approval_resume_event : outbox_event → res (uuid * uuid) :=
  validate_two "Approval resume" "EXECUTION_APPROVAL_RESUME" "EXECUTION" "execution_id" "approval_request_id"
    (λ e a key, String.eqb key (approval_resume_dedupe e a)).
Definition validate_execution_mrtr_resume_event : outbox_event → res (uuid * uuid) :=
  validate_two "MRTR resume" "EXECUTION_MRTR_RESUME" "EXECUTION" "execution_id" "input_request_id"
    (λ e i key, String.eqb key (mrtr_resume_dedupe e i)).
Definition validate_factory_job_dispatch_event : outbox_event → res uuid :=
  validate_one "Factory Job dispatch" "FACTORY_JOB_DISPATCH" "TOOL_FACTORY_JOB" "job_id" factory_job_dedupe.
Definition validate_factory_test_run_dispatch_event : outbox_event → res uuid :=
  validate_one "Factory TestRun dispatch" "FACTORY_TEST_RUN_DISPATCH" "TOOL_FACTORY_TEST_RUN" "test_run_id"
    factory_test_run_dedupe.
Definition validate_tool_embedding_ensure_event : outbox_event → res (uuid * uuid) :=
  validate_two "ToolEmbedding ensure" "TOOL_EMBEDDING_ENSURE" "MCP_TOOL_VERSION" "tool_version_id" "embedding_profile_id"
    (λ v p key, String.prefix (tool_embedding_prefix v p) key).

(** ** The relay *)
(** The calls of [ExecutionQueuePublisher] *)
Inductive publication :=
| PublishExecution (execution_id outbox_event_id : uuid)
| PublishApprovalResume (execution_id approval_request_id outbox_event_id : uuid)
| PublishMrtrResume (execution_id input_request_id outbox_event_id : uuid)
| PublishFactoryJob (job_id outbox_event_id : uuid)
| PublishFactoryTestRun (test_run_id outbox_event_id : uuid)
| PublishToolEmbeddingEnsure (tool_version_id embedding_profile_id outbox_event_id : uuid).

(** The message of a row, by its event type *)
Definition message_of (r : outbox_event) : res publication :=
  let t := ox_event_type r in
  if String.eqb t "EXECUTION_DISPATCH" then
    e ← validate_execution_dispatch_event r; Ok (PublishExecution e (ox_id r))
  else if String.eqb t "EXECUTION_APPROVAL_RESUME" then
    ea ← validate_execution_approval_resume_event r; Ok (PublishApprovalResume ea.1 ea.2 (ox_id r))
  else if String.eqb t "EXECUTION_MRTR_RESUME" then
    ei ← validate_execution_mrtr_resume_event r; Ok (PublishMrtrResume ei.1 ei.2 (ox_id r))
  else if String.eqb t "FACTORY_JOB_DISPATCH" then
    j ← validate_factory_job_dispatch_event r; Ok (PublishFactoryJob j (ox_id r))
  else if String.eqb t "FACTORY_TEST_RUN_DISPATCH" then
    j ← validate_factory_test_run_dispatch_event r; Ok (PublishFactoryTestRun j (ox_id r))
  else if String.eqb t "TOOL_EMBEDDING_ENSURE" then
    vp ← validate_tool_embedding_ensure_event r; Ok (PublishToolEmbeddingEnsure vp.1 vp.2 (ox_id r))
  else Err (conflict "Unsupported Outbox event_type {event_type!r}.").

Definition OUTBOX_MAX_BATCH_SIZE : Z := 500.
Definition validate_limit (limit : Z) : res Z :=
  _ ← raise_if ((limit <? 1)%Z || (OUTBOX_MAX_BATCH_SIZE <? limit)%Z)
        (AppError "VALIDATION_ERROR" "batch limit must be between 1 and {_MAX_BATCH_SIZE}." 400);
  Ok limit.

Definition upd_outbox (id : uuid) (f : outbox_event → outbox_event) (rows : list outbox_event) : list outbox_event :=
  upd_where (λ r, ox_id r = id) f rows.

(** What the relay has done so far: the rows, the messages the broker took,
    and the counters of [PublishBatchResult] *)
Record relay_state := RelayState {
  rl_rows : list outbox_event;
  rl_sent : list publication;
  rl_published : Z;
  rl_failed : Z }.

Section relay.
(** [publisher.publish_*]; an exception is the broker's refusal. *)
Context (broker : publication → res unit).

(** [_publish_one] with the handlers around it: an [AppError] ends the batch. *)
Definition publish_one (now : Z) (rs : relay_state) (r : outbox_event) : relay_state * option py_error :=
  let failure e :=
    if is_app_error e then (rs, Some e)
    else (RelayState (upd_outbox (ox_id r) (record_publish_failure now) (rl_rows rs)) (rl_sent rs) (rl_published rs)
            (rl_failed rs + 1), None) in
  match message_of r with
  | Err e => failure e
  | Ok p =>
      match broker p with
      | Err e => failure e
      | Ok _ => (RelayState (upd_outbox (ox_id r) (mark_published now) (rl_rows rs)) (rl_sent rs ++ [p])
                   (rl_published rs + 1) (rl_failed rs), None)
      end
  end.

Fixpoint publish_all (now : Z) (rs : relay_state) (batch : list outbox_event) : relay_state * option py_error :=
  match batch with
  | [] => (rs, None)
  | r :: batch => match publish_one now rs r with
                  | (rs, None) => publish_all now rs batch
                  | (rs, Some e) => (rs, Some e)
                  end
  end.

(** [publish_batch]: the state when it ends, and the exception it ends with *)
Definition publish_batch (limit now : Z) (rows : list outbox_event) : relay_state * option py_error :=
  match validate_limit limit with
  | Err e => (RelayState rows [] 0 0, Some e)
  | Ok bounded => publish_all now (RelayState rows [] 0 0) (claim_unpublished_batch bounded rows)
  end.
End relay.

(** ** Staging of CREATED executions *)
(** The rows the staging transaction touches: the executions, each with its
    rows, the schedules and the outbox *)
Record queue_db := QueueDb {
  qd_stores : list store;
  qd_occurrences : list schedule_occurrence;
  qd_schedules : list schedule;
  qd_outbox : list outbox_event }.

(** [order_by(requested_at.asc(), id.asc())] *)
Definition requested_order (a b : execution) : bool :=
  (ex_requested_at a <? ex_requested_at b)%Z || (ex_requested_at a =? ex_requested_at b)%Z && (ex_id a <=? ex_id b)%N.
Definition created_batch (limit : Z) (db : queue_db) : list execution :=
  take (Z.to_nat limit)
    (sort_by requested_order
       (filter (λ e, ex_status e = ExecutionStatus.CREATED ∧ ex_source_type e ∈ CLAIMABLE_SOURCES)
          (st_execution <$> qd_stores db))).

(** [_assert_and_enqueue_occurrence] *)
Definition enqueue_occurrence (now : Z) (o : schedule_occurrence) : schedule_occurrence :=
  ScheduleOccurrence (so_id o) (so_schedule_id o) OccurrenceStatus.ENQUEUED (Some now).
Definition assert_and_enqueue_occurrence (now : Z) (e : execution) (db : queue_db) : res queue_db :=
  id ← of_option (conflict "SCHEDULE_OCCURRENCE Execution requires schedule_occurrence_id.") (ex_schedule_occurrence_id e);
  occurrence ← of_option (conflict "ScheduleOccurrence not found for queue staging.")
                 (find_first (λ o, bool_decide (so_id o = id)) (qd_occurrences db));
  _ ← raise_if (negb (bool_decide (so_status occurrence = OccurrenceStatus.PLANNED)))
        (conflict "SCHEDULE_OCCURRENCE queue staging requires occurrence status PLANNED.");
  _ ← match filter (λ x, ex_schedule_occurrence_id x = Some id ∧ ex_id x ≠ ex_id e) (st_execution <$> qd_stores db) with
      | [] => Ok tt
      | [_] => Err (conflict "ScheduleOccurrence already has another Execution.")
      | _ => Err (PyException "MultipleResultsFound")
      end;
  let invalid := conflict "Schedule ownership lineage invalid for queue staging." in
  schedule ← of_option invalid (find_first (λ s, bool_decide (sch_id s = so_schedule_id occurrence)) (qd_schedules db));
  _ ← raise_if (negb (bool_decide (sch_owner_id schedule = ex_requester_id e))) invalid;
  Ok (QueueDb (qd_stores db) (upd_where (λ o, so_id o = id) (enqueue_occurrence now) (qd_occurrences db))
        (qd_schedules db) (qd_outbox db)).

Definition queue_execution (now : Z) (e : execution) : execution :=
  e |> set_ex_status ExecutionStatus.QUEUED |> set_ex_queued_at (Some now) |> bump_execution.

(** The body of the staging loop; [new_id] is [uuid4()] for the execution. *)
Definition stage_one (new_id : uuid → uuid) (now : Z) (db : queue_db) (e : execution) : res queue_db :=
  _ ← raise_if (is_some (ex_queued_at e)) (conflict "CREATED Execution has unexpected queued_at.");
  _ ← raise_if (owns_lease e) (conflict "CREATED Execution has unexpected lease state.");
  db ← (if String.eqb (ex_source_type e) SCHEDULE_OCCURRENCE then assert_and_enqueue_occurrence now e db else Ok db);
  outbox ← insert_outbox (create_execution_dispatch (new_id (ex_id e)) (ex_id e) now) (qd_outbox db);
  Ok (QueueDb
        (upd_where (λ st, ex_id (st_execution st) = ex_id e)
           (λ st, st |> upd_execution (queue_execution now) |> emit_execution_status_changed (ex_status e) now)
           (qd_stores db)) (qd_occurrences db) (qd_schedules db) outbox).

Definition stage_created_batch (new_id : uuid → uuid) (limit now : Z) (db : queue_db) : res (queue_db * Z) :=
  bounded ← validate_limit limit;
  let rows := created_batch bounded db in
  db ← res_fold (stage_one new_id now) rows db;
  Ok (db, Z.of_nat (length rows)).
