(* ===== verification/OutboxSound.v ===== *)
(** * What the outbox guarantees

    The relay reads back the ids a row was written with; a batch publishes in
    order and loses nothing; a staged execution is announced once and passes
    the queue checks of the claim. *)
From S2P Require Import Prelude PyStr PyDict Json PyUuid CanonicalHash Domain Rows PolicySelection Claim Preflight.
From S2P Require Import ApprovalContext Outbox.

(** ** Round trip of a row *)
Lemma str_eqb_refl s : String.eqb s s = true.
Proof. by apply String.eqb_eq. Qed.

Lemma prefix_app p s : String.prefix p (p +:+ s) = true.
Proof.
  induction p as [|c p IH]; simpl; [by destruct s|]. destruct (Ascii.ascii_dec c c); [done|congruence].
Qed.

Lemma validate_one_new what t a key dedupe id u now :
  uuid_ok u →
  validate_one what t a key dedupe (new_outbox id t a u (dedupe u) [(key, JStr (uuid_str u))] now) = Ok u.
Proof.
  intros Hu. unfold validate_one, payload_uuids, lineage_matches, new_outbox.
  cbn [ox_payload ox_event_type ox_aggregate_type ox_aggregate_id ox_dedupe_key dict_keys fmap list_fmap fst].
  rewrite (proj2 (same_set_spec [key] [key])) by done. cbn [negb raise_if mbind res_bind res_map].
  unfold get_or_none. cbn [dict_get]. rewrite decide_True by done. cbn [uuid_of_json from_option Datatypes.id].
  rewrite uuid_parse_str by done. cbn [of_option mbind res_bind].
  by rewrite !str_eqb_refl, bool_decide_true by done.
Qed.

Lemma validate_two_new what t a key1 key2 dedupe_ok id u1 u2 key now :
  uuid_ok u1 → uuid_ok u2 → key2 ≠ key1 → dedupe_ok u1 u2 key = true →
  validate_two what t a key1 key2 dedupe_ok
    (new_outbox id t a u1 key [(key1, JStr (uuid_str u1)); (key2, JStr (uuid_str u2))] now) = Ok (u1, u2).
Proof.
  intros Hu1 Hu2 Hk Hd. unfold validate_two, payload_uuids, lineage_matches, new_outbox.
  cbn [ox_payload ox_event_type ox_aggregate_type ox_aggregate_id ox_dedupe_key dict_keys fmap list_fmap fst].
  rewrite (proj2 (same_set_spec [key1; key2] [key1; key2])) by done. cbn [negb raise_if mbind res_bind res_map].
  unfold get_or_none. cbn [dict_get]. rewrite (decide_False (P := key2 = key1)), !decide_True by done.
  cbn [uuid_of_json from_option Datatypes.id].
  rewrite !uuid_parse_str by done. cbn [of_option mbind res_bind].
  by rewrite !str_eqb_refl, bool_decide_true, Hd by done.
Qed.

(** The event type selects the branch of [message_of]; the row validates. *)
Ltac message_round_trip validate :=
  unfold message_of; cbn [ox_event_type ox_id new_outbox]; unfold create_execution_dispatch,
    create_execution_approval_resume, create_execution_mrtr_resume, create_factory_job_dispatch,
    create_factory_test_run_dispatch, create_tool_embedding_ensure;
  match goal with |- context [validate (new_outbox ?i ?t ?a ?u ?d ?p ?n)] =>
    let H := fresh in
    first [ assert (validate (new_outbox i t a u d p n) = Ok u) as H by (by apply validate_one_new)
          | match p with [(_, _); (_, JStr (uuid_str ?v))] =>
              assert (validate (new_outbox i t a u d p n) = Ok (u, v)) as H
                by (apply validate_two_new; [done|done|done|first [apply str_eqb_refl|apply prefix_app]])
            end ];
    rewrite H; done
  end.

Lemma execution_dispatch_message id e now :
  uuid_ok e → message_of (create_execution_dispatch id e now) = Ok (PublishExecution e id).
Proof. intros He. message_round_trip validate_execution_dispatch_event. Qed.

Lemma approval_resume_message id e a now :
  uuid_ok e → uuid_ok a → message_of (create_execution_approval_resume id e a now) = Ok (PublishApprovalResume e a id).
Proof. intros He Ha. message_round_trip validate_execution_approval_resume_event. Qed.

Lemma mrtr_resume_message id e i now :
  uuid_ok e → uuid_ok i → message_of (create_execution_mrtr_resume id e i now) = Ok (PublishMrtrResume e i id).
Proof. intros He Hi. message_round_trip validate_execution_mrtr_resume_event. Qed.

Lemma factory_job_message id j now :
  uuid_ok j → message_of (create_factory_job_dispatch id j now) = Ok (PublishFactoryJob j id).
Proof. intros Hj. message_round_trip validate_factory_job_dispatch_event. Qed.

Lemma factory_test_run_message id j now :
  uuid_ok j → message_of (create_factory_test_run_dispatch id j now) = Ok (PublishFactoryTestRun j id).
Proof. intros Hj. message_round_trip validate_factory_test_run_dispatch_event. Qed.

Lemma tool_embedding_message id v p now :
  uuid_ok v → uuid_ok p →
  message_of (create_tool_embedding_ensure id v p now) = Ok (PublishToolEmbeddingEnsure v p id).
Proof. intros Hv Hp. message_round_trip validate_tool_embedding_ensure_event. Qed.

(** ** A batch of the relay *)
Section relay.
Context (broker : publication → res unit) (now : Z).

(** One publication as a whole: the message the broker took, or the exception *)
Definition attempt (r : outbox_event) : res publication := p ← message_of r; _ ← broker p; Ok p.
Definition delivered (r : outbox_event) : option publication := match attempt r with Ok p => Some p | Err _ => None end.

(** A row after the rows [done] were handled *)
Definition relay_row (done : list outbox_event) (r : outbox_event) : outbox_event :=
  if decide (ox_id r ∈ ox_id <$> done) then
    (if is_ok (attempt r) then mark_published now r else record_publish_failure now r)
  else r.
Definition relay_result (rows done : list outbox_event) : relay_state :=
  RelayState (relay_row done <$> rows) (omap delivered done) (Z.of_nat (length (omap delivered done)))
    (Z.of_nat (length done) - Z.of_nat (length (omap delivered done))).

Lemma publish_one_attempt rs r :
  publish_one broker now rs r =
    match attempt r with
    | Ok p => (RelayState (upd_outbox (ox_id r) (mark_published now) (rl_rows rs)) (rl_sent rs ++ [p])
                 (rl_published rs + 1) (rl_failed rs), None)
    | Err e => if is_app_error e then (rs, Some e)
               else (RelayState (upd_outbox (ox_id r) (record_publish_failure now) (rl_rows rs)) (rl_sent rs)
                       (rl_published rs) (rl_failed rs + 1), None)
    end.
Proof.
  unfold publish_one, attempt. destruct (message_of r) as [p|e]; [|done]. cbn [mbind res_bind].
  by destruct (broker p).
Qed.

Lemma relay_row_snoc rows done r f :
  NoDup (ox_id <$> rows) → r ∈ rows → ox_id r ∉ ox_id <$> done →
  f = (if is_ok (attempt r) then mark_published now else record_publish_failure now) →
  upd_outbox (ox_id r) f (relay_row done <$> rows) = relay_row (done ++ [r]) <$> rows.
Proof.
  intros Hnd Hr Hd ->. unfold upd_outbox, upd_where. rewrite <- list_fmap_compose. apply list_fmap_ext.
  intros _ x Hx%list_elem_of_lookup_2. unfold compose.
  assert (ox_id (relay_row done x) = ox_id x) as -> by (unfold relay_row; repeat case_match; done).
  unfold relay_row. rewrite fmap_app. destruct (decide (ox_id x = ox_id r)) as [Heq|Hne].
  - assert (x = r) as -> by (by apply (key_inj ox_id rows)).
    rewrite (decide_False (P := ox_id r ∈ ox_id <$> done)) by done.
    rewrite decide_True; [by destruct (is_ok _)|]. apply elem_of_app. right. by left.
  - apply decide_ext. rewrite elem_of_app. simpl. rewrite list_elem_of_singleton. naive_solver.
Qed.

Lemma publish_one_result rows done r :
  NoDup (ox_id <$> rows) → r ∈ rows → ox_id r ∉ ox_id <$> done →
  publish_one broker now (relay_result rows done) r =
    match attempt r with
    | Err e => if is_app_error e then (relay_result rows done, Some e) else (relay_result rows (done ++ [r]), None)
    | Ok _ => (relay_result rows (done ++ [r]), None)
    end.
Proof.
  intros Hnd Hr Hd. rewrite publish_one_attempt. unfold relay_result. cbn [rl_rows rl_sent rl_published rl_failed].
  pose proof (relay_row_snoc rows done r _ Hnd Hr Hd eq_refl) as Hrow.
  assert (omap delivered (done ++ [r]) = omap delivered done ++ option_list (delivered r)) as Hs
    by (rewrite omap_app; cbn [omap list_omap]; by destruct (delivered r)).
  assert (delivered r = match attempt r with Ok p => Some p | Err _ => None end) as Hd' by done.
  destruct (attempt r) as [p|e]; cbn [is_ok] in Hrow; [|destruct (is_app_error e); [done|]]; rewrite Hrow;
    rewrite Hs, Hd', !length_app; unfold option_list; cbn [from_option length]; rewrite ?app_nil_r; f_equal; f_equal; simpl; lia.
Qed.

Lemma publish_all_result rows batch done :
  NoDup (ox_id <$> rows) → NoDup (ox_id <$> done ++ batch) → (∀ r, r ∈ batch → r ∈ rows) →
  ∃ handled rest, batch = handled ++ rest ∧
    (publish_all broker now (relay_result rows done) batch).1 = relay_result rows (done ++ handled) ∧
    (∀ r, r ∈ handled → ∀ e, attempt r = Err e → is_app_error e = false) ∧
    match (publish_all broker now (relay_result rows done) batch).2 with
    | None => rest = []
    | Some e => ∃ r rest', rest = r :: rest' ∧ attempt r = Err e ∧ is_app_error e = true
    end.
Proof.
  intros Hnd. revert done. induction batch as [|r batch IH]; intros done Hnb Hin.
  { exists [], []. rewrite !app_nil_r. repeat split; try done. by intros r ?%elem_of_nil. }
  assert (ox_id r ∉ ox_id <$> done) as Hr.
  { rewrite fmap_app, NoDup_app in Hnb. intros Hd. apply (proj1 (proj2 Hnb) _ Hd). by left. }
  cbn [publish_all]. rewrite publish_one_result by (done || apply Hin; by left).
  assert (∀ e, attempt r = Err e → is_app_error e = true →
    ∃ handled rest, r :: batch = handled ++ rest ∧ relay_result rows done = relay_result rows (done ++ handled) ∧
      (∀ r, r ∈ handled → ∀ e, attempt r = Err e → is_app_error e = false) ∧
      ∃ r' rest', rest = r' :: rest' ∧ attempt r' = Err e ∧ is_app_error e = true) as Hstop.
  { intros e He Ha. exists [], (r :: batch). rewrite app_nil_r. repeat split; try done.
    - by intros x ?%elem_of_nil.
    - by exists r, batch. }
  assert ((∀ e, attempt r = Err e → is_app_error e = false) →
    ∃ handled rest, r :: batch = handled ++ rest ∧
      (publish_all broker now (relay_result rows (done ++ [r])) batch).1 = relay_result rows (done ++ handled) ∧
      (∀ r, r ∈ handled → ∀ e, attempt r = Err e → is_app_error e = false) ∧
      match (publish_all broker now (relay_result rows (done ++ [r])) batch).2 with
      | None => rest = []
      | Some e => ∃ r rest', rest = r :: rest' ∧ attempt r = Err e ∧ is_app_error e = true
      end) as Hgo.
  { intros Hok. destruct (IH (done ++ [r])) as (handled & rest & -> & H1 & H2 & H3).
    - by rewrite <- app_assoc.
    - intros x Hx. apply Hin. by right.
    - exists (r :: handled), rest. rewrite <- app_assoc in H1. repeat split; try done.
      intros x [->|Hx]%elem_of_cons; [done|by apply H2]. }
  destruct (attempt r) as [p|e] eqn:E; [by apply Hgo|]. destruct (is_app_error e) eqn:Ea.
  - by apply Hstop.
  - apply Hgo. congruence.
Qed.
End relay.

Lemma claim_unpublished_elem limit rows r :
  r ∈ claim_unpublished_batch limit rows → r ∈ rows ∧ ox_published_at r = None.
Proof.
  unfold claim_unpublished_batch. intros Hr%elem_of_take. destruct Hr as (i & Hi & _).
  apply list_elem_of_lookup_2 in Hi. rewrite sort_by_perm, list_elem_of_filter in Hi. naive_solver.
Qed.

Lemma sort_batch_nodup {A B} (key : A → B) leb (P : A → Prop) `{∀ x, Decision (P x)} n (l : list A) :
  NoDup (key <$> l) → NoDup (key <$> take n (sort_by leb (filter P l))).
Proof.
  intros Hnd. eapply sublist_NoDup; [|apply fmap_sublist, sublist_take].
  rewrite sort_by_perm. eapply sublist_NoDup; [exact Hnd|apply fmap_sublist, sublist_filter].
Qed.

(** C28: A relay batch handles the oldest unpublished rows in order: each gets exactly one attempt, a row is marked
    published exactly when the broker took its message, every other handled row stays unpublished with one more
    attempt on record, all other rows are untouched; the batch stops early only at a corrupt row, which it leaves as it
    is. *)
Theorem publish_batch_spec (broker : publication → res unit) limit now rows :
  NoDup (ox_id <$> rows) → (1 ≤ limit ≤ OUTBOX_MAX_BATCH_SIZE)%Z →
  ∃ handled rest, claim_unpublished_batch limit rows = handled ++ rest ∧
    (publish_batch broker limit now rows).1 = relay_result broker now rows handled ∧
    match (publish_batch broker limit now rows).2 with
    | None => rest = []
    | Some e => is_app_error e = true ∧ ∃ r rest', rest = r :: rest' ∧ attempt broker r = Err e
    end.
Proof.
  intros Hnd Hl. unfold publish_batch, validate_limit.
  rewrite (proj2 (Z.ltb_ge limit 1)), (proj2 (Z.ltb_ge _ limit)) by lia. cbn [orb raise_if mbind res_bind].
  destruct (publish_all_result broker now rows (claim_unpublished_batch limit rows) []) as (handled & rest & Hb & H1 & _ & H3).
  - done.
  - by apply sort_batch_nodup.
  - intros r Hr. by apply claim_unpublished_elem in Hr as [??].
  - assert (relay_result broker now rows [] = RelayState rows [] 0 0) as Hi.
    { unfold relay_result. f_equal. apply list_fmap_id. }
    rewrite Hi in H1, H3. exists handled, rest. split; [done|]. split; [done|].
    case_match; [|done]. destruct H3 as (r & rest' & H3 & H4 & H5). split; [done|]. by exists r, rest'.
Qed.

(** ** Staging *)
(** What staging does to the rows of one execution, and to an occurrence *)
Definition stage_store (now : Z) (st : store) : store :=
  st |> upd_execution (queue_execution now) |> emit_execution_status_changed ExecutionStatus.CREATED now.
Definition occurrence_of (e : execution) : option uuid :=
  if String.eqb (ex_source_type e) SCHEDULE_OCCURRENCE then ex_schedule_occurrence_id e else None.

Section stage.
Context (new_id : uuid → uuid) (now : Z).

Definition dispatch_of (e : execution) : outbox_event := create_execution_dispatch (new_id (ex_id e)) (ex_id e) now.

(** What staging finds out about an execution it stages *)
Record stageable (db : queue_db) (e : execution) : Prop := Stageable {
  sg_queued_at : ex_queued_at e = None;
  sg_no_lease : owns_lease e = false;
  sg_occurrence : ex_source_type e = SCHEDULE_OCCURRENCE →
    ∃ id o s, ex_schedule_occurrence_id e = Some id ∧
      find_first (λ o, bool_decide (so_id o = id)) (qd_occurrences db) = Some o ∧
      find_first (λ s, bool_decide (sch_id s = so_schedule_id o)) (qd_schedules db) = Some s ∧
      sch_owner_id s = ex_requester_id e ∧ so_status o = OccurrenceStatus.PLANNED }.

Lemma enqueue_occurrence_Ok e db db' :
  assert_and_enqueue_occurrence now e db = Ok db' →
  ∃ id, ex_schedule_occurrence_id e = Some id ∧
    db' = QueueDb (qd_stores db) (upd_where (λ o, so_id o = id) (enqueue_occurrence now) (qd_occurrences db))
            (qd_schedules db) (qd_outbox db) ∧
    ∃ o s, find_first (λ o, bool_decide (so_id o = id)) (qd_occurrences db) = Some o ∧
      find_first (λ s, bool_decide (sch_id s = so_schedule_id o)) (qd_schedules db) = Some s ∧
      sch_owner_id s = ex_requester_id e ∧ so_status o = OccurrenceStatus.PLANNED.
Proof.
  unfold assert_and_enqueue_occurrence. intros H.
  apply bind_Ok in H as (id & Hid%of_option_Ok & H). apply bind_Ok in H as (o & Ho%of_option_Ok & H).
  apply bind_Ok in H as ([] & Hst & H). apply bind_Ok in H as ([] & _ & H).
  apply bind_Ok in H as (s & Hs%of_option_Ok & H). inv_res. exists id. split; [done|]. split; [done|]. by exists o, s.
Qed.

Lemma stage_one_Ok db e db' :
  ex_status e = ExecutionStatus.CREATED → stage_one new_id now db e = Ok db' →
  stageable db e ∧
  qd_stores db' = upd_where (λ st, ex_id (st_execution st) = ex_id e) (stage_store now) (qd_stores db) ∧
  qd_occurrences db' = upd_where (λ o, so_id o ∈ option_list (occurrence_of e)) (enqueue_occurrence now) (qd_occurrences db) ∧
  qd_schedules db' = qd_schedules db ∧ qd_outbox db' = qd_outbox db ++ [dispatch_of e] ∧
  (∀ r, r ∈ qd_outbox db → ox_dedupe_key r ≠ initial_dedupe (ex_id e)).
Proof.
  intros Hc H. unfold stage_one in H. rewrite Hc in H.
  apply bind_Ok in H as ([] & Hq%raise_if_Ok & H). apply bind_Ok in H as ([] & Hl%raise_if_Ok & H).
  apply bind_Ok in H as (db1 & Hdb & H). apply bind_Ok in H as (outbox & Ho & H). injection H as <-.
  unfold insert_outbox in Ho. apply bind_Ok in Ho as ([] & Hd%raise_if_Ok & [= <-]).
  assert (ex_queued_at e = None) as Hq' by (by destruct (ex_queued_at e)).
  cbn [qd_stores qd_occurrences qd_schedules qd_outbox]. unfold occurrence_of.
  assert (∀ db1, qd_outbox db1 = qd_outbox db →
    existsb (λ r, bool_decide (ox_id r = ox_id (dispatch_of e))
       || String.eqb (ox_dedupe_key r) (ox_dedupe_key (dispatch_of e))) (qd_outbox db1) = false →
    ∀ r, r ∈ qd_outbox db → ox_dedupe_key r ≠ initial_dedupe (ex_id e)) as Hkey.
  { intros db2 -> Hex r Hr. rewrite existsb_elem_false in Hex. specialize (Hex r Hr).
    apply orb_false_iff in Hex as [_ Hex%String.eqb_neq]. exact Hex. }
  destruct (String.eqb (ex_source_type e) SCHEDULE_OCCURRENCE) eqn:Es.
  - apply enqueue_occurrence_Ok in Hdb as (id & Hid & -> & o & s & Hfo & Hfs & Hos & Hst).
    cbn [qd_stores qd_occurrences qd_schedules qd_outbox] in *. rewrite Hid. split_and!; try done.
    + split; [done|done|]. intros _. by exists id, o, s.
    + unfold upd_where. apply list_fmap_ext. intros _ x _. apply decide_ext. simpl. by rewrite list_elem_of_singleton.
    + by apply (Hkey (QueueDb (qd_stores db) (upd_where (λ o, so_id o = id) (enqueue_occurrence now) (qd_occurrences db))
            (qd_schedules db) (qd_outbox db))).
  - injection Hdb as <-. split_and!; try done.
    + split; [done|done|]. intros Hs. apply String.eqb_neq in Es. done.
    + symmetry. apply upd_where_none. intros o _. apply not_elem_of_nil.
    + by apply (Hkey db).
Qed.

(** A PLANNED occurrence was not staged before. *)
Lemma stageable_before (K : list uuid) db db1 e :
  qd_occurrences db1 = upd_where (λ o, so_id o ∈ K) (enqueue_occurrence now) (qd_occurrences db) →
  qd_schedules db1 = qd_schedules db → stageable db1 e → stageable db e.
Proof.
  intros Ho Hs [Hq Hl Hocc]. split; [done|done|]. intros Hsrc.
  destruct (Hocc Hsrc) as (id & o & s & Hid & Hfo & Hfs & Hos & Hst). rewrite Ho in Hfo. rewrite Hs in Hfs.
  rewrite (find_first_upd_where so_id) in Hfo by done.
  destruct (find_first _ (qd_occurrences db)) as [o0|] eqn:Hfo0; [|done]. simpl in Hfo. injection Hfo as <-.
  destruct (decide (so_id o0 ∈ K)); [discriminate Hst|]. exists id, o0, s. by rewrite Hfo0.
Qed.

Lemma stage_fold_Ok L db db' :
  NoDup (ex_id <$> L) → (∀ e, e ∈ L → ex_status e = ExecutionStatus.CREATED) →
  res_fold (stage_one new_id now) L db = Ok db' →
  (∀ e, e ∈ L → stageable db e) ∧
  qd_stores db' = upd_where (λ st, ex_id (st_execution st) ∈ ex_id <$> L) (stage_store now) (qd_stores db) ∧
  qd_occurrences db' = upd_where (λ o, so_id o ∈ omap occurrence_of L) (enqueue_occurrence now) (qd_occurrences db) ∧
  qd_schedules db' = qd_schedules db ∧ qd_outbox db' = qd_outbox db ++ (dispatch_of <$> L) ∧
  (∀ e r, e ∈ L → r ∈ qd_outbox db → ox_dedupe_key r ≠ initial_dedupe (ex_id e)).
Proof.
  revert db. induction L as [|e L IH]; intros db Hnd Hc H.
  { injection H as <-. cbn [fmap list_fmap omap list_omap]. rewrite app_nil_r.
    split_and!; try done; try (by intros ? ?%elem_of_nil); try (by intros ? ? ?%elem_of_nil);
      symmetry; apply upd_where_none; intros ? _; apply not_elem_of_nil. }
  cbn [res_fold] in H. apply bind_Ok in H as (db1 & H1 & H). cbn [fmap list_fmap] in Hnd. apply NoDup_cons in Hnd as [Hni Hnd].
  apply stage_one_Ok in H1 as (Hsg & Hst & Ho & Hs & Hox & Hkey); [|apply Hc; by left].
  destruct (IH db1) as (Hsg' & Hst' & Ho' & Hs' & Hox' & Hkey'); [done| |done|].
  { intros x Hx. apply Hc. by right. }
  split_and!.
  - intros x [->|Hx]%elem_of_cons; [done|]. eapply stageable_before; eauto.
  - rewrite Hst', Hst. apply (upd_where_upd_where (λ st, ex_id (st_execution st))); [|by right].
    intros st. unfold stage_store. by rewrite (proj1 (emit_execution_rows _ _ _)).
  - rewrite Ho', Ho. cbn [omap list_omap]. destruct (occurrence_of e) as [k|].
    + rewrite <- (upd_where_upd_where so_id) by (done || by left). f_equal.
      unfold upd_where. apply list_fmap_ext. intros _ x _. apply decide_ext. simpl. by rewrite list_elem_of_singleton.
    + f_equal. apply upd_where_none. intros o _. apply not_elem_of_nil.
  - congruence.
  - rewrite Hox', Hox. by rewrite <- app_assoc.
  - intros x r [->|Hx]%elem_of_cons Hr; [by apply Hkey|]. apply Hkey'; [done|]. rewrite Hox. apply elem_of_app. by left.
Qed.
End stage.

(** The occurrence check of the claim passes on the rows staging leaves. *)
Lemma staged_occurrence db db' now (K : list uuid) e st' id o s :
  qd_occurrences db' = upd_where (λ o, so_id o ∈ K) (enqueue_occurrence now) (qd_occurrences db) →
  qd_schedules db' = qd_schedules db → id ∈ K → ex_schedule_occurrence_id e = Some id →
  st_execution st' = queue_execution now e →
  find_first (λ o, bool_decide (so_id o = id)) (qd_occurrences db) = Some o →
  find_first (λ s, bool_decide (sch_id s = so_schedule_id o)) (qd_schedules db) = Some s →
  sch_owner_id s = ex_requester_id e →
  is_workflow_schedule_occurrence e || is_agent_schedule_occurrence e = true →
  lock_and_assert_occurrence_enqueued (ClaimDb st' (qd_occurrences db') (qd_schedules db'))
    = Ok (enqueue_occurrence now o).
Proof.
  intros Ho Hs Hk Hid He Hfo Hfs Hos Hl. unfold lock_and_assert_occurrence_enqueued.
  cbn [cd_store cd_occurrences cd_schedules]. rewrite He, Ho, Hs.
  change (ex_schedule_occurrence_id (queue_execution now e)) with (ex_schedule_occurrence_id e). rewrite Hid.
  change (is_workflow_schedule_occurrence (queue_execution now e)) with (is_workflow_schedule_occurrence e).
  change (is_agent_schedule_occurrence (queue_execution now e)) with (is_agent_schedule_occurrence e).
  rewrite Hl. cbn [negb raise_if mbind res_bind]. rewrite (find_first_upd_where so_id) by done. rewrite Hfo. simpl.
  destruct (find_key_Some _ _ _ _ Hfo) as [_ Hoid]. rewrite decide_True by congruence. simpl.
  rewrite Hfs. simpl. rewrite bool_decide_true by done. done.
Qed.

Lemma created_batch_elem limit db e :
  e ∈ created_batch limit db →
  ex_status e = ExecutionStatus.CREATED ∧ ex_source_type e ∈ CLAIMABLE_SOURCES ∧ e ∈ st_execution <$> qd_stores db.
Proof.
  unfold created_batch. intros (i & Hi & _)%elem_of_take. apply list_elem_of_lookup_2 in Hi.
  rewrite sort_by_perm, list_elem_of_filter in Hi. naive_solver.
Qed.

Lemma stage_batch_Ok new_id limit now db db' n :
  NoDup (ex_id <$> (st_execution <$> qd_stores db)) → stage_created_batch new_id limit now db = Ok (db', n) →
  let B := created_batch limit db in
  n = Z.of_nat (length B) ∧ NoDup (ex_id <$> B) ∧
  (∀ e, e ∈ B → stageable db e) ∧
  qd_stores db' = upd_where (λ st, ex_id (st_execution st) ∈ ex_id <$> B) (stage_store now) (qd_stores db) ∧
  qd_occurrences db' = upd_where (λ o, so_id o ∈ omap occurrence_of B) (enqueue_occurrence now) (qd_occurrences db) ∧
  qd_schedules db' = qd_schedules db ∧ qd_outbox db' = qd_outbox db ++ (dispatch_of new_id now <$> B) ∧
  (∀ e r, e ∈ B → r ∈ qd_outbox db → ox_dedupe_key r ≠ initial_dedupe (ex_id e)).
Proof.
  intros Hnd H. unfold stage_created_batch in H. apply bind_Ok in H as (b & Hb & H).
  assert (b = limit) as -> by (unfold validate_limit in Hb; by inv_res).
  apply bind_Ok in H as (db1 & H & [= <- <-]).
  assert (NoDup (ex_id <$> created_batch limit db)) as HB by (by apply sort_batch_nodup).
  split; [done|]. split; [done|]. apply (stage_fold_Ok new_id now _ db db1 HB); [|done].
  intros e He. by destruct (created_batch_elem _ _ _ He).
Qed.


