(* ===== verification/ApprovalEvidence.v ===== *)
(** * Approval evidence ([approval/evidence.py])

    What a stored approval request is worth: its snapshot is intact under its
    hash, names this execution and step, and is what the execution, the step
    and the current policies would produce today.  Used by the decision, by the
    resume and by the gates before a tool call.  Reads only. *)
From S2P Require Import Prelude PyStr PyDict Json PyUuid CanonicalHash Domain LoopRuntime Rows PolicySelection.
From S2P Require Import ToolLineage Preflight ApprovalContext.

(** [ApprovedEvidence] *)
Record approved_evidence := ApprovedEvidence { ae_request : approval_request; ae_context_hash : string }.

Definition is_authorable_step_context (snapshot : json) : bool :=
  match snapshot with
  | JObj d => py_eq (get_or_none "schema_version" d) (JStr APPROVAL_STEP_CONTEXT_SCHEMA_VERSION)
  | _ => false
  end.

Definition TOOL_CONTEXT_REQUIRED : list string :=
  ["execution_id"; "step_execution_id"; "step_key"; "requester_id"; "agent_version_id"; "mcp_tool_version_id";
   "plan_hash"; "risk_class"; "resolved_input"; "tool_policy"; "approval_policy"].
Definition APPROVAL_BLOCK_REQUIRED : list string :=
  ["allow_self_approval"; "reject_comment_required"; "decision_mode"; "required_approvals"].

Definition validate_stored_context_snapshot (snapshot : json) : res (dict json) :=
  match snapshot with
  | JObj d =>
      let schema := get_or_none "schema_version" d in
      if py_eq schema (JStr APPROVAL_STEP_CONTEXT_SCHEMA_VERSION) then validate_stored_approval_step_context snapshot
      else
        _ ← raise_if (negb (py_eq schema (JStr APPROVAL_CONTEXT_SCHEMA_VERSION)))
              (conflict "ApprovalRequest context_snapshot schema is invalid.");
        _ ← res_iter (require_key d) TOOL_CONTEXT_REQUIRED;
        _ ← raise_if (is_none (get_or_none "agent_version_id" d)
                      && (is_none (get_or_none "workflow_version_id" d) || negb (dict_has "source_type" d)))
              (conflict "ApprovalRequest context_snapshot requires agent_version_id or workflow_version_id + source_type.");
        match get_or_none "tool_policy" d, get_or_none "approval_policy" d with
        | JObj _, JObj approval_policy =>
            _ ← res_iter (λ key, raise_if (negb (dict_has key approval_policy))
                            (conflict "ApprovalRequest context_snapshot missing approval_policy.{key}.")) APPROVAL_BLOCK_REQUIRED;
            Ok d
        | _, _ => Err (conflict "ApprovalRequest context_snapshot policy blocks are corrupted.")
        end
  | _ => Err (conflict "ApprovalRequest context_snapshot is corrupted.")
  end.

Definition assert_request_context_hash_intact (request : approval_request) : res (dict json) :=
  snapshot ← validate_stored_context_snapshot (ar_context_snapshot request);
  recomputed ← (if is_authorable_step_context (JObj snapshot) then compute_approval_step_context_hash snapshot
                else compute_approval_context_hash snapshot);
  _ ← raise_if (negb (String.eqb recomputed (ar_context_hash request)))
        (conflict "ApprovalRequest context_hash does not match stored snapshot.");
  Ok snapshot.

(** ** Lineage of a stored snapshot *)
Definition lineage_ids_corrupted : py_error := conflict "ApprovalRequest context_snapshot lineage ids are corrupted.".
(** [uuid.UUID(str(snapshot\[k\]))] *)
Definition snapshot_uuid (k : string) (d : dict json) : res uuid :=
  v ← dict_item k d; of_option lineage_ids_corrupted (uuid_of_json v).
(** [uuid.UUID(str(raw)) if raw is not None else None] *)
Definition optional_uuid (v : json) : res (option uuid) :=
  if is_none v then Ok None else u ← of_option lineage_ids_corrupted (uuid_of_json v); Ok (Some u).

Definition assert_lineage_matches_snapshot (e : execution) (s : execution_step) (d : dict json) : res unit :=
  if is_authorable_step_context (JObj d) then assert_approval_step_lineage_matches e s d
  else
    snap_exec ← snapshot_uuid "execution_id" d;
    snap_step ← snapshot_uuid "step_execution_id" d;
    snap_requester ← snapshot_uuid "requester_id" d;
    snap_tool ← snapshot_uuid "mcp_tool_version_id" d;
    snap_agent ← optional_uuid (get_or_none "agent_version_id" d);
    snap_workflow ← optional_uuid (get_or_none "workflow_version_id" d);
    let agent_ok := bool_decide (snap_agent = ex_agent_version_id e) in
    let workflow_ok := if dict_has "workflow_version_id" d then bool_decide (snap_workflow = ex_workflow_version_id e)
                       else negb (is_some (ex_workflow_version_id e)) in
    let source_ok := if dict_has "source_type" d then py_eq (get_or_none "source_type" d) (JStr (ex_source_type e))
                     else true in
    raise_if (negb (bool_decide (snap_exec = ex_id e)) || negb (bool_decide (snap_step = es_id s))
              || negb (bool_decide (snap_requester = ex_requester_id e)) || negb agent_ok || negb workflow_ok
              || negb source_ok || negb (bool_decide (es_mcp_tool_version_id s = Some snap_tool))
              || negb (py_eq (get_or_none "step_key" d) (JStr (es_step_key s)))
              || negb (py_eq (get_or_none "plan_hash" d) (JStr (ex_plan_hash e))))
      (conflict "ApprovalRequest context_snapshot lineage does not match Execution/Step.").

(** [snapshot\["approval_policy"\]\[key\]], a boolean *)
Definition snapshotted_flag (key : string) (message : string) (d : dict json) : res bool :=
  block ← dict_item "approval_policy" d;
  match block with
  | JObj approval_policy =>
      value ← dict_item key approval_policy;
      match value with JBool b => Ok b | _ => Err (conflict message) end
  | _ => Err (PyException "TypeError")
  end.
Definition snapshotted_allow_self_approval : dict json → res bool :=
  snapshotted_flag "allow_self_approval" "ApprovalRequest allow_self_approval snapshot is corrupted.".
Definition snapshotted_reject_comment_required : dict json → res bool :=
  snapshotted_flag "reject_comment_required" "ApprovalRequest reject_comment_required snapshot is corrupted.".

(** ** The context as of now *)
Definition load_tool_policy_for_step (c : catalog) (s : execution_step) : res mcp_tool_policy :=
  id ← of_option (conflict "Step is missing mcp_tool_version_id.") (es_mcp_tool_version_id s);
  version ← of_option (precondition_failed "MCP ToolVersion not found for approval context.") (get_tool_version c id);
  logical ← of_option (precondition_failed "MCP Tool not found for approval context.") (get_tool c (tv_mcp_tool_id version));
  of_option (precondition_failed "MCPToolPolicy not found for approval context.") (get_policy_by_tool_id c (mt_id logical)).

(** [x or await load()], and the second parameter's [if ap is None] *)
Definition policy_or_load (c : catalog) (tool_policy : option mcp_tool_policy) (s : execution_step) : res mcp_tool_policy :=
  match tool_policy with Some tp => Ok tp | None => load_tool_policy_for_step c s end.
Definition approval_policy_or_load (c : catalog) (ap : option approval_policy) (tp : mcp_tool_policy) : res approval_policy :=
  match ap with
  | Some ap => Ok ap
  | None =>
      id ← of_option (precondition_failed "ToolPolicy.approval_policy_id is required for approval context.")
             (mp_approval_policy_id tp);
      of_option (precondition_failed "ApprovalPolicy not found for current ToolPolicy.") (get_approval_policy c id)
  end.

Section evidence.
Context {schema : PlanSchema} {parser : PlanParser}.

(** The tool version the step's config names, and the agent bindings if it is
    an agent's config *)
Definition tool_version_of_config (config : dict json) : res (uuid * option (dict binding_value)) :=
  match validate_agent_tool_config config with
  | Some tool_config => Ok (atc_tool_version_id tool_config, Some (atc_bindings tool_config))
  | None =>
      complex_cfg ← of_option (conflict "Execution TOOL Step snapshot is invalid for approval context.")
                      (validate_tool_config config);
      Ok (tc_tool_version_id complex_cfg, None)
  end.

Definition approval_resolved_input (s : execution_step) (agent_bindings : option (dict binding_value)) : res (dict json) :=
  match es_resolved_input s with
  | JObj resolved => Ok resolved
  | JNull =>
      bindings ← of_option (conflict "Workflow ToolPolicy approval context requires pinned Step.resolved_input.")
                   agent_bindings;
      Ok (materialize_secret_safe_resolved_input bindings)
  | _ => Err (conflict "Step.resolved_input must be an object for approval context.")
  end.

Definition rebuild_current_approval_context (c : catalog) (e : execution) (s : execution_step)
    (tool_policy : option mcp_tool_policy) (ap : option approval_policy)
    : res (dict json * string * mcp_tool_policy * approval_policy) :=
  plan_step ← of_option (conflict "Execution TOOL Step snapshot is invalid for approval context.")
                (validate_step (es_step_snapshot s));
  tv ← tool_version_of_config (ps_config plan_step);
  policy ← policy_or_load c tool_policy s;
  ap ← approval_policy_or_load c ap policy;
  _ ← raise_if (negb (bool_decide (es_mcp_tool_version_id s = Some tv.1)))
        (conflict "Step mcp_tool_version_id does not match plan TOOL config.");
  resolved_input ← approval_resolved_input s tv.2;
  snapshot ← build_approval_context_snapshot e s policy ap resolved_input;
  h ← compute_approval_context_hash snapshot;
  Ok (snapshot, h, policy, ap).

Definition rebuild_current_approval_step_context (c : catalog) (e : execution) (s : execution_step)
    (steps : list execution_step) (p : option plan) (ap : option approval_policy)
    : res (dict json * string * approval_policy) :=
  _ ← raise_if (negb (bool_decide (es_step_type s = StepType.APPROVAL)))
        (conflict "Authorable approval context rebuild requires APPROVAL Step.");
  let invalid := conflict "APPROVAL Step snapshot is invalid for context rebuild." in
  plan_step ← of_option invalid (validate_step (es_step_snapshot s));
  cfg ← of_option invalid (validate_approval_config (ps_config plan_step));
  p ← match p with
      | Some p => Ok p
      | None => of_option (conflict "Execution plan_snapshot is invalid for approval context.")
                  (validate_plan (ex_plan_snapshot e))
      end;
  h ← compute_plan_hash (ex_plan_snapshot e);
  _ ← raise_if (negb (String.eqb h (ex_plan_hash e))) (conflict "Execution plan_hash does not match plan_snapshot.");
  ap ← match ap with
       | Some ap => Ok ap
       | None => of_option (precondition_failed "ApprovalPolicy not found for APPROVAL Step.")
                   (get_approval_policy c (ac_approval_policy_id cfg))
       end;
  _ ← raise_if (negb (bool_decide (ap_id ap = ac_approval_policy_id cfg)))
        (precondition_failed "ApprovalPolicy id does not match APPROVAL Step config.");
  snapshot ← build_approval_step_context_snapshot e s p ap steps;
  h ← compute_approval_step_context_hash snapshot;
  Ok (snapshot, h, ap).

Definition assert_current_context_matches_request (c : catalog) (request : approval_request) (e : execution)
    (s : execution_step) (tool_policy : option mcp_tool_policy) (ap : option approval_policy)
    (steps : option (list execution_step)) (p : option plan) : res (dict json) :=
  stored ← assert_request_context_hash_intact request;
  _ ← assert_lineage_matches_snapshot e s stored;
  _ ← raise_if (negb (bool_decide (ar_execution_id request = ex_id e))
                || negb (bool_decide (ar_step_execution_id request = es_id s)))
        (conflict "ApprovalRequest does not belong to Execution/Step.");
  current_hash ← (if is_authorable_step_context (JObj stored) then
                    steps ← of_option (conflict "Authorable approval context revalidation requires Step set.") steps;
                    r ← rebuild_current_approval_step_context c e s steps p ap; Ok r.1.2
                  else r ← rebuild_current_approval_context c e s tool_policy ap; Ok r.1.1.2);
  _ ← raise_if (negb (String.eqb current_hash (ar_context_hash request)))
        (conflict "Current approval context hash drifted from ApprovalRequest.");
  Ok stored.

(** ** Approved evidence *)
(** [order_by(resolved_at.desc(), id.desc())]; PostgreSQL puts NULL first. *)
Definition resolved_order (a b : approval_request) : bool :=
  match ar_resolved_at a, ar_resolved_at b with
  | None, None => (ar_id b <=? ar_id a)%N
  | None, Some _ => true
  | Some _, None => false
  | Some x, Some y => (y <? x)%Z || (x =? y)%Z && (ar_id b <=? ar_id a)%N
  end.
Definition find_approved_for_step (execution_id step_id : uuid) (rows : list approval_request) : list approval_request :=
  sort_by resolved_order
    (filter (λ r, ar_execution_id r = execution_id ∧ ar_step_execution_id r = step_id ∧
                  ar_status r = ApprovalStatus.APPROVED) rows).

(** The loop over the approved rows, newest first *)
Fixpoint match_approved (e : execution) (s : execution_step) (current_hash : string) (rows : list approval_request)
    : res (option approved_evidence) :=
  match rows with
  | [] => Ok None
  | row :: rows =>
      _ ← raise_if (negb (is_some (ar_resolved_at row))) (conflict "APPROVED ApprovalRequest is missing resolved_at.");
      stored ← assert_request_context_hash_intact row;
      _ ← assert_lineage_matches_snapshot e s stored;
      if String.eqb (ar_context_hash row) current_hash then Ok (Some (ApprovedEvidence row (ar_context_hash row)))
      else match_approved e s current_hash rows
  end.

Definition find_valid_approved_evidence (c : catalog) (st : store) (s : execution_step) (tp : mcp_tool_policy)
    (ap : approval_policy) : res (option approved_evidence) :=
  let e := st_execution st in
  match find_approved_for_step (ex_id e) (es_id s) (st_approvals st) with
  | [] => Ok None
  | rows =>
      r ← rebuild_current_approval_context c e s (Some tp) (Some ap);
      matched ← match_approved e s r.1.1.2 rows;
      _ ← raise_if (negb (is_some matched))
            (conflict "Historical APPROVED ApprovalRequest exists but does not match current approval context.");
      Ok matched
  end.

Definition require_valid_approved_evidence (c : catalog) (st : store) (s : execution_step) (tp : mcp_tool_policy)
    (ap : approval_policy) : res approved_evidence :=
  evidence ← find_valid_approved_evidence c st s tp ap;
  evidence ← of_option (precondition_failed "requires_approval=true but no valid APPROVED evidence for current context.")
               evidence;
  _ ← raise_if (negb (bool_decide (ar_status (ae_request evidence) = ApprovalStatus.APPROVED)))
        (conflict "Approval evidence is not APPROVED.");
  Ok evidence.
End evidence.
