(* ===== verification/Approval.v ===== *)
(** * Approval requests: wait, decision, expiry

    [approval/wait.py] parks an execution behind a PENDING request,
    [approval/decision.py] records the votes and resolves it, and
    [approval/expiry.py] ends the ones nobody decided in time.

    The transaction works on the rows of the execution, the decisions of its
    requests, the outbox and the audit log, of which the model keeps the
    arguments of each append.  [uuid4] values are arguments.  The row locks
    make a call a function of the rows; the uniqueness of (request, actor) is
    checked by the query before the insert. *)
From S2P Require Import Prelude PyStr PyDict Json PyUuid CanonicalHash Domain LoopRuntime Completion DagSchedule Rows.
From S2P Require Import Cancellation PolicySelection RetryDecision ToolLineage Preflight Authorization ApprovalContext.
From S2P Require Import Outbox ApprovalEvidence.

(** ** Events ([execution/events.py]) *)
Definition approval_status_value (s : approval_status) : string :=
  match s with
  | ApprovalStatus.PENDING => "PENDING" | ApprovalStatus.APPROVED => "APPROVED" | ApprovalStatus.REJECTED => "REJECTED"
  | ApprovalStatus.EXPIRED => "EXPIRED" | ApprovalStatus.CANCELLED => "CANCELLED"
  end.
Definition decision_str (d : decision_value) : string := match d with APPROVE => "APPROVE" | REJECT => "REJECT" end.

Definition approval_lifecycle_payload (execution_id step_id request_id : uuid) (status : approval_status)
    (decision : option decision_value) : json :=
  JObj ([("execution_id", JStr (uuid_str execution_id)); ("step_execution_id", JStr (uuid_str step_id));
         ("approval_request_id", JStr (uuid_str request_id)); ("status", JStr (approval_status_value status))]
        ++ match decision with Some d => [("decision", JStr (decision_str d))] | None => [] end).
Definition emit_approval (event_type : string) (r : approval_request) (status : approval_status)
    (decision : option decision_value) (now : Z) (st : store) : store :=
  append_event (ex_id (st_execution st)) (Some (ar_step_execution_id r)) event_type
    (approval_lifecycle_payload (ex_id (st_execution st)) (ar_step_execution_id r) (ar_id r) status decision) now st.
Definition emit_approval_requested (r : approval_request) : Z → store → store :=
  emit_approval "approval.requested" r (ar_status r) None.
Definition emit_approval_decided (r : approval_request) (status : approval_status) (decision : option decision_value)
    : Z → store → store := emit_approval "approval.decided" r status decision.

(** ** [ApprovalRequestRepository] *)
Definition get_request (id : uuid) (st : store) : option approval_request := row_by ar_id id (st_approvals st).
Definition upd_request (id : uuid) (f : approval_request → approval_request) (st : store) : store :=
  set_st_approvals (upd_where (λ r, ar_id r = id) f (st_approvals st)) st.
(** [scalar_one_or_none] *)
Definition one_or_none {A} (rows : list A) : res (option A) :=
  match rows with [] => Ok None | [x] => Ok (Some x) | _ => Err (PyException "MultipleResultsFound") end.
Definition find_pending_for_step (execution_id step_id : uuid) (st : store) : res (option approval_request) :=
  one_or_none (filter (λ r, ar_execution_id r = execution_id ∧ ar_step_execution_id r = step_id ∧
                            ar_status r = ApprovalStatus.PENDING) (st_approvals st)).
(** [find_pending_for_execution]: the oldest *)
Definition find_pending_for_execution (execution_id : uuid) (st : store) : option approval_request :=
  head (sort_by (λ a b, (ar_requested_at a <? ar_requested_at b)%Z
                        || (ar_requested_at a =? ar_requested_at b)%Z && (ar_id a <=? ar_id b)%N)
    (filter (λ r, ar_execution_id r = execution_id ∧ ar_status r = ApprovalStatus.PENDING) (st_approvals st))).
Definition create_pending (id : uuid) (e : execution) (s : execution_step) (ap : approval_policy)
    (context_snapshot : dict json) (context_hash : string) (ts : Z) : approval_request :=
  {| ar_id := id; ar_execution_id := ex_id e; ar_step_execution_id := es_id s; ar_approval_policy_id := ap_id ap;
     ar_status := ApprovalStatus.PENDING; ar_decision_mode := ap_decision_mode ap;
     ar_required_approvals := ap_required_approvals ap; ar_approval_scope := ap_approver_scope ap;
     ar_context_snapshot := JObj context_snapshot; ar_context_hash := context_hash; ar_requested_at := ts;
     ar_expires_at := ts + seconds (ap_default_expiry_seconds ap); ar_resolved_at := None;
     ar_requested_by := ex_requester_id e; ar_lock_version := 1 |}.

(** ** [ApprovalWaitService] *)
Record approval_wait_outcome := ApprovalWaitOutcome {
  aw_execution_id : uuid;
  aw_step_execution_id : uuid;
  aw_approval_request_id : uuid;
  aw_context_hash : string;
  aw_reused_existing : bool }.

Definition execution_waiting (e : execution) : bool := bool_decide (ex_status e = ExecutionStatus.WAITING_APPROVAL).
Definition step_waiting (s : execution_step) : bool := bool_decide (es_status s = StepStatus.WAITING_APPROVAL).

Definition reuse_pending (st : store) (s : execution_step) : res approval_wait_outcome :=
  let e := st_execution st in
  _ ← raise_if (negb (Bool.eqb (execution_waiting e) (step_waiting s)))
        (conflict "One-sided WAITING_APPROVAL is inconsistent (execution={execution.status}, step={step.status}).");
  _ ← raise_if (negb (execution_waiting e && step_waiting s))
        (conflict "Approval wait reuse requires Execution and Step WAITING_APPROVAL.");
  existing ← find_pending_for_step (ex_id e) (es_id s) st;
  existing ← of_option (conflict "WAITING_APPROVAL without PENDING ApprovalRequest is inconsistent.") existing;
  Ok (ApprovalWaitOutcome (ex_id e) (es_id s) (ar_id existing) (ar_context_hash existing) true).

(** [_apply_waiting_state], the events and the two version bumps *)
Definition wait_execution (e : execution) : execution :=
  e |> set_ex_status ExecutionStatus.WAITING_APPROVAL |> clear_execution_lease.
Definition apply_waiting_state (s : execution_step) (request : approval_request) (ts : Z) (st : store) : store :=
  let e := st_execution st in
  st |> upd_step (es_id s) (set_es_status StepStatus.WAITING_APPROVAL) |> upd_execution wait_execution
     |> emit_of_step ts s |> emit_execution_status_changed (ex_status e) ts |> emit_approval_requested request ts
     |> upd_step (es_id s) bump_step |> upd_execution bump_execution.
Definition add_request (r : approval_request) (st : store) : store := set_st_approvals (st_approvals st ++ [r]) st.
Definition wait_outcome (st : store) (s : execution_step) (r : approval_request) : approval_wait_outcome :=
  ApprovalWaitOutcome (ex_id (st_execution st)) (es_id s) (ar_id r) (ar_context_hash r) false.

Definition enter_for_tool_step (new_id : uuid) (tool_config : option agent_tool_config) (tp : mcp_tool_policy)
    (ap : approval_policy) (resolved_input : option (dict json)) (ts : Z) (s : execution_step) (st : store)
    : res (store * approval_wait_outcome) :=
  let e := st_execution st in
  if execution_waiting e || step_waiting s then o ← reuse_pending st s; Ok (st, o)
  else
    _ ← raise_if (negb (bool_decide (ex_status e = ExecutionStatus.RUNNING)))
          (conflict "Execution must be RUNNING to enter WAITING_APPROVAL (got {execution.status}).");
    _ ← raise_if (negb (bool_decide (es_status s = StepStatus.READY)))
          (conflict "TOOL Step must be READY to enter WAITING_APPROVAL (got {step.status}).");
    _ ← raise_if (negb (bool_decide (Some (ap_id ap) = mp_approval_policy_id tp)))
          (precondition_failed "ApprovalPolicy id does not match ToolPolicy.approval_policy_id.");
    _ ← raise_if (ap_default_expiry_seconds ap <=? 0)%Z
          (precondition_failed "ApprovalPolicy.default_expiry_seconds must be > 0.");
    existing ← find_pending_for_step (ex_id e) (es_id s) st;
    _ ← raise_if (is_some existing)
          (conflict "PENDING ApprovalRequest already exists while Execution is RUNNING and Step is READY.");
    resolved_input ← match resolved_input with
      | Some r => Ok r
      | None =>
          cfg ← of_option (precondition_failed "ToolPolicy approval wait requires resolved_input or tool_config bindings.")
                  tool_config;
          Ok (materialize_secret_safe_resolved_input (atc_bindings cfg))
      end;
    context_snapshot ← build_approval_context_snapshot e s tp ap resolved_input;
    context_hash ← compute_approval_context_hash context_snapshot;
    let request := create_pending new_id e s ap context_snapshot context_hash ts in
    let st := st |> add_request request |> apply_waiting_state s request ts in
    Ok (st, wait_outcome st s request).

(** [status = READY; ready_at = ts if it is unset] *)
Definition ready_checkpoint (ts : Z) (s : execution_step) : execution_step :=
  s |> set_es_status StepStatus.READY |> set_es_ready_at (match es_ready_at s with Some t => Some t | None => Some ts end).

Section approval.
Context {schema : PlanSchema} {parser : PlanParser}.

Definition enter_for_approval_step (new_id : uuid) (p : plan) (steps : list execution_step) (ap : approval_policy)
    (ts : Z) (s : execution_step) (st : store) : res (store * approval_wait_outcome) :=
  let e := st_execution st in
  if execution_waiting e || step_waiting s then o ← reuse_pending st s; Ok (st, o)
  else
    _ ← raise_if (negb (bool_decide (ex_status e = ExecutionStatus.RUNNING)))
          (conflict "Execution must be RUNNING to enter WAITING_APPROVAL (got {execution.status}).");
    _ ← raise_if (negb (bool_decide (es_status s ∈ [StepStatus.PENDING; StepStatus.READY])))
          (conflict "APPROVAL Step must be PENDING or READY to enter WAITING_APPROVAL (got {step.status}).");
    _ ← raise_if (negb (bool_decide (es_step_type s = StepType.APPROVAL)))
          (conflict "enter_for_approval_step requires APPROVAL Step type.");
    _ ← raise_if (negb (String.eqb (ap_status ap) "ACTIVE"))
          (precondition_failed "ApprovalPolicy must be ACTIVE for authorable APPROVAL.");
    _ ← raise_if (ap_default_expiry_seconds ap <=? 0)%Z
          (precondition_failed "ApprovalPolicy.default_expiry_seconds must be > 0.");
    existing ← find_pending_for_step (ex_id e) (es_id s) st;
    _ ← raise_if (is_some existing)
          (conflict "PENDING ApprovalRequest already exists while Execution is RUNNING for this APPROVAL Step.");
    context_snapshot ← build_approval_step_context_snapshot e s p ap steps;
    context_hash ← compute_approval_step_context_hash context_snapshot;
    let pending := bool_decide (es_status s = StepStatus.PENDING) in
    let ready := if pending then ready_checkpoint ts s else s in
    let st := if pending then st |> upd_step (es_id s) (ready_checkpoint ts) |> emit_of_step ts s else st in
    let request := create_pending new_id e ready ap context_snapshot context_hash ts in
    let st := st |> add_request request |> apply_waiting_state ready request ts in
    Ok (st, wait_outcome st s request).

(** ** Resolution without approval *)
Definition ERROR_APPROVAL_REJECTED : string := "APPROVAL_REJECTED".
Definition ERROR_APPROVAL_EXPIRED : string := "APPROVAL_EXPIRED".

(** The step of a request that was not approved *)
Definition fail_step (error_code : string) (now : Z) (s : execution_step) : execution_step :=
  s |> set_es_status StepStatus.FAILED |> set_es_error_code (Some error_code) |> set_es_finished_at (Some now) |> bump_step.

(** The execution with it; [message] is [None] where the code assigns nothing. *)
Definition fail_waiting_execution (error_code : string) (message : option (option string)) (steps : list execution_step)
    (now : Z) (e : execution) : execution :=
  let e := e |> set_ex_status ExecutionStatus.FAILED |> set_ex_error_code (Some error_code) in
  let e := match message with Some m => set_ex_error_message m e | None => e end in
  e |> set_ex_result_summary (build_result_summary ExecutionStatus.FAILED steps None)
    |> set_ex_finished_at (Some now) |> clear_execution_lease |> bump_execution.

(** The rows of a dict of steps, written back by id *)
Definition write_steps (rows : list execution_step) (st : store) : store :=
  set_st_steps ((λ s, default s (row_by es_id (es_id s) rows)) <$> st_steps st) st.

(** [by_key] after the cleanup of an authorable checkpoint *)
Definition stopped_rows (authorable : bool) (all_steps : list execution_step) (failed : execution_step) (now : Z)
    : list execution_step :=
  let by_key := dict_set (es_step_key failed) failed (dict_comp es_step_key id all_steps) in
  dict_values (if authorable && (1 <? length all_steps)%nat
               then (cancel_unused_ready_tools (skip_all_pending by_key now).1 now).1 else by_key).

(** [s.status == SKIPPED] among the rows that were PENDING *)
Definition emit_skipped (before rows : list execution_step) (now : Z) (st : store) : store :=
  foldl (λ st r, match row_by es_id (es_id r) (filter (λ s, es_status s = StepStatus.PENDING) before) with
                 | Some s => if decide (es_status r = StepStatus.SKIPPED)
                             then emit_step_status_changed r (es_status s) now st else st
                 | None => st
                 end) st rows.

(** The transition both endings share: the request, the step, the other rows,
    the execution and the events, in this order. *)
Definition resolve_failed (status : approval_status) (error_code : string) (message : option (option string))
    (decision : option decision_value) (authorable : bool) (request : approval_request) (s : execution_step)
    (all_steps : list execution_step) (now : Z) (st : store) : store :=
  let failed := fail_step error_code now s in
  let rows := stopped_rows authorable all_steps failed now in
  let previous := ex_status (st_execution st) in
  st |> upd_request (ar_id request) (λ r, r |> set_ar_status status |> set_ar_resolved_at (Some now)
                                            |> set_ar_lock_version (ar_lock_version r + 1)%Z)
     |> write_steps rows
     |> upd_execution (fail_waiting_execution error_code message rows now)
     |> emit_approval_decided request status decision now
     |> emit_step_status_changed failed (es_status s) now
     |> emit_skipped all_steps rows now
     |> emit_execution_status_changed previous now.

(** [_terminalize_rejected] with the events around it; [all_steps] was read
    before the step was assigned and shares its row. *)
Definition reject_request (decision : decision_value) (authorable : bool) (request : approval_request)
    (s : execution_step) (now : Z) (st : store) : store :=
  resolve_failed ApprovalStatus.REJECTED ERROR_APPROVAL_REJECTED
    (Some (if authorable then Some "Authorable APPROVAL Step was rejected." else None))
    (Some decision) authorable request s (list_steps st) now st.

(** [_terminalize_expired], which reads the steps without an order *)
Definition terminalize_expired (request : approval_request) (s : execution_step) (now : Z) (st : store) : store :=
  let all_steps := filter (λ x, es_execution_id x = ex_id (st_execution st)) (st_steps st) in
  resolve_failed ApprovalStatus.EXPIRED ERROR_APPROVAL_EXPIRED None None
    (is_authorable_step_context (ar_context_snapshot request)) request s all_steps now st.

(** ** [ApprovalDecisionService.decide] *)
(** The arguments of [AuditWriter.append] *)
Record audit_append := AuditAppend {
  au_actor_id : uuid;
  au_action : string;
  au_resource_type : string;
  au_resource_id : uuid;
  au_execution_id : uuid;
  au_change_set : json;
  au_occurred_at : Z }.

Record approval_db := ApprovalDb {
  db_store : store;
  db_decisions : list approval_decision;
  db_outbox : list outbox_event;
  db_audit : list audit_append }.
Definition with_store (f : store → store) (db : approval_db) : approval_db :=
  ApprovalDb (f (db_store db)) (db_decisions db) (db_outbox db) (db_audit db).

Record decision_outcome := ApprovalDecisionOutcome {
  do_decision_id : uuid;
  do_approval_request_id : uuid;
  do_approval_status : approval_status;
  do_execution_id : uuid;
  do_step_execution_id : uuid;
  do_execution_status : execution_status;
  do_step_status : step_status;
  do_decision : decision_value;
  do_decided_by : uuid;
  do_decided_at : Z;
  do_resume_enqueued : bool }.

Definition auth_forbidden (message : string) : py_error := AppError "AUTH_FORBIDDEN" message 403.
Definition not_found (message : string) : py_error := AppError "RESOURCE_NOT_FOUND" message 404.
Definition APPROVAL_DECIDE : string := "approval.decide".

Definition assert_actor_authorized (d : directory) (actor : uuid) : res unit :=
  _ ← raise_if (negb match get_user d actor with Some u => active u | None => false end)
        (auth_forbidden "Actor is not an ACTIVE user.");
  raise_if (negb (has_permission d actor APPROVAL_DECIDE)) (auth_forbidden "Missing approval.decide permission.").
Definition assert_role_scope (d : directory) (actor : uuid) (codes : list string) : res unit :=
  raise_if (negb (existsb (λ r, bool_decide (ro_code r ∈ codes)) (list_roles d actor)))
    (auth_forbidden "Actor does not match ApprovalRequest approver_scope.role_codes.").

(** [list_for_request] and [find_by_actor] *)
Definition list_for_request (request_id : uuid) (rows : list approval_decision) : list approval_decision :=
  sort_by (λ a b, (ad_decided_at a <? ad_decided_at b)%Z
                  || (ad_decided_at a =? ad_decided_at b)%Z && (ad_id a <=? ad_id b)%N)
    (filter (λ r, ad_approval_request_id r = request_id) rows).
Definition find_by_actor (request_id actor : uuid) (rows : list approval_decision) : option approval_decision :=
  find_first (λ r, bool_decide (ad_approval_request_id r = request_id ∧ ad_decided_by r = actor)) rows.

(** The rows the decision locks *)
Definition lock_request (approval_id : uuid) (st : store) : res (approval_request * execution_step) :=
  request ← of_option (not_found "ApprovalRequest not found.") (get_request approval_id st);
  _ ← raise_if (negb (bool_decide (ar_execution_id request = ex_id (st_execution st))))
        (not_found "Execution not found for ApprovalRequest.");
  let inconsistent := conflict "ApprovalRequest Step lineage is inconsistent." in
  step ← of_option inconsistent (get_step (ar_step_execution_id request) st);
  _ ← raise_if (negb (bool_decide (es_execution_id step = ex_id (st_execution st)))) inconsistent;
  Ok (request, step).

(** The checks between the expiry and the insert; the snapshot the vote is
    bound to *)
Definition check_vote (c : catalog) (d : directory) (db : approval_db) (request : approval_request)
    (step : execution_step) (actor : uuid) (decision : decision_value) (comment : option string) : res (dict json) :=
  let st := db_store db in
  let e := st_execution st in
  _ ← raise_if (negb (execution_waiting e) || negb (step_waiting step))
        (conflict ("Approval decision requires Execution and Step WAITING_APPROVAL "
           +:+ "(execution={execution.status}, step={step.status})."));
  codes ← validate_approver_scope (ar_approval_scope request);
  _ ← match codes with Some codes => assert_role_scope d actor codes | None => Ok tt end;
  snapshot ← assert_current_context_matches_request c request e step None None (Some (list_steps st)) None;
  allow_self ← snapshotted_allow_self_approval snapshot;
  _ ← raise_if (negb allow_self && bool_decide (actor = ar_requested_by request))
        (auth_forbidden "Self-approval is not allowed for this ApprovalRequest.");
  comment_required ← snapshotted_reject_comment_required snapshot;
  _ ← raise_if (bool_decide (decision = REJECT) && comment_required && negb (is_some comment))
        (AppError "VALIDATION_ERROR" "Reject comment is required." 422);
  _ ← raise_if (is_some (find_by_actor (ar_id request) actor (db_decisions db)))
        (conflict "Actor has already decided on this ApprovalRequest.");
  Ok snapshot.

(** [comment.strip()], an empty one dropped *)
Definition trim_comment (comment : option string) : option string :=
  match comment with Some s => if str_empty (strip s) then None else Some (strip s) | None => None end.

(** What the votes do to the request, by [terminal] *)
Definition approve_request (outbox_id : uuid) (request : approval_request) (decision : decision_value) (now : Z)
    (db : approval_db) : res approval_db :=
  let e := st_execution (db_store db) in
  let st := upd_request (ar_id request) (λ r, r |> set_ar_status ApprovalStatus.APPROVED
              |> set_ar_resolved_at (Some now) |> set_ar_lock_version (ar_lock_version r + 1)%Z) (db_store db) in
  outbox ← insert_outbox (create_execution_approval_resume outbox_id (ex_id e) (ar_id request) now) (db_outbox db);
  Ok (ApprovalDb (emit_approval_decided request ApprovalStatus.APPROVED (Some decision) now st) (db_decisions db)
        outbox (db_audit db)).
Definition apply_terminal (outbox_id : uuid) (terminal : option approval_status) (authorable : bool)
    (request : approval_request) (step : execution_step) (decision : decision_value) (now : Z) (db : approval_db)
    : res (approval_db * bool) :=
  match terminal with
  | Some ApprovalStatus.APPROVED => db ← approve_request outbox_id request decision now db; Ok (db, true)
  | Some ApprovalStatus.REJECTED => Ok (with_store (reject_request decision authorable request step now) db, false)
  | _ => Ok (db, false)
  end.

(** The audit append and the outcome, from the rows as they are then *)
Definition audit_of (actor : uuid) (request : approval_request) (step : execution_step) (decision : decision_value)
    (now : Z) (db : approval_db) : audit_append :=
  let status := match get_request (ar_id request) (db_store db) with Some r => ar_status r | None => ar_status request end in
  AuditAppend actor "approval.decision" "APPROVAL_REQUEST" (ar_id request) (ex_id (st_execution (db_store db)))
    (JObj [("decision", JStr (decision_str decision)); ("approval_status", JStr (approval_status_value status));
           ("step_execution_id", JStr (uuid_str (es_id step)))]) now.
Definition outcome_of (row : approval_decision) (request : approval_request) (step : execution_step) (resume : bool)
    (db : approval_db) : decision_outcome :=
  let st := db_store db in
  ApprovalDecisionOutcome (ad_id row) (ar_id request)
    (match get_request (ar_id request) st with Some r => ar_status r | None => ar_status request end)
    (ex_id (st_execution st)) (es_id step) (ex_status (st_execution st))
    (match get_step (es_id step) st with Some s => es_status s | None => es_status step end)
    (ad_decision row) (ad_decided_by row) (ad_decided_at row) resume.

(** [decide] up to its commit: the committed rows and what the call ends with.
    The expired path commits before it raises. *)
Definition decide_tx (c : catalog) (d : directory) (decision_id outbox_id approval_id actor : uuid)
    (decision : decision_value) (comment : option string) (now : Z) (db : approval_db)
    : res (approval_db * res decision_outcome) :=
  let comment := trim_comment comment in
  rs ← lock_request approval_id (db_store db);
  let '(request, step) := rs in
  _ ← assert_actor_authorized d actor;
  _ ← raise_if (negb (bool_decide (ar_status request = ApprovalStatus.PENDING)))
        (conflict "ApprovalRequest is not PENDING (got {request.status}).");
  if (ar_expires_at request <=? now)%Z then
    Ok (with_store (terminalize_expired request step now) db,
        Err (AppError "APPROVAL_EXPIRED" "ApprovalRequest has expired." 409))
  else
    snapshot ← check_vote c d db request step actor decision comment;
    let row := ApprovalDecision decision_id (ar_id request) actor decision comment (ar_context_hash request) now in
    let db := ApprovalDb (db_store db) (db_decisions db ++ [row]) (db_outbox db) (db_audit db) in
    terminal ← aggregate_decision (ar_decision_mode request) (ar_required_approvals request)
                 (list_for_request (ar_id request) (db_decisions db));
    r ← apply_terminal outbox_id terminal (is_authorable_step_context (JObj snapshot)) request step decision now db;
    let db := ApprovalDb (db_store r.1) (db_decisions r.1) (db_outbox r.1)
                (db_audit r.1 ++ [audit_of actor request step decision now r.1]) in
    Ok (db, Ok (outcome_of row request step r.2 db)).

(** The call ([decide]): an exception before the commit leaves the rows as they were. *)
Definition decide_vote (c : catalog) (d : directory) (decision_id outbox_id approval_id actor : uuid)
    (decision : decision_value) (comment : option string) (now : Z) (db : approval_db)
    : approval_db * res decision_outcome :=
  match decide_tx c d decision_id outbox_id approval_id actor decision comment now db with
  | Ok r => r
  | Err e => (db, Err e)
  end.
End approval.

(** ** [ApprovalExpiryService.expire_due_batch] *)
Definition EXPIRY_MAX_BATCH : Z := 500.
Definition check_expiry_limit (limit : Z) : res unit :=
  raise_if ((limit <? 1)%Z || (EXPIRY_MAX_BATCH <? limit)%Z)
    (AppError "VALIDATION_ERROR" "expiry batch limit must be between 1 and {_MAX_BATCH}." 400).

Definition list_expired_pending_ids (now limit : Z) (rows : list approval_request) : list uuid :=
  ar_id <$> take (Z.to_nat limit)
    (sort_by (λ a b, (ar_expires_at a <? ar_expires_at b)%Z
                     || (ar_expires_at a =? ar_expires_at b)%Z && (ar_id a <=? ar_id b)%N)
       (filter (λ r, ar_status r = ApprovalStatus.PENDING ∧ (ar_expires_at r <= now)%Z) rows)).

(** The body of the loop: expired or skipped *)
Definition expire_one (now : Z) (st : store) (request_id : uuid) : store * bool :=
  match get_request request_id st with
  | None => (st, false)
  | Some request =>
      let e := st_execution st in
      match get_step (ar_step_execution_id request) st with
      | Some step =>
          if negb (bool_decide (ar_status request = ApprovalStatus.PENDING))
             || negb (bool_decide (ar_execution_id request = ex_id e))
             || negb (bool_decide (es_execution_id step = ex_id e))
             || negb (ar_expires_at request <=? now)%Z
             || negb (execution_waiting e) || negb (step_waiting step)
          then (st, false)
          else
            let authorable := is_authorable_step_context (ar_context_snapshot request) in
            (resolve_failed ApprovalStatus.EXPIRED ERROR_APPROVAL_EXPIRED
               (if authorable then Some (Some "Authorable APPROVAL Step expired.") else None) None authorable request step
               (list_steps st) now st, true)
      | None => (st, false)
      end
  end.
Definition expire_loop (now : Z) (ids : list uuid) (st : store) : store * Z :=
  foldl (λ sn id, let r := expire_one now sn.1 id in (r.1, if r.2 then (sn.2 + 1)%Z else sn.2)) (st, 0%Z) ids.

(** [ExpiryBatchResult]: selected, expired.  The batch runs over the requests
    of one execution here; a request of another execution is untouched by it. *)
Definition expire_due_batch (limit now : Z) (st : store) : res (store * Z * Z) :=
  _ ← check_expiry_limit limit;
  let ids := list_expired_pending_ids now limit (st_approvals st) in
  let r := expire_loop now ids st in
  Ok (r.1, Z.of_nat (length ids), r.2).
