(* ===== verification/ApprovalSound.v ===== *)
(** * What an approval guarantees

    The votes of a request over every sequence of waits, decisions, expiries
    and cancellations; what one decision does; and that the snapshot a wait
    stores is read back as evidence. *)
From S2P Require Import Prelude PyStr PyDict Json PyUuid CanonicalHash Domain LoopRuntime Completion DagSchedule Rows.
From S2P Require Import Cancellation PolicySelection RetryDecision ToolLineage Preflight Authorization ApprovalContext.
From S2P Require Import Outbox ApprovalEvidence Approval.

(** ** Rows a resolution leaves alone *)
Lemma emit_approval_rows t r s d now st :
  let st' := emit_approval t r s d now st in
  st_execution st' = st_execution st ∧ st_steps st' = st_steps st ∧ st_approvals st' = st_approvals st.
Proof. done. Qed.

Lemma emit_skipped_rows before rows now st :
  let st' := emit_skipped before rows now st in
  st_execution st' = st_execution st ∧ st_steps st' = st_steps st ∧ st_approvals st' = st_approvals st.
Proof.
  unfold emit_skipped. revert st. induction rows as [|r rows IH]; intros st; [done|]. cbn [foldl]. simpl in IH |- *.
  destruct (row_by _ _ _) as [s|]; [|apply IH]. case_decide; [|apply IH].
  destruct (IH (emit_step_status_changed r (es_status s) now st)) as (-> & -> & ->).
  destruct (emit_step_rows r (es_status s) now st) as (-> & -> & _ & _ & -> & _). done.
Qed.

(** The resolution of a request, on the requests *)
Definition resolve_row (status : approval_status) (now : Z) (r : approval_request) : approval_request :=
  r |> set_ar_status status |> set_ar_resolved_at (Some now) |> set_ar_lock_version (ar_lock_version r + 1)%Z.

Lemma resolve_failed_rows status code m dec auth request s all now st :
  let st' := resolve_failed status code m dec auth request s all now st in
  st_approvals st' = upd_where (λ r, ar_id r = ar_id request) (resolve_row status now) (st_approvals st) ∧
  st_execution st' = fail_waiting_execution code m (stopped_rows auth all (fail_step code now s) now) now (st_execution st) ∧
  st_steps st' = (λ x, default x (row_by es_id (es_id x) (stopped_rows auth all (fail_step code now s) now))) <$> st_steps st.
Proof.
  unfold resolve_failed. simpl.
  destruct (emit_execution_rows (ex_status (st_execution st)) now
    (emit_skipped all (stopped_rows auth all (fail_step code now s) now) now
      (emit_step_status_changed (fail_step code now s) (es_status s) now
        (emit_approval_decided request status dec now
          (upd_execution (fail_waiting_execution code m (stopped_rows auth all (fail_step code now s) now) now)
            (write_steps (stopped_rows auth all (fail_step code now s) now)
              (upd_request (ar_id request) (resolve_row status now) st))))))) as (E1 & E2 & _ & _ & E3 & _).
  unfold resolve_row in E1, E2, E3. rewrite E1, E2, E3.
  match goal with |- context [emit_skipped ?a ?b ?n ?s] => destruct (emit_skipped_rows a b n s) as (-> & -> & ->) end.
  match goal with |- context [emit_step_status_changed ?a ?b ?n ?s] =>
    destruct (emit_step_rows a b n s) as (-> & -> & _ & _ & -> & _) end.
  done.
Qed.

(** ** The ballot: an abstract specification

    Requests and votes only.  A request is opened under a fresh id, closed
    without approval while PENDING, or voted on. *)
Definition ballot : Type := list approval_request * list approval_decision.
Definition votes_on (r : approval_request) (ds : list approval_decision) : list approval_decision :=
  list_for_request (ar_id r) ds.

(** The pinned policy of the request lets the requester vote. *)
Definition self_vote_allowed (r : approval_request) : Prop :=
  ∃ d, ar_context_snapshot r = JObj d ∧ snapshotted_allow_self_approval d = Ok true.

Record fair_vote (r : approval_request) (ds : list approval_decision) (v : approval_decision) : Prop := FairVote {
  fv_request : ad_approval_request_id v = ar_id r;
  fv_hash : ad_context_hash v = ar_context_hash r;
  fv_first : ∀ w, w ∈ ds → ad_approval_request_id w = ar_id r → ad_decided_by w ≠ ad_decided_by v;
  fv_self : ad_decided_by v = ar_requested_by r → self_vote_allowed r }.

Definition resolve_if (id : uuid) (t : option approval_status) (now : Z) (rs : list approval_request) : list approval_request :=
  match t with Some s => upd_where (λ r, ar_id r = id) (resolve_row s now) rs | None => rs end.

Inductive ballot_step : ballot → ballot → Prop :=
| ballot_open rs ds r :
    ar_id r ∉ ar_id <$> rs → ar_status r = ApprovalStatus.PENDING → ballot_step (rs, ds) (rs ++ [r], ds)
| ballot_close rs ds (p : approval_request → Prop) `{∀ r, Decision (p r)} s now :
    s ≠ ApprovalStatus.APPROVED → (∀ r, r ∈ rs → p r → ar_status r = ApprovalStatus.PENDING) →
    ballot_step (rs, ds) (upd_where p (resolve_row s now) rs, ds)
| ballot_vote rs ds r v t now :
    r ∈ rs → ar_status r = ApprovalStatus.PENDING → fair_vote r ds v →
    aggregate_decision (ar_decision_mode r) (ar_required_approvals r) (votes_on r (ds ++ [v])) = Ok t →
    ballot_step (rs, ds) (resolve_if (ar_id r) t now rs, ds ++ [v]).

(** What every reachable ballot satisfies *)
Record ballot_ok (b : ballot) : Prop := BallotOk {
  bo_ids : NoDup (ar_id <$> b.1);
  bo_votes v : v ∈ b.2 → ∃ r, r ∈ b.1 ∧ ad_approval_request_id v = ar_id r ∧ ad_context_hash v = ar_context_hash r ∧
    (ad_decided_by v = ar_requested_by r → self_vote_allowed r);
  bo_distinct id : NoDup (ad_decided_by <$> filter (λ v, ad_approval_request_id v = id) b.2);
  bo_approved r : r ∈ b.1 → ar_status r = ApprovalStatus.APPROVED →
    aggregate_decision (ar_decision_mode r) (ar_required_approvals r) (votes_on r b.2) = Ok (Some ApprovalStatus.APPROVED) }.

Lemma elem_of_votes_on v r ds : v ∈ votes_on r ds ↔ v ∈ ds ∧ ad_approval_request_id v = ar_id r.
Proof. unfold votes_on, list_for_request. rewrite sort_by_perm, list_elem_of_filter. naive_solver. Qed.

Lemma votes_on_other r ds v : ad_approval_request_id v ≠ ar_id r → votes_on r (ds ++ [v]) = votes_on r ds.
Proof.
  intros Hne. unfold votes_on, list_for_request. f_equal. rewrite filter_app, filter_cons_False by done.
  by rewrite filter_nil, app_nil_r.
Qed.

(** Resolution changes neither what a request is nor its votes. *)
Lemma resolve_row_same s now r ds :
  ar_id (resolve_row s now r) = ar_id r ∧ votes_on (resolve_row s now r) ds = votes_on r ds ∧
  ar_context_hash (resolve_row s now r) = ar_context_hash r ∧ ar_requested_by (resolve_row s now r) = ar_requested_by r ∧
  self_vote_allowed (resolve_row s now r) = self_vote_allowed r ∧
  ar_decision_mode (resolve_row s now r) = ar_decision_mode r ∧
  ar_required_approvals (resolve_row s now r) = ar_required_approvals r ∧ ar_status (resolve_row s now r) = s.
Proof. done. Qed.

Lemma upd_resolve_votes (p : approval_request → Prop) `{∀ r, Decision (p r)} s now rs v :
  (∃ r, r ∈ rs ∧ ad_approval_request_id v = ar_id r ∧ ad_context_hash v = ar_context_hash r ∧
    (ad_decided_by v = ar_requested_by r → self_vote_allowed r)) →
  ∃ r, r ∈ upd_where p (resolve_row s now) rs ∧ ad_approval_request_id v = ar_id r ∧
    ad_context_hash v = ar_context_hash r ∧ (ad_decided_by v = ar_requested_by r → self_vote_allowed r).
Proof.
  intros (r & Hr & Hid & Hh & Hs). exists (if decide (p r) then resolve_row s now r else r). split.
  - apply elem_of_upd_where. by exists r.
  - by case_decide.
Qed.

Lemma ballot_step_ok b b' : ballot_step b b' → ballot_ok b → ballot_ok b'.
Proof.
  intros Hstep [Hids Hv Hd Ha]. destruct Hstep as [rs ds r Hfresh Hp|rs ds p ? s now Hs Hp|rs ds r v t now Hr Hp Hf Hag];
    simpl in *.
  - split; simpl; [| |done|].
    + rewrite fmap_app. apply NoDup_app. split; [done|]. split; [|apply NoDup_singleton].
      intros x Hx ->%list_elem_of_singleton. done.
    + intros v Hin. destruct (Hv v Hin) as (r0 & Hr0 & H). exists r0. split; [apply elem_of_app; by left|done].
    + intros r0 [Hr0|Hr0%list_elem_of_singleton]%elem_of_app; [by apply Ha|]. subst. congruence.
  - split; simpl; [|intros v Hin; by apply upd_resolve_votes, Hv|done|].
    + rewrite upd_where_proj; done.
    + intros r Hr Hst. apply elem_of_upd_where in Hr as (r0 & Hr0 & ->). case_decide; [done|by apply Ha].
  - destruct Hf as [Hfr Hfh Hff Hfs].
    assert (∀ r0, r0 ∈ rs → ar_status r0 = ApprovalStatus.APPROVED → ar_id r0 ≠ ar_id r) as Hother.
    { intros r0 Hr0 Hst Heq. assert (r0 = r) as -> by (by apply (key_inj ar_id rs)). congruence. }
    split; simpl.
    + unfold resolve_if. destruct t; [by rewrite upd_where_proj|done].
    + intros w [Hw|Hw%list_elem_of_singleton]%elem_of_app.
      * destruct t; [by apply upd_resolve_votes, Hv|by apply Hv].
      * subst w. destruct t; [apply upd_resolve_votes|]; by exists r.
    + intros id. rewrite filter_app, fmap_app. apply NoDup_app. split; [done|].
      destruct (decide (ad_approval_request_id v = id)) as [Heq|Hne];
        [rewrite filter_cons_True by done|rewrite filter_cons_False by done]; rewrite filter_nil; simpl;
        [|split; [intros x _ ?%elem_of_nil; done|apply NoDup_nil_2]].
      split; [|apply NoDup_singleton]. intros x Hx ->%list_elem_of_singleton.
      apply list_elem_of_fmap in Hx as (w & Hw & Hin). apply list_elem_of_filter in Hin as [Hid Hin].
      apply (Hff w Hin); [congruence|done].
    + intros r0 Hr0 Hst. destruct t as [s|]; simpl in Hr0.
      * apply elem_of_upd_where in Hr0 as (r1 & Hr1 & ->). destruct (decide (ar_id r1 = ar_id r)) as [Heq|Hne].
        -- assert (r1 = r) as -> by (by apply (key_inj ar_id rs)). simpl in Hst. subst s. exact Hag.
        -- rewrite votes_on_other by congruence. by apply Ha.
      * rewrite votes_on_other; [by apply Ha|]. rewrite Hfr. apply not_eq_sym. by apply Hother.
Qed.

(** ** The services refine the ballot *)
Definition ballot_of (db : approval_db) : ballot := (st_approvals (db_store db), db_decisions db).
Definition request_key (b : ballot) : Prop := NoDup (ar_id <$> b.1).

Lemma get_request_Some id st r : get_request id st = Some r → r ∈ st_approvals st ∧ ar_id r = id.
Proof. apply find_key_Some. Qed.

Lemma lock_request_Ok id st r s :
  lock_request id st = Ok (r, s) →
  r ∈ st_approvals st ∧ ar_id r = id ∧ ar_execution_id r = ex_id (st_execution st) ∧ s ∈ st_steps st ∧
  es_id s = ar_step_execution_id r ∧ es_execution_id s = ex_id (st_execution st).
Proof.
  unfold lock_request. intros H. apply bind_Ok in H as (r' & Hr%of_option_Ok & H).
  apply bind_Ok in H as ([] & He & H). apply bind_Ok in H as (s' & Hs%of_option_Ok & H).
  inv_res. apply get_request_Some in Hr as [Hr Hid]. apply find_key_Some in Hs as [Hs Hsid]. done.
Qed.

Lemma closed_by_id (rs : list approval_request) r :
  NoDup (ar_id <$> rs) → r ∈ rs → ar_status r = ApprovalStatus.PENDING →
  ∀ x, x ∈ rs → ar_id x = ar_id r → ar_status x = ApprovalStatus.PENDING.
Proof. intros Hnd Hr Hp x Hx Heq. assert (x = r) as -> by (by apply (key_inj ar_id rs)). done. Qed.

Section decide.
Context {schema : PlanSchema} {parser : PlanParser}.

(** A vote that passes the checks is fair. *)
Lemma check_vote_fair c d db r s actor dec comment snapshot id now :
  check_vote c d db r s actor dec comment = Ok snapshot → ar_context_snapshot r = JObj snapshot →
  fair_vote r (db_decisions db) (ApprovalDecision id (ar_id r) actor dec comment (ar_context_hash r) now).
Proof.
  intros H Hc. unfold check_vote in H. apply bind_Ok in H as ([] & _ & H). apply bind_Ok in H as (codes & _ & H).
  apply bind_Ok in H as ([] & _ & H). apply bind_Ok in H as (sn & _ & H). apply bind_Ok in H as (self & Hself & H).
  apply bind_Ok in H as ([] & Hne%raise_if_Ok & H). apply bind_Ok in H as (cr & _ & H).
  apply bind_Ok in H as ([] & _ & H). apply bind_Ok in H as ([] & Hf%raise_if_Ok & [= ->]).
  split; simpl; [done|done| |].
  - intros w Hw Hid Heq. unfold find_by_actor in Hf. destruct (find_first _ _) eqn:E; [done|].
    rewrite find_first_None in E. specialize (E w Hw). apply bool_decide_eq_false in E. naive_solver.
  - intros ->. exists snapshot. split; [done|]. rewrite bool_decide_true, andb_true_r in Hne by done.
    destruct self; [done|discriminate Hne].
Qed.

(** The snapshot a check returns is the one the request stores. *)
Lemma validate_stored_Ok v d : validate_stored_context_snapshot v = Ok d → v = JObj d.
Proof.
  unfold validate_stored_context_snapshot. destruct v as [| | | | | |o]; try discriminate.
  destruct (py_eq _ (JStr APPROVAL_STEP_CONTEXT_SCHEMA_VERSION)); intros H.
  - unfold validate_stored_approval_step_context in H. repeat (apply bind_Ok in H as (? & _ & H)).
    destruct (get_or_none "upstream_evidence" o); try discriminate. by apply bind_Ok in H as (? & _ & [= ->]).
  - repeat (apply bind_Ok in H as (? & _ & H)). destruct (get_or_none "tool_policy" o); try discriminate.
    destruct (get_or_none "approval_policy" o); try discriminate. by apply bind_Ok in H as (? & _ & [= ->]).
Qed.

Lemma intact_snapshot r d : assert_request_context_hash_intact r = Ok d → ar_context_snapshot r = JObj d.
Proof. unfold assert_request_context_hash_intact. intros H. apply bind_Ok in H as (d' & Hd%validate_stored_Ok & H). by inv_res. Qed.

Lemma check_vote_snapshot c d db r s actor dec comment snapshot :
  check_vote c d db r s actor dec comment = Ok snapshot →
  assert_current_context_matches_request c r (st_execution (db_store db)) s None None (Some (list_steps (db_store db))) None
    = Ok snapshot ∧ ar_context_snapshot r = JObj snapshot ∧ execution_waiting (st_execution (db_store db)) = true ∧
  step_waiting s = true.
Proof.
  intros H. unfold check_vote in H. apply bind_Ok in H as ([] & Hw & H). apply bind_Ok in H as (codes & _ & H).
  apply bind_Ok in H as ([] & _ & H). apply bind_Ok in H as (sn & Hsn & H).
  repeat (apply bind_Ok in H as (? & _ & H)). injection H as <-. split; [done|]. split; [|by inv_res].
  unfold assert_current_context_matches_request in Hsn. apply bind_Ok in Hsn as (stored & Hst%intact_snapshot & Hsn).
  repeat (apply bind_Ok in Hsn as (? & _ & Hsn)). by injection Hsn as <-.
Qed.

Lemma apply_terminal_ballot oid t auth r s dec now db db' resume :
  apply_terminal oid t auth r s dec now db = Ok (db', resume) →
  db_decisions db' = db_decisions db ∧
  st_approvals (db_store db') = match t with
    | Some ApprovalStatus.APPROVED => resolve_if (ar_id r) (Some ApprovalStatus.APPROVED) now (st_approvals (db_store db))
    | Some ApprovalStatus.REJECTED => resolve_if (ar_id r) (Some ApprovalStatus.REJECTED) now (st_approvals (db_store db))
    | _ => st_approvals (db_store db)
    end.
Proof.
  unfold apply_terminal, approve_request. intros H.
  destruct t as [[]|]; try (injection H as <- _; done); [|].
  - apply bind_Ok in H as (db1 & Hdb & [= <- _]). apply bind_Ok in Hdb as (o & _ & [= <-]). done.
  - injection H as <- _. split; [done|]. unfold with_store. cbn [db_store]. unfold reject_request.
    by destruct (resolve_failed_rows ApprovalStatus.REJECTED ERROR_APPROVAL_REJECTED
      (Some (if auth then Some "Authorable APPROVAL Step was rejected." else None)) (Some dec) auth r s
      (list_steps (db_store db)) now (db_store db)) as (-> & _).
Qed.

(** The outcomes of the rule *)
Lemma aggregate_outcomes mode n ds t :
  aggregate_decision mode n ds = Ok t → t = None ∨ t = Some ApprovalStatus.APPROVED ∨ t = Some ApprovalStatus.REJECTED.
Proof.
  unfold aggregate_decision. intros H. apply bind_Ok in H as (? & _ & H).
  repeat (match type of H with (if ?b then _ else _) = _ => destruct b end; try discriminate H);
    injection H as <-; repeat case_match; auto.
Qed.

Lemma decide_ballot c d did oid aid actor dec comment now db :
  request_key (ballot_of db) →
  let db' := (decide_vote c d did oid aid actor dec comment now db).1 in
  ballot_of db' = ballot_of db ∨ ballot_step (ballot_of db) (ballot_of db').
Proof.
  intros Hk db'. unfold db', decide_vote. destruct (decide_tx _ _ _ _ _ _ _ _ _ _) as [[db1 out]|] eqn:H; [|by left].
  cbn [fst]. unfold decide_tx in H. apply bind_Ok in H as ([r s] & (Hr & Hid & _)%lock_request_Ok & H).
  apply bind_Ok in H as ([] & _ & H). apply bind_Ok in H as ([] & Hp & H).
  assert (ar_status r = ApprovalStatus.PENDING) as Hpend by (by inv_res). clear Hp.
  right. destruct (ar_expires_at r <=? now)%Z.
  - injection H as <- _. unfold ballot_of, with_store, terminalize_expired. cbn [db_store db_decisions].
    match goal with |- context [resolve_failed ?a ?b ?m ?e ?f ?g ?h ?i ?j ?k] =>
      destruct (resolve_failed_rows a b m e f g h i j k) as (-> & _) end.
    apply ballot_close; [done|]. intros x Hx. by apply (closed_by_id (st_approvals (db_store db))).
  - apply bind_Ok in H as (snapshot & Hc & H). apply bind_Ok in H as (t & Ht & H).
    apply bind_Ok in H as ([db2 resume] & Ha & [= <- _]). pose proof (check_vote_snapshot _ _ _ _ _ _ _ _ _ Hc) as (_ & Hsn & _).
    apply apply_terminal_ballot in Ha as [Hd Hst]. cbn [db_store db_decisions] in *.
    unfold ballot_of. cbn [db_store db_decisions fst snd]. rewrite Hd, Hst.
    pose proof (ballot_vote (st_approvals (db_store db)) (db_decisions db) r _ t now Hr Hpend
      (check_vote_fair _ _ _ _ _ _ _ _ _ did now Hc Hsn) Ht) as Hb.
    destruct (aggregate_outcomes _ _ _ _ Ht) as [->|[->| ->]]; exact Hb.
Qed.
End decide.

Lemma expire_one_ballot now st id ds :
  request_key (st_approvals st, ds) →
  st_approvals (expire_one now st id).1 = st_approvals st ∨
  ballot_step (st_approvals st, ds) (st_approvals (expire_one now st id).1, ds).
Proof.
  intros Hk. unfold expire_one. destruct (get_request id st) as [r|] eqn:Er; [|by left].
  destruct (get_step _ st) as [s|]; [|by left].
  destruct (negb (bool_decide (ar_status r = ApprovalStatus.PENDING)) || _ || _ || _ || _ || _) eqn:Eg; [by left|].
  right. cbn [fst]. match goal with |- context [resolve_failed ?a ?b ?m ?e ?f ?g ?h ?i ?j ?k] =>
      destruct (resolve_failed_rows a b m e f g h i j k) as (-> & _) end.
  apply get_request_Some in Er as [Hr _]. apply ballot_close; [done|]. intros x Hx.
  apply (closed_by_id (st_approvals st)); try done. by inv_res.
Qed.

Lemma ballot_step_key b b' : ballot_step b b' → request_key b → request_key b'.
Proof.
  unfold request_key. intros [rs ds r Hf _|rs ds p ? s now _ _|rs ds r v t now _ _ _ _] Hk; simpl in *.
  - rewrite fmap_app. apply NoDup_app. split; [done|]. split; [|apply NoDup_singleton].
    intros x Hx ->%list_elem_of_singleton. done.
  - by rewrite upd_where_proj.
  - unfold resolve_if. destruct t; [by rewrite upd_where_proj|done].
Qed.

Lemma expire_loop_ballot now ids st n ds :
  request_key (st_approvals st, ds) →
  rtc ballot_step (st_approvals st, ds)
    (st_approvals (foldl (λ sn id, let r := expire_one now sn.1 id in (r.1, if r.2 then (sn.2 + 1)%Z else sn.2)) (st, n) ids).1, ds).
Proof.
  revert st n. induction ids as [|id ids IH]; intros st n Hk; [apply rtc_refl|]. cbn [foldl fst snd].
  destruct (expire_one_ballot now st id ds Hk) as [Heq|Hs].
  - rewrite <- Heq. apply IH. by rewrite Heq.
  - eapply rtc_l; [exact Hs|]. apply IH. by eapply ballot_step_key.
Qed.

(** A wait opens a request or reuses the pending one. *)
Lemma waiting_state_approvals s r ts st : st_approvals (apply_waiting_state s r ts st) = st_approvals st.
Proof.
  unfold apply_waiting_state. cbn [st_approvals upd_execution upd_step set_st_execution set_st_steps].
  unfold emit_approval_requested, emit_approval. cbn [st_approvals append_event set_st_events].
  match goal with |- context [emit_execution_status_changed ?p ?n ?s] =>
    destruct (emit_execution_rows p n s) as (_ & _ & _ & _ & -> & _) end.
  by match goal with |- context [emit_of_step ?n ?x ?s] => destruct (emit_of_step_rows n x s) as (_ & _ & _ & _ & -> & _) end.
Qed.

Lemma enter_tool_ballot id cfg tp ap ri ts s st st' o ds :
  id ∉ ar_id <$> st_approvals st →
  enter_for_tool_step id cfg tp ap ri ts s st = Ok (st', o) →
  st_approvals st' = st_approvals st ∨ ballot_step (st_approvals st, ds) (st_approvals st', ds).
Proof.
  intros Hf H. unfold enter_for_tool_step in H. destruct (execution_waiting _ || step_waiting s).
  { apply bind_Ok in H as (x & _ & [= <- _]). by left. }
  repeat (apply bind_Ok in H as (? & _ & H)). injection H as <- _. right. rewrite waiting_state_approvals.
  unfold add_request. cbn [st_approvals set_st_approvals]. by apply ballot_open.
Qed.

Section wait.
Context {schema : PlanSchema}.

Lemma enter_approval_ballot id p steps ap ts s st st' o ds :
  id ∉ ar_id <$> st_approvals st → enter_for_approval_step id p steps ap ts s st = Ok (st', o) →
  st_approvals st' = st_approvals st ∨ ballot_step (st_approvals st, ds) (st_approvals st', ds).
Proof.
  intros Hf H. unfold enter_for_approval_step in H. destruct (execution_waiting _ || step_waiting s).
  { apply bind_Ok in H as (x & _ & [= <- _]). by left. }
  repeat (apply bind_Ok in H as (? & _ & H)). injection H as <- _. right. rewrite waiting_state_approvals.
  unfold add_request. cbn [st_approvals set_st_approvals].
  assert (st_approvals (if bool_decide (es_status s = StepStatus.PENDING)
     then emit_of_step ts s (upd_step (es_id s) (ready_checkpoint ts) st) else st) = st_approvals st) as ->.
  { case_bool_decide; [|done]. by destruct (emit_of_step_rows ts s (upd_step (es_id s) (ready_checkpoint ts) st)) as (_ & _ & _ & _ & -> & _). }
  by apply ballot_open.
Qed.
End wait.

(** ** The services as a step relation *)
Section steps.
Context {schema : PlanSchema} {parser : PlanParser}.

(** One transaction on the requests of an execution.  The catalog and the
    directory are whatever they are at that moment; [uuid4] is fresh. *)
Inductive approval_step : approval_db → approval_db → Prop :=
| step_decide c d did oid aid actor dec comment now db :
    approval_step db (decide_vote c d did oid aid actor dec comment now db).1
| step_expire limit now db st n m :
    expire_due_batch limit now (db_store db) = Ok (st, n, m) → approval_step db (with_store (λ _, st) db)
| step_cancel now db : approval_step db (with_store (cancel_pending_approvals now) db)
| step_wait_tool id cfg tp ap ri ts s db st o :
    id ∉ ar_id <$> st_approvals (db_store db) → enter_for_tool_step id cfg tp ap ri ts s (db_store db) = Ok (st, o) →
    approval_step db (with_store (λ _, st) db)
| step_wait_approval id p steps ap ts s db st o :
    id ∉ ar_id <$> st_approvals (db_store db) → enter_for_approval_step id p steps ap ts s (db_store db) = Ok (st, o) →
    approval_step db (with_store (λ _, st) db)
(** any other transaction: the requests and the votes stay as they are *)
| step_other db db' :
    st_approvals (db_store db') = st_approvals (db_store db) → db_decisions db' = db_decisions db → approval_step db db'.

Lemma approval_step_ballot db db' :
  request_key (ballot_of db) → approval_step db db' → rtc ballot_step (ballot_of db) (ballot_of db').
Proof.
  intros Hk Hs. revert Hk.
  destruct Hs as [c d did oid aid actor dec comment now db0|limit now db0 st n m H|now db0
                 |id cfg tp ap ri ts s db0 st o Hf H|id p steps ap ts s db0 st o Hf H|db0 db1 Ha Hd]; intros Hk.
  - destruct (decide_ballot c d did oid aid actor dec comment now db0 Hk) as [->|Hs]; [apply rtc_refl|by apply rtc_once].
  - unfold expire_due_batch in H. apply bind_Ok in H as ([] & _ & [= <- _ _]). by apply expire_loop_ballot.
  - apply rtc_once. unfold ballot_of, with_store, cancel_pending_approvals. cbn [db_store db_decisions st_approvals set_st_approvals].
    apply (ballot_close (st_approvals (db_store db0)) (db_decisions db0) _ ApprovalStatus.CANCELLED now); [done|].
    by intros r _ [_ Hr].
  - destruct (enter_tool_ballot id cfg tp ap ri ts s _ _ o (db_decisions db0) Hf H) as [Heq|Hs].
    + unfold ballot_of, with_store. cbn [db_store db_decisions]. rewrite Heq. apply rtc_refl.
    + by apply rtc_once.
  - destruct (enter_approval_ballot id p steps ap ts s _ _ o (db_decisions db0) Hf H) as [Heq|Hs].
    + unfold ballot_of, with_store. cbn [db_store db_decisions]. rewrite Heq. apply rtc_refl.
    + by apply rtc_once.
  - unfold ballot_of. rewrite Ha, Hd. apply rtc_refl.
Qed.
End steps.

(** ** The rule *)
(** The votes a mode asks for *)
Definition needed_votes (mode : string) (required : Z) : Z := if String.eqb mode "ANY" then 1 else required.

Lemma aggregate_approved mode n ds :
  aggregate_decision mode n ds = Ok (Some ApprovalStatus.APPROVED) →
  (1 ≤ n ∧ 1 ≤ needed_votes mode n ≤ votes APPROVE ds)%Z ∧ (mode = "ALL" → votes REJECT ds = 0%Z).
Proof.
  unfold aggregate_decision, needed_votes. intros H. apply bind_Ok in H as ([] & Hn%raise_if_Ok%Z.ltb_ge & H).
  assert (0 ≤ votes REJECT ds)%Z by (unfold votes; lia).
  destruct (String.eqb mode "ANY") eqn:E1.
  { apply String.eqb_eq in E1 as ->. destruct (1 <=? votes APPROVE ds)%Z eqn:E; [|destruct (1 <=? votes REJECT ds)%Z; discriminate H].
    apply Z.leb_le in E. split; [lia|done]. }
  destruct (String.eqb mode "ALL") eqn:E2.
  { destruct (1 <=? votes REJECT ds)%Z eqn:E; [discriminate H|]. destruct (n <=? votes APPROVE ds)%Z eqn:Ea; [|discriminate H].
    apply Z.leb_le in Ea. apply Z.leb_gt in E. split; [lia|]. intros _. lia. }
  destruct (String.eqb mode "QUORUM") eqn:E3; [|discriminate H].
  destruct (n <=? votes APPROVE ds)%Z eqn:Ea; [|destruct (n <=? votes REJECT ds)%Z; discriminate H].
  apply Z.leb_le in Ea. split; [lia|]. intros ->. done.
Qed.

Lemma filter_fmap_nodup {A B} (f : A → B) (P : A → Prop) `{∀ x, Decision (P x)} (l : list A) :
  NoDup (f <$> l) → NoDup (f <$> filter P l).
Proof.
  induction l as [|x l IH]; [done|]. cbn [fmap list_fmap]. intros [Hx Hl]%NoDup_cons.
  destruct (decide (P x)); [rewrite filter_cons_True by done|rewrite filter_cons_False by done; auto].
  cbn [fmap list_fmap]. apply NoDup_cons. split; [|auto]. intros (y & Hy & Hin)%list_elem_of_fmap.
  apply Hx. rewrite Hy. apply list_elem_of_fmap_2. by apply list_elem_of_filter in Hin as [_ ?].
Qed.

Lemma ballot_reachable_ok b b' : rtc ballot_step b b' → ballot_ok b → ballot_ok b'.
Proof. induction 1 as [|x y z Hs _ IH]; [done|]. intros Hx. by eapply IH, ballot_step_ok. Qed.

Lemma empty_ballot_ok : ballot_ok ([], []).
Proof.
  split; simpl; [by apply NoDup_nil_2| | |].
  - by intros v ?%elem_of_nil.
  - intros id. apply NoDup_nil_2.
  - by intros r ?%elem_of_nil.
Qed.

(** Enough distinct users approved, each with a vote bound to the context of
    the request and none against the policy on self-approval; in mode ALL nobody
    rejected. *)
Definition quorum_met (r : approval_request) (ds : list approval_decision) : Prop :=
  ∃ approvers, NoDup approvers ∧
    (needed_votes (ar_decision_mode r) (ar_required_approvals r) ≤ Z.of_nat (length approvers))%Z ∧
    (1 ≤ Z.of_nat (length approvers))%Z ∧
    (∀ a, a ∈ approvers → ∃ v, v ∈ ds ∧ ad_approval_request_id v = ar_id r ∧ ad_decided_by v = a ∧
       ad_decision v = APPROVE ∧ ad_context_hash v = ar_context_hash r ∧ (a = ar_requested_by r → self_vote_allowed r)) ∧
    (ar_decision_mode r = "ALL" → ∀ v, v ∈ ds → ad_approval_request_id v = ar_id r → ad_decision v = APPROVE).

Lemma ballot_ok_quorum b r :
  ballot_ok b → r ∈ b.1 → ar_status r = ApprovalStatus.APPROVED →
  quorum_met r b.2.
Proof.
  intros [Hids Hv Hd Ha] Hr Hst. destruct (aggregate_approved _ _ _ (Ha r Hr Hst)) as [(Hn & H1 & H2) Hall].
  exists (ad_decided_by <$> filter (λ v, ad_decision v = APPROVE) (votes_on r b.2)). split_and!.
  - apply filter_fmap_nodup. unfold votes_on, list_for_request. by rewrite sort_by_perm.
  - rewrite length_fmap. exact H2.
  - rewrite length_fmap. unfold votes in H2. lia.
  - intros a (v & -> & Hin)%list_elem_of_fmap. apply list_elem_of_filter in Hin as [Hdec [Hin Hid]%elem_of_votes_on].
    exists v. destruct (Hv v Hin) as (r' & Hr' & Hid' & Hh & Hs).
    assert (r' = r) as -> by (apply (key_inj ar_id b.1); [done..|congruence]). done.
  - intros Hm v Hin Hid. destruct (ad_decision v) eqn:E; [done|]. exfalso.
    assert (v ∈ filter (λ v, ad_decision v = REJECT) (votes_on r b.2)) as Hf
      by (by rewrite list_elem_of_filter, elem_of_votes_on).
    specialize (Hall Hm). unfold votes in Hall. destruct (filter _ _); [by apply elem_of_nil in Hf|]. simpl in Hall. lia.
Qed.

Section claims.
Context {schema : PlanSchema} {parser : PlanParser}.

(** C26: Every transaction on approval requests (decision, expiry sweep, cancellation, entering a wait) is a run of the
    abstract ballot: requests opened under a fresh id, closed without approval while PENDING, or given one fair vote and
    resolved as the rule says. *)
Theorem approval_refines_ballot db db' :
  NoDup (ar_id <$> st_approvals (db_store db)) → approval_step db db' → rtc ballot_step (ballot_of db) (ballot_of db').
Proof. apply approval_step_ballot. Qed.

Lemma approval_run_ballot db db' :
  request_key (ballot_of db) → rtc approval_step db db' → rtc ballot_step (ballot_of db) (ballot_of db').
Proof.
  intros Hk Hrun. induction Hrun as [|x y z Hs _ IH]; [apply rtc_refl|].
  pose proof (approval_step_ballot x y Hk Hs) as Hxy. etrans; [exact Hxy|]. apply IH.
  clear -Hk Hxy. induction Hxy as [|b b' b'' Hb _ IHb]; [done|]. by eapply IHb, ballot_step_key.
Qed.

Lemma approved_quorum db db' r :
  st_approvals (db_store db) = [] → db_decisions db = [] → rtc approval_step db db' →
  r ∈ st_approvals (db_store db') → ar_status r = ApprovalStatus.APPROVED →
  quorum_met r (db_decisions db').
Proof.
  intros Ha Hd Hrun Hr Hst. apply (ballot_ok_quorum (ballot_of db')); [|done|done].
  assert (ballot_of db = ([], [])) as Hb by (unfold ballot_of; by rewrite Ha, Hd).
  apply (ballot_reachable_ok (ballot_of db)).
  - apply approval_run_ballot; [|done]. rewrite Hb. apply NoDup_nil_2.
  - rewrite Hb. apply empty_ballot_ok.
Qed.

(** C22: Over every interleaving of decisions, expiries, cancellations, waits and
    transactions that leave the requests alone, a request is APPROVED only with enough
    APPROVE votes of distinct users under its mode, each bound to the hash of its context, none by the requester unless
    the pinned policy allows it, and without a REJECT in mode ALL. *)
Theorem approved_only_with_quorum db db' r :
  st_approvals (db_store db) = [] → db_decisions db = [] → rtc approval_step db db' →
  r ∈ st_approvals (db_store db') → ar_status r = ApprovalStatus.APPROVED →
  quorum_met r (db_decisions db').
Proof. apply approved_quorum. Qed.
End claims.

(** ** One decision *)
Lemma get_request_upd st st' id f r :
  st_approvals st' = upd_where (λ r, ar_id r = id) f (st_approvals st) → (∀ x, ar_id (f x) = ar_id x) →
  get_request id st = Some r → get_request id st' = Some (f r).
Proof.
  intros Hst Hf Hr. unfold get_request, row_by in *. rewrite Hst, (find_first_upd_where ar_id) by done. rewrite Hr.
  apply find_key_Some in Hr as [_ Hid]. simpl. by rewrite decide_True.
Qed.

Lemma lock_request_get id st r s : lock_request id st = Ok (r, s) → get_request id st = Some r ∧ get_step (es_id s) st = Some s.
Proof.
  unfold lock_request. intros H. apply bind_Ok in H as (r' & Hr%of_option_Ok & H).
  apply bind_Ok in H as ([] & _ & H). apply bind_Ok in H as (s' & Hs%of_option_Ok & H).
  inv_res. split; [done|]. pose proof (find_key_Some _ _ _ _ Hs) as [_ ->]. done.
Qed.

(** What approval, rejection and an open vote leave *)
Definition resume_row (oid : uuid) (db : approval_db) (r : approval_request) (now : Z) : outbox_event :=
  create_execution_approval_resume oid (ex_id (st_execution (db_store db))) (ar_id r) now.
Record rejected (now : Z) (db db' : approval_db) : Prop := Rejected {
  rj_execution : ex_status (st_execution (db_store db')) = ExecutionStatus.FAILED;
  rj_code : ex_error_code (st_execution (db_store db')) = Some "APPROVAL_REJECTED";
  rj_finished : ex_finished_at (st_execution (db_store db')) = Some now;
  rj_lease : ex_worker_id (st_execution (db_store db')) = None ∧ ex_lease_token (st_execution (db_store db')) = None ∧
             ex_lease_expires_at (st_execution (db_store db')) = None ∧ ex_heartbeat_at (st_execution (db_store db')) = None;
  rj_outbox : db_outbox db' = db_outbox db }.

Section decision.
Context {schema : PlanSchema} {parser : PlanParser}.

(** The facts every recorded vote rests on *)
Record accepted_vote (c : catalog) (d : directory) (actor : uuid) (dec : decision_value) (now : Z) (db : approval_db)
    (r : approval_request) (s : execution_step) : Prop := AcceptedVote {
  av_pending : ar_status r = ApprovalStatus.PENDING;
  av_in_time : (now < ar_expires_at r)%Z;
  av_actor : assert_actor_authorized d actor = Ok tt;
  av_waiting : ex_status (st_execution (db_store db)) = ExecutionStatus.WAITING_APPROVAL ∧
               es_status s = StepStatus.WAITING_APPROVAL;
  av_context : ∃ snapshot, ar_context_snapshot r = JObj snapshot ∧
    assert_current_context_matches_request c r (st_execution (db_store db)) s None None (Some (list_steps (db_store db))) None
      = Ok snapshot;
  av_fair : ∀ id comment, fair_vote r (db_decisions db) (ApprovalDecision id (ar_id r) actor dec comment (ar_context_hash r) now) }.

Lemma apply_terminal_effect oid t auth r s dec now db db' resume :
  apply_terminal oid t auth r s dec now db = Ok (db', resume) →
  match t with
  | Some ApprovalStatus.APPROVED =>
      resume = true ∧ st_execution (db_store db') = st_execution (db_store db) ∧
      st_steps (db_store db') = st_steps (db_store db) ∧ db_outbox db' = db_outbox db ++ [resume_row oid db r now]
  | Some ApprovalStatus.REJECTED => resume = false ∧ rejected now db db'
  | _ => resume = false ∧ db' = db
  end.
Proof.
  unfold apply_terminal, approve_request. intros H.
  destruct t as [[]|]; try (injection H as <- <-; done); [|].
  - apply bind_Ok in H as (db1 & Hdb & [= <- <-]). apply bind_Ok in Hdb as (o & Ho & [= <-]).
    unfold insert_outbox in Ho. apply bind_Ok in Ho as ([] & _ & [= <-]). done.
  - injection H as <- <-. split; [done|]. unfold with_store, reject_request. split; cbn [db_store db_outbox]; try done;
      match goal with |- context [resolve_failed ?a ?b ?m ?e ?f ?g ?h ?i ?j ?k] =>
        destruct (resolve_failed_rows a b m e f g h i j k) as (_ & -> & _) end; done.
Qed.

(** C24: A recorded vote was cast in time, by an ACTIVE user with the permission, on an execution and a step that wait
    for it, against a context that is intact and current, once per user and not by a requester the policy excludes.  It
    adds exactly that vote; the request then is PENDING with nothing else changed, APPROVED with one resume message and
    the execution as it was, or REJECTED with the execution FAILED and without lease.  A refused call changes nothing,
    except that a vote on an expired request first ends it. *)
Theorem decide_vote_spec c d did oid aid actor dec comment now db :
  match decide_vote c d did oid aid actor dec comment now db with
  | (db', Ok o) => ∃ r s, lock_request aid (db_store db) = Ok (r, s) ∧ accepted_vote c d actor dec now db r s ∧
      db_decisions db' = db_decisions db ++ [ApprovalDecision did aid actor dec (trim_comment comment) (ar_context_hash r) now] ∧
      match do_approval_status o with
      | ApprovalStatus.PENDING => db_store db' = db_store db ∧ db_outbox db' = db_outbox db ∧ do_resume_enqueued o = false
      | ApprovalStatus.APPROVED =>
          do_resume_enqueued o = true ∧ st_execution (db_store db') = st_execution (db_store db) ∧
          st_steps (db_store db') = st_steps (db_store db) ∧ db_outbox db' = db_outbox db ++ [resume_row oid db r now]
      | ApprovalStatus.REJECTED => do_resume_enqueued o = false ∧ rejected now db db'
      | _ => False
      end
  | (db', Err e) => db' = db ∨
      ∃ r s, lock_request aid (db_store db) = Ok (r, s) ∧ ar_status r = ApprovalStatus.PENDING ∧
        (ar_expires_at r ≤ now)%Z ∧ assert_actor_authorized d actor = Ok tt ∧
        e = AppError "APPROVAL_EXPIRED" "ApprovalRequest has expired." 409 ∧
        db' = with_store (terminalize_expired r s now) db
  end.
Proof.
  unfold decide_vote. destruct (decide_tx _ _ _ _ _ _ _ _ _ _) as [[db' out]|] eqn:H; [|by left].
  unfold decide_tx in H. apply bind_Ok in H as ([r s] & Hl & H).
  destruct (lock_request_get _ _ _ _ Hl) as [Hget _]. destruct (lock_request_Ok _ _ _ _ Hl) as (Hr & Hid & _).
  apply bind_Ok in H as ([] & Hact & H). apply bind_Ok in H as ([] & Hp & H).
  assert (ar_status r = ApprovalStatus.PENDING) as Hpend by (by inv_res). clear Hp.
  destruct (ar_expires_at r <=? now)%Z eqn:Et.
  { injection H as <- <-. right. exists r, s. apply Z.leb_le in Et. by rewrite Hl. }
  apply Z.leb_gt in Et. apply bind_Ok in H as (snapshot & Hc & H). apply bind_Ok in H as (t & Ht & H).
  apply bind_Ok in H as ([db2 resume] & Ha & [= <- <-]).
  destruct (check_vote_snapshot _ _ _ _ _ _ _ _ _ Hc) as (Hcur & Hsn & Hwe & Hws).
  exists r, s. split; [done|]. split.
  { split; try done.
    - unfold execution_waiting, step_waiting in *. by inv_res.
    - by exists snapshot.
    - intros id cm. destruct (check_vote_fair _ _ _ _ _ _ _ _ _ did now Hc Hsn). by split. }
  pose proof (apply_terminal_effect _ _ _ _ _ _ _ _ _ _ Ha) as He.
  apply apply_terminal_ballot in Ha as [Hd Hst]. cbn [db_store db_decisions db_outbox fst snd] in *.
  split; [by rewrite Hd, Hid|]. unfold outcome_of. cbn [do_approval_status do_resume_enqueued db_store].
  destruct (aggregate_outcomes _ _ _ _ Ht) as [->|[->| ->]].
  - destruct He as [-> ->]. cbn [db_store db_outbox]. rewrite Hid, Hget, Hpend. done.
  - rewrite Hid in *. rewrite (get_request_upd (db_store db) (db_store db2) aid (resolve_row ApprovalStatus.APPROVED now) r)
      by done. exact He.
  - rewrite Hid in *. rewrite (get_request_upd (db_store db) (db_store db2) aid (resolve_row ApprovalStatus.REJECTED now) r)
      by done. destruct He as [-> []]. by split.
Qed.
End decision.
