(* ===== verification/ApprovalResume.v ===== *)
(** The claim of a resume message, and that a quorum precedes it. *)
From S2P Require Import Prelude PyStr PyDict Json PyUuid CanonicalHash Domain LoopRuntime Completion DagSchedule Rows.
From S2P Require Import Cancellation PolicySelection RetryDecision ToolLineage Claim Preflight Authorization.
From S2P Require Import ApprovalContext Outbox ApprovalEvidence Approval ApprovalSound.

(** * Resuming an approved execution ([execution/approval_resume.py])

    The claim that turns WAITING_APPROVAL with an APPROVED request into RUNNING
    with a READY step and a fresh lease, and the ending of an execution whose
    conditions no longer hold.  The row locks make it a function of the rows;
    [uuid4] is an argument. *)

Inductive resume_reason := ResumeMissing | ResumeStale | ResumePreconditionFailed.

Record approval_resume_outcome := ApprovalResumeClaimOutcome {
  rc_execution_id : uuid;
  rc_approval_request_id : uuid;
  rc_claimed : bool;
  rc_status : option execution_status;
  rc_worker_id : option string;
  rc_lease_token : option uuid;
  rc_lease_expires_at : option Z;
  rc_ready_step_id : option uuid;
  rc_reason : option resume_reason }.

(** ** Ending an execution that cannot resume *)
Definition APPROVAL_RESUME_PRECONDITION_FAILED : string := "APPROVAL_RESUME_PRECONDITION_FAILED".

(** [emit_step_transitions] ([execution/events.py]): [before] is the snapshot of
    statuses, by the rows it was taken from. *)
Definition emit_step_transitions (before rows : list execution_step) (now : Z) (st : store) : store :=
  foldl (λ st r, match row_by es_id (es_id r) before with
                 | Some s => emit_step_status_changed r (es_status s) now st
                 | None => st
                 end) st rows.

(** [_terminalize_resume_precondition_failed] *)
Definition terminalize_resume_failed (authorable : bool) (s : execution_step) (steps : list execution_step) (now : Z)
    (st : store) : store :=
  let failed := fail_step APPROVAL_RESUME_PRECONDITION_FAILED now s in
  let rows := stopped_rows authorable steps failed now in
  let previous := ex_status (st_execution st) in
  st |> write_steps rows
     |> upd_execution (fail_waiting_execution APPROVAL_RESUME_PRECONDITION_FAILED None rows now)
     |> emit_step_status_changed failed (es_status s) now
     |> emit_step_transitions steps rows now
     |> emit_execution_status_changed previous now.

Definition resume_outcome (st : store) (request_id : uuid) (reason : resume_reason) : approval_resume_outcome :=
  ApprovalResumeClaimOutcome (ex_id (st_execution st)) request_id false (Some (ex_status (st_execution st))) None None
    None None (Some reason).
Definition precondition_failed_resume (authorable : bool) (request : approval_request) (s : execution_step)
    (steps : list execution_step) (now : Z) (st : store) : store * approval_resume_outcome :=
  let st := terminalize_resume_failed authorable s steps now st in
  (st, resume_outcome st (ar_id request) ResumePreconditionFailed).

(** ** The fresh claim *)
(** A second lease: [started_at] and [queued_at] stay. *)
Definition take_resume_lease (worker : string) (token : uuid) (now expires_at : Z) (e : execution) : execution :=
  e |> set_ex_status ExecutionStatus.RUNNING |> set_ex_worker_id (Some worker) |> set_ex_lease_token (Some token)
    |> set_ex_lease_expires_at (Some expires_at) |> set_ex_heartbeat_at (Some now) |> bump_execution.
Definition ready_again (now : Z) (s : execution_step) : execution_step := s |> ready_checkpoint now |> bump_step.

Definition apply_fresh_claim (lease_seconds : Z) (token : uuid) (worker : string) (request : approval_request)
    (s : execution_step) (now : Z) (st : store) : store * approval_resume_outcome :=
  let expires_at := (now + seconds lease_seconds)%Z in
  let previous := ex_status (st_execution st) in
  (st |> upd_execution (take_resume_lease worker token now expires_at) |> emit_execution_status_changed previous now
      |> upd_step (es_id s) (ready_again now) |> emit_of_step now s,
   ApprovalResumeClaimOutcome (ex_id (st_execution st)) (ar_id request) true (Some ExecutionStatus.RUNNING) (Some worker)
     (Some token) (Some expires_at) (Some (es_id s)) None).

(** ** Structural preconditions *)
(** The checks both variants make of the request and the step *)
Definition assert_resumable_request (e : execution) (s : execution_step) (request : approval_request) : res unit :=
  _ ← raise_if (negb (bool_decide (ar_execution_id request = ex_id e))
                || negb (bool_decide (ar_step_execution_id request = es_id s)))
        (conflict "ApprovalRequest does not belong to this Execution/Step.");
  _ ← raise_if (negb (bool_decide (ar_status request = ApprovalStatus.APPROVED)) || negb (is_some (ar_resolved_at request)))
        (conflict "Approval resume requires APPROVED request with resolved_at.");
  raise_if (negb (step_waiting s)) (conflict "Approval resume requires Step WAITING_APPROVAL (got {step.status}).").

Section resume.
Context {schema : PlanSchema} {parser : PlanParser}.

(** The plan the execution pins *)
Definition assert_pinned_plan (e : execution) (p : plan) : res unit :=
  let inconsistent := conflict "Execution plan snapshot/hash lineage is inconsistent." in
  _ ← raise_if (negb (String.eqb (ex_plan_schema_version e) (plan_schema_version p))) inconsistent;
  h ← compute_plan_hash (ex_plan_snapshot e);
  raise_if (negb (String.eqb h (ex_plan_hash e))) inconsistent.
(** [expected is None or expected.model_dump(...) != step.step_snapshot or plan_step.type != t] *)
Definition assert_exact_projection (p : plan) (s : execution_step) (plan_step : plan_step) (t : step_type)
    (message : string) : res unit :=
  expected ← of_option (conflict message) (plan_step_with_id p (es_step_key s));
  raise_if (negb (py_eq (dump_step expected) (es_step_snapshot s)) || negb (bool_decide (ps_type plan_step = t)))
    (conflict message).

Definition AUTHORABLE_RESUME_SOURCES : list string := [AGENT_REQUEST; MANUAL_TOOL_TEST; WORKFLOW_VERSION; SCHEDULE_OCCURRENCE].
Definition TOOL_RESUME_SOURCES : list string := [AGENT_REQUEST; WORKFLOW_VERSION; SCHEDULE_OCCURRENCE].

Definition assert_authorable_structural_preconditions (e : execution) (s : execution_step) (request : approval_request)
    : res unit :=
  _ ← raise_if (negb (bool_decide (ex_source_type e ∈ AUTHORABLE_RESUME_SOURCES)))
        (conflict ("Authorable approval resume supports AGENT_REQUEST / MANUAL_TOOL_TEST / WORKFLOW_VERSION / "
           +:+ "SCHEDULE_OCCURRENCE Executions only."));
  _ ← assert_resumable_request e s request;
  _ ← raise_if (negb (bool_decide (es_step_type s = StepType.APPROVAL)))
        (conflict "Authorable approval resume requires APPROVAL Step type.");
  _ ← raise_if (negb (is_authorable_step_context (ar_context_snapshot request)))
        (conflict "Authorable approval resume requires approval_step_context.v1.");
  _ ← raise_if (owns_lease e) (conflict "WAITING_APPROVAL Execution unexpectedly owns a lease.");
  let invalid := conflict "Execution plan/step snapshot is invalid for authorable resume." in
  p ← of_option invalid (validate_plan (ex_plan_snapshot e));
  plan_step ← of_option invalid (validate_step (es_step_snapshot s));
  cfg ← of_option invalid (validate_approval_config (ps_config plan_step));
  _ ← assert_pinned_plan e p;
  _ ← assert_exact_projection p s plan_step StepType.APPROVAL "APPROVAL Step is not an exact immutable Plan projection.";
  _ ← raise_if (is_some (es_mcp_tool_version_id s)) (conflict "APPROVAL Step must have null mcp_tool_version_id.");
  raise_if (negb (bool_decide (ar_approval_policy_id request = ac_approval_policy_id cfg)))
    (conflict "ApprovalRequest policy id does not match APPROVAL Step config.").

(** The config of a tool step: of an agent's plan of one step, or of a workflow *)
Definition agent_resume_config (p : plan) (s : execution_step) (plan_step : plan_step) : res uuid :=
  tool_config ← of_option (conflict "Execution plan/step snapshot is invalid for resume.")
                  (validate_agent_tool_config (ps_config plan_step));
  let inconsistent := conflict "Execution plan/step snapshot lineage is inconsistent." in
  match pl_steps p with
  | [only] =>
      _ ← raise_if (negb (py_eq (dump_step only) (es_step_snapshot s))) inconsistent;
      Ok (atc_tool_version_id tool_config)
  | _ => Err inconsistent
  end.
Definition workflow_resume_config (e : execution) (p : plan) (s : execution_step) (plan_step : plan_step) : res uuid :=
  tool_config ← of_option (conflict "Execution plan/step snapshot is invalid for resume.")
                  (validate_tool_config (ps_config plan_step));
  _ ← assert_exact_projection p s plan_step StepType.TOOL "TOOL Step is not an exact immutable Plan projection.";
  _ ← raise_if (negb (is_some (ex_workflow_version_id e)))
        (conflict "Workflow ToolPolicy approval resume requires pinned workflow_version_id.");
  Ok (tc_tool_version_id tool_config).

(** [_assert_structural_resume_preconditions]: of the config the callers use the
    tool version. *)
Definition assert_structural_resume_preconditions (e : execution) (s : execution_step) (request : approval_request)
    (steps : list execution_step) : res uuid :=
  _ ← raise_if (negb (bool_decide (ex_source_type e ∈ TOOL_RESUME_SOURCES)))
        (conflict ("ToolPolicy approval resume supports AGENT_REQUEST / WORKFLOW_VERSION / SCHEDULE_OCCURRENCE "
           +:+ "Executions only."));
  _ ← assert_resumable_request e s request;
  _ ← raise_if (owns_lease e) (conflict "WAITING_APPROVAL Execution unexpectedly owns a lease.");
  _ ← raise_if (negb (bool_decide (es_step_type s = StepType.TOOL)))
        (conflict "ToolPolicy approval resume requires TOOL Step type.");
  let agent := String.eqb (ex_source_type e) AGENT_REQUEST in
  _ ← raise_if (agent && negb (length steps =? 1)%nat)
        (conflict "AgentRequest foundation Execution must contain exactly one Step.");
  _ ← raise_if (agent && negb (String.eqb (es_step_key s) DETERMINISTIC_TOOL_STEP_ID))
        (conflict "Approval resume Step is not the foundation TOOL Step.");
  let invalid := conflict "Execution plan/step snapshot is invalid for resume." in
  p ← of_option invalid (validate_plan (ex_plan_snapshot e));
  plan_step ← of_option invalid (validate_step (es_step_snapshot s));
  _ ← assert_pinned_plan e p;
  tool_version_id ← (if agent then agent_resume_config p s plan_step else workflow_resume_config e p s plan_step);
  _ ← raise_if (negb (bool_decide (es_mcp_tool_version_id s = Some tool_version_id)))
        (conflict "Step mcp_tool_version_id does not match TOOL config.");
  Ok tool_version_id.

(** ** Conditions that may have changed since *)
Definition workflow_source_type (e : execution) : bool :=
  bool_decide (ex_source_type e ∈ [WORKFLOW_VERSION; SCHEDULE_OCCURRENCE]).
Definition revalidate_workflow (c : catalog) (e : execution) : res unit :=
  if workflow_source_type e then _ ← assert_pinned_workflow_execution_authorized c e; Ok tt else Ok tt.

Definition assert_mutable_resume_preflight (c : catalog) (e : execution) (s : execution_step)
    (request : approval_request) (tool_version_id : uuid) : res unit :=
  _ ← revalidate_workflow c e;
  plan_step_id ← snapshot_step_id s;
  authz ← authorize_pinned c e plan_step_id tool_version_id (resume_timeout_seconds s);
  _ ← (if au_confirmation_required authz then assert_confirmation_evidence c e (au_policy_snapshot authz) else Ok tt);
  _ ← assert_current_context_matches_request c request e s (Some (au_tool_policy authz)) (au_approval_policy authz) None None;
  Ok tt.

(** The [try] of the authorable claim *)
Definition assert_authorable_preflight (c : catalog) (e : execution) (s : execution_step) (steps : list execution_step)
    (request : approval_request) : res unit :=
  _ ← assert_current_context_matches_request c request e s None None (Some steps) None;
  revalidate_workflow c e.

(** ** The claim *)
(** [try: m except AppError: terminalize] *)
Definition or_terminalize (authorable : bool) (request : approval_request) (s : execution_step)
    (steps : list execution_step) (now : Z) (st : store) (m : res (store * approval_resume_outcome))
    : res (store * approval_resume_outcome) :=
  catch_app m (λ _ _, Ok (precondition_failed_resume authorable request s steps now st)).

Definition assert_no_pending (e : execution) (s : execution_step) (st : store) : res unit :=
  pending ← find_pending_for_step (ex_id e) (es_id s) st;
  raise_if (is_some pending) (conflict "PENDING ApprovalRequest still exists; cannot resume.").

(** [_claim_authorable] and the ToolPolicy path.  [assert_no_pending] stands
    between two [try] blocks: what it raises is not caught. *)
Definition claim_authorable (c : catalog) (lease_seconds : Z) (token : uuid) (worker : string)
    (request : approval_request) (s : execution_step) (steps : list execution_step) (now : Z) (st : store)
    : res (store * approval_resume_outcome) :=
  let e := st_execution st in
  match assert_authorable_structural_preconditions e s request with
  | Err (AppError _ _ _) => Ok (precondition_failed_resume true request s steps now st)
  | Err err => Err err
  | Ok _ =>
      _ ← assert_no_pending e s st;
      or_terminalize true request s steps now st
        (_ ← assert_authorable_preflight c e s steps request;
         Ok (apply_fresh_claim lease_seconds token worker request s now st))
  end.
Definition claim_tool_policy (c : catalog) (lease_seconds : Z) (token : uuid) (worker : string)
    (request : approval_request) (s : execution_step) (steps : list execution_step) (now : Z) (st : store)
    : res (store * approval_resume_outcome) :=
  let e := st_execution st in
  tool_version_id ← assert_structural_resume_preconditions e s request steps;
  _ ← assert_no_pending e s st;
  or_terminalize false request s steps now st
    (_ ← assert_mutable_resume_preflight c e s request tool_version_id;
     Ok (apply_fresh_claim lease_seconds token worker request s now st)).

Definition claim_approval_resume (c : catalog) (lease_seconds : Z) (token execution_id request_id : uuid)
    (worker_id : string) (now : Z) (st : store) : res (store * approval_resume_outcome) :=
  worker ← normalize_worker_id worker_id;
  let e := st_execution st in
  if negb (bool_decide (ex_id e = execution_id)) then
    Ok (st, ApprovalResumeClaimOutcome execution_id request_id false None None None None None (Some ResumeMissing))
  else if negb (execution_waiting e) then
    Ok (st, ApprovalResumeClaimOutcome (ex_id e) request_id false (Some (ex_status e)) (ex_worker_id e) None
              (ex_lease_expires_at e) None (Some ResumeStale))
  else
    let steps := list_steps st in
    request ← of_option (conflict "ApprovalRequest not found for resume.") (get_request request_id st);
    s ← of_option (conflict "ApprovalRequest Step not found on Execution.")
          (row_by es_id (ar_step_execution_id request) steps);
    if is_authorable_step_context (ar_context_snapshot request) || bool_decide (es_step_type s = StepType.APPROVAL)
    then claim_authorable c lease_seconds token worker request s steps now st
    else claim_tool_policy c lease_seconds token worker request s steps now st.
End resume.

(** * What resuming an approved execution guarantees

    A fresh claim is made only for a request that enough users approved, on an
    execution that waits for it, against conditions checked again; everything
    else ends the execution or changes nothing. *)

(** ** The two endings *)
Lemma emit_transitions_rows before rows now st :
  let st' := emit_step_transitions before rows now st in
  st_execution st' = st_execution st ∧ st_steps st' = st_steps st ∧ st_approvals st' = st_approvals st.
Proof.
  unfold emit_step_transitions. revert st. induction rows as [|r rows IH]; intros st; [done|]. cbn [foldl].
  destruct (row_by _ _ _) as [s|]; [|apply IH].
  destruct (IH (emit_step_status_changed r (es_status s) now st)) as (-> & -> & ->).
  destruct (emit_step_rows r (es_status s) now st) as (-> & -> & _ & _ & -> & _). done.
Qed.

Lemma terminalize_resume_rows auth s steps now st :
  let rows := stopped_rows auth steps (fail_step APPROVAL_RESUME_PRECONDITION_FAILED now s) now in
  let st' := terminalize_resume_failed auth s steps now st in
  st_approvals st' = st_approvals st ∧
  st_execution st' = fail_waiting_execution APPROVAL_RESUME_PRECONDITION_FAILED None rows now (st_execution st).
Proof.
  unfold terminalize_resume_failed. cbn zeta beta.
  drop_events.
  match goal with |- context [emit_step_transitions ?a ?b ?n ?s] => destruct (emit_transitions_rows a b n s) as (-> & _ & ->) end.
  drop_events.
  done.
Qed.

Lemma fresh_claim_rows ls token worker r s now st :
  let st' := (apply_fresh_claim ls token worker r s now st).1 in
  st_execution st' = take_resume_lease worker token now (now + seconds ls) (st_execution st) ∧
  st_steps st' = upd_where (λ x, es_id x = es_id s) (ready_again now) (st_steps st) ∧
  st_attempts st' = st_attempts st ∧ st_calls st' = st_calls st ∧ st_approvals st' = st_approvals st ∧
  st_inputs st' = st_inputs st.
Proof.
  unfold apply_fresh_claim. cbn [fst]. drop_events. unfold upd_step.
  cbn [st_execution st_steps st_attempts st_calls st_approvals st_inputs set_st_steps]. drop_events. done.
Qed.

(** ** The conditions of a fresh claim *)
Section claims.
Context {schema : PlanSchema} {parser : PlanParser}.

(** What holds of the request and its step when an execution is resumed *)
Record resume_checked (c : catalog) (st : store) (r : approval_request) (s : execution_step) : Prop := ResumeChecked {
  rk_approved : ar_status r = ApprovalStatus.APPROVED ∧ is_some (ar_resolved_at r) = true ∧
    ar_execution_id r = ex_id (st_execution st) ∧ ar_step_execution_id r = es_id s;
  rk_waiting : ex_status (st_execution st) = ExecutionStatus.WAITING_APPROVAL ∧ es_status s = StepStatus.WAITING_APPROVAL;
  rk_no_lease : owns_lease (st_execution st) = false;
  rk_no_pending : find_pending_for_step (ex_id (st_execution st)) (es_id s) st = Ok None;
  rk_plan : ∃ p ps, validate_plan (ex_plan_snapshot (st_execution st)) = Some p ∧ assert_pinned_plan (st_execution st) p = Ok tt ∧
    validate_step (es_step_snapshot s) = Some ps;
  rk_context : ∃ tp ap steps d,
    assert_current_context_matches_request c r (st_execution st) s tp ap steps None = Ok d;
  rk_tool : es_step_type s = StepType.TOOL → ∃ id v timeout authz, es_mcp_tool_version_id s = Some v ∧
    authorize_pinned c (st_execution st) id v timeout = Ok authz ∧
    (au_confirmation_required authz = true →
     assert_confirmation_evidence c (st_execution st) (au_policy_snapshot authz) = Ok tt);
  rk_workflow : workflow_source_type (st_execution st) = true →
    ∃ w, assert_pinned_workflow_execution_authorized c (st_execution st) = Ok w }.

Lemma resumable_request_Ok e s r :
  assert_resumable_request e s r = Ok tt →
  (ar_status r = ApprovalStatus.APPROVED ∧ is_some (ar_resolved_at r) = true ∧ ar_execution_id r = ex_id e ∧
   ar_step_execution_id r = es_id s) ∧ es_status s = StepStatus.WAITING_APPROVAL.
Proof. unfold assert_resumable_request, step_waiting. intros H. inv_res. done. Qed.

Lemma revalidate_workflow_Ok c e :
  revalidate_workflow c e = Ok tt → workflow_source_type e = true → ∃ w, assert_pinned_workflow_execution_authorized c e = Ok w.
Proof. unfold revalidate_workflow. intros H Hs. rewrite Hs in H. apply bind_Ok in H as (w & Hw & _). by exists w. Qed.

Lemma no_pending_Ok e s st : assert_no_pending e s st = Ok tt → find_pending_for_step (ex_id e) (es_id s) st = Ok None.
Proof. unfold assert_no_pending. intros H. apply bind_Ok in H as ([x|] & Hx & H); [discriminate H|done]. Qed.

Lemma authorable_structural_Ok c st r s steps :
  execution_waiting (st_execution st) = true →
  assert_authorable_structural_preconditions (st_execution st) s r = Ok tt → assert_no_pending (st_execution st) s st = Ok tt →
  assert_authorable_preflight c (st_execution st) s steps r = Ok tt → resume_checked c st r s.
Proof.
  intros Hw%bool_decide_eq_true H Hp%no_pending_Ok Hc. unfold assert_authorable_structural_preconditions in H.
  apply bind_Ok in H as ([] & _ & H). apply bind_Ok in H as ([] & Hr%resumable_request_Ok & H).
  apply bind_Ok in H as ([] & Ht%raise_if_Ok%negb_false_iff%bool_decide_eq_true & H). apply bind_Ok in H as ([] & _ & H).
  apply bind_Ok in H as ([] & Hl%raise_if_Ok & H). apply bind_Ok in H as (p & Hpl%of_option_Ok & H).
  apply bind_Ok in H as (ps & Hps%of_option_Ok & H). apply bind_Ok in H as (cfg & _ & H).
  apply bind_Ok in H as ([] & Hpin & H). unfold assert_authorable_preflight in Hc.
  apply bind_Ok in Hc as (d & Hd & Hwf). destruct Hr as [Hr Hs].
  split; [done|done|done|done|by exists p, ps|by exists None, None, (Some steps), d|by rewrite Ht|by apply revalidate_workflow_Ok].
Qed.

Lemma structural_resume_Ok c st r s steps v :
  execution_waiting (st_execution st) = true →
  assert_structural_resume_preconditions (st_execution st) s r steps = Ok v → assert_no_pending (st_execution st) s st = Ok tt →
  assert_mutable_resume_preflight c (st_execution st) s r v = Ok tt → resume_checked c st r s.
Proof.
  intros Hw%bool_decide_eq_true H Hp%no_pending_Ok Hc. unfold assert_structural_resume_preconditions in H.
  apply bind_Ok in H as ([] & _ & H). apply bind_Ok in H as ([] & Hr%resumable_request_Ok & H).
  apply bind_Ok in H as ([] & Hl%raise_if_Ok & H). do 3 (apply bind_Ok in H as ([] & _ & H)).
  apply bind_Ok in H as (p & Hpl%of_option_Ok & H). apply bind_Ok in H as (ps & Hps%of_option_Ok & H).
  apply bind_Ok in H as ([] & Hpin & H). apply bind_Ok in H as (v' & _ & H).
  apply bind_Ok in H as ([] & Hv%raise_if_Ok%negb_false_iff%bool_decide_eq_true & [= ->]).
  unfold assert_mutable_resume_preflight in Hc. apply bind_Ok in Hc as ([] & Hwf & Hc).
  apply bind_Ok in Hc as (id & _ & Hc). apply bind_Ok in Hc as (authz & Ha & Hc). apply bind_Ok in Hc as ([] & Hconf & Hc).
  apply bind_Ok in Hc as (d & Hd & _). destruct Hr as [Hr Hs].
  split; [done|done|done|done|by exists p, ps|by eexists _, _, None, d| |by apply revalidate_workflow_Ok].
  intros _. exists id, v, (resume_timeout_seconds s), authz. split; [done|]. split; [done|]. intros Hcr. by rewrite Hcr in Hconf.
Qed.

(** The three ways a delivery ends without an exception *)
Definition fresh_claim_made (c : catalog) (ls : Z) (token request_id : uuid) (worker : string) (now : Z) (st st' : store) : Prop :=
  ∃ r s, get_request request_id st = Some r ∧ s ∈ st_steps st ∧ resume_checked c st r s ∧
    st_execution st' = take_resume_lease worker token now (now + seconds ls) (st_execution st) ∧
    st_steps st' = upd_where (λ x, es_id x = es_id s) (ready_again now) (st_steps st) ∧
    st_attempts st' = st_attempts st ∧ st_calls st' = st_calls st ∧ st_approvals st' = st_approvals st ∧
    st_inputs st' = st_inputs st.
Definition resume_ended (now : Z) (st st' : store) : Prop :=
  ex_status (st_execution st) = ExecutionStatus.WAITING_APPROVAL ∧
  ex_status (st_execution st') = ExecutionStatus.FAILED ∧
  ex_error_code (st_execution st') = Some APPROVAL_RESUME_PRECONDITION_FAILED ∧
  ex_finished_at (st_execution st') = Some now ∧ owns_lease (st_execution st') = false ∧
  st_approvals st' = st_approvals st.

Lemma precondition_failed_ended auth r s steps now st st' o :
  execution_waiting (st_execution st) = true → precondition_failed_resume auth r s steps now st = (st', o) →
  rc_claimed o = false ∧ rc_reason o = Some ResumePreconditionFailed ∧ resume_ended now st st'.
Proof.
  intros Hw%bool_decide_eq_true [= <- <-].
  destruct (terminalize_resume_rows auth s steps now st) as [Ha He]. unfold resume_ended. rewrite He. by rewrite Ha.
Qed.

Lemma fresh_claim_done c ls token worker r s steps now st st' o :
  get_request (ar_id r) st = Some r → s ∈ steps → steps ⊆ st_steps st → resume_checked c st r s →
  apply_fresh_claim ls token worker r s now st = (st', o) →
  rc_claimed o = true ∧ rc_reason o = None ∧ fresh_claim_made c ls token (ar_id r) worker now st st'.
Proof.
  intros Hr Hs Hsub Hc Heq. pose proof (fresh_claim_rows ls token worker r s now st) as Hrows. cbv zeta in Hrows.
  rewrite Heq in Hrows. cbn [fst] in Hrows. injection Heq as <- <-. split; [done|]. split; [done|].
  exists r, s. split; [done|]. split; [by apply Hsub|done].
Qed.

(** One delivery of a resume message *)
Definition resume_result (c : catalog) (ls : Z) (token request_id : uuid) (worker : string) (now : Z) (st st' : store)
    (o : approval_resume_outcome) : Prop :=
  match rc_reason o with
  | None => rc_claimed o = true ∧ fresh_claim_made c ls token request_id worker now st st'
  | Some ResumePreconditionFailed => rc_claimed o = false ∧ resume_ended now st st'
  | Some _ => rc_claimed o = false ∧ st' = st
  end.

Lemma or_terminalize_Ok c ls token worker auth r s steps now st m st' o :
  execution_waiting (st_execution st) = true → or_terminalize auth r s steps now st m = Ok (st', o) →
  (m = Ok (st', o) → resume_result c ls token (ar_id r) worker now st st' o) →
  resume_result c ls token (ar_id r) worker now st st' o.
Proof.
  intros Hw H Hm. apply catch_app_Ok in H as [H|(code & msg & status & _ & H)]; [by apply Hm|].
  destruct (precondition_failed_resume auth r s steps now st) as [a b] eqn:E. injection H as <- <-.
  apply precondition_failed_ended in E as (H1 & H2 & H3); [|done]. unfold resume_result. by rewrite H2.
Qed.

Lemma fresh_claim_result c ls token worker r s steps now st st' o :
  get_request (ar_id r) st = Some r → s ∈ steps → steps ⊆ st_steps st → resume_checked c st r s →
  apply_fresh_claim ls token worker r s now st = (st', o) → resume_result c ls token (ar_id r) worker now st st' o.
Proof.
  intros Hr Hs Hsub Hc Heq. destruct (fresh_claim_done c ls token worker r s steps now st st' o) as (H1 & H2 & H3); try done.
  unfold resume_result. by rewrite H2.
Qed.

Lemma claim_authorable_result c ls token worker r s steps now st st' o :
  execution_waiting (st_execution st) = true → get_request (ar_id r) st = Some r → s ∈ steps → steps ⊆ st_steps st →
  claim_authorable c ls token worker r s steps now st = Ok (st', o) →
  resume_result c ls token (ar_id r) worker now st st' o.
Proof.
  intros Hw Hr Hs Hsub H. unfold claim_authorable in H.
  destruct (assert_authorable_structural_preconditions (st_execution st) s r) as [[]|[code msg status|k]] eqn:Ha; [| |discriminate H].
  - apply bind_Ok in H as ([] & Hp & H). apply (or_terminalize_Ok c ls token worker) in H; [done..|].
    intros Hm. apply bind_Ok in Hm as ([] & Hc & Hm).
    destruct (apply_fresh_claim ls token worker r s now st) as [a b] eqn:E. injection Hm as <- <-.
    apply (fresh_claim_result c ls token worker r s steps); try done.
    by apply (authorable_structural_Ok c st r s steps).
  - destruct (precondition_failed_resume true r s steps now st) as [a b] eqn:E. injection H as <- <-.
    apply precondition_failed_ended in E as (H1 & H2 & H3); [|done]. unfold resume_result. by rewrite H2.
Qed.

Lemma claim_tool_policy_result c ls token worker r s steps now st st' o :
  execution_waiting (st_execution st) = true → get_request (ar_id r) st = Some r → s ∈ steps → steps ⊆ st_steps st →
  claim_tool_policy c ls token worker r s steps now st = Ok (st', o) →
  resume_result c ls token (ar_id r) worker now st st' o.
Proof.
  intros Hw Hr Hs Hsub H. unfold claim_tool_policy in H. apply bind_Ok in H as (v & Hv & H).
  apply bind_Ok in H as ([] & Hp & H). apply (or_terminalize_Ok c ls token worker) in H; [done..|].
  intros Hm. apply bind_Ok in Hm as ([] & Hc & Hm).
    destruct (apply_fresh_claim ls token worker r s now st) as [a b] eqn:E. injection Hm as <- <-.
    apply (fresh_claim_result c ls token worker r s steps); try done.
  by apply (structural_resume_Ok c st r s steps v).
Qed.

Lemma list_steps_subset st : list_steps st ⊆ st_steps st.
Proof. intros x Hx. unfold list_steps in Hx. rewrite sort_by_perm in Hx. by apply list_elem_of_filter in Hx as [_ ?]. Qed.

Lemma claim_resume_result c ls token eid rid wid now st st' o :
  claim_approval_resume c ls token eid rid wid now st = Ok (st', o) →
  ∃ worker, normalize_worker_id wid = Ok worker ∧ resume_result c ls token rid worker now st st' o.
Proof.
  intros H. unfold claim_approval_resume in H. apply bind_Ok in H as (worker & Hworker & H). exists worker. split; [done|].
  destruct (bool_decide (ex_id (st_execution st) = eid)); cbn [negb] in H; [|by injection H as <- <-].
  destruct (execution_waiting (st_execution st)) eqn:Hw; cbn [negb] in H; [|by injection H as <- <-].
  apply bind_Ok in H as (r & Hr%of_option_Ok & H). apply bind_Ok in H as (s & Hs%of_option_Ok & H).
  pose proof (find_key_Some _ _ _ _ Hr) as [_ Hid]. pose proof (find_key_Some _ _ _ _ Hs) as [Hin _]. subst rid.
  destruct (is_authorable_step_context _ || _).
  - apply (claim_authorable_result c ls token worker r s (list_steps st)); try done. apply list_steps_subset.
  - apply (claim_tool_policy_result c ls token worker r s (list_steps st)); try done. apply list_steps_subset.
Qed.

(** C23: An execution leaves WAITING_APPROVAL towards RUNNING only behind a quorum: over every interleaving of the
    transactions on its requests, a resume message that is claimed names an APPROVED request with enough fair votes, on
    a waiting step without lease or pending request, whose stored context, plan, policies and authorization still hold;
    the claim then takes the lease, makes that step READY and changes no other row. *)
Theorem resumed_only_with_quorum c ls token eid rid wid now db0 db st' o :
  st_approvals (db_store db0) = [] → db_decisions db0 = [] → rtc approval_step db0 db →
  claim_approval_resume c ls token eid rid wid now (db_store db) = Ok (st', o) → rc_claimed o = true →
  ∃ worker r, normalize_worker_id wid = Ok worker ∧ get_request rid (db_store db) = Some r ∧
    quorum_met r (db_decisions db) ∧ fresh_claim_made c ls token rid worker now (db_store db) st'.
Proof.
  intros Ha Hd Hrun H Hc. apply claim_resume_result in H as (worker & Hworker & H). unfold resume_result in H.
  destruct (rc_reason o) as [[]|]; try (destruct H as [H _]; by rewrite Hc in H).
  destruct H as (_ & r & s & Hr & Hs & Hch & Hrest). exists worker, r. split; [done|]. split; [done|]. split.
  - destruct Hch as [[Hap _] _ _ _ _ _ _ _]. apply (approved_quorum db0 db r); try done. by eapply find_key_Some.
  - by exists r, s.
Qed.

(** ** A wait that never resumes *)
(** The tool-policy wait of a scheduled agent execution: its lineage has no
    workflow version, which the resume asks of every scheduled execution. *)
Lemma agent_schedule_never_resumes e s r steps v :
  is_agent_schedule_occurrence e = true → assert_structural_resume_preconditions e s r steps ≠ Ok v.
Proof.
  intros He H. unfold is_agent_schedule_occurrence in He. rewrite !andb_true_iff in He.
  destruct He as [[[[[Hsrc _] Hwf] _] _] _]. apply String.eqb_eq in Hsrc. apply negb_true_iff in Hwf.
  unfold assert_structural_resume_preconditions in H. rewrite Hsrc in H.
  change (String.eqb SCHEDULE_OCCURRENCE AGENT_REQUEST) with false in H. cbn [andb] in H.
  do 6 (apply bind_Ok in H as ([] & _ & H)). apply bind_Ok in H as (p & _ & H). apply bind_Ok in H as (ps & _ & H).
  apply bind_Ok in H as ([] & _ & H). apply bind_Ok in H as (v' & Hv & _). unfold workflow_resume_config in Hv.
  apply bind_Ok in Hv as (cfg & _ & Hv). apply bind_Ok in Hv as ([] & _ & Hv). by rewrite Hwf in Hv.
Qed.
End claims.
