(* ===== verification/ApprovalEvidenceSound.v ===== *)
(** * A wait that was approved is evidence

    The snapshot a wait stores validates when it is read back, for every source
    whose context the validator knows, and the approved request then opens the
    gates before the tool call. *)
From S2P Require Import Prelude PyStr PyDict Json PyUuid CanonicalHash Domain LoopRuntime Completion DagSchedule Rows.
From S2P Require Import Cancellation PolicySelection RetryDecision ToolLineage Preflight Authorization ApprovalContext.
From S2P Require Import Outbox ApprovalEvidence Approval ApprovalSound.

(** The fields of a tool context, with its values as variables *)
Definition tool_context (ex st key rq tv ph rc : string) (input : dict json) (tp ap source : dict json) : dict json :=
  [("schema_version", JStr APPROVAL_CONTEXT_SCHEMA_VERSION); ("execution_id", JStr ex); ("step_execution_id", JStr st);
   ("step_key", JStr key); ("requester_id", JStr rq); ("mcp_tool_version_id", JStr tv); ("plan_hash", JStr ph);
   ("risk_class", JStr rc); ("resolved_input", JObj input); ("tool_policy", JObj tp); ("approval_policy", JObj ap)] ++ source.

(** The keys each source adds *)
Definition agent_source (a : string) : dict json := [("agent_version_id", JStr a)].
Definition workflow_source_keys (w t : string) : dict json :=
  [("agent_version_id", JNull); ("workflow_version_id", JStr w); ("source_type", JStr t)].
Definition manual_source : dict json := [("agent_version_id", JNull); ("source_type", JStr MANUAL_TOOL_TEST)].

Definition approval_block (id st mode : string) (n x : Z) (self reject : bool) : dict json :=
  [("id", JStr id); ("status", JStr st); ("decision_mode", JStr mode); ("required_approvals", JInt n);
   ("default_expiry_seconds", JInt x); ("allow_self_approval", JBool self); ("reject_comment_required", JBool reject)].

Section fields.
Context (ex st key rq tv ph rc : string) (input tp : dict json) (id status mode : string) (n x : Z) (self reject : bool).
Let context := tool_context ex st key rq tv ph rc input tp (approval_block id status mode n x self reject).

Lemma tool_context_agent a : validate_stored_context_snapshot (JObj (context (agent_source a))) = Ok (context (agent_source a)).
Proof. vm_compute. reflexivity. Qed.

Lemma tool_context_workflow w t :
  validate_stored_context_snapshot (JObj (context (workflow_source_keys w t))) = Ok (context (workflow_source_keys w t)).
Proof. vm_compute. reflexivity. Qed.

Lemma tool_context_manual :
  validate_stored_context_snapshot (JObj (context manual_source))
    = Err (conflict "ApprovalRequest context_snapshot requires agent_version_id or workflow_version_id + source_type.").
Proof. vm_compute. reflexivity. Qed.

Lemma tool_context_schema source : is_authorable_step_context (JObj (context source)) = false.
Proof. vm_compute. reflexivity. Qed.
End fields.

(** The context a wait builds has these fields. *)
Lemma approval_context_base_fields e s tv tp ap input source :
  approval_context_base e s tv tp ap input ++ source =
  tool_context (uuid_str (ex_id e)) (uuid_str (es_id s)) (es_step_key s) (uuid_str (ex_requester_id e)) (uuid_str tv)
    (ex_plan_hash e) (mp_risk_class tp) input
    [("id", JStr (uuid_str (mp_id tp))); ("requires_approval", JBool (mp_requires_approval tp));
     ("requires_confirmation", JBool (mp_requires_confirmation tp));
     ("approval_policy_id", uuid_json (mp_approval_policy_id tp)); ("risk_class", JStr (mp_risk_class tp))]
    (approval_block (uuid_str (ap_id ap)) (ap_status ap) (ap_decision_mode ap) (ap_required_approvals ap)
       (ap_default_expiry_seconds ap) (ap_allow_self_approval ap) (ap_reject_comment_required ap)) source.
Proof. reflexivity. Qed.

(** The keys a source adds, when it is not a manual test *)
Lemma approval_context_source_Ok e source :
  approval_context_source e = Ok source → ex_source_type e ≠ MANUAL_TOOL_TEST →
  (∃ a, ex_agent_version_id e = Some a ∧ ex_workflow_version_id e = None ∧ source = agent_source (uuid_str a)) ∨
  (∃ w, ex_agent_version_id e = None ∧ ex_workflow_version_id e = Some w ∧
        source = workflow_source_keys (uuid_str w) (ex_source_type e)).
Proof.
  unfold approval_context_source. intros H Hne.
  destruct (String.eqb (ex_source_type e) MANUAL_TOOL_TEST) eqn:E; [by apply String.eqb_eq in E|].
  destruct (ex_workflow_version_id e) as [w|] eqn:Ew.
  - apply bind_Ok in H as ([] & Ha%raise_if_Ok & H). apply bind_Ok in H as ([] & _ & [= <-]). right. exists w.
    split; [by destruct (ex_agent_version_id e)|done].
  - apply bind_Ok in H as (a & Ha%of_option_Ok & [= <-]). left. by exists a.
Qed.

Lemma built_context e s tp ap input d :
  build_approval_context_snapshot e s tp ap input = Ok d →
  ∃ tv source, es_mcp_tool_version_id s = Some tv ∧ approval_context_source e = Ok source ∧
    d = approval_context_base e s tv tp ap input ++ source.
Proof.
  unfold build_approval_context_snapshot. intros H. apply bind_Ok in H as (tv & Htv%of_option_Ok & H).
  apply bind_Ok in H as ([] & _ & H). apply bind_Ok in H as (source & Hs & [= <-]). by exists tv, source.
Qed.

(** What a wait stores validates; a manual test's context never does. *)
Lemma built_context_validates e s tp ap input d :
  build_approval_context_snapshot e s tp ap input = Ok d → ex_source_type e ≠ MANUAL_TOOL_TEST →
  validate_stored_context_snapshot (JObj d) = Ok d ∧ is_authorable_step_context (JObj d) = false.
Proof.
  intros (tv & source & Htv & Hs & ->)%built_context Hne. rewrite approval_context_base_fields.
  split; [|apply tool_context_schema].
  destruct (approval_context_source_Ok e source Hs Hne) as [(a & _ & _ & ->)|(w & _ & _ & ->)];
    [apply tool_context_agent|apply tool_context_workflow].
Qed.

Lemma manual_context_refused e s tp ap input d :
  build_approval_context_snapshot e s tp ap input = Ok d → ex_source_type e = MANUAL_TOOL_TEST →
  validate_stored_context_snapshot (JObj d)
    = Err (conflict "ApprovalRequest context_snapshot requires agent_version_id or workflow_version_id + source_type.").
Proof.
  intros (tv & source & Htv & Hs & ->)%built_context Hm. rewrite approval_context_base_fields.
  unfold approval_context_source in Hs. rewrite Hm, String.eqb_refl in Hs.
  apply bind_Ok in Hs as ([] & _ & Hs). apply bind_Ok in Hs as ([] & _ & [= <-]). apply tool_context_manual.
Qed.

(** ** Lineage *)
(** Execution and step are the ones the context names, whatever their status. *)
Record same_lineage (e : execution) (s : execution_step) (e2 : execution) (s2 : execution_step) : Prop := SameLineage {
  ln_id : ex_id e2 = ex_id e;
  ln_requester : ex_requester_id e2 = ex_requester_id e;
  ln_agent : ex_agent_version_id e2 = ex_agent_version_id e;
  ln_workflow : ex_workflow_version_id e2 = ex_workflow_version_id e;
  ln_occurrence : ex_schedule_occurrence_id e2 = ex_schedule_occurrence_id e;
  ln_source : ex_source_type e2 = ex_source_type e;
  ln_hash : ex_plan_hash e2 = ex_plan_hash e;
  ln_step : es_id s2 = es_id s;
  ln_key : es_step_key s2 = es_step_key s;
  ln_tool : es_mcp_tool_version_id s2 = es_mcp_tool_version_id s }.

(** The ids are 128-bit values. *)
Record lineage_ids_ok (e : execution) (s : execution_step) : Prop := LineageIdsOk {
  io_execution : uuid_ok (ex_id e);
  io_step : uuid_ok (es_id s);
  io_requester : uuid_ok (ex_requester_id e);
  io_tool tv : es_mcp_tool_version_id s = Some tv → uuid_ok tv;
  io_agent a : ex_agent_version_id e = Some a → uuid_ok a;
  io_workflow w : ex_workflow_version_id e = Some w → uuid_ok w }.

(** The fields the lineage check reads *)
Lemma tool_context_items ex st key rq tv ph rc input tp ap source :
  let d := tool_context ex st key rq tv ph rc input tp ap source in
  dict_item "execution_id" d = Ok (JStr ex) ∧ dict_item "step_execution_id" d = Ok (JStr st) ∧
  dict_item "requester_id" d = Ok (JStr rq) ∧ dict_item "mcp_tool_version_id" d = Ok (JStr tv) ∧
  get_or_none "step_key" d = JStr key ∧ get_or_none "plan_hash" d = JStr ph ∧
  is_authorable_step_context (JObj d) = false.
Proof. vm_compute. repeat split. Qed.

Lemma agent_context_items ex st key rq tv ph rc input tp ap a :
  let d := tool_context ex st key rq tv ph rc input tp ap (agent_source a) in
  get_or_none "agent_version_id" d = JStr a ∧ get_or_none "workflow_version_id" d = JNull ∧
  dict_has "workflow_version_id" d = false ∧ dict_has "source_type" d = false.
Proof. vm_compute. repeat split. Qed.

Lemma workflow_context_items ex st key rq tv ph rc input tp ap w t :
  let d := tool_context ex st key rq tv ph rc input tp ap (workflow_source_keys w t) in
  get_or_none "agent_version_id" d = JNull ∧ get_or_none "workflow_version_id" d = JStr w ∧
  dict_has "workflow_version_id" d = true ∧ dict_has "source_type" d = true ∧ get_or_none "source_type" d = JStr t.
Proof. vm_compute. repeat split. Qed.

Lemma str_eq_refl s : py_eq (JStr s) (JStr s) = true.
Proof. apply String.eqb_refl. Qed.

Lemma built_context_lineage e s tp ap input d e2 s2 :
  build_approval_context_snapshot e s tp ap input = Ok d → ex_source_type e ≠ MANUAL_TOOL_TEST →
  lineage_ids_ok e s → same_lineage e s e2 s2 → assert_lineage_matches_snapshot e2 s2 d = Ok tt.
Proof.
  intros (tv & source & Htv & Hs & ->)%built_context Hne Hok Hl. rewrite approval_context_base_fields.
  destruct Hok as [O1 O2 O3 O4 O5 O6]. destruct Hl as [L1 L2 L3 L4 L5 L6 L7 L8 L9 L10].
  match goal with |- context [tool_context ?a ?b ?c ?d ?e ?f ?g ?h ?i ?j ?k] =>
    destruct (tool_context_items a b c d e f g h i j k) as (I1 & I2 & I3 & I4 & I5 & I6 & I7) end.
  unfold assert_lineage_matches_snapshot. rewrite I7. unfold snapshot_uuid. rewrite I1, I2, I3, I4, I5, I6.
  cbn [mbind res_bind uuid_of_json]. rewrite !uuid_parse_str by auto. cbn [of_option mbind res_bind].
  rewrite L1, L2, L3, L4, L6, L7, L8, L9, L10, Htv, !str_eq_refl.
  rewrite !(bool_decide_true (_ = _)) by done.
  destruct (approval_context_source_Ok e source Hs Hne) as [(a & Ha & Hw & ->)|(w & Ha & Hw & ->)].
  - match goal with |- context [tool_context ?a ?b ?c ?d ?e ?f ?g ?h ?i ?j (agent_source ?k)] =>
      destruct (agent_context_items a b c d e f g h i j k) as (-> & -> & -> & ->) end.
    cbn [optional_uuid is_none uuid_of_json]. rewrite uuid_parse_str by auto. cbn [of_option mbind res_bind].
    rewrite Ha, Hw, (bool_decide_true (_ = _)) by done. done.
  - match goal with |- context [tool_context ?a ?b ?c ?d ?e ?f ?g ?h ?i ?j (workflow_source_keys ?k ?t)] =>
      destruct (workflow_context_items a b c d e f g h i j k t) as (-> & -> & -> & -> & ->) end.
    cbn [optional_uuid is_none uuid_of_json]. rewrite uuid_parse_str by auto. cbn [of_option mbind res_bind].
    rewrite Ha, Hw, !(bool_decide_true (_ = _)), str_eq_refl by done. done.
Qed.

(** The context depends on the lineage only. *)
Lemma build_same_lineage e s e2 s2 tp ap input :
  same_lineage e s e2 s2 → build_approval_context_snapshot e2 s2 tp ap input = build_approval_context_snapshot e s tp ap input.
Proof.
  intros [L1 L2 L3 L4 L5 L6 L7 L8 L9 L10]. unfold build_approval_context_snapshot, approval_context_source, approval_context_base.
  by rewrite L1, L2, L3, L4, L5, L6, L7, L8, L9, L10.
Qed.

(** A wait that opened a request *)
Lemma enter_tool_opened id cfg tp ap input ts s st st1 o :
  enter_for_tool_step id cfg tp ap (Some input) ts s st = Ok (st1, o) → aw_reused_existing o = false →
  ∃ d h, build_approval_context_snapshot (st_execution st) s tp ap input = Ok d ∧ compute_approval_context_hash d = Ok h ∧
    st_approvals st1 = st_approvals st ++ [create_pending id (st_execution st) s ap d h ts].
Proof.
  unfold enter_for_tool_step. intros H Hr. destruct (execution_waiting _ || step_waiting s).
  { apply bind_Ok in H as (x & Hx & [= _ <-]). unfold reuse_pending in Hx.
    repeat (apply bind_Ok in Hx as (? & _ & Hx)). injection Hx as <-. discriminate Hr. }
  do 5 (apply bind_Ok in H as (? & _ & H)). apply bind_Ok in H as ([] & _ & H).
  apply bind_Ok in H as (i & [= <-] & H). apply bind_Ok in H as (d & Hd & H). apply bind_Ok in H as (h & Hh & [= <- _]).
  exists d, h. split; [done|]. split; [done|]. rewrite waiting_state_approvals. done.
Qed.

Lemma find_approved_one st2 st1 st id r now ex sid :
  st_approvals st1 = st_approvals st ++ [r] → ar_id r = id → id ∉ ar_id <$> st_approvals st →
  ar_execution_id r = ex → ar_step_execution_id r = sid →
  (∀ x, x ∈ st_approvals st → ar_step_execution_id x = sid → ar_status x ≠ ApprovalStatus.APPROVED) →
  st_approvals st2 = upd_where (λ r, ar_id r = id) (resolve_row ApprovalStatus.APPROVED now) (st_approvals st1) →
  find_approved_for_step ex sid (st_approvals st2) = [resolve_row ApprovalStatus.APPROVED now r].
Proof.
  intros H1 Hid Hf Hex Hsid Hno H2. unfold find_approved_for_step. rewrite H2, H1. unfold upd_where. rewrite fmap_app.
  assert (∀ x, x ∈ st_approvals st → ar_id x ≠ id) as Hx.
  { intros x Hx Heq. apply Hf. rewrite <- Heq. by apply list_elem_of_fmap_2. }
  assert ((λ x, if decide (ar_id x = id) then resolve_row ApprovalStatus.APPROVED now x else x) <$> st_approvals st
          = st_approvals st) as ->.
  { apply (upd_where_none (λ x, ar_id x = id)). exact Hx. }
  rewrite filter_app, filter_nil_all.
  - cbn [fmap list_fmap app]. rewrite decide_True by done. rewrite filter_cons_True by done. by rewrite filter_nil.
  - intros x Hin (_ & Hs & Ha). by apply (Hno x).
Qed.

Section evidence.
Context {schema : PlanSchema} {parser : PlanParser}.

(** C25: A tool call that waited for approval goes on: the context the wait stored validates, and once its request is
    APPROVED and the execution resumed under the same lineage, policies and pinned input, the gate before the call finds
    that request as evidence, for every source but a manual test. *)
Theorem approved_wait_is_evidence c id cfg tp ap input ts s st st1 o st2 s2 ps tv bindings now :
  enter_for_tool_step id cfg tp ap (Some input) ts s st = Ok (st1, o) → aw_reused_existing o = false →
  ex_source_type (st_execution st) ≠ MANUAL_TOOL_TEST → lineage_ids_ok (st_execution st) s →
  id ∉ ar_id <$> st_approvals st →
  (∀ r, r ∈ st_approvals st → ar_step_execution_id r = es_id s → ar_status r ≠ ApprovalStatus.APPROVED) →
  st_approvals st2 = upd_where (λ r, ar_id r = id) (resolve_row ApprovalStatus.APPROVED now) (st_approvals st1) →
  same_lineage (st_execution st) s (st_execution st2) s2 → es_resolved_input s2 = JObj input →
  validate_step (es_step_snapshot s2) = Some ps → tool_version_of_config (ps_config ps) = Ok (tv, bindings) →
  es_mcp_tool_version_id s2 = Some tv →
  ∃ ev, require_valid_approved_evidence c st2 s2 tp ap = Ok ev ∧ ar_id (ae_request ev) = id.
Proof.
  intros Hw Hr Hne Hok Hf Hno H2 Hl Hin Hps Hcfg Htv.
  destruct (enter_tool_opened _ _ _ _ _ _ _ _ _ _ Hw Hr) as (d & h & Hd & Hh & H1).
  set (r := create_pending id (st_execution st) s ap d h ts) in *.
  set (row := resolve_row ApprovalStatus.APPROVED now r).
  assert (rebuild_current_approval_context c (st_execution st2) s2 (Some tp) (Some ap) = Ok (d, h, tp, ap)) as Hreb.
  { unfold rebuild_current_approval_context. rewrite Hps. cbn [of_option mbind res_bind]. rewrite Hcfg.
    cbn [mbind res_bind policy_or_load approval_policy_or_load fst snd]. rewrite bool_decide_true by done.
    cbn [negb raise_if mbind res_bind]. unfold approval_resolved_input. rewrite Hin. cbn [mbind res_bind].
    rewrite (build_same_lineage _ _ _ _ tp ap input Hl), Hd. cbn [mbind res_bind]. by rewrite Hh. }
  destruct (built_context_validates _ _ _ _ _ _ Hd Hne) as [Hv Hs].
  assert (assert_request_context_hash_intact row = Ok d) as Hint.
  { unfold assert_request_context_hash_intact. change (ar_context_snapshot row) with (JObj d). rewrite Hv.
    cbn [mbind res_bind]. rewrite Hs, Hh. cbn [mbind res_bind]. change (ar_context_hash row) with h.
    by rewrite String.eqb_refl. }
  exists (ApprovedEvidence row h). split; [|done].
  unfold require_valid_approved_evidence, find_valid_approved_evidence.
  rewrite (find_approved_one st2 st1 st id r now _ _ H1); [|done|done|by rewrite (ln_id _ _ _ _ Hl)
    |by rewrite (ln_step _ _ _ _ Hl)|by rewrite (ln_step _ _ _ _ Hl)|done].
  fold row. rewrite Hreb. cbn [mbind res_bind match_approved fst snd].
  change (ar_resolved_at row) with (Some now). cbn [is_some negb raise_if mbind res_bind]. rewrite Hint. cbn [mbind res_bind].
  rewrite (built_context_lineage _ _ _ _ _ _ _ _ Hd Hne Hok Hl). cbn [mbind res_bind].
  change (ar_context_hash row) with h. rewrite String.eqb_refl. done.
Qed.
End evidence.
