(* ===== verification/Transaction.v ===== *)
(** What the transactions of the orchestrator share: the stop of the rows that
    never started, and the monad of a transaction with its logic. *)
From S2P Require Import Prelude PyStr PyDict Json PyUuid Domain LoopRuntime Completion DagSchedule Rows Cancellation.
From S2P Require Import CancelSound Preflight Approval ApprovalResume.

(** * Stopping the rows that never started

    [skip_all_pending] and [cancel_unused_ready_tools] ([execution/dag.py]) over
    the rows of an execution, as every fail-fast end of it calls them. *)

Definition rows_by_key (st : store) : dict execution_step := dict_comp es_step_key id (list_steps st).

Definition stop_rows (now : Z) (st : store) : store :=
  write_steps (dict_values (cancel_unused_ready_tools (skip_all_pending (rows_by_key st) now).1 now).1) st.

(** With the events of the rows that changed since [before] *)
Definition stop_steps (before : list execution_step) (now : Z) (st : store) : store :=
  let st := stop_rows now st in emit_step_transitions before (list_steps st) now st.

(** ** What a stop does to a row *)
Definition stop_row (now : Z) (s : execution_step) : execution_step :=
  let s := if bool_decide (es_status s = StepStatus.PENDING)
           then finish_step StepStatus.SKIPPED "UPSTREAM_EXECUTION_STOPPED"
                  "Upstream Execution stopped; downstream Step was not started." now s else s in
  if unused_ready_tool s
  then finish_step StepStatus.CANCELLED "UPSTREAM_EXECUTION_STOPPED"
         "Upstream Execution stopped before TOOL Attempt start." now s else s.

Lemma stop_row_keys now s : es_id (stop_row now s) = es_id s ∧ es_execution_id (stop_row now s) = es_execution_id s.
Proof. unfold stop_row. destruct (bool_decide _); cbn zeta; destruct (unused_ready_tool _); done. Qed.

Lemma stop_row_terminal now s :
  is_terminal_step_status (es_status s) = true → is_terminal_step_status (es_status (stop_row now s)) = true.
Proof.
  unfold stop_row. intros H. destruct (bool_decide _); cbn zeta; destruct (unused_ready_tool _); done.
Qed.

Lemma update_rows_values p f d : dict_values (update_rows p f d).1 = (λ s, if p s then f s else s) <$> dict_values d.
Proof. unfold update_rows, dict_values. cbn [fst]. rewrite <- !list_fmap_compose. by apply list_fmap_ext. Qed.

Lemma stop_rows_steps now st :
  store_wf st →
  let st' := stop_rows now st in
  same_keys st st' ∧ st_execution st' = st_execution st ∧ st_attempts st' = st_attempts st ∧ st_calls st' = st_calls st ∧
  Forall2 (λ s s', s' = s ∨ s' = stop_row now s) (st_steps st) (st_steps st').
Proof.
  intros Hwf. unfold stop_rows, rows_by_key. cbn zeta. set (rows := dict_values _).
  assert (∀ s, s ∈ st_steps st → default s (row_by es_id (es_id s) rows) = s ∨
    default s (row_by es_id (es_id s) rows) = stop_row now s) as Hrow.
  { intros s Hs. destruct (row_by _ _ _) as [r|] eqn:Hr; [|by left]. right. cbn [default].
    apply (find_key_Some es_id) in Hr as [Hin Hid]. unfold rows, cancel_unused_ready_tools, skip_all_pending in Hin.
    rewrite !update_rows_values, <- list_fmap_compose in Hin. apply list_elem_of_fmap in Hin as (x & -> & Hx).
    assert (x ∈ st_steps st) as Hx'.
    { apply list_elem_of_fmap in Hx as ([k y] & -> & Hy). apply dict_get_elem, elem_of_dict_values_comp in Hy as [Hy _]; [|apply dict_comp_wf].
      by apply list_steps_wf. }
    change (es_id (stop_row now x) = es_id s) in Hid. change (stop_row now x = stop_row now s). f_equal.
    apply (key_inj es_id (st_steps st)); [apply Hwf|done..|]. by rewrite <- Hid, (proj1 (stop_row_keys now x)). }
  split; [|split; [done|split; [done|split; [done|]]]].
  - split; [done|]. split; [|done]. cbn [st_steps write_steps set_st_steps]. rewrite <- list_fmap_compose.
    apply Forall_fmap_ext_1. rewrite Forall_forall. intros s Hs. unfold compose.
    destruct (Hrow s Hs) as [->| ->]; [done|]. by destruct (stop_row_keys now s) as [-> ->].
  - cbn [st_steps write_steps set_st_steps]. apply Forall2_fmap_r, Forall_Forall2_diag, Forall_forall. exact Hrow.
Qed.

Lemma emit_step_transitions_rows before rows now : ∀ st,
  let st' := emit_step_transitions before rows now st in
  st_execution st' = st_execution st ∧ st_steps st' = st_steps st ∧ st_attempts st' = st_attempts st ∧
  st_calls st' = st_calls st ∧ st_approvals st' = st_approvals st ∧ st_inputs st' = st_inputs st.
Proof.
  unfold emit_step_transitions. cbn zeta. induction rows as [|r rows IH]; intros st; [done|]. cbn [foldl].
  destruct (row_by es_id (es_id r) before) as [s|]; [|apply IH].
  destruct (emit_step_rows r (es_status s) now st) as (E1 & E2 & E3 & E4 & E5 & E6).
  destruct (IH (emit_step_status_changed r (es_status s) now st)) as (H1 & H2 & H3 & H4 & H5 & H6).
  split_and!; congruence.
Qed.

(** With unique keys, every row is stopped. *)
Lemma stop_rows_all now st :
  store_wf st → NoDup (es_step_key <$> st_steps st) →
  st_steps (stop_rows now st) = stop_row now <$> st_steps st.
Proof.
  intros Hwf Hnd. destruct (stop_rows_steps now st Hwf) as (Hk & _ & _ & _ & H).
  apply list_eq_Forall2. unfold stop_rows in *. cbn [st_steps write_steps set_st_steps] in *.
  set (rows := dict_values _) in *. apply Forall2_fmap_l, Forall2_fmap_r.
  apply Forall_Forall2_diag, Forall_forall. intros s Hs. unfold compose.
  assert (stop_row now s ∈ rows) as Hin.
  { unfold rows, cancel_unused_ready_tools, skip_all_pending. rewrite !update_rows_values, <- list_fmap_compose.
    apply list_elem_of_fmap. exists s. split; [done|]. apply list_elem_of_fmap. exists (es_step_key s, s). split; [done|].
    apply dict_get_Some_elem. unfold rows_by_key. apply (dict_comp_get_NoDup es_step_key id).
    - assert (list_steps st ≡ₚ st_steps st) as ->; [|done]. unfold list_steps. rewrite sort_by_perm.
      rewrite filter_all; [done|]. intros x Hx. by apply Hwf.
    - by apply list_steps_wf. }
  destruct (row_by es_id (es_id s) rows) as [r|] eqn:Hr; cbn [default].
  - apply (find_key_Some es_id) in Hr as [Hr Hid].
    assert (∃ x, x ∈ st_steps st ∧ r = stop_row now x) as (x & Hx & ->).
    { unfold rows, cancel_unused_ready_tools, skip_all_pending in Hr.
      rewrite !update_rows_values, <- list_fmap_compose in Hr. apply list_elem_of_fmap in Hr as (x & -> & Hx).
      exists x. split; [|done]. apply list_elem_of_fmap in Hx as ([k y] & -> & Hy).
      apply dict_get_elem, elem_of_dict_values_comp in Hy as [Hy _]; [|apply dict_comp_wf]. by apply list_steps_wf. }
    rewrite (proj1 (stop_row_keys now x)) in Hid. 
    assert (x = s) as ->; [|done]. apply (key_inj es_id (st_steps st)); [apply Hwf|done|done|done].
  - exfalso. unfold row_by in Hr. rewrite find_first_None in Hr. specialize (Hr _ Hin).
    by rewrite (proj1 (stop_row_keys now s)), bool_decide_true in Hr.
Qed.

Lemma stop_row_stopped now s :
  es_status (stop_row now s) ≠ StepStatus.PENDING ∧ unused_ready_tool (stop_row now s) = false.
Proof.
  unfold stop_row. destruct (bool_decide (es_status s = StepStatus.PENDING)) eqn:Hp; cbn zeta.
  - destruct (unused_ready_tool (finish_step _ _ _ now s)) eqn:Hu; [|done].
    split; [done|]. unfold unused_ready_tool in *. cbn in *. by rewrite orb_true_r in *.
  - apply bool_decide_eq_false in Hp. destruct (unused_ready_tool s) eqn:Hu; [|done].
    split; [done|]. unfold unused_ready_tool in *. cbn. by rewrite orb_true_r.
Qed.
Lemma stop_row_kept now s : is_terminal_step_status (es_status s) = true → stop_row now s = s.
Proof.
  intros Ht. unfold stop_row. destruct (bool_decide (es_status s = StepStatus.PENDING)) eqn:Hp; cbn zeta.
  { apply bool_decide_eq_true in Hp. by rewrite Hp in Ht. }
  destruct (unused_ready_tool s) eqn:Hu; [|done]. unfold unused_ready_tool in Hu.
  apply negb_true_iff in Hu. rewrite !orb_false_iff in Hu. destruct Hu as [[[_ Hr] _] _].
  apply negb_false_iff, bool_decide_eq_true in Hr. by rewrite Hr in Ht.
Qed.

(** * Transactions as a state monad

    The body of a transaction assigns to rows as it goes, and an exception
    caught inside it keeps what was assigned: [tx] threads the store through
    errors.  Only [commit] forgets it, when an exception leaves the
    transaction. *)

Definition tx (A : Type) : Type := store → res A * store.

#[export] Instance tx_ret : MRet tx := λ _ a st, (Ok a, st).
#[export] Instance tx_bind : MBind tx := λ _ _ f m st,
  match m st with (Ok a, st) => f a st | (Err e, st) => (Err e, st) end.

Definition lift {A} (r : res A) : tx A := λ st, (r, st).
Definition reading {A} (f : store → A) : tx A := λ st, (Ok (f st), st).
Definition modify (f : store → store) : tx unit := λ st, (Ok tt, f st).
Definition throw {A} (e : py_error) : tx A := λ st, (Err e, st).

(** [try: m; except AppError as exc: h]; the code and the message are all a
    handler reads. *)
Definition catching {A} (m : tx A) (h : string → string → tx A) : tx A := λ st,
  match m st with
  | (Err (AppError code message _), st) => h code message st
  | r => r
  end.

(** [try: x = r; except AppError as exc: return h], then the rest *)
Definition attempting {A B} (r : res A) (h : string → string → tx B) (k : A → tx B) : tx B :=
  match r with
  | Ok a => k a
  | Err (AppError code message _) => h code message
  | Err e => throw e
  end.

(** The same with [except Exception] after it *)
Definition attempting_any {A B} (r : res A) (h : string → string → tx B) (other : tx B) (k : A → tx B) : tx B :=
  match r with
  | Ok a => k a
  | Err (AppError code message _) => h code message
  | Err (PyException _) => other
  end.

(** [async with session.begin()] *)
Definition commit {A} (m : tx A) (st : store) : res (store * A) :=
  match m st with (Ok a, st') => Ok (st', a) | (Err e, _) => Err e end.

(** ** Specifications
    From a store with [I], a transaction ends in [Q], or raises and keeps [I]. *)
Section specs.
Context (I : store → Prop).

Definition ends {A} (Q : A → store → Prop) (r : res A * store) : Prop :=
  match r with (Ok a, st) => Q a st | (Err _, st) => I st end.
Definition spec {A} (m : tx A) (Q : A → store → Prop) : Prop := ∀ st, I st → ends Q (m st).
Definition preserves {A} (m : tx A) : Prop := spec m (λ _, I).

Lemma spec_ret {A} (a : A) (Q : A → store → Prop) : (∀ st, I st → Q a st) → spec (mret a) Q.
Proof. intros H st Hst. by apply H. Qed.
Lemma spec_throw {A} e (Q : A → store → Prop) : spec (throw e) Q.
Proof. by intros st Hst. Qed.
Lemma spec_modify f : (∀ st, I st → I (f st)) → preserves (modify f).
Proof. intros H st Hst. by apply H. Qed.
Lemma spec_modify_end {A} f (a : A) (Q : A → store → Prop) :
  (∀ st, I st → Q a (f st)) → spec (modify f ≫= λ _, mret a) Q.
Proof. intros H st Hst. by apply H. Qed.
Lemma spec_run {A B} (m : tx A) (f : A → tx B) R Q :
  spec m R → (∀ a st, R a st → ends Q (f a st)) → spec (m ≫= f) Q.
Proof.
  intros Hm Hf st Hst. specialize (Hm st Hst). unfold mbind, tx_bind. destruct (m st) as [[a|e] st1]; [by apply Hf|done].
Qed.
Lemma spec_bind {A B} (m : tx A) (f : A → tx B) Q : preserves m → (∀ a, spec (f a) Q) → spec (m ≫= f) Q.
Proof. intros Hm Hf. eapply spec_run; [exact Hm|]. intros a st Hst. by apply Hf. Qed.
Lemma spec_lift {A B} (r : res A) (f : A → tx B) Q : (∀ a, r = Ok a → spec (f a) Q) → spec (lift r ≫= f) Q.
Proof. intros Hf st Hst. unfold mbind, tx_bind, lift. destruct r as [a|e]; [by apply Hf|done]. Qed.
(** The rest may rely on what was just read. *)
Lemma spec_read {A B} (g : store → A) (f : A → tx B) Q : (∀ st, I st → spec (f (g st)) Q) → spec (reading g ≫= f) Q.
Proof. intros Hf st Hst. by apply (Hf st). Qed.
Lemma spec_reading {A B} (g : store → A) (f : A → tx B) Q : (∀ st, I st → ends Q (f (g st) st)) → spec (reading g ≫= f) Q.
Proof. intros Hf st Hst. by apply (Hf st). Qed.
Lemma spec_catch {A} (m : tx A) h Q : spec m Q → (∀ c s, spec (h c s) Q) → spec (catching m h) Q.
Proof.
  intros Hm Hh st Hst. specialize (Hm st Hst). unfold catching. destruct (m st) as [[a|[]] st1]; [done|by apply Hh|done].
Qed.
Lemma spec_attempting {A B} (r : res A) h (k : A → tx B) Q :
  (∀ c s, spec (h c s) Q) → (∀ a, r = Ok a → spec (k a) Q) → spec (attempting r h k) Q.
Proof. intros Hh Hk. destruct r as [a|[]]; simpl; [by apply Hk|apply Hh|apply spec_throw]. Qed.
Lemma spec_attempting_any {A B} (r : res A) h other (k : A → tx B) Q :
  (∀ c s, spec (h c s) Q) → spec other Q → (∀ a, r = Ok a → spec (k a) Q) → spec (attempting_any r h other k) Q.
Proof. intros Hh Ho Hk. destruct r as [a|[]]; simpl; [by apply Hk|apply Hh|apply Ho]. Qed.
Lemma spec_if {A} (b : bool) (m n : tx A) Q : (b = true → spec m Q) → (b = false → spec n Q) → spec (if b then m else n) Q.
Proof. destruct b; auto. Qed.
Lemma spec_weaken {A} (m : tx A) (Q Q' : A → store → Prop) : spec m Q → (∀ a st, Q a st → Q' a st) → spec m Q'.
Proof. intros Hm H st Hst. specialize (Hm st Hst). destruct (m st) as [[a|e] st1]; [by apply H|done]. Qed.

(** The same at the end of a transaction, where an exception leaves nothing *)
Definition returning {A} (Q : A → store → Prop) (r : res A * store) : Prop :=
  match r with (Ok a, st) => Q a st | (Err _, _) => True end.
Lemma spec_returning {A} (m : tx A) Q st : spec m Q → I st → returning Q (m st).
Proof. intros Hm Hst. specialize (Hm st Hst). by destruct (m st) as [[a|e] st1]. Qed.
Lemma returning_bind {A B} (m : tx A) (f : A → tx B) R Q st :
  returning R (m st) → (∀ a st, R a st → returning Q (f a st)) → returning Q ((m ≫= f) st).
Proof.
  intros Hm Hf. unfold mbind, tx_bind. destruct (m st) as [[a|e] st1]; [by apply Hf|done].
Qed.
Lemma returning_run {A B} (m : tx A) (f : A → tx B) R Q st :
  spec m R → I st → (∀ a st, R a st → returning Q (f a st)) → returning Q ((m ≫= f) st).
Proof. intros Hm Hst. apply returning_bind. by apply spec_returning. Qed.
Lemma returning_lift {A B} (r : res A) (f : A → tx B) Q st :
  (∀ a, r = Ok a → returning Q (f a st)) → returning Q ((lift r ≫= f) st).
Proof. intros Hf. unfold mbind, tx_bind, lift. destruct r as [a|e]; [by apply Hf|done]. Qed.
Lemma returning_commit {A} (m : tx A) (Q : A → store → Prop) st st' a :
  returning Q (m st) → commit m st = Ok (st', a) → Q a st'.
Proof. unfold commit. destruct (m st) as [[b|e] st1]; [|done]. by intros H [= <- <-]. Qed.
End specs.
