(* ===== verification/Recovery.v ===== *)
(** * Recovery of an expired execution ([execution/recovery.py])

    What a recovery worker does with an execution whose lease ran out: it takes
    over, retries, gives up or declares the outcome unknown, on the durable
    evidence only.  [uuid4] is an argument.  Two neighbours are arguments of the
    section: the tool of a tool version (a row of another table), and the
    recovery of workflow graphs, to which [recover] hands over every workflow
    execution; WorkflowRecovery.v gives both. *)
From S2P Require Import Prelude PyStr PyDict Json PyUuid Domain Rows Cancellation PolicySelection RetryDecision.
From S2P Require Import ToolLineage Claim.

Inductive recovery_decision :=
| NO_OP | TAKEOVER_READY | RESUME_ATTEMPT | RD_SAFE_RETRY | FAIL_EXHAUSTED | RD_UNKNOWN_OUTCOME
| FAIL_INCONSISTENT | CANCEL_RECONCILED.

Record recovery_outcome := RecoveryOutcome {
  ro_decision : recovery_decision;
  ro_taken_over : bool;
  ro_invoke_runner : bool;
  ro_worker_id : option string;
  ro_lease_token : option uuid;
  ro_reason : string }.

Definition CANCEL_RECOVERY_SOURCES : list string := [AGENT_REQUEST; WORKFLOW_VERSION; SCHEDULE_OCCURRENCE].
Definition WORKFLOW_RUNNING_RECOVERY_SOURCES : list string := [WORKFLOW_VERSION; SCHEDULE_OCCURRENCE].
Definition ERROR_CODE_LEASE_EXPIRED : string := "WORKER_LEASE_EXPIRED".
Definition ERROR_CODE_INCONSISTENT : string := "RECOVERY_INCONSISTENT_EVIDENCE".

Definition no_op (reason : string) : recovery_outcome := RecoveryOutcome NO_OP false false None None reason.

(** ** Assignments *)
Definition assign_lease (lease_seconds : Z) (worker_id : string) (token : uuid) (now : Z) (e : execution) : execution :=
  e |> set_ex_worker_id (Some worker_id) |> set_ex_lease_token (Some token)
    |> set_ex_lease_expires_at (Some (now + seconds lease_seconds)%Z) |> set_ex_heartbeat_at (Some now)
    |> bump_execution.

(** [_terminalize_orphan_attempt_tool_call], on each of its rows *)
Definition orphan_call (now : Z) (terminal : attempt_status) (c : tool_call) : tool_call :=
  c |> set_cl_normalized_status terminal |> set_cl_finished_at (Some now).
Definition orphan_attempt (now : Z) (terminal : attempt_status) (is_retryable : bool) (code message : string)
    (a : step_attempt) : step_attempt :=
  a |> set_sa_status terminal |> set_sa_error_layer (Some ERROR_LAYER_WORKER) |> set_sa_error_code (Some code)
    |> set_sa_error_message (Some message) |> set_sa_is_retryable (Some is_retryable)
    |> set_sa_finished_at (Some now).
Definition terminalize_orphan_attempt_tool_call (attempt_id call_id : uuid) (now : Z) (terminal : attempt_status)
    (is_retryable : bool) (message : string) (st : store) : store :=
  st |> upd_call call_id (orphan_call now terminal)
     |> upd_attempt attempt_id (orphan_attempt now terminal is_retryable ERROR_CODE_LEASE_EXPIRED message).

(** The failure of a step row and of the execution row *)
Definition end_step (status : step_status) (code message : string) (now : Z) (s : execution_step) : execution_step :=
  s |> set_es_status status |> set_es_error_code (Some code) |> set_es_error_message (Some message)
    |> set_es_finished_at (Some now) |> bump_step.
Definition fail_execution (code message : string) (now : Z) (e : execution) : execution :=
  e |> set_ex_status ExecutionStatus.FAILED |> set_ex_error_code (Some code) |> set_ex_error_message (Some message)
    |> set_ex_finished_at (Some now) |> clear_execution_lease |> bump_execution.

(** [_fail_execution_step]: both rows, then both events *)
Definition fail_execution_step (step : execution_step) (now : Z) (code message : string) (st : store) : store :=
  st |> upd_step (es_id step) (end_step StepStatus.FAILED code message now)
     |> upd_execution (fail_execution code message now)
     |> emit_of_step now step |> emit_execution_status_changed (ex_status (st_execution st)) now.

(** The step returned to READY by a safe retry *)
Definition retry_step (s : execution_step) : execution_step :=
  s |> set_es_status StepStatus.READY |> set_es_error_code None |> set_es_error_message None
    |> set_es_finished_at None |> bump_step.

(** ** Inconsistent evidence *)
(** The started calls of the execution, with their attempts *)
Definition started_tool_call_pairs (st : store) : list (step_attempt * tool_call) :=
  s ← list_steps st; a ← list_attempts (es_id s) st;
  (λ c, (a, c)) <$> filter (λ c, cl_normalized_status c = AttemptStatus.STARTED) (list_tool_calls (sa_id a) st).

Definition inconsistent_attempt (now : Z) (message : string) (a : step_attempt) : step_attempt :=
  a |> set_sa_status AttemptStatus.UNKNOWN_OUTCOME |> set_sa_error_layer (Some ERROR_LAYER_WORKER)
    |> set_sa_error_code (Some ERROR_CODE_INCONSISTENT) |> set_sa_error_message (Some message)
    |> set_sa_is_retryable (Some false)
    |> set_sa_finished_at (match sa_finished_at a with None => Some now | f => f end).

Definition force_unknown_pair (now : Z) (message : string) (st : store) (pair : step_attempt * tool_call) : store :=
  st |> upd_attempt (sa_id pair.1) (inconsistent_attempt now message)
     |> upd_call (cl_id pair.2) (orphan_call now AttemptStatus.UNKNOWN_OUTCOME).

(** The loop over the steps; [get_started_attempt] is the latest STARTED one. *)
Definition fail_inconsistent_step (now : Z) (message : string) (ambiguous_side_effect : bool) (st : store)
    (step_row : execution_step) : store :=
  match get_step (es_id step_row) st with
  | None => st
  | Some locked =>
      if is_terminal_step_status (es_status step_row) || is_terminal_step_status (es_status locked) then st
      else
        let step_terminal := if ambiguous_side_effect then StepStatus.UNKNOWN_OUTCOME else StepStatus.FAILED in
        let st := upd_step (es_id locked) (end_step step_terminal ERROR_CODE_INCONSISTENT message now) st in
        if ambiguous_side_effect then st
        else match get_started_attempt (es_id locked) st with
             | None => st
             | Some started =>
                 upd_attempt (sa_id started)
                   (orphan_attempt now AttemptStatus.FAILED false ERROR_CODE_INCONSISTENT message) st
             end
  end.

Definition fail_inconsistent (now : Z) (message : string) (st : store) : store :=
  let previous := ex_status (st_execution st) in
  let pairs := started_tool_call_pairs st in
  let ambiguous_side_effect := negb (is_nil pairs) in
  let steps := list_steps st in
  let st := foldl (force_unknown_pair now message) st pairs in
  let st := foldl (fail_inconsistent_step now message ambiguous_side_effect) st steps in
  st |> upd_execution (fail_execution ERROR_CODE_INCONSISTENT message now)
     |> emit_execution_status_changed previous now.

(** ** The decision *)
Section recovery.
Context {schema : PlanSchema} {parser : PlanParser}.
Context (get_version : uuid → option uuid).
Context (recover_workflow_dag : string → Z → store → res (store * recovery_outcome)).

Definition parse_risk_class (v : json) : option string :=
  match v with
  | JStr s => if bool_decide (s ∈ risk_class_value <$> all_risk_classes) then Some s else None
  | _ => None
  end.

Definition load_risk_and_attempts (e : execution) (step : execution_step) : res (string * Z) :=
  snapshot ← require_dict (ex_policy_snapshot e) (conflict "Execution.policy_snapshot is missing or malformed.");
  tool_policy ← require_dict (get_or_none "tool_policy" snapshot)
    (conflict "Execution.policy_snapshot.tool_policy is missing.");
  risk_class ← of_option (conflict "Execution.policy_snapshot risk_class is invalid.")
    (parse_risk_class (get_or_none "risk_class" tool_policy));
  max_attempts ← of_option (conflict "Execution.policy_snapshot max_attempts is invalid.")
    (match get_or_none "max_attempts" tool_policy with
     | JInt n => if (n <? 1)%Z then None else Some n
     | _ => None
     end);
  snapshot_tool_id ← of_option (conflict "Execution.policy_snapshot mcp_tool_id is missing.")
    (match get_or_none "mcp_tool_id" tool_policy with
     | JStr s => if str_empty s then None else Some s
     | _ => None
     end);
  version ← of_option (conflict "TOOL Step is missing mcp_tool_version_id.") (es_mcp_tool_version_id step);
  tool ← of_option (conflict "ToolVersion not found for recovery decision.") (get_version version);
  _ ← raise_if (negb (String.eqb (uuid_str tool) snapshot_tool_id))
        (conflict ("Execution.policy_snapshot mcp_tool_id does not match" +:+ " Step ToolVersion lineage."));
  Ok (risk_class, max_attempts).

Definition lock_foundation_step (st : store) : res execution_step :=
  match list_steps st with
  | [step] =>
      _ ← raise_if (negb (String.eqb (ex_source_type (st_execution st)) AGENT_REQUEST))
            (conflict "Recovery supports AgentRequest Executions only.");
      _ ← raise_if (negb (String.eqb (es_step_key step) DETERMINISTIC_TOOL_STEP_ID)
                    || negb (bool_decide (es_step_type step = StepType.TOOL))
                    || is_some (es_parent_step_id step) || negb (is_some (es_mcp_tool_version_id step)))
            (conflict "ExecutionStep is inconsistent with AgentRequest TOOL foundation.");
      Ok step
  | _ => Err (conflict ("Multi-Step TOOL/JOIN parallel-wave recovery is unsupported; "
                +:+ "fail closed without re-invoking ToolCalls."))
  end.

Definition attempt_started (a : step_attempt) : bool := bool_decide (sa_status a = AttemptStatus.STARTED).

(** The single element a list must have *)
Definition single {A} (l : list A) (none many : py_error) : res A :=
  match l with [] => Err none | [x] => Ok x | _ => Err many end.

Definition decide_ready_checkpoint (st : store) (step : execution_step) : res recovery_decision :=
  let attempts := list_attempts (es_id step) st in
  _ ← raise_if (existsb attempt_started attempts) (conflict "READY Step has STARTED Attempt.");
  _ ← res_iter (λ a,
        _ ← raise_if (negb (bool_decide (sa_step_execution_id a = es_id step)))
              (conflict "StepAttempt lineage does not match Step.");
        raise_if (existsb call_started (list_tool_calls (sa_id a) st))
          (conflict "READY Step has STARTED ToolCall evidence.")) attempts;
  if is_nil attempts then
    _ ← raise_if (negb (es_attempt_count step =? 0)%Z)
          (conflict "READY Step attempt_count does not match Attempt history.");
    Ok TAKEOVER_READY
  else
    _ ← raise_if (negb (bool_decide (sa_attempt_no <$> attempts = range1 (Z.of_nat (length attempts)))))
          (conflict "READY Step Attempt numbers are not contiguous.");
    _ ← raise_if (negb (es_attempt_count step =? Z.of_nat (length attempts))%Z)
          (conflict "READY Step attempt_count does not match Attempt history.");
    rm ← load_risk_and_attempts (st_execution st) step;
    _ ← raise_if (negb (can_safe_retry (es_attempt_count step) rm.2))
          (conflict ("READY Step attempt_count is exhausted;" +:+ " cannot takeover for another Attempt."));
    Ok TAKEOVER_READY.

Definition decide_recovery (st : store) (step : execution_step) : res recovery_decision :=
  match es_status step with
  | StepStatus.READY => decide_ready_checkpoint st step
  | StepStatus.RUNNING =>
      attempt ← single (filter (λ a, attempt_started a = true) (list_attempts (es_id step) st))
        (conflict "RUNNING Step has no STARTED Attempt.") (conflict "RUNNING Step has multiple STARTED Attempts.");
      let tool_calls := list_tool_calls (sa_id attempt) st in
      _ ← raise_if (existsb (λ c, negb (call_started c)) tool_calls)
            (conflict "Terminal ToolCall exists while Step remains RUNNING.");
      match tool_calls with
      | [] =>
          _ ← assert_resume_attempt_lineage (st_execution st) step attempt (list_steps st) None;
          Ok RESUME_ATTEMPT
      | [tool_call] =>
          _ ← raise_if (negb (bool_decide (cl_step_attempt_id tool_call = sa_id attempt)))
                (conflict "ToolCall lineage does not match StepAttempt.");
          version ← of_option (conflict "RUNNING TOOL Step is missing mcp_tool_version_id.")
            (es_mcp_tool_version_id step);
          _ ← raise_if (negb (bool_decide (cl_mcp_tool_version_id tool_call = version)))
                (conflict "ToolCall ToolVersion lineage does not match Step.");
          rm ← load_risk_and_attempts (st_execution st) step;
          if is_unsafe_ambiguous_risk rm.1 then Ok RD_UNKNOWN_OUTCOME
          else if is_safe_retry_risk rm.1 then
            if can_safe_retry (es_attempt_count step) rm.2 then Ok RD_SAFE_RETRY else Ok FAIL_EXHAUSTED
          else Err (conflict "Unsupported risk_class for recovery: {risk_class}.")
      | _ => Err (conflict "STARTED Attempt has multiple STARTED ToolCalls.")
      end
  | _ => Err (conflict "Step status {step.status} is not recoverable in this slice.")
  end.

(** [_require_single_started_attempt] and [_require_started_tool_call] *)
Definition require_single_started_attempt (st : store) (step : execution_step) : res step_attempt :=
  let e := conflict "Expected exactly one STARTED Attempt." in
  single (filter (λ a, attempt_started a = true) (list_attempts (es_id step) st)) e e.
Definition require_started_tool_call (st : store) (attempt : step_attempt) : res tool_call :=
  let e := conflict "Expected exactly one STARTED ToolCall." in
  single (filter (λ c, call_started c = true) (list_tool_calls (sa_id attempt) st)) e e.

(** [_recover_cancel_requested] *)
Definition lease_expired (e : execution) (now : Z) : bool :=
  match ex_lease_expires_at e with Some t => (t <=? now)%Z | None => false end.

Definition recover_cancel_requested (now : Z) (st : store) : res (store * recovery_outcome) :=
  let e := st_execution st in
  if negb (lease_expired e now) then Ok (st, no_op "LEASE_NOT_EXPIRED")
  else if negb (bool_decide (ex_source_type e ∈ CANCEL_RECOVERY_SOURCES)) then Ok (st, no_op "UNSUPPORTED_SOURCE")
  else
    r ← recover_expired_cancel_requested_locked now st;
    Ok (r.1, RecoveryOutcome CANCEL_RECONCILED true false None None
               ("CANCEL_" +:+ execution_status_value (co_status r.2))).

(** The branches of [recover] after the decision *)
Definition apply_decision (lease_seconds : Z) (worker : string) (token : uuid) (ts : Z) (decision : recovery_decision)
    (step : execution_step) (st : store) : res (store * recovery_outcome) :=
  let taken reason := RecoveryOutcome decision true true (Some worker) (Some token) reason in
  let ended reason := RecoveryOutcome decision true false None None reason in
  let st := upd_execution (assign_lease lease_seconds worker token ts) st in
  match decision with
  | TAKEOVER_READY => Ok (st, taken "STEP_READY")
  | RESUME_ATTEMPT =>
      attempt ← require_single_started_attempt st step;
      Ok (upd_attempt (sa_id attempt) (λ a, a |> set_sa_worker_id (Some worker)
            |> set_sa_lease_expires_at (ex_lease_expires_at (st_execution st))) st, taken "RESUME_STARTED_ATTEMPT")
  | RD_SAFE_RETRY =>
      attempt ← require_single_started_attempt st step;
      tool_call ← require_started_tool_call st attempt;
      Ok (st |> terminalize_orphan_attempt_tool_call (sa_id attempt) (cl_id tool_call) ts AttemptStatus.FAILED true
                  ("Worker lease expired after tools/call evidence was started;"
                   +:+ " safe retry class allows a new Attempt.")
             |> upd_step (es_id step) retry_step |> emit_of_step ts step, taken "SAFE_RETRY_READY")
  | FAIL_EXHAUSTED =>
      attempt ← require_single_started_attempt st step;
      tool_call ← require_started_tool_call st attempt;
      Ok (st |> terminalize_orphan_attempt_tool_call (sa_id attempt) (cl_id tool_call) ts AttemptStatus.FAILED false
                  ("Worker lease expired after tools/call evidence was started;" +:+ " max_attempts exhausted.")
             |> fail_execution_step step ts ERROR_CODE_LEASE_EXPIRED
                  ("Worker lease expired with started ToolCall evidence;"
                   +:+ " max_attempts exhausted so remote call is not retried."), ended "MAX_ATTEMPTS_EXHAUSTED")
  | RD_UNKNOWN_OUTCOME =>
      attempt ← require_single_started_attempt st step;
      tool_call ← require_started_tool_call st attempt;
      Ok (st |> terminalize_orphan_attempt_tool_call (sa_id attempt) (cl_id tool_call) ts
                  AttemptStatus.UNKNOWN_OUTCOME false
                  ("Worker lease expired after tools/call evidence was started;"
                   +:+ " unsafe risk class forbids automatic re-call.")
             |> upd_step (es_id step) (end_step StepStatus.UNKNOWN_OUTCOME ERROR_CODE_LEASE_EXPIRED
                  ("Worker lease expired with ambiguous external ToolCall evidence;"
                   +:+ " outcome is unknown and is not automatically retried.") ts)
             |> emit_of_step ts step
             |> upd_execution (fail_execution ERROR_CODE_LEASE_EXPIRED
                  ("MCP tool outcome is unknown after a possible external side effect;"
                   +:+ " it is not automatically retried.") ts)
             |> emit_execution_status_changed (ex_status (st_execution st)) ts, ended "UNSAFE_AMBIGUOUS_TOOL_CALL")
  | _ => Err (conflict "Unsupported recovery decision {decision}.")
  end.

(** [recover] on an expired RUNNING agent execution *)
Definition recover_agent (lease_seconds : Z) (worker : string) (token : uuid) (ts : Z) (st : store)
    : res (store * recovery_outcome) :=
  match (step ← lock_foundation_step st; d ← decide_recovery st step; Ok (step, d)) with
  | Ok (step, decision) => apply_decision lease_seconds worker token ts decision step st
  | Err (AppError code message status) =>
      if String.eqb code "RESOURCE_CONFLICT" then
        Ok (st |> upd_execution (assign_lease lease_seconds worker token ts) |> fail_inconsistent ts message,
            RecoveryOutcome FAIL_INCONSISTENT true false None None message)
      else Err (AppError code message status)
  | Err e => Err e
  end.

(** [recover]; [available] is false when the row is missing or locked by
    another transaction. *)
Definition recover (lease_seconds : Z) (worker_id : string) (token : uuid) (ts : Z) (available : bool) (st : store)
    : res (store * recovery_outcome) :=
  worker ← normalize_worker_id worker_id;
  let e := st_execution st in
  if negb available then Ok (st, no_op "MISSING_OR_LOCKED")
  else if bool_decide (ex_status e = ExecutionStatus.CANCEL_REQUESTED) then recover_cancel_requested ts st
  else if negb (bool_decide (ex_status e = ExecutionStatus.RUNNING)) then Ok (st, no_op "NOT_RUNNING")
  else if negb (lease_expired e ts) then Ok (st, no_op "LEASE_NOT_EXPIRED")
  else if bool_decide (ex_source_type e ∈ WORKFLOW_RUNNING_RECOVERY_SOURCES)
          && negb (is_agent_schedule_occurrence e)
  then recover_workflow_dag worker ts st
  else if negb (String.eqb (ex_source_type e) AGENT_REQUEST) && negb (is_agent_schedule_occurrence e)
  then Ok (st, no_op "UNSUPPORTED_SOURCE")
  else recover_agent lease_seconds worker token ts st.
End recovery.
