(* ===== verification/RecoverySound.v ===== *)
(** * What recovery guarantees

    An expired agent execution is never left stranded, and a call whose outcome
    is unknown is never repeated unless its tool is safe to repeat. *)
From S2P Require Import Prelude PyStr PyDict Json PyUuid Domain Rows Cancellation CancelSound PolicySelection.
From S2P Require Import RetryDecision ToolLineage Claim Recovery.

(** A call in flight belongs to an attempt in flight. *)
Definition started_calls_live (st : store) : Prop :=
  ∀ c a, c ∈ st_calls st → cl_normalized_status c = AttemptStatus.STARTED →
    a ∈ st_attempts st → sa_id a = cl_step_attempt_id c → sa_status a = AttemptStatus.STARTED.

Definition no_lease (e : execution) : Prop :=
  ex_worker_id e = None ∧ ex_lease_token e = None ∧ ex_lease_expires_at e = None ∧ ex_heartbeat_at e = None.

(** ** Inconsistent evidence *)
Lemma pairs_spec st a c :
  store_wf st → (a, c) ∈ started_tool_call_pairs st ↔
  a ∈ st_attempts st ∧ c ∈ st_calls st ∧ cl_step_attempt_id c = sa_id a ∧
  cl_normalized_status c = AttemptStatus.STARTED.
Proof.
  intros Hwf. unfold started_tool_call_pairs. rewrite list_elem_of_bind. setoid_rewrite list_elem_of_bind.
  setoid_rewrite list_elem_of_fmap. setoid_rewrite list_elem_of_filter.
  setoid_rewrite elem_of_list_tool_calls. setoid_rewrite elem_of_list_attempts.
  setoid_rewrite list_steps_wf; [|done]. split; [naive_solver|].
  intros (Ha & Hc & Heq & Hst). pose proof (wf_attempts _ Hwf a Ha) as Hs.
  apply list_elem_of_fmap in Hs as (s & Hs & Hin). exists s. split; [|done]. exists a. split; [|done].
  by exists c.
Qed.

(** Started calls forced to UNKNOWN_OUTCOME, with their attempts *)
Lemma settle_pairs_rows (f : step_attempt → step_attempt) now (L : list (step_attempt * tool_call)) st :
  (∀ a, sa_id (f a) = sa_id a ∧ sa_step_execution_id (f a) = sa_step_execution_id a) →
  let st' := foldl (λ st p, upd_call (cl_id p.2) (orphan_call now AttemptStatus.UNKNOWN_OUTCOME)
                              (upd_attempt (sa_id p.1) f st)) st L in
  same_keys st st' ∧ st_execution st' = st_execution st ∧ st_steps st' = st_steps st ∧
  st_calls st' = upd_where (λ c, cl_id c ∈ (cl_id ∘ snd) <$> L) (orphan_call now AttemptStatus.UNKNOWN_OUTCOME)
                   (st_calls st).
Proof.
  intros Hf. simpl. split_and!.
  - revert st. induction L as [|p L IH]; intros st; [done|]. simpl. etrans; [|apply IH].
    etrans; [by apply (upd_attempt_keys (sa_id p.1) f)|].
    by apply (upd_call_keys (cl_id p.2) (orphan_call now AttemptStatus.UNKNOWN_OUTCOME)).
  - revert st. induction L as [|p L IH]; intros st; [done|]. simpl. by rewrite IH.
  - revert st. induction L as [|p L IH]; intros st; [done|]. simpl. by rewrite IH.
  - rewrite <- (upd_where_fold cl_id (cl_id ∘ snd)) by done.
    revert st. induction L as [|p L IH]; intros st; [done|]. simpl. by rewrite IH.
Qed.

Lemma settled_pairs_calls now st st' :
  store_wf st →
  st_calls st' = upd_where (λ c, cl_id c ∈ (cl_id ∘ snd) <$> started_tool_call_pairs st)
                   (orphan_call now AttemptStatus.UNKNOWN_OUTCOME) (st_calls st) →
  none_started st' ∧ (¬ none_started st → ∃ c, c ∈ st_calls st' ∧ call_evidence c).
Proof.
  intros Hwf Hcalls.
  assert (∀ c, c ∈ st_calls st → cl_normalized_status c = AttemptStatus.STARTED → ∃ a, (a, c) ∈ started_tool_call_pairs st)
    as Hp.
  { intros c Hc Hst. pose proof (wf_calls _ Hwf c Hc) as Ha. apply list_elem_of_fmap in Ha as (a & Ha & Hin).
    exists a. by apply pairs_spec. }
  split.
  - intros c Hc Hst. rewrite Hcalls in Hc. apply elem_of_upd_where in Hc as (x & Hx & ->). case_decide as Hd; [done|].
    apply Hd. destruct (Hp x Hx Hst) as [a Ha]. by apply (list_elem_of_fmap_2 (cl_id ∘ snd) _ (a, x)).
  - intros Hns. destruct (started_tool_call_pairs st) as [|[a c] L] eqn:EL.
    + destruct Hns. intros c Hc Hst. destruct (Hp c Hc Hst) as [a Ha]. by apply elem_of_nil in Ha.
    + assert ((a, c) ∈ started_tool_call_pairs st) as Hin by (rewrite EL; left).
      apply pairs_spec in Hin as (_ & Hc & _ & _); [|done].
      exists (orphan_call now AttemptStatus.UNKNOWN_OUTCOME c). split; [|right; left].
      rewrite Hcalls. apply elem_of_upd_where. exists c. split; [done|]. rewrite decide_True; [done|]. left.
Qed.

(** Terminal rows stay terminal. *)
Definition more_terminal (l l' : list execution_step) : Prop :=
  Forall2 (λ s s', es_id s' = es_id s ∧
    (is_terminal_step_status (es_status s) = true → is_terminal_step_status (es_status s') = true)) l l'.

#[export] Instance more_terminal_preorder : PreOrder more_terminal.
Proof.
  split.
  - intros l. apply Forall_Forall2_diag, Forall_true. done.
  - intros l1 l2 l3 H. revert l3. induction H as [|s1 s2 l1 l2 [H1 H2] _ IH]; intros l3 H3;
      inversion H3 as [|? s3 ? l3' [H4 H5] H6]; subst; constructor; [|by apply IH]. split; [congruence|auto].
Qed.

Definition ended_id (id : uuid) (l : list execution_step) : Prop :=
  ∀ s, s ∈ l → es_id s = id → is_terminal_step_status (es_status s) = true.

Lemma more_terminal_ended id l l' : more_terminal l l' → ended_id id l → ended_id id l'.
Proof.
  intros H He s' Hs' Hid. apply list_elem_of_lookup in Hs' as [i Hi].
  eapply Forall2_lookup_r in H as (s & Hs & H1 & H2); [|done]. apply H2, (He s); [by eapply list_elem_of_lookup_2|congruence].
Qed.

Lemma fail_step_rows now message amb st x :
  (is_terminal_step_status (es_status x) = true → ended_id (es_id x) (st_steps st)) →
  let st' := fail_inconsistent_step now message amb st x in
  same_keys st st' ∧ st_execution st' = st_execution st ∧ st_calls st' = st_calls st ∧
  more_terminal (st_steps st) (st_steps st') ∧ (NoDup (es_id <$> st_steps st) → ended_id (es_id x) (st_steps st')).
Proof.
  intros Hx. unfold fail_inconsistent_step. simpl. destruct (get_step (es_id x) st) as [y|] eqn:Ey.
  2: { split_and!; try done. intros _ s Hs Hid. unfold get_step in Ey. rewrite find_first_None in Ey.
       specialize (Ey s Hs). by rewrite bool_decide_true in Ey. }
  apply find_key_Some in Ey as [Hy Hid].
  destruct (is_terminal_step_status (es_status x)) eqn:Ex; simpl; [by split_and!; auto|].
  destruct (is_terminal_step_status (es_status y)) eqn:Et; simpl.
  { split_and!; try done. intros Hnd s Hs Hs'. by rewrite (key_inj es_id (st_steps st) s y); [|done..|congruence]. }
  set (st1 := upd_step (es_id y) _ st).
  assert (same_keys st st1 ∧ st_execution st1 = st_execution st ∧ st_calls st1 = st_calls st ∧
    more_terminal (st_steps st) (st_steps st1) ∧ ended_id (es_id x) (st_steps st1)) as (H1 & H2 & H3 & H4 & H5).
  { split_and!; [by apply upd_step_keys|done|done| |].
    - apply Forall2_fmap_r, Forall_Forall2_diag, Forall_true. intros s. unfold compose. case_decide; [|done].
      split; [done|]. by destruct amb.
    - intros s (z & Hz & ->)%elem_of_upd_where Hs. case_decide as Hd; [by destruct amb|]. by rewrite Hid in Hd. }
  destruct amb; [by split_and!|]. destruct (get_started_attempt (es_id y) st1) as [a|]; [|by split_and!].
  split_and!; try done. etrans; [exact H1|]. by apply upd_attempt_keys.
Qed.

Lemma fail_steps_rows now message amb L st :
  store_wf st → (∀ x, x ∈ L → is_terminal_step_status (es_status x) = true → ended_id (es_id x) (st_steps st)) →
  let st' := foldl (fail_inconsistent_step now message amb) st L in
  same_keys st st' ∧ st_execution st' = st_execution st ∧ st_calls st' = st_calls st ∧
  more_terminal (st_steps st) (st_steps st') ∧ ∀ x, x ∈ L → ended_id (es_id x) (st_steps st').
Proof.
  revert st. induction L as [|x L IH]; intros st Hwf HL; cbn [foldl].
  { split_and!; try done. by intros x ?%elem_of_nil. }
  destruct (fail_step_rows now message amb st x) as (H1 & H2 & H3 & H4 & H5); [apply HL; left|].
  destruct (IH (fail_inconsistent_step now message amb st x)) as (K1 & K2 & K3 & K4 & K5).
  - by eapply same_keys_wf.
  - intros y Hy Ht. eapply more_terminal_ended; [exact H4|]. apply HL; [by right|done].
  - split_and!; [by etrans|congruence|congruence|by etrans|].
    intros y [->|Hy]%elem_of_cons; [|by apply K5]. eapply more_terminal_ended; [exact K4|apply H5, Hwf].
Qed.

Lemma fail_inconsistent_rows now message st :
  store_wf st →
  let st' := fail_inconsistent now message st in
  same_keys st st' ∧ st_execution st' = fail_execution ERROR_CODE_INCONSISTENT message now (st_execution st) ∧
  none_started st' ∧ (∀ s, s ∈ st_steps st' → is_terminal_step_status (es_status s) = true) ∧
  (¬ none_started st → ambiguous st').
Proof.
  intros Hwf. unfold fail_inconsistent. simpl.
  destruct (settle_pairs_rows (inconsistent_attempt now message) now (started_tool_call_pairs st) st) as (H1 & H2 & H3 & H4);
    [done|].
  set (st1 := foldl _ st (started_tool_call_pairs st)) in *.
  change (foldl (force_unknown_pair now message) st (started_tool_call_pairs st)) with st1.
  destruct (settled_pairs_calls now st st1 Hwf H4) as [Hns Hamb].
  assert (store_wf st1) as Hwf1 by by eapply same_keys_wf.
  destruct (fail_steps_rows now message (negb (is_nil (started_tool_call_pairs st))) (list_steps st) st1 Hwf1)
    as (K1 & K2 & K3 & K4 & K5).
  { intros x Hx Ht s Hs Hid. apply list_steps_wf in Hx; [|done]. rewrite H3 in Hs.
    by rewrite (key_inj es_id (st_steps st) s x (wf_step_ids _ Hwf) Hs Hx Hid). }
  set (st2 := foldl (fail_inconsistent_step _ _ _) st1 _) in *.
  set (f := fail_execution ERROR_CODE_INCONSISTENT message now).
  destruct (emit_execution_rows (ex_status (st_execution st)) now (upd_execution f st2)) as (E1 & E2 & E3 & E4 & _).
  assert (same_keys st st2) as (G1 & G2) by by etrans. split_and!.
  - split; rewrite ?E1, ?E2, ?E3, ?E4; [|exact G2]. simpl. by rewrite <- G1.
  - rewrite E1. simpl. by rewrite K2, H2.
  - intros c Hc. rewrite E4 in Hc. cbn [st_calls upd_execution set_st_execution] in Hc. rewrite K3 in Hc. by apply Hns.
  - intros s Hs. rewrite E2 in Hs. simpl in Hs. destruct K1 as (_ & [Hids _]%fmap_fst & _).
    pose proof (list_elem_of_fmap_2 es_id _ _ Hs) as Hid. rewrite Hids, H3 in Hid.
    apply list_elem_of_fmap in Hid as (x & Hid & Hx). apply (K5 x); [by apply list_steps_wf|done|done].
  - intros H. left. rewrite E4. cbn [st_calls upd_execution set_st_execution]. rewrite K3. by apply Hamb.
Qed.

(** ** The decision *)
Section recovery_sound.
Context {schema : PlanSchema} {parser : PlanParser}.
Context (get_version : uuid → option uuid).
Context (recover_workflow_dag : string → Z → store → res (store * recovery_outcome)).

Definition started_attempts (st : store) (step : execution_step) : list step_attempt :=
  filter (λ a, attempt_started a = true) (list_attempts (es_id step) st).

(** What each decision says about the rows *)
Definition decided (st : store) (step : execution_step) (d : recovery_decision) : Prop :=
  let one_call P := ∃ a c rm, started_attempts st step = [a] ∧ list_tool_calls (sa_id a) st = [c] ∧
    call_started c = true ∧ load_risk_and_attempts get_version (st_execution st) step = Ok rm ∧ P (rm : string * Z) in
  match d with
  | TAKEOVER_READY => es_status step = StepStatus.READY ∧ started_attempts st step = []
  | RESUME_ATTEMPT => es_status step = StepStatus.RUNNING ∧
      ∃ a, started_attempts st step = [a] ∧ list_tool_calls (sa_id a) st = []
  | RD_SAFE_RETRY => es_status step = StepStatus.RUNNING ∧
      one_call (λ rm, is_safe_retry_risk rm.1 = true ∧ (es_attempt_count step < rm.2)%Z)
  | FAIL_EXHAUSTED => es_status step = StepStatus.RUNNING ∧ one_call (λ rm, is_safe_retry_risk rm.1 = true)
  | RD_UNKNOWN_OUTCOME => es_status step = StepStatus.RUNNING ∧ one_call (λ rm, is_unsafe_ambiguous_risk rm.1 = true)
  | _ => False
  end.

Lemma single_Ok {A} (l : list A) e1 e2 x : single l e1 e2 = Ok x → l = [x].
Proof. by destruct l as [|y [|]]; intros [= <-]. Qed.

Lemma decide_Ok st step d : decide_recovery get_version st step = Ok d → decided st step d.
Proof.
  unfold decide_recovery. destruct (es_status step) eqn:Es; try done.
  - unfold decide_ready_checkpoint. intros H. apply bind_Ok in H as ([] & Hs & H). apply raise_if_Ok in Hs.
    apply bind_Ok in H as ([] & _ & H).
    assert (started_attempts st step = []) as Hnil.
    { rewrite existsb_elem_false in Hs. unfold started_attempts.
      destruct (filter _ _) as [|a l] eqn:E; [done|].
      assert (a ∈ filter (λ a, attempt_started a = true) (list_attempts (es_id step) st)) as Ha by (rewrite E; left).
      apply list_elem_of_filter in Ha as [Ha Hin]. rewrite Hs in Ha; done. }
    assert (d = TAKEOVER_READY) as ->; [|done]. destruct (is_nil _); inv_res; done.
  - intros H. apply bind_Ok in H as (a & Ha%single_Ok & H). apply bind_Ok in H as ([] & Ht & H).
    apply raise_if_Ok in Ht. destruct (list_tool_calls (sa_id a) st) as [|c [|]] eqn:Ec; try done.
    + apply bind_Ok in H as ([] & _ & H). injection H as <-. split; [done|]. by exists a.
    + apply bind_Ok in H as ([] & _ & H). apply bind_Ok in H as (v & _ & H). apply bind_Ok in H as ([] & _ & H).
      apply bind_Ok in H as (rm & Hrm & H). simpl in Ht. apply orb_false_iff in Ht as [Ht _]. apply negb_false_iff in Ht.
      destruct (is_unsafe_ambiguous_risk rm.1) eqn:Eu; [injection H as <-; split; [done|]; by exists a, c, rm|].
      destruct (is_safe_retry_risk rm.1) eqn:Er; [|done].
      destruct (can_safe_retry _ _) eqn:Ecan; injection H as <-; (split; [done|]); exists a, c, rm; [|done].
      apply can_safe_retry_spec in Ecan as [_ Ecan]. by split_and!.
Qed.

(** Every error of the decision is a conflict, or the lineage check's. *)
Definition lineage_error (st : store) (err : py_error) : Prop :=
  ∃ s a, assert_resume_attempt_lineage (st_execution st) s a (list_steps st) None = Err err.

Lemma load_risk_error st step err :
  load_risk_and_attempts get_version (st_execution st) step = Err err → ∃ m, err = conflict m.
Proof.
  assert (∀ {A} (o : option A) m, of_option (conflict m) o = Err err → ∃ m, err = conflict m) as Ho
    by (intros A [] m; [done|intros [= <-]; by eexists]).
  assert (∀ v m, require_dict v (conflict m) = Err err → ∃ m, err = conflict m) as Hd
    by (intros [] m; try done; intros [= <-]; by eexists).
  unfold load_risk_and_attempts. intros H.
  apply bind_Err in H as [H|(? & _ & H)]; [by eapply Hd|].
  apply bind_Err in H as [H|(? & _ & H)]; [by eapply Hd|].
  do 5 (apply bind_Err in H as [H|(? & _ & H)]; [by eapply Ho|]).
  apply bind_Err in H as [H|(? & _ & H)]; [|done]. unfold raise_if in H. case_match; [|done].
  injection H as <-. by eexists.
Qed.

Lemma raise_conflict b m err : raise_if b (conflict m) = Err err → ∃ m, err = conflict m.
Proof. destruct b; [intros [= <-]; by eexists|done]. Qed.

Lemma decide_error st step err :
  decide_recovery get_version st step = Err err → (∃ m, err = conflict m) ∨ lineage_error st err.
Proof.
  unfold decide_recovery.
  destruct (es_status step); try (intros [= <-]; left; by eexists).
  - intros H. left. unfold decide_ready_checkpoint in H.
    apply bind_Err in H as [H|(? & _ & H)]; [by eapply raise_conflict|].
    apply bind_Err in H as [H|(? & _ & H)].
    { revert H. generalize (list_attempts (es_id step) st) as l. induction l as [|a l IH]; [done|]. cbn [res_iter].
      intros H. apply bind_Err in H as [H|(? & _ & H)]; [|by apply IH].
      apply bind_Err in H as [H|(? & _ & H)]; by eapply raise_conflict. }
    destruct (is_nil _).
    + apply bind_Err in H as [H|(? & _ & H)]; [by eapply raise_conflict|done].
    + do 2 (apply bind_Err in H as [H|(? & _ & H)]; [by eapply raise_conflict|]).
      apply bind_Err in H as [H|(? & _ & H)]; [by eapply load_risk_error|].
      apply bind_Err in H as [H|(? & _ & H)]; [by eapply raise_conflict|done].
  - intros H. apply bind_Err in H as [H|(a & _ & H)].
    { left. unfold single in H. repeat case_match; try done; injection H as <-; by eexists. }
    apply bind_Err in H as [H|(? & _ & H)]; [left; by eapply raise_conflict|].
    destruct (list_tool_calls (sa_id a) st) as [|c [|]].
    + apply bind_Err in H as [H|(? & _ & H)]; [right; by eexists _, _|done].
    + left. apply bind_Err in H as [H|(? & _ & H)]; [by eapply raise_conflict|].
      apply bind_Err in H as [H|(? & _ & H)]; [unfold of_option in H; case_match; [done|]; injection H as <-; by eexists|].
      apply bind_Err in H as [H|(? & _ & H)]; [by eapply raise_conflict|].
      apply bind_Err in H as [H|(rm & _ & H)]; [by eapply load_risk_error|].
      repeat case_match; try done. injection H as <-. by eexists.
    + left. injection H as <-. by eexists.
Qed.

Lemma foundation_Ok st step : lock_foundation_step st = Ok step → list_steps st = [step].
Proof. unfold lock_foundation_step. destruct (list_steps st) as [|s [|]]; try done. intros H. by inv_res. Qed.

Lemma foundation_error st err : lock_foundation_step st = Err err → ∃ m, err = conflict m.
Proof.
  unfold lock_foundation_step. destruct (list_steps st) as [|s [|]]; intros H; try (injection H as <-; by eexists).
  do 2 (apply bind_Err in H as [H|(? & _ & H)]; [by eapply raise_conflict|]). done.
Qed.

(** *** After the decision *)
Lemma started_call_attempt st step c :
  store_wf st → started_calls_live st → list_steps st = [step] → c ∈ st_calls st →
  cl_normalized_status c = AttemptStatus.STARTED →
  ∃ a, a ∈ started_attempts st step ∧ c ∈ list_tool_calls (sa_id a) st.
Proof.
  intros Hwf Hlive Hone Hc Hst. pose proof (wf_calls _ Hwf c Hc) as Ha.
  apply list_elem_of_fmap in Ha as (a & Ha & Hin). exists a. split; [|by apply elem_of_list_tool_calls].
  apply list_elem_of_filter. split; [apply bool_decide_eq_true; by eapply Hlive|].
  apply elem_of_list_attempts. split; [done|]. pose proof (wf_attempts _ Hwf a Hin) as Hs.
  apply list_elem_of_fmap in Hs as (s & -> & Hs). apply list_steps_wf in Hs; [|done]. rewrite Hone in Hs.
  by apply list_elem_of_singleton in Hs as ->.
Qed.

Lemma no_attempt_none_started st step :
  store_wf st → started_calls_live st → list_steps st = [step] → started_attempts st step = [] → none_started st.
Proof.
  intros Hwf Hl Hone Hnil c Hc Hst. destruct (started_call_attempt st step c) as (a & Ha & _); [done..|].
  rewrite Hnil in Ha. by apply elem_of_nil in Ha.
Qed.

Lemma one_attempt_none_started st step a :
  store_wf st → started_calls_live st → list_steps st = [step] → started_attempts st step = [a] →
  list_tool_calls (sa_id a) st = [] → none_started st.
Proof.
  intros Hwf Hl Hone Ha Hnil c Hc Hst. destruct (started_call_attempt st step c) as (b & Hb & Hin); [done..|].
  rewrite Ha in Hb. apply list_elem_of_singleton in Hb as ->. rewrite Hnil in Hin. by apply elem_of_nil in Hin.
Qed.

Lemma orphan_none_started st st0 step a c now terminal b m :
  store_wf st → started_calls_live st → list_steps st = [step] → started_attempts st step = [a] →
  list_tool_calls (sa_id a) st = [c] → terminal ≠ AttemptStatus.STARTED → st_calls st0 = st_calls st →
  none_started (terminalize_orphan_attempt_tool_call (sa_id a) (cl_id c) now terminal b m st0).
Proof.
  intros Hwf Hl Hone Ha Hc Ht H0 x Hx Hst. simpl in Hx. rewrite H0 in Hx.
  apply elem_of_upd_where in Hx as (y & Hy & ->). case_decide as Hd; [done|].
  destruct (started_call_attempt st step y) as (b' & Hb & Hin); [done..|].
  rewrite Ha in Hb. apply list_elem_of_singleton in Hb as ->. rewrite Hc in Hin.
  by apply list_elem_of_singleton in Hin as ->.
Qed.

(** The step is the only row of its table. *)
Lemma only_step_terminal st step f (P : execution_step → Prop) :
  store_wf st → list_steps st = [step] → (∀ s, P (f s)) →
  ∀ s, s ∈ upd_where (λ s, es_id s = es_id step) f (st_steps st) → P s.
Proof.
  intros Hwf Hone Hf s (x & Hx & ->)%elem_of_upd_where. case_decide as Hd; [done|].
  apply list_steps_wf in Hx; [|done]. rewrite Hone in Hx. by apply list_elem_of_singleton in Hx as ->.
Qed.

(** The two ends of a recovery *)
Definition handed_over (worker : string) (token : uuid) (ts : Z) (st' : store) : Prop :=
  holds_lease worker token ts (st_execution st') = true.
Definition given_up (ts : Z) (st' : store) : Prop :=
  ex_status (st_execution st') = ExecutionStatus.FAILED ∧ no_lease (st_execution st') ∧
  ex_finished_at (st_execution st') = Some ts ∧
  ∀ s, s ∈ st_steps st' → is_terminal_step_status (es_status s) = true.

(** A call in flight is only repeated for a tool that is safe to repeat. *)
Definition repeats_safely (st : store) (o : recovery_outcome) (st' : store) : Prop :=
  (∃ step rm, list_steps st = [step] ∧ load_risk_and_attempts get_version (st_execution st) step = Ok rm ∧
     is_safe_retry_risk rm.1 = true ∧ (ro_invoke_runner o = true → (es_attempt_count step < rm.2)%Z)) ∨
  (ro_invoke_runner o = false ∧ ambiguous st').

Definition recovered (worker : string) (token : uuid) (ts : Z) (st : store) (r : store * recovery_outcome) : Prop :=
  ro_taken_over r.2 = true ∧ none_started r.1 ∧
  (if ro_invoke_runner r.2 then handed_over worker token ts r.1 else given_up ts r.1) ∧
  (¬ none_started st → repeats_safely st r.2 r.1).

Lemma assigned_holds lease_seconds worker token ts e :
  (0 < lease_seconds)%Z → ex_status e = ExecutionStatus.RUNNING →
  holds_lease worker token ts (assign_lease lease_seconds worker token ts e) = true.
Proof.
  intros Hl He. unfold holds_lease. simpl. rewrite He, !bool_decide_true by done. simpl.
  unfold seconds. apply negb_true_iff, Z.leb_gt. lia.
Qed.

Lemma require_call st1 step a c :
  started_attempts st1 step = [a] → list_tool_calls (sa_id a) st1 = [c] → call_started c = true →
  require_single_started_attempt st1 step = Ok a ∧ require_started_tool_call st1 a = Ok c.
Proof.
  intros Ha Hc Hst. unfold require_single_started_attempt, require_started_tool_call.
  change (filter _ (list_attempts _ _)) with (started_attempts st1 step). rewrite Ha, Hc.
  by rewrite filter_cons_True.
Qed.

Lemma apply_decision_Ok lease_seconds worker token ts d step st :
  store_wf st → started_calls_live st → (0 < lease_seconds)%Z → ex_status (st_execution st) = ExecutionStatus.RUNNING →
  list_steps st = [step] → decided st step d →
  ∃ r, apply_decision lease_seconds worker token ts d step st = Ok r ∧ recovered worker token ts st r.
Proof.
  intros Hwf Hlive Hlease Hrun Hone Hd. set (st1 := upd_execution (assign_lease lease_seconds worker token ts) st).
  assert (handed_over worker token ts st1) as Hho by by apply assigned_holds.
  unfold apply_decision. fold st1. destruct d; try done; cbn [decided] in Hd.
  - destruct Hd as [_ Hnil]. eexists. split; [done|].
    assert (none_started st) as Hns by by eapply no_attempt_none_started. by split_and!.
  - destruct Hd as (_ & a & Ha & Hc). unfold require_single_started_attempt.
    change (filter _ (list_attempts (es_id step) st1)) with (started_attempts st step). rewrite Ha.
    cbn [single mbind res_bind]. eexists. split; [done|].
    assert (none_started st) as Hns by by eapply one_attempt_none_started. by split_and!.
  - destruct Hd as (_ & a & c & rm & Ha & Hc & Hst & Hrm & Hsafe & Hlt).
    destruct (require_call st1 step a c) as [-> E2]; [done..|]. cbn [mbind res_bind]. rewrite E2. cbn [mbind res_bind].
    set (st2 := terminalize_orphan_attempt_tool_call _ _ _ _ _ _ st1).
    assert (none_started st2) as Hns by by eapply (orphan_none_started st).
    destruct (emit_of_step_rows ts step (upd_step (es_id step) retry_step st2)) as (R1 & _ & _ & R4 & _).
    eexists. split; [done|]. split_and!; cbn [fst snd ro_taken_over ro_invoke_runner]; [done| | |].
    + by apply (none_started_same st2).
    + unfold handed_over. by rewrite R1.
    + intros _. left. by exists step, rm.
  - destruct Hd as (_ & a & c & rm & Ha & Hc & Hst & Hrm & Hsafe).
    destruct (require_call st1 step a c) as [-> E2]; [done..|]. cbn [mbind res_bind]. rewrite E2. cbn [mbind res_bind].
    set (st2 := terminalize_orphan_attempt_tool_call _ _ _ _ _ _ st1).
    assert (none_started st2) as Hns by by eapply (orphan_none_started st).
    eexists. split; [done|]. unfold fail_execution_step.
    set (g := end_step _ _ _ _). set (f := fail_execution _ _ _). set (st3 := upd_execution f (upd_step (es_id step) g st2)).
    destruct (emit_of_step_rows ts step st3) as (R1 & R2 & _ & R4 & _).
    match goal with |- recovered _ _ _ _ (emit_execution_status_changed ?p _ ?s, _) =>
      destruct (emit_execution_rows p ts s) as (Q1 & Q2 & _ & Q4 & _) end.
    split_and!; cbn [fst snd ro_taken_over ro_invoke_runner]; [done| | |].
    + apply (none_started_same st2); [|done]. by rewrite Q4, R4.
    + unfold given_up. rewrite Q1, R1, Q2, R2. split_and!; try done. by apply (only_step_terminal st step g (λ s, is_terminal_step_status (es_status s) = true)).
    + intros _. left. exists step, rm. by split_and!.
  - destruct Hd as (_ & a & c & rm & Ha & Hc & Hst & Hrm & Hun).
    destruct (require_call st1 step a c) as [-> E2]; [done..|]. cbn [mbind res_bind]. rewrite E2. cbn [mbind res_bind].
    set (st2 := terminalize_orphan_attempt_tool_call _ _ _ _ _ _ st1).
    assert (none_started st2) as Hns by by eapply (orphan_none_started st).
    set (g := end_step _ _ _ _). set (f := fail_execution _ _ _).
    destruct (emit_of_step_rows ts step (upd_step (es_id step) g st2)) as (R1 & R2 & _ & R4 & _).
    set (st3 := emit_of_step ts step (upd_step (es_id step) g st2)) in *.
    destruct (emit_execution_rows (ex_status (st_execution st1)) ts (upd_execution f st3)) as (Q1 & Q2 & _ & Q4 & _).
    eexists. split; [done|]. split_and!; cbn [fst snd ro_taken_over ro_invoke_runner]; [done| | |].
    + apply (none_started_same st2); [|done]. rewrite Q4. exact R4.
    + unfold given_up. rewrite Q1, Q2. simpl. rewrite R1, R2. split_and!; try done. by apply (only_step_terminal st step g (λ s, is_terminal_step_status (es_status s) = true)).
    + intros _. right. split; [done|]. right. right. exists (g step). rewrite Q2. simpl. rewrite R2. split; [|done].
      apply elem_of_upd_where. exists step. split; [|by rewrite decide_True].
      change (step ∈ st_steps st). apply list_steps_wf; [done|]. rewrite Hone. left.
Qed.

Lemma conflict_recovered lease_seconds worker token ts m st :
  store_wf st →
  recovered worker token ts st
    (st |> upd_execution (assign_lease lease_seconds worker token ts) |> fail_inconsistent ts m,
     RecoveryOutcome FAIL_INCONSISTENT true false None None m).
Proof.
  intros Hwf. set (st1 := upd_execution _ st). assert (store_wf st1) as Hwf1 by (destruct Hwf; by constructor).
  destruct (fail_inconsistent_rows ts m st1 Hwf1) as (_ & He & Hns & Hend & Hamb).
  split_and!; [done|done| |].
  - unfold given_up. simpl. rewrite He. by split_and!.
  - intros H. right. split; [done|]. by apply Hamb.
Qed.

Lemma recover_agent_Ok lease_seconds worker token ts st :
  store_wf st → started_calls_live st → (0 < lease_seconds)%Z → ex_status (st_execution st) = ExecutionStatus.RUNNING →
  match recover_agent get_version lease_seconds worker token ts st with
  | Ok r => recovered worker token ts st r
  | Err err => lineage_error st err
  end.
Proof.
  intros Hwf Hlive Hl Hrun. unfold recover_agent.
  assert (∀ m, recovered worker token ts st
    (st |> upd_execution (assign_lease lease_seconds worker token ts) |> fail_inconsistent ts m,
     RecoveryOutcome FAIL_INCONSISTENT true false None None m)) as Hconf by by intros; apply conflict_recovered.
  destruct (lock_foundation_step st) as [step|err] eqn:Ef; cbn [mbind res_bind].
  2: { destruct (foundation_error st err Ef) as [m ->]. apply Hconf. }
  apply foundation_Ok in Ef. destruct (decide_recovery get_version st step) as [d|err] eqn:Ed;
    cbn [mbind res_bind].
  - apply decide_Ok in Ed. by destruct (apply_decision_Ok lease_seconds worker token ts d step st) as (r & -> & Hr).
  - destruct (decide_error st step err Ed) as [[m ->]|Hlin]; [apply Hconf|].
    destruct err as [code m status|]; [|done]. destruct (String.eqb code _); [apply Hconf|done].
Qed.

Lemma recover_is_agent lease_seconds worker worker' token ts st :
  normalize_worker_id worker = Ok worker' → ex_status (st_execution st) = ExecutionStatus.RUNNING →
  lease_expired (st_execution st) ts = true → ex_source_type (st_execution st) = AGENT_REQUEST →
  recover get_version recover_workflow_dag lease_seconds worker token ts true st =
  recover_agent get_version lease_seconds worker' token ts st.
Proof. intros Hw Hrun Hex Hsrc. unfold recover. rewrite Hw. simpl. by rewrite Hrun, Hex, Hsrc. Qed.

(** C13: recovery makes progress.  An agent execution left RUNNING by a worker
    whose lease ran out is taken over by one recovery: no call is left in
    flight, and either the runner is invoked under a fresh lease that the
    recovering worker holds, or the execution is FAILED without a lease, with
    every step in a terminal state.  The only error that can escape is one the
    lineage check of a replayed attempt raised. *)
Theorem recover_progress lease_seconds worker worker' token ts st :
  store_wf st → started_calls_live st → (0 < lease_seconds)%Z →
  normalize_worker_id worker = Ok worker' → ex_status (st_execution st) = ExecutionStatus.RUNNING →
  lease_expired (st_execution st) ts = true → ex_source_type (st_execution st) = AGENT_REQUEST →
  match recover get_version recover_workflow_dag lease_seconds worker token ts true st with
  | Ok (st', outcome) => ro_taken_over outcome = true ∧ none_started st' ∧
      (if ro_invoke_runner outcome then handed_over worker' token ts st' else given_up ts st')
  | Err err => lineage_error st err
  end.
Proof.
  intros Hwf Hlive Hl Hw Hrun Hex Hsrc. rewrite (recover_is_agent _ _ worker') by done.
  pose proof (recover_agent_Ok lease_seconds worker' token ts st Hwf Hlive Hl Hrun) as H.
  destruct (recover_agent _ _ _ _ _ _) as [[st' o]|err]; [|done].
  destruct H as (H1 & H2 & H3 & _). by split_and!.
Qed.

(** C10: a call whose outcome is unknown is never repeated unsafely.  When the
    crashed worker left a call in flight, the recovery of the agent execution
    invokes the runner again only for a tool whose pinned risk class is safe to
    repeat and whose pinned attempts are not used up; in every other case the
    runner is not invoked, and unless the tool was safe the evidence of an
    unknown outcome stays on the rows. *)
Theorem recover_never_repeats_unknown lease_seconds worker worker' token ts st st' outcome :
  store_wf st → started_calls_live st → (0 < lease_seconds)%Z →
  normalize_worker_id worker = Ok worker' → ex_status (st_execution st) = ExecutionStatus.RUNNING →
  lease_expired (st_execution st) ts = true → ex_source_type (st_execution st) = AGENT_REQUEST →
  ¬ none_started st →
  recover get_version recover_workflow_dag lease_seconds worker token ts true st = Ok (st', outcome) →
  repeats_safely st outcome st'.
Proof.
  intros Hwf Hlive Hl Hw Hrun Hex Hsrc Hns. rewrite (recover_is_agent _ _ worker') by done.
  pose proof (recover_agent_Ok lease_seconds worker' token ts st Hwf Hlive Hl Hrun) as H.
  intros E. rewrite E in H. destruct H as (_ & _ & _ & H). by apply H.
Qed.
End recovery_sound.
