(* ===== verification/WorkflowRecovery.v ===== *)
(** Recovery of LOOPs and of whole workflow graphs. *)
From S2P Require Import Prelude PyStr PyDict Json PyUuid Domain LoopRuntime Completion DagSchedule Rows Cancellation.
From S2P Require Import PolicySelection RetryDecision LoopReconcile ToolLineage Claim Preflight Approval Transaction.
From S2P Require Import Recovery.

(** * Recovery of an expired LOOP execution ([execution/loop_recovery.py])

    Before a recovery worker takes an execution with LOOPs over, every LOOP row
    must be at a durable checkpoint: its control evidence (the pinned collection
    of a FOR_EACH, the gates of a WHILE) must agree with the rows of its
    iterations and with what the evidence evaluates to today.  Reads only. *)

Definition LOOP_STEP_TERMINAL : list step_status :=
  [StepStatus.SUCCEEDED; StepStatus.FAILED; StepStatus.TIMED_OUT; StepStatus.CANCELLED; StepStatus.SKIPPED;
   StepStatus.UNKNOWN_OUTCOME].
Definition ACTIVE_NONTERMINAL : list step_status :=
  [StepStatus.PENDING; StepStatus.READY; StepStatus.RUNNING; StepStatus.WAITING_INPUT; StepStatus.WAITING_APPROVAL].
Definition loop_step_terminal (s : execution_step) : bool := bool_decide (es_status s ∈ LOOP_STEP_TERMINAL).
Definition loop_step_active (s : execution_step) : bool := bool_decide (es_status s ∈ ACTIVE_NONTERMINAL).

Section loop_recovery.
Context {schema : PlanSchema} {parser : PlanParser}.

(** ** Which plans *)
Definition plan_has_loop (p : plan) : bool := existsb (λ s, bool_decide (ps_type s = StepType.LOOP)) (pl_steps p).

(** [except AppError: return False]; any other exception passes. *)
Definition plan_supports_flat_loop_running_recovery (p : plan) : res bool :=
  if negb (plan_has_loop p) then Ok false
  else match assert_flat_foreach_runtime_compatible p with
       | Ok _ => Ok true
       | Err (AppError _ _ _) => Ok false
       | Err e => Err e
       end.

Definition assert_loop_recovery_ownership (p : plan) : res loop_body_ownership :=
  match assert_flat_foreach_runtime_compatible p with
  | Err (AppError code message status) =>
      if String.eqb code LOOP_RUNTIME_UNSUPPORTED then Err (conflict message) else Err (AppError code message status)
  | r => r
  end.

(** ** The rows of an iteration *)
Definition assert_dynamic_child_lineage (parent : execution_step) (cfg : loop_config) (p : plan)
    (child : execution_step) : res unit :=
  _ ← raise_if (negb (bool_decide (es_parent_step_id child = Some (es_id parent))))
        (conflict "LOOP child parent_step_id mismatch.");
  n ← of_option (conflict "LOOP child iteration_no must be >= 1.") (es_iteration_no child);
  _ ← raise_if (n <? 1)%Z (conflict "LOOP child iteration_no must be >= 1.");
  template ← of_option (conflict "LOOP child step_snapshot is invalid.") (validate_step (es_step_snapshot child));
  let drift := conflict "LOOP child snapshot is not an exact body template projection for {template.id!r}." in
  expected ← of_option drift (plan_step_with_id p (ps_id template));
  _ ← raise_if (negb (py_eq (dump_step expected) (es_step_snapshot child))) drift;
  _ ← raise_if (negb (bool_decide (ps_id template ∈ lc_body_step_ids cfg)))
        (conflict "LOOP child template {template.id!r} is not owned by LOOP {parent.step_key!r}.");
  _ ← raise_if (negb (bool_decide (es_step_type child = ps_type template)))
        (conflict "LOOP child step_type mismatches body template.");
  expected_key ← iteration_step_key (es_id parent) n (ps_id template);
  _ ← raise_if (negb (String.eqb (es_step_key child) expected_key))
        (conflict "LOOP child step_key {child.step_key!r} does not match deterministic key {expected_key!r}.");
  expected_tv ← tool_version_for_template expected;
  _ ← raise_if (negb (bool_decide (es_mcp_tool_version_id child = expected_tv)))
        (conflict "LOOP child TOOL mcp_tool_version_id mismatches template.");
  if bool_decide (lc_mode cfg = LoopMode.WHILE) then assert_while_child_immutable_lineage child (es_id parent) n expected
  else Ok tt.

(** The rows of iteration [n]: one exact row per template *)
Definition assert_iteration_child_set (parent : execution_step) (steps : list execution_step) (cfg : loop_config) (p : plan)
    (require_terminal : bool) (n : Z) : res (list execution_step) :=
  let children := child_instances_for_iteration steps (es_id parent) n in
  let body_ids := lc_body_step_ids cfg in
  _ ← raise_if (is_nil children)
        (conflict "LOOP {parent.step_key!r} iteration {iteration_no} has no child rows (partial materialization is corruption).");
  _ ← raise_if (negb (length children =? length body_ids)%nat)
        (conflict "LOOP {parent.step_key!r} iteration {iteration_no} is a partial materialization.");
  templates ← res_map (λ child, _ ← assert_dynamic_child_lineage parent cfg p child; template_id_from_step_snapshot child)
                children;
  _ ← raise_if (negb (no_dup templates))
        (conflict "LOOP {parent.step_key!r} iteration {iteration_no} has duplicate body templates.");
  _ ← raise_if (negb (same_set templates body_ids))
        (conflict "LOOP {parent.step_key!r} iteration {iteration_no} template set {sorted(templates)} != body_step_ids {list(body_ids)}.");
  _ ← (if require_terminal then
         res_iter (λ child,
           _ ← raise_if (negb (loop_step_terminal child))
                 (conflict "LOOP {parent.step_key!r} iteration {iteration_no} is not terminal while a newer iteration exists.");
           raise_if (bool_decide (es_status child = StepStatus.UNKNOWN_OUTCOME))
             (conflict "Durable UNKNOWN_OUTCOME under LOOP {parent.step_key!r} iteration {iteration_no} blocks clean recovery resume."))
           children
       else Ok tt);
  Ok children.

(** The iterations are [1..max_n], all but the last terminal; [max_n]. *)
Definition assert_iteration_topology (parent : execution_step) (steps : list execution_step) (cfg : loop_config) (p : plan)
    (max_bound : Z) : res Z :=
  let children := children_of (es_id parent) steps in
  let max_n := max_materialized_iteration children (es_id parent) in
  if (max_n <? 1)%Z then
    _ ← raise_if (negb (is_nil children)) (conflict "LOOP {parent.step_key!r} has child rows without a valid iteration_no.");
    Ok 0%Z
  else
    _ ← raise_if (max_bound <? max_n)%Z
          (conflict "LOOP {parent.step_key!r} materialized iteration count {max_n} exceeds bound {max_bound}.");
    _ ← raise_if (negb (same_set (omap es_iteration_no children) (range1 max_n)))
          (conflict "LOOP {parent.step_key!r} materialized iterations {sorted(present)} are not contiguous 1..{max_n}.");
    active ← res_map (λ n,
               iter_children ← assert_iteration_child_set parent steps cfg p (n <? max_n)%Z n;
               Ok (n, existsb loop_step_active iter_children)) (range1 max_n);
    let active_iters := (filter (λ x, x.2 = true) active).*1 in
    _ ← raise_if (1 <? length active_iters)%nat
          (conflict "LOOP {parent.step_key!r} has multiple active iterations {active_iters}.");
    _ ← raise_if (match active_iters with n :: _ => negb (n =? max_n)%Z | [] => false end)
          (conflict "LOOP {parent.step_key!r} active iteration {active_iters[0]} is not the highest materialized iteration {max_n}.");
    _ ← raise_if (loop_step_terminal parent && negb (is_nil active_iters))
          (conflict "Terminal LOOP {parent.step_key!r} still has active child evidence.");
    Ok max_n.

Definition assert_parent_plan_projection (parent : execution_step) (ps : plan_step) : res unit :=
  _ ← raise_if (negb (String.eqb (es_step_key parent) (ps_id ps)))
        (conflict "LOOP parent step_key does not match Plan LOOP id.");
  raise_if (negb (py_eq (dump_step ps) (es_step_snapshot parent)))
    (conflict "LOOP {parent.step_key!r} parent snapshot is not an exact Plan Step projection.").

(** ** FOR_EACH *)
(** The pin, as it re-resolves today and within the bound *)
Definition revalidated_pin (e : execution) (p : plan) (steps : list execution_step) (parent : execution_step)
    (cfg : loop_config) (missing drifted exceeded : string) : res foreach_pin :=
  _ ← raise_if (is_none (es_resolved_input parent)) (conflict missing);
  pin ← parse_foreach_collection_pin (es_resolved_input parent);
  collection ← revalidate_foreach_collection_pin e parent p steps None;
  _ ← raise_if (negb (collection_size pin =? Z.of_nat (length collection))%Z) (conflict drifted);
  _ ← raise_if (lc_max_iterations cfg <? collection_size pin)%Z (conflict exceeded);
  Ok pin.

Definition assert_succeeded_foreach_completion (e : execution) (p : plan) (steps : list execution_step)
    (parent : execution_step) (cfg : loop_config) : res unit :=
  pin ← revalidated_pin e p steps parent cfg
          "SUCCEEDED FOR_EACH {parent.step_key!r} missing collection pin."
          "SUCCEEDED FOR_EACH {parent.step_key!r} collection_size drifted from re-resolved collection."
          "SUCCEEDED FOR_EACH {parent.step_key!r} pinned collection_size={size} exceeds max_iterations={cfg.max_iterations}.";
  let size := collection_size pin in
  _ ← raise_if (is_some (es_error_code parent)) (conflict "SUCCEEDED FOR_EACH {parent.step_key!r} must have error_code null.");
  let expected_result := JObj [("mode", JStr "FOR_EACH"); ("iterations_completed", JInt size); ("collection_size", JInt size)] in
  _ ← raise_if (negb (py_eq (es_result_inline parent) expected_result))
        (conflict "SUCCEEDED FOR_EACH {parent.step_key!r} result_inline must be exactly {expected_result!r}.");
  if (size =? 0)%Z then
    raise_if (negb (is_nil (children_of (es_id parent) steps)))
      (conflict "SUCCEEDED FOR_EACH {parent.step_key!r} zero-iteration completion must have no children.")
  else
    max_n ← assert_iteration_topology parent steps cfg p size;
    _ ← raise_if (negb (max_n =? size)%Z)
          (conflict "SUCCEEDED FOR_EACH {parent.step_key!r} requires exactly {size} materialized iterations (got {max_n}).");
    res_iter (λ n, _ ← assert_iteration_child_set parent steps cfg p true n; Ok tt) (range1 size).

Definition assert_foreach_recovery_checkpoint (e : execution) (p : plan) (steps : list execution_step)
    (parent : execution_step) (cfg : loop_config) (ps : plan_step) : res unit :=
  _ ← assert_parent_plan_projection parent ps;
  if bool_decide (es_status parent = StepStatus.RUNNING) then
    pin ← revalidated_pin e p steps parent cfg
            "RUNNING FOR_EACH {parent.step_key!r} missing collection pin."
            "FOR_EACH collection_size drifted from re-resolved collection."
            "FOR_EACH {parent.step_key!r} pinned collection_size {pin['collection_size']} exceeds max_iterations={cfg.max_iterations}.";
    max_n ← assert_iteration_topology parent steps cfg p (collection_size pin);
    raise_if (collection_size pin <? max_n)%Z
      (conflict "FOR_EACH {parent.step_key!r} materialized count exceeds pinned collection_size.")
  else if bool_decide (es_status parent = StepStatus.SUCCEEDED) then
    assert_succeeded_foreach_completion e p steps parent cfg
  else if loop_step_terminal parent && negb (is_nil (children_of (es_id parent) steps)) then
    pin ← parse_foreach_collection_pin (es_resolved_input parent);
    _ ← assert_iteration_topology parent steps cfg p (collection_size pin);
    Ok tt
  else Ok tt.

(** ** WHILE *)
Definition revalidate_while_history_entry_hash (e : execution) (parent : execution_step) (p : plan) (cfg : loop_config)
    (steps : list execution_step) (n : Z) (entry : while_gate) : res unit :=
  evidence ← build_while_evidence_object p e parent cfg steps n;
  rebuilt ← hash_while_predicate_evidence evidence;
  raise_if (negb (String.eqb rebuilt (evidence_hash entry)))
    (conflict "WHILE {parent.step_key!r} evidence_hash drift for candidate {next_iteration_no}.").

(** No iteration yet: the gate of candidate 1 must be there, either way. *)
Definition assert_first_gate_checkpoint (e : execution) (p : plan) (steps : list execution_step) (parent : execution_step)
    (cfg : loop_config) (history : list while_gate) : res unit :=
  _ ← raise_if (is_nil history)
        (conflict "WHILE {parent.step_key!r} RUNNING with no children and empty predicate_history is not a durable recovery checkpoint.");
  _ ← raise_if (negb (length history =? 1)%nat)
        (conflict "WHILE {parent.step_key!r} RUNNING with no children has non-singleton predicate_history.");
  entry ← of_option (conflict "WHILE {parent.step_key!r} RUNNING with no children requires history gate 1=true or 1=false.")
            (history_entry_for history 1);
  revalidate_while_history_entry_hash e parent p cfg steps 1 entry.

(** A materialized iteration had a true gate, on evidence that still holds. *)
Definition assert_true_gate_checkpoint (e : execution) (p : plan) (steps : list execution_step) (parent : execution_step)
    (cfg : loop_config) (history : list while_gate) (n : Z) : res unit :=
  let lacks := conflict "WHILE {parent.step_key!r} materialized iteration {n} lacks a true predicate_history gate." in
  entry ← of_option lacks (history_entry_for history n);
  _ ← raise_if (negb (gate_result entry)) lacks;
  revalidate_while_history_entry_hash e parent p cfg steps n entry.

Definition iteration_at_least (n : Z) (c : execution_step) : bool :=
  match es_iteration_no c with Some k => (n <=? k)%Z | None => false end.
Definition assert_no_false_gate_before (children : list execution_step) (max_n : Z) (entry : while_gate) : res unit :=
  let n := next_iteration_no entry in
  _ ← raise_if ((n <=? max_n)%Z && negb (gate_result entry))
        (conflict "WHILE {parent.step_key!r} has false gate at or before materialized iteration {max_n}.");
  raise_if (negb (gate_result entry) && existsb (iteration_at_least n) children)
    (conflict "WHILE {parent.step_key!r} has child rows after false gate candidate {n}.").

(** The gate of the next candidate, if it is there, was decided on finished
    iterations and has no rows yet. *)
Definition assert_next_gate_checkpoint (e : execution) (p : plan) (steps : list execution_step) (parent : execution_step)
    (cfg : loop_config) (history : list while_gate) (children : list execution_step) (max_n : Z) : res unit :=
  match history_entry_for history (max_n + 1) with
  | None =>
      raise_if (negb (Z.of_nat (length history) =? max_n)%Z)
        (conflict "WHILE {parent.step_key!r} predicate_history length {len(history)} is inconsistent with materialized iterations {max_n}.")
  | Some nxt =>
      _ ← raise_if (negb (Z.of_nat (length history) =? max_n + 1)%Z)
            (conflict "WHILE {parent.step_key!r} predicate_history extends past candidate {max_n + 1}.");
      let active := existsb (λ c, bool_decide (es_iteration_no c = Some max_n) && loop_step_active c) children in
      _ ← raise_if (active && gate_result nxt)
            (conflict "WHILE {parent.step_key!r} has active iteration {max_n} and also a persisted gate for candidate {max_n + 1}.");
      _ ← raise_if (active && negb (gate_result nxt))
            (conflict "WHILE {parent.step_key!r} has active iteration {max_n} and a false gate for candidate {max_n + 1}.");
      _ ← raise_if (existsb (λ c, bool_decide (es_iteration_no c = Some (max_n + 1)%Z)) children)
            (conflict "WHILE {parent.step_key!r} has unexpected rows for iteration {max_n + 1}.");
      revalidate_while_history_entry_hash e parent p cfg steps (max_n + 1) nxt
  end.

Definition assert_while_recovery_checkpoint (e : execution) (p : plan) (steps : list execution_step)
    (parent : execution_step) (cfg : loop_config) (ps : plan_step) : res unit :=
  _ ← assert_parent_plan_projection parent ps;
  if negb (bool_decide (es_status parent = StepStatus.RUNNING)) then
    if loop_step_terminal parent then assert_while_parent_control_state parent p steps (Some cfg) else Ok tt
  else
    _ ← raise_if (is_none (es_resolved_input parent))
          (conflict "RUNNING WHILE {parent.step_key!r} missing predicate_history control evidence.");
    history ← parse_while_predicate_history (es_resolved_input parent);
    let children := children_of (es_id parent) steps in
    if (max_materialized_iteration children (es_id parent) <? 1)%Z then
      assert_first_gate_checkpoint e p steps parent cfg history
    else
      max_n ← assert_iteration_topology parent steps cfg p (lc_max_iterations cfg);
      _ ← res_iter (assert_true_gate_checkpoint e p steps parent cfg history) (range1 max_n);
      _ ← res_iter (assert_no_false_gate_before children max_n) history;
      assert_next_gate_checkpoint e p steps parent cfg history children max_n.

(** ** All LOOPs of an execution *)
Definition assert_loop_checkpoint (e : execution) (p : plan) (steps : list execution_step) (top : execution_step) : res unit :=
  if negb (bool_decide (es_step_type top = StepType.LOOP)) then Ok tt
  else
    ps ← dict_item (es_step_key top) (plan_steps_by_id p);
    cfg ← of_option (conflict "LOOP {top.step_key!r} config is invalid.") (validate_loop_config (ps_config ps));
    match lc_mode cfg with
    | LoopMode.FOR_EACH => assert_foreach_recovery_checkpoint e p steps top cfg ps
    | LoopMode.WHILE => assert_while_recovery_checkpoint e p steps top cfg ps
    end.

Definition assert_execution_loop_recovery_checkpoints (e : execution) (p : plan) (steps : list execution_step)
    (ownership : loop_body_ownership) : res unit :=
  top_level ← top_level_plan_steps p;
  let top_expected := ps_id <$> top_level in
  let top_rows := filter (λ s, es_parent_step_id s = None) steps in
  let child_rows := filter (λ s, is_some (es_parent_step_id s) = true) steps in
  _ ← res_iter (λ row,
        _ ← raise_if (dict_has (es_step_key row) (body_to_loop ownership))
              (conflict "Body template {row.step_key!r} must not exist as a top-level ExecutionStep.");
        raise_if (negb (bool_decide (es_step_key row ∈ top_expected)))
          (conflict "Unexpected top-level Step {row.step_key!r} for LOOP recovery.")) top_rows;
  _ ← raise_if (negb (forallb (λ k, bool_decide (k ∈ es_step_key <$> top_rows)) top_expected))
        (conflict "Missing top-level Steps for LOOP recovery: {sorted(missing)}.");
  _ ← res_iter (λ child,
        parent ← of_option (conflict "LOOP child references missing parent LOOP Step.")
                   (id ← es_parent_step_id child; row_by es_id id top_rows);
        raise_if (negb (bool_decide (es_step_type parent = StepType.LOOP))) (conflict "LOOP child parent must be a LOOP Step."))
        child_rows;
  res_iter (assert_loop_checkpoint e p steps) top_rows.
End loop_recovery.

(** * Recovery of an expired workflow execution ([execution/workflow_dag_recovery.py])

    What a recovery worker does with an expired execution of a workflow: it
    classifies every step on the durable evidence, and only if no step is
    ambiguous or inconsistent does it touch a row.  The argument
    [recover_workflow_dag] of Recovery.v is the last definition but one here,
    and [recover_expired] is the recovery with every argument given. *)

Definition NON_LOOP_STEP_TYPES : list step_type := [StepType.TOOL; StepType.CONDITION; StepType.JOIN; StepType.APPROVAL].
Definition SUPPORTED_STEP_TYPES : list step_type :=
  [StepType.TOOL; StepType.CONDITION; StepType.JOIN; StepType.APPROVAL; StepType.LOOP].
Definition ATTEMPT_TERMINAL : list attempt_status :=
  [AttemptStatus.SUCCEEDED; AttemptStatus.FAILED; AttemptStatus.TIMED_OUT; AttemptStatus.CANCELLED;
   AttemptStatus.UNKNOWN_OUTCOME].
Definition LEASE_FREE_STEP : list step_status := [StepStatus.WAITING_APPROVAL; StepStatus.WAITING_INPUT].

Inductive recovery_kind :=
| KIND_READY | KIND_RESUME | KIND_SAFE_RETRY | KIND_FAIL_EXHAUSTED | KIND_FATAL_UNKNOWN | KIND_TERMINAL_OK | KIND_LOCAL.
#[export] Instance recovery_kind_eq_dec : EqDecision recovery_kind.
Proof. solve_decision. Defined.

Record step_classification := ToolStepClassification {
  tc_step_id : uuid;
  tc_kind : recovery_kind;
  tc_on_error : option plan_on_error;
  tc_attempt_id : option uuid;
  tc_tool_call_id : option uuid;
  tc_message : option string }.
Definition classified (s : execution_step) (k : recovery_kind) : step_classification :=
  ToolStepClassification (es_id s) k None None None None.
Definition fatal_unknown (s : execution_step) (message : string) : step_classification :=
  ToolStepClassification (es_id s) KIND_FATAL_UNKNOWN None None None (Some message).

Definition call_unknown (c : tool_call) : bool := bool_decide (cl_normalized_status c = AttemptStatus.UNKNOWN_OUTCOME).
(** [_step_has_unknown_child] *)
Definition step_has_unknown_child (st : store) (step_id : uuid) : bool :=
  existsb (λ a, bool_decide (sa_status a = AttemptStatus.UNKNOWN_OUTCOME) || existsb call_unknown (list_tool_calls (sa_id a) st))
    (list_attempts step_id st).

Section workflow_recovery.
Context {schema : PlanSchema} {parser : PlanParser}.

(** [plan_supports_workflow_running_recovery] *)
Definition plan_supports_workflow_running_recovery (plan_snapshot : json) : res bool :=
  match validate_plan plan_snapshot with
  | None => Ok false
  | Some p => if plan_has_loop p then plan_supports_flat_loop_running_recovery p
              else Ok (forallb (λ s, bool_decide (ps_type s ∈ NON_LOOP_STEP_TYPES)) (pl_steps p))
  end.

Definition assert_workflow_schedule_recovery_source_lineage (c : catalog) (e : execution) : res unit :=
  if String.eqb (ex_source_type e) WORKFLOW_VERSION then
    raise_if (negb (is_some (ex_workflow_version_id e)) || is_some (ex_schedule_occurrence_id e)
              || is_some (ex_agent_request_id e) || is_some (ex_agent_version_id e) || is_some (ex_plan_validation_run_id e))
      (conflict "WORKFLOW_VERSION Execution source lineage is inconsistent.")
  else if String.eqb (ex_source_type e) SCHEDULE_OCCURRENCE then
    _ ← raise_if (is_agent_schedule_occurrence e)
          (conflict "AGENT_VERSION SCHEDULE_OCCURRENCE uses AgentRequest RUNNING recovery, not Workflow DAG recovery.");
    match assert_schedule_occurrence_lineage c e with
    | Err (AppError code message status) =>
        if bool_decide (code ∈ ["RESOURCE_CONFLICT"; "EXECUTION_PRECONDITION_FAILED"]) then Err (conflict message)
        else Err (AppError code message status)
    | r => r
    end
  else Err (conflict "Unsupported source_type for Workflow RUNNING recovery: {execution.source_type!r}.").

Definition tool_policy_risk_and_attempts (policy_snapshot : dict json) : res (string * Z) :=
  let block := match get_or_none "tool_policy" policy_snapshot with JObj d => d | _ => policy_snapshot end in
  risk_class ← of_option (conflict "Pinned ToolPolicy risk_class is invalid.") (parse_risk_class (get_or_none "risk_class" block));
  max_attempts ← of_option (conflict "Pinned ToolPolicy max_attempts is invalid.")
    (match get_or_none "max_attempts" block with JInt n => if (n <? 1)%Z then None else Some n | _ => None end);
  Ok (risk_class, max_attempts).

(** ** The classification of a step *)
Definition classify_local (s : execution_step) : step_classification :=
  if bool_decide (es_status s = StepStatus.UNKNOWN_OUTCOME) then
    fatal_unknown s "Durable UNKNOWN_OUTCOME on local Step {step.step_key!r} blocks clean DAG resume."
  else classified s (if is_terminal_step_status (es_status s) then KIND_TERMINAL_OK else KIND_LOCAL).

Definition classify_pending (st : store) (s : execution_step) : res step_classification :=
  if step_has_unknown_child st (es_id s) then
    Ok (fatal_unknown s "UNKNOWN_OUTCOME child evidence under PENDING TOOL Step {step.step_key!r}.")
  else
    let attempts := list_attempts (es_id s) st in
    _ ← raise_if (existsb attempt_started attempts) (conflict "PENDING TOOL Step {step.step_key!r} has STARTED Attempt.");
    _ ← res_iter (λ a, raise_if (existsb call_started (list_tool_calls (sa_id a) st))
                         (conflict "PENDING TOOL Step {step.step_key!r} has STARTED ToolCall evidence.")) attempts;
    Ok (classified s KIND_LOCAL).

Definition classify_ready (st : store) (s : execution_step) (on_error : plan_on_error) : res step_classification :=
  let attempts := list_attempts (es_id s) st in
  _ ← raise_if (existsb attempt_started attempts) (conflict "READY TOOL Step {step.step_key!r} has STARTED Attempt.");
  unknown ← res_any (λ a,
    _ ← raise_if (negb (bool_decide (sa_status a ∈ ATTEMPT_TERMINAL)))
          (conflict "READY TOOL Step {step.step_key!r} has non-terminal Attempt.");
    let calls := list_tool_calls (sa_id a) st in
    _ ← raise_if (existsb call_started calls) (conflict "READY TOOL Step {step.step_key!r} has STARTED ToolCall evidence.");
    Ok (existsb call_unknown calls)) attempts;
  Ok (if (unknown : bool) then fatal_unknown s "UNKNOWN_OUTCOME ToolCall under READY Step {step.step_key!r}."
      else ToolStepClassification (es_id s) KIND_READY (Some on_error) None None None).

(** The single call in flight of the single attempt in flight *)
Definition classify_call (s : execution_step) (on_error : plan_on_error) (rm : string * Z) (attempt : step_attempt)
    (call : tool_call) : res step_classification :=
  let of_kind k message :=
    ToolStepClassification (es_id s) k (Some on_error) (Some (sa_id attempt)) (Some (cl_id call)) message in
  _ ← raise_if (negb (bool_decide (es_mcp_tool_version_id s = Some (cl_mcp_tool_version_id call))))
        (conflict "ToolCall ToolVersion lineage mismatch on Step {step.step_key!r}.");
  if is_unsafe_ambiguous_risk rm.1 then
    Ok (of_kind KIND_FATAL_UNKNOWN (Some "Unsafe STARTED ToolCall on Step {step.step_key!r} (risk_class={risk_class})."))
  else if is_safe_retry_risk rm.1 then
    Ok (of_kind (if can_safe_retry (es_attempt_count s) rm.2 then KIND_SAFE_RETRY else KIND_FAIL_EXHAUSTED) None)
  else Err (conflict "Unsupported risk_class for recovery: {risk_class}.").

Definition classify_running (e : execution) (st : store) (steps : list execution_step) (s : execution_step)
    (on_error : plan_on_error) (rm : string * Z) : res step_classification :=
  attempt ← single (filter (λ a, attempt_started a = true) (list_attempts (es_id s) st))
    (conflict "RUNNING TOOL Step {step.step_key!r} has no STARTED Attempt.")
    (conflict "RUNNING TOOL Step {step.step_key!r} has multiple STARTED Attempts.");
  let calls := list_tool_calls (sa_id attempt) st in
  if existsb call_unknown calls then
    Ok (ToolStepClassification (es_id s) KIND_FATAL_UNKNOWN None (Some (sa_id attempt)) None
          (Some "UNKNOWN_OUTCOME ToolCall under RUNNING Step {step.step_key!r}."))
  else
    match filter (λ c, call_started c = true) calls with
    | [] =>
        _ ← raise_if (negb (is_nil calls)) (conflict "Attempt on Step {step.step_key!r} has non-STARTED ToolCall evidence only.");
        _ ← assert_resume_attempt_lineage e s attempt steps None;
        Ok (ToolStepClassification (es_id s) KIND_RESUME (Some on_error) (Some (sa_id attempt)) None None)
    | [call] => classify_call s on_error rm attempt call
    | _ => Err (conflict "STARTED Attempt on Step {step.step_key!r} has multiple STARTED ToolCalls.")
    end.

(** [_classify_step] *)
Definition classify_step (e : execution) (st : store) (steps : list execution_step) (plan_by_id : dict plan_step)
    (s : execution_step) : res step_classification :=
  if negb (bool_decide (es_step_type s = StepType.TOOL)) then Ok (classify_local s)
  else if bool_decide (es_status s = StepStatus.UNKNOWN_OUTCOME) then
    Ok (fatal_unknown s "Durable UNKNOWN_OUTCOME on TOOL Step {step.step_key!r} is never converted to READY/retry.")
  else if is_terminal_step_status (es_status s) then
    Ok (if step_has_unknown_child st (es_id s)
        then fatal_unknown s "UNKNOWN_OUTCOME child evidence under TOOL Step {step.step_key!r} blocks clean cancellation/resume."
        else classified s KIND_TERMINAL_OK)
  else if bool_decide (es_status s = StepStatus.PENDING) then classify_pending st s
  else
    ps ← runtime_plan_step s plan_by_id;
    lineage ← assert_tool_step_lineage e s (Some steps);
    policy ← get_expected_tool_policy_snapshot e (ps_id (tl_plan_step lineage)) (tl_tool_version_id lineage);
    rm ← tool_policy_risk_and_attempts policy;
    match es_status s with
    | StepStatus.READY => classify_ready st s (ps_on_error ps)
    | StepStatus.RUNNING => classify_running e st steps s (ps_on_error ps) rm
    | _ => Err (conflict "TOOL Step {step.step_key!r} status {step.status!r} is not recoverable.")
    end.

(** The checks of the whole graph, and the classification in the order of the keys *)
Definition assert_recoverable_step (s : execution_step) : res unit :=
  _ ← raise_if (negb (bool_decide (es_step_type s ∈ SUPPORTED_STEP_TYPES)))
        (conflict "Unsupported Step type {step.step_type!r} for Workflow RUNNING recovery.");
  raise_if (bool_decide (es_status s ∈ LEASE_FREE_STEP))
    (conflict "Step {step.step_key!r} is {step.status}; lease-free waits are not RUNNING recovery candidates.").
Definition key_order (a b : execution_step) : bool := str_leb (es_step_key a) (es_step_key b).

Definition classify_dag (c : catalog) (st : store) : res (list step_classification) :=
  let e := st_execution st in
  let steps := list_steps st in
  _ ← assert_workflow_schedule_recovery_source_lineage c e;
  p ← assert_execution_plan_lineage e;
  _ ← (if plan_has_loop p then
         ownership ← assert_loop_recovery_ownership p;
         assert_execution_loop_recovery_checkpoints e p steps ownership
       else res_iter (λ s, raise_if (negb (bool_decide (es_step_type s ∈ NON_LOOP_STEP_TYPES)))
              (conflict "Unsupported Step type {step.step_type!r} for Workflow RUNNING recovery.")) steps);
  _ ← res_iter assert_recoverable_step steps;
  res_map (classify_step e st steps (plan_steps_by_id p)) (sort_by key_order steps).

(** ** Fail closed *)
Definition unknown_attempt (code message : string) (now : Z) (a : step_attempt) : step_attempt :=
  a |> set_sa_status AttemptStatus.UNKNOWN_OUTCOME |> set_sa_error_layer (Some ERROR_LAYER_WORKER)
    |> set_sa_error_code (Some code) |> set_sa_error_message (Some message) |> set_sa_is_retryable (Some false)
    |> set_sa_finished_at (match sa_finished_at a with None => Some now | f => f end)
    |> set_sa_worker_id None |> set_sa_lease_expires_at None.
Definition unknown_pair (code message : string) (now : Z) (st : store) (pair : step_attempt * tool_call) : store :=
  st |> upd_attempt (sa_id pair.1) (unknown_attempt code message now)
     |> upd_call (cl_id pair.2) (orphan_call now AttemptStatus.UNKNOWN_OUTCOME).

(** A terminal row becomes UNKNOWN_OUTCOME over unknown evidence and keeps its end. *)
Definition upgrade_step (code message : string) (now : Z) (s : execution_step) : execution_step :=
  s |> set_es_status StepStatus.UNKNOWN_OUTCOME |> set_es_error_code (Some code) |> set_es_error_message (Some message)
    |> set_es_finished_at (match es_finished_at s with None => Some now | f => f end) |> bump_step.
Definition fail_closed_step (code message : string) (now : Z) (preferred : list uuid) (pairs : list (step_attempt * tool_call))
    (st : store) (step_row : execution_step) : store :=
  let id := es_id step_row in
  match get_step id st with
  | None => st
  | Some locked =>
      let unknown := bool_decide (id ∈ preferred) || step_has_unknown_child st id in
      if is_terminal_step_status (es_status locked) then
        if negb (bool_decide (es_status locked = StepStatus.UNKNOWN_OUTCOME)) && unknown
        then st |> upd_step id (upgrade_step code message now) |> emit_of_step now locked
        else st
      else
        let in_flight := existsb (λ p, bool_decide (sa_step_execution_id p.1 = id)) pairs in
        let status := if unknown || in_flight then StepStatus.UNKNOWN_OUTCOME else StepStatus.FAILED in
        st |> upd_step id (Recovery.end_step status code message now) |> emit_of_step now locked
  end.

Definition fail_expired (code message : string) (now : Z) (st : store) : store :=
  let previous := ex_status (st_execution st) in
  st |> upd_execution (Recovery.fail_execution code message now) |> emit_execution_status_changed previous now.

(** [_fail_closed], always called to upgrade the started calls *)
Definition fail_closed (code message : string) (preferred : list uuid) (now : Z) (st : store) : store :=
  let pairs := started_tool_call_pairs st in
  let steps := list_steps st in
  let st := foldl (unknown_pair code message now) st pairs in
  let st := foldl (fail_closed_step code message now preferred pairs) st steps in
  st |> stop_rows now |> fail_expired code message now.

(** ** Retries and exhausted calls *)
Definition ORPHAN_RETRY_MESSAGE : string :=
  ("Worker lease expired after tools/call evidence was started; " +:+ "safe retry class allows a new Attempt.").
Definition ORPHAN_EXHAUSTED_MESSAGE : string :=
  ("Worker lease expired after tools/call evidence was started; " +:+ "max_attempts exhausted.").
Definition EXHAUSTED_MESSAGE : string :=
  ("Worker lease expired with started ToolCall evidence; " +:+ "max_attempts exhausted so remote call is not retried.").

(** The call of the classification ends FAILED, and the step is set. *)
Definition apply_orphan (tc : step_classification) (retryable : bool) (message : string)
    (f : execution_step → execution_step) (now : Z) (st : store) : res store :=
  let missing := PyException "AssertionError" in
  attempt ← of_option missing (id ← tc_attempt_id tc; get_attempt id st);
  call ← of_option missing (id ← tc_tool_call_id tc; get_tool_call id st);
  s ← of_option (PyException "KeyError") (get_step (tc_step_id tc) st);
  Ok (st |> terminalize_orphan_attempt_tool_call (sa_id attempt) (cl_id call) now AttemptStatus.FAILED retryable message
         |> upd_step (es_id s) f |> emit_of_step now s).
Definition apply_safe_retry (now : Z) (tc : step_classification) : store → res store :=
  apply_orphan tc true ORPHAN_RETRY_MESSAGE Recovery.retry_step now.
Definition apply_fail_exhausted (now : Z) (tc : step_classification) : store → res store :=
  apply_orphan tc false ORPHAN_EXHAUSTED_MESSAGE
    (Recovery.end_step StepStatus.FAILED ERROR_CODE_LEASE_EXPIRED EXHAUSTED_MESSAGE now) now.

Definition of_kind (k : recovery_kind) (tc : step_classification) : bool := bool_decide (tc_kind tc = k).
(** [c.on_error or FAIL_EXECUTION] stops the execution. *)
Definition stops_execution (tc : step_classification) : bool :=
  let on_error := default PlanOnError.FAIL_EXECUTION (tc_on_error tc) in
  of_kind KIND_FAIL_EXHAUSTED tc
  && (bool_decide (on_error = PlanOnError.FAIL_EXECUTION) || negb (is_continuable_known_failure on_error StepStatus.FAILED)).
Definition apply_exhausted (now : Z) (st : store) (tc : step_classification) : res store :=
  if of_kind KIND_FAIL_EXHAUSTED tc then apply_fail_exhausted now tc st else Ok st.
Definition apply_known (now : Z) (st : store) (tc : step_classification) : res store :=
  if of_kind KIND_SAFE_RETRY tc then apply_safe_retry now tc st else apply_exhausted now st tc.

(** The attempts that go on belong to the new lease. *)
Definition transfer_attempt (worker : string) (st : store) (tc : step_classification) : store :=
  match tc_attempt_id tc with
  | Some id =>
      if of_kind KIND_RESUME tc && match get_attempt id st with Some a => attempt_started a | None => false end
      then upd_attempt id (λ a, a |> set_sa_worker_id (Some worker)
                                   |> set_sa_lease_expires_at (ex_lease_expires_at (st_execution st))) st
      else st
  | None => st
  end.

(** ** [WorkflowDagRecovery.recover] *)
Definition take_over (lease_seconds : Z) (worker : string) (token : uuid) (now : Z) (cs : list step_classification)
    (st : store) : res (store * recovery_outcome) :=
  st ← res_fold (apply_known now) cs st;
  let st := upd_execution (assign_lease lease_seconds worker token now) st in
  let st := foldl (transfer_attempt worker) st cs in
  let taken decision reason := RecoveryOutcome decision true true (Some worker) (Some token) reason in
  Ok (st, if existsb (of_kind KIND_SAFE_RETRY) cs then taken RD_SAFE_RETRY "WORKFLOW_DAG_SAFE_RETRY"
          else if existsb (of_kind KIND_RESUME) cs then taken RESUME_ATTEMPT "WORKFLOW_DAG_RESUME"
          else taken TAKEOVER_READY "WORKFLOW_DAG_TAKEOVER").

Definition apply_classification (lease_seconds : Z) (worker : string) (token : uuid) (now : Z)
    (cs : list step_classification) (st : store) : res (store * recovery_outcome) :=
  match filter (λ tc, of_kind KIND_FATAL_UNKNOWN tc = true) cs with
  | first :: _ as fatal =>
      let message := str_or (tc_message first) "Unsafe or UNKNOWN ToolCall evidence blocks DAG recovery." in
      Ok (fail_closed ERROR_CODE_LEASE_EXPIRED message (tc_step_id <$> fatal) now st,
          RecoveryOutcome RD_UNKNOWN_OUTCOME true false None None "WORKFLOW_DAG_FATAL_UNKNOWN")
  | [] =>
      if existsb stops_execution cs then
        st ← res_fold (apply_exhausted now) cs st;
        Ok (st |> stop_rows now |> fail_expired ERROR_CODE_LEASE_EXPIRED EXHAUSTED_MESSAGE now,
            RecoveryOutcome FAIL_EXHAUSTED true false None None "WORKFLOW_DAG_FAIL_EXHAUSTED")
      else take_over lease_seconds worker token now cs st
  end.

Definition recover_dag (c : catalog) (lease_seconds : Z) (worker : string) (token : uuid) (now : Z) (st : store)
    : res (store * recovery_outcome) :=
  match classify_dag c st with
  | Ok cs => apply_classification lease_seconds worker token now cs st
  | Err (AppError code message status) =>
      if bool_decide (code ∈ ["RESOURCE_CONFLICT"; "EXECUTION_PRECONDITION_FAILED"]) then
        Ok (fail_closed ERROR_CODE_INCONSISTENT message [] now st,
            RecoveryOutcome FAIL_INCONSISTENT false false None None message)
      else Err (AppError code message status)
  | Err e => Err e
  end.

(** [_recover_workflow_dag] ([execution/recovery.py]) *)
Definition recover_workflow_dag (c : catalog) (lease_seconds : Z) (token : uuid) (worker : string) (now : Z) (st : store)
    : res (store * recovery_outcome) :=
  supported ← plan_supports_workflow_running_recovery (ex_plan_snapshot (st_execution st));
  if (supported : bool) then recover_dag c lease_seconds worker token now st else Ok (st, no_op "UNSUPPORTED_PLAN").

(** The tool of a tool version, and the recovery of every expired execution *)
Definition tool_of_version (c : catalog) (version : uuid) : option uuid := tv_mcp_tool_id <$> get_tool_version c version.
Definition recover_expired (c : catalog) (lease_seconds : Z) (worker_id : string) (token : uuid) (now : Z) (available : bool)
    : store → res (store * recovery_outcome) :=
  recover (tool_of_version c) (recover_workflow_dag c lease_seconds token) lease_seconds worker_id token now available.
End workflow_recovery.
