(* ===== verification/WorkflowRecoverySound.v ===== *)
(** * What the recovery of a workflow execution guarantees

    Nothing is written before every step is classified.  Then either the
    execution goes on under a fresh lease, with every call in flight ended and
    only safe ones to be repeated, or it is FAILED without a lease. *)
From S2P Require Import Prelude PyStr PyDict Json PyUuid Domain LoopRuntime Completion DagSchedule Rows Cancellation.
From S2P Require Import CancelSound PolicySelection RetryDecision LoopReconcile ToolLineage Claim Preflight Approval.
From S2P Require Import Transaction Recovery RecoverySound WorkflowRecovery.

(** ** Fail closed *)
Definition failed_expired (code message : string) (now : Z) (st st' : store) : Prop :=
  same_keys st st' ∧ st_execution st' = Recovery.fail_execution code message now (st_execution st).

Lemma fail_closed_step_rows code m now preferred pairs st x :
  let st' := fail_closed_step code m now preferred pairs st x in
  same_keys st st' ∧ st_execution st' = st_execution st ∧ st_attempts st' = st_attempts st ∧ st_calls st' = st_calls st ∧
  more_terminal (st_steps st) (st_steps st') ∧ (NoDup (es_id <$> st_steps st) → ended_id (es_id x) (st_steps st')).
Proof.
  unfold fail_closed_step. cbn zeta. destruct (get_step (es_id x) st) as [y|] eqn:Ey.
  2: { split_and!; try done. intros _ s Hs Hid. unfold get_step in Ey. rewrite find_first_None in Ey.
       specialize (Ey s Hs). by rewrite bool_decide_true in Ey. }
  apply find_key_Some in Ey as [Hy Hid].
  assert (∀ f, (∀ s, es_id (f s) = es_id s ∧ es_execution_id (f s) = es_execution_id s) →
    (∀ s, is_terminal_step_status (es_status (f s)) = true) →
    let st1 := emit_of_step now y (upd_step (es_id x) f st) in
    same_keys st st1 ∧ st_execution st1 = st_execution st ∧ st_attempts st1 = st_attempts st ∧ st_calls st1 = st_calls st ∧
    more_terminal (st_steps st) (st_steps st1) ∧ (NoDup (es_id <$> st_steps st) → ended_id (es_id x) (st_steps st1))) as Hupd.
  { intros f Hk Ht. cbn zeta. destruct (emit_of_step_rows now y (upd_step (es_id x) f st)) as (E1 & E2 & E3 & E4 & _).
    assert (same_keys st (upd_step (es_id x) f st)) as (K1 & K2 & K3 & K4) by by apply upd_step_keys.
    split; [|rewrite E1, E3, E4; split_and!; try done; rewrite E2].
    - unfold same_keys. by rewrite E1, E2, E3, E4.
    - apply Forall2_fmap_r, Forall_Forall2_diag, Forall_true. intros s. unfold compose. case_decide; [|done].
      split; [apply Hk|]. intros _. apply Ht.
    - intros _ s (z & Hz & ->)%elem_of_upd_where Hs. case_decide as Hd; [apply Ht|done]. }
  destruct (is_terminal_step_status (es_status y)) eqn:Et.
  - destruct (negb _ && _); [by apply Hupd|]. split_and!; try done.
    intros Hnd s Hs Hs'. by rewrite (key_inj es_id (st_steps st) s y); [|done..|congruence].
  - apply Hupd; [done|]. intros s. cbn. by destruct (_ || _).
Qed.

Lemma fail_closed_steps_rows code m now preferred pairs L st :
  store_wf st →
  let st' := foldl (fail_closed_step code m now preferred pairs) st L in
  same_keys st st' ∧ st_execution st' = st_execution st ∧ st_attempts st' = st_attempts st ∧ st_calls st' = st_calls st ∧
  more_terminal (st_steps st) (st_steps st') ∧ ∀ x, x ∈ L → ended_id (es_id x) (st_steps st').
Proof.
  revert st. induction L as [|x L IH]; intros st Hwf; cbn [foldl].
  { split_and!; try done. by intros x ?%elem_of_nil. }
  destruct (fail_closed_step_rows code m now preferred pairs st x) as (H1 & H2 & H3 & H4 & H5 & H6).
  destruct (IH (fail_closed_step code m now preferred pairs st x)) as (K1 & K2 & K3 & K4 & K5 & K6);
    [by eapply same_keys_wf|].
  split_and!; [by etrans|congruence|congruence|congruence|by etrans|].
  intros y [->|Hy]%elem_of_cons; [|by apply K6]. eapply more_terminal_ended; [exact K5|apply H6, Hwf].
Qed.

Lemma fail_expired_rows code m now st : failed_expired code m now st (fail_expired code m now st) ∧
  st_steps (fail_expired code m now st) = st_steps st ∧ st_attempts (fail_expired code m now st) = st_attempts st ∧
  st_calls (fail_expired code m now st) = st_calls st.
Proof.
  unfold fail_expired, failed_expired, same_keys. cbn zeta. by drop_events.
Qed.

Lemma fail_closed_rows code m preferred now st :
  store_wf st →
  let st' := fail_closed code m preferred now st in
  failed_expired code m now st st' ∧ none_started st' ∧
  (∀ s, s ∈ st_steps st' → is_terminal_step_status (es_status s) = true) ∧ (¬ none_started st → ambiguous st').
Proof.
  intros Hwf. unfold fail_closed. cbn zeta. set (pairs := started_tool_call_pairs st).
  destruct (settle_pairs_rows (unknown_attempt code m now) now pairs st) as (H1 & H2 & H3 & H4); [done|].
  set (st1 := foldl _ st pairs) in *. change (foldl (unknown_pair code m now) st pairs) with st1.
  destruct (settled_pairs_calls now st st1 Hwf H4) as [Hns Hamb].
  assert (store_wf st1) as Hwf1 by by eapply same_keys_wf.
  destruct (fail_closed_steps_rows code m now preferred pairs (list_steps st) st1 Hwf1) as (K1 & K2 & K3 & K4 & K5 & K6).
  set (st2 := foldl (fail_closed_step _ _ _ _ _) st1 _) in *.
  assert (store_wf st2) as Hwf2 by by eapply same_keys_wf.
  destruct (stop_rows_steps now st2 Hwf2) as (L1 & L2 & L3 & L4 & L5). set (st3 := stop_rows now st2) in *.
  destruct (fail_expired_rows code m now st3) as ([F1 F2] & F3 & F4 & F5).
  assert (∀ s, s ∈ st_steps st2 → is_terminal_step_status (es_status s) = true) as Hend2.
  { intros s Hs. assert (same_keys st st2) as (_ & [Hids _]%fmap_fst & _) by by etrans.
    pose proof (list_elem_of_fmap_2 es_id _ _ Hs) as Hid. rewrite Hids in Hid.
    apply list_elem_of_fmap in Hid as (x & Hid & Hx). apply (K6 x); [by apply list_steps_wf|done|done]. }
  split; [split|split; [|split]].
  - etrans; [|exact F1]. etrans; [|exact L1]. by etrans.
  - by rewrite F2, L2, K2, H2.
  - intros c Hc. rewrite F5, L4, K4 in Hc. by apply Hns.
  - intros s Hs. rewrite F3 in Hs. apply list_elem_of_lookup in Hs as [i Hi].
    eapply Forall2_lookup_r in L5 as (x & Hx & Hxs); [|exact Hi]. apply list_elem_of_lookup_2, Hend2 in Hx.
    destruct Hxs as [->| ->]; [done|by apply stop_row_terminal].
  - intros H. left. rewrite F5, L4, K4. by apply Hamb.
Qed.

(** ** What a classification says *)
Section sound.
Context {schema : PlanSchema} {parser : PlanParser}.

(** The risk class and the attempts the execution pins for a step *)
Definition pinned_step_risk (st : store) (s : execution_step) (rm : string * Z) : Prop :=
  ∃ lineage policy, assert_tool_step_lineage (st_execution st) s (Some (list_steps st)) = Ok lineage ∧
    get_expected_tool_policy_snapshot (st_execution st) (ps_id (tl_plan_step lineage)) (tl_tool_version_id lineage) = Ok policy ∧
    tool_policy_risk_and_attempts policy = Ok rm.

(** The step runs one attempt with one call in flight. *)
Definition runs_call (st : store) (s : execution_step) (a : step_attempt) (c : tool_call) : Prop :=
  es_step_type s = StepType.TOOL ∧ es_status s = StepStatus.RUNNING ∧ started_attempts st s = [a] ∧
  filter (λ c, call_started c = true) (list_tool_calls (sa_id a) st) = [c].

(** The error policy of the step in the plan *)
Definition step_policy (p : plan) (s : execution_step) (on_error : plan_on_error) : Prop :=
  ∃ ps, runtime_plan_step s (plan_steps_by_id p) = Ok ps ∧ ps_on_error ps = on_error.

Definition says (p : plan) (st : store) (s : execution_step) (tc : step_classification) : Prop :=
  tc_step_id tc = es_id s ∧
  let repeatable P := ∃ a c rm on_error, runs_call st s a c ∧ tc_attempt_id tc = Some (sa_id a) ∧ tc_tool_call_id tc = Some (cl_id c) ∧
    tc_on_error tc = Some on_error ∧ step_policy p s on_error ∧
    pinned_step_risk st s rm ∧ is_safe_retry_risk rm.1 = true ∧ P (can_safe_retry (es_attempt_count s) rm.2 : bool) in
  match tc_kind tc with
  | KIND_SAFE_RETRY => repeatable (λ left, left = true)
  | KIND_FAIL_EXHAUSTED => repeatable (λ left, left = false)
  | KIND_RESUME => es_step_type s = StepType.TOOL ∧ es_status s = StepStatus.RUNNING ∧
      ∃ a, started_attempts st s = [a] ∧ list_tool_calls (sa_id a) st = [] ∧ tc_attempt_id tc = Some (sa_id a)
  | KIND_READY => es_step_type s = StepType.TOOL ∧ es_status s = StepStatus.READY
  | KIND_TERMINAL_OK => is_terminal_step_status (es_status s) = true ∧ es_status s ≠ StepStatus.UNKNOWN_OUTCOME
  | KIND_LOCAL => is_terminal_step_status (es_status s) = false ∧
      (es_step_type s = StepType.TOOL → es_status s = StepStatus.PENDING)
  | KIND_FATAL_UNKNOWN => True
  end.

Lemma classify_call_says p st s on_error rm a c tc :
  step_policy p s on_error → runs_call st s a c → pinned_step_risk st s rm → classify_call s on_error rm a c = Ok tc → says p st s tc.
Proof.
  intros Hpol Hr Hp H. unfold classify_call in H. apply bind_Ok in H as ([] & _ & H).
  destruct (is_unsafe_ambiguous_risk rm.1); [by injection H as <-|].
  destruct (is_safe_retry_risk rm.1) eqn:Hs; [|done]. injection H as <-. split; [done|]. cbn.
  destruct (can_safe_retry _ _) eqn:Hc; cbn; exists a, c, rm, on_error; by split_and!.
Qed.

Lemma classify_running_says p st s on_error rm tc :
  step_policy p s on_error → es_step_type s = StepType.TOOL → es_status s = StepStatus.RUNNING → pinned_step_risk st s rm →
  classify_running (st_execution st) st (list_steps st) s on_error rm = Ok tc → says p st s tc.
Proof.
  intros Hpol Ht Hs Hp H. unfold classify_running in H. apply bind_Ok in H as (a & Ha%single_Ok & H).
  destruct (existsb call_unknown _); [by injection H as <-|].
  destruct (filter _ (list_tool_calls (sa_id a) st)) as [|c [|]] eqn:Hc; [| |done].
  - apply bind_Ok in H as ([] & Hn%raise_if_Ok & H). apply bind_Ok in H as (l & _ & H). injection H as <-.
    split; [done|]. cbn. split; [done|]. split; [done|]. exists a. split; [done|]. split; [|done].
    destruct (list_tool_calls (sa_id a) st); done.
  - by eapply classify_call_says.
Qed.

Lemma classify_step_says p st s tc :
  classify_step (st_execution st) st (list_steps st) (plan_steps_by_id p) s = Ok tc → says p st s tc.
Proof.
  unfold classify_step. intros H. destruct (bool_decide (es_step_type s = _)) eqn:Ht; cbn [negb] in H.
  2: { injection H as <-. unfold classify_local. destruct (bool_decide (es_status s = _)) eqn:Hu; [done|].
       apply bool_decide_eq_false in Ht, Hu. split; [done|]. by destruct (is_terminal_step_status _) eqn:Hterm. }
  apply bool_decide_eq_true in Ht. destruct (bool_decide (es_status s = StepStatus.UNKNOWN_OUTCOME)) eqn:Hu; [by injection H as <-|].
  apply bool_decide_eq_false in Hu. destruct (is_terminal_step_status (es_status s)) eqn:Hterm.
  { destruct (step_has_unknown_child _ _); by injection H as <-. }
  destruct (bool_decide (es_status s = StepStatus.PENDING)) eqn:Hpend.
  { apply bool_decide_eq_true in Hpend. unfold classify_pending in H.
    destruct (step_has_unknown_child _ _); [by injection H as <-|].
    apply bind_Ok in H as ([] & _ & H). apply bind_Ok in H as ([] & _ & H). by injection H as <-. }
  apply bind_Ok in H as (ps & Hps & H). apply bind_Ok in H as (l & Hl & H). apply bind_Ok in H as (pol & Hpol & H).
  apply bind_Ok in H as (rm & Hrm & H). assert (pinned_step_risk st s rm) as Hrisk by by exists l, pol.
  assert (step_policy p s (ps_on_error ps)) as Hpolicy by by exists ps.
  destruct (es_status s) eqn:Hs; try done; [|by eapply classify_running_says].
  unfold classify_ready in H. apply bind_Ok in H as ([] & _ & H). apply bind_Ok in H as ([] & _ & H); by injection H as <-.
Qed.

Lemma classify_dag_says c st cs :
  classify_dag c st = Ok cs →
  ∃ p, assert_execution_plan_lineage (st_execution st) = Ok p ∧ Forall2 (says p st) (sort_by key_order (list_steps st)) cs ∧
  ∀ s, s ∈ list_steps st → es_status s ∉ LEASE_FREE_STEP.
Proof.
  unfold classify_dag. intros H. apply bind_Ok in H as ([] & _ & H). apply bind_Ok in H as (p & Hp & H).
  apply bind_Ok in H as ([] & _ & H). apply bind_Ok in H as ([] & Hrec & H). rewrite res_iter_Ok in Hrec.
  rewrite res_map_Ok in H. exists p. split; [done|]. split.
  - eapply Forall2_impl; [exact H|]. intros s tc. apply classify_step_says.
  - intros s Hs. specialize (Hrec s Hs). unfold assert_recoverable_step in Hrec.
    apply bind_Ok in Hrec as ([] & _ & Hrec). apply raise_if_Ok in Hrec. by apply bool_decide_eq_false in Hrec.
Qed.

(** ** Applying a classification *)
Lemma find_key_of {A} (key : A → uuid) (l l' : list A) x :
  key <$> l' = key <$> l → x ∈ l → ∃ y, find_first (λ y, bool_decide (key y = key x)) l' = Some y ∧ key y = key x.
Proof.
  intros Hk Hx. destruct (find_first _ l') as [y|] eqn:E.
  - exists y. split; [done|]. by apply (find_key_Some key) in E as [_ ?].
  - exfalso. apply (list_elem_of_fmap_2 key) in Hx. rewrite <- Hk in Hx. apply list_elem_of_fmap in Hx as (y & Hy & Hin).
    rewrite find_first_None in E. specialize (E y Hin). by rewrite bool_decide_true in E.
Qed.

(** What ends a repeated step and its call *)
Definition step_effect (now : Z) (tc : step_classification) : execution_step → execution_step :=
  if of_kind KIND_SAFE_RETRY tc then Recovery.retry_step
  else Recovery.end_step StepStatus.FAILED ERROR_CODE_LEASE_EXPIRED EXHAUSTED_MESSAGE now.
Definition attempt_effect (now : Z) (tc : step_classification) : step_attempt → step_attempt :=
  orphan_attempt now AttemptStatus.FAILED (of_kind KIND_SAFE_RETRY tc) ERROR_CODE_LEASE_EXPIRED
    (if of_kind KIND_SAFE_RETRY tc then ORPHAN_RETRY_MESSAGE else ORPHAN_EXHAUSTED_MESSAGE).
Definition repeated (tc : step_classification) : bool := of_kind KIND_SAFE_RETRY tc || of_kind KIND_FAIL_EXHAUSTED tc.

Definition orphaned (now : Z) (st : store) (tc : step_classification) (aid cid : uuid) (st' : store) : Prop :=
  st_execution st' = st_execution st ∧
  st_steps st' = upd_where (λ s, es_id s = tc_step_id tc) (step_effect now tc) (st_steps st) ∧
  st_attempts st' = upd_where (λ a, sa_id a = aid) (attempt_effect now tc) (st_attempts st) ∧
  st_calls st' = upd_where (λ c, cl_id c = cid) (orphan_call now AttemptStatus.FAILED) (st_calls st).

Lemma step_effect_keys now tc s :
  es_id (step_effect now tc s) = es_id s ∧ es_execution_id (step_effect now tc s) = es_execution_id s.
Proof. unfold step_effect. by destruct (of_kind _ tc). Qed.

Lemma orphaned_keys now st tc aid cid st' : orphaned now st tc aid cid st' → same_keys st st'.
Proof.
  intros (H1 & H2 & H3 & H4). unfold same_keys. rewrite H1, H2, H3, H4. split; [done|]. split; [|split].
  - apply upd_where_proj. intros s. by destruct (step_effect_keys now tc s) as [-> ->].
  - by apply upd_where_proj.
  - by apply upd_where_proj.
Qed.

(** The rows a repeated classification names *)
Definition names (st : store) (tc : step_classification) (s : execution_step) (a : step_attempt) (c : tool_call) : Prop :=
  s ∈ st_steps st ∧ tc_step_id tc = es_id s ∧ a ∈ st_attempts st ∧ sa_step_execution_id a = es_id s ∧
  tc_attempt_id tc = Some (sa_id a) ∧ c ∈ st_calls st ∧ cl_step_attempt_id c = sa_id a ∧ tc_tool_call_id tc = Some (cl_id c).

Lemma runs_call_rows st s a c :
  runs_call st s a c →
  a ∈ st_attempts st ∧ sa_step_execution_id a = es_id s ∧ sa_status a = AttemptStatus.STARTED ∧
  c ∈ st_calls st ∧ cl_step_attempt_id c = sa_id a ∧ cl_normalized_status c = AttemptStatus.STARTED.
Proof.
  intros (_ & _ & Ha & Hc).
  assert (a ∈ started_attempts st s) as Hain by (rewrite Ha; left).
  assert (c ∈ filter (λ c, call_started c = true) (list_tool_calls (sa_id a) st)) as Hcin by (rewrite Hc; left).
  apply list_elem_of_filter in Hain as [Hs%bool_decide_eq_true Hain]. apply elem_of_list_attempts in Hain as [Hain Hsid].
  apply list_elem_of_filter in Hcin as [Hcs%bool_decide_eq_true Hcin]. by apply elem_of_list_tool_calls in Hcin as [Hcin Hcid].
Qed.

Lemma says_names p st s tc :
  says p st s tc → s ∈ st_steps st → repeated tc = true → ∃ a c, names st tc s a c ∧ runs_call st s a c.
Proof.
  intros [Hid H] Hs Hr. unfold repeated, of_kind in Hr. destruct (tc_kind tc); try done;
    destruct H as (a & c & rm & o & Hrun & Ha & Hc & _); exists a, c;
    (destruct (runs_call_rows _ _ _ _ Hrun) as (? & ? & _ & ? & ? & _)); (split; [unfold names; by split_and!|done]).
Qed.

Lemma apply_repeated now st0 st tc s a c :
  same_keys st0 st → names st0 tc s a c → repeated tc = true →
  ∃ st', apply_known now st tc = Ok st' ∧ orphaned now st tc (sa_id a) (cl_id c) st'.
Proof.
  intros (_ & [Hks _]%fmap_fst & [Hka _]%fmap_fst & [Hkc _]%fmap_fst) (Hs & Hid & Ha & _ & Haid & Hc & _ & Hcid) Hr.
  destruct (find_key_of sa_id _ _ a Hka Ha) as (a' & Ea & Ha').
  destruct (find_key_of cl_id _ _ c Hkc Hc) as (c' & Ec & Hc').
  destruct (find_key_of es_id _ _ s Hks Hs) as (s' & Es & Hs').
  assert (∀ b m f, apply_orphan tc b m f now st =
    Ok (emit_of_step now s' (upd_step (es_id s') f
          (terminalize_orphan_attempt_tool_call (sa_id a') (cl_id c') now AttemptStatus.FAILED b m st)))) as Happ.
  { intros b m f. unfold apply_orphan. rewrite Haid, Hcid, Hid. cbn [mbind option_bind].
    unfold get_attempt, get_tool_call, get_step. rewrite Ea, Ec, Es. done. }
  assert (∀ b m f st', st' = emit_of_step now s' (upd_step (es_id s') f
          (terminalize_orphan_attempt_tool_call (sa_id a') (cl_id c') now AttemptStatus.FAILED b m st)) →
    f = step_effect now tc → b = of_kind KIND_SAFE_RETRY tc →
    m = (if of_kind KIND_SAFE_RETRY tc then ORPHAN_RETRY_MESSAGE else ORPHAN_EXHAUSTED_MESSAGE) →
    orphaned now st tc (sa_id a) (cl_id c) st') as Horph.
  { intros b m f st' -> -> -> ->. unfold orphaned. drop_events. rewrite Hid, <- Hs', <- Ha', <- Hc'. done. }
  unfold apply_known, apply_safe_retry, apply_exhausted, apply_fail_exhausted.
  unfold repeated in Hr. destruct (of_kind KIND_SAFE_RETRY tc) eqn:Hk; [|cbn [orb] in Hr; rewrite Hr];
    rewrite Happ; eexists; (split; [done|]); eapply Horph; try done; unfold step_effect; by rewrite Hk.
Qed.

(** The rows after the repeated classifications of a list were applied *)
Definition outcome_step (now : Z) (cs : list step_classification) (s : execution_step) : execution_step :=
  match find_first (λ tc, repeated tc && bool_decide (tc_step_id tc = es_id s)) cs with
  | Some tc => step_effect now tc s
  | None => s
  end.
Definition repeated_ids (id : step_classification → option uuid) (cs : list step_classification) : list uuid :=
  omap id (filter (λ tc, repeated tc = true) cs).
Record applied (now : Z) (cs : list step_classification) (st st' : store) : Prop := {
  ap_keys : same_keys st st';
  ap_execution : st_execution st' = st_execution st;
  ap_steps : st_steps st' = outcome_step now cs <$> st_steps st;
  ap_calls : st_calls st' = upd_where (λ c, cl_id c ∈ repeated_ids tc_tool_call_id cs) (orphan_call now AttemptStatus.FAILED)
                              (st_calls st);
  ap_attempts : Forall2 (λ a a', sa_id a' = sa_id a ∧
    if decide (sa_id a ∈ repeated_ids tc_attempt_id cs) then sa_status a' = AttemptStatus.FAILED else a' = a)
    (st_attempts st) (st_attempts st') }.

Lemma applied_nil now st : applied now [] st st.
Proof.
  split; [done|done| | |].
  - unfold outcome_step. cbn. by rewrite list_fmap_id.
  - symmetry. apply upd_where_none. intros c _ []%elem_of_nil.
  - apply Forall_Forall2_diag, Forall_true. intros a. split; [done|]. rewrite decide_False; [done|]. by intros ?%elem_of_nil.
Qed.

Lemma applied_skip now tc cs st st' : repeated tc = false → applied now cs st st' → applied now (tc :: cs) st st'.
Proof.
  intros Hr [H1 H2 H3 H4 H5]. assert (∀ id, repeated_ids id (tc :: cs) = repeated_ids id cs) as Hids.
  { intros id. unfold repeated_ids. by rewrite filter_cons_False by congruence. }
  split; [done|done| | |].
  - rewrite H3. apply list_fmap_ext. intros _ s _. unfold outcome_step. cbn [find_first]. by rewrite Hr.
  - by rewrite Hids.
  - by rewrite Hids.
Qed.

Lemma applied_cons now tc cs st st1 st' aid cid :
  repeated tc = true → tc_attempt_id tc = Some aid → tc_tool_call_id tc = Some cid → tc_step_id tc ∉ tc_step_id <$> cs →
  orphaned now st tc aid cid st1 → applied now cs st1 st' → applied now (tc :: cs) st st'.
Proof.
  intros Hr Ha Hc Hnin Ho [H1 H2 H3 H4 H5]. pose proof (orphaned_keys _ _ _ _ _ _ Ho) as Hk. destruct Ho as (O1 & O2 & O3 & O4).
  assert (repeated_ids tc_tool_call_id (tc :: cs) = cid :: repeated_ids tc_tool_call_id cs) as Hcs.
  { unfold repeated_ids. rewrite filter_cons_True by done. cbn. by rewrite Hc. }
  assert (repeated_ids tc_attempt_id (tc :: cs) = aid :: repeated_ids tc_attempt_id cs) as Has.
  { unfold repeated_ids. rewrite filter_cons_True by done. cbn. by rewrite Ha. }
  split; [by etrans|congruence| | |].
  - rewrite H3, O2. unfold upd_where. rewrite <- list_fmap_compose. apply list_fmap_ext. intros _ s _. unfold compose.
    unfold outcome_step at 2. cbn [find_first]. rewrite Hr. cbn [andb].
    destruct (decide (es_id s = tc_step_id tc)) as [Hid|Hid].
    + rewrite bool_decide_true by done. unfold outcome_step. destruct (find_first _ cs) as [tc'|] eqn:E; [|done].
      exfalso. apply Hnin. apply find_first_Some in E as [Hin Hp]. apply andb_true_iff in Hp as [_ Hp%bool_decide_eq_true].
      rewrite (proj1 (step_effect_keys now tc s)), Hid in Hp. rewrite <- Hp. by apply list_elem_of_fmap_2.
    + by rewrite bool_decide_false by congruence.
  - rewrite H4, O4, Hcs. apply upd_where_upd_where; [done|]. by left.
  - rewrite Has. rewrite O3 in H5. unfold upd_where in H5. rewrite Forall2_fmap_l in H5.
    eapply Forall2_impl; [exact H5|]. intros a a' [Hid H]. unfold compose in *.
    destruct (decide (sa_id a = aid)) as [Heq|Hne].
    + rewrite decide_True by (rewrite Heq; left). cbn in Hid. split; [done|].
      case_decide; [done|by subst].
    + split; [done|]. destruct (decide (sa_id a ∈ repeated_ids tc_attempt_id cs)) as [Hin|Hin].
      * rewrite decide_True by (by right). done.
      * rewrite decide_False; [done|]. by intros [?|?]%elem_of_cons.
Qed.

Lemma apply_fold now st0 cs : ∀ st,
  (∀ tc, tc ∈ cs → repeated tc = true → ∃ s a c, names st0 tc s a c) → NoDup (tc_step_id <$> cs) → same_keys st0 st →
  ∃ st', res_fold (apply_known now) cs st = Ok st' ∧ applied now cs st st'.
Proof.
  induction cs as [|tc cs IH]; intros st Hn Hnd Hk; cbn [res_fold]; [by eexists; split; [|apply applied_nil]|].
  apply NoDup_cons in Hnd as [Hnin Hnd].
  assert (∀ tc', tc' ∈ cs → repeated tc' = true → ∃ s a c, names st0 tc' s a c) as Hn' by (intros; apply Hn; [by right|done]).
  destruct (repeated tc) eqn:Hr.
  - destruct (Hn tc) as (s & a & c & Hnames); [left|done|].
    destruct (apply_repeated now st0 st tc s a c Hk Hnames Hr) as (st1 & -> & Ho). cbn [mbind res_bind].
    destruct (IH st1 Hn' Hnd) as (st' & -> & Hap); [etrans; [exact Hk|by eapply orphaned_keys]|].
    exists st'. split; [done|]. destruct Hnames as (_ & _ & _ & _ & Ha & _ & _ & Hc). by eapply applied_cons.
  - assert (apply_known now st tc = Ok st) as ->.
    { unfold repeated in Hr. apply orb_false_iff in Hr as [H1 H2]. unfold apply_known, apply_exhausted. by rewrite H1, H2. }
    cbn [mbind res_bind]. destruct (IH st Hn' Hnd Hk) as (st' & -> & Hap). exists st'. split; [done|]. by apply applied_skip.
Qed.

(** ** The new lease *)
Definition owned (worker : string) (lease : option Z) (a : step_attempt) : Prop :=
  sa_worker_id a = Some worker ∧ sa_lease_expires_at a = lease.
Definition resumed_ids (cs : list step_classification) : list uuid :=
  omap tc_attempt_id (filter (λ tc, of_kind KIND_RESUME tc = true) cs).

Lemma transfer_rows worker cs : ∀ st,
  NoDup (sa_id <$> st_attempts st) →
  let st' := foldl (transfer_attempt worker) st cs in
  let lease := ex_lease_expires_at (st_execution st) in
  st_execution st' = st_execution st ∧ st_steps st' = st_steps st ∧ st_calls st' = st_calls st ∧
  Forall2 (λ a a', sa_id a' = sa_id a ∧ sa_step_execution_id a' = sa_step_execution_id a ∧ sa_status a' = sa_status a ∧
    (owned worker lease a → owned worker lease a') ∧
    (sa_id a ∈ resumed_ids cs → sa_status a = AttemptStatus.STARTED → owned worker lease a')) (st_attempts st) (st_attempts st').
Proof.
  induction cs as [|tc cs IH]; intros st Hnd; cbn zeta.
  { split_and!; try done. apply Forall_Forall2_diag, Forall_true. intros a. split_and!; try done. by intros ?%elem_of_nil. }
  cbn [foldl]. set (st1 := transfer_attempt worker st tc). set (lease := ex_lease_expires_at (st_execution st)).
  assert (st_execution st1 = st_execution st ∧ st_steps st1 = st_steps st ∧ st_calls st1 = st_calls st ∧
    Forall2 (λ a a', sa_id a' = sa_id a ∧ sa_step_execution_id a' = sa_step_execution_id a ∧ sa_status a' = sa_status a ∧
      (owned worker lease a → owned worker lease a') ∧
      (of_kind KIND_RESUME tc = true → tc_attempt_id tc = Some (sa_id a) → sa_status a = AttemptStatus.STARTED →
         owned worker lease a')) (st_attempts st) (st_attempts st1)) as (H1 & H2 & H3 & H4).
  { assert ((∀ a, a ∈ st_attempts st → of_kind KIND_RESUME tc = true → tc_attempt_id tc = Some (sa_id a) →
      sa_status a ≠ AttemptStatus.STARTED) → Forall2 (λ a a', sa_id a' = sa_id a ∧
        sa_step_execution_id a' = sa_step_execution_id a ∧ sa_status a' = sa_status a ∧
      (owned worker lease a → owned worker lease a') ∧
      (of_kind KIND_RESUME tc = true → tc_attempt_id tc = Some (sa_id a) → sa_status a = AttemptStatus.STARTED →
         owned worker lease a')) (st_attempts st) (st_attempts st)) as Hsame.
    { intros Hn. apply Forall_Forall2_diag, Forall_forall. intros a Ha. split_and!; try done. intros Hk Hid Hst.
      by destruct (Hn a Ha Hk Hid). }
    unfold st1, transfer_attempt. destruct (tc_attempt_id tc) as [id|] eqn:Hid.
    2: { split_and!; try done. by apply Hsame. }
    destruct (of_kind KIND_RESUME tc) eqn:Hk; cbn [andb].
    2: { split_and!; try done. by apply Hsame. }
    destruct (get_attempt id st) as [a0|] eqn:Hg.
    2: { split_and!; try done. apply Hsame. intros a Ha _ [= ->]. exfalso.
         unfold get_attempt in Hg. by rewrite (find_key sa_id) in Hg. }
    destruct (attempt_started a0) eqn:Hst.
    - split_and!; try done. apply Forall2_fmap_r, Forall_Forall2_diag, Forall_true. intros a. unfold compose.
      case_decide as Hd; [split_and!; done|]. split_and!; try done. intros _ [= ->]. done.
    - split_and!; try done. apply Hsame. intros a Ha _ [= ->] Hs. unfold get_attempt in Hg.
      rewrite (find_key sa_id) in Hg by done. injection Hg as <-. apply bool_decide_eq_false in Hst. done. }
  assert (sa_id <$> st_attempts st1 = sa_id <$> st_attempts st) as Hids.
  { apply list_eq_Forall2, Forall2_fmap, Forall2_flip. eapply Forall2_impl; [exact H4|]. by intros a a' (?&_). }
  destruct (IH st1) as (K1 & K2 & K3 & K4); [by rewrite Hids|]. rewrite H1 in K4. fold lease in K4.
  split_and!; [congruence..|]. eapply Forall2_trans; [|exact H4|exact K4].
  intros a a1 a2 (A1 & A2 & A3 & A4 & A5) (B1 & B2 & B3 & B4 & B5). split_and!; [congruence..|auto|].
  intros Hin Hst. unfold resumed_ids in Hin. destruct (of_kind KIND_RESUME tc) eqn:Hk.
  - rewrite filter_cons_True in Hin by done. cbn in Hin. destruct (tc_attempt_id tc) as [id|] eqn:Hid.
    + apply elem_of_cons in Hin as [Heq|Hin]; [apply B4, A5; congruence|apply B5; [by rewrite A1|congruence]].
    + apply B5; [by rewrite A1|congruence].
  - rewrite filter_cons_False in Hin by congruence. apply B5; [by rewrite A1|congruence].
Qed.

(** ** Taken over *)
(** The step a call in flight is left with: READY for another attempt, or FAILED
    when the attempts are used up and its error policy lets the others go on *)
Definition after_call (now : Z) (rm : string * Z) (s : execution_step) : execution_step :=
  if can_safe_retry (es_attempt_count s) rm.2 then Recovery.retry_step s
  else Recovery.end_step StepStatus.FAILED ERROR_CODE_LEASE_EXPIRED EXHAUSTED_MESSAGE now s.
Definition goes_on (p : plan) (rm : string * Z) (s : execution_step) : Prop :=
  can_safe_retry (es_attempt_count s) rm.2 = true ∨
  ∃ on_error, step_policy p s on_error ∧ is_continuable_known_failure on_error StepStatus.FAILED = true.

Record dag_taken_over (p : plan) (lease_seconds : Z) (worker : string) (token : uuid) (now : Z) (st st' : store) : Prop := {
  dt_lease : st_execution st' = assign_lease lease_seconds worker token now (st_execution st);
  dt_settled : none_started st';
  dt_known : ∀ s, s ∈ st_steps st → es_status s ≠ StepStatus.UNKNOWN_OUTCOME;
  dt_safe : ∀ c, c ∈ st_calls st → cl_normalized_status c = AttemptStatus.STARTED →
    ∃ s a rm, s ∈ st_steps st ∧ runs_call st s a c ∧ pinned_step_risk st s rm ∧ is_safe_retry_risk rm.1 = true ∧
      goes_on p rm s ∧ after_call now rm s ∈ st_steps st';
  dt_rest : ∀ s, s ∈ st_steps st → (¬ ∃ a c, runs_call st s a c) → s ∈ st_steps st';
  dt_owned : ∀ a s, a ∈ st_attempts st' → sa_status a = AttemptStatus.STARTED → s ∈ st_steps st' →
    es_id s = sa_step_execution_id a → es_step_type s = StepType.TOOL → es_status s = StepStatus.RUNNING →
    owned worker (ex_lease_expires_at (st_execution st')) a }.

(** A call in flight belongs to an attempt in flight of a TOOL step that runs. *)
Definition calls_in_flight_run (st : store) : Prop :=
  ∀ c, c ∈ st_calls st → cl_normalized_status c = AttemptStatus.STARTED →
  ∃ a s, a ∈ st_attempts st ∧ sa_id a = cl_step_attempt_id c ∧ sa_status a = AttemptStatus.STARTED ∧
    s ∈ st_steps st ∧ es_id s = sa_step_execution_id a ∧ es_step_type s = StepType.TOOL ∧ es_status s = StepStatus.RUNNING.

Lemma started_attempts_elem st s a :
  a ∈ started_attempts st s ↔ a ∈ st_attempts st ∧ sa_step_execution_id a = es_id s ∧ sa_status a = AttemptStatus.STARTED.
Proof.
  unfold started_attempts. rewrite list_elem_of_filter, elem_of_list_attempts. unfold attempt_started.
  rewrite bool_decide_eq_true. naive_solver.
Qed.

Lemma says_repeated p st s tc : says p st s tc → repeated tc = true →
  ∃ a c, runs_call st s a c ∧ tc_attempt_id tc = Some (sa_id a) ∧ tc_tool_call_id tc = Some (cl_id c).
Proof.
  intros [_ H] Hr. unfold repeated, of_kind in Hr.
  destruct (tc_kind tc); try done; destruct H as (a & c & rm & o & Hrun & Ha & Hc & _); by exists a, c.
Qed.
Lemma says_goes_on p st s tc : says p st s tc → repeated tc = true →
  ∃ rm, pinned_step_risk st s rm ∧ is_safe_retry_risk rm.1 = true ∧ (∀ now, step_effect now tc s = after_call now rm s) ∧
    (stops_execution tc = false → goes_on p rm s).
Proof.
  intros [_ H] Hr. unfold repeated in Hr. unfold stops_execution, step_effect, after_call, goes_on. unfold of_kind in *.
  destruct (tc_kind tc); try done;
    destruct H as (a & c & rm & o & Hrun & Ha & Hc & Ho & Hpol & Hrm & Hsafe & Hcan); exists rm; rewrite Hcan;
    (split; [done|]); (split; [done|]); (split; [done|]); [by left|].
  intros Hstop. right. exists o. split; [done|]. rewrite Ho in Hstop. cbn in Hstop. apply orb_false_iff in Hstop as [_ Hstop].
  by apply negb_false_iff in Hstop.
Qed.

Lemma says_known p st s tc : says p st s tc → of_kind KIND_FATAL_UNKNOWN tc = false → es_status s ≠ StepStatus.UNKNOWN_OUTCOME.
Proof.
  intros [_ H] Hf. unfold of_kind in Hf. destruct (tc_kind tc); try done; intros Hu; rewrite ?Hu in H.
  - by destruct H.
  - by destruct H as (_ & ? & _).
  - by destruct H as (a & c & rm & o & (_ & Hr & _) & _); rewrite Hu in Hr.
  - by destruct H as (a & c & rm & o & (_ & Hr & _) & _); rewrite Hu in Hr.
  - by destruct H.
  - by destruct H.
Qed.

Section taken.
Context (p : plan) (st : store) (cs : list step_classification).
Context (Hwf : store_wf st) (Hsays : Forall2 (says p st) (sort_by key_order (list_steps st)) cs).
Context (Hfatal : ∀ tc, tc ∈ cs → of_kind KIND_FATAL_UNKNOWN tc = false).

Lemma classified_step s : s ∈ st_steps st → ∃ tc, tc ∈ cs ∧ says p st s tc.
Proof using Hwf Hsays.
  intros Hs. assert (s ∈ sort_by key_order (list_steps st)) as Hin by (rewrite sort_by_perm; by apply list_steps_wf).
  apply list_elem_of_lookup in Hin as [i Hi]. eapply Forall2_lookup_l in Hsays as (tc & Htc & H); [|exact Hi].
  exists tc. split; [by eapply list_elem_of_lookup_2|done].
Qed.
Lemma step_of_classification tc : tc ∈ cs → ∃ s, s ∈ st_steps st ∧ says p st s tc.
Proof using Hwf Hsays.
  intros Hin. apply list_elem_of_lookup in Hin as [i Hi]. eapply Forall2_lookup_r in Hsays as (s & Hs & H); [|exact Hi].
  exists s. split; [|done]. apply list_elem_of_lookup_2 in Hs. rewrite sort_by_perm in Hs. by apply list_steps_wf.
Qed.
Lemma classified_ids : NoDup (tc_step_id <$> cs).
Proof using Hwf Hsays.
  assert (tc_step_id <$> cs = es_id <$> sort_by key_order (list_steps st)) as ->.
  { apply list_eq_Forall2, Forall2_fmap, Forall2_flip. eapply Forall2_impl; [exact Hsays|]. by intros s tc [? _]. }
  rewrite sort_by_perm. unfold list_steps. rewrite sort_by_perm.
  assert (filter (λ s, es_execution_id s = ex_id (st_execution st)) (st_steps st) = st_steps st) as ->; [|apply Hwf].
  apply filter_all. intros s Hs. by apply Hwf.
Qed.
Lemma same_step s tc s' : says p st s tc → s ∈ st_steps st → s' ∈ st_steps st → tc_step_id tc = es_id s' → s' = s.
Proof using Hwf. intros [Hid _] Hs Hs' Heq. apply (key_inj es_id (st_steps st)); [apply Hwf|done..|congruence]. Qed.

(** What became of a step *)
Lemma outcome_repeated now s tc : s ∈ st_steps st → tc ∈ cs → says p st s tc → repeated tc = true →
  outcome_step now cs s = step_effect now tc s.
Proof using Hwf Hsays.
  intros Hs Htc Hsay Hr. unfold outcome_step. destruct (find_first _ cs) as [tc'|] eqn:E.
  - apply find_first_Some in E as [Hin Hp]. apply andb_true_iff in Hp as [_ Hp%bool_decide_eq_true].
    destruct Hsay as [Hid _]. assert (tc' = tc) as ->; [|done].
    pose proof classified_ids as Hnd. apply list_elem_of_lookup in Hin as [i Hi]. apply list_elem_of_lookup in Htc as [j Hj].
    assert (i = j) as ->; [|congruence].
    apply (NoDup_lookup (tc_step_id <$> cs) i j (es_id s)); [done|rewrite list_lookup_fmap, Hi; cbn; congruence|].
    rewrite list_lookup_fmap, Hj; cbn; congruence.
  - rewrite find_first_None in E. specialize (E tc Htc). destruct Hsay as [Hid _].
    by rewrite Hr, bool_decide_true in E.
Qed.
Lemma outcome_kept now s : s ∈ st_steps st → (¬ ∃ a c, runs_call st s a c) → outcome_step now cs s = s.
Proof using Hwf Hsays.
  intros Hs Hn. unfold outcome_step. destruct (find_first _ cs) as [tc|] eqn:E; [|done]. exfalso.
  apply find_first_Some in E as [Hin Hp]. apply andb_true_iff in Hp as [Hr Hp%bool_decide_eq_true].
  destruct (step_of_classification tc Hin) as (s' & Hs' & Hsay).
  rewrite (same_step s' tc s) in Hn by done.
  destruct (says_names p st s' tc Hsay Hs' Hr) as (a & c & _ & Hrun). apply Hn. by exists a, c.
Qed.

(** A step with a call in flight is repeated, and so is one with an attempt in flight that is not resumed. *)
Lemma running_classified s : s ∈ st_steps st → es_step_type s = StepType.TOOL → es_status s = StepStatus.RUNNING →
  ∃ tc, tc ∈ cs ∧ says p st s tc ∧ (repeated tc = true ∨ of_kind KIND_RESUME tc = true).
Proof using Hwf Hsays Hfatal.
  intros Hs Ht Hr. destruct (classified_step s Hs) as (tc & Htc & Hsay). exists tc. split; [done|]. split; [done|].
  specialize (Hfatal tc Htc). unfold repeated, of_kind in *. destruct Hsay as [_ H].
  destruct (tc_kind tc); try done; [destruct H as [_ H]|by right|by left|by left|destruct H as [H _]|destruct H as [_ H]].
  - by rewrite H in Hr.
  - by rewrite Hr in H.
  - by rewrite H in Hr.
Qed.

(** A call in flight is the call of a repeated classification. *)
Lemma repeated_call c : calls_in_flight_run st → c ∈ st_calls st → cl_normalized_status c = AttemptStatus.STARTED →
  ∃ s a tc, s ∈ st_steps st ∧ tc ∈ cs ∧ says p st s tc ∧ repeated tc = true ∧ runs_call st s a c ∧
    tc_tool_call_id tc = Some (cl_id c).
Proof using Hwf Hsays Hfatal.
  intros Hrun Hc Hst. destruct (Hrun c Hc Hst) as (a & s & Ha & Haid & Hast & Hs & Hsid & Ht & Hr).
  assert (a ∈ started_attempts st s) as Hin by by apply started_attempts_elem.
  assert (c ∈ list_tool_calls (sa_id a) st) as Hcin by by apply elem_of_list_tool_calls.
  destruct (running_classified s Hs Ht Hr) as (tc & Htc & Hsay & [Hrep|Hres]).
  - exists s, a, tc. split; [done|]. split; [done|]. split; [done|]. split; [done|].
    destruct (says_repeated p st s tc Hsay Hrep) as (a' & c' & Hrc & Ha' & Hc'). pose proof Hrc as (_ & _ & E1 & E2).
    rewrite E1 in Hin. apply list_elem_of_singleton in Hin as <-.
    assert (c ∈ filter (λ c, call_started c = true) (list_tool_calls (sa_id a) st)) as Hf.
    { apply list_elem_of_filter. split; [by apply bool_decide_eq_true|done]. }
    rewrite E2 in Hf. by apply list_elem_of_singleton in Hf as <-.
  - destruct Hsay as [_ H]. unfold of_kind in Hres. apply bool_decide_eq_true in Hres. rewrite Hres in H.
    destruct H as (_ & _ & a' & E1 & E2 & _). rewrite E1 in Hin. apply list_elem_of_singleton in Hin as <-.
    rewrite E2 in Hcin. by apply elem_of_nil in Hcin.
Qed.

Lemma applied_settled now st1 : calls_in_flight_run st → applied now cs st st1 → none_started st1.
Proof using Hwf Hsays Hfatal.
  intros Hrun [_ _ _ Hcalls _] c' Hc' Hst. rewrite Hcalls in Hc'. apply elem_of_upd_where in Hc' as (c & Hc & ->).
  case_decide as Hd; [done|]. apply Hd. destruct (repeated_call c Hrun Hc Hst) as (s & a & tc & _ & Htc & _ & Hrep & _ & Hid).
  unfold repeated_ids. apply list_elem_of_omap. exists tc. split; [|done]. by apply list_elem_of_filter.
Qed.

Lemma take_over_Ok lease_seconds worker token now :
  calls_in_flight_run st → existsb stops_execution cs = false →
  ∃ st' o, take_over lease_seconds worker token now cs st = Ok (st', o) ∧
    ro_taken_over o = true ∧ ro_invoke_runner o = true ∧ ro_worker_id o = Some worker ∧ ro_lease_token o = Some token ∧
    dag_taken_over p lease_seconds worker token now st st'.
Proof using Hwf Hsays Hfatal.
  intros Hrun Hgo. destruct (apply_fold now st cs st) as (st1 & E & Hap).
  { intros tc Htc Hrep. destruct (step_of_classification tc Htc) as (s & Hs & Hsay).
    destruct (says_names p st s tc Hsay Hs Hrep) as (a & c & Hn & _). by exists s, a, c. }
  { apply classified_ids. } { done. }
  unfold take_over. rewrite E. cbn [mbind res_bind].
  pose proof (applied_settled now st1 Hrun Hap) as Hns.
  set (st2 := upd_execution (assign_lease lease_seconds worker token now) st1).
  assert (NoDup (sa_id <$> st_attempts st2)) as Hnd.
  { destruct Hap as [Hk _ _ _ _]. apply (same_keys_wf _ _ Hk Hwf). }
  destruct (transfer_rows worker cs st2 Hnd) as (T1 & T2 & T3 & T4). set (st' := foldl (transfer_attempt worker) st2 cs) in *.
  eexists st', _. split; [reflexivity|].
  split; [by repeat case_match|]. split; [by repeat case_match|]. split; [by repeat case_match|]. split; [by repeat case_match|].
  destruct Hap as [Hk Hex Hsteps Hcalls Hatt].
  split.
  - rewrite T1. cbn [st_execution st2 upd_execution set_st_execution]. by rewrite <- Hex.
  - by apply (none_started_same st1).
  - intros s Hs. destruct (classified_step s Hs) as (tc & Htc & Hsay). by eapply says_known; [exact Hsay|apply Hfatal].
  - intros c Hc Hst. destruct (repeated_call c Hrun Hc Hst) as (s & a & tc & Hs & Htc & Hsay & Hrep & Hrc & _).
    destruct (says_goes_on p st s tc Hsay Hrep) as (rm & Hrm & Hsafe & Hafter & Hgoes).
    exists s, a, rm. split; [done|]. split; [done|]. split; [done|]. split; [done|]. split.
    + apply Hgoes. rewrite existsb_elem_false in Hgo. by apply Hgo.
    + rewrite T2. change (st_steps st2) with (st_steps st1). rewrite Hsteps. apply list_elem_of_fmap. exists s. split; [|done].
      by rewrite (outcome_repeated now s tc).
  - intros s Hs Hn. rewrite T2. change (st_steps st2) with (st_steps st1). rewrite Hsteps. apply list_elem_of_fmap.
    exists s. split; [|done]. by rewrite outcome_kept.
  - intros a' s' Ha' Hast Hs' Hid Ht Hr. rewrite T2 in Hs'. change (st_steps st2) with (st_steps st1) in Hs'. rewrite Hsteps in Hs'.
    apply list_elem_of_fmap in Hs' as (s & -> & Hs).
    apply list_elem_of_lookup in Ha' as [i Hi]. eapply Forall2_lookup_r in T4 as (a1 & Ha1 & F1 & F2 & F3 & _ & F5); [|exact Hi].
    change (st_attempts st2) with (st_attempts st1) in Ha1.
    eapply Forall2_lookup_r in Hatt as (a & Ha & G1 & G2); [|exact Ha1].
    case_decide as Hd; [congruence|]. subst a1. apply list_elem_of_lookup_2 in Ha.
    rewrite T1. apply F5; [|congruence].
    assert (outcome_step now cs s = s) as Hkept.
    { unfold outcome_step in *. destruct (find_first _ cs) as [tc|]; [|done]. exfalso. revert Hr. unfold step_effect.
      by destruct (of_kind _ tc). }
    rewrite Hkept in *. destruct (running_classified s Hs Ht Hr) as (tc & Htc & Hsay & [Hrep|Hres]).
    { rewrite (outcome_repeated now s tc) in Hkept by done. exfalso. revert Hr. rewrite <- Hkept. unfold step_effect.
      by destruct (of_kind _ tc). }
    apply list_elem_of_omap. exists tc. split; [by apply list_elem_of_filter|].
    destruct Hsay as [_ H]. unfold of_kind in Hres. apply bool_decide_eq_true in Hres. rewrite Hres in H.
    destruct H as (_ & _ & a0 & E1 & _ & ->).
    assert (a ∈ started_attempts st s) as Hin by (apply started_attempts_elem; split_and!; congruence).
    rewrite E1 in Hin. by apply list_elem_of_singleton in Hin as <-.
Qed.
End taken.

(** ** Attempts used up *)
Lemma exhausted_fold now cs : ∀ st,
  res_fold (apply_exhausted now) cs st = res_fold (apply_known now) (filter (λ tc, of_kind KIND_FAIL_EXHAUSTED tc = true) cs) st.
Proof.
  induction cs as [|tc cs IH]; intros st; [done|]. cbn [res_fold].
  destruct (of_kind KIND_FAIL_EXHAUSTED tc) eqn:Hk.
  - rewrite filter_cons_True by done. cbn [res_fold].
    assert (apply_exhausted now st tc = apply_known now st tc) as ->.
    { unfold apply_known. assert (of_kind KIND_SAFE_RETRY tc = false) as ->; [|done]. unfold of_kind in *. by destruct (tc_kind tc). }
    destruct (apply_known now st tc); [by apply IH|done].
  - rewrite filter_cons_False by congruence. assert (apply_exhausted now st tc = Ok st) as ->; [|by apply IH].
    unfold apply_exhausted. by rewrite Hk.
Qed.

Lemma exhausted_Ok now p st cs :
  store_wf st → Forall2 (says p st) (sort_by key_order (list_steps st)) cs →
  ∃ st', res_fold (apply_exhausted now) cs st = Ok st' ∧ same_keys st st' ∧ st_execution st' = st_execution st.
Proof.
  intros Hwf Hsays. rewrite exhausted_fold. destruct (apply_fold now st (filter (λ tc, of_kind KIND_FAIL_EXHAUSTED tc = true) cs) st)
    as (st' & E & [Hk He _ _ _]).
  - intros tc [_ Htc]%list_elem_of_filter Hrep. destruct (step_of_classification p st cs Hwf Hsays tc Htc) as (s & Hs & Hsay).
    destruct (says_names p st s tc Hsay Hs Hrep) as (a & c & Hn & _). by exists s, a, c.
  - pose proof (classified_ids p st cs Hwf Hsays) as Hnd. eapply sublist_NoDup; [exact Hnd|]. apply fmap_sublist, sublist_filter.
  - done.
  - by exists st'.
Qed.

(** ** The outcome of a workflow recovery *)
(** The execution is FAILED and has no lease. *)
Definition execution_failed (now : Z) (st st' : store) : Prop :=
  ∃ code m, st_execution st' = Recovery.fail_execution code m now (st_execution st).

Definition dag_recovered (lease_seconds : Z) (worker : string) (token : uuid) (now : Z) (st : store)
    (r : store * recovery_outcome) : Prop :=
  if ro_invoke_runner r.2 then
    ro_worker_id r.2 = Some worker ∧ ro_lease_token r.2 = Some token ∧
    ∃ p, assert_execution_plan_lineage (st_execution st) = Ok p ∧ dag_taken_over p lease_seconds worker token now st r.1
  else
    execution_failed now st r.1 ∧
    (ro_decision r.2 ≠ FAIL_EXHAUSTED → none_started r.1 ∧ (¬ none_started st → ambiguous r.1) ∧
       ∀ s, s ∈ st_steps r.1 → is_terminal_step_status (es_status s) = true).

Lemma fail_closed_recovered code m preferred lease_seconds worker token now st o :
  store_wf st → ro_invoke_runner o = false →
  dag_recovered lease_seconds worker token now st (fail_closed code m preferred now st, o).
Proof.
  intros Hwf Ho. unfold dag_recovered. cbn [fst snd]. rewrite Ho.
  destruct (fail_closed_rows code m preferred now st Hwf) as ([_ He] & Hns & Hend & Hamb).
  split; [by exists code, m|done].
Qed.

(** What escapes is an error of the classification that is not a conflict. *)
Definition uncaught (e : py_error) : Prop :=
  match e with AppError code _ _ => code ∉ ["RESOURCE_CONFLICT"; "EXECUTION_PRECONDITION_FAILED"] | _ => True end.

Lemma recover_dag_recovered c lease_seconds worker token now st :
  store_wf st → calls_in_flight_run st →
  match recover_dag c lease_seconds worker token now st with
  | Ok r => dag_recovered lease_seconds worker token now st r
  | Err e => classify_dag c st = Err e ∧ uncaught e
  end.
Proof.
  intros Hwf Hrun. unfold recover_dag. destruct (classify_dag c st) as [cs|e] eqn:Ecs.
  2: { destruct e as [code m status|k]; [|done]. destruct (bool_decide _) eqn:Hc; [by apply fail_closed_recovered|].
       by apply bool_decide_eq_false in Hc. }
  destruct (classify_dag_says c st cs Ecs) as (p & Hp & Hsays & _). unfold apply_classification.
  destruct (filter _ cs) as [|first fatal] eqn:Ef; [|by apply fail_closed_recovered].
  assert (∀ tc, tc ∈ cs → of_kind KIND_FATAL_UNKNOWN tc = false) as Hfatal.
  { intros tc Htc. apply not_true_iff_false. intros Hk.
    assert (tc ∈ filter (λ tc, of_kind KIND_FATAL_UNKNOWN tc = true) cs) as Hin by by apply list_elem_of_filter.
    rewrite Ef in Hin. by apply elem_of_nil in Hin. }
  destruct (existsb stops_execution cs) eqn:Hstop.
  - destruct (exhausted_Ok now p st cs Hwf Hsays) as (st1 & -> & Hk & He). cbn [mbind res_bind].
    unfold dag_recovered. cbn [fst snd ro_invoke_runner ro_decision]. split; [|done].
    destruct (stop_rows_steps now st1) as (_ & L2 & _); [by eapply same_keys_wf|].
    destruct (fail_expired_rows ERROR_CODE_LEASE_EXPIRED EXHAUSTED_MESSAGE now (stop_rows now st1)) as ([_ F] & _).
    exists ERROR_CODE_LEASE_EXPIRED, EXHAUSTED_MESSAGE. by rewrite F, L2, He.
  - destruct (take_over_Ok p st cs Hwf Hsays Hfatal lease_seconds worker token now Hrun Hstop)
      as (st' & o & -> & _ & Hi & Hw & Ht & Hd).
    unfold dag_recovered. cbn [fst snd]. rewrite Hi. split; [done|]. split; [done|]. by exists p.
Qed.

Lemma recover_expired_dag c lease_seconds worker worker' token now st :
  normalize_worker_id worker = Ok worker' → ex_status (st_execution st) = ExecutionStatus.RUNNING →
  lease_expired (st_execution st) now = true → ex_source_type (st_execution st) ∈ WORKFLOW_RUNNING_RECOVERY_SOURCES →
  is_agent_schedule_occurrence (st_execution st) = false →
  plan_supports_workflow_running_recovery (ex_plan_snapshot (st_execution st)) = Ok true →
  recover_expired c lease_seconds worker token now true st = recover_dag c lease_seconds worker' token now st.
Proof.
  intros Hw Hrun Hex Hsrc Hag Hsup. unfold recover_expired, recover. rewrite Hw. cbn [mbind res_bind negb].
  rewrite Hrun, Hex, Hag, (bool_decide_true (_ ∈ _)) by done. cbn [negb andb]. rewrite !bool_decide_false by done.
  rewrite bool_decide_true by done. cbn [negb]. unfold recover_workflow_dag. by rewrite Hsup.
Qed.

(** C11: the recovery of a workflow makes progress, and repeats only what is
    safe to repeat.  A workflow execution left RUNNING by a worker whose lease
    ran out is settled by one recovery.  Either the runner is invoked: the
    recovering worker holds the fresh lease of the execution and of every
    attempt still in flight, no call is in flight, no step had an unknown
    outcome, each step that had a call in flight is pinned to a risk class that
    is safe to repeat and is READY again (or, when its attempts are used up, is
    FAILED under an error policy that lets the others go on), and every other
    step is as it was.  Or the runner is not invoked and the execution is
    FAILED without a lease; unless attempts ran out, every step is then
    terminal, no call is in flight, and the evidence of a call that was stays
    on the rows as an unknown outcome.  The only error that escapes is one the
    classification itself does not turn into a conflict. *)
Theorem workflow_recovery_progress c lease_seconds worker worker' token now st :
  store_wf st → calls_in_flight_run st →
  normalize_worker_id worker = Ok worker' → ex_status (st_execution st) = ExecutionStatus.RUNNING →
  lease_expired (st_execution st) now = true → ex_source_type (st_execution st) ∈ WORKFLOW_RUNNING_RECOVERY_SOURCES →
  is_agent_schedule_occurrence (st_execution st) = false →
  plan_supports_workflow_running_recovery (ex_plan_snapshot (st_execution st)) = Ok true →
  match recover_expired c lease_seconds worker token now true st with
  | Ok r => dag_recovered lease_seconds worker' token now st r
  | Err e => classify_dag c st = Err e ∧ uncaught e
  end.
Proof.
  intros Hwf Hflight Hw Hrun Hex Hsrc Hag Hsup. rewrite (recover_expired_dag c lease_seconds worker worker') by done.
  by apply recover_dag_recovered.
Qed.
End sound.
