(* ===== verification/ResultValidator.v ===== *)
(** * Acceptance of tool results and arguments

    [execution/result_validator.py], [execution/resolved_input_schema.py] and
    the normalized results of [mcp/contracts.py].  JSON Schema validation is the
    package jsonschema's: the class [SchemaValidator] takes it as functions. *)
From S2P Require Import Prelude PyStr PyDict Json PyUuid CanonicalHash Domain BindingResolver.

(** [NormalizedToolResult] and [NormalizedInputRequired], the fields the runtime reads *)
Record normalized_tool_result := NormalizedToolResult {
  nr_protocol_success : bool;
  nr_tool_error : bool;
  nr_content : list json;
  nr_structured_content : json;
  nr_metadata : dict json;
  nr_raw_size_bytes : Z;
  nr_duration_ms : Z;
  nr_result_type : option string }.

Record normalized_input_required := NormalizedInputRequired {
  ni_input_requests : dict json;
  ni_request_state : json;
  ni_raw_size_bytes : Z }.

Class SchemaValidator := {
  (** [check_schema] of the draft the schema names, [false] where it raises [SchemaError] *)
  check_schema : dict json → bool;
  (** the [absolute_path] of each error of [sorted(iter_errors(instance), key=str)], its parts as text *)
  schema_error_paths : dict json → json → list (list string);
  (** whether Draft 2020-12 finds an error *)
  draft_2020_12_invalid : dict json → json → res bool }.

(** ** Results *)
Inductive result_validation_outcome := ResultValid | ResultInvalid (error_code error_message : string).
Definition schema_invalid (message : string) : result_validation_outcome := ResultInvalid "RESULT_SCHEMA_INVALID" message.

Definition MAX_REPORTED_PATHS : nat := 5.
(** [_pointer_paths]; every root of the code is empty or ends in no slash. *)
Definition pointer_paths (errors : list (list string)) (root : string) : list string :=
  (λ parts, if str_empty root then "/" +:+ join_with "/" parts
            else if is_nil parts then root else root +:+ "/" +:+ join_with "/" parts) <$> take MAX_REPORTED_PATHS errors.

Definition is_http_success_status (value : json) : bool :=
  match value with JInt n => (200 <=? n)%Z && (n <=? 299)%Z | _ => false end.

(** [_factory_http_body_payload]: the body, or why there is none *)
Definition factory_http_body_payload (structured_content : json) : json + result_validation_outcome :=
  match structured_content with
  | JObj d =>
      if negb (match get_or_none "ok" d with JBool b => b | _ => false end) then
        inr (schema_invalid "Factory Tool structuredContent.ok must be true before output_schema body validation.")
      else if negb (is_http_success_status (get_or_none "http_status" d)) then
        inr (schema_invalid ("Factory Tool structuredContent.http_status must be an integer "
               +:+ "HTTP 2xx before output_schema body validation."))
      else match dict_get "body" d with
           | Some body => inl body
           | None => inr (schema_invalid ("Factory Tool structuredContent has no JSON body to validate "
                            +:+ "against output_schema (body_text-only results fail closed)."))
           end
  | _ => inr (schema_invalid ("Factory Tool structuredContent must be an object envelope "
                +:+ "with HTTP body for output_schema validation."))
  end.

Section validate.
Context {validator : SchemaValidator}.

(** The comparison of an instance with the schema, and its report *)
Definition validate_instance (schema : dict json) (instance : json) (factory_imported : bool) : result_validation_outcome :=
  let path_root := if factory_imported then "/body" else "" in
  match schema_error_paths schema instance with
  | [] => ResultValid
  | errors =>
      schema_invalid ((if factory_imported then "Factory Tool HTTP body" else "Tool structuredContent")
        +:+ " did not satisfy output_schema at: " +:+ join_with ", " (pointer_paths errors path_root))
  end.

Definition validate_tool_result (result : normalized_tool_result) (output_schema : json) (factory_imported : bool)
    : result_validation_outcome :=
  if negb (nr_protocol_success result) then
    ResultInvalid "RESULT_PROTOCOL_FAILURE" "MCP tools/call did not complete a protocol-successful response."
  else if nr_tool_error result then ResultInvalid "RESULT_TOOL_ERROR" "MCP tool reported isError=true."
  else match output_schema with
  | JNull => ResultValid
  | JObj schema =>
      if is_none (nr_structured_content result) then
        schema_invalid "Tool result is missing structuredContent required by output_schema."
      else if negb (check_schema schema) then
        schema_invalid "ToolVersion.output_schema failed schema self-validation."
      else if factory_imported then
        match factory_http_body_payload (nr_structured_content result) with
        | inl body => validate_instance schema body true
        | inr error => error
        end
      else validate_instance schema (nr_structured_content result) false
  | _ => schema_invalid "ToolVersion.output_schema is not a valid JSON object."
  end.

(** ** Arguments *)
(** [_schema_validation_view]: an opaque string for each reference *)
Definition schema_validation_view (resolved_input : dict json) : dict json :=
  (λ kv : string * json, (kv.1, if is_secret_ref_value kv.2 then JStr "__secret_ref__" else kv.2)) <$> resolved_input.

Definition validate_resolved_tool_arguments (input_schema : json) (resolved_input : dict json) : res unit :=
  let not_object := precondition_failed "ToolVersion.input_schema.type must be object." in
  match input_schema with
  | JObj schema =>
      _ ← raise_if (negb (py_eq (get_or_none "type" schema) (JStr "object"))) not_object;
      let properties := get_or_none "properties" schema in
      _ ← raise_if (negb (is_none properties) && negb (is_dict properties))
            (precondition_failed "ToolVersion.input_schema.properties must be object.");
      invalid ← draft_2020_12_invalid schema (JObj (schema_validation_view resolved_input));
      raise_if invalid
        (precondition_failed "Resolved TOOL arguments failed input_schema validation at {path or '/'}: {first.message}")
  | _ => Err not_object
  end.
End validate.

(** ** Sizes *)
(** [json.dumps(v, ensure_ascii=False)], whose [default=str] no JSON value needs *)
Fixpoint json_text (v : json) : res string :=
  match v with
  | JNull => Ok "null"
  | JBool b => Ok (if b then "true" else "false")
  | JInt n => int_repr n
  | JFloat f => Ok (float_repr f)
  | JStr s => Ok (json_string s)
  | JArr l => items ← res_map json_text l; Ok ("[" +:+ join_with ", " items +:+ "]")
  | JObj d =>
      items ← (fix go (d : dict json) : res (list string) :=
                 match d with
                 | [] => Ok []
                 | (k, x) :: d => s ← json_text x; r ← go d; Ok ((json_string k +:+ ": " +:+ s) :: r)
                 end) d;
      Ok ("{" +:+ join_with ", " items +:+ "}")
  end.
(** [len(....encode("utf-8"))] *)
Definition utf8_json_size (v : json) : res Z := text ← json_text v; Ok (Z.of_nat (length (utf8_encode text))).

Example size_of_object : utf8_json_size (JObj [("a", JArr [JInt 1; JNull])]) = Ok 16%Z.
Proof. vm_compute. reflexivity. Qed.
