(* ===== verification/SecretRedaction.v ===== *)
(** Secrets: what a reply may not hold, and what a call needs. *)
From S2P Require Import Prelude PyStr PyDict Json PyUuid CanonicalHash Domain BindingResolver.
From Stdlib Require Import Ascii.

(** * Secret redaction before persistence (execution/secret_redaction.py)

    The protected plaintexts of one call, longest first; the redaction of a
    text by locked segments; and the recursive sanitizing of a JSON value, keys
    included, with the renaming of colliding keys. *)

Definition REDACTION_MARKER : string := "[REDACTED]".

(** ** [collect_protected_plaintexts] *)
(** What one header value contributes *)
Definition header_secrets (value : string) : list string :=
  if str_empty value then []
  else
    let lo := lower value in
    value ::
      (if String.prefix "bearer " lo then
         let token := drop_chars 7 value in if str_empty token then [] else [token]
       else if String.prefix "basic " lo then
         let encoded := strip (drop_chars 6 value) in if str_empty encoded then [] else [encoded]
       else []).

(** [key=lambda item: (-len(item), item)] *)
Definition longest_first (a b : string) : bool :=
  (String.length b <? String.length a)%nat
  || ((String.length a =? String.length b)%nat && str_leb a b).

Definition collect_protected_plaintexts (auth_headers : option (dict string))
    (secret_argument_values auth_material_values : option (list string)) : list string :=
  let non_empty := filter (λ s, str_empty s = false) in
  sort_by longest_first (remove_dups
    ((h ← dict_values (default [] auth_headers); header_secrets h)
     ++ non_empty (default [] secret_argument_values)
     ++ non_empty (default [] auth_material_values))).

(** ** [redact_text] *)
(** A segment: locked or not, and its content *)
Definition segment : Type := bool * string.

Definition unlocked (w : string) : list segment := if str_empty w then [] else [(false, w)].

(** The loop over the parts of a split: each non-empty part unlocked, a locked
    marker between two parts *)
Fixpoint interleave (parts : list string) : list segment :=
  match parts with
  | [] => []
  | [w] => unlocked w
  | w :: parts => unlocked w ++ (true, REDACTION_MARKER) :: interleave parts
  end.

(** [_split_locked_markers] *)
Definition split_locked_markers (text : string) : list segment :=
  if negb (str_in REDACTION_MARKER text) then [(false, text)]
  else interleave (split REDACTION_MARKER text).

(** The body of [for locked, content in segments] *)
Definition redact_segment (secret : string) (seg : segment) : list segment :=
  let '(locked, content) := seg in
  if locked || str_empty content then [(locked, content)]
  else if negb (str_in secret content) then [(false, content)]
  else interleave (split secret content).

(** The body of [for secret in protected] *)
Definition redact_secret (segments : list segment) (secret : string) : list segment :=
  if str_empty secret then segments else seg ← segments; redact_segment secret seg.

Definition segments_text (segments : list segment) : string :=
  foldr (λ seg rest, (seg.2 ++ rest)%string) "" segments.

Definition redact_text (text : string) (protected : list string) : string :=
  if str_empty text || match protected with [] => true | _ => false end then text
  else segments_text (foldl redact_secret (split_locked_markers text) protected).

(** ** [contains_protected_plaintext] *)
Definition text_has_secret (protected : list string) (text : string) : bool :=
  existsb (λ secret, negb (str_empty secret) && str_in secret text) protected.

Fixpoint contains_protected (protected : list string) (value : json) : bool :=
  match value with
  | JStr s => text_has_secret protected s
  | JArr l => existsb (contains_protected protected) l
  | JObj d =>
      (fix go (d : dict json) : bool :=
         match d with
         | [] => false
         | (key, item) :: d => text_has_secret protected key || contains_protected protected item || go d
         end) d
  | _ => false
  end.

Definition contains_protected_plaintext (value : json) (protected : list string) : bool :=
  match protected with [] => false | _ => contains_protected protected value end.

(** ** [sanitize_for_persistence] *)
Definition numbered_key (desired : string) (n : N) : string := (desired ++ "#" ++ decimal n)%string.

(** [while True] of [_allocate_dict_key]; the fuel bounds its iterations. *)
Fixpoint next_key (fuel : nat) (n : N) (desired : string) (used : list string) : res string :=
  match fuel with
  | O => Err (PyException "OutOfFuel")
  | S fuel =>
      let candidate := numbered_key desired n in
      if bool_decide (candidate ∈ used) then next_key fuel (n + 1) desired used else Ok candidate
  end.

(** [_allocate_dict_key]; the caller adds the key to [used]. *)
Definition allocate_dict_key (desired : string) (used : list string) : res string :=
  if bool_decide (desired ∈ used) then next_key (S (length used)) 2 desired used else Ok desired.

(** [_sanitize] *)
Fixpoint sanitize (protected : list string) (value : json) : res json :=
  match value with
  | JStr s => Ok (JStr (redact_text s protected))
  | JArr l =>
      items ← (fix go (l : list json) : res (list json) :=
         match l with
         | [] => Ok []
         | item :: l => x ← sanitize protected item; rest ← go l; Ok (x :: rest)
         end) l;
      Ok (JArr items)
  | JObj d =>
      items ← (fix go (used_keys : list string) (d : dict json) : res (dict json) :=
         match d with
         | [] => Ok []
         | (key, item) :: d =>
             allocated ← allocate_dict_key (redact_text key protected) used_keys;
             x ← sanitize protected item;
             rest ← go (allocated :: used_keys) d;
             Ok ((allocated, x) :: rest)
         end) [] d;
      Ok (JObj items)
  | _ => Ok value
  end.

Definition sanitize_for_persistence (value : json) (protected : list string) : res json :=
  match protected with [] => Ok value | _ => sanitize protected value end.

(** ** Redacted text holds no secret *)
Definition no_char (c : ascii) (s : string) : bool := str_all (λ d, negb (Ascii.eqb d c)) s.

(** A secret whose occurrences cannot be formed by the redaction itself: none
    in the marker, none across a marker or a collision suffix *)
Definition redactable (s : string) : bool :=
  no_char "["%char s && no_char "]"%char s && no_char "#"%char s
  && negb (str_in s REDACTION_MARKER) && negb (str_all is_ascii_digit s).

(** Locked segments are markers and no two unlocked ones touch; [u] says
    whether an unlocked one came just before. *)
Fixpoint alternating (u : bool) (segs : list segment) : Prop :=
  match segs with
  | [] => True
  | (true, m) :: segs => m = REDACTION_MARKER ∧ alternating false segs
  | (false, _) :: segs => u = false ∧ alternating true segs
  end.

Definition clean (s : string) (segs : list segment) : Prop :=
  ∀ c, (false, c) ∈ segs → ¬ infix s c.

Lemma alternating_weaken segs : alternating true segs → alternating false segs.
Proof. destruct segs as [|[[] c] segs]; simpl; naive_solver. Qed.

Lemma str_empty_true s : str_empty s = true ↔ s = "".
Proof. by destruct s. Qed.

Lemma alternating_interleave ws rest :
  alternating true rest → alternating false (interleave ws ++ rest).
Proof.
  intros Hr. assert (∀ w segs, alternating true segs → alternating false (unlocked w ++ segs)) as Hu.
  { intros w segs Hs. unfold unlocked. destruct (str_empty w); [by apply alternating_weaken|done]. }
  induction ws as [|w ws IH]; [by apply alternating_weaken|].
  destruct ws as [|w' ws]; [by apply Hu|].
  change (interleave (w :: w' :: ws)) with (unlocked w ++ (true, REDACTION_MARKER) :: interleave (w' :: ws)).
  rewrite <- app_assoc. by apply Hu.
Qed.

Lemma alternating_redact secret segs u :
  alternating u segs → alternating u (seg ← segs; redact_segment secret seg).
Proof.
  revert u. induction segs as [|[[] c] segs IH]; intros u; [done|simpl; naive_solver|].
  intros [-> Hs]. apply IH in Hs. cbn [mbind list_bind redact_segment].
  destruct (false || str_empty c); [done|]. destruct (negb (str_in secret c)); [done|].
  by apply alternating_interleave.
Qed.

Lemma interleave_unlocked ws c : (false, c) ∈ interleave ws → c ∈ ws.
Proof.
  assert (∀ w, (false, c) ∈ unlocked w → c = w) as Hu.
  { intros w. unfold unlocked. destruct (str_empty w); [by intros ?%elem_of_nil|].
    intros ?%list_elem_of_singleton. congruence. }
  induction ws as [|w ws IH]; [by intros ?%elem_of_nil|]. destruct ws as [|w' ws].
  - intros ->%Hu. left.
  - change (interleave (w :: w' :: ws)) with (unlocked w ++ (true, REDACTION_MARKER) :: interleave (w' :: ws)).
    intros [->%Hu|[[=]|Hin]%elem_of_cons]%elem_of_app; [left|right; by apply IH].
Qed.

Lemma redact_segment_unlocked secret seg c :
  str_empty secret = false → (false, c) ∈ redact_segment secret seg →
  ∃ c0, seg = (false, c0) ∧ infix c c0 ∧ ¬ infix secret c.
Proof.
  intros Hs. destruct seg as [[] c0]; [by intros [=]%list_elem_of_singleton|].
  cbn [redact_segment orb]. destruct (str_empty c0) eqn:He.
  - intros [= ->]%list_elem_of_singleton. exists c0. split; [done|]. split; [apply infix_refl|].
    apply str_empty_true in He as ->. intros ->%infix_nil. done.
  - destruct (str_in secret c0) eqn:Ei; cbn [negb].
    + intros Hc%interleave_unlocked. apply split_parts in Hc as [? ?]; [|done]. by exists c0.
    + intros [= ->]%list_elem_of_singleton. exists c0. split; [done|]. split; [apply infix_refl|].
      by apply str_in_false.
Qed.

(** After the loop every protected secret is out of every unlocked segment. *)
Lemma fold_redact_ok protected segs :
  alternating false segs →
  alternating false (foldl redact_secret segs protected) ∧
  ∀ s, s ∈ protected ∧ str_empty s = false ∨ clean s segs →
       clean s (foldl redact_secret segs protected).
Proof.
  revert segs. induction protected as [|secret protected IH]; intros segs Ha.
  { split; [done|]. by intros s [[?%elem_of_nil _]|Hc]. }
  cbn [foldl]. destruct (IH (redact_secret segs secret)) as [Ha' Hc].
  { unfold redact_secret. destruct (str_empty secret); [done|]. by apply alternating_redact. }
  split; [done|]. intros s Hs. apply Hc. unfold redact_secret.
  destruct (str_empty secret) eqn:He; [destruct Hs as [[[->|]%elem_of_cons ?]|]; try congruence; auto|].
  destruct Hs as [[[->|]%elem_of_cons ?]|Hcl]; [right|by left|right];
    intros c ([b c0] & Hc0 & Hin)%list_elem_of_bind;
    apply redact_segment_unlocked in Hc0 as (c1 & [= -> ->] & Hi & Hn); try done.
  intros Hsc. apply (Hcl c1 Hin). by apply infix_trans with c.
Qed.

(** A secret that no segment holds does not appear in their text either. *)
Lemma segments_text_no_infix s segs :
  no_char "["%char s = true → no_char "]"%char s = true → ¬ infix s REDACTION_MARKER → clean s segs →
  (alternating true segs → ∀ x, ¬ infix s x → ¬ infix s (x ++ segments_text segs)%string) ∧
  (alternating false segs → ¬ infix s (segments_text segs)).
Proof.
  intros Ho Hc Hm. assert (¬ infix s "") as Hne by (intros ->%infix_nil; apply Hm; by exists "", REDACTION_MARKER).
  assert (∀ rest, ¬ infix s rest → ¬ infix s ("REDACTED" ++ String "]"%char rest)%string) as Hword.
  { intros rest Hr Hi. apply infix_sep in Hi as [Hi|?]; [|done|done].
    apply Hm. apply infix_trans with "REDACTED"; [done|]. by exists "[", "]". }
  induction segs as [|[[] c] segs IH]; intros Hcl.
  - split; [intros _ x Hx; simpl; by rewrite str_app_nil_r|done].
  - destruct IH as [_ IH]; [intros c' Hc'; apply Hcl; by right|].
    assert (∀ m, (m = REDACTION_MARKER ∧ alternating false segs) → ∀ x, ¬ infix s x →
              ¬ infix s (x ++ (m ++ segments_text segs))%string) as Hgo.
    { intros m [-> Ha] x Hx Hi. apply infix_sep in Hi as [?|Hi]; [done| |done].
      by apply (Hword (segments_text segs)); [apply IH|]. }
    split; [intros Ha x Hx; by apply Hgo|]. intros Ha. by apply (Hgo c Ha "").
  - destruct IH as [IH _]; [intros c' Hc'; apply Hcl; by right|]. simpl. split.
    + by intros [??].
    + intros [_ Ha]. apply IH; [done|]. apply Hcl. left.
Qed.

Lemma redact_text_no_infix text protected s :
  s ∈ protected → redactable s = true → ¬ infix s (redact_text text protected).
Proof.
  intros Hs Hr. unfold redactable in Hr. inv_res.
  assert (¬ infix s REDACTION_MARKER) as Hm by (by apply str_in_false).
  assert (str_empty s = false) as Hse.
  { destruct s; [|done]. exfalso. apply Hm. by exists "", REDACTION_MARKER. }
  unfold redact_text. destruct (str_empty text) eqn:He; cbn [orb].
  { apply str_empty_true in He as ->. intros ->%infix_nil. done. }
  destruct protected as [|p0 protected]; [by apply elem_of_nil in Hs|].
  destruct (fold_redact_ok (p0 :: protected) (split_locked_markers text)) as [Ha Hc].
  { unfold split_locked_markers. destruct (negb _); [done|].
    rewrite <- (app_nil_r (interleave _)). by apply alternating_interleave. }
  apply segments_text_no_infix; [done..| |done]. apply Hc. by left.
Qed.

(** ** Text without a secret is not touched *)
Lemma segments_text_app a b : segments_text (a ++ b) = (segments_text a ++ segments_text b)%string.
Proof. induction a as [|x a IH]; [done|]. simpl. by rewrite IH, str_app_assoc. Qed.

Lemma segments_text_interleave ws : segments_text (interleave ws) = join_with REDACTION_MARKER ws.
Proof.
  assert (∀ w, segments_text (unlocked w) = w) as Hu.
  { intros w. unfold unlocked. destruct w; [done|]. simpl. by rewrite str_app_nil_r. }
  induction ws as [|w ws IH]; [done|]. destruct ws as [|w' ws]; [apply Hu|].
  change (interleave (w :: w' :: ws)) with (unlocked w ++ (true, REDACTION_MARKER) :: interleave (w' :: ws)).
  rewrite segments_text_app, Hu. change (segments_text ((true, REDACTION_MARKER) :: interleave (w' :: ws)))
    with (REDACTION_MARKER ++ segments_text (interleave (w' :: ws)))%string. by rewrite IH.
Qed.

Lemma text_has_secret_false protected text :
  text_has_secret protected text = false ↔
  ∀ s, s ∈ protected → str_empty s = false → ¬ infix s text.
Proof.
  unfold text_has_secret. rewrite existsb_elem_false. split.
  - intros H s Hs He. specialize (H s Hs). rewrite He in H. by apply str_in_false.
  - intros H s Hs. destruct (str_empty s) eqn:He; [done|]. simpl. apply str_in_false. by apply H.
Qed.

Lemma redact_text_clean text protected :
  text_has_secret protected text = false → redact_text text protected = text.
Proof.
  rewrite text_has_secret_false. intros Hc. unfold redact_text.
  destruct (str_empty text || _); [done|].
  assert (segments_text (split_locked_markers text) = text ∧
          ∀ c, (false, c) ∈ split_locked_markers text → infix c text) as [Ht Hi].
  { unfold split_locked_markers. destruct (negb _).
    - simpl. rewrite str_app_nil_r. split; [done|]. intros c [= ->]%list_elem_of_singleton. apply infix_refl.
    - rewrite segments_text_interleave, split_join_with by done. split; [done|].
      intros c Hin%interleave_unlocked. by apply split_parts in Hin as [_ ?]. }
  rewrite <- Ht at 2. f_equal. revert Hc. clear Ht.
  induction protected as [|secret protected IH]; intros Hc; [done|]. simpl.
  assert (redact_secret (split_locked_markers text) secret = split_locked_markers text) as ->.
  { unfold redact_secret. destruct (str_empty secret) eqn:He; [done|].
    revert Hi. generalize (split_locked_markers text). intros segs Hi.
    induction segs as [|[b c] segs IHs]; [done|]. cbn [mbind list_bind].
    assert (redact_segment secret (b, c) = [(b, c)]) as ->.
    { unfold redact_segment. destruct b; [done|]. cbn [orb]. destruct (str_empty c); [done|].
      assert (str_in secret c = false) as ->; [|done]. apply str_in_false. intros Hsc.
      apply (Hc secret); [left|done|]. apply infix_trans with c; [done|]. apply Hi. left. }
    simpl. f_equal. apply IHs. intros c' Hc'. apply Hi. by right. }
  apply IH. intros s Hs. apply Hc. by right.
Qed.

(** ** Keys of a sanitized object *)
Lemma numbered_key_inj desired m n : numbered_key desired m = numbered_key desired n → m = n.
Proof.
  unfold numbered_key. intros [=H]%str_app_inv_head.
  apply (f_equal (decimal_value 0)) in H. rewrite !decimal_value_decimal in H. lia.
Qed.

Lemma next_key_Ok fuel n desired used k :
  next_key fuel n desired used = Ok k → (k ∉ used) ∧ ∃ m, k = numbered_key desired m.
Proof.
  revert n. induction fuel as [|fuel IH]; intros n H; [done|]. cbn [next_key] in H.
  case_bool_decide; [by apply IH in H|]. injection H as <-. eauto.
Qed.

(** The [while True] loop ends: one of the first [len(used) + 1] candidates is free. *)
Lemma next_key_total fuel n desired used :
  (length used < fuel)%nat → is_ok (next_key fuel n desired used) = true.
Proof.
  intros Hf. destruct (next_key fuel n desired used) as [k|e] eqn:Hrun; [done|]. exfalso.
  set (candidates := (λ i, numbered_key desired (n + N.of_nat i)) <$> seq 0 fuel).
  assert (candidates ⊆ used) as Hsub.
  { intros k (i & -> & Hi%elem_of_seq)%list_elem_of_fmap. clear Hf candidates.
    revert n i Hrun Hi. induction fuel as [|fuel IH]; intros n i Hrun Hi; [lia|].
    cbn [next_key] in Hrun. case_bool_decide as Hin; [|done].
    destruct i as [|i]; [by rewrite N.add_0_r|].
    replace (n + N.of_nat (S i))%N with (n + 1 + N.of_nat i)%N by lia. apply IH; [done|lia]. }
  assert (NoDup candidates) as Hnd.
  { apply NoDup_fmap_2_strong; [|apply NoDup_seq]. intros i j _ _ Hij%numbered_key_inj. lia. }
  apply (NoDup_submseteq _ _ Hnd) in Hsub. apply submseteq_length in Hsub.
  unfold candidates in Hsub. rewrite length_fmap, length_seq in Hsub. lia.
Qed.

Lemma allocate_dict_key_ok desired used :
  ∃ k, allocate_dict_key desired used = Ok k ∧ (k ∉ used) ∧
       (k = desired ∨ ∃ m, k = numbered_key desired m).
Proof.
  unfold allocate_dict_key. case_bool_decide as Hin; [|by exists desired; auto].
  pose proof (next_key_total (S (length used)) 2 desired used) as Ht.
  destruct (next_key _ _ _ _) as [k|e] eqn:Hk; [|by specialize (Ht ltac:(lia))].
  apply next_key_Ok in Hk as [??]. by exists k; auto.
Qed.

Lemma numbered_key_no_infix s desired m :
  redactable s = true → ¬ infix s desired → ¬ infix s (numbered_key desired m).
Proof.
  intros Hr Hd Hi. unfold redactable in Hr. inv_res.
  apply infix_sep in Hi as [?|(a & b & Hab)]; [done| |done].
  pose proof (decimal_digits m) as Hdig. rewrite Hab, !str_all_app in Hdig. inv_res. congruence.
Qed.

(** ** Sanitized values *)
(** The loops by name, for the proofs *)
Section loops.
Context (protected : list string).

Fixpoint sanitize_items (l : list json) : res (list json) :=
  match l with
  | [] => Ok []
  | item :: l => x ← sanitize protected item; rest ← sanitize_items l; Ok (x :: rest)
  end.
Fixpoint sanitize_fields (used : list string) (d : dict json) : res (dict json) :=
  match d with
  | [] => Ok []
  | (key, item) :: d =>
      allocated ← allocate_dict_key (redact_text key protected) used;
      x ← sanitize protected item;
      rest ← sanitize_fields (allocated :: used) d;
      Ok ((allocated, x) :: rest)
  end.
End loops.

Lemma sanitize_arr protected l : sanitize protected (JArr l) = items ← sanitize_items protected l; Ok (JArr items).
Proof. reflexivity. Qed.
Lemma sanitize_obj protected d : sanitize protected (JObj d) = items ← sanitize_fields protected [] d; Ok (JObj items).
Proof. reflexivity. Qed.

Lemma contains_obj protected d :
  contains_protected protected (JObj d) = false ↔
  ∀ k v, (k, v) ∈ d → text_has_secret protected k = false ∧ contains_protected protected v = false.
Proof.
  cbn [contains_protected]. induction d as [|[k v] d IH].
  - split; [by intros _ k v ?%elem_of_nil|done].
  - rewrite !orb_false_iff, IH. split.
    + intros [[??]?] k' v' [[= -> ->]|?]%elem_of_cons; [done|auto].
    + intros H. destruct (H k v) as [??]; [left|]. split; [done|]. intros k' v' Hin. apply H. by right.
Qed.

(** What sanitizing guarantees of a value *)
Definition redacts (protected : list string) (v : json) : Prop :=
  ∃ v', sanitize protected v = Ok v' ∧ contains_protected protected v' = false ∧ json_wf v' = true.

Section redactable.
Context (protected : list string) (Hred : ∀ s, s ∈ protected → redactable s = true).

Lemma redact_text_safe text : text_has_secret protected (redact_text text protected) = false.
Proof using Hred. apply text_has_secret_false. intros s Hs _. apply redact_text_no_infix; auto. Qed.

Lemma sanitize_items_redacts l :
  Forall (redacts protected) l →
  ∃ l', sanitize_items protected l = Ok l' ∧ existsb (contains_protected protected) l' = false
        ∧ forallb json_wf l' = true.
Proof using Type.
  induction 1 as [|x l (x' & Hx & Hc & Hw) _ (l' & Hl & Hcl & Hwl)]; [by exists []|].
  exists (x' :: l'). cbn [sanitize_items]. rewrite Hx. cbn [mbind res_bind]. rewrite Hl. simpl.
  by rewrite Hc, Hw.
Qed.

Lemma sanitize_fields_redacts d used :
  Forall (λ kv, redacts protected kv.2) d →
  ∃ d', sanitize_fields protected used d = Ok d' ∧ length d' = length d ∧
    NoDup (dict_keys d') ∧ (∀ k, k ∈ dict_keys d' → k ∉ used) ∧
    ∀ k v, (k, v) ∈ d' → text_has_secret protected k = false
                          ∧ contains_protected protected v = false ∧ json_wf v = true.
Proof using Hred.
  intros HF. revert used. induction HF as [|[key x] d (x' & Hx & Hc & Hw) _ IH]; intros used.
  { exists []. repeat split; [constructor|by intros k ?%elem_of_nil|..]; by apply elem_of_nil in H. }
  destruct (allocate_dict_key_ok (redact_text key protected) used) as (k & Hk & Hfree & Hform).
  destruct (IH (k :: used)) as (d' & Hd & Hl & Hnd & Hfr & Hall).
  exists ((k, x') :: d'). cbn [sanitize_fields snd] in *.
  rewrite Hk. cbn [mbind res_bind]. rewrite Hx. cbn [mbind res_bind]. rewrite Hd. cbn [mbind res_bind].
  split; [done|]. split; [simpl; by rewrite Hl|]. split; [|split].
  - constructor; [|done]. intros Hin%Hfr. apply Hin. left.
  - intros k' [->|Hin]%elem_of_cons; [done|]. apply Hfr in Hin. intros ?. apply Hin. by right.
  - intros k' v' [[= -> ->]|Hin]%elem_of_cons; [|by apply Hall]. split; [|done].
    destruct Hform as [->|[m ->]]; [apply redact_text_safe|]. apply text_has_secret_false.
    intros s Hs _. apply numbered_key_no_infix; [auto|]. apply redact_text_no_infix; auto.
Qed.

Lemma sanitize_redacts v : redacts protected v.
Proof using Hred.
  induction v as [| | | |s|l Hl|d Hd] using json_deep_ind; try by eexists.
  - eexists. split; [done|]. split; [apply redact_text_safe|done].
  - destruct (sanitize_items_redacts l Hl) as (l' & Hs & Hc & Hw).
    exists (JArr l'). by rewrite sanitize_arr, Hs.
  - destruct (sanitize_fields_redacts d [] Hd) as (d' & Hs & _ & Hnd & _ & Hall).
    exists (JObj d'). rewrite sanitize_obj, Hs. split; [done|].
    split; [apply contains_obj; intros k v Hin; by destruct (Hall k v Hin) as (?&?&_)|].
    apply json_wf_obj. split; [done|]. intros k v Hin. by destruct (Hall k v Hin) as (_&_&?).
Qed.
End redactable.

Lemma sanitize_fields_clean protected d used :
  Forall (λ kv, sanitize protected kv.2 = Ok kv.2) d →
  (∀ k v, (k, v) ∈ d → text_has_secret protected k = false) →
  NoDup (dict_keys d) → (∀ k, k ∈ dict_keys d → k ∉ used) →
  sanitize_fields protected used d = Ok d.
Proof.
  intros HF. revert used. induction HF as [|[key x] d Hx _ IH]; intros used Hk Hnd Hfr; [done|].
  cbn [sanitize_fields snd] in *. rewrite redact_text_clean by (apply (Hk key x); left).
  unfold allocate_dict_key. rewrite bool_decide_eq_false_2 by (apply Hfr; left).
  cbn [mbind res_bind]. rewrite Hx. cbn [mbind res_bind].
  apply NoDup_cons in Hnd as [Hn Hnd].
  rewrite IH; [done| |done|].
  - intros k v Hin. apply (Hk k v). by right.
  - intros k Hin [->|Hu]%elem_of_cons; [done|]. apply (Hfr k); [by right|done].
Qed.

Lemma sanitize_clean protected v :
  contains_protected protected v = false → json_wf v = true → sanitize protected v = Ok v.
Proof.
  induction v as [| | | |s|l Hl|d Hd] using json_deep_ind; intros Hc Hw; try done.
  - cbn [sanitize contains_protected] in *. by rewrite redact_text_clean.
  - rewrite sanitize_arr. assert (sanitize_items protected l = Ok l) as ->; [|done].
    cbn [contains_protected json_wf] in Hc, Hw.
    induction Hl as [|x l Hx Hl IH]; [done|]. simpl in Hc, Hw. inv_res. cbn [sanitize_items].
    rewrite Hx by done. cbn [mbind res_bind]. by rewrite IH.
  - rewrite contains_obj in Hc. apply json_wf_obj in Hw as [Hnd Hw].
    rewrite sanitize_obj, sanitize_fields_clean; [done| |by intros k v [??]%Hc|done|by intros ?? ?%elem_of_nil].
    rewrite Forall_forall in *. intros [k v] Hin. apply (Hd (k, v)); [done|..]; [by apply (Hc k v)|by apply (Hw k v)].
Qed.

(** C37: nothing persisted holds a secret.  If no protected plaintext can be
    formed by the redaction itself (it has no bracket and no [#], is no part of
    the marker and no number), then sanitizing any JSON value succeeds, the
    result holds none of the protected plaintexts in any string or key, and
    sanitizing it again changes nothing. *)
Theorem sanitize_leaves_no_secret value protected :
  (∀ s, s ∈ protected → redactable s = true) → protected ≠ [] →
  ∃ value', sanitize_for_persistence value protected = Ok value' ∧
    contains_protected_plaintext value' protected = false ∧
    sanitize_for_persistence value' protected = Ok value'.
Proof.
  intros Hred Hne. destruct (sanitize_redacts protected Hred value) as (v' & Hs & Hc & Hw).
  exists v'. unfold sanitize_for_persistence, contains_protected_plaintext.
  destruct protected; [done|]. split; [done|]. split; [done|]. by apply sanitize_clean.
Qed.

(** Redaction is exact: a well-formed JSON value without a protected
    plaintext is persisted as it is, keys and their order included. *)
Theorem sanitize_clean_unchanged value protected :
  json_wf value = true → contains_protected_plaintext value protected = false →
  sanitize_for_persistence value protected = Ok value.
Proof.
  intros Hw Hc. unfold sanitize_for_persistence, contains_protected_plaintext in *.
  destruct protected; [done|]. by apply sanitize_clean.
Qed.

(** Without the hypothesis the result can hold a plaintext: the suffix of a
    colliding key forms the secret ["2"]. *)
Example collision_suffix_forms_secret :
  sanitize_for_persistence (JObj [("a2", JNull); ("a[REDACTED]", JNull)]) ["2"]
  = Ok (JObj [("a[REDACTED]", JNull); ("a[REDACTED]#2", JNull)]).
Proof. reflexivity. Qed.

(** * Secrets of one call ([execution/secret_materialize.py], [mcp/auth_headers.py])

    The plaintext arguments and headers a call is made with, and the plaintexts
    that must not be persisted.  The secret store is a parameter, a function
    from ids to what it resolves to. *)

(** [ResolvedSecret] ([core/secrets.py]) *)
Record resolved_secret := ResolvedSecret { rs_kind : string; rs_material : dict string }.

Definition SECRET_API_KEY : string := "API_KEY".
Definition SECRET_OAUTH_TOKEN_SET : string := "OAUTH_TOKEN_SET".
Definition SECRET_BASIC_AUTH : string := "BASIC_AUTH".
(** [isinstance(value, str) and value] *)
Definition nonempty_material (key : string) (s : resolved_secret) : option string :=
  match dict_get key (rs_material s) with Some v => if str_empty v then None else Some v | None => None end.

(** ** Arguments *)
Definition secret_unavailable (message : string) : py_error := AppError "SECRET_UNAVAILABLE" message 409.

(** [uuid.UUID(str(raw))]; the text of anything but a string or an integer is no UUID. *)
Definition argument_secret_id (raw : json) : res uuid :=
  of_option (precondition_failed "SECRET_REF resolved_input entry has an invalid secret_id.")
    (match raw with JStr s => uuid_parse s | JInt n => uuid_parse (Z_str n) | _ => None end).

Definition extract_tool_argument_material (resolved : option resolved_secret) : res string :=
  resolved ← of_option (secret_unavailable "Secret material is unavailable; remote call is fail-closed.") resolved;
  _ ← raise_if (negb (String.eqb (rs_kind resolved) SECRET_API_KEY))
        (AppError "SECRET_KIND_UNSUPPORTED" "Only API_KEY secrets are supported as Tool argument material." 409);
  of_option (secret_unavailable "API_KEY secret payload is malformed; remote call is fail-closed.")
    (nonempty_material "value" resolved).

(** ** Headers *)
Definition MCP_AUTH_TYPES : list string :=
  ["NONE"; "BEARER"; "API_KEY_HEADER"; "BASIC"; "OAUTH2"; "CUSTOM_HEADERS"; "STDIO_ENV"].
Definition auth_unsupported (message : string) : py_error := AppError "MCP_AUTH_UNSUPPORTED" message 409.
Definition auth_unavailable (message : string) : py_error := AppError "MCP_AUTH_SECRET_UNAVAILABLE" message 409.

Definition bearer_token (resolved : option resolved_secret) : res string :=
  resolved ← of_option (auth_unavailable "BEARER auth requires a resolved secret.") resolved;
  of_option (auth_unavailable "BEARER auth requires API_KEY.value or OAUTH_TOKEN_SET.access_token.")
    (if String.eqb (rs_kind resolved) SECRET_API_KEY then nonempty_material "value" resolved
     else if String.eqb (rs_kind resolved) SECRET_OAUTH_TOKEN_SET then nonempty_material "access_token" resolved
     else None).

(** [base64.b64encode] *)
Definition base64_char (n : N) : ascii :=
  ascii_of_N (if n <? 26 then 65 + n else if n <? 52 then 71 + n else if n <? 62 then n - 4 else if n =? 62 then 43 else 47)%N.
Fixpoint base64 (bs : list N) : string :=
  match bs with
  | a :: b :: c :: bs =>
      String (base64_char (a / 4)) (String (base64_char (a mod 4 * 16 + b / 16))
        (String (base64_char (b mod 16 * 4 + c / 64)) (String (base64_char (c mod 64)) (base64 bs))))
  | [a; b] => String (base64_char (a / 4)) (String (base64_char (a mod 4 * 16 + b / 16))
                (String (base64_char (b mod 16 * 4)) "="))
  | [a] => String (base64_char (a / 4)) (String (base64_char (a mod 4 * 16)) "==")
  | [] => ""
  end%N.
Example base64_pad : base64 (utf8_encode "user:pw") = "dXNlcjpwdw==".
Proof. vm_compute. reflexivity. Qed.

Definition build_mcp_auth_headers (auth_type : string) (resolved : option resolved_secret) : res (dict string) :=
  _ ← raise_if (negb (bool_decide (auth_type ∈ MCP_AUTH_TYPES))) (auth_unsupported "Unsupported MCP auth_type.");
  if String.eqb auth_type "NONE" then Ok []
  else if String.eqb auth_type "BEARER" then
    token ← bearer_token resolved; Ok [("Authorization", "Bearer " +:+ token)]
  else if String.eqb auth_type "BASIC" then
    let required := auth_unavailable "BASIC auth requires BASIC_AUTH secret." in
    resolved ← of_option required resolved;
    _ ← raise_if (negb (String.eqb (rs_kind resolved) SECRET_BASIC_AUTH)) required;
    username ← dict_item "username" (rs_material resolved);
    password ← dict_item "password" (rs_material resolved);
    Ok [("Authorization", "Basic " +:+ base64 (utf8_encode (username +:+ ":" +:+ password)))]
  else Err (auth_unsupported "MCP auth_type {kind.value} is not supported by Tool Runner slice.").

(** [_auth_material_plaintexts] ([execution/tool_runner.py]) *)
Definition auth_material_plaintexts (resolved : option resolved_secret) : list string :=
  match resolved with
  | None => []
  | Some s =>
      let key := if String.eqb (rs_kind s) SECRET_API_KEY then Some "value"
                 else if String.eqb (rs_kind s) SECRET_OAUTH_TOKEN_SET then Some "access_token"
                 else if String.eqb (rs_kind s) SECRET_BASIC_AUTH then Some "password" else None in
      match key with Some key => option_list (nonempty_material key s) | None => [] end
  end.

Section resolve.
(** [secret_resolver.resolve] *)
Context (resolve_secret : uuid → res (option resolved_secret)).

Definition materialize_argument (value : json) : res json :=
  if secret_ref_shaped value then
    match value with
    | JObj d =>
        secret_id ← argument_secret_id (get_or_none "secret_id" d);
        resolved ← resolve_secret secret_id;
        material ← extract_tool_argument_material resolved;
        Ok (JStr material)
    | _ => Ok value
    end
  else Ok value.
Definition materialize_tool_arguments (resolved_input : dict json) : res (dict json) :=
  res_map (λ kv : string * json, v ← materialize_argument kv.2; Ok (kv.1, v)) resolved_input.

(** The plaintexts of the references among the arguments *)
Definition secret_argument_values (resolved_input arguments : dict json) : list string :=
  kv ← resolved_input;
  if secret_ref_shaped kv.2 then
    match dict_get kv.1 arguments with
    | Some (JStr s) => if str_empty s then [] else [s]
    | _ => []
    end
  else [].
End resolve.
