(* ===== verification/MrtrWait.v ===== *)
(** * Durable waits for user input

    [repositories/mcp_input_request.py], [execution/mrtr_wait.py] and the
    evidence a resumed call starts from ([execution/tool_runner.py]).  A wait is
    an OPEN request whose round is the number of completed calls of the STARTED
    attempt. *)
From S2P Require Import Prelude PyStr PyDict Json PyUuid CanonicalHash Domain Rows Cancellation PolicySelection.
From S2P Require Import ToolLineage Claim.

Definition MAX_MRTR_ROUNDS : Z := 8.
Definition ERA_CURRENT : string := "CURRENT".

(** ** [MCPInputRequestRepository] *)
Definition get_input (id : uuid) (st : store) : option mcp_input_request :=
  find_first (λ r, bool_decide (ir_id r = id)) (st_inputs st).
(** [order_by(round_no.asc(), id.asc())] *)
Definition input_order (a b : mcp_input_request) : bool :=
  (ir_round_no a <? ir_round_no b)%Z || (ir_round_no a =? ir_round_no b)%Z && (ir_id a <=? ir_id b)%N.
Definition list_for_step (execution_id step_id : uuid) (st : store) : list mcp_input_request :=
  sort_by input_order (filter (λ r, ir_execution_id r = execution_id ∧ ir_step_execution_id r = step_id) (st_inputs st)).
Definition list_open_for_step (execution_id step_id : uuid) (st : store) : list mcp_input_request :=
  sort_by input_order
    (filter (λ r, ir_execution_id r = execution_id ∧ ir_step_execution_id r = step_id ∧ ir_status r = InputStatus.OPEN)
       (st_inputs st)).
Definition find_open_for_step (execution_id step_id : uuid) (st : store) : option mcp_input_request :=
  match list_open_for_step execution_id step_id st with [row] => Some row | _ => None end.

(** [create]; the flush checks the key. *)
Definition create_input (row : mcp_input_request) (st : store) : res store :=
  _ ← raise_if (existsb (λ r, bool_decide (ir_id r = ir_id row)) (st_inputs st)) (PyException "IntegrityError");
  Ok (set_st_inputs (st_inputs st ++ [row]) st).
Definition new_input (id execution_id step_id attempt_id : uuid) (input_requests : dict json) (request_state : json)
    (round_no : Z) (status : input_status) (requested_at expires_at : Z) : mcp_input_request :=
  {| ir_id := id; ir_execution_id := execution_id; ir_step_execution_id := step_id; ir_step_attempt_id := attempt_id;
     ir_protocol_era := ERA_CURRENT; ir_input_requests := JObj input_requests; ir_request_state := request_state;
     ir_round_no := round_no; ir_status := status; ir_response_payload := JNull; ir_requested_at := requested_at;
     ir_expires_at := expires_at; ir_answered_at := None; ir_answered_by := None |}.

Definition call_succeeded (c : tool_call) : bool := bool_decide (cl_normalized_status c = AttemptStatus.SUCCEEDED).
(** Every call of the attempt is a completed round, [round_no] of them *)
Definition rounds_match (calls : list tool_call) (round_no : Z) : bool :=
  forallb call_succeeded calls && (Z.of_nat (length (filter (λ c, call_succeeded c = true) calls)) =? round_no)%Z.

Section wait.
Context {schema : PlanSchema} {parser : PlanParser}.

(** ** [assert_durable_waiting_input] *)
(** The one OPEN request *)
Definition open_request (e : execution) (s : execution_step) (st : store) : res mcp_input_request :=
  match list_open_for_step (ex_id e) (es_id s) st with
  | [] => Err (conflict "WAITING_INPUT is missing OPEN MCPInputRequest evidence.")
  | [request] =>
      _ ← raise_if (negb (bool_decide (ir_execution_id request = ex_id e))
                    || negb (bool_decide (ir_step_execution_id request = es_id s))
                    || negb (bool_decide (ir_status request = InputStatus.OPEN))
                    || negb (String.eqb (ir_protocol_era request) ERA_CURRENT) || (ir_round_no request <? 1)%Z)
            (conflict "OPEN MCPInputRequest lineage is inconsistent.");
      Ok request
  | _ => Err (conflict "WAITING_INPUT has multiple OPEN MCPInputRequest rows.")
  end.
(** The one STARTED attempt *)
Definition waiting_attempt (e : execution) (s : execution_step) (request : mcp_input_request) (st : store) : res step_attempt :=
  match filter (λ a, sa_status a = AttemptStatus.STARTED) (list_attempts (es_id s) st) with
  | [attempt] =>
      _ ← raise_if (negb (bool_decide (sa_id attempt = ir_step_attempt_id request)))
            (conflict "OPEN MCPInputRequest does not reference the STARTED Attempt.");
      _ ← raise_if (is_some (sa_worker_id attempt) || is_some (sa_lease_expires_at attempt) || is_some (sa_finished_at attempt))
            (conflict "WAITING_INPUT Attempt must clear worker/lease and stay unfinished.");
      _ ← assert_resume_attempt_lineage e s attempt (list_steps st) None;
      _ ← raise_if (negb (sa_attempt_no attempt =? es_attempt_count s)%Z)
            (conflict "STARTED Attempt attempt_no does not match Step.attempt_count.");
      Ok attempt
  | _ => Err (conflict "WAITING_INPUT requires exactly one STARTED Attempt.")
  end.

Definition assert_durable_waiting_input (st : store) (s : execution_step) : res mcp_input_request :=
  let e := st_execution st in
  _ ← raise_if (negb (bool_decide (ex_status e = ExecutionStatus.WAITING_INPUT))) (conflict "Execution is not WAITING_INPUT.");
  _ ← raise_if (negb (bool_decide (es_status s = StepStatus.WAITING_INPUT))) (conflict "Step is not WAITING_INPUT.");
  _ ← raise_if (negb (bool_decide (es_execution_id s = ex_id e))) (conflict "Step lineage does not match Execution.");
  _ ← raise_if (owns_lease e) (conflict "WAITING_INPUT Execution must not retain worker lease fields.");
  request ← open_request e s st;
  attempt ← waiting_attempt e s request st;
  let tool_calls := list_tool_calls (sa_id attempt) st in
  _ ← raise_if (existsb call_started tool_calls) (conflict "WAITING_INPUT must not retain a STARTED ToolCall.");
  _ ← raise_if (negb (existsb call_succeeded tool_calls)) (conflict "WAITING_INPUT requires SUCCEEDED ToolCall round evidence.");
  _ ← raise_if (negb (rounds_match tool_calls (ir_round_no request)))
        (conflict "WAITING_INPUT ToolCall evidence does not match round_no.");
  Ok request.
End wait.

(** ** [_load_answered_mrtr_resume] *)
(** The answer a call is resumed with *)
Record mrtr_resume := MrtrResume {
  mr_input_request_id : uuid;
  mr_responses : dict json;
  mr_request_state : json }.

(** [response_payload] of an answered row of the attempt, unless it is empty *)
Definition answered_payload (attempt_id : uuid) (r : mcp_input_request) : option (dict json) :=
  if bool_decide (ir_status r = InputStatus.ANSWERED) && bool_decide (ir_step_attempt_id r = attempt_id)
  then match ir_response_payload r with JObj [] => None | JObj payload => Some payload | _ => None end
  else None.
(** [key=lambda r: (r.round_no, r.answered_at or r.requested_at)], and the last row *)
Definition answered_order (a b : mcp_input_request) : bool :=
  let at_ r := default (ir_requested_at r) (ir_answered_at r) in
  (ir_round_no a <? ir_round_no b)%Z || (ir_round_no a =? ir_round_no b)%Z && (at_ a <=? at_ b)%Z.

Definition load_answered_mrtr_resume (e : execution) (s : execution_step) (attempt : step_attempt) (st : store)
    : res (option mrtr_resume) :=
  _ ← raise_if (negb (is_nil (list_open_for_step (ex_id e) (es_id s) st)))
        (conflict "Cannot resume MRTR while an OPEN MCPInputRequest exists.");
  let answered := filter (λ r, is_some (answered_payload (sa_id attempt) r) = true) (list_for_step (ex_id e) (es_id s) st) in
  match last (sort_by answered_order answered) with
  | None => Ok None
  | Some request =>
      let tool_calls := list_tool_calls (sa_id attempt) st in
      _ ← raise_if (existsb call_started tool_calls) (conflict "MRTR resume must not retain a STARTED ToolCall.");
      _ ← raise_if (negb (rounds_match tool_calls (ir_round_no request)))
            (conflict "MRTR resume ToolCall evidence does not match ANSWERED round_no.");
      Ok (Some (MrtrResume (ir_id request) (default [] (answered_payload (sa_id attempt) request)) (ir_request_state request)))
  end.
