(* ===== verification/ToolAttempt.v ===== *)
(** * Starting an attempt of a TOOL step ([execution/tool_step_attempt.py])

    READY to RUNNING with a STARTED attempt, or READY to WAITING_APPROVAL.  The
    caller may catch the exception and commit, so a run ends with the rows it
    has assigned so far and a result or an exception.  The row locks make it a
    function of the rows; [uuid4] values are arguments. *)
From S2P Require Import Prelude PyStr PyDict Json PyUuid CanonicalHash Domain LoopRuntime BindingResolver Rows.
From S2P Require Import PolicySelection RetryDecision ToolLineage Claim Preflight ApprovalEvidence Approval.
From S2P Require Import ResultValidator.

Record tool_step_attempt_outcome := ToolStepAttemptOutcome {
  to_execution_id : uuid;
  to_step_execution_id : uuid;
  to_attempt_id : uuid;
  to_attempt_no : Z;
  to_step_status : step_status;
  to_attempt_status : attempt_status;
  to_replayed : bool }.

Inductive start_result :=
| AttemptStarted (outcome : tool_step_attempt_outcome)
| ApprovalWait (outcome : approval_wait_outcome).

Definition build_attempt_idempotency_key (execution_id step_execution_id : uuid) (attempt_no : Z) : string :=
  "execution:" +:+ uuid_str execution_id +:+ ":step:" +:+ uuid_str step_execution_id +:+ ":attempt:" +:+ Z_str attempt_no.

Definition row_not_found (message : string) : py_error := AppError "NOT_FOUND" message 404.

(** [list_attempts] and [create_attempt] of [repositories/execution.py]; the
    flush checks the key and the uniqueness of (step, attempt number). *)
Definition create_attempt (row : step_attempt) (st : store) : res store :=
  _ ← raise_if (existsb (λ a, bool_decide (sa_id a = sa_id row)
                 || bool_decide (sa_step_execution_id a = sa_step_execution_id row) && (sa_attempt_no a =? sa_attempt_no row)%Z)
                 (st_attempts st)) (PyException "IntegrityError");
  Ok (set_st_attempts (st_attempts st ++ [row]) st).
Definition new_attempt (id step_id : uuid) (attempt_no : Z) (worker : string) (lease_expires_at : option Z)
    (idempotency_key : string) (request_snapshot : json) (started_at : Z) : step_attempt :=
  {| sa_id := id; sa_step_execution_id := step_id; sa_attempt_no := attempt_no; sa_status := AttemptStatus.STARTED;
     sa_worker_id := Some worker; sa_lease_expires_at := lease_expires_at; sa_idempotency_key := idempotency_key;
     sa_request_snapshot := request_snapshot; sa_result_inline := JNull; sa_error_layer := None; sa_error_code := None;
     sa_error_message := None; sa_is_retryable := None; sa_started_at := started_at; sa_finished_at := None |}.

(** ** The lease *)
(** The source branches of [_assert_execution_lease] *)
Definition assert_attempt_source (e : execution) : res unit :=
  let inconsistent := conflict "{execution.source_type} Attempt source lineage is inconsistent." in
  if String.eqb (ex_source_type e) WORKFLOW_VERSION then
    raise_if (negb (is_some (ex_workflow_version_id e)) || is_some (ex_agent_version_id e) || is_some (ex_agent_request_id e))
      inconsistent
  else if String.eqb (ex_source_type e) SCHEDULE_OCCURRENCE then
    raise_if (negb (is_workflow_schedule_occurrence e || is_agent_schedule_occurrence e))
      (conflict "SCHEDULE_OCCURRENCE Attempt source lineage is inconsistent.")
  else if String.eqb (ex_source_type e) MANUAL_TOOL_TEST then
    raise_if (is_some (ex_agent_version_id e) || is_some (ex_agent_request_id e) || is_some (ex_workflow_version_id e)
              || is_some (ex_schedule_occurrence_id e))
      (conflict "MANUAL_TOOL_TEST Attempt source lineage is inconsistent.")
  else raise_if (negb (is_some (ex_agent_version_id e))) (conflict "Execution.agent_version_id is required.").

Definition assert_execution_lease (e : execution) (worker : string) (lease_token : uuid) (now : Z) : res unit :=
  _ ← raise_if (negb (bool_decide (ex_status e = ExecutionStatus.RUNNING)))
        (conflict "Execution must be RUNNING to start a TOOL Step Attempt.");
  _ ← raise_if (negb (bool_decide (ex_source_type e ∈ LINEAGE_SOURCES)))
        (conflict ("Attempt foundation supports AGENT_REQUEST / MANUAL_TOOL_TEST / WORKFLOW_VERSION / "
           +:+ "SCHEDULE_OCCURRENCE Executions only."));
  _ ← assert_attempt_source e;
  _ ← raise_if (negb (bool_decide (ex_worker_id e = Some worker)) || negb (bool_decide (ex_lease_token e = Some lease_token))
                || negb (is_some (ex_lease_expires_at e))) (conflict "Execution worker/lease mismatch.");
  raise_if (match ex_lease_expires_at e with Some t => (t <=? now)%Z | None => false end)
    (conflict "Execution lease has expired.").

(** [_replay_started] *)
Definition replay_started (e : execution) (s : execution_step) (worker : string) (st : store) : res start_result :=
  attempt ← of_option (conflict "RUNNING Step has no STARTED Attempt.") (get_started_attempt (es_id s) st);
  _ ← raise_if (negb (bool_decide (sa_worker_id attempt = Some worker))) (conflict "RUNNING Step Attempt worker mismatch.");
  Ok (AttemptStarted (ToolStepAttemptOutcome (ex_id e) (es_id s) (sa_id attempt) (sa_attempt_no attempt) (es_status s)
        (sa_status attempt) true)).

(** ** The handoff between the two tools of an agent's plan
    ([assert_usable_sequential_handoff_values], [agent/sequential_readonly_pair.py]) *)
Definition DETERMINISTIC_TOOL_STEP_ID_2 : string := "tool_2".
Definition assert_usable_handoff_value (resolved_input : dict json) (name : string) : res unit :=
  value ← of_option (precondition_failed "순차 pair tool_2 handoff {name!r}가 해석되지 않아 상세 조회를 시작하지 않습니다.")
            (dict_get name resolved_input);
  let empty := precondition_failed "순차 pair tool_2 handoff {name!r}가 비어 있어 상세 조회를 시작하지 않습니다." in
  match value with
  | JNull => Err (precondition_failed "순차 pair tool_2 handoff {name!r}가 null이라 상세 조회를 시작하지 않습니다.")
  | JStr v => raise_if (blank v) empty
  | JArr [] | JObj [] => Err empty
  | _ => Ok tt
  end.
Definition assert_usable_sequential_handoff_values (resolved_input : dict json) (handoff_params : list string) : res unit :=
  res_iter (assert_usable_handoff_value resolved_input) handoff_params.

Definition is_step_output (b : plan_binding) : bool := match b with PlanStepOutputBinding _ _ => true | _ => false end.

Section attempt.
Context {schema : PlanSchema} {parser : PlanParser} {validator : SchemaValidator}.

(** Lineage, current authorization and confirmation *)
Definition start_authorization (c : catalog) (e : execution) (s : execution_step) (steps : list execution_step)
    : res (tool_step_lineage * runtime_tool_authorization) :=
  lineage ← assert_tool_step_lineage e s (Some steps);
  authz ← authorize_pinned c e (ps_id (tl_plan_step lineage)) (tl_tool_version_id lineage) (plan_timeout_seconds s);
  if au_confirmation_required authz then
    _ ← raise_if (bool_decide (ex_source_type e ∈ [WORKFLOW_VERSION; SCHEDULE_OCCURRENCE]))
          (AppError "WORKFLOW_CONFIRMATION_UNSUPPORTED"
             "Workflow ToolPolicy requires_confirmation is not supported at Attempt time." 409);
    _ ← raise_if (binding_kinds_include_dynamic (tl_bindings lineage))
          (precondition_failed ("PLAN_CONFIRMATION with dynamic Plan bindings "
             +:+ "(PLAN_INPUT/STEP_OUTPUT/EXECUTION_CONTEXT/LOOP_CONTEXT) is not supported in this slice."));
    _ ← assert_confirmation_evidence c e (au_policy_snapshot authz);
    Ok (lineage, authz)
  else Ok (lineage, authz).

(** The input the bindings give today *)
Definition start_input (e : execution) (s : execution_step) (steps : list execution_step) (lineage : tool_step_lineage)
    : res (dict json) :=
  resolved_input ← resolve e s steps (tl_bindings lineage) (tl_plan lineage);
  _ ← (if String.eqb (ex_source_type e) AGENT_REQUEST && String.eqb (es_step_key s) DETERMINISTIC_TOOL_STEP_ID_2
          && (length (pl_steps (tl_plan lineage)) =? 2)%nat
       then assert_usable_sequential_handoff_values resolved_input
              (filter (λ kb : string * plan_binding, is_step_output kb.2 = true) (tl_bindings lineage)).*1
       else Ok tt);
  _ ← raise_if (negb (is_none (es_resolved_input s)) && negb (py_eq (es_resolved_input s) (JObj resolved_input)))
        (conflict "Deterministic Binding resolution drifted from pinned Step.resolved_input.");
  Ok resolved_input.

(** The ToolPolicy approval before an attempt: [Some] wait, or [None] to go on *)
Definition start_approval (c : catalog) (new_request_id : uuid) (authz : runtime_tool_authorization)
    (lineage : tool_step_lineage) (resolved_input : dict json) (forbid_new_approval_wait : bool)
    (s : execution_step) (ts : Z) (st : store) : res (option (store * approval_wait_outcome)) :=
  let e := st_execution st in
  if mp_requires_approval (au_tool_policy authz) then
    ap ← of_option (precondition_failed "requires_approval인데 ApprovalPolicy 없음.") (au_approval_policy authz);
    tool_config ← (if tl_agent_request_static_only lineage
                   then cfg ← assert_agent_request_plan_step_lineage e s (Some (list_steps st)); Ok (Some cfg)
                   else Ok None);
    evidence ← find_valid_approved_evidence c st s (au_tool_policy authz) ap;
    match evidence with
    | Some _ => Ok None
    | None =>
        _ ← raise_if forbid_new_approval_wait
              (AppError "DAG_WAIT_UNSUPPORTED" ("Multi-Step TOOL/JOIN DAG cannot create Execution-level WAITING_APPROVAL; "
                 +:+ "branch-local suspension is out of scope for this runtime slice.") 409);
        r ← enter_for_tool_step new_request_id tool_config (au_tool_policy authz) ap (Some resolved_input) ts s st;
        Ok (Some r)
    end
  else Ok None.

(** The assignments to the step *)
Definition running_step (attempt_no : Z) (resolved_input : dict json) (ts : Z) (s : execution_step) : execution_step :=
  s |> set_es_status StepStatus.RUNNING |> set_es_started_at (match es_started_at s with Some t => Some t | None => Some ts end)
    |> set_es_attempt_count attempt_no |> set_es_resolved_input (JObj resolved_input) |> bump_step.

(** The attempt itself.  The rows assigned before the flush fails are rolled
    back with it: an integrity error is no [AppError]. *)
Definition start_attempt (new_attempt_id : uuid) (worker : string) (lineage : tool_step_lineage)
    (resolved_input : dict json) (s : execution_step) (ts : Z) (st : store) : res (store * start_result) :=
  let e := st_execution st in
  let next_attempt_no := (es_attempt_count s + 1)%Z in
  _ ← raise_if (next_attempt_no <? 1)%Z (conflict "attempt_count invariant broken.");
  request_snapshot ← build_secret_safe_request_snapshot (tl_tool_version_id lineage) (es_step_key s) (tl_bindings lineage)
                       (JObj resolved_input);
  let attempt := new_attempt new_attempt_id (es_id s) next_attempt_no worker (ex_lease_expires_at e)
                   (build_attempt_idempotency_key (ex_id e) (es_id s) next_attempt_no) request_snapshot ts in
  st ← st |> upd_step (es_id s) (running_step next_attempt_no resolved_input ts) |> emit_of_step ts s
          |> create_attempt attempt;
  Ok (st, AttemptStarted (ToolStepAttemptOutcome (ex_id e) (es_id s) new_attempt_id next_attempt_no StepStatus.RUNNING
            AttemptStatus.STARTED false)).

(** After the input is pinned *)
Definition start_pinned (c : catalog) (new_attempt_id new_request_id : uuid) (worker : string)
    (authz : runtime_tool_authorization) (lineage : tool_step_lineage) (resolved_input : dict json)
    (forbid_new_approval_wait : bool) (s : execution_step) (ts : Z) (st : store) : res (store * start_result) :=
  tool_version ← of_option (precondition_failed "ToolVersion not found for resolved-input schema validation.")
                   (get_tool_version c (tl_tool_version_id lineage));
  _ ← validate_resolved_tool_arguments (tv_input_schema tool_version) resolved_input;
  wait ← start_approval c new_request_id authz lineage resolved_input forbid_new_approval_wait s ts st;
  match wait with
  | Some r => Ok (r.1, ApprovalWait r.2)
  | None => start_attempt new_attempt_id worker lineage resolved_input s ts st
  end.

(** [step.resolved_input = resolved_input] where it is unset *)
Definition pin_input (resolved_input : dict json) (s : execution_step) : execution_step :=
  if is_none (es_resolved_input s) then set_es_resolved_input (JObj resolved_input) s else s.

(** The rows the checks before the pinning read *)
Definition start_locked (execution_id step_id : uuid) (st : store) : res execution_step :=
  _ ← raise_if (negb (bool_decide (ex_id (st_execution st) = execution_id))) (row_not_found "Execution not found.");
  s ← of_option (row_not_found "ExecutionStep not found.") (get_step step_id st);
  _ ← raise_if (negb (bool_decide (es_execution_id s = ex_id (st_execution st)))) (conflict "Step does not belong to Execution.");
  Ok s.
(** A READY step up to the resolved input *)
Definition start_checked (c : catalog) (s : execution_step) (st : store)
    : res (tool_step_lineage * runtime_tool_authorization * dict json) :=
  let e := st_execution st in
  _ ← raise_if (negb (bool_decide (es_status s = StepStatus.READY)))
        (conflict "TOOL Step must be READY to start an Attempt (got {step.status}).");
  la ← start_authorization c e s (list_steps st);
  resolved_input ← start_input e s (list_steps st) la.1;
  Ok (la.1, la.2, resolved_input).

Definition start (c : catalog) (new_attempt_id new_request_id execution_id step_id : uuid) (worker_id : string)
    (lease_token : uuid) (ts : Z) (forbid_new_approval_wait : bool) (st : store) : store * res start_result :=
  let unchanged (r : res start_result) := (st, r) in
  match (worker ← normalize_worker_id worker_id; s ← start_locked execution_id step_id st; Ok (worker, s)) with
  | Err err => unchanged (Err err)
  | Ok (worker, s) =>
      let e := st_execution st in
      if execution_waiting e || step_waiting s then unchanged (o ← reuse_pending st s; Ok (ApprovalWait o))
      else match assert_execution_lease e worker lease_token ts with
      | Err err => unchanged (Err err)
      | Ok _ =>
          if bool_decide (es_status s = StepStatus.RUNNING) then unchanged (replay_started e s worker st)
          else match start_checked c s st with
          | Err err => unchanged (Err err)
          | Ok (lineage, authz, resolved_input) =>
              let st := upd_step (es_id s) (pin_input resolved_input) st in
              match start_pinned c new_attempt_id new_request_id worker authz lineage resolved_input
                      forbid_new_approval_wait (pin_input resolved_input s) ts st with
              | Ok (st', r) => (st', Ok r)
              | Err err => (st, Err err)
              end
          end
      end
  end.
End attempt.
