(* ===== verification/ToolRunner.v ===== *)
(** * Settling one tool call ([execution/tool_runner.py])

    What a call ends with for its rows: the classification of its error or the
    validation of its result, the terminal transition, the retry checkpoint and
    the fatal ending of the execution.  ToolPrepare.v and ToolFinalize.v compose
    them into the phases of the runner. *)
From S2P Require Import Prelude PyStr PyDict Json PyUuid CanonicalHash Domain Rows Cancellation PolicySelection.
From S2P Require Import RetryDecision Preflight ResultValidator SecretRedaction.

Module Disposition.
Inductive disposition := SUCCESS | KNOWN_STEP_FAILURE | FATAL_EXECUTION_FAILURE | WAIT | RETRY | NOOP.

#[global] Instance disposition_eq_dec : EqDecision disposition.
Proof. solve_decision. Defined.
End Disposition.
Export Disposition (disposition, disposition_eq_dec).

(** [ToolRunOutcome] *)
Record tool_run_outcome := ToolRunOutcome {
  tr_execution_id : uuid;
  tr_step_execution_id : option uuid;
  tr_attempt_id : option uuid;
  tr_tool_call_id : option uuid;
  tr_mcp_called : bool;
  tr_terminal_status : option string;
  tr_reason : string;
  tr_disposition : disposition }.

(** [_noop] *)
Definition noop (execution_id : uuid) (reason : string) (step_id : option uuid) (status : option string) : tool_run_outcome :=
  ToolRunOutcome execution_id step_id None None false status reason Disposition.NOOP.

(** [_PreparedCall] *)
Record prepared_call := PreparedCall {
  pc_execution_id : uuid;
  pc_step_id : uuid;
  pc_attempt_id : uuid;
  pc_tool_call_id : uuid;
  pc_remote_request_id : string;
  pc_mcp_server_id : uuid;
  pc_mcp_tool_version_id : uuid;
  pc_endpoint : string;
  pc_tool_name : string;
  pc_timeout_ms : Z;
  pc_policy_timeout_ms : Z;
  pc_resolved_input : dict json;
  pc_auth_type : string;
  pc_auth_secret_id : option uuid;
  pc_protocol_era : string;
  pc_transport_type : string;
  pc_risk_class : string;
  pc_output_schema : json;
  pc_max_result_bytes : Z;
  pc_worker_id : string;
  pc_lease_token : uuid;
  pc_factory_imported : bool;
  pc_mrtr : option (uuid * dict json * json);
  pc_defer : bool;
  pc_forbid_wait : bool }.

Definition STEP_TERMINAL_STATUSES : list step_status :=
  [StepStatus.SUCCEEDED; StepStatus.FAILED; StepStatus.TIMED_OUT; StepStatus.UNKNOWN_OUTCOME; StepStatus.CANCELLED;
   StepStatus.SKIPPED].
Definition step_terminal (s : execution_step) : bool := bool_decide (es_status s ∈ STEP_TERMINAL_STATUSES).

(** A terminal status of an attempt, as one of a step *)
Definition step_status_of (t : attempt_status) : step_status :=
  match t with
  | AttemptStatus.SUCCEEDED => StepStatus.SUCCEEDED | AttemptStatus.FAILED => StepStatus.FAILED
  | AttemptStatus.TIMED_OUT => StepStatus.TIMED_OUT | AttemptStatus.CANCELLED => StepStatus.CANCELLED
  | AttemptStatus.UNKNOWN_OUTCOME => StepStatus.UNKNOWN_OUTCOME | AttemptStatus.STARTED => StepStatus.RUNNING
  end.
Definition terminal_value (t : attempt_status) : string := step_status_value (step_status_of t).

(** ** The execution *)
Definition touch_execution (now : Z) (e : execution) : execution := e |> set_ex_heartbeat_at (Some now) |> bump_execution.
Definition fail_execution (error_code error_message : option string) (now : Z) (e : execution) : execution :=
  e |> set_ex_status ExecutionStatus.FAILED |> set_ex_error_code error_code |> set_ex_error_message error_message
    |> set_ex_result_summary JNull |> set_ex_finished_at (Some now) |> clear_execution_lease |> bump_execution.

(** [_apply_or_defer_execution_fatal] *)
Definition apply_or_defer_execution_fatal (error_code error_message : option string) (now : Z) (defer : bool) (st : store)
    : store :=
  if defer then upd_execution (touch_execution now) st
  else st |> upd_execution (fail_execution error_code error_message now)
          |> emit_execution_status_changed (ex_status (st_execution st)) now.

(** ** The step, the attempt and the call *)
Definition end_step (status : step_status) (error_code error_message : option string) (now : Z) (s : execution_step)
    : execution_step :=
  s |> set_es_status status |> set_es_error_code error_code |> set_es_error_message error_message
    |> set_es_finished_at (Some now) |> bump_step.
Definition end_attempt (status : attempt_status) (error_layer error_code error_message : option string) (retryable : bool)
    (now : Z) (a : step_attempt) : step_attempt :=
  a |> set_sa_status status |> set_sa_error_layer error_layer |> set_sa_error_code error_code
    |> set_sa_error_message error_message |> set_sa_is_retryable (Some retryable) |> set_sa_finished_at (Some now).
(** [attempt.worker_id = None; attempt.lease_expires_at = None] *)
Definition release_attempt (a : step_attempt) : step_attempt := a |> set_sa_worker_id None |> set_sa_lease_expires_at None.
Definition end_call (status : attempt_status) (response_meta : json) (response_bytes first_byte_at : option Z) (now : Z)
    (c : tool_call) : tool_call :=
  c |> set_cl_normalized_status status |> set_cl_response_meta response_meta |> set_cl_response_bytes response_bytes
    |> set_cl_first_byte_at first_byte_at |> set_cl_finished_at (Some now).

(** The rows of a call *)
Record call_rows := CallRows { cr_step : execution_step; cr_attempt : step_attempt; cr_call : tool_call }.
Definition upd_rows (rows : call_rows) (f : execution_step → execution_step) (g : step_attempt → step_attempt)
    (h : tool_call → tool_call) (now : Z) (st : store) : store :=
  st |> upd_call (cl_id (cr_call rows)) h |> upd_attempt (sa_id (cr_attempt rows)) g |> upd_step (es_id (cr_step rows)) f
     |> emit_of_step now (cr_step rows).
Definition run_outcome (st : store) (rows : call_rows) (called : bool) (status : string) (reason : string) (d : disposition)
    : tool_run_outcome :=
  ToolRunOutcome (ex_id (st_execution st)) (Some (es_id (cr_step rows))) (Some (sa_id (cr_attempt rows)))
    (Some (cl_id (cr_call rows))) called (Some status) reason d.

(** ** What the call ended with *)
(** [_serialize_result_inline] *)
Definition serialize_result_inline (result : normalized_tool_result) : json :=
  JObj [("content", JArr (nr_content result)); ("structured_content", nr_structured_content result);
        ("metadata", JObj (nr_metadata result));
        ("result_type", match nr_result_type result with Some t => JStr t | None => JNull end);
        ("duration_ms", JInt (nr_duration_ms result))].

Definition TOOL_ERROR_DIAGNOSTIC_OMITTED : json :=
  JObj [("diagnostic_omitted", JBool true); ("omit_reason", JStr "RESULT_INLINE_TOO_LARGE")].

(** [_tool_error_diagnostic_inline] *)
Definition tool_error_diagnostic_inline (result : normalized_tool_result) (protected : list string)
    (result_inline_max_bytes : Z) : res json :=
  let serialized := serialize_result_inline result in
  size ← utf8_json_size serialized;
  if (result_inline_max_bytes <? size)%Z then
    marker_size ← utf8_json_size TOOL_ERROR_DIAGNOSTIC_OMITTED;
    Ok (if (result_inline_max_bytes <? marker_size)%Z then JNull else TOOL_ERROR_DIAGNOSTIC_OMITTED)
  else sanitize_for_persistence serialized protected.

(** The terminal status and the error fields the rows share *)
Record settlement := Settlement {
  sm_terminal : attempt_status;
  sm_error_layer : option string;
  sm_error_code : option string;
  sm_error_message : option string;
  sm_retryable : bool;
  sm_result_inline : json;
  sm_response_bytes : option Z;
  sm_pre_send_fatal : bool }.

Definition STEP_TIMEOUT_EXCEEDED : string := "STEP_TIMEOUT_EXCEEDED".
(** A decision before the send is fatal unless it is the step's timeout. *)
Definition pre_send_fatal (exc : mcp_client_error) : bool :=
  me_pre_send exc && negb (String.eqb (me_error_code exc) STEP_TIMEOUT_EXCEEDED).
Definition settle_error (exc : mcp_client_error) (risk_class : string) (protected : list string) : settlement :=
  let terminal := if me_pre_send exc && String.eqb (me_error_code exc) STEP_TIMEOUT_EXCEEDED then AttemptStatus.TIMED_OUT
                  else classify_mcp_failure exc risk_class in
  Settlement terminal (Some (me_error_layer exc)) (Some (me_error_code exc))
    (Some (redact_text (me_message exc) protected)) (me_retryable exc) JNull None (pre_send_fatal exc).

Section settle.
Context {validator : SchemaValidator}.

Definition settle_result (result : normalized_tool_result) (output_schema : json) (factory_imported : bool)
    (protected : list string) (result_inline_max_bytes : Z) : res settlement :=
  let bytes := Some (nr_raw_size_bytes result) in
  match validate_tool_result result output_schema factory_imported with
  | ResultValid =>
      let serialized := serialize_result_inline result in
      size ← utf8_json_size serialized;
      if (result_inline_max_bytes <? size)%Z then
        Ok (Settlement AttemptStatus.FAILED (Some "PROTOCOL") (Some "RESULT_TOO_LARGE_FOR_INLINE")
              (Some "Tool result exceeds inline persistence size limit.") false JNull bytes false)
      else
        inline ← sanitize_for_persistence serialized protected;
        Ok (Settlement AttemptStatus.SUCCEEDED None None None false inline bytes false)
  | ResultInvalid code message =>
      let tool_error := String.eqb code "RESULT_TOOL_ERROR" in
      let text := redact_text message protected in
      inline ← (if tool_error then tool_error_diagnostic_inline result protected result_inline_max_bytes else Ok JNull);
      Ok (Settlement AttemptStatus.FAILED (Some (if tool_error then "TOOL" else "PROTOCOL")) (Some code)
            (if str_empty text then None else Some text) false inline bytes false)
  end.

(** What the remote end, or a decision before the send, gave *)
Inductive call_end := CallFailed (error : mcp_client_error) | CallReturned (result : normalized_tool_result).

Definition settle_call (ending : call_end) (risk_class : string) (output_schema : json) (factory_imported : bool)
    (protected : list string) (result_inline_max_bytes : Z) : res settlement :=
  match ending with
  | CallFailed exc => Ok (settle_error exc risk_class protected)
  | CallReturned result => settle_result result output_schema factory_imported protected result_inline_max_bytes
  end.

(** ** [_apply_terminal_transition] *)
Definition UNKNOWN_OUTCOME_MESSAGE : string :=
  ("MCP tool outcome is unknown after a possible external side effect;" +:+ " it is not automatically retried.").

(** The execution after the rows of the call ended *)
Definition settle_execution (sm : settlement) (now : Z) (defer : bool) (st : store) : store * disposition :=
  if bool_decide (sm_terminal sm = AttemptStatus.SUCCEEDED) then (upd_execution (touch_execution now) st, Disposition.SUCCESS)
  else
    let unknown := bool_decide (sm_terminal sm = AttemptStatus.UNKNOWN_OUTCOME) in
    if unknown || sm_pre_send_fatal sm then
      (apply_or_defer_execution_fatal (sm_error_code sm) (if unknown then Some UNKNOWN_OUTCOME_MESSAGE else sm_error_message sm)
         now defer st, Disposition.FATAL_EXECUTION_FAILURE)
    else (upd_execution (touch_execution now) st, Disposition.KNOWN_STEP_FAILURE).

Definition settle_rows (sm : settlement) (rows : call_rows) (persist_meta : json) (first_byte_at : option Z) (now : Z)
    : store → store :=
  upd_rows rows
    (λ s, s |> set_es_result_inline (sm_result_inline sm)
            |> end_step (step_status_of (sm_terminal sm)) (sm_error_code sm) (sm_error_message sm) now)
    (λ a, a |> end_attempt (sm_terminal sm) (sm_error_layer sm) (sm_error_code sm) (sm_error_message sm) (sm_retryable sm) now
            |> set_sa_result_inline (sm_result_inline sm))
    (end_call (sm_terminal sm) persist_meta (sm_response_bytes sm) first_byte_at now) now.

Definition apply_terminal_transition (rows : call_rows) (ending : call_end) (response_meta : json) (first_byte_at : option Z)
    (risk_class : string) (output_schema : json) (result_inline_max_bytes : Z) (now : Z) (protected : list string)
    (defer factory_imported : bool) (st : store) : res (store * attempt_status * disposition) :=
  persist_meta ← sanitize_for_persistence response_meta protected;
  sm ← settle_call ending risk_class output_schema factory_imported protected result_inline_max_bytes;
  let r := st |> settle_rows sm rows persist_meta first_byte_at now |> settle_execution sm now defer in
  Ok (r.1, sm_terminal sm, r.2).
End settle.

(** ** [_apply_retry_checkpoint] *)
Definition retry_step (s : execution_step) : execution_step :=
  s |> set_es_status StepStatus.READY |> set_es_error_code None |> set_es_error_message None |> set_es_result_inline JNull
    |> set_es_finished_at None |> bump_step.
(** No event: the step is READY again. *)
Definition apply_retry_checkpoint (rows : call_rows) (exc : mcp_client_error) (response_meta : json) (first_byte_at : option Z)
    (risk_class : string) (now : Z) (protected : list string) (st : store) : res (store * attempt_status) :=
  let terminal := classify_mcp_failure exc risk_class in
  persist_meta ← sanitize_for_persistence response_meta protected;
  let error_message := redact_text (me_message exc) protected in
  Ok (st |> upd_call (cl_id (cr_call rows)) (end_call terminal persist_meta None first_byte_at now)
         |> upd_attempt (sa_id (cr_attempt rows))
              (λ a, a |> end_attempt terminal (Some (me_error_layer exc)) (Some (me_error_code exc)) (Some error_message) true now
                      |> set_sa_result_inline JNull)
         |> upd_step (es_id (cr_step rows)) retry_step, terminal).
