(* ===== verification/ToolPrepare.v ===== *)
(** * Phase A of the tool runner: preparing a call
    ([McpToolRunner._prepare] of [execution/tool_runner.py])

    One transaction that ends with a prepared call, whose ToolCall is STARTED
    before any network I/O, or with an outcome.  An exception that leaves it
    rolls it back: the rows stay as they were. *)
From S2P Require Import Prelude PyStr PyDict Json PyUuid CanonicalHash Domain Rows Cancellation PolicySelection.
From S2P Require Import RetryDecision ToolLineage Claim Preflight ApprovalEvidence Approval ResultValidator MrtrWait.
From S2P Require Import ToolAttempt ToolRunner.
From Stdlib Require Import SpecFloat.

Inductive prepare_result := Prepared (call : prepared_call) | Finished (outcome : tool_run_outcome).

(** ** [remaining_step_timeout_ms] ([execution/retry_decision.py]) *)
(** Binary64: [total_seconds()] is the correctly rounded quotient of two exact
    integers, [* 1000] rounds again, and [int] truncates. *)
Definition float_of_Z (n : Z) : spec_float := binary_normalize 53 1024 n 0 false.
Definition float_trunc (f : spec_float) : Z :=
  match f with
  | S754_finite s m e =>
      let n := if (0 <=? e)%Z then (Z.pos m * 2 ^ e)%Z else (Z.pos m / 2 ^ (- e))%Z in if s then (- n)%Z else n
  | _ => 0%Z
  end.
Definition elapsed_ms (microseconds : Z) : Z :=
  float_trunc (SFmul 53 1024 (SFdiv 53 1024 (float_of_Z microseconds) (float_of_Z 1000000)) (float_of_Z 1000)).
Definition remaining_step_timeout_ms (step_started_at timeout_seconds : option Z) (policy_timeout_ms now : Z) : Z :=
  if (policy_timeout_ms <? 1)%Z then 1%Z
  else match step_started_at, timeout_seconds with
  | Some started, Some timeout =>
      let remaining := (timeout * 1000 - elapsed_ms (now - started))%Z in
      if (remaining <? 1)%Z then 0%Z else Z.min policy_timeout_ms remaining
  | _, _ => policy_timeout_ms
  end.

(** 1.009 * 1000 is below 1009. *)
Example elapsed_ms_rounds : elapsed_ms 1009000 = 1008%Z ∧ elapsed_ms 1500000 = 1500%Z ∧ elapsed_ms (-1500) = (-1)%Z.
Proof. vm_compute. repeat split. Qed.

(** ** Ownership *)
(** Still the worker of the lease, and the lease in force *)
Definition owns_in_force (worker : string) (lease_token : uuid) (now : Z) (e : execution) : bool :=
  bool_decide (ex_worker_id e = Some worker) && bool_decide (ex_lease_token e = Some lease_token)
  && match ex_lease_expires_at e with Some t => negb (t <=? now)%Z | None => false end.
Definition running_or_cancelling (e : execution) : bool :=
  bool_decide (ex_status e ∈ [ExecutionStatus.RUNNING; ExecutionStatus.CANCEL_REQUESTED]).

(** The arguments every stage passes on *)
Record prepare_args := PrepareArgs {
  pa_worker : string;
  pa_lease_token : uuid;
  pa_defer : bool;
  pa_forbid_wait : bool;
  pa_forbid_approval : bool;
  pa_now : Z;
  pa_inline_max_bytes : Z;
  (** [uuid4()]: attempt, approval request, tool call, remote request *)
  pa_attempt_id : uuid;
  pa_request_id : uuid;
  pa_call_id : uuid;
  pa_remote_id : uuid }.

(** [try: x = m except AppError as exc: return h(exc)], and on with [k] *)
Definition try_app {A B} (m : res A) (h : string → string → B) (k : A → res B) : res B :=
  match m with Ok x => k x | Err (AppError code message _) => Ok (h code message) | Err e => Err e end.

(** An outcome of phase A for the step *)
Definition finished (st : store) (step_id : uuid) (attempt_id call_id : option uuid) (status : option string) (reason : string)
    (d : disposition) : prepare_result :=
  Finished (ToolRunOutcome (ex_id (st_execution st)) (Some step_id) attempt_id call_id false status reason d).
Definition finished_noop (st : store) (step_id : uuid) (status : option string) (reason : string) : prepare_result :=
  finished st step_id None None status reason Disposition.NOOP.

(** The step FAILED unless it is terminal, and the execution with it if it is RUNNING *)
Definition fail_open_step (code message : string) (now : Z) (step_id : uuid) (st : store) : store :=
  match get_step step_id st with
  | Some s => if step_terminal s then st
              else st |> upd_step step_id (end_step StepStatus.FAILED (Some code) (Some message) now) |> emit_of_step now s
  | None => st
  end.
Definition fail_prepare (a : prepare_args) (code message : string) (step_id : uuid) (st : store) : store :=
  let st := fail_open_step code message (pa_now a) step_id st in
  if bool_decide (ex_status (st_execution st) = ExecutionStatus.RUNNING)
  then apply_or_defer_execution_fatal (Some code) (Some message) (pa_now a) (pa_defer a) st else st.
Definition failed_prepare (a : prepare_args) (code message : string) (attempt_id : option uuid) (step_id : uuid) (st : store)
    : store * prepare_result :=
  let st := fail_prepare a code message step_id st in
  (st, finished st step_id attempt_id None (Some "FAILED") code Disposition.FATAL_EXECUTION_FAILURE).

Section prepare.
Context {schema : PlanSchema} {parser : PlanParser} {validator : SchemaValidator}.

(** ** Authorization again, for a call that is repeated or about to be sent *)
(** The [try] that [_prepare] runs on a replay and [_final_pre_send_gate] runs
    always: the authorization, or the failure to send with *)
Definition revalidate_call (c : catalog) (st : store) (s : execution_step) : res (runtime_tool_authorization + mcp_client_error) :=
  let e := st_execution st in
  let failed code message := Ok (inr (pre_send_fail_closed code message)) in
  catch_app
    (authz ← authorize_step c e s;
     approval ← (if mp_requires_approval (au_tool_policy authz) then
                   match au_approval_policy authz with
                   | None => Ok (Some (pre_send_fail_closed "EXECUTION_PRECONDITION_FAILED"
                                         "requires_approval인데 ApprovalPolicy 없음."))
                   | Some ap =>
                       catch_app (_ ← require_valid_approved_evidence c st s (au_tool_policy authz) ap; Ok None)
                         (λ code message, Ok (Some (pre_send_fail_closed code message)))
                   end
                 else Ok None);
     match approval with
     | Some failure => Ok (inr failure)
     | None =>
         _ ← (if au_confirmation_required authz then assert_confirmation_evidence c e (au_policy_snapshot authz) else Ok tt);
         Ok (inl authz)
     end) failed.

Definition CURRENT_MCP_PROTOCOL_VERSION : string := "2026-07-28".
Definition TRANSPORT_STREAMABLE_HTTP : string := "STREAMABLE_HTTP".
(** The checks of the transport and of the endpoint *)
Definition transport_failure (server : mcp_server) : option mcp_client_error :=
  if negb (String.eqb (sv_protocol_era server) ERA_CURRENT)
     || negb (String.eqb (sv_transport_type server) TRANSPORT_STREAMABLE_HTTP)
  then Some (pre_send_fail_closed "MCP_TRANSPORT_UNSUPPORTED" "MCP Tool Runner supports CURRENT + STREAMABLE_HTTP servers only.")
  else if str_empty (default "" (sv_endpoint_url server))
  then Some (pre_send_fail_closed "MCP_ENDPOINT_MISSING"
               "MCP Server endpoint_url is required for STREAMABLE_HTTP tools/call.")
  else None.

(** [is_factory_imported] ([services/mcp_server.py]) *)
Definition is_factory_imported (server : mcp_server) : bool :=
  match sv_transport_config server with
  | JObj cfg => match get_or_none "factory_publish" cfg with JBool b => b | _ => false end
                || py_eq (get_or_none "source" cfg) (JStr "TOOL_FACTORY_PUBLISH")
  | _ => false
  end.

(** ** The ToolCall row *)
(** [create_tool_call]; the flush checks the keys. *)
Definition create_tool_call (row : tool_call) (st : store) : res store :=
  _ ← raise_if (existsb (λ c, bool_decide (cl_id c = cl_id row)
                 || bool_decide (cl_step_attempt_id c = cl_step_attempt_id row)
                    && String.eqb (cl_remote_request_id c) (cl_remote_request_id row)) (st_calls st))
        (PyException "IntegrityError");
  Ok (set_st_calls (st_calls st ++ [row]) st).
Definition request_meta (tool : mcp_tool) (server : mcp_server) (timeout_ms : Z) (resume : option mrtr_resume) : json :=
  JObj ([("method", JStr "tools/call"); ("tool_name", JStr (mt_remote_name tool)); ("timeout_ms", JInt timeout_ms);
         ("auth_type", JStr (sv_auth_type server)); ("content_type", JStr "application/json")]
        ++ match resume with
           | Some r => [("mrtr_resume", JBool true); ("mrtr_input_request_id", JStr (uuid_str (mr_input_request_id r)))]
           | None => []
           end).
Definition new_tool_call (id attempt_id server_id version_id : uuid) (remote_request_id : string) (meta : json) (started_at : Z)
    : tool_call :=
  {| cl_id := id; cl_step_attempt_id := attempt_id; cl_mcp_server_id := server_id; cl_mcp_tool_version_id := version_id;
     cl_remote_request_id := remote_request_id; cl_request_meta := meta; cl_response_meta := JNull;
     cl_normalized_status := AttemptStatus.STARTED; cl_response_bytes := None; cl_started_at := started_at;
     cl_first_byte_at := None; cl_finished_at := None |}.

(** The current catalog rows of the step's tool *)
Record tool_rows := ToolRows {
  tw_version : mcp_tool_version;
  tw_tool : mcp_tool;
  tw_server : mcp_server;
  tw_policy : mcp_tool_policy }.
Definition load_tool_rows (c : catalog) (s : execution_step) : res tool_rows :=
  version ← of_option (precondition_failed "ToolVersion not found.") (id ← es_mcp_tool_version_id s; get_tool_version c id);
  tool ← of_option (precondition_failed "MCP Tool not found.") (get_tool c (tv_mcp_tool_id version));
  server ← of_option (precondition_failed "MCP Server not found.") (get_server c (mt_mcp_server_id tool));
  policy ← of_option (precondition_failed "MCPToolPolicy not found.") (get_policy_by_tool_id c (mt_id tool));
  Ok (ToolRows version tool server policy).

Definition prepared_of (a : prepare_args) (st : store) (rows : call_rows) (w : tool_rows) (timeout_ms : Z)
    (resume : option mrtr_resume) : prepared_call :=
  {| pc_execution_id := ex_id (st_execution st); pc_step_id := es_id (cr_step rows); pc_attempt_id := sa_id (cr_attempt rows);
     pc_tool_call_id := cl_id (cr_call rows); pc_remote_request_id := cl_remote_request_id (cr_call rows);
     pc_mcp_server_id := sv_id (tw_server w); pc_mcp_tool_version_id := tv_id (tw_version w);
     pc_endpoint := default "None" (sv_endpoint_url (tw_server w)); pc_tool_name := mt_remote_name (tw_tool w);
     pc_timeout_ms := timeout_ms; pc_policy_timeout_ms := mp_timeout_ms (tw_policy w);
     pc_resolved_input := match es_resolved_input (cr_step rows) with JObj d => d | _ => [] end;
     pc_auth_type := sv_auth_type (tw_server w); pc_auth_secret_id := sv_auth_secret_id (tw_server w);
     pc_protocol_era := sv_protocol_era (tw_server w); pc_transport_type := sv_transport_type (tw_server w);
     pc_risk_class := mp_risk_class (tw_policy w); pc_output_schema := tv_output_schema (tw_version w);
     pc_max_result_bytes := mp_max_result_bytes (tw_policy w); pc_worker_id := pa_worker a;
     pc_lease_token := pa_lease_token a; pc_factory_imported := is_factory_imported (tw_server w);
     pc_mrtr := (λ r, (mr_input_request_id r, mr_responses r, mr_request_state r)) <$> resume;
     pc_defer := pa_defer a; pc_forbid_wait := pa_forbid_wait a |}.

(** The failures before the send, the first one found *)
Definition pre_send_failure (c : catalog) (st : store) (s : execution_step) (replayed : bool) (w : tool_rows)
    : res (option mcp_client_error) :=
  if replayed then
    checked ← revalidate_call c st s;
    Ok (match checked with inr failure => Some failure | inl _ => transport_failure (tw_server w) end)
  else Ok (transport_failure (tw_server w)).

(** From the attempt to the call: with a failure the rows end at once. *)
Definition prepare_call (c : catalog) (a : prepare_args) (replayed : bool) (resume : option mrtr_resume)
    (s : execution_step) (attempt : step_attempt) (st : store) : res (store * prepare_result) :=
  w ← load_tool_rows c s;
  failure ← pre_send_failure c st s replayed w;
  timeout ← plan_timeout_seconds s;
  let remaining := remaining_step_timeout_ms (es_started_at s) timeout (mp_timeout_ms (tw_policy w)) (pa_now a) in
  let over := (remaining <? 1)%Z in
  let failure := match failure with
                 | Some f => Some f
                 | None => if over then Some (pre_send_fail_closed STEP_TIMEOUT_EXCEEDED
                                                "Step total timeout budget exhausted before tools/call.") else None
                 end in
  let timeout_ms := if over then 1%Z else remaining in
  let call := new_tool_call (pa_call_id a) (sa_id attempt) (sv_id (tw_server w)) (tv_id (tw_version w))
                (uuid_str (pa_remote_id a)) (request_meta (tw_tool w) (tw_server w) timeout_ms resume) (pa_now a) in
  st ← create_tool_call call st;
  let rows := CallRows s attempt call in
  match failure with
  | Some exc =>
      r ← apply_terminal_transition rows (CallFailed exc) JNull None (mp_risk_class (tw_policy w))
            (tv_output_schema (tw_version w)) (pa_inline_max_bytes a) (pa_now a) [] (pa_defer a)
            (is_factory_imported (tw_server w)) st;
      let '(st, terminal, d) := r in
      Ok (st, finished st (es_id s) (Some (sa_id attempt)) (Some (cl_id call)) (Some (terminal_value terminal))
                (me_error_code exc) d)
  | None => Ok (st, Prepared (prepared_of a st rows w timeout_ms resume))
  end.

(** The calls an attempt may already have *)
Definition prepare_attempt (c : catalog) (a : prepare_args) (replayed : bool) (attempt_id step_id : uuid) (st : store)
    : res (store * prepare_result) :=
  let not_started := conflict "TOOL Step Attempt is not STARTED." in
  attempt ← of_option not_started (get_attempt attempt_id st);
  _ ← raise_if (negb (bool_decide (sa_status attempt = AttemptStatus.STARTED))) not_started;
  s ← of_option (PyException "AttributeError") (get_step step_id st);
  let e := st_execution st in
  let existing := list_tool_calls attempt_id st in
  let fail code message := failed_prepare a code message (Some attempt_id) step_id st in
  match filter (λ c, call_started c = true) existing with
  | call :: _ =>
      Ok (st, finished st step_id (Some attempt_id) (Some (cl_id call)) None "TOOL_CALL_ALREADY_STARTED" Disposition.NOOP)
  | [] =>
      try_app (if is_nil existing then Ok None else load_answered_mrtr_resume e s attempt st) fail (λ resume,
        _ ← raise_if (negb (is_nil existing) && negb (is_some resume))
              (conflict "ToolCall already terminal while Step remains RUNNING.");
        try_app (if replayed then _ ← assert_resume_attempt_lineage e s attempt (list_steps st) (Some (pa_worker a)); Ok tt
                 else Ok tt) fail (λ _,
          prepare_call c a replayed resume s attempt st))
  end.

(** ** After the start of an attempt *)
(** [except AppError] around [start] *)
Definition start_refused (a : prepare_args) (code message : string) (step_id : uuid) (st : store) : store * prepare_result :=
  let exec_waiting := execution_waiting (st_execution st) in
  let waiting := match get_step step_id st with Some s => step_waiting s | None => false end in
  let ready := match get_step step_id st with Some s => bool_decide (es_status s = StepStatus.READY) | None => false end in
  if exec_waiting && waiting then (st, finished_noop st step_id (Some "WAITING_APPROVAL") "WAITING_APPROVAL")
  else if exec_waiting || waiting then (st, finished_noop st step_id None code)
  else if String.eqb code "RESOURCE_CONFLICT" && bool_decide (ex_status (st_execution st) = ExecutionStatus.RUNNING) && ready
          && str_in "PENDING ApprovalRequest already exists" message
  then (st, finished_noop st step_id None code)
  else failed_prepare a code message None step_id st.

(** A wait that [start] was told not to open *)
Definition forbidden_wait (a : prepare_args) (step_id : uuid) (st : store) : store * prepare_result :=
  let message := "Multi-Step TOOL/JOIN DAG cannot enter WAITING_APPROVAL." in
  let st := upd_step step_id (λ s, if step_terminal s then s
              else end_step StepStatus.FAILED (Some "DAG_WAIT_UNSUPPORTED") (Some message) (pa_now a) s) st in
  let step_message := get_step step_id st ≫= es_error_message in
  let st := if bool_decide (ex_status (st_execution st) = ExecutionStatus.RUNNING)
            then apply_or_defer_execution_fatal (Some "DAG_WAIT_UNSUPPORTED") step_message (pa_now a) (pa_defer a) st else st in
  (st, finished st step_id None None (Some "FAILED") "DAG_WAIT_UNSUPPORTED" Disposition.FATAL_EXECUTION_FAILURE).

Definition prepare_started (c : catalog) (a : prepare_args) (step_id : uuid) (started : store * res start_result)
    : res (store * prepare_result) :=
  let st := started.1 in
  match started.2 with
  | Err (AppError code message _) => Ok (start_refused a code message step_id st)
  | Err e => Err e
  | Ok (ApprovalWait _) =>
      Ok (if pa_forbid_approval a then forbidden_wait a step_id st
          else (st, finished st step_id None None (Some "WAITING_APPROVAL") "WAITING_APPROVAL" Disposition.WAIT))
  | Ok (AttemptStarted o) => prepare_attempt c a (to_replayed o) (to_attempt_id o) step_id st
  end.

(** ** Before the start *)
(** A leased RUNNING execution and a step that is not waiting *)
Definition timed_out_step (now : Z) (s : execution_step) : execution_step :=
  end_step StepStatus.TIMED_OUT (Some STEP_TIMEOUT_EXCEEDED)
    (Some "Step total timeout budget exhausted before another Attempt.") now s.
Definition prepare_leased (c : catalog) (a : prepare_args) (s : execution_step) (st : store) : res (store * prepare_result) :=
  let e := st_execution st in
  if step_terminal s then
    Ok (st, finished_noop st (es_id s) (Some (step_status_value (es_status s))) "STEP_ALREADY_TERMINAL")
  else
    _ ← raise_if (negb (bool_decide (es_status s ∈ [StepStatus.READY; StepStatus.RUNNING])))
          (conflict "Step status {step.status} unsupported by MCP Tool Runner.");
    let ready := bool_decide (es_status s = StepStatus.READY) in
    timeout ← (if ready then plan_timeout_seconds s else Ok None);
    if ready && step_timeout_budget_exhausted (es_started_at s) timeout (pa_now a) then
      let st := st |> upd_step (es_id s) (timed_out_step (pa_now a)) |> upd_execution (touch_execution (pa_now a)) in
      Ok (st, finished st (es_id s) None None (Some "TIMED_OUT") STEP_TIMEOUT_EXCEEDED Disposition.KNOWN_STEP_FAILURE)
    else
      prepare_started c a (es_id s)
        (start c (pa_attempt_id a) (pa_request_id a) (ex_id e) (es_id s) (pa_worker a) (pa_lease_token a) (pa_now a)
           (pa_forbid_approval a) st).

Definition prepare_owned (c : catalog) (a : prepare_args) (s : execution_step) (st : store) : res (store * prepare_result) :=
  let e := st_execution st in
  let status := Some (execution_status_value (ex_status e)) in
  if bool_decide (ex_status e = ExecutionStatus.CANCELLED) then Ok (st, finished_noop st (es_id s) status "STEP_ALREADY_TERMINAL")
  else if negb (running_or_cancelling e && owns_in_force (pa_worker a) (pa_lease_token a) (pa_now a) e) then
    Ok (st, Finished (noop (ex_id e) "LEASE_MISMATCH" None status))
  else prepare_leased c a s st.

(** A cancellation that was requested beats a new attempt. *)
Definition prepare_cancelled (c : catalog) (a : prepare_args) (s : execution_step) (st : store) : res (store * prepare_result) :=
  let e := st_execution st in
  if negb (cancellation_is_requested e) then prepare_owned c a s st
  else if bool_decide (ex_status e = ExecutionStatus.CANCELLED) then
    Ok (st, finished_noop st (es_id s) (Some "CANCELLED") "CANCEL_REQUESTED")
  else if negb (owns_in_force (pa_worker a) (pa_lease_token a) (pa_now a) e) then
    Ok (st, Finished (noop (ex_id e) "LEASE_MISMATCH" None (Some (execution_status_value (ex_status e)))))
  else
    let st := if bool_decide (ex_status e = ExecutionStatus.RUNNING)
              then st |> upd_execution (λ e, e |> set_ex_status ExecutionStatus.CANCEL_REQUESTED |> bump_execution)
                      |> emit_execution_status_changed (ex_status e) (pa_now a)
              else st in
    if bool_decide (ex_status (st_execution st) = ExecutionStatus.CANCEL_REQUESTED) then
      r ← reconcile_cancel_requested_locked (pa_now a) st;
      Ok (r.1, finished_noop r.1 (es_id s) (Some (execution_status_value (co_status r.2))) "CANCEL_REQUESTED")
    else prepare_owned c a s st.

(** A wait for input, which must be durable, then one for approval *)
Definition prepare_input_wait (c : catalog) (a : prepare_args) (s : execution_step) (st : store) : res (store * prepare_result) :=
  let exec_mrtr := bool_decide (ex_status (st_execution st) = ExecutionStatus.WAITING_INPUT) in
  let step_mrtr := bool_decide (es_status s = StepStatus.WAITING_INPUT) in
  let conflicted := (st, finished_noop st (es_id s) None "RESOURCE_CONFLICT") in
  if exec_mrtr || step_mrtr then
    if negb (exec_mrtr && step_mrtr) then Ok conflicted
    else match assert_durable_waiting_input st s with
    | Ok _ => Ok (st, finished_noop st (es_id s) (Some (step_status_value (es_status s))) "WAITING_INPUT")
    | Err (AppError code message status) =>
        if String.eqb code "RESOURCE_CONFLICT" then Ok conflicted else Err (AppError code message status)
    | Err err => Err err
    end
  else prepare_cancelled c a s st.
Definition prepare_approval_wait (c : catalog) (a : prepare_args) (s : execution_step) (st : store) : res (store * prepare_result) :=
  let exec_waiting := execution_waiting (st_execution st) in
  if negb (Bool.eqb exec_waiting (step_waiting s)) then Ok (st, finished_noop st (es_id s) None "RESOURCE_CONFLICT")
  else if exec_waiting then
    try_app (reuse_pending st s) (λ code _, (st, finished_noop st (es_id s) None code))
      (λ _, Ok (st, finished_noop st (es_id s) (Some (step_status_value (es_status s))) "WAITING_APPROVAL"))
  else prepare_input_wait c a s st.

(** [_prepare]; the worker id in [a] is normalized. *)
Definition prepare (c : catalog) (a : prepare_args) (execution_id step_id : uuid) (st : store) : res (store * prepare_result) :=
  if negb (bool_decide (ex_id (st_execution st) = execution_id)) then Ok (st, Finished (noop execution_id "MISSING" None None))
  else
    let foreign := conflict "Step does not belong to the claimed Execution." in
    s ← of_option foreign (get_step step_id st);
    _ ← raise_if (negb (bool_decide (es_execution_id s = ex_id (st_execution st)))) foreign;
    _ ← raise_if (negb (bool_decide (es_step_type s = StepType.TOOL))) (conflict "McpToolRunner supports TOOL Steps only.");
    prepare_approval_wait c a s st.
End prepare.
