(* ===== verification/ToolFinalize.v ===== *)
(** The second half of a tool call: its gate, its settlement, and the loop of the
    runner over its transactions. *)
From S2P Require Import Prelude PyStr PyDict Json PyUuid CanonicalHash Domain BindingResolver Rows Cancellation.
From S2P Require Import PolicySelection RetryDecision Preflight ResultValidator SecretRedaction MrtrWait ToolRunner.
From S2P Require Import ToolPrepare.

(** * Phases B and C of the tool runner ([execution/tool_runner.py])

    The secrets of a prepared call, the gate right before the send, and the
    transaction that settles its reply: each under the lease the call was
    prepared with.  An exception rolls its transaction back. *)

(** ** Phase B1: secrets ([_resolve_secrets]) *)
Definition payload_needs_secret (payload : dict json) : bool := existsb secret_ref_shaped (dict_values payload).
Definition mrtr_responses_of (p : prepared_call) : dict json := match pc_mrtr p with Some (_, d, _) => d | None => [] end.

Record call_secrets := CallSecrets {
  cs_auth_headers : dict string;
  cs_arguments : dict json;
  cs_input_responses : option (dict json);
  cs_protected : list string }.

(** [_NoSecretResolver] *)
Definition no_secret_resolver (_ : uuid) : res (option resolved_secret) :=
  Err (secret_unavailable "Secret material is unavailable; remote call is fail-closed.").

Definition resolve_secrets (resolve_secret : uuid → res (option resolved_secret)) (p : prepared_call) : res call_secrets :=
  let authenticated := negb (String.eqb (pc_auth_type p) "NONE") in
  let needs_secret := authenticated || payload_needs_secret (pc_resolved_input p) || payload_needs_secret (mrtr_responses_of p) in
  let resolver := if needs_secret then resolve_secret else no_secret_resolver in
  auth ← (if authenticated then
            resolved ← match pc_auth_secret_id p with Some id => resolver id | None => Ok None end;
            headers ← build_mcp_auth_headers (pc_auth_type p) resolved;
            Ok (auth_material_plaintexts resolved, headers)
          else Ok ([], []));
  arguments ← materialize_tool_arguments resolver (pc_resolved_input p);
  responses ← match pc_mrtr p with
              | Some (_, d, _) => r ← materialize_tool_arguments resolver d; Ok (Some r)
              | None => Ok None
              end;
  Ok (CallSecrets auth.2 arguments responses
        (collect_protected_plaintexts (Some auth.2)
           (Some (secret_argument_values (pc_resolved_input p) arguments
                  ++ match pc_mrtr p, responses with
                     | Some (_, d, _), Some r => secret_argument_values d r
                     | _, _ => []
                     end))
           (Some auth.1))).

(** ** The rows of a prepared call *)
Definition prepared_rows (p : prepared_call) (st : store) : option call_rows :=
  s ← get_step (pc_step_id p) st;
  a ← get_attempt (pc_attempt_id p) st;
  c ← get_tool_call (pc_tool_call_id p) st;
  Some (CallRows s a c).
Definition lease_of_prepared (p : prepared_call) (now : Z) (e : execution) : bool :=
  bool_decide (ex_id e = pc_execution_id p) && running_or_cancelling e && owns_in_force (pc_worker_id p) (pc_lease_token p) now e.
(** The foreign keys, and the identity of the call *)
Definition rows_of_call (p : prepared_call) (e : execution) (rows : call_rows) : bool :=
  let 'CallRows s a c := rows in
  bool_decide (es_execution_id s = ex_id e) && bool_decide (sa_step_execution_id a = es_id s)
  && bool_decide (cl_step_attempt_id c = sa_id a) && String.eqb (cl_remote_request_id c) (pc_remote_request_id p)
  && bool_decide (cl_mcp_server_id c = pc_mcp_server_id p) && bool_decide (cl_mcp_tool_version_id c = pc_mcp_tool_version_id p).
(** [_prepared_invocation_lineage_matches] *)
Definition prepared_invocation_lineage_matches (p : prepared_call) (e : execution) (rows : call_rows) : bool :=
  rows_of_call p e rows && call_started (cr_call rows) && bool_decide (es_status (cr_step rows) = StepStatus.RUNNING)
  && bool_decide (sa_status (cr_attempt rows) = AttemptStatus.STARTED).

(** ** Phase B2: the gate ([_final_pre_send_gate]) *)
(** Passed; a failure to settle without sending; or an outcome, whose rows are
    committed *)
Inductive gate_result := GatePassed | GateFailed (error : mcp_client_error) | GateDone (outcome : tool_run_outcome).

(** [_final_gate_fail_closed_lineage_corruption] *)
Definition fail_closed_lineage_corruption (p : prepared_call) (now : Z) (st : store) : store * tool_run_outcome :=
  let code := "RESOURCE_CONFLICT" in
  let message := "Final pre-send invocation lineage is inconsistent." in
  let st' := st |> fail_open_step code message now (pc_step_id p)
    |> upd_attempt (pc_attempt_id p) (λ a,
         if bool_decide (sa_status a = AttemptStatus.STARTED)
         then end_attempt AttemptStatus.FAILED (Some "PROTOCOL") (Some code) (Some message) false now a else a)
    |> upd_call (pc_tool_call_id p) (λ c,
         if call_started c then c |> set_cl_normalized_status AttemptStatus.FAILED |> set_cl_finished_at (Some now) else c)
    |> apply_or_defer_execution_fatal (Some code) (Some message) now (pc_defer p) in
  (st', ToolRunOutcome (ex_id (st_execution st)) (Some (pc_step_id p)) (Some (pc_attempt_id p)) (Some (pc_tool_call_id p)) false
          (Some "FAILED") code Disposition.FATAL_EXECUTION_FAILURE).

(** What the call was prepared for is what the catalog holds now *)
Definition invocation_current (p : prepared_call) (authz : runtime_tool_authorization) : bool :=
  let server := au_server authz in
  let policy := au_tool_policy authz in
  bool_decide (sv_id server = pc_mcp_server_id p) && bool_decide (tv_id (au_tool_version authz) = pc_mcp_tool_version_id p)
  && String.eqb (mt_remote_name (au_logical_tool authz)) (pc_tool_name p)
  && String.eqb (default "" (sv_endpoint_url server)) (pc_endpoint p)
  && String.eqb (sv_protocol_era server) (pc_protocol_era p) && String.eqb (sv_transport_type server) (pc_transport_type p)
  && String.eqb (sv_auth_type server) (pc_auth_type p) && bool_decide (sv_auth_secret_id server = pc_auth_secret_id p)
  && String.eqb (mp_risk_class policy) (pc_risk_class p) && (mp_timeout_ms policy =? pc_policy_timeout_ms p)%Z
  && (mp_max_result_bytes policy =? pc_max_result_bytes p)%Z.

Section phases.
Context {schema : PlanSchema} {parser : PlanParser} {validator : SchemaValidator}.

(** A valid owner and consistent rows, nothing cancelled *)
Definition gate_authorization (c : catalog) (p : prepared_call) (s : execution_step) (st : store) : res gate_result :=
  checked ← revalidate_call c st s;
  match checked with
  | inr failure => Ok (GateFailed failure)
  | inl authz =>
      if negb (invocation_current p authz) then
        Ok (GateFailed (pre_send_fail_closed "EXECUTION_PRECONDITION_FAILED"
              "Prepared MCP invocation drifted from current Tool/Server/policy state."))
      else Ok (match transport_failure (au_server authz) with Some failure => GateFailed failure | None => GatePassed end)
  end.

Definition cancelled_before_send (rows : call_rows) (now : Z) (st : store) : res (store * gate_result) :=
  r ← cancel_prepared_invocation_before_send now (es_id (cr_step rows)) (sa_id (cr_attempt rows)) (cl_id (cr_call rows)) st;
  let d := if bool_decide (co_status r.2 = ExecutionStatus.CANCEL_REQUESTED) then Disposition.KNOWN_STEP_FAILURE
           else Disposition.SUCCESS in
  Ok (r.1, GateDone (run_outcome r.1 rows false "CANCELLED" "CANCEL_REQUESTED" d)).

Definition final_pre_send_gate (c : catalog) (p : prepared_call) (now : Z) (st : store) : res (store * gate_result) :=
  let e := st_execution st in
  if negb (lease_of_prepared p now e) then
    Ok (st, GateDone (noop (pc_execution_id p) "LEASE_MISMATCH" (Some (pc_step_id p))
                        (if bool_decide (ex_id e = pc_execution_id p) then Some (execution_status_value (ex_status e)) else None)))
  else
    let corrupted := let r := fail_closed_lineage_corruption p now st in (r.1, GateDone r.2) in
    match prepared_rows p st with
    | None => Ok corrupted
    | Some rows =>
        if negb (prepared_invocation_lineage_matches p e rows) then Ok corrupted
        else if cancellation_is_requested e then cancelled_before_send rows now st
        else r ← gate_authorization c p (cr_step rows) st; Ok (st, r)
    end.

(** ** Phase C: a reply that settles the call ([_finalize_locked]) *)
Definition finalize_rows (message : string) (p : prepared_call) (now : Z) (st : store) : res call_rows :=
  rows ← of_option (conflict message) (prepared_rows p st);
  _ ← raise_if (negb (lease_of_prepared p now (st_execution st)) || negb (rows_of_call p (st_execution st) rows)) (conflict message);
  Ok rows.

(** The pinned policy of the step *)
Definition pinned_step_policy (e : execution) (s : execution_step) : res json :=
  plan_step_id ← snapshot_step_id s;
  version_id ← of_option (conflict "Workflow policy tool_version_id mismatch for plan_step_id={plan_step_id!r}.")
                 (es_mcp_tool_version_id s);
  policy ← get_expected_tool_policy_snapshot e plan_step_id version_id;
  Ok (JObj policy).

(** Whether the error is retried *)
Definition retry_of (p : prepared_call) (policy : json) (rows : call_rows) (cancelling : bool) (timeout : option Z)
    (ending : call_end) (now : Z) : option mcp_client_error :=
  match ending with
  | CallReturned _ => None
  | CallFailed exc =>
      let risk := str_or (pinned_risk_class policy) (pc_risk_class p) in
      let call_error := if me_pre_send exc || cancelling then None else Some exc in
      let decision := decide_safe_transient_retry call_error (classify_mcp_failure exc risk) risk
                        (es_attempt_count (cr_step rows)) (default 1%Z (pinned_max_attempts policy))
                        (pinned_backoff_policy policy) (es_started_at (cr_step rows)) timeout now in
      if schedule_retry decision && negb cancelling then Some exc else None
  end.

Definition SAFE_RETRY_READY : string := "SAFE_RETRY_READY".
(** The terminal transition and, under a cancellation, the rest of the execution *)
Definition finalize_terminal (p : prepared_call) (risk : string) (rows : call_rows) (ending : call_end) (response_meta : json)
    (first_byte_at : option Z) (inline_max : Z) (protected : list string) (now : Z) (st : store) : res (store * tool_run_outcome) :=
  let cancelling := cancellation_is_requested (st_execution st) in
  let called := match ending with CallFailed exc => negb (me_pre_send exc) | CallReturned _ => true end in
  r ← apply_terminal_transition rows ending response_meta first_byte_at risk (pc_output_schema p) inline_max now protected
        (pc_defer p) (pc_factory_imported p) st;
  let '(st, terminal, d) := r in
  let status := terminal_value terminal in
  if cancelling && bool_decide (ex_status (st_execution st) = ExecutionStatus.CANCEL_REQUESTED)
     && negb (bool_decide (d = Disposition.FATAL_EXECUTION_FAILURE))
     && negb (bool_decide (terminal = AttemptStatus.UNKNOWN_OUTCOME))
  then
    r ← reconcile_cancel_requested_locked now st;
    let reason := if bool_decide (co_status r.2 = ExecutionStatus.CANCELLED) then "CANCEL_REQUESTED" else status in
    Ok (r.1, run_outcome r.1 rows called status reason d)
  else
    let reason := if bool_decide (terminal = AttemptStatus.SUCCEEDED) then "STEP_SUCCEEDED" else status in
    Ok (st, run_outcome st rows called status reason d).

Definition finalize_locked (p : prepared_call) (ending : call_end) (response_meta : json) (first_byte_at : option Z)
    (inline_max : Z) (protected : list string) (now : Z) (st : store) : res (store * tool_run_outcome) :=
  rows ← finalize_rows "Tool Runner finalize fencing failed." p now st;
  policy ← pinned_step_policy (st_execution st) (cr_step rows);
  timeout ← plan_timeout_seconds (cr_step rows);
  let risk := str_or (pinned_risk_class policy) (pc_risk_class p) in
  match retry_of p policy rows (cancellation_is_requested (st_execution st)) timeout ending now with
  | Some exc =>
      r ← apply_retry_checkpoint rows exc response_meta first_byte_at risk now protected st;
      Ok (r.1, run_outcome r.1 rows true (terminal_value r.2) SAFE_RETRY_READY Disposition.RETRY)
  | None => finalize_terminal p risk rows ending response_meta first_byte_at inline_max protected now st
  end.

(** ** Phase C: a reply that asks for input ([_finalize_input_required]) *)
(** The end of the attempt that leaves no owner *)
Definition settle_input (rows : call_rows) (call_status attempt_end : attempt_status) (code message : string) (persist_meta : json)
    (reply : normalized_input_required) (first_byte_at : option Z) (now : Z) : store → store :=
  upd_rows rows (end_step (step_status_of attempt_end) (Some code) (Some message) now)
    (λ a, a |> end_attempt attempt_end (Some "PROTOCOL") (Some code) (Some message) false now |> release_attempt)
    (end_call call_status persist_meta (Some (ni_raw_size_bytes reply)) first_byte_at now) now.

Definition MRTR_SECRET_ECHO_CODE : string := "MCP_MRTR_SECRET_ECHO".
Definition MRTR_SECRET_ECHO_MESSAGE : string :=
  ("MRTR input_required reflected protected invocation material; " +:+ "WAITING_INPUT was not opened.").
(** [_terminalize_mrtr_secret_echo] *)
Definition terminalize_mrtr_secret_echo (p : prepared_call) (rows : call_rows) (persist_meta : json)
    (reply : normalized_input_required) (first_byte_at : option Z) (now : Z) (st : store) : store * tool_run_outcome :=
  let st := st
    |> upd_rows rows
         (λ s, s |> set_es_result_inline JNull
                 |> end_step StepStatus.FAILED (Some MRTR_SECRET_ECHO_CODE) (Some MRTR_SECRET_ECHO_MESSAGE) now)
         (λ a, a |> end_attempt AttemptStatus.FAILED (Some "PROTOCOL") (Some MRTR_SECRET_ECHO_CODE)
                      (Some MRTR_SECRET_ECHO_MESSAGE) false now
                 |> set_sa_result_inline JNull |> release_attempt)
         (end_call AttemptStatus.FAILED persist_meta (Some (ni_raw_size_bytes reply)) first_byte_at now) now
    |> apply_or_defer_execution_fatal (Some MRTR_SECRET_ECHO_CODE) (Some MRTR_SECRET_ECHO_MESSAGE) now (pc_defer p) in
  (st, run_outcome st rows true "FAILED" MRTR_SECRET_ECHO_CODE Disposition.FATAL_EXECUTION_FAILURE).

(** The transport metadata, without the keys of the dialogue *)
Definition input_persist_meta (response_meta : json) (protected : list string) : res json :=
  meta ← sanitize_for_persistence response_meta protected;
  let d := match meta with JObj d => d | _ => [] end in
  Ok (JObj (filter (λ kv : string * json, kv.1 ∉ ["requestState"; "request_state"; "inputRequests"; "input_requests"])
              (dict_set "result_type" (JStr "input_required") d))).

(** The round of this reply: the completed calls of the attempt before it *)
Definition round_of (rows : call_rows) (st : store) : Z :=
  (Z.of_nat (length (filter (λ c, cl_id c ≠ cl_id (cr_call rows) ∧ call_succeeded c = true)
                       (list_tool_calls (sa_id (cr_attempt rows)) st))) + 1)%Z.
Definition input_row (id : uuid) (rows : call_rows) (e : execution) (reply : normalized_input_required) (round_no : Z)
    (status : input_status) (now expires_at : Z) : mcp_input_request :=
  new_input id (ex_id e) (es_id (cr_step rows)) (sa_id (cr_attempt rows)) (ni_input_requests reply) (ni_request_state reply)
    round_no status now expires_at.

(** The step's timeout is over: an EXPIRED row as evidence, no wait *)
Definition STEP_TIMEOUT : string := "STEP_TIMEOUT".
Definition finalize_input_timeout (new_id : uuid) (rows : call_rows) (timeout : option Z) (persist_meta : json)
    (reply : normalized_input_required) (first_byte_at : option Z) (now : Z) (st : store) : res (store * tool_run_outcome) :=
  let expires_at := match es_started_at (cr_step rows), timeout with
                    | Some started, Some t => (started + seconds t)%Z
                    | _, _ => now
                    end in
  st ← create_input (input_row new_id rows (st_execution st) reply (round_of rows st) InputStatus.EXPIRED now expires_at) st;
  let st := st
    |> settle_input rows AttemptStatus.SUCCEEDED AttemptStatus.TIMED_OUT STEP_TIMEOUT
         "Step total timeout exhausted before MRTR wait could open." persist_meta reply first_byte_at now
    |> upd_execution (touch_execution now) in
  Ok (st, run_outcome st rows true "TIMED_OUT" STEP_TIMEOUT Disposition.KNOWN_STEP_FAILURE).

(** The two fatal ends: too many rounds, or no execution-level wait allowed *)
Definition finalize_input_fatal (p : prepared_call) (rows : call_rows) (status : attempt_status) (code message : string)
    (persist_meta : json) (reply : normalized_input_required) (first_byte_at : option Z) (now : Z) (st : store)
    : store * tool_run_outcome :=
  let st := st |> settle_input rows status status code message persist_meta reply first_byte_at now
               |> apply_or_defer_execution_fatal (Some code) (Some message) now (pc_defer p) in
  (st, run_outcome st rows true (terminal_value status) code Disposition.FATAL_EXECUTION_FAILURE).

(** The wait itself.  The event of the step is emitted twice. *)
Definition waiting_input_step (s : execution_step) : execution_step :=
  s |> set_es_status StepStatus.WAITING_INPUT |> set_es_finished_at None |> set_es_error_code None |> set_es_error_message None
    |> bump_step.
Definition waiting_input_execution (e : execution) : execution :=
  e |> set_ex_status ExecutionStatus.WAITING_INPUT |> set_ex_finished_at None |> set_ex_error_code None
    |> set_ex_error_message None |> clear_execution_lease |> bump_execution.
Definition open_input_wait (new_id : uuid) (rows : call_rows) (round_no expires_at : Z) (persist_meta : json)
    (reply : normalized_input_required) (first_byte_at : option Z) (now : Z) (st : store) : res (store * tool_run_outcome) :=
  let e := st_execution st in
  _ ← raise_if (negb (is_nil (list_open_for_step (ex_id e) (es_id (cr_step rows)) st)))
        (conflict "Cannot open a second OPEN MCPInputRequest.");
  let st := st
    |> upd_rows rows waiting_input_step release_attempt
         (end_call AttemptStatus.SUCCEEDED persist_meta (Some (ni_raw_size_bytes reply)) first_byte_at now) now
    |> emit_of_step now (cr_step rows)
    |> upd_execution waiting_input_execution |> emit_execution_status_changed (ex_status e) now in
  st ← create_input (input_row new_id rows e reply round_no InputStatus.OPEN now expires_at) st;
  Ok (st, run_outcome st rows true "WAITING_INPUT" "WAITING_INPUT" Disposition.WAIT).

(** From the deadline of the step on *)
Definition finalize_input_wait (p : prepared_call) (new_id : uuid) (rows : call_rows) (timeout : option Z) (persist_meta : json)
    (reply : normalized_input_required) (first_byte_at : option Z) (now : Z) (st : store) : res (store * tool_run_outcome) :=
  started ← of_option (PyException "AssertionError") (es_started_at (cr_step rows));
  timeout ← of_option (PyException "AssertionError") timeout;
  _ ← raise_if (timeout <? 1)%Z (PyException "AssertionError");
  let round_no := round_of rows st in
  if (MAX_MRTR_ROUNDS <? round_no)%Z then
    Ok (finalize_input_fatal p rows AttemptStatus.FAILED "MAX_MRTR_ROUNDS_EXCEEDED" "MRTR round limit (8) exceeded."
          persist_meta reply first_byte_at now st)
  else if pc_forbid_wait p then
    Ok (finalize_input_fatal p rows AttemptStatus.UNKNOWN_OUTCOME "DAG_WAIT_UNSUPPORTED"
          ("Multi-Step TOOL/JOIN DAG cannot enter WAITING_INPUT; " +:+ "branch-local MRTR suspension is out of scope.")
          persist_meta reply first_byte_at now st)
  else open_input_wait new_id rows round_no (started + seconds timeout)%Z persist_meta reply first_byte_at now st.

Definition settle_cancelled_input (rows : call_rows) (persist_meta : json) (reply : normalized_input_required)
    (first_byte_at : option Z) (now : Z) (st : store) : res (store * tool_run_outcome) :=
  r ← settle_input_required_after_cancel_locked now (es_id (cr_step rows)) (sa_id (cr_attempt rows)) (cl_id (cr_call rows))
        persist_meta (Some (ni_raw_size_bytes reply)) first_byte_at st;
  let d := if bool_decide (co_status r.2 = ExecutionStatus.CANCELLED) then Disposition.SUCCESS
           else Disposition.KNOWN_STEP_FAILURE in
  Ok (r.1, run_outcome r.1 rows true "CANCELLED" "CANCEL_REQUESTED" d).

Definition finalize_input_required (p : prepared_call) (new_id : uuid) (reply : normalized_input_required) (response_meta : json)
    (first_byte_at : option Z) (protected : list string) (now : Z) (st : store) : res (store * tool_run_outcome) :=
  rows ← finalize_rows "Tool Runner MRTR finalize fencing failed." p now st;
  timeout ← plan_timeout_seconds (cr_step rows);
  persist_meta ← input_persist_meta response_meta protected;
  if contains_protected_plaintext (JObj (ni_input_requests reply)) protected
     || contains_protected_plaintext (ni_request_state reply) protected
  then Ok (terminalize_mrtr_secret_echo p rows persist_meta reply first_byte_at now st)
  else if cancellation_is_requested (st_execution st) then settle_cancelled_input rows persist_meta reply first_byte_at now st
  else if step_timeout_budget_exhausted (es_started_at (cr_step rows)) timeout now
  then finalize_input_timeout new_id rows timeout persist_meta reply first_byte_at now st
  else finalize_input_wait p new_id rows timeout persist_meta reply first_byte_at now st.

(** ** One round of [run_claimed_tool_step] *)
(** The reply of [call_tool]; an exception that is no [MCPClientError] leaves
    the run. *)
Inductive remote_reply :=
| RemoteResult (result : normalized_tool_result) (response_meta : json) (first_byte_at : option Z)
| RemoteInput (request : normalized_input_required) (response_meta : json) (first_byte_at : option Z)
| RemoteError (error : mcp_client_error).

(** What a reply is settled with *)
Definition finalize_reply (p : prepared_call) (new_input_id : uuid) (reply : remote_reply) (inline_max : Z)
    (protected : list string) (now : Z) (st : store) : res (store * tool_run_outcome) :=
  match reply with
  | RemoteResult result meta first_byte_at => finalize_locked p (CallReturned result) meta first_byte_at inline_max protected now st
  | RemoteInput request meta first_byte_at => finalize_input_required p new_input_id request meta first_byte_at protected now st
  | RemoteError exc => finalize_locked p (CallFailed exc) JNull None inline_max protected now st
  end.
End phases.

(** * The run of a tool step ([McpToolRunner.run_claimed_tool_step],
    [execution/tool_runner.py])

    Phase A, the secrets, the gate, the call and the transaction that settles
    its reply, again and again while the reply is a failure that is retried.
    The source loops without a bound; here every round is given what it meets
    from outside, so a run over a list of rounds ends or asks for more
    (ToolRunSound.v bounds how many it asks for).  Between two transactions the
    rows are as the others left them. *)

(** One [async with session.begin()]: an exception rolls it back. *)
Definition transaction {A} (run : store → res (store * A)) (st : store) : store * res A :=
  match run st with Ok (st', x) => (st', Ok x) | Err e => (st, Err e) end.

(** What a round meets: the catalogs of its transactions, their clocks and
    [uuid4] values, the secret store, the remote end, and the changes others
    commit before the gate, before the end and before the next round *)
Record tool_round := ToolRound {
  rn_args : prepare_args;
  rn_catalog : catalog;
  rn_resolve_secret : uuid → res (option resolved_secret);
  rn_before_gate : store → store;
  rn_gate_catalog : catalog;
  rn_gate_now : Z;
  rn_remote : prepared_call → call_secrets → res remote_reply;
  rn_before_end : store → store;
  rn_input_id : uuid;
  rn_end_now : Z;
  rn_before_next : store → store }.

(** The requests that left for the remote end *)
Record sent_call := SentCall { sn_call : prepared_call; sn_secrets : call_secrets }.

(** A round returns or raises, or [None]: [continue] *)
Record round_end := RoundEnd {
  re_store : store;
  re_sent : option sent_call;
  re_result : option (res tool_run_outcome) }.

Section run.
Context {schema : PlanSchema} {parser : PlanParser} {validator : SchemaValidator}.

Definition returns (sent : option sent_call) (r : store * res tool_run_outcome) : round_end :=
  RoundEnd r.1 sent (Some r.2).

(** A decision before the send settles the call it was made for. *)
Definition settle_unsent (rd : tool_round) (p : prepared_call) (exc : mcp_client_error) (protected : list string) (st : store)
    : round_end :=
  returns None (transaction (finalize_locked p (CallFailed exc) JNull None (pa_inline_max_bytes (rn_args rd)) protected
                               (rn_end_now rd)) (rn_before_end rd st)).

(** The [continue] of the loop is behind [_finalize_locked] only. *)
Definition settle_sent (rd : tool_round) (p : prepared_call) (secrets : call_secrets) (reply : remote_reply) (st : store)
    : round_end :=
  let sent := Some (SentCall p secrets) in
  let r := transaction (finalize_reply p (rn_input_id rd) reply (pa_inline_max_bytes (rn_args rd)) (cs_protected secrets)
                          (rn_end_now rd)) (rn_before_end rd st) in
  match reply, r.2 with
  | RemoteInput _ _ _, _ => returns sent r
  | _, Ok outcome => if String.eqb (tr_reason outcome) SAFE_RETRY_READY then RoundEnd r.1 sent None else returns sent r
  | _, Err _ => returns sent r
  end.

(** With the secrets at hand: the gate, then the call *)
Definition send_round (rd : tool_round) (p : prepared_call) (secrets : call_secrets) (st : store) : round_end :=
  let (st, gate) := transaction (final_pre_send_gate (rn_gate_catalog rd) p (rn_gate_now rd)) (rn_before_gate rd st) in
  match gate with
  | Err e => RoundEnd st None (Some (Err e))
  | Ok (GateDone outcome) => RoundEnd st None (Some (Ok outcome))
  | Ok (GateFailed exc) => settle_unsent rd p exc (cs_protected secrets) st
  | Ok GatePassed =>
      match rn_remote rd p secrets with
      | Err e => RoundEnd st (Some (SentCall p secrets)) (Some (Err e))
      | Ok reply => settle_sent rd p secrets reply st
      end
  end.

Definition run_round (execution_id step_id : uuid) (rd : tool_round) (st : store) : round_end :=
  let (st, prep) := transaction (prepare (rn_catalog rd) (rn_args rd) execution_id step_id) st in
  match prep with
  | Err e => RoundEnd st None (Some (Err e))
  | Ok (Finished outcome) => RoundEnd st None (Some (Ok outcome))
  | Ok (Prepared p) =>
      match resolve_secrets (rn_resolve_secret rd) p with
      | Err (AppError code message _) => settle_unsent rd p (pre_send_fail_closed code message) [] st
      | Err e => RoundEnd st None (Some (Err e))
      | Ok secrets => send_round rd p secrets st
      end
  end.

(** The run: the rows it leaves, the calls it sent, and its result, or [None]
    when the rounds given are used up *)
Record tool_run := ToolRun {
  tn_store : store;
  tn_sent : list sent_call;
  tn_result : option (res tool_run_outcome) }.

Fixpoint run_claimed_tool_step (execution_id step_id : uuid) (rounds : list tool_round) (st : store) : tool_run :=
  match rounds with
  | [] => ToolRun st [] None
  | rd :: rounds =>
      let r := run_round execution_id step_id rd st in
      match re_result r with
      | Some result => ToolRun (re_store r) (option_list (re_sent r)) (Some result)
      | None =>
          let rest := run_claimed_tool_step execution_id step_id rounds (rn_before_next rd (re_store r)) in
          ToolRun (tn_store rest) (option_list (re_sent r) ++ tn_sent rest) (tn_result rest)
      end
  end.
End run.
