(* ===== verification/ToolPrepareSound.v ===== *)
(** * What a prepared call is

    A call that phase A prepares is one new STARTED call of a STARTED attempt
    of its RUNNING step, under the worker's own lease, and the rows it names
    pass the checks of the gate. *)
From S2P Require Import Prelude PyStr PyDict Json PyUuid CanonicalHash Domain LoopRuntime BindingResolver Rows.
From S2P Require Import Cancellation CancelSound PolicySelection RetryDecision ToolLineage Claim Preflight.
From S2P Require Import ApprovalEvidence Approval ResultValidator MrtrWait ToolAttempt ToolRunner ToolPrepare.
From S2P Require Import ToolFinalize.

(** ** Rows by id *)
Lemma get_step_upd id f st : (∀ s, es_id (f s) = es_id s) → get_step id (upd_step id f st) = f <$> get_step id st.
Proof.
  intros Hf. unfold get_step, upd_step. cbn [st_steps set_st_steps].
  rewrite (find_first_upd_where es_id) by done. destruct (find_first _ _) as [s|] eqn:E; [|done].
  apply find_key_Some in E as [_ E]. simpl. by rewrite decide_True.
Qed.
Lemma get_attempt_upd id f st : (∀ a, sa_id (f a) = sa_id a) → get_attempt id (upd_attempt id f st) = f <$> get_attempt id st.
Proof.
  intros Hf. unfold get_attempt, upd_attempt. cbn [st_attempts set_st_attempts].
  rewrite (find_first_upd_where sa_id) by done. destruct (find_first _ _) as [s|] eqn:E; [|done].
  apply find_key_Some in E as [_ E]. simpl. by rewrite decide_True.
Qed.
Lemma get_call_upd id f st : (∀ c, cl_id (f c) = cl_id c) → get_tool_call id (upd_call id f st) = f <$> get_tool_call id st.
Proof.
  intros Hf. unfold get_tool_call, upd_call. cbn [st_calls set_st_calls].
  rewrite (find_first_upd_where cl_id) by done. destruct (find_first _ _) as [s|] eqn:E; [|done].
  apply find_key_Some in E as [_ E]. simpl. by rewrite decide_True.
Qed.

Lemma get_step_id id st s : get_step id st = Some s → es_id s = id.
Proof. by intros [_ H]%find_key_Some. Qed.
Lemma get_attempt_id id st a : get_attempt id st = Some a → sa_id a = id.
Proof. by intros [_ H]%find_key_Some. Qed.
Lemma get_call_id id st c : get_tool_call id st = Some c → cl_id c = id.
Proof. by intros [_ H]%find_key_Some. Qed.

Lemma prepared_rows_Some p st rows :
  prepared_rows p st = Some rows →
  get_step (pc_step_id p) st = Some (cr_step rows) ∧ get_attempt (pc_attempt_id p) st = Some (cr_attempt rows) ∧
  get_tool_call (pc_tool_call_id p) st = Some (cr_call rows).
Proof.
  unfold prepared_rows. destruct (get_step _ _); [|done]. destruct (get_attempt _ _); [|done].
  destruct (get_tool_call _ _); [|done]. by intros [= <-].
Qed.

Lemma finalize_rows_step message p now st rows :
  finalize_rows message p now st = Ok rows →
  get_step (pc_step_id p) st = Some (cr_step rows) ∧ get_attempt (pc_attempt_id p) st = Some (cr_attempt rows) ∧
  get_tool_call (pc_tool_call_id p) st = Some (cr_call rows) ∧
  lease_of_prepared p now (st_execution st) = true ∧ rows_of_call p (st_execution st) rows = true.
Proof.
  unfold finalize_rows. intros H. apply bind_Ok in H as (r & Hr%of_option_Ok & H). apply bind_Ok in H as ([] & Hc & [= ->]).
  apply raise_if_Ok, orb_false_iff in Hc as [Hl%negb_false_iff Hm%negb_false_iff].
  by apply prepared_rows_Some in Hr as (? & ? & ?).
Qed.

Lemma find_first_snoc {A} (p : A → bool) l x :
  find_first p (l ++ [x]) = match find_first p l with Some y => Some y | None => if p x then Some x else None end.
Proof. induction l as [|y l IH]; [done|]. simpl. by destruct (p y). Qed.

(** A row appended under a new key *)
Lemma create_attempt_Ok row st st' :
  create_attempt row st = Ok st' →
  st' = set_st_attempts (st_attempts st ++ [row]) st ∧ get_attempt (sa_id row) st = None ∧
  get_attempt (sa_id row) st' = Some row.
Proof.
  unfold create_attempt. intros H. inv_res. split; [done|].
  match goal with H : existsb _ _ = false |- _ => rewrite existsb_elem_false in H; rename H into Hnew end.
  assert (get_attempt (sa_id row) st = None) as Hn.
  { apply find_first_None. intros a Ha. by apply Hnew, orb_false_iff in Ha as [? _]. }
  split; [done|]. unfold get_attempt in *. cbn [st_attempts set_st_attempts].
  by rewrite find_first_snoc, Hn, bool_decide_eq_true_2.
Qed.
Lemma create_tool_call_Ok row st st' :
  create_tool_call row st = Ok st' →
  st' = set_st_calls (st_calls st ++ [row]) st ∧ get_tool_call (cl_id row) st = None ∧
  get_tool_call (cl_id row) st' = Some row.
Proof.
  unfold create_tool_call. intros H. inv_res. split; [done|].
  match goal with H : existsb _ _ = false |- _ => rewrite existsb_elem_false in H; rename H into Hnew end.
  assert (get_tool_call (cl_id row) st = None) as Hn.
  { apply find_first_None. intros a Ha. by apply Hnew, orb_false_iff in Ha as [? _]. }
  split; [done|]. unfold get_tool_call in *. cbn [st_calls set_st_calls].
  by rewrite find_first_snoc, Hn, bool_decide_eq_true_2.
Qed.

Section sound.
Context {schema : PlanSchema} {parser : PlanParser} {validator : SchemaValidator}.

(** ** The start of an attempt *)
(** Under the lease, of a step of this execution *)
Definition lease_valid (e : execution) (worker : string) (lease_token : uuid) (now : Z) : Prop :=
  ex_status e = ExecutionStatus.RUNNING ∧ ex_worker_id e = Some worker ∧ ex_lease_token e = Some lease_token ∧
  ∃ t, ex_lease_expires_at e = Some t ∧ (now < t)%Z.

Lemma execution_lease_Ok e worker token now :
  assert_execution_lease e worker token now = Ok tt → lease_valid e worker token now.
Proof.
  unfold assert_execution_lease. intros H. inv_res. split; [done|].
  destruct (ex_lease_expires_at e) as [t|]; [|done].
  repeat match goal with H : bool_decide _ = true |- _ => apply bool_decide_eq_true in H end.
  split; [done|]. split; [done|]. exists t. split; [done|]. by apply Z.leb_gt.
Qed.

(** The rows of a fresh attempt *)
Definition fresh_rows (n : Z) (input : dict json) (now : Z) (s : execution_step) (a : step_attempt) (st st' : store) : Prop :=
  st_execution st' = st_execution st ∧
  st_steps st' = st_steps (upd_step (es_id s) (running_step n input now) (upd_step (es_id s) (pin_input input) st)) ∧
  st_attempts st' = st_attempts st ++ [a] ∧ st_calls st' = st_calls st ∧ st_approvals st' = st_approvals st ∧
  st_inputs st' = st_inputs st.

Inductive attempt_started (c : catalog) (new_id : uuid) (worker : string) (now : Z) (s : execution_step) (st st' : store)
    (o : tool_step_attempt_outcome) : Prop :=
| StartReplayed a :
    es_status s = StepStatus.RUNNING → st' = st → to_replayed o = true →
    get_started_attempt (es_id s) st = Some a → sa_worker_id a = Some worker → to_attempt_id o = sa_id a →
    attempt_started c new_id worker now s st st' o
| StartFresh lineage authz input a :
    es_status s = StepStatus.READY → to_replayed o = false → to_attempt_id o = new_id →
    start_checked c s st = Ok (lineage, authz, input) →
    sa_id a = new_id → sa_step_execution_id a = es_id s → sa_status a = AttemptStatus.STARTED →
    sa_attempt_no a = (es_attempt_count s + 1)%Z → get_attempt new_id st = None → get_attempt new_id st' = Some a →
    fresh_rows (es_attempt_count s + 1) input now s a st st' →
    attempt_started c new_id worker now s st st' o.

Lemma start_attempt_Ok new_id worker lineage input s now st st' r :
  start_attempt new_id worker lineage input s now st = Ok (st', r) →
  ∃ a o, r = AttemptStarted o ∧ to_replayed o = false ∧ to_attempt_id o = new_id ∧ sa_id a = new_id ∧
    sa_step_execution_id a = es_id s ∧ sa_status a = AttemptStatus.STARTED ∧ sa_attempt_no a = (es_attempt_count s + 1)%Z ∧
    get_attempt new_id st = None ∧ get_attempt new_id st' = Some a ∧
    st_execution st' = st_execution st ∧
    st_steps st' = st_steps (upd_step (es_id s) (running_step (es_attempt_count s + 1) input now) st) ∧
    st_attempts st' = st_attempts st ++ [a] ∧ st_calls st' = st_calls st ∧ st_approvals st' = st_approvals st ∧
    st_inputs st' = st_inputs st.
Proof.
  unfold start_attempt. intros H. apply bind_Ok in H as ([] & _ & H). apply bind_Ok in H as (snap & _ & H).
  apply bind_Ok in H as (st1 & (-> & Hnone & Hsome)%create_attempt_Ok & [= <- <-]).
  cbn [sa_id new_attempt] in *. match type of Hsome with _ = Some ?a => exists a end. eexists. split; [done|].
  do 6 (split; [done|]).
  split; [|split; [exact Hsome|]].
  - unfold get_attempt in *. revert Hnone. drop_events. done.
  - cbn [st_execution st_steps st_attempts st_calls st_approvals st_inputs set_st_attempts]. drop_events. done.
Qed.

Lemma start_pinned_started c new_id request_id worker authz lineage input forbid s now st st' o :
  start_pinned c new_id request_id worker authz lineage input forbid s now st = Ok (st', AttemptStarted o) →
  start_attempt new_id worker lineage input s now st = Ok (st', AttemptStarted o).
Proof.
  unfold start_pinned. intros H. apply bind_Ok in H as (v & _ & H). apply bind_Ok in H as ([] & _ & H).
  apply bind_Ok in H as ([r|] & _ & H); [discriminate H|done].
Qed.

Lemma pin_input_id input s : es_id (pin_input input s) = es_id s ∧ es_attempt_count (pin_input input s) = es_attempt_count s.
Proof. unfold pin_input. by destruct (is_none _). Qed.

Lemma start_started c new_id request_id execution_id step_id worker_id token now forbid st st' o :
  start c new_id request_id execution_id step_id worker_id token now forbid st = (st', Ok (AttemptStarted o)) →
  ∃ worker s, normalize_worker_id worker_id = Ok worker ∧ get_step step_id st = Some s ∧
    es_execution_id s = ex_id (st_execution st) ∧
    lease_valid (st_execution st) worker token now ∧ attempt_started c new_id worker now s st st' o.
Proof.
  unfold start. destruct (mbind _ _) as [[worker s]|] eqn:El; [|by intros [= _ H]].
  apply bind_Ok in El as (w & Hw & El). apply bind_Ok in El as (s' & Hs & [= <- <-]).
  unfold start_locked in Hs. apply bind_Ok in Hs as ([] & _ & Hs). apply bind_Ok in Hs as (s & Hs%of_option_Ok & H).
  inv_res. destruct (_ || _).
  { intros [= <- H]. apply bind_Ok in H as (x & _ & H). discriminate H. }
  destruct (assert_execution_lease _ _ _ _) as [[]|] eqn:Hl; [|by intros [= _ H]]. apply execution_lease_Ok in Hl.
  intros H. exists w, s'. split_and!; try done. clear Hw.
  case_bool_decide as Hrun.
  - injection H as <- H. unfold replay_started in H. apply bind_Ok in H as (a & Ha%of_option_Ok & H). inv_res.
    eapply StartReplayed; done.
  - destruct (start_checked c s' st) as [[[lineage authz] input]|] eqn:Hc; [|by injection H].
    destruct (start_pinned _ _ _ _ _ _ _ _ _ _ _) as [[st1 r]|] eqn:Hp; [|by injection H].
    injection H as -> ->. apply start_pinned_started, start_attempt_Ok in Hp.
    destruct (pin_input_id input s') as [Hid Hcount]. rewrite Hid, Hcount in Hp.
    destruct Hp as (a & o' & [= <-] & ? & ? & ? & ? & ? & ? & ? & ? & ? & ? & ? & ? & ? & ?).
    assert (es_status s' = StepStatus.READY).
    { unfold start_checked in Hc. apply bind_Ok in Hc as ([] & Hc & _). by inv_res. }
    eapply StartFresh; done.
Qed.

(** ** A prepared call *)
(** How its step got to RUNNING: it was, with its STARTED attempt; or a fresh
    attempt under the next number *)
Inductive step_taken (now : Z) (s : execution_step) (attempt : step_attempt) (st st' : store) : Prop :=
| TakenAgain :
    get_step (es_id s) st = Some s → st_steps st' = st_steps st → st_attempts st' = st_attempts st →
    get_attempt (sa_id attempt) st = Some attempt → step_taken now s attempt st st'
| TakenFresh s0 input :
    get_step (es_id s) st = Some s0 → es_status s0 = StepStatus.READY →
    s = running_step (es_attempt_count s0 + 1) input now (pin_input input s0) →
    st_steps st' = st_steps (upd_step (es_id s) (running_step (es_attempt_count s0 + 1) input now)
                               (upd_step (es_id s) (pin_input input) st)) →
    st_attempts st' = st_attempts st ++ [attempt] → get_attempt (sa_id attempt) st = None →
    step_taken now s attempt st st'.

Record call_prepared (c : catalog) (a : prepare_args) (step_id : uuid) (st st' : store) (rows : call_rows) (p : prepared_call)
    : Prop := CallPrepared {
  cp_lease : lease_valid (st_execution st) (pa_worker a) (pa_lease_token a) (pa_now a);
  cp_live : cancellation_is_requested (st_execution st) = false;
  cp_execution : st_execution st' = st_execution st;
  cp_rest : st_approvals st' = st_approvals st ∧ st_inputs st' = st_inputs st;
  cp_rows : prepared_rows p st' = Some rows;
  cp_lineage : prepared_invocation_lineage_matches p (st_execution st') rows = true;
  cp_step_id : es_id (cr_step rows) = step_id;
  cp_calls : st_calls st' = st_calls st ++ [cr_call rows];
  cp_fresh : get_tool_call (cl_id (cr_call rows)) st = None;
  cp_alone x : x ∈ st_calls st → cl_step_attempt_id x = sa_id (cr_attempt rows) → call_started x = false;
  cp_again : list_tool_calls (sa_id (cr_attempt rows)) st ≠ [] → is_some (pc_mrtr p) = true;
  cp_number : sa_attempt_no (cr_attempt rows) = es_attempt_count (cr_step rows);
  cp_taken : step_taken (pa_now a) (cr_step rows) (cr_attempt rows) st st';
  cp_current : ∃ w timeout_ms resume, p = prepared_of a st' rows w timeout_ms resume ∧ load_tool_rows c (cr_step rows) = Ok w ∧
    transport_failure (tw_server w) = None ∧ (1 ≤ timeout_ms)%Z ∧
    ((1 ≤ mp_timeout_ms (tw_policy w))%Z → (timeout_ms ≤ mp_timeout_ms (tw_policy w))%Z) }.

Lemma remaining_timeout_le started timeout policy_ms now :
  (1 ≤ policy_ms)%Z → (remaining_step_timeout_ms started timeout policy_ms now ≤ policy_ms)%Z.
Proof.
  intros Hp. unfold remaining_step_timeout_ms. destruct (Z.ltb_spec policy_ms 1); [lia|].
  destruct started, timeout; try lia. cbn zeta.
  match goal with |- context [(?r <? 1)%Z] => destruct (Z.ltb_spec r 1) end; lia.
Qed.

Lemma try_app_Ok {A B} (m : res A) h (k : A → res B) b :
  try_app m h k = Ok b ↔ (∃ x, m = Ok x ∧ k x = Ok b) ∨ ∃ code message status, m = Err (AppError code message status) ∧ h code message = b.
Proof.
  unfold try_app. destruct m as [x|[code message status|n]]; split.
  - intros H. left. by exists x.
  - intros [(y & [= <-] & H)|(? & ? & ? & [=] & _)]. done.
  - intros [= H]. right. by exists code, message, status.
  - intros [(y & [=] & _)|(? & ? & ? & [= <- <- <-] & <-)]. done.
  - done.
  - intros [(y & [=] & _)|(? & ? & ? & [=] & _)].
Qed.

Lemma prepare_call_prepared c a replayed resume s attempt st st' p :
  prepare_call c a replayed resume s attempt st = Ok (st', Prepared p) →
  ∃ w timeout_ms call, load_tool_rows c s = Ok w ∧ transport_failure (tw_server w) = None ∧ (1 ≤ timeout_ms)%Z ∧
    ((1 ≤ mp_timeout_ms (tw_policy w))%Z → (timeout_ms ≤ mp_timeout_ms (tw_policy w))%Z) ∧
    call = new_tool_call (pa_call_id a) (sa_id attempt) (sv_id (tw_server w)) (tv_id (tw_version w))
             (uuid_str (pa_remote_id a)) (request_meta (tw_tool w) (tw_server w) timeout_ms resume) (pa_now a) ∧
    create_tool_call call st = Ok st' ∧ p = prepared_of a st' (CallRows s attempt call) w timeout_ms resume.
Proof.
  unfold prepare_call. intros H. apply bind_Ok in H as (w & Hw & H). apply bind_Ok in H as (failure & Hf & H).
  apply bind_Ok in H as (timeout & _ & H). cbn zeta in H. apply bind_Ok in H as (st1 & Hst1 & H).
  set (remaining := remaining_step_timeout_ms _ _ _ _) in *.
  destruct failure as [f|].
  { apply bind_Ok in H as ([[st2 t] d] & _ & H). discriminate H. }
  destruct (Z.ltb_spec remaining 1) as [Hlt|Hle].
  { apply bind_Ok in H as ([[st2 t] d] & _ & H). discriminate H. }
  injection H as <- <-. exists w, remaining. eexists. split; [done|]. split.
  - unfold pre_send_failure in Hf. destruct replayed; [|by injection Hf].
    apply bind_Ok in Hf as ([authz|failure] & _ & Hf); by injection Hf.
  - split; [done|]. split; [apply remaining_timeout_le|]. done.
Qed.

Lemma list_calls_nil attempt_id st x :
  filter (λ c, call_started c = true) (list_tool_calls attempt_id st) = [] →
  x ∈ st_calls st → cl_step_attempt_id x = attempt_id → call_started x = false.
Proof.
  intros Hnil Hx Ha. apply not_true_is_false. intros Hs.
  assert (x ∈ filter (λ c, call_started c = true) (list_tool_calls attempt_id st)) as Hin
    by (apply list_elem_of_filter; split; [done|by apply elem_of_list_tool_calls]).
  rewrite Hnil in Hin. by apply elem_of_nil in Hin.
Qed.

Lemma replay_lineage_Ok e s attempt steps worker l :
  assert_resume_attempt_lineage e s attempt steps worker = Ok l →
  sa_step_execution_id attempt = es_id s ∧ sa_attempt_no attempt = es_attempt_count s.
Proof.
  unfold assert_resume_attempt_lineage. intros H. apply bind_Ok in H as (l' & _ & H). apply bind_Ok in H as ([] & H & _).
  unfold assert_started_attempt_replay_lineage in H.
  apply bind_Ok in H as ([] & _ & H). apply bind_Ok in H as ([] & H1 & H). apply bind_Ok in H as ([] & H2 & _).
  inv_res. split; [done|]. by apply Z.eqb_eq.
Qed.

(** What [_prepare] made of the calls the attempt already had *)
Lemma prepare_attempt_prepared c a replayed attempt_id step_id st st' p :
  prepare_attempt c a replayed attempt_id step_id st = Ok (st', Prepared p) →
  ∃ attempt s resume, get_attempt attempt_id st = Some attempt ∧ sa_status attempt = AttemptStatus.STARTED ∧
    get_step step_id st = Some s ∧
    (∀ x, x ∈ st_calls st → cl_step_attempt_id x = attempt_id → call_started x = false) ∧
    (list_tool_calls attempt_id st ≠ [] → is_some resume = true) ∧
    (replayed = true → sa_step_execution_id attempt = es_id s ∧ sa_attempt_no attempt = es_attempt_count s) ∧
    prepare_call c a replayed resume s attempt st = Ok (st', Prepared p).
Proof.
  unfold prepare_attempt. intros H. apply bind_Ok in H as (attempt & Ha%of_option_Ok & H).
  apply bind_Ok in H as ([] & Hst & H). apply bind_Ok in H as (s & Hs%of_option_Ok & H). cbn zeta in H.
  inv_res. destruct (filter _ _) as [|call l] eqn:Hnone; [|by injection H].
  apply try_app_Ok in H as [(resume & _ & H)|(? & ? & ? & _ & H)]; [|discriminate H].
  apply bind_Ok in H as ([] & Hagain & H).
  apply try_app_Ok in H as [([] & Hl & H)|(? & ? & ? & _ & H)]; [|discriminate H].
  exists attempt, s, resume. split_and!; try done.
  - intros x. by apply list_calls_nil.
  - intros Hne. apply raise_if_Ok in Hagain. destruct (list_tool_calls attempt_id st); [done|]. by destruct resume.
  - intros ->. apply bind_Ok in Hl as (l & Hl%replay_lineage_Ok & _). done.
Qed.

Lemma owns_in_force_spec worker token now e :
  owns_in_force worker token now e = true ↔
  ex_worker_id e = Some worker ∧ ex_lease_token e = Some token ∧ ∃ t, ex_lease_expires_at e = Some t ∧ (now < t)%Z.
Proof.
  unfold owns_in_force. rewrite !andb_true_iff, !bool_decide_eq_true. destruct (ex_lease_expires_at e) as [t|].
  - rewrite negb_true_iff, Z.leb_gt. naive_solver.
  - naive_solver.
Qed.

(** The stages before the start leave the rows of a prepared call alone. *)
Lemma prepare_leased_stage c a s st st' p :
  prepare_approval_wait c a s st = Ok (st', Prepared p) →
  cancellation_is_requested (st_execution st) = false ∧
  owns_in_force (pa_worker a) (pa_lease_token a) (pa_now a) (st_execution st) = true ∧
  prepare_leased c a s st = Ok (st', Prepared p).
Proof.
  unfold prepare_approval_wait. intros H. destruct (negb _); [discriminate H|].
  destruct (execution_waiting _).
  { apply try_app_Ok in H as [(? & _ & H)|(? & ? & ? & _ & H)]; discriminate H. }
  unfold prepare_input_wait in H. cbn zeta in H. destruct (_ || _).
  { destruct (negb _); [discriminate H|].
    destruct (assert_durable_waiting_input _ _) as [|[code message status|k]]; [discriminate H| |discriminate H].
    destruct (String.eqb _ _); discriminate H. }
  unfold prepare_cancelled in H. cbn zeta in H. destruct (cancellation_is_requested _) eqn:Hc; cbn [negb] in H.
  { case_bool_decide; [discriminate H|]. destruct (negb _); [discriminate H|].
    case_bool_decide as Hcr.
    - apply bind_Ok in H as (r & _ & H). discriminate H.
    - exfalso. case_bool_decide as Hrun.
      + revert Hcr. drop_events. done.
      + unfold prepare_owned, running_or_cancelling in H. cbn zeta in H. case_bool_decide; [discriminate H|].
        rewrite bool_decide_eq_false_2 in H; [discriminate H|]. rewrite elem_of_cons, list_elem_of_singleton. naive_solver. }
  split; [done|]. unfold prepare_owned in H. case_bool_decide; [discriminate H|].
  destruct (_ && _) eqn:Ho in H; [|discriminate H]. by apply andb_true_iff in Ho as [_ Ho].
Qed.

(** From the stages to the start and the call *)
Lemma prepare_leased_prepared c a s st st' p :
  prepare_leased c a s st = Ok (st', Prepared p) →
  ∃ st1 o, start c (pa_attempt_id a) (pa_request_id a) (ex_id (st_execution st)) (es_id s) (pa_worker a) (pa_lease_token a)
             (pa_now a) (pa_forbid_approval a) st = (st1, Ok (AttemptStarted o)) ∧
    prepare_attempt c a (to_replayed o) (to_attempt_id o) (es_id s) st1 = Ok (st', Prepared p).
Proof.
  unfold prepare_leased. intros H. cbn zeta in H. destruct (step_terminal s); [discriminate H|].
  apply bind_Ok in H as ([] & _ & H). apply bind_Ok in H as (timeout & _ & H). destruct (_ && _); [discriminate H|].
  unfold prepare_started in H. cbn zeta in H. destruct (start _ _ _ _ _ _ _ _ _ _) as [st1 [[o|w]|[code message status|k]]]; cbn in H.
  - by exists st1, o.
  - destruct (pa_forbid_approval a); discriminate H.
  - injection H as H. unfold start_refused, failed_prepare in H. cbn zeta in H.
    repeat match type of H with context [if ?b then _ else _] => destruct b end; discriminate H.
  - discriminate H.
Qed.

Lemma attempt_started_rows c a worker s st st1 o attempt s1 :
  attempt_started c (pa_attempt_id a) worker (pa_now a) s st st1 o →
  get_step (es_id s) st = Some s → get_attempt (to_attempt_id o) st1 = Some attempt → get_step (es_id s) st1 = Some s1 →
  (to_replayed o = true → sa_step_execution_id attempt = es_id s1 ∧ sa_attempt_no attempt = es_attempt_count s1) →
  st_execution st1 = st_execution st ∧ st_calls st1 = st_calls st ∧ st_approvals st1 = st_approvals st ∧
  st_inputs st1 = st_inputs st ∧ es_status s1 = StepStatus.RUNNING ∧ es_execution_id s1 = es_execution_id s ∧
  sa_step_execution_id attempt = es_id s1 ∧ sa_attempt_no attempt = es_attempt_count s1 ∧
  step_taken (pa_now a) s1 attempt st st1.
Proof.
  intros [b Hrun -> Hr Hb Hw Hid|lineage authz input b Hready Hr Hid Hc Hb Hfk Hst Hno Hnone Hsome Hrows] Hs Ha Hs1 Hl.
  - rewrite Hs in Hs1. injection Hs1 as <-. destruct (Hl Hr) as [Hfk Hn]. do 8 (split; [done|]).
    apply TakenAgain; try done. by rewrite (get_attempt_id _ _ _ Ha).
  - destruct Hrows as (He & Hsteps & Hatt & Hcalls & Happ & Hin). rewrite Hid, Hsome in Ha. injection Ha as <-.
    assert (get_step (es_id s) st1 = Some (running_step (es_attempt_count s + 1) input (pa_now a) (pin_input input s))) as Hs1'.
    { unfold get_step. rewrite Hsteps. change (find_first _ _) with
        (get_step (es_id s) (upd_step (es_id s) (running_step (es_attempt_count s + 1) input (pa_now a))
           (upd_step (es_id s) (pin_input input) st))).
      rewrite !get_step_upd by (intros x; by destruct (pin_input_id input x)). by rewrite Hs. }
    rewrite Hs1' in Hs1. injection Hs1 as <-.
    assert (es_id (running_step (es_attempt_count s + 1) input (pa_now a) (pin_input input s)) = es_id s) as Hid1
      by (by destruct (pin_input_id input s)).
    assert (es_execution_id (pin_input input s) = es_execution_id s) as Hx by (unfold pin_input; by destruct (is_none _)).
    rewrite Hid1. do 8 (split; [done|]). apply (TakenFresh _ _ _ _ _ s input); rewrite ?Hid1; try done. by rewrite Hb.
Qed.

Lemma prepare_prepared c a execution_id step_id st st' p :
  prepare c a execution_id step_id st = Ok (st', Prepared p) →
  ex_id (st_execution st) = execution_id ∧ ∃ rows, call_prepared c a step_id st st' rows p.
Proof.
  unfold prepare. intros H. case_bool_decide as Hid; [|discriminate H]. split; [done|]. cbn [negb] in H.
  apply bind_Ok in H as (s & Hs%of_option_Ok & H). apply bind_Ok in H as ([] & Hfk & H).
  apply bind_Ok in H as ([] & _ & H). inv_res.
  apply prepare_leased_stage in H as (Hlive & Hown & H). apply prepare_leased_prepared in H as (st1 & o & Hstart & H).
  pose proof (get_step_id _ _ _ Hs) as <-.
  apply start_started in Hstart as (worker & s' & Hw & Hs' & Hfk' & Hlease & Hstarted).
  rewrite Hs in Hs'. injection Hs' as <-.
  apply prepare_attempt_prepared in H as (attempt & s1 & resume & Ha & Hst & Hs1 & Halone & Hagain & Hl & H).
  destruct (attempt_started_rows _ _ _ _ _ _ _ _ _ Hstarted Hs Ha Hs1 Hl)
    as (He1 & Hc1 & Happ1 & Hin1 & Hrun & Hfk1 & Hafk & Hno & Htaken).
  apply prepare_call_prepared in H as (w & timeout_ms & call & Hw' & Ht & Hpos & Hle & Hcall & Hcreate & ->).
  assert (cl_step_attempt_id call = sa_id attempt ∧ cl_mcp_server_id call = sv_id (tw_server w) ∧
    cl_mcp_tool_version_id call = tv_id (tw_version w) ∧ cl_normalized_status call = AttemptStatus.STARTED)
    as (Hca & Hcs & Hcv & Hcst) by by rewrite Hcall.
  clear Hcall. apply create_tool_call_Ok in Hcreate as (-> & Hnone & Hsome).
  pose proof (get_attempt_id _ _ _ Ha) as Haid. pose proof (get_step_id _ _ _ Hs1) as Hsid.
  apply owns_in_force_spec in Hown as (Hworker & Htoken & Hexp). destruct Hlease as (Hrunning & _).
  exists (CallRows s1 attempt call).
  assert (get_tool_call (cl_id call) st = None) as Hfresh by (unfold get_tool_call in *; by rewrite <- Hc1).
  split; cbn [cr_step cr_attempt cr_call sa_id cl_id]; rewrite ?Haid; try done.
  - unfold prepared_rows. cbn [prepared_of pc_step_id pc_attempt_id pc_tool_call_id cr_step cr_attempt cr_call].
    rewrite Hsome, Haid. change (get_attempt (to_attempt_id o) _) with (get_attempt (to_attempt_id o) st1).
    change (get_step (es_id s1) _) with (get_step (es_id s1) st1). by rewrite Ha, Hsid, Hs1.
  - unfold prepared_invocation_lineage_matches, rows_of_call, call_started. cbn. rewrite He1, Hfk1, Hfk, Hafk, Hrun, Hst.
    rewrite Hca, Hcs, Hcv, Hcst, String.eqb_refl. by rewrite !bool_decide_eq_true_2.
  - cbn. by rewrite Hc1.
  - cbn. intros x Hx Hxa. rewrite <- Hc1 in Hx. by apply Halone.
  - cbn. unfold list_tool_calls in *. rewrite <- Hc1. intros Hne. specialize (Hagain Hne). by destruct resume.
  - destruct Htaken; [by apply TakenAgain|by eapply TakenFresh].
  - by eexists _, _, _.
Qed.
End sound.
