(* ===== verification/ToolRunSound.v ===== *)
(** * What a call that leaves for the remote end was checked against, and how
    often one leaves

    The gate lets a call pass only under the lease it was prepared with, on
    rows in flight, authorized, approved and confirmed as of now.  A run sends
    again only after a failure of a READ_ONLY tool, at most [max_attempts]
    times, and ends. *)
From S2P Require Import Prelude PyStr PyDict Json PyUuid CanonicalHash Domain LoopRuntime BindingResolver Rows.
From S2P Require Import Cancellation CancelSound PolicySelection RetryDecision ToolLineage Claim Preflight.
From S2P Require Import ApprovalEvidence Approval ResultValidator SecretRedaction MrtrWait ToolAttempt ToolRunner.
From S2P Require Import ToolPrepare ToolFinalize ToolPrepareSound.

Section sound.
Context {schema : PlanSchema} {parser : PlanParser} {validator : SchemaValidator}.

(** ** Authorization as of now *)
(** The tool may be executed for the requester, under the policy the execution
    pins: the rows behind an authorization *)
Record tool_executable (c : catalog) (requester : uuid) (version_id : uuid) (policy : dict json)
    (authz : runtime_tool_authorization) : Prop := ToolExecutable {
  tx_version : get_tool_version c version_id = Some (au_tool_version authz) ∧ tv_validation_status (au_tool_version authz) = "VALID";
  tx_tool : get_tool c (tv_mcp_tool_id (au_tool_version authz)) = Some (au_logical_tool authz) ∧
    mt_deleted_at (au_logical_tool authz) = None ∧ mt_status (au_logical_tool authz) = "ACTIVE" ∧
    mt_current_version_id (au_logical_tool authz) = Some (tv_id (au_tool_version authz));
  tx_server : get_server c (mt_mcp_server_id (au_logical_tool authz)) = Some (au_server authz) ∧
    sv_deleted_at (au_server authz) = None ∧ sv_status (au_server authz) = "ACTIVE";
  tx_permission : authorized (cat_authorization c requester EXECUTE_PERMISSION "MCP_TOOL" (mt_id (au_logical_tool authz))) = true;
  tx_policy : get_policy_by_tool_id c (mt_id (au_logical_tool authz)) = Some (au_tool_policy authz) ∧
    py_eq (JObj (build_safe_tool_policy_snapshot (au_tool_policy authz) (au_approval_policy authz))) (JObj policy) = true;
  tx_confirmation : mp_requires_confirmation (au_tool_policy authz) = true → au_confirmation_required authz = true }.

Lemma common_executable_Ok c requester version_id policy timeout authz :
  assert_common_tool_executable c requester version_id policy timeout = Ok authz →
  tool_executable c requester version_id policy authz.
Proof.
  unfold assert_common_tool_executable. intros H. inv_res.
  repeat match goal with
  | H : String.eqb _ _ = true |- _ => apply String.eqb_eq in H
  | H : is_some ?o = false |- _ => destruct o eqn:?; [discriminate H|clear H]
  end. by split.
Qed.

Lemma source_executable_Ok c e version_id policy timeout authz :
  assert_source_tool_executable c e version_id policy timeout = Ok authz →
  tool_executable c (ex_requester_id e) version_id policy authz.
Proof.
  unfold assert_source_tool_executable. intros H. cbn zeta in H. destruct (_ || _).
  - apply bind_Ok in H as (av & _ & H). apply bind_Ok in H as ([] & _ & H). unfold assert_current_agent_tool_executable in H.
    apply bind_Ok in H as (v & _ & H). apply bind_Ok in H as ([] & _ & H).
    apply bind_Ok in H as (core & Hcore%common_executable_Ok & H). destruct Hcore. inv_res. split; try done.
    cbn. intros ->. apply orb_true_r.
  - destruct (_ || _).
    + apply bind_Ok in H as (w & _ & H). by apply common_executable_Ok in H.
    + destruct (String.eqb _ _); [discriminate H|]. destruct (String.eqb _ _); [by apply common_executable_Ok in H|discriminate H].
Qed.

(** A request of the step that enough users approved, for what is about to run *)
Definition approved_now (c : catalog) (st : store) (s : execution_step) (tp : mcp_tool_policy) (ap : approval_policy) : Prop :=
  ∃ r context, r ∈ st_approvals st ∧ ar_status r = ApprovalStatus.APPROVED ∧
    ar_execution_id r = ex_id (st_execution st) ∧ ar_step_execution_id r = es_id s ∧
    rebuild_current_approval_context c (st_execution st) s (Some tp) (Some ap) = Ok context ∧ ar_context_hash r = context.1.1.2.

Lemma match_approved_Some e s h rows ev :
  match_approved e s h rows = Ok (Some ev) → ae_request ev ∈ rows ∧ ar_context_hash (ae_request ev) = h.
Proof.
  induction rows as [|r rows IH]; [done|]. cbn [match_approved]. intros H.
  apply bind_Ok in H as ([] & _ & H). apply bind_Ok in H as (d & _ & H). apply bind_Ok in H as ([] & _ & H).
  destruct (String.eqb _ _) eqn:Eh.
  - injection H as <-. split; [left|by apply String.eqb_eq].
  - destruct (IH H). split; [by right|done].
Qed.

Lemma required_evidence_approved c st s tp ap ev :
  require_valid_approved_evidence c st s tp ap = Ok ev → approved_now c st s tp ap.
Proof.
  unfold require_valid_approved_evidence. intros H. apply bind_Ok in H as (o & Hf & H).
  apply bind_Ok in H as (ev' & ->%of_option_Ok & H). apply bind_Ok in H as ([] & Hst & [= <-]).
  unfold find_valid_approved_evidence in Hf. cbn zeta in Hf.
  destruct (find_approved_for_step _ _ _) as [|r0 rows] eqn:Er; [discriminate Hf|].
  apply bind_Ok in Hf as (context & Hc & Hf). apply bind_Ok in Hf as (m & Hm & Hf). apply bind_Ok in Hf as ([] & _ & [= ->]).
  apply match_approved_Some in Hm as [Hin Hh]. rewrite <- Er in Hin. unfold find_approved_for_step in Hin.
  rewrite sort_by_perm, list_elem_of_filter in Hin. destruct Hin as ((He & Hs & Ha) & Hin).
  by exists (ae_request ev'), context.
Qed.

(** ** The gate *)
(** What the rows and the catalog allow a prepared call to be sent under *)
Record sendable (c : catalog) (p : prepared_call) (now : Z) (st : store) : Prop := Sendable {
  sd_execution : ex_id (st_execution st) = pc_execution_id p;
  sd_lease : lease_valid (st_execution st) (pc_worker_id p) (pc_lease_token p) now;
  sd_live : cancellation_is_requested (st_execution st) = false;
  sd_rows : ∃ rows, prepared_rows p st = Some rows ∧ rows_of_call p (st_execution st) rows = true ∧
    es_status (cr_step rows) = StepStatus.RUNNING ∧ sa_status (cr_attempt rows) = AttemptStatus.STARTED ∧
    cl_normalized_status (cr_call rows) = AttemptStatus.STARTED ∧
    ∃ id version policy authz, snapshot_step_id (cr_step rows) = Ok id ∧ es_mcp_tool_version_id (cr_step rows) = Some version ∧
      get_expected_tool_policy_snapshot (st_execution st) id version = Ok policy ∧
      tool_executable c (ex_requester_id (st_execution st)) version policy authz ∧
      invocation_current p authz = true ∧ transport_failure (au_server authz) = None ∧
      (mp_requires_approval (au_tool_policy authz) = true →
       ∃ ap, au_approval_policy authz = Some ap ∧ approved_now c st (cr_step rows) (au_tool_policy authz) ap) ∧
      (au_confirmation_required authz = true →
       assert_confirmation_evidence c (st_execution st) (au_policy_snapshot authz) = Ok tt) }.

Lemma revalidate_call_Ok c st s authz :
  revalidate_call c st s = Ok (inl authz) →
  authorize_step c (st_execution st) s = Ok authz ∧
  (mp_requires_approval (au_tool_policy authz) = true →
   ∃ ap, au_approval_policy authz = Some ap ∧ approved_now c st s (au_tool_policy authz) ap) ∧
  (au_confirmation_required authz = true → assert_confirmation_evidence c (st_execution st) (au_policy_snapshot authz) = Ok tt).
Proof.
  unfold revalidate_call. cbn zeta. intros [H|(? & ? & ? & _ & H)]%catch_app_Ok; [|discriminate H].
  apply bind_Ok in H as (a & Ha & H). apply bind_Ok in H as ([f|] & Happ & H); [discriminate H|].
  apply bind_Ok in H as ([] & Hconf & [= <-]). split; [done|]. split.
  - intros Hreq. rewrite Hreq in Happ. destruct (au_approval_policy a) as [ap|]; [|discriminate Happ].
    apply catch_app_Ok in Happ as [Happ|(? & ? & ? & _ & Happ)]; [|discriminate Happ].
    apply bind_Ok in Happ as (ev & Hev%required_evidence_approved & _). by exists ap.
  - intros Hreq. by rewrite Hreq in Hconf.
Qed.

Lemma gate_authorization_passed c p s st :
  gate_authorization c p s st = Ok GatePassed →
  ∃ authz, revalidate_call c st s = Ok (inl authz) ∧ invocation_current p authz = true ∧
    transport_failure (au_server authz) = None.
Proof.
  unfold gate_authorization. intros H. apply bind_Ok in H as ([authz|f] & Hr & H); [|discriminate H].
  destruct (invocation_current p authz) eqn:Hi; [|discriminate H]. cbn [negb] in H.
  destruct (transport_failure _) eqn:Ht; [discriminate H|]. by exists authz.
Qed.

Lemma lease_of_prepared_spec p now e :
  lease_of_prepared p now e = true ↔
  ex_id e = pc_execution_id p ∧ running_or_cancelling e = true ∧ owns_in_force (pc_worker_id p) (pc_lease_token p) now e = true.
Proof. unfold lease_of_prepared. rewrite !andb_true_iff, bool_decide_eq_true. naive_solver. Qed.

Lemma running_live e : running_or_cancelling e = true → cancellation_is_requested e = false → ex_status e = ExecutionStatus.RUNNING.
Proof.
  unfold running_or_cancelling, cancellation_is_requested. rewrite bool_decide_eq_true, orb_false_iff, bool_decide_eq_false.
  intros [->|[->|[]%elem_of_nil]%elem_of_cons]%elem_of_cons [H _]; done.
Qed.

Lemma gate_passed c p now st st' :
  final_pre_send_gate c p now st = Ok (st', GatePassed) → st' = st ∧ sendable c p now st.
Proof.
  unfold final_pre_send_gate. cbn zeta. destruct (lease_of_prepared _ _ _) eqn:Hl; [|intros [=]]. cbn [negb].
  apply lease_of_prepared_spec in Hl as (Hid & Hrun & Hown). destruct (prepared_rows p st) as [rows|] eqn:Hrows; [|intros [=]].
  destruct (prepared_invocation_lineage_matches _ _ _) eqn:Hm; [|intros [=]]. cbn [negb].
  destruct (cancellation_is_requested _) eqn:Hc.
  { unfold cancelled_before_send. intros H. apply bind_Ok in H as (r & _ & H). discriminate H. }
  intros H. apply bind_Ok in H as (g & Hg & [= <- ->]). split; [done|].
  apply gate_authorization_passed in Hg as (authz & Hr%revalidate_call_Ok & Hi & Ht). destruct Hr as (Ha & Happ & Hconf).
  unfold prepared_invocation_lineage_matches, call_started in Hm. inv_res.
  apply owns_in_force_spec in Hown as (Hw & Htok & Hexp).
  split; [done|by split; [apply running_live|]|done|].
  exists rows. do 5 (split; [done|]). unfold authorize_step, authorize_pinned in Ha.
  apply bind_Ok in Ha as (id & Hsid & Ha). apply bind_Ok in Ha as (version & Hv%of_option_Ok & Ha).
  apply bind_Ok in Ha as (policy & Hp & Ha). apply bind_Ok in Ha as (timeout & _ & Ha%source_executable_Ok).
  by exists id, version, policy, authz.
Qed.

(** ** A round that sent, and a round that goes on *)
Lemma transaction_Ok {A} (run : store → res (store * A)) st st' x :
  transaction run st = (st', Ok x) ↔ run st = Ok (st', x).
Proof. unfold transaction. destruct (run st) as [[st1 y]|e]; split; [by intros [= -> ->]|by intros [= -> ->]|by intros [=]|by intros [=]]. Qed.

(** A call and the secrets it is sent with, behind the gate of its round *)
Definition passed_gate (execution_id step_id : uuid) (rd : tool_round) (st : store) (sn : sent_call) : Prop :=
  ∃ st1, prepare (rn_catalog rd) (rn_args rd) execution_id step_id st = Ok (st1, Prepared (sn_call sn)) ∧
    resolve_secrets (rn_resolve_secret rd) (sn_call sn) = Ok (sn_secrets sn) ∧
    sendable (rn_gate_catalog rd) (sn_call sn) (rn_gate_now rd) (rn_before_gate rd st1).

Lemma settle_unsent_end rd p exc protected st : re_sent (settle_unsent rd p exc protected st) = None.
Proof. done. Qed.
Lemma settle_unsent_result rd p exc protected st : re_result (settle_unsent rd p exc protected st) ≠ None.
Proof. done. Qed.

Lemma settle_sent_sent rd p secrets reply st : re_sent (settle_sent rd p secrets reply st) = Some (SentCall p secrets).
Proof. unfold settle_sent. cbn zeta. destruct reply; try done; destruct (transaction _ _).2 as [o|]; try done; by destruct (String.eqb _ _). Qed.

Lemma round_sent execution_id step_id rd st sn :
  re_sent (run_round execution_id step_id rd st) = Some sn → passed_gate execution_id step_id rd st sn.
Proof.
  unfold run_round. destruct (transaction _ st) as [st1 [[p|o]|e]] eqn:Hp; [|done|done]. apply transaction_Ok in Hp.
  destruct (resolve_secrets _ _) as [secrets|[code message status|k]] eqn:Hs; [|done|done].
  unfold send_round. destruct (transaction _ (rn_before_gate _ _)) as [st2 [[|exc|o]|e]] eqn:Hg; [|done|done|done].
  apply transaction_Ok, gate_passed in Hg as [-> Hg]. intros H.
  assert (sn = SentCall p secrets) as ->.
  { destruct (rn_remote _ _ _); [by rewrite settle_sent_sent in H; injection H as <-|by injection H as <-]. }
  by exists st1.
Qed.

Lemma finalize_retry p ending meta first_byte inline protected now st st' o :
  finalize_locked p ending meta first_byte inline protected now st = Ok (st', o) → tr_reason o = SAFE_RETRY_READY →
  ∃ rows policy timeout exc terminal, finalize_rows "Tool Runner finalize fencing failed." p now st = Ok rows ∧
    pinned_step_policy (st_execution st) (cr_step rows) = Ok policy ∧
    retry_of p policy rows (cancellation_is_requested (st_execution st)) timeout ending now = Some exc ∧
    apply_retry_checkpoint rows exc meta first_byte (str_or (pinned_risk_class policy) (pc_risk_class p)) now protected st
      = Ok (st', terminal).
Proof.
  unfold finalize_locked. intros H Hr. apply bind_Ok in H as (rows & Hrows & H). apply bind_Ok in H as (policy & Hp & H).
  apply bind_Ok in H as (timeout & _ & H). cbn zeta in H. destruct (retry_of _ _ _ _ _ _ _) as [exc|] eqn:Hretry.
  - apply bind_Ok in H as ([st1 terminal] & Hc & [= <- <-]). by exists rows, policy, timeout, exc, terminal.
  - exfalso. unfold finalize_terminal in H. cbn zeta in H. apply bind_Ok in H as ([[st1 t] d] & _ & H).
    destruct (_ && _).
    + apply bind_Ok in H as ([st2 co] & _ & [= <- <-]). cbn in Hr. case_bool_decide; [discriminate Hr|by destruct t].
    + injection H as <- <-. cbn in Hr. case_bool_decide; [discriminate Hr|by destruct t].
Qed.

(** What a retry needs of the pinned policy and of the attempts so far *)
Definition retry_allowed (policy : json) (p : prepared_call) (count : Z) : Prop :=
  str_or (pinned_risk_class policy) (pc_risk_class p) = "READ_ONLY" ∧
  (0 ≤ count < default 1 (pinned_max_attempts policy))%Z.

Lemma retry_of_allowed p policy rows cancelling timeout ending now exc :
  retry_of p policy rows cancelling timeout ending now = Some exc →
  retry_allowed policy p (es_attempt_count (cr_step rows)) ∧ ending = CallFailed exc ∧ me_retryable exc = true ∧
  me_pre_send exc = false ∧ cancelling = false ∧
  classify_mcp_failure exc (str_or (pinned_risk_class policy) (pc_risk_class p)) ≠ AttemptStatus.UNKNOWN_OUTCOME.
Proof.
  unfold retry_of. destruct ending as [exc'|]; [|done]. cbn zeta.
  destruct (schedule_retry _ && _) eqn:H; [|done]. intros [= ->]. apply andb_true_iff in H as [H Hc%negb_true_iff].
  apply decide_retry_spec in H as (e & He & Hret & Hrisk & _ & Hun & _ & Hcount & _).
  destruct (me_pre_send exc || cancelling) eqn:Hps; [discriminate He|]. injection He as <-.
  apply orb_false_iff in Hps as [Hps _]. done.
Qed.

Lemma settle_sent_goes_on rd p secrets reply st :
  re_result (settle_sent rd p secrets reply st) = None →
  ∃ ending meta first_byte st' o, re_store (settle_sent rd p secrets reply st) = st' ∧
    finalize_locked p ending meta first_byte (pa_inline_max_bytes (rn_args rd)) (cs_protected secrets) (rn_end_now rd)
      (rn_before_end rd st) = Ok (st', o) ∧ tr_reason o = SAFE_RETRY_READY.
Proof.
  unfold settle_sent. cbn zeta.
  destruct reply as [result meta first_byte|request meta first_byte|exc]; [|done|];
    destruct (transaction _ _) as [st' [o|e]] eqn:Ht; cbn [fst snd]; [|done| |done];
    (destruct (String.eqb _ _) eqn:Hr; [|done]); intros _; apply String.eqb_eq in Hr; apply transaction_Ok in Ht;
    cbn [finalize_reply] in Ht; by repeat eexists.
Qed.

Lemma round_goes_on execution_id step_id rd st :
  re_result (run_round execution_id step_id rd st) = None →
  ∃ p st1 ending meta first_byte protected st' o,
    prepare (rn_catalog rd) (rn_args rd) execution_id step_id st = Ok (st1, Prepared p) ∧
    re_store (run_round execution_id step_id rd st) = st' ∧
    finalize_locked p ending meta first_byte (pa_inline_max_bytes (rn_args rd)) protected (rn_end_now rd)
      (rn_before_end rd (rn_before_gate rd st1)) = Ok (st', o) ∧ tr_reason o = SAFE_RETRY_READY.
Proof.
  unfold run_round. destruct (transaction _ st) as [st1 [[p|o]|e]] eqn:Hp; [|done|done]. apply transaction_Ok in Hp.
  destruct (resolve_secrets _ _) as [secrets|[code message status|k]]; [|done|done].
  unfold send_round. destruct (transaction _ (rn_before_gate _ _)) as [st2 [[|exc|o]|e]] eqn:Hg; [|done|done|done].
  apply transaction_Ok, gate_passed in Hg as [-> _]. destruct (rn_remote _ _ _) as [reply|]; [|done].
  intros (ending & meta & fb & st' & o & Hst & Hf & Ho)%settle_sent_goes_on.
  exists p, st1, ending, meta, fb, (cs_protected secrets), st', o. done.
Qed.

(** ** What the others may do meanwhile *)
(** The number the next call of a step runs under *)
Definition next_attempt (s : execution_step) : Z :=
  if bool_decide (es_status s = StepStatus.RUNNING) then es_attempt_count s else (es_attempt_count s + 1)%Z.
Definition step_policy (step_id : uuid) (st : store) : option (res json) :=
  s ← get_step step_id st; Some (pinned_step_policy (st_execution st) s).

(** They keep the policy the execution pins for the step, its row, and the
    count of its attempts; who sets it RUNNING counts an attempt. *)
Record undisturbed (step_id : uuid) (st st' : store) : Prop := Undisturbed {
  un_policy : step_policy step_id st' = step_policy step_id st;
  un_step s : get_step step_id st = Some s → ∃ s', get_step step_id st' = Some s' ∧
    (es_attempt_count s ≤ es_attempt_count s')%Z ∧ (next_attempt s ≤ next_attempt s')%Z }.

#[export] Instance undisturbed_preorder step_id : PreOrder (undisturbed step_id).
Proof.
  split; [intros st; split; [done|by intros s Hs; exists s]|]. intros a b c [Hp Hs] [Hp' Hs']. split; [congruence|].
  intros s H. destruct (Hs s H) as (s1 & H1 & Hc1 & Hn1). destruct (Hs' s1 H1) as (s2 & H2 & Hc2 & Hn2).
  exists s2. split; [done|]. lia.
Qed.

Definition others_keep (step_id : uuid) (rd : tool_round) : Prop :=
  ∀ st, undisturbed step_id st (rn_before_gate rd st) ∧ undisturbed step_id st (rn_before_end rd st) ∧
    undisturbed step_id st (rn_before_next rd st).

Lemma prepared_undisturbed c a step_id st st' rows p s0 :
  call_prepared c a step_id st st' rows p → get_step step_id st = Some s0 →
  undisturbed step_id st st' ∧ get_step step_id st' = Some (cr_step rows) ∧
  (next_attempt s0 ≤ es_attempt_count (cr_step rows))%Z.
Proof.
  intros Hp Hs0. pose proof (cp_rows _ _ _ _ _ _ _ Hp) as Hrows. destruct (cp_current _ _ _ _ _ _ _ Hp) as (w & t & r & Hpc & _).
  pose proof (cp_step_id _ _ _ _ _ _ _ Hp) as Hid. pose proof (cp_lineage _ _ _ _ _ _ _ Hp) as Hl.
  unfold prepared_invocation_lineage_matches in Hl. apply andb_true_iff in Hl as [Hl _].
  apply andb_true_iff in Hl as [_ Hrun%bool_decide_eq_true].
  apply prepared_rows_Some in Hrows as (Hs & _). rewrite Hpc in Hs. cbn [prepared_of pc_step_id] in Hs. rewrite Hid in Hs.
  pose proof (cp_execution _ _ _ _ _ _ _ Hp) as He.
  destruct (cp_taken _ _ _ _ _ _ _ Hp) as [Hg _ _ _|s1 input Hg Hready Heq _ _ _]; rewrite Hid, Hs0 in Hg.
  - injection Hg as ->. split; [|split; [done|]].
    + split; [unfold step_policy; by rewrite Hs, Hs0, He|]. intros s Hs'. exists s. split; [|done]. by rewrite Hs, <- Hs0.
    + unfold next_attempt. by rewrite bool_decide_eq_true_2.
  - injection Hg as <-. destruct (pin_input_id input s0) as [Hpid Hpc1].
    assert (es_attempt_count (cr_step rows) = es_attempt_count s0 + 1)%Z as Hcount by by rewrite Heq.
    assert (next_attempt s0 = es_attempt_count s0 + 1)%Z as Hn by (unfold next_attempt; by rewrite bool_decide_eq_false_2 by by rewrite Hready).
    split; [|split; [done|lia]]. split.
    + unfold step_policy. rewrite Hs, Hs0, He, Heq. cbn. unfold pin_input. by destruct (is_none _).
    + intros s Hs'. rewrite Hs0 in Hs'. injection Hs' as <-. exists (cr_step rows). split; [done|]. rewrite Hn.
      unfold next_attempt. rewrite bool_decide_eq_true_2 by done. lia.
Qed.

Lemma retry_checkpoint_rows rows exc meta first_byte risk now protected st st' terminal s :
  apply_retry_checkpoint rows exc meta first_byte risk now protected st = Ok (st', terminal) →
  get_step (es_id (cr_step rows)) st = Some s →
  st_execution st' = st_execution st ∧ get_step (es_id (cr_step rows)) st' = Some (retry_step s).
Proof.
  unfold apply_retry_checkpoint. cbn zeta. intros H Hs. apply bind_Ok in H as (m & _ & [= <- _]). split; [done|].
  rewrite get_step_upd by done. unfold get_step in *. cbn [st_steps upd_attempt upd_call set_st_attempts set_st_calls]. by rewrite Hs.
Qed.

(** ** A retry needs one more attempt *)
Definition max_attempts_of (policy : json) : Z := default 1%Z (pinned_max_attempts policy).

Lemma max_attempts_pos policy : (1 ≤ max_attempts_of policy)%Z.
Proof.
  unfold max_attempts_of, pinned_max_attempts. destruct (get_or_none _ _) as [| |n| | | |]; try (cbn; lia).
  destruct (Z.ltb_spec n 1); cbn; lia.
Qed.

Lemma round_retries execution_id step_id rd st s :
  others_keep step_id rd → re_result (run_round execution_id step_id rd st) = None → get_step step_id st = Some s →
  let st' := rn_before_next rd (re_store (run_round execution_id step_id rd st)) in
  ∃ policy, step_policy step_id st = Some (Ok policy) ∧ step_policy step_id st' = step_policy step_id st ∧
  (∃ s', get_step step_id st' = Some s' ∧ (1 ≤ next_attempt s')%Z ∧ (next_attempt s < next_attempt s')%Z) ∧
  (next_attempt s < max_attempts_of policy)%Z ∧ ∃ p, str_or (pinned_risk_class policy) (pc_risk_class p) = "READ_ONLY".
Proof.
  intros Hothers Hnone Hs. cbn zeta. apply round_goes_on in Hnone as (p & st1 & ending & meta & fb & pr & st2 & o & Hp & Hst & Hf & Ho).
  rewrite Hst. apply prepare_prepared in Hp as (_ & rows & Hp).
  destruct (prepared_undisturbed _ _ _ _ _ _ _ _ Hp Hs) as (Hu1 & Hs1 & Hn1).
  assert (pc_step_id p = step_id) as Hid.
  { destruct (cp_current _ _ _ _ _ _ _ Hp) as (w & t & r & -> & _). by apply (cp_step_id _ _ _ _ _ _ _ Hp). }
  destruct (finalize_retry _ _ _ _ _ _ _ _ _ _ Hf Ho) as (rows2 & policy2 & timeout & exc & terminal & Hrows & Hpol2 & Hr & Hck).
  destruct (Hothers st1) as (Hu2 & _). destruct (Hothers (rn_before_gate rd st1)) as (_ & Hu3 & _).
  destruct (Hothers st2) as (_ & _ & Hu4). pose proof (transitivity Hu2 Hu3) as Hu. clear Hf Hothers Hu2 Hu3.
  set (st3 := rn_before_end rd (rn_before_gate rd st1)) in *.
  apply finalize_rows_step in Hrows as (Hs3 & _). rewrite Hid in Hs3. pose proof (get_step_id _ _ _ Hs3) as Hid3.
  destruct (un_step _ _ _ Hu _ Hs1) as (s' & Hs3' & Hc3 & _). rewrite Hs3 in Hs3'. injection Hs3' as <-.
  assert (step_policy step_id st3 = step_policy step_id st) as Hsp by by rewrite (un_policy _ _ _ Hu), (un_policy _ _ _ Hu1).
  assert (step_policy step_id st = Some (Ok policy2)) as Hpol
    by (rewrite <- Hsp; unfold step_policy; rewrite Hs3; cbn; by rewrite Hpol2).
  apply retry_of_allowed in Hr as ([Hrisk Hcount] & _).
  pose proof (retry_checkpoint_rows _ _ _ _ _ _ _ _ _ _ (cr_step rows2) Hck) as Hck'. rewrite Hid3 in Hck'.
  destruct (Hck' Hs3) as [He Hs2]. destruct (un_step _ _ _ Hu4 _ Hs2) as (s' & Hs' & _ & Hn').
  assert (next_attempt (retry_step (cr_step rows2)) = es_attempt_count (cr_step rows2) + 1)%Z as Hn2 by done.
  fold (max_attempts_of policy2) in Hcount. exists policy2. split; [done|]. split; [|split; [exists s'; split; [done|lia]|split; [lia|by exists p]]].
  rewrite (un_policy _ _ _ Hu4), <- Hsp. unfold step_policy. by rewrite Hs2, Hs3, He.
Qed.

(** ** A run sends at most as often as the pinned policy allows, and ends *)
Definition attempts_pinned (step_id : uuid) (st : store) : Z :=
  match step_policy step_id st with Some (Ok policy) => max_attempts_of policy | _ => 1%Z end.
Definition next_attempt_of (step_id : uuid) (st : store) : Z :=
  match get_step step_id st with Some s => next_attempt s | None => 1%Z end.
(** The pinned risk class is known, and the tool is not READ_ONLY. *)
Definition may_write (step_id : uuid) (st : store) : Prop :=
  ∃ policy risk, step_policy step_id st = Some (Ok policy) ∧ pinned_risk_class policy = Some risk ∧ risk ≠ "READ_ONLY".

Lemma attempts_pinned_pos step_id st : (1 ≤ attempts_pinned step_id st)%Z.
Proof. unfold attempts_pinned. destruct (step_policy _ _) as [[p|]|]; [apply max_attempts_pos|lia|lia]. Qed.

Lemma round_again execution_id step_id rd st :
  others_keep step_id rd → re_result (run_round execution_id step_id rd st) = None →
  let st' := rn_before_next rd (re_store (run_round execution_id step_id rd st)) in
  step_policy step_id st' = step_policy step_id st ∧ (1 ≤ next_attempt_of step_id st')%Z ∧
  (next_attempt_of step_id st < next_attempt_of step_id st')%Z ∧
  (next_attempt_of step_id st < attempts_pinned step_id st)%Z ∧ ¬ may_write step_id st.
Proof.
  intros Hothers Hnone. cbn zeta. unfold attempts_pinned, may_write.
  destruct (get_step step_id st) as [s|] eqn:Hs.
  2:{ apply round_goes_on in Hnone as (p & st1 & ? & ? & ? & ? & ? & ? & Hp & _). unfold prepare in Hp.
      rewrite Hs in Hp. destruct (negb _); [discriminate Hp|]. discriminate Hp. }
  destruct (round_retries _ _ _ _ _ Hothers Hnone Hs) as (policy & Hp & Hsp & (s' & Hs' & H1 & Hlt) & Hmax & p & Hrisk).
  unfold next_attempt_of. rewrite Hs, Hs', Hsp, Hp. do 4 (split; [done|]). intros (q & r & [= <-] & Hr & Hne).
  unfold str_or in Hrisk. rewrite Hr in Hrisk. unfold pinned_risk_class in Hr.
  destruct (get_or_none _ _) as [| | | |raw| |]; try discriminate Hr.
  destruct (str_empty raw) eqn:E; [discriminate Hr|]. injection Hr as ->.
  by destruct r.
Qed.

Lemma run_bound execution_id step_id rounds st :
  Forall (others_keep step_id) rounds →
  let run := run_claimed_tool_step execution_id step_id rounds st in
  let left := (attempts_pinned step_id st - next_attempt_of step_id st)%Z in
  (Z.of_nat (length (tn_sent run)) ≤ Z.max 1 (left + 1))%Z ∧
  (tn_result run = None → (Z.of_nat (length rounds) ≤ Z.max 0 left)%Z) ∧
  (may_write step_id st → (length (tn_sent run) ≤ 1)%nat).
Proof.
  intros Hothers. revert st. induction Hothers as [|rd rounds Ho _ IH]; intros st; cbn zeta.
  { cbn. split; [lia|]. split; [lia|lia]. }
  cbn [run_claimed_tool_step]. destruct (re_result (run_round execution_id step_id rd st)) as [result|] eqn:Hr.
  - cbn [tn_sent tn_result]. destruct (re_sent _); cbn; (split; [lia|]); (split; [done|lia]).
  - destruct (round_again _ _ _ _ Ho Hr) as (Hsp & Hpos & Hlt & Hmax & Hread).
    destruct (IH (rn_before_next rd (re_store (run_round execution_id step_id rd st)))) as (IH1 & IH2 & IH3).
    assert (attempts_pinned step_id (rn_before_next rd (re_store (run_round execution_id step_id rd st)))
            = attempts_pinned step_id st) as Hap by (unfold attempts_pinned; by rewrite Hsp).
    rewrite Hap in *. cbn [tn_sent tn_result length]. rewrite length_app, Nat2Z.inj_add.
    assert (length (option_list (re_sent (run_round execution_id step_id rd st))) ≤ 1)%nat as H1
      by (destruct (re_sent _); cbn; lia).
    split; [lia|]. split; [|done]. intros Hn. specialize (IH2 Hn). lia.
Qed.

(** ** Others that keep to it: the renewal of the lease, a cancellation *)
(** Two rows of an execution that pin the same policies *)
Definition same_pins (e e' : execution) : Prop :=
  ∀ id version, get_expected_tool_policy_snapshot e' id version = get_expected_tool_policy_snapshot e id version.

Lemma undisturbed_steps step_id st st' f :
  same_pins (st_execution st) (st_execution st') → st_steps st' = f <$> st_steps st →
  (∀ s, es_id (f s) = es_id s ∧ es_step_snapshot (f s) = es_step_snapshot s ∧ es_step_key (f s) = es_step_key s ∧
        es_mcp_tool_version_id (f s) = es_mcp_tool_version_id s ∧ es_attempt_count (f s) = es_attempt_count s ∧
        (es_status (f s) = StepStatus.RUNNING → es_status s = StepStatus.RUNNING)) →
  undisturbed step_id st st'.
Proof.
  intros He Hs Hf. assert (get_step step_id st' = f <$> get_step step_id st) as Hg.
  { unfold get_step. rewrite Hs. clear Hs. induction (st_steps st) as [|x l IH]; [done|]. cbn [fmap list_fmap find_first].
    destruct (Hf x) as [-> _]. by case_bool_decide. }
  split.
  - unfold step_policy. rewrite Hg. destruct (get_step step_id st) as [x|]; [|done]. cbn. f_equal.
    destruct (Hf x) as (_ & H1 & H2 & H3 & _). unfold pinned_step_policy, snapshot_step_id. rewrite H1, H2, H3.
    destruct (match es_step_snapshot x with JObj d => _ | _ => _ end) as [id|]; [|done]. cbn [mbind res_bind].
    destruct (es_mcp_tool_version_id x) as [v|]; [|done]. cbn [of_option mbind res_bind]. by rewrite He.
  - intros x Hx. exists (f x). rewrite Hg, Hx. split; [done|]. destruct (Hf x) as (_ & _ & _ & _ & Hc & Hr). rewrite Hc.
    split; [lia|]. unfold next_attempt. rewrite Hc. do 2 case_bool_decide; try lia. by destruct (Hr ltac:(done)).
Qed.

Lemma renewal_undisturbed step_id lease execution_id worker token now st st' t :
  renew_lease lease execution_id worker token now st = Ok (st', t) → undisturbed step_id st st'.
Proof.
  unfold renew_lease. intros H. inv_res. apply (undisturbed_steps _ _ _ Datatypes.id); [done|by rewrite list_fmap_id|done].
Qed.

Lemma settle_undisturbed now P st0 s :
  let s' := settle now P st0 s in
  es_id s' = es_id s ∧ es_step_snapshot s' = es_step_snapshot s ∧ es_step_key s' = es_step_key s ∧
  es_mcp_tool_version_id s' = es_mcp_tool_version_id s ∧ es_attempt_count s' = es_attempt_count s ∧
  (es_status s' = StepStatus.RUNNING → es_status s = StepStatus.RUNNING).
Proof. unfold settle, cancel_step. cbn zeta. destruct (keeps P st0 s); [done|]. by destruct (is_terminal_step_status _). Qed.

Lemma cancellation_undisturbed step_id now by_ reason st st' o :
  store_wf st → apply_cancellation_locked now by_ reason st = Ok (st', o) → undisturbed step_id st st'.
Proof.
  intros Hwf. unfold apply_cancellation_locked. case_bool_decide; [by intros [= <- _]|]. case_bool_decide; [by intros [= <- _]|].
  intros Hc. apply bind_Ok in Hc as ([] & _ & Hc). cbn zeta in Hc. set (st1 := upd_execution _ st) in *.
  assert (same_pins (st_execution st) (st_execution st1)) as Hpins
    by (subst st1; cbn; unfold set_cancel_metadata_once; by destruct (ex_cancel_requested_at _)).
  assert (store_wf st1) as Hwf1.
  { eapply same_keys_wf; [|exact Hwf]. by destruct (request_rows now by_ reason st) as (Hid & _). }
  unfold finish_cancelled in Hc. destruct (_ || _); injection Hc as <- _.
  - destruct (cancel_everything_rows now by_ [] st1 Hwf1) as (_ & He & _ & _ & _ & _ & Hs).
    apply (undisturbed_steps _ _ _ (settle now [] st1)); [| |intros s; apply settle_undisturbed]; drop_events.
    + cbn [st_execution upd_execution set_st_execution]. rewrite He. exact Hpins.
    + exact Hs.
  - destruct (cancel_everything_rows now by_ (preserve_ids st1) st1 Hwf1) as (_ & He & _ & _ & _ & _ & Hs).
    apply (undisturbed_steps _ _ _ (settle now (preserve_ids st1) st1)); [| |intros s; apply settle_undisturbed]; drop_events.
    + cbn [st_execution upd_execution set_st_execution]. rewrite He. exact Hpins.
    + exact Hs.
Qed.

(** ** The properties *)
(** C16: A call that phase A prepares is one new STARTED call of a STARTED
    attempt of its RUNNING step: made under the worker's lease in force, on an
    execution that is RUNNING and not cancelled; the attempt had no call in
    flight, is numbered as the step counts it, and is either the one the step
    was running or a fresh one, and is called again only with an answered
    input.  The rows it names are consistent, and its timeout is positive and
    within the policy's. *)
Theorem prepared_call_spec c a execution_id step_id st st' p :
  prepare c a execution_id step_id st = Ok (st', Prepared p) →
  ex_id (st_execution st) = execution_id ∧ ∃ rows, call_prepared c a step_id st st' rows p.
Proof. apply prepare_prepared. Qed.

(** C14: Every call that leaves for the remote end passed the gate of its round:
    the worker holds the lease in force on a RUNNING execution nobody
    cancelled; the call, its attempt and its step are in flight; the tool, its
    version and its server are the current active ones the call was prepared
    for; the requester may execute the tool now; its policy is the pinned one;
    and an approval or a confirmation the policy asks for is there, for what is
    about to run.  It is sent with the secrets resolved for it. *)
Theorem sent_calls_checked execution_id step_id rounds st sn :
  sn ∈ tn_sent (run_claimed_tool_step execution_id step_id rounds st) →
  ∃ rd st0, rd ∈ rounds ∧ passed_gate execution_id step_id rd st0 sn.
Proof.
  revert st. induction rounds as [|rd rounds IH]; intros st; cbn [run_claimed_tool_step]; [intros []%elem_of_nil|].
  assert (sn ∈ option_list (re_sent (run_round execution_id step_id rd st)) →
    ∃ rd0 st0, rd0 ∈ rd :: rounds ∧ passed_gate execution_id step_id rd0 st0 sn) as Hhere.
  { destruct (re_sent _) as [sn'|] eqn:Hs; [|intros []%elem_of_nil]. intros ->%list_elem_of_singleton.
    exists rd, st. split; [left|by apply round_sent]. }
  destruct (re_result _); [exact Hhere|]. cbn [tn_sent]. intros [Hin|Hin]%elem_of_app; [by apply Hhere|].
  destruct (IH _ Hin) as (rd0 & st0 & Hrd & Hg). exists rd0, st0. split; [by right|done].
Qed.


(** C19: The loop of a run ends: after as many rounds as the pinned policy has
    attempts it has returned or raised, whatever the others do meanwhile that
    keeps the pinned policy and the count of attempts. *)
Theorem run_ends execution_id step_id rounds st :
  Forall (others_keep step_id) rounds → (1 ≤ next_attempt_of step_id st)%Z →
  (attempts_pinned step_id st ≤ Z.of_nat (length rounds))%Z →
  ∃ result, tn_result (run_claimed_tool_step execution_id step_id rounds st) = Some result.
Proof.
  intros Hothers Hnext Hlen. destruct (run_bound execution_id step_id rounds st Hothers) as (_ & H2 & _).
  pose proof (attempts_pinned_pos step_id st).
  destruct (tn_result _) as [r|]; [by exists r|]. specialize (H2 eq_refl). lia.
Qed.
End sound.
