(* ===== verification/ToolInvariant.v ===== *)
(** * The rows a run of the tool runner keeps

    Keys stay unique and refer to rows, a call in flight belongs to an attempt
    in flight, and an attempt has one call in flight.  Recovery relies on the
    first two (RecoverySound.v); here every transaction of the runner keeps
    all of them. *)
From S2P Require Import Prelude PyStr PyDict Json PyUuid CanonicalHash Domain LoopRuntime BindingResolver Rows.
From S2P Require Import Cancellation CancelSound PolicySelection RetryDecision ToolLineage Claim Preflight.
From S2P Require Import ApprovalEvidence Approval RecoverySound ResultValidator SecretRedaction MrtrWait ToolAttempt.
From S2P Require Import ToolRunner ToolPrepare ToolFinalize ToolPrepareSound.

Definition call_in_flight (c : tool_call) : Prop := cl_normalized_status c = AttemptStatus.STARTED.

Record rows_in_flight (st : store) : Prop := RowsInFlight {
  rf_wf : store_wf st;
  rf_live : started_calls_live st;
  rf_one c c' : c ∈ st_calls st → c' ∈ st_calls st → call_in_flight c → call_in_flight c' →
    cl_step_attempt_id c = cl_step_attempt_id c' → cl_id c = cl_id c' }.

(** No call of the attempt is in flight. *)
Definition idle_attempt (id : uuid) (st : store) : Prop :=
  ∀ c, c ∈ st_calls st → cl_step_attempt_id c = id → ¬ call_in_flight c.
(** The call is the only one of the attempt that may be in flight. *)
Definition own_call (attempt_id call_id : uuid) (st : store) : Prop :=
  ∀ c, c ∈ st_calls st → cl_step_attempt_id c = attempt_id → call_in_flight c → cl_id c = call_id.

(** ** Changes that start nothing and end no attempt with a call in flight *)
Record settles (st st' : store) : Prop := Settles {
  sl_keys : same_keys st st';
  sl_calls c' : c' ∈ st_calls st' → call_in_flight c' →
    ∃ c, c ∈ st_calls st ∧ cl_id c = cl_id c' ∧ cl_step_attempt_id c = cl_step_attempt_id c' ∧ call_in_flight c;
  sl_attempts a' : a' ∈ st_attempts st' → sa_status a' ≠ AttemptStatus.STARTED →
    (∃ a, a ∈ st_attempts st ∧ sa_id a = sa_id a' ∧ sa_status a ≠ AttemptStatus.STARTED) ∨ idle_attempt (sa_id a') st' }.

Lemma settles_idle st st' id : settles st st' → idle_attempt id st → idle_attempt id st'.
Proof. intros [_ Hc _] Hi c Hin Hfk Hf. destruct (Hc c Hin Hf) as (c0 & H0 & _ & Hk & Hf0). apply (Hi c0 H0); congruence. Qed.

Lemma settles_own st st' aid cid : settles st st' → own_call aid cid st → own_call aid cid st'.
Proof.
  intros [_ Hc _] Ho c Hin Hfk Hf. destruct (Hc c Hin Hf) as (c0 & H0 & Hid & Hk & Hf0). rewrite <- Hid.
  apply (Ho c0 H0); congruence.
Qed.

#[export] Instance settles_preorder : PreOrder settles.
Proof.
  split.
  - intros st. split; [done|by intros c; exists c|]. intros a Ha Hs. left. by exists a.
  - intros st1 st2 st3 H12 H23. split; [etrans; [apply H12|apply H23]| |].
    + intros c3 H3 Hf3. destruct (sl_calls _ _ H23 c3 H3 Hf3) as (c2 & H2 & Hi2 & Hk2 & Hf2).
      destruct (sl_calls _ _ H12 c2 H2 Hf2) as (c1 & H1 & Hi1 & Hk1 & Hf1). exists c1. split; [done|]. split; [congruence|].
      split; [congruence|done].
    + intros a3 H3 Hs3. destruct (sl_attempts _ _ H23 a3 H3 Hs3) as [(a2 & H2 & Hi2 & Hs2)|Hidle]; [|by right].
      destruct (sl_attempts _ _ H12 a2 H2 Hs2) as [(a1 & H1 & Hi1 & Hs1)|Hidle].
      * left. exists a1. split; [done|]. split; [congruence|done].
      * right. rewrite <- Hi2. by eapply settles_idle.
Qed.

Lemma rows_in_flight_settles st st' : settles st st' → rows_in_flight st → rows_in_flight st'.
Proof.
  intros Hs [Hwf Hl Ho]. assert (store_wf st') as Hwf' by (by eapply same_keys_wf; [apply Hs|]). split; [done| |].
  - intros c' a' Hc' Hf Ha' Hk. destruct (sl_calls _ _ Hs c' Hc' Hf) as (c & Hc & Hid & Hfk & Hf0).
    destruct (decide (sa_status a' = AttemptStatus.STARTED)) as [|Hne]; [done|]. exfalso.
    destruct (sl_attempts _ _ Hs a' Ha' Hne) as [(a & Ha & Hia & Hna)|Hidle].
    + apply Hna, (Hl c a); try done. congruence.
    + by apply (Hidle c').
  - intros c1 c2 H1 H2 Hf1 Hf2 Hk. destruct (sl_calls _ _ Hs c1 H1 Hf1) as (d1 & D1 & <- & K1 & F1).
    destruct (sl_calls _ _ Hs c2 H2 Hf2) as (d2 & D2 & <- & K2 & F2). apply Ho; [done..|congruence].
Qed.

(** *** One assignment after the other *)
Lemma settles_rows st0 st st' :
  same_keys st st' → st_calls st' = st_calls st → st_attempts st' = st_attempts st → settles st0 st → settles st0 st'.
Proof.
  intros Hk Hc Ha H. etrans; [exact H|]. split; [done| |].
  - intros c. rewrite Hc. by exists c.
  - intros a. rewrite Ha. intros Hin Hs. left. by exists a.
Qed.
Lemma settles_step st0 st id f :
  (∀ s, es_id (f s) = es_id s ∧ es_execution_id (f s) = es_execution_id s) → settles st0 st → settles st0 (upd_step id f st).
Proof. intros Hf. apply settles_rows; [by apply upd_step_keys|done..]. Qed.
Lemma settles_execution st0 st f :
  (∀ e, ex_id (f e) = ex_id e) → settles st0 st → settles st0 (upd_execution f st).
Proof. intros Hf. apply settles_rows; [|done..]. split; [apply Hf|done]. Qed.
Lemma settles_emit_execution st0 st p now : settles st0 st → settles st0 (emit_execution_status_changed p now st).
Proof.
  destruct (emit_execution_rows p now st) as (E1 & E2 & E3 & E4 & _). apply settles_rows; [|done..].
  unfold same_keys. by rewrite E1, E2, E3, E4.
Qed.
Lemma settles_emit_step st0 st now s : settles st0 st → settles st0 (emit_of_step now s st).
Proof.
  destruct (emit_of_step_rows now s st) as (E1 & E2 & E3 & E4 & _). apply settles_rows; [|done..].
  unfold same_keys. by rewrite E1, E2, E3, E4.
Qed.
Lemma settles_approvals st0 st l : settles st0 st → settles st0 (set_st_approvals l st).
Proof. by apply settles_rows. Qed.
Lemma settles_inputs st0 st l : settles st0 st → settles st0 (set_st_inputs l st).
Proof. by apply settles_rows. Qed.
Lemma settles_events st0 st l : settles st0 st → settles st0 (set_st_events l st).
Proof. by apply settles_rows. Qed.
Lemma settles_call st0 st id f :
  (∀ c, cl_id (f c) = cl_id c ∧ cl_step_attempt_id (f c) = cl_step_attempt_id c ∧ (call_in_flight (f c) → call_in_flight c)) →
  settles st0 st → settles st0 (upd_call id f st).
Proof.
  intros Hf H. etrans; [exact H|]. split; [apply upd_call_keys; intros c; by destruct (Hf c) as (? & ? & _)| |].
  - intros c' (c & Hc & ->)%elem_of_upd_where. exists c. destruct (Hf c) as (? & ? & ?). split; [done|]. case_decide; [|done]. split; [done|]. split; [done|]. auto.
  - intros a Ha Hs. left. by exists a.
Qed.
Lemma settles_attempt st0 st id f :
  (∀ a, sa_id (f a) = sa_id a ∧ sa_step_execution_id (f a) = sa_step_execution_id a) →
  (idle_attempt id st ∨ ∀ a, sa_status (f a) = sa_status a) → settles st0 st → settles st0 (upd_attempt id f st).
Proof.
  intros Hf Hi H. etrans; [exact H|]. split; [by apply upd_attempt_keys|by intros c; exists c|].
  intros a' (a & Ha & ->)%elem_of_upd_where. case_decide as Hid; [|left; by exists a].
  destruct (Hf a) as [Hk _]. intros Hs. destruct Hi as [Hi|Hi].
  - right. rewrite Hk, Hid. exact Hi.
  - left. exists a. by rewrite <- Hi.
Qed.

Lemma cancel_attempt_key now a :
  sa_id (cancel_attempt now a) = sa_id a ∧ sa_step_execution_id (cancel_attempt now a) = sa_step_execution_id a.
Proof. apply cancel_attempt_keys. Qed.

(** [settle_rows] reads a chain of assignments from its end. *)
Ltac settle_chain :=
  repeat first
    [ done
    | apply settles_emit_execution | apply settles_emit_step | apply settles_events
    | apply settles_approvals | apply settles_inputs
    | apply settles_step; [intros ?; by repeat case_match|]
    | apply settles_execution; [intros ?; by repeat case_match|]
    | apply settles_call; [intros ?; by repeat case_match|] ].

(** ** Cancellation *)
Lemma settles_cancel_attempts now id st : settles st (cancel_started_attempts_without_inflight_tool_call now id st).
Proof.
  unfold cancel_started_attempts_without_inflight_tool_call. generalize (list_attempts id st). intros L. revert st.
  induction L as [|a L IH]; intros st; [done|]. cbn [foldl]. etrans; [|apply IH]. unfold cancel_idle_attempt.
  case_bool_decide; [|done]. cbn [negb]. destruct (existsb _ _) eqn:He; [done|].
  apply settles_attempt; [apply cancel_attempt_key|left|done]. intros c Hc Hk Hf. rewrite existsb_elem_false in He.
  specialize (He c ltac:(by apply elem_of_list_tool_calls)). unfold call_started in He. by rewrite bool_decide_eq_true_2 in He.
Qed.

Lemma cancel_step_key now s : es_id (cancel_step now s) = es_id s ∧ es_execution_id (cancel_step now s) = es_execution_id s.
Proof. apply cancel_step_keys. Qed.

Lemma settles_cancel_everything now by_ P st : settles st (cancel_everything now by_ P st).
Proof.
  unfold cancel_everything, cancel_safe_nonterminal_steps. set (L := list_steps _). clearbody L.
  assert (settles st (reject_open_mrtr_requests now by_ (cancel_pending_approvals now st))) as H
    by (apply settles_inputs, settles_approvals; done).
  revert H. generalize (reject_open_mrtr_requests now by_ (cancel_pending_approvals now st)). intros st1 H. revert st1 H.
  induction L as [|s L IH]; intros st1 H; [done|]. cbn [foldl]. apply IH. unfold cancel_safe_step.
  case_bool_decide; [done|]. destruct (is_terminal_step_status _); [done|].
  assert (settles st (upd_step (es_id s) (cancel_step now) (cancel_started_attempts_without_inflight_tool_call now (es_id s) st1)))
    by (apply settles_step; [apply cancel_step_key|]; by etrans; [exact H|apply settles_cancel_attempts]).
  assert (settles st (upd_step (es_id s) (cancel_step now) st1)) by (by apply settles_step; [apply cancel_step_key|]).
  destruct (es_status s); try done. by destruct (step_has_started_tool_call _ _).
Qed.

Lemma settles_reconcile now st st' o : reconcile_cancel_requested_locked now st = Ok (st', o) → settles st st'.
Proof.
  unfold reconcile_cancel_requested_locked. case_bool_decide; [by intros [= <- _]|]. case_bool_decide; [by intros [= <- _]|].
  intros Hr. apply bind_Ok in Hr as ([] & _ & Hr). destruct (list_started_tool_calls st); [|by injection Hr as <- _].
  destruct (existsb _ _); injection Hr as <- _; unfold fail_unknown, finish_cancelled; settle_chain; apply settles_cancel_everything.
Qed.

Lemma settles_force_cancel now st0 st : settles st0 st → settles st0 (force_cancel_requested now st).
Proof. unfold force_cancel_requested. case_bool_decide; [done|]. intros. settle_chain. Qed.

(** ** The end of a call *)
Definition keeps_step (f : execution_step → execution_step) : Prop :=
  ∀ s, es_id (f s) = es_id s ∧ es_execution_id (f s) = es_execution_id s.
Definition keeps_attempt (g : step_attempt → step_attempt) : Prop :=
  ∀ a, sa_id (g a) = sa_id a ∧ sa_step_execution_id (g a) = sa_step_execution_id a.
Definition ends_call (h : tool_call → tool_call) : Prop :=
  ∀ c, cl_id (h c) = cl_id c ∧ cl_step_attempt_id (h c) = cl_step_attempt_id c ∧ ¬ call_in_flight (h c).

Lemma ended_idle aid cid h st : own_call aid cid st → ends_call h → idle_attempt aid (upd_call cid h st).
Proof.
  intros Ho Hh c (c0 & Hc0 & ->)%elem_of_upd_where. destruct (Hh c0) as (_ & Hk & Hf). case_decide as Hid.
  - intros _. exact Hf.
  - intros Hk0 Hf0. by apply Hid, (Ho c0).
Qed.

Lemma settles_ended st0 st aid cid g h :
  own_call aid cid st → ends_call h → keeps_attempt g → settles st0 st → settles st0 (upd_attempt aid g (upd_call cid h st)).
Proof.
  intros Ho Hh Hg H. apply settles_attempt; [exact Hg|left; by apply ended_idle|].
  apply settles_call; [|done]. intros c. by destruct (Hh c) as (? & ? & ?).
Qed.

Lemma settles_upd_rows rows f g h now st :
  own_call (sa_id (cr_attempt rows)) (cl_id (cr_call rows)) st → keeps_step f → keeps_attempt g → ends_call h →
  settles st (upd_rows rows f g h now st).
Proof. intros Ho Hf Hg Hh. apply settles_emit_step, settles_step; [exact Hf|]. by apply settles_ended. Qed.

Lemma end_step_keeps status code message now : keeps_step (end_step status code message now).
Proof. done. Qed.
Lemma end_call_ends status meta bytes first_byte now : status ≠ AttemptStatus.STARTED → ends_call (end_call status meta bytes first_byte now).
Proof. done. Qed.

Lemma settles_fatal st0 st code message now defer : settles st0 st → settles st0 (apply_or_defer_execution_fatal code message now defer st).
Proof. intros H. unfold apply_or_defer_execution_fatal. destruct defer; settle_chain. Qed.

Lemma classify_ended exc risk : classify_mcp_failure exc risk ≠ AttemptStatus.STARTED.
Proof. unfold classify_mcp_failure. destruct (_ && _); [done|]. by destruct (_ && _). Qed.

Section phases.
Context {schema : PlanSchema} {parser : PlanParser} {validator : SchemaValidator}.

Lemma settle_call_ended ending risk output factory protected inline sm :
  settle_call ending risk output factory protected inline = Ok sm → sm_terminal sm ≠ AttemptStatus.STARTED.
Proof.
  destruct ending as [exc|result]; cbn [settle_call].
  - intros [= <-]. cbn. destruct (_ && _); [done|apply classify_ended].
  - unfold settle_result. destruct (validate_tool_result _ _ _); intros H.
    + apply bind_Ok in H as (size & _ & H). destruct (_ <? _)%Z; [by injection H as <-|].
      apply bind_Ok in H as (i & _ & H). by injection H as <-.
    + apply bind_Ok in H as (i & _ & H). by injection H as <-.
Qed.

Lemma settles_terminal rows ending meta fb risk output inline now protected defer factory st st' t d :
  own_call (sa_id (cr_attempt rows)) (cl_id (cr_call rows)) st →
  apply_terminal_transition rows ending meta fb risk output inline now protected defer factory st = Ok (st', t, d) →
  settles st st'.
Proof.
  intros Ho H. unfold apply_terminal_transition in H. apply bind_Ok in H as (m & _ & H).
  apply bind_Ok in H as (sm & Hsm%settle_call_ended & [= <- _ _]). unfold settle_execution.
  assert (settles st (settle_rows sm rows m fb now st)) as Hrows by (by apply settles_upd_rows; [..|apply end_call_ends]).
  case_bool_decide; [by settle_chain|]. destruct (_ || _); [by apply settles_fatal|by settle_chain].
Qed.

Lemma settles_retry rows exc meta fb risk now protected st st' t :
  own_call (sa_id (cr_attempt rows)) (cl_id (cr_call rows)) st →
  apply_retry_checkpoint rows exc meta fb risk now protected st = Ok (st', t) → settles st st'.
Proof.
  intros Ho H. unfold apply_retry_checkpoint in H. cbn zeta in H. apply bind_Ok in H as (m & _ & [= <- _]).
  apply settles_step; [done|]. apply settles_ended; [done|apply end_call_ends, classify_ended|done..].
Qed.

(** ** Phase B2 and C *)
Lemma settles_fail_open st0 st code message now id : settles st0 st → settles st0 (fail_open_step code message now id st).
Proof. intros H. unfold fail_open_step. destruct (get_step _ _); [|done]. destruct (step_terminal _); [done|settle_chain]. Qed.

Lemma settles_gate c p now st st' g :
  own_call (pc_attempt_id p) (pc_tool_call_id p) st → final_pre_send_gate c p now st = Ok (st', g) → settles st st'.
Proof.
  intros Ho. unfold final_pre_send_gate. cbn zeta. destruct (lease_of_prepared _ _ _); [|by intros [= <- _]]. cbn [negb].
  assert (settles st (fail_closed_lineage_corruption p now st).1) as Hcorrupt.
  { cbn [fail_closed_lineage_corruption fst]. apply settles_fatal. set (st1 := fail_open_step _ _ _ _ _).
    assert (settles st st1) as H1 by (by apply settles_fail_open).
    etrans; [exact H1|]. pose proof (settles_own _ _ _ _ H1 Ho) as Ho1. clearbody st1.
    split.
    - etrans; [|apply upd_call_keys; intros x; by destruct (call_started x)]. apply upd_attempt_keys. intros x. by case_bool_decide.
    - intros c1 (c0 & Hc0 & ->)%elem_of_upd_where Hf. exists c0. split; [done|]. revert Hf.
      case_decide; [|done]. unfold call_started. case_bool_decide; [done|done].
    - intros a' (a & Ha & ->)%elem_of_upd_where Hs. case_decide as Hid; [|left; by exists a].
      case_bool_decide as Hst; [|left; by exists a]. right. cbn. rewrite Hid.
      intros x (x0 & Hx0 & ->)%elem_of_upd_where. case_decide as Hx; [|intros Hk Hf; by apply Hx, (Ho1 x0)].
      unfold call_started. case_bool_decide as Hc; [done|]. intros _ Hf. by apply Hc. }
  destruct (prepared_rows p st) as [rows|] eqn:Hrows; [|by intros [= <- _]].
  destruct (prepared_invocation_lineage_matches _ _ _); [|by intros [= <- _]]. cbn [negb].
  destruct (cancellation_is_requested _).
  - unfold cancelled_before_send. intros H. apply bind_Ok in H as ([st1 o] & H & [= <- _]). cbn.
    unfold cancel_prepared_invocation_before_send in H. apply settles_reconcile in H. etrans; [|exact H].
    apply settles_force_cancel, settles_step; [apply cancel_step_key|].
    apply prepared_rows_Some in Hrows as (_ & ->%get_attempt_id & ->%get_call_id).
    apply settles_ended; [done| |exact (cancel_attempt_key now)|done].
    intros y. unfold call_started, call_in_flight. by case_bool_decide.
  - intros H. apply bind_Ok in H as (g' & _ & [= <- _]). done.
Qed.

Definition own_prepared (p : prepared_call) (st : store) : Prop := own_call (pc_attempt_id p) (pc_tool_call_id p) st.

Lemma finalize_rows_own message p now st rows :
  finalize_rows message p now st = Ok rows → own_prepared p st → own_call (sa_id (cr_attempt rows)) (cl_id (cr_call rows)) st.
Proof.
  intros (_ & Ha & Hc & _)%finalize_rows_step. apply get_attempt_id in Ha. apply get_call_id in Hc.
  unfold own_prepared. by rewrite Ha, Hc.
Qed.

Lemma settles_finalize p ending meta fb inline protected now st st' o :
  own_prepared p st → finalize_locked p ending meta fb inline protected now st = Ok (st', o) → settles st st'.
Proof.
  intros Ho H. unfold finalize_locked in H. apply bind_Ok in H as (rows & Hrows & H).
  pose proof (finalize_rows_own _ _ _ _ _ Hrows Ho) as Hown. apply bind_Ok in H as (policy & _ & H).
  apply bind_Ok in H as (timeout & _ & H). cbn zeta in H. destruct (retry_of _ _ _ _ _ _ _) as [exc|].
  - apply bind_Ok in H as ([st1 t] & H & [= <- _]). by eapply settles_retry.
  - unfold finalize_terminal in H. cbn zeta in H. apply bind_Ok in H as ([[st1 t] d] & Ht & H).
    apply settles_terminal in Ht; [|done]. destruct (_ && _); [|by injection H as <- _].
    apply bind_Ok in H as ([st2 co] & Hr%settles_reconcile & [= <- _]). by etrans.
Qed.

Lemma settles_settle_input rows call_status status code message meta reply fb now st :
  own_call (sa_id (cr_attempt rows)) (cl_id (cr_call rows)) st → call_status ≠ AttemptStatus.STARTED →
  settles st (settle_input rows call_status status code message meta reply fb now st).
Proof. intros Ho Hs. by apply settles_upd_rows; [| | |apply end_call_ends]. Qed.

Lemma settles_create_input st0 row st st' : create_input row st = Ok st' → settles st0 st → settles st0 st'.
Proof. unfold create_input. intros H. inv_res. intros. by apply settles_inputs. Qed.

Lemma settles_finalize_input p id reply meta fb protected now st st' o :
  own_prepared p st → finalize_input_required p id reply meta fb protected now st = Ok (st', o) → settles st st'.
Proof.
  intros Ho H. unfold finalize_input_required in H. apply bind_Ok in H as (rows & Hrows & H).
  pose proof (finalize_rows_own _ _ _ _ _ Hrows Ho) as Hown. apply bind_Ok in H as (timeout & _ & H).
  apply bind_Ok in H as (m & _ & H). destruct (_ || _).
  { injection H as <- _. apply settles_fatal. by apply settles_upd_rows. }
  destruct (cancellation_is_requested _).
  { unfold settle_cancelled_input in H. apply bind_Ok in H as ([st1 co] & H & [= <- _]). cbn.
    apply settles_reconcile in H. etrans; [|exact H]. apply settles_force_cancel, settles_step; [apply cancel_step_key|].
    apply settles_ended; [done|done|exact (cancel_attempt_key now)|done]. }
  destruct (step_timeout_budget_exhausted _ _ _).
  { unfold finalize_input_timeout in H. cbn zeta in H. apply bind_Ok in H as (st1 & Hc & [= <- _]). apply settles_execution; [done|].
    pose proof (settles_create_input st _ _ _ Hc ltac:(done)) as H1. etrans; [exact H1|].
    apply settles_settle_input; [by eapply settles_own|done]. }
  unfold finalize_input_wait in H. apply bind_Ok in H as (started & _ & H). apply bind_Ok in H as (t & _ & H).
  apply bind_Ok in H as ([] & _ & H). cbn zeta in H. destruct (_ <? _)%Z.
  { injection H as <- _. by apply settles_fatal, settles_settle_input. }
  destruct (pc_forbid_wait p); [injection H as <- _; by apply settles_fatal, settles_settle_input|].
  unfold open_input_wait in H. apply bind_Ok in H as ([] & _ & H). apply bind_Ok in H as (st1 & Hc & [= <- _]).
  eapply settles_create_input; [exact Hc|]. apply settles_emit_execution, settles_execution; [done|].
  apply settles_emit_step. by apply settles_upd_rows.
Qed.

Lemma settles_reply p id reply inline protected now st st' o :
  own_prepared p st → finalize_reply p id reply inline protected now st = Ok (st', o) → settles st st'.
Proof. intros Ho. destruct reply; cbn [finalize_reply]; [by apply settles_finalize|by apply settles_finalize_input|by apply settles_finalize]. Qed.

(** ** Phase A: new rows *)
Lemma in_flight_attempt row st st' :
  rows_in_flight st → sa_step_execution_id row ∈ es_id <$> st_steps st → create_attempt row st = Ok st' → rows_in_flight st'.
Proof.
  intros [Hwf Hl Ho] Hs (-> & Hn & _)%create_attempt_Ok.
  assert (sa_id row ∉ sa_id <$> st_attempts st) as Hfresh.
  { intros (a & Hid & Ha)%list_elem_of_fmap. unfold get_attempt in Hn. rewrite find_first_None in Hn. specialize (Hn a Ha).
    by rewrite bool_decide_eq_true_2 in Hn. }
  destruct Hwf as [W1 W2 W3 W4 W5 W6]. split.
  - split; try done.
    + cbn. rewrite fmap_app. apply NoDup_app. split; [done|]. split; [|apply NoDup_singleton].
      intros x Hx ->%list_elem_of_singleton. done.
    + intros a [Ha| ->%list_elem_of_singleton]%elem_of_app; [by apply W5|done].
    + intros c Hc. cbn. rewrite fmap_app. apply elem_of_app. left. by apply W6.
  - intros c a Hc Hf [Ha| ->%list_elem_of_singleton]%elem_of_app Hk; [by eapply Hl|]. exfalso. apply Hfresh. rewrite Hk. by apply W6.
  - exact Ho.
Qed.

Lemma in_flight_call row st st' a :
  rows_in_flight st → create_tool_call row st = Ok st' → a ∈ st_attempts st → sa_id a = cl_step_attempt_id row →
  sa_status a = AttemptStatus.STARTED → idle_attempt (cl_step_attempt_id row) st →
  rows_in_flight st' ∧ own_call (cl_step_attempt_id row) (cl_id row) st'.
Proof.
  intros [Hwf Hl Ho] (-> & Hn & _)%create_tool_call_Ok Ha Hid Hst Hidle.
  assert (cl_id row ∉ cl_id <$> st_calls st) as Hfresh.
  { intros (c & Hc & Hin)%list_elem_of_fmap. unfold get_tool_call in Hn. rewrite find_first_None in Hn. specialize (Hn c Hin).
    by rewrite bool_decide_eq_true_2 in Hn. }
  assert (own_call (cl_step_attempt_id row) (cl_id row) (set_st_calls (st_calls st ++ [row]) st)) as Hown.
  { intros c [Hc| ->%list_elem_of_singleton]%elem_of_app Hk Hf; [|done]. by destruct (Hidle c Hc Hk). }
  split; [|exact Hown]. destruct Hwf as [W1 W2 W3 W4 W5 W6]. split.
  - split; try done.
    + cbn. rewrite fmap_app. apply NoDup_app. split; [done|]. split; [|apply NoDup_singleton].
      intros x Hx ->%list_elem_of_singleton. done.
    + intros c [Hc| ->%list_elem_of_singleton]%elem_of_app; [by apply W6|]. cbn. rewrite <- Hid. by apply list_elem_of_fmap_2.
  - intros c b [Hc| ->%list_elem_of_singleton]%elem_of_app Hf Hb Hk; [by eapply Hl|].
    assert (b = a) as ->; [|done]. apply (key_inj sa_id (st_attempts st)); [done..|congruence].
  - intros c c' Hc Hc' Hf Hf' Hk. destruct (decide (cl_step_attempt_id c = cl_step_attempt_id row)) as [He|Hne].
    + rewrite (Hown c Hc He Hf). symmetry. apply Hown; [done|congruence|done].
    + apply elem_of_app in Hc as [Hc| ->%list_elem_of_singleton]; [|done].
      apply elem_of_app in Hc' as [Hc'| ->%list_elem_of_singleton]; [by apply Ho|by rewrite Hk in Hne].
Qed.

Lemma settles_enter_tool id cfg tp ap ri ts s st st' o : enter_for_tool_step id cfg tp ap ri ts s st = Ok (st', o) → settles st st'.
Proof.
  intros H. unfold enter_for_tool_step in H. destruct (_ || _).
  { apply bind_Ok in H as (x & _ & [= <- _]). done. }
  repeat (apply bind_Ok in H as (? & _ & H)). injection H as <- _. unfold apply_waiting_state.
  apply settles_execution; [done|]. apply settles_step; [done|]. apply settles_events.
  apply settles_emit_execution, settles_emit_step, settles_execution; [done|]. apply settles_step; [done|].
  by apply settles_approvals.
Qed.

Lemma pin_input_keeps input : keeps_step (pin_input input).
Proof. intros s. unfold pin_input. by destruct (is_none _). Qed.

Lemma same_keys_steps st st' : same_keys st st' → es_id <$> st_steps st' = es_id <$> st_steps st.
Proof. by intros (_ & [H _]%fmap_fst & _). Qed.

Lemma in_flight_start_attempt id worker lineage input s now st st' r :
  rows_in_flight st → es_id s ∈ es_id <$> st_steps st →
  start_attempt id worker lineage input s now st = Ok (st', r) → rows_in_flight st'.
Proof.
  intros Hrf Hs H. unfold start_attempt in H. cbn zeta in H. apply bind_Ok in H as ([] & _ & H).
  apply bind_Ok in H as (snap & _ & H). apply bind_Ok in H as (st1 & Hc & [= <- _]).
  assert (settles st (emit_of_step now s (upd_step (es_id s) (running_step (es_attempt_count s + 1) input now) st))) as Hset
    by (by apply settles_emit_step, settles_step).
  eapply in_flight_attempt; [by eapply rows_in_flight_settles| |exact Hc].
  cbn [sa_step_execution_id new_attempt]. by rewrite (same_keys_steps _ _ (sl_keys _ _ Hset)).
Qed.

Lemma in_flight_start c aid rid eid sid worker token now forbid st st' r :
  rows_in_flight st → start c aid rid eid sid worker token now forbid st = (st', r) → rows_in_flight st'.
Proof.
  intros Hrf. unfold start. destruct (mbind _ _) as [[w s]|] eqn:El; [|by intros [= <- _]].
  apply bind_Ok in El as (w' & _ & El). apply bind_Ok in El as (s' & Hs & [= _ <-]).
  unfold start_locked in Hs. apply bind_Ok in Hs as ([] & _ & Hs). apply bind_Ok in Hs as (s0 & Hs0%of_option_Ok & Hs).
  apply bind_Ok in Hs as ([] & _ & [= ->]).
  destruct (_ || _); [by intros [= <- _]|]. destruct (assert_execution_lease _ _ _ _); [|by intros [= <- _]].
  case_bool_decide; [by intros [= <- _]|].
  destruct (start_checked _ _ _) as [[[l au] i]|]; [|by intros [= <- _]].
  assert (settles st (upd_step (es_id s') (pin_input i) st)) as Hpin by (by apply settles_step; [apply pin_input_keeps|]).
  destruct (start_pinned _ _ _ _ _ _ _ _ _ _ _) as [[st1 r1]|] eqn:Hp; intros [= <- _].
  2:{ by eapply rows_in_flight_settles. }
  unfold start_pinned in Hp. apply bind_Ok in Hp as (v & _ & Hp). apply bind_Ok in Hp as ([] & _ & Hp).
  apply bind_Ok in Hp as (wait & Hw & Hp). destruct wait as [[st2 ow]|].
  - injection Hp as <- _. unfold start_approval in Hw. cbn zeta in Hw. destruct (mp_requires_approval _); [|discriminate Hw].
    apply bind_Ok in Hw as (ap & _ & Hw). apply bind_Ok in Hw as (cfg & _ & Hw). apply bind_Ok in Hw as (ev & _ & Hw).
    destruct ev; [discriminate Hw|]. apply bind_Ok in Hw as ([] & _ & Hw).
    apply bind_Ok in Hw as ([st3 o3] & Hw%settles_enter_tool & [= <- _]).
    eapply rows_in_flight_settles; [|exact Hrf]. by etrans.
  - eapply in_flight_start_attempt; [by eapply rows_in_flight_settles| |exact Hp].
    destruct (pin_input_id i s') as [-> _]. rewrite (same_keys_steps _ _ (sl_keys _ _ Hpin)).
    apply list_elem_of_fmap_2. by apply find_key_Some in Hs0 as [? _].
Qed.

(** What phase A leaves: rows in flight and, for a prepared call, no other
    call of its attempt *)
Definition phase_a_keeps (st' : store) (r : prepare_result) : Prop :=
  rows_in_flight st' ∧ ∀ p, r = Prepared p → own_prepared p st'.

Lemma settled_finished st st' o : rows_in_flight st → settles st st' → phase_a_keeps st' (Finished o).
Proof. intros Hrf Hs. split; [by eapply rows_in_flight_settles|done]. Qed.

Lemma settles_fail_prepare st0 st a code message id : settles st0 st → settles st0 (fail_prepare a code message id st).
Proof.
  intros H. unfold fail_prepare. assert (settles st0 (fail_open_step code message (pa_now a) id st)) by (by apply settles_fail_open).
  case_bool_decide; [by apply settles_fatal|done].
Qed.

Lemma keeps_failed_prepare st a code message o id : rows_in_flight st →
  phase_a_keeps (failed_prepare a code message o id st).1 (failed_prepare a code message o id st).2.
Proof. intros Hrf. eapply settled_finished; [exact Hrf|]. by apply settles_fail_prepare. Qed.

Lemma keeps_start_refused st a code message id : rows_in_flight st →
  phase_a_keeps (start_refused a code message id st).1 (start_refused a code message id st).2.
Proof.
  intros Hrf. unfold start_refused. cbn zeta.
  repeat match goal with |- context [if ?b then _ else _] => destruct b end; try (by eapply settled_finished);
    by apply keeps_failed_prepare.
Qed.

Lemma keeps_forbidden_wait st a id : rows_in_flight st → phase_a_keeps (forbidden_wait a id st).1 (forbidden_wait a id st).2.
Proof.
  intros Hrf. eapply settled_finished; [exact Hrf|]. cbn [forbidden_wait fst].
  assert (∀ f, keeps_step f → settles st (upd_step id f st)) as H by (intros f Hf; by apply settles_step).
  case_bool_decide; [apply settles_fatal|]; apply H; intros s; by destruct (step_terminal s).
Qed.

Lemma keeps_prepare_call c a replayed resume s attempt st st' r :
  rows_in_flight st → get_attempt (sa_id attempt) st = Some attempt → sa_status attempt = AttemptStatus.STARTED →
  idle_attempt (sa_id attempt) st → prepare_call c a replayed resume s attempt st = Ok (st', r) → phase_a_keeps st' r.
Proof.
  intros Hrf Ha Hst Hidle H. unfold prepare_call in H. apply bind_Ok in H as (w & _ & H). apply bind_Ok in H as (failure & _ & H).
  apply bind_Ok in H as (timeout & _ & H). cbn zeta in H. apply bind_Ok in H as (st1 & Hc & H).
  apply find_key_Some in Ha as [Ha _]. destruct (in_flight_call _ _ _ attempt Hrf Hc Ha) as [Hrf1 Hown]; [done..|].
  destruct (match failure with Some f => Some f | None => _ end) as [exc|].
  - apply bind_Ok in H as ([[st2 t] d] & Ht & [= <- <-]). apply settles_terminal in Ht; [|exact Hown].
    by eapply settled_finished.
  - injection H as <- <-. split; [done|]. by intros p [= <-].
Qed.

Lemma keeps_prepare_attempt c a replayed attempt_id step_id st st' r :
  rows_in_flight st → prepare_attempt c a replayed attempt_id step_id st = Ok (st', r) → phase_a_keeps st' r.
Proof.
  intros Hrf H. unfold prepare_attempt in H. apply bind_Ok in H as (attempt & Ha%of_option_Ok & H).
  apply bind_Ok in H as ([] & Hst & H). apply raise_if_Ok, negb_false_iff, bool_decide_eq_true in Hst.
  apply bind_Ok in H as (s & _ & H). cbn zeta in H.
  destruct (filter _ _) as [|call l] eqn:Hnone; [|injection H as <- <-; by eapply settled_finished].
  pose proof (get_attempt_id _ _ _ Ha) as Hid.
  assert (∀ code message, phase_a_keeps (failed_prepare a code message (Some attempt_id) step_id st).1
    (failed_prepare a code message (Some attempt_id) step_id st).2) as Hfail by (intros; by apply keeps_failed_prepare).
  apply try_app_Ok in H as [(resume & _ & H)|(code & message & ? & _ & H)].
  2:{ specialize (Hfail code message). by rewrite H in Hfail. }
  apply bind_Ok in H as ([] & _ & H). apply try_app_Ok in H as [([] & _ & H)|(code & message & ? & _ & H)].
  - eapply keeps_prepare_call; [exact Hrf|by rewrite Hid|exact Hst| |exact H]. rewrite Hid. intros x Hx Hk Hf.
    pose proof (list_calls_nil attempt_id st x Hnone Hx Hk) as Hx'. unfold call_started in Hx'. by rewrite bool_decide_eq_true_2 in Hx'.
  - specialize (Hfail code message). by rewrite H in Hfail.
Qed.

Lemma keeps_prepare_leased c a s st st' r : rows_in_flight st → prepare_leased c a s st = Ok (st', r) → phase_a_keeps st' r.
Proof.
  intros Hrf H. unfold prepare_leased in H. cbn zeta in H.
  destruct (step_terminal s); [injection H as <- <-; by eapply settled_finished|].
  apply bind_Ok in H as ([] & _ & H). apply bind_Ok in H as (timeout & _ & H). destruct (_ && _).
  { injection H as <- <-. eapply settled_finished; [exact Hrf|]. apply settles_execution; [done|by apply settles_step]. }
  unfold prepare_started in H. cbn zeta in H. destruct (start _ _ _ _ _ _ _ _ _ _) as [st1 r1] eqn:Hs.
  apply in_flight_start in Hs as Hrf1; [|done]. cbn [fst snd] in H.
  destruct r1 as [[o|w]|[code message status|k]].
  - by eapply keeps_prepare_attempt.
  - destruct (pa_forbid_approval a).
    + assert (forbidden_wait a (es_id s) st1 = (st', r)) as E by congruence.
      pose proof (keeps_forbidden_wait st1 a (es_id s) Hrf1) as Hk. by rewrite E in Hk.
    + injection H as <- <-. by eapply settled_finished.
  - assert (start_refused a code message (es_id s) st1 = (st', r)) as E by congruence.
    pose proof (keeps_start_refused st1 a code message (es_id s) Hrf1) as Hk. by rewrite E in Hk.
  - discriminate H.
Qed.

Lemma keeps_prepare c a execution_id step_id st st' r :
  rows_in_flight st → prepare c a execution_id step_id st = Ok (st', r) → phase_a_keeps st' r.
Proof.
  intros Hrf H. unfold prepare in H. destruct (negb _); [injection H as <- <-; by eapply settled_finished|].
  apply bind_Ok in H as (s & _ & H). apply bind_Ok in H as ([] & _ & H). apply bind_Ok in H as ([] & _ & H).
  unfold prepare_approval_wait in H. destruct (negb _); [injection H as <- <-; by eapply settled_finished|].
  destruct (execution_waiting _).
  { apply try_app_Ok in H as [(? & _ & H)|(? & ? & ? & _ & H)]; injection H as <- <-; by eapply settled_finished. }
  unfold prepare_input_wait in H. cbn zeta in H. destruct (_ || _).
  { destruct (negb _); [injection H as <- <-; by eapply settled_finished|].
    destruct (assert_durable_waiting_input _ _) as [|[code message status|k]];
      [injection H as <- <-; by eapply settled_finished| |discriminate H].
    destruct (String.eqb _ _); [injection H as <- <-; by eapply settled_finished|discriminate H]. }
  assert (∀ st1, settles st st1 → prepare_owned c a s st1 = Ok (st', r) → phase_a_keeps st' r) as Howned.
  { intros st1 Hs Ho. unfold prepare_owned in Ho. cbn zeta in Ho.
    case_bool_decide; [injection Ho as <- <-; by eapply settled_finished|].
    destruct (negb _); [injection Ho as <- <-; by eapply settled_finished|].
    eapply keeps_prepare_leased; [|exact Ho]. by eapply rows_in_flight_settles. }
  unfold prepare_cancelled in H. cbn zeta in H. destruct (negb _); [by eapply Howned|].
  case_bool_decide; [injection H as <- <-; by eapply settled_finished|].
  destruct (negb _); [injection H as <- <-; by eapply settled_finished|].
  match type of H with context [reconcile_cancel_requested_locked _ ?s1] => set (st1 := s1) in * end.
  assert (settles st st1) as H1 by (unfold st1; destruct (bool_decide _); [|done]; by apply settles_emit_execution, settles_execution).
  case_bool_decide; [|by eapply Howned].
  apply bind_Ok in H as ([st2 o] & Hr%settles_reconcile & [= <- <-]). eapply settled_finished; [exact Hrf|]. by etrans.
Qed.

(** ** A run *)
Definition attempt_of (step_id attempt_id : uuid) (st : store) : Prop :=
  ∃ a, a ∈ st_attempts st ∧ sa_id a = attempt_id ∧ sa_step_execution_id a = step_id.
(** The others keep the rows in flight, and start no call of an attempt of
    this step. *)
Definition leaves_step (step_id : uuid) (st st' : store) : Prop :=
  rows_in_flight st → rows_in_flight st' ∧
  ∀ attempt_id call_id, attempt_of step_id attempt_id st → own_call attempt_id call_id st →
    attempt_of step_id attempt_id st' ∧ own_call attempt_id call_id st'.
Definition others_leave (step_id : uuid) (rd : tool_round) : Prop :=
  ∀ st, leaves_step step_id st (rn_before_gate rd st) ∧ leaves_step step_id st (rn_before_end rd st) ∧
    leaves_step step_id st (rn_before_next rd st).

Lemma settles_leaves step_id st st' : settles st st' → leaves_step step_id st st'.
Proof.
  intros Hs Hrf. split; [by eapply rows_in_flight_settles|]. intros aid cid (a & Ha & Hid & Hk) Ho.
  split; [|by eapply settles_own]. pose proof (sl_keys _ _ Hs) as (_ & _ & He & _).
  apply (list_elem_of_fmap_2 (λ a, (sa_id a, sa_step_execution_id a))) in Ha. rewrite <- He in Ha.
  apply list_elem_of_fmap in Ha as (a' & [= H1 H2] & Ha'). exists a'. split; [done|]. split; congruence.
Qed.

Definition step_call (step_id : uuid) (p : prepared_call) (st : store) : Prop :=
  rows_in_flight st ∧ attempt_of step_id (pc_attempt_id p) st ∧ own_prepared p st.

Lemma leaves_step_call step_id p st st' : leaves_step step_id st st' → step_call step_id p st → step_call step_id p st'.
Proof. intros Hl (Hrf & Ha & Ho). destruct (Hl Hrf) as [Hrf' Hk]. destruct (Hk _ _ Ha Ho) as [Ha' Ho']. done. Qed.

Lemma prepared_step_call c a execution_id step_id st st' p :
  rows_in_flight st → prepare c a execution_id step_id st = Ok (st', Prepared p) → step_call step_id p st'.
Proof.
  intros Hrf H. destruct (keeps_prepare _ _ _ _ _ _ _ Hrf H) as [Hrf' Hown]. split; [done|]. split; [|by apply Hown].
  apply prepare_prepared in H as (_ & rows & Hp). pose proof (cp_rows _ _ _ _ _ _ _ Hp) as Hrows.
  apply prepared_rows_Some in Hrows as (_ & Ha & _). apply find_key_Some in Ha as [Ha Hid].
  exists (cr_attempt rows). split; [done|]. split; [done|]. rewrite <- (cp_step_id _ _ _ _ _ _ _ Hp).
  pose proof (cp_lineage _ _ _ _ _ _ _ Hp) as Hl. unfold prepared_invocation_lineage_matches, rows_of_call in Hl.
  destruct rows. by inv_res.
Qed.

(** The end of a round on the rows of its call *)
Lemma transaction_keeps {A} (run : store → res (store * A)) st :
  (∀ st' x, run st = Ok (st', x) → settles st st') → settles st (transaction run st).1.
Proof. intros H. unfold transaction. destruct (run st) as [[st' x]|e] eqn:E; [by eapply H|done]. Qed.

Lemma in_flight_unsent step_id rd p exc protected st :
  others_leave step_id rd → step_call step_id p st → rows_in_flight (re_store (settle_unsent rd p exc protected st)).
Proof.
  intros Ho Hp. destruct (Ho st) as (_ & Hend & _). apply (leaves_step_call _ p _ _ Hend) in Hp as (Hrf & _ & Hown).
  cbn [settle_unsent returns re_store]. eapply rows_in_flight_settles; [|exact Hrf].
  apply transaction_keeps. intros st' x. by apply settles_finalize.
Qed.

Lemma in_flight_sent step_id rd p secrets reply st :
  others_leave step_id rd → step_call step_id p st → rows_in_flight (re_store (settle_sent rd p secrets reply st)).
Proof.
  intros Ho Hp. destruct (Ho st) as (_ & Hend & _). apply (leaves_step_call _ p _ _ Hend) in Hp as (Hrf & _ & Hown).
  assert (re_store (settle_sent rd p secrets reply st) = (transaction (finalize_reply p (rn_input_id rd) reply
    (pa_inline_max_bytes (rn_args rd)) (cs_protected secrets) (rn_end_now rd)) (rn_before_end rd st)).1) as ->.
  { unfold settle_sent. cbn zeta. destruct reply; try done; destruct (transaction _ _).2; try done; by destruct (String.eqb _ _). }
  eapply rows_in_flight_settles; [|exact Hrf]. apply transaction_keeps. intros st' x. by apply settles_reply.
Qed.

Lemma in_flight_round execution_id step_id rd st :
  others_leave step_id rd → rows_in_flight st → rows_in_flight (re_store (run_round execution_id step_id rd st)).
Proof.
  intros Ho Hrf. unfold run_round. destruct (transaction _ st) as [st1 prep] eqn:Hp. unfold transaction in Hp.
  destruct (prepare _ _ _ _ st) as [[st2 r]|e] eqn:Hprep; injection Hp as <- <-; [|done].
  destruct (keeps_prepare _ _ _ _ _ _ _ Hrf Hprep) as [Hrf2 _]. destruct r as [p|o]; [|done].
  apply prepared_step_call in Hprep as Hcall; [|done].
  destruct (resolve_secrets _ _) as [secrets|[code message status|k]]; [|by eapply in_flight_unsent|done].
  destruct (Ho st2) as (Hg & _). apply (leaves_step_call _ p _ _ Hg) in Hcall. unfold send_round.
  destruct (transaction _ (rn_before_gate rd st2)) as [st3 gate] eqn:Hgate.
  assert (settles (rn_before_gate rd st2) st3) as Hs.
  { change st3 with (st3, gate).1. rewrite <- Hgate. apply transaction_keeps. intros st' x. apply settles_gate, Hcall. }
  apply (leaves_step_call _ p _ _ (settles_leaves step_id _ _ Hs)) in Hcall.
  destruct gate as [[|exc|o]|e]; [|by eapply in_flight_unsent|apply Hcall..].
  destruct (rn_remote _ _ _); [by eapply in_flight_sent|apply Hcall].
Qed.

(** C18: A run of a tool step keeps the rows of the execution well formed, on
    every path: keys stay unique and refer to rows, a call in flight belongs to
    an attempt in flight, and no attempt has two calls in flight, as long as the
    others keep the same and start no call of an attempt of this step. *)
Theorem run_keeps_rows execution_id step_id rounds st :
  Forall (others_leave step_id) rounds → rows_in_flight st →
  rows_in_flight (tn_store (run_claimed_tool_step execution_id step_id rounds st)).
Proof.
  intros Ho. revert st. induction Ho as [|rd rounds Hrd _ IH]; intros st Hrf; cbn [run_claimed_tool_step]; [done|].
  pose proof (in_flight_round execution_id step_id rd st Hrd Hrf) as H1.
  destruct (re_result _); [done|]. cbn [tn_store]. apply IH.
  destruct (Hrd (re_store (run_round execution_id step_id rd st))) as (_ & _ & Hn). by apply Hn.
Qed.
End phases.
