(* ===== verification/ToolFinalizeSound.v ===== *)
(** What a settled call leaves: the rows, and no secret in them. *)
From S2P Require Import Prelude PyStr PyDict Json PyUuid CanonicalHash Domain LoopRuntime BindingResolver Rows.
From S2P Require Import Cancellation CancelSound PolicySelection RetryDecision ToolLineage Claim Preflight.
From S2P Require Import ApprovalEvidence Approval ResultValidator SecretRedaction MrtrWait ToolAttempt ToolRunner.
From S2P Require Import ToolPrepare ToolFinalize ToolPrepareSound ToolRunSound.

(** * What the reply of a call leaves in the rows

    The call, its attempt and its step end alike, in the status the reply
    deserves; an unknown outcome ends the execution; and no secret the call was
    sent with reaches a row. *)

Section sound.
Context {schema : PlanSchema} {parser : PlanParser} {validator : SchemaValidator}.

(** ** The status a reply deserves *)
Definition fits_inline (result : normalized_tool_result) (inline_max : Z) : Prop :=
  ∃ size, utf8_json_size (serialize_result_inline result) = Ok size ∧ (size ≤ inline_max)%Z.

Definition deserved (ending : call_end) (risk : string) (output_schema : json) (factory : bool) (inline_max : Z)
    (t : attempt_status) : Prop :=
  match ending with
  | CallReturned result =>
      (t = AttemptStatus.SUCCEEDED ∧ validate_tool_result result output_schema factory = ResultValid ∧ fits_inline result inline_max)
      ∨ (t = AttemptStatus.FAILED ∧ ¬ (validate_tool_result result output_schema factory = ResultValid ∧ fits_inline result inline_max))
  | CallFailed exc =>
      if me_pre_send exc && String.eqb (me_error_code exc) STEP_TIMEOUT_EXCEEDED then t = AttemptStatus.TIMED_OUT
      else t ≠ AttemptStatus.SUCCEEDED ∧ t ≠ AttemptStatus.STARTED ∧
           (t = AttemptStatus.UNKNOWN_OUTCOME ↔ me_outcome_unknown exc = true ∧ is_safe_retry_risk risk = false)
  end.

(** A decision before the send, or an outcome nobody knows *)
Definition ends_execution (ending : call_end) (t : attempt_status) : bool :=
  bool_decide (t = AttemptStatus.UNKNOWN_OUTCOME)
  || match ending with CallFailed exc => pre_send_fatal exc | CallReturned _ => false end.

Lemma classify_spec exc risk :
  let t := classify_mcp_failure exc risk in
  t ≠ AttemptStatus.SUCCEEDED ∧ t ≠ AttemptStatus.STARTED ∧
  (t = AttemptStatus.UNKNOWN_OUTCOME ↔ me_outcome_unknown exc = true ∧ is_safe_retry_risk risk = false).
Proof.
  cbn zeta. unfold classify_mcp_failure. destruct (me_outcome_unknown exc), (is_safe_retry_risk risk); cbn;
    rewrite ?andb_false_r; try (destruct (String.eqb _ _)); naive_solver.
Qed.

Lemma settle_call_deserved ending risk output factory protected inline sm :
  settle_call ending risk output factory protected inline = Ok sm →
  deserved ending risk output factory inline (sm_terminal sm) ∧
  sm_pre_send_fatal sm = match ending with CallFailed exc => pre_send_fatal exc | CallReturned _ => false end.
Proof.
  destruct ending as [exc|result]; cbn [settle_call deserved].
  - intros [= <-]. split; [|done]. cbn [settle_error sm_terminal]. destruct (_ && _); [done|apply classify_spec].
  - unfold settle_result, fits_inline. destruct (validate_tool_result _ _ _); intros H.
    + apply bind_Ok in H as (size & Hs & H). destruct (Z.ltb_spec inline size).
      * injection H as <-. split; [|done]. right. split; [done|]. intros (_ & n & Hn & Hle).
        rewrite Hs in Hn. injection Hn as ->. lia.
      * apply bind_Ok in H as (i & _ & [= <-]). split; [|done]. left. split; [done|]. split; [done|]. by exists size.
    + apply bind_Ok in H as (i & _ & [= <-]). split; [|done]. right. split; [done|]. by intros [? _].
Qed.

(** ** The rows of a settled call *)
Record call_settled (p : prepared_call) (ending : call_end) (now : Z) (t : attempt_status) (d : disposition) (st st1 : store)
    : Prop := CallSettled {
  ks_call : ∃ c, get_tool_call (pc_tool_call_id p) st1 = Some c ∧ cl_normalized_status c = t ∧ cl_finished_at c = Some now;
  ks_attempt : ∃ a, get_attempt (pc_attempt_id p) st1 = Some a ∧ sa_status a = t ∧ sa_finished_at a = Some now;
  ks_step : ∃ s, get_step (pc_step_id p) st1 = Some s ∧ es_status s = step_status_of t ∧ es_finished_at s = Some now;
  ks_execution : if ends_execution ending t && negb (pc_defer p)
    then ex_status (st_execution st1) = ExecutionStatus.FAILED ∧ ex_lease_token (st_execution st1) = None ∧
         (t = AttemptStatus.UNKNOWN_OUTCOME → ex_error_message (st_execution st1) = Some UNKNOWN_OUTCOME_MESSAGE)
    else ex_status (st_execution st1) = ex_status (st_execution st) ∧
         ex_lease_token (st_execution st1) = ex_lease_token (st_execution st);
  ks_disposition : d = if bool_decide (t = AttemptStatus.SUCCEEDED) then Disposition.SUCCESS
                       else if ends_execution ending t then Disposition.FATAL_EXECUTION_FAILURE
                       else Disposition.KNOWN_STEP_FAILURE }.

(** The three rows behind a chain of other assignments *)
Lemma get_rows_upd rows f g h now st s a c :
  get_step (es_id (cr_step rows)) st = Some s → get_attempt (sa_id (cr_attempt rows)) st = Some a →
  get_tool_call (cl_id (cr_call rows)) st = Some c →
  (∀ s, es_id (f s) = es_id s) → (∀ a, sa_id (g a) = sa_id a) → (∀ c, cl_id (h c) = cl_id c) →
  let st1 := upd_rows rows f g h now st in
  get_step (es_id (cr_step rows)) st1 = Some (f s) ∧ get_attempt (sa_id (cr_attempt rows)) st1 = Some (g a) ∧
  get_tool_call (cl_id (cr_call rows)) st1 = Some (h c) ∧ st_execution st1 = st_execution st.
Proof.
  intros Hs Ha Hc Hf Hg Hh. cbn zeta. unfold upd_rows. unfold get_step, get_attempt, get_tool_call in *. drop_events.
  pose proof (get_step_upd (es_id (cr_step rows)) f st Hf) as H1.
  pose proof (get_attempt_upd (sa_id (cr_attempt rows)) g st Hg) as H2.
  pose proof (get_call_upd (cl_id (cr_call rows)) h st Hh) as H3.
  unfold get_step, get_attempt, get_tool_call in *. rewrite Hs in H1. rewrite Ha in H2. rewrite Hc in H3. done.
Qed.

Lemma terminal_settled p rows ending meta fb risk output inline now protected factory st st1 t d :
  prepared_rows p st = Some rows →
  apply_terminal_transition rows ending meta fb risk output inline now protected (pc_defer p) factory st = Ok (st1, t, d) →
  deserved ending risk output factory inline t ∧ call_settled p ending now t d st st1.
Proof.
  intros (Hs & Ha & Hc)%prepared_rows_Some H. unfold apply_terminal_transition in H. apply bind_Ok in H as (m & _ & H).
  apply bind_Ok in H as (sm & Hsm & [= <- <- <-]). apply settle_call_deserved in Hsm as [Hd Hf]. split; [done|].
  pose proof (get_step_id _ _ _ Hs) as Hsid. pose proof (get_attempt_id _ _ _ Ha) as Haid. pose proof (get_call_id _ _ _ Hc) as Hcid.
  rewrite <- Hsid in Hs. rewrite <- Haid in Ha. rewrite <- Hcid in Hc.
  pose proof (λ f g h, get_rows_upd rows f g h now st _ _ _ Hs Ha Hc) as Hrows.
  unfold settle_rows. set (st2 := upd_rows rows _ _ _ now st).
  destruct (Hrows (λ s, s |> set_es_result_inline (sm_result_inline sm)
       |> end_step (step_status_of (sm_terminal sm)) (sm_error_code sm) (sm_error_message sm) now)
    (λ a, a |> end_attempt (sm_terminal sm) (sm_error_layer sm) (sm_error_code sm) (sm_error_message sm) (sm_retryable sm) now
            |> set_sa_result_inline (sm_result_inline sm))
    (end_call (sm_terminal sm) m (sm_response_bytes sm) fb now)) as (G1 & G2 & G3 & G4); [done..|]. fold st2 in G1, G2, G3, G4.
  rewrite Hsid in G1. rewrite Haid in G2. rewrite Hcid in G3. clearbody st2. clear Hrows.
  assert (ends_execution ending (sm_terminal sm) = bool_decide (sm_terminal sm = AttemptStatus.UNKNOWN_OUTCOME) || sm_pre_send_fatal sm)
    as Hends by (unfold ends_execution; by rewrite <- Hf).
  assert (sm_terminal sm = AttemptStatus.SUCCEEDED → sm_pre_send_fatal sm = false) as Hno.
  { intros Hsucc. rewrite Hf. destruct ending as [exc|]; [|done]. rewrite Hsucc in Hd. cbn in Hd.
    destruct (_ && _); [done|]. by destruct Hd as (? & _). }
  assert (∃ st3, (settle_execution sm now (pc_defer p) st2).1 = st3 ∧ st_steps st3 = st_steps st2 ∧
    st_attempts st3 = st_attempts st2 ∧ st_calls st3 = st_calls st2) as (st3 & E0 & E1 & E2 & E3).
  { eexists. split; [done|]. unfold settle_execution. destruct (bool_decide (sm_terminal sm = AttemptStatus.SUCCEEDED)); [done|]. destruct (_ || _); [|done]. cbn [fst].
    unfold apply_or_defer_execution_fatal. destruct (pc_defer p); [done|]. by drop_events. }
  split.
  1-3: rewrite E0; unfold get_step, get_attempt, get_tool_call in *; rewrite ?E1, ?E2, ?E3; by eexists.
  - rewrite Hends. unfold settle_execution. destruct (bool_decide (sm_terminal sm = AttemptStatus.SUCCEEDED)) eqn:Hb.
    { apply bool_decide_eq_true in Hb as Hsucc. rewrite Hsucc, (Hno Hsucc). cbn [fst upd_execution set_st_execution st_execution]. by rewrite G4. }
    destruct (_ || _) eqn:Hfatal; cbn [fst andb]; [|cbn [upd_execution set_st_execution st_execution]; by rewrite G4].
    unfold apply_or_defer_execution_fatal.
    destruct (pc_defer p); cbn [negb]; [cbn [upd_execution set_st_execution st_execution]; by rewrite G4|].
    drop_events. cbn [upd_execution set_st_execution st_execution]. split; [done|]. split; [done|]. intros ->. done.
  - rewrite Hends. unfold settle_execution. destruct (bool_decide (sm_terminal sm = AttemptStatus.SUCCEEDED)) eqn:Hb; [done|]. by destruct (_ || _).
Qed.

(** ** The transaction that settles a reply *)
(** C17: A reply settles the call it belongs to, under the lease the call was
    prepared with.  A failure that is retried leaves a READY step and a closed
    attempt.  Otherwise the call, its attempt and its step end in one status:
    SUCCEEDED exactly for a valid result that fits the row, UNKNOWN_OUTCOME
    exactly for a failure nobody can tell the effect of on a tool that is not
    safe to repeat.  An unknown outcome, or a refusal before the send, ends the
    execution FAILED without a lease, unless the caller defers that; nothing
    else ends it here, except the reconciliation of a requested cancellation. *)
Theorem finalize_call_spec p ending meta first_byte_at inline_max protected now st st' o :
  finalize_locked p ending meta first_byte_at inline_max protected now st = Ok (st', o) →
  lease_of_prepared p now (st_execution st) = true ∧
  ∃ rows policy timeout, prepared_rows p st = Some rows ∧ rows_of_call p (st_execution st) rows = true ∧
    pinned_step_policy (st_execution st) (cr_step rows) = Ok policy ∧
    let risk := str_or (pinned_risk_class policy) (pc_risk_class p) in
    let cancelling := cancellation_is_requested (st_execution st) in
    match retry_of p policy rows cancelling timeout ending now with
    | Some exc =>
        ending = CallFailed exc ∧ retry_allowed policy p (es_attempt_count (cr_step rows)) ∧ cancelling = false ∧
        st_execution st' = st_execution st ∧ get_step (pc_step_id p) st' = Some (retry_step (cr_step rows)) ∧
        (∃ a, get_attempt (pc_attempt_id p) st' = Some a ∧ sa_status a = classify_mcp_failure exc risk ∧
           sa_status a ∉ [AttemptStatus.STARTED; AttemptStatus.SUCCEEDED; AttemptStatus.UNKNOWN_OUTCOME]) ∧
        tr_disposition o = Disposition.RETRY
    | None =>
        ∃ t d st1, deserved ending risk (pc_output_schema p) (pc_factory_imported p) inline_max t ∧
          call_settled p ending now t d st st1 ∧ tr_disposition o = d ∧ tr_terminal_status o = Some (terminal_value t) ∧
          (tr_mcp_called o = true ↔ match ending with CallFailed exc => me_pre_send exc = false | CallReturned _ => True end) ∧
          (st' = st1 ∨ cancelling = true ∧ ends_execution ending t = false ∧
             ∃ co, reconcile_cancel_requested_locked now st1 = Ok (st', co))
    end.
Proof.
  intros H. unfold finalize_locked in H. apply bind_Ok in H as (rows & Hrows & H).
  pose proof (finalize_rows_step _ _ _ _ _ Hrows) as (Hs & Ha & Hc & Hl & Hm). split; [done|].
  assert (prepared_rows p st = Some rows) as Hp.
  { unfold finalize_rows in Hrows. by apply bind_Ok in Hrows as (r & Hr%of_option_Ok & (? & ? & [= <-])%bind_Ok). }
  apply bind_Ok in H as (policy & Hpol & H). apply bind_Ok in H as (timeout & Ht & H). cbn zeta in H.
  exists rows, policy, timeout. do 3 (split; [done|]). cbn zeta. destruct (retry_of _ _ _ _ _ _ _) as [exc|] eqn:Hretry.
  - apply bind_Ok in H as ([st1 t] & Hck & [= <- <-]). apply retry_of_allowed in Hretry as (Hal & He & _ & _ & Hcan & Hun).
    do 3 (split; [done|]). pose proof (get_step_id _ _ _ Hs) as Hsid. pose proof (get_attempt_id _ _ _ Ha) as Haid.
    rewrite <- Hsid in Hs. destruct (retry_checkpoint_rows _ _ _ _ _ _ _ _ _ _ _ Hck Hs) as [Hex Hs1]. rewrite <- Hsid.
    split; [done|]. split; [done|]. split; [|done].
    unfold apply_retry_checkpoint in Hck. cbn zeta in Hck. apply bind_Ok in Hck as (m & _ & [= <- _]).
    rewrite <- Haid. change (get_attempt ?i (upd_step _ _ ?s)) with (get_attempt i s). rewrite get_attempt_upd by done.
    change (get_attempt ?i (upd_call _ _ ?s)) with (get_attempt i s). rewrite Haid, Ha. eexists. split; [done|]. split; [done|].
    cbn. destruct (classify_spec exc (str_or (pinned_risk_class policy) (pc_risk_class p))) as (H1 & H2 & _).
    intros [?|[?|[?|[]%elem_of_nil]%elem_of_cons]%elem_of_cons]%elem_of_cons; done.
  - unfold finalize_terminal in H. cbn zeta in H. apply bind_Ok in H as ([[st1 t] d] & Hterm & H).
    apply (terminal_settled p) in Hterm as [Hdes Hset]; [|done]. exists t, d, st1.
    assert (∀ e : call_end, match e with CallFailed exc => negb (me_pre_send exc) | CallReturned _ => true end = true ↔
      match e with CallFailed exc => me_pre_send exc = false | CallReturned _ => True end) as Hcalled
      by (intros [exc|r]; [by destruct (me_pre_send exc)|done]).
    destruct (_ && _) eqn:Hcan.
    + apply bind_Ok in H as ([st2 co] & Hr & [= <- <-]). do 5 (split; [first [done|apply Hcalled]|]). right.
      inv_res. split; [done|]. split; [|by exists co].
      pose proof (ks_disposition _ _ _ _ _ _ _ Hset) as Hd. destruct (ends_execution ending t) eqn:Hends; [|done]. exfalso.
      destruct (bool_decide (t = AttemptStatus.SUCCEEDED)) eqn:Hb; [|done]. apply bool_decide_eq_true in Hb. subst t. unfold ends_execution in Hends. rewrite bool_decide_eq_false_2 in Hends by done.
      destruct ending; cbn in Hends, Hdes; [|done]. destruct (_ && _); [done|]. by destruct Hdes as (? & _).
    + injection H as <- <-. do 5 (split; [first [done|apply Hcalled]|]). by left.
Qed.
End sound.

(** * No secret of a call reaches a row

    What the transaction that settles a reply writes (results, error messages,
    transport metadata, the dialogue of an input request) holds none of the
    plaintexts the call was sent with. *)

(** The texts the runner itself writes *)
Definition RUNNER_TEXTS : list string :=
  ["diagnostic_omitted"; "omit_reason"; "RESULT_INLINE_TOO_LARGE"; "result_type"; "input_required";
   "Tool result exceeds inline persistence size limit."; MRTR_SECRET_ECHO_MESSAGE;
   "Step total timeout exhausted before MRTR wait could open."; "MRTR round limit (8) exceeded.";
   ("Multi-Step TOOL/JOIN DAG cannot enter WAITING_INPUT; " +:+ "branch-local MRTR suspension is out of scope.")].

(** ** Columns that gain no secret *)
(** Every value of the column was there before, or holds no secret. *)
Definition gains {A B} (f : A → B) (P : B → Prop) (l l' : list A) : Prop :=
  ∀ x', x' ∈ l' → (∃ x, x ∈ l ∧ f x = f x') ∨ P (f x').

#[export] Instance gains_preorder {A B} (f : A → B) (P : B → Prop) : PreOrder (gains f P).
Proof.
  split; [intros l x Hx; left; by exists x|]. intros l1 l2 l3 H12 H23 x3 H3.
  destruct (H23 x3 H3) as [(x2 & H2 & <-)|]; [|by right]. by apply H12.
Qed.

Lemma gains_upd {A B} (f : A → B) (P : B → Prop) (p : A → Prop) `{∀ x, Decision (p x)} g l :
  (∀ x, f (g x) = f x ∨ P (f (g x))) → gains f P l (upd_where p g l).
Proof.
  intros Hg x' (x & Hx & ->)%elem_of_upd_where. case_decide; [|left; by exists x].
  destruct (Hg x) as [->|]; [left; by exists x|by right].
Qed.

Section secrets.
Context {validator : SchemaValidator}.
Context (protected : list string).

Definition clean (v : json) : Prop := contains_protected_plaintext v protected = false.
Definition clean_text (m : option string) : Prop := match m with Some t => text_has_secret protected t = false | None => True end.
Definition clean_input (v : json * json) : Prop := clean v.1 ∧ clean v.2.

Record gains_no_secret (st st' : store) : Prop := GainsNoSecret {
  gn_step_results : gains es_result_inline clean (st_steps st) (st_steps st');
  gn_step_messages : gains es_error_message clean_text (st_steps st) (st_steps st');
  gn_attempt_results : gains sa_result_inline clean (st_attempts st) (st_attempts st');
  gn_attempt_messages : gains sa_error_message clean_text (st_attempts st) (st_attempts st');
  gn_calls : gains cl_response_meta clean (st_calls st) (st_calls st');
  gn_inputs : gains (λ r, (ir_input_requests r, ir_request_state r)) clean_input (st_inputs st) (st_inputs st') }.

#[export] Instance gains_no_secret_preorder : PreOrder gains_no_secret.
Proof. split; [by intros st|]. intros a b c [] []. split; by etrans. Qed.

Lemma gains_rows st0 st st' :
  st_steps st' = st_steps st → st_attempts st' = st_attempts st → st_calls st' = st_calls st → st_inputs st' = st_inputs st →
  gains_no_secret st0 st → gains_no_secret st0 st'.
Proof. intros H1 H2 H3 H4 H. etrans; [exact H|]. split; by rewrite ?H1, ?H2, ?H3, ?H4. Qed.
Lemma gains_execution st0 st f : gains_no_secret st0 st → gains_no_secret st0 (upd_execution f st).
Proof. by apply gains_rows. Qed.
Lemma gains_emit_execution st0 st p now : gains_no_secret st0 st → gains_no_secret st0 (emit_execution_status_changed p now st).
Proof. destruct (emit_execution_rows p now st) as (_ & E2 & E3 & E4 & _ & E6). by apply gains_rows. Qed.
Lemma gains_emit_step st0 st now s : gains_no_secret st0 st → gains_no_secret st0 (emit_of_step now s st).
Proof. destruct (emit_of_step_rows now s st) as (_ & E2 & E3 & E4 & _ & E6). by apply gains_rows. Qed.
Lemma gains_approvals st0 st l : gains_no_secret st0 st → gains_no_secret st0 (set_st_approvals l st).
Proof. by apply gains_rows. Qed.
Lemma gains_step st0 st id f :
  (∀ s, es_result_inline (f s) = es_result_inline s ∨ clean (es_result_inline (f s))) →
  (∀ s, es_error_message (f s) = es_error_message s ∨ clean_text (es_error_message (f s))) →
  gains_no_secret st0 st → gains_no_secret st0 (upd_step id f st).
Proof. intros H1 H2 H. etrans; [exact H|]. split; try done; by apply gains_upd. Qed.
Lemma gains_attempt st0 st id f :
  (∀ a, sa_result_inline (f a) = sa_result_inline a ∨ clean (sa_result_inline (f a))) →
  (∀ a, sa_error_message (f a) = sa_error_message a ∨ clean_text (sa_error_message (f a))) →
  gains_no_secret st0 st → gains_no_secret st0 (upd_attempt id f st).
Proof. intros H1 H2 H. etrans; [exact H|]. split; try done; by apply gains_upd. Qed.
Lemma gains_call st0 st id f :
  (∀ c, cl_response_meta (f c) = cl_response_meta c ∨ clean (cl_response_meta (f c))) →
  gains_no_secret st0 st → gains_no_secret st0 (upd_call id f st).
Proof. intros H1 H. etrans; [exact H|]. split; try done; by apply gains_upd. Qed.

(** ** Cancellation writes no payload *)
Lemma clean_null : clean JNull.
Proof. unfold clean, contains_protected_plaintext. by destruct protected. Qed.

Lemma gains_cancel_step now s :
  (es_result_inline (cancel_step now s) = es_result_inline s ∨ clean (es_result_inline (cancel_step now s))) ∧
  (es_error_message (cancel_step now s) = es_error_message s ∨ clean_text (es_error_message (cancel_step now s))).
Proof. unfold cancel_step. destruct (is_terminal_step_status _); cbn; auto. Qed.
Lemma gains_cancel_attempt now a :
  (sa_result_inline (cancel_attempt now a) = sa_result_inline a ∨ clean (sa_result_inline (cancel_attempt now a))) ∧
  (sa_error_message (cancel_attempt now a) = sa_error_message a ∨ clean_text (sa_error_message (cancel_attempt now a))).
Proof. unfold cancel_attempt. destruct (bool_decide _); cbn; auto. Qed.

Lemma gains_cancel_attempts now id st0 st :
  gains_no_secret st0 st → gains_no_secret st0 (cancel_started_attempts_without_inflight_tool_call now id st).
Proof.
  unfold cancel_started_attempts_without_inflight_tool_call. generalize (list_attempts id st). intros L. revert st.
  induction L as [|a L IH]; intros st H; [done|]. cbn [foldl]. apply IH. unfold cancel_idle_attempt.
  destruct (negb _); [done|]. destruct (existsb _ _); [done|]. apply gains_attempt; [intros x; apply gains_cancel_attempt..|done].
Qed.

Lemma gains_cancel_everything now by_ P st0 st : gains_no_secret st0 st → gains_no_secret st0 (cancel_everything now by_ P st).
Proof.
  intros H. unfold cancel_everything, cancel_safe_nonterminal_steps. set (L := list_steps _). clearbody L.
  assert (gains_no_secret st0 (reject_open_mrtr_requests now by_ (cancel_pending_approvals now st))) as H1.
  { etrans; [apply gains_approvals; exact H|]. split; try done. apply gains_upd. by left. }
  revert H1. generalize (reject_open_mrtr_requests now by_ (cancel_pending_approvals now st)).
  induction L as [|s L IH]; intros st1 H1; [done|]. cbn [foldl]. apply IH. unfold cancel_safe_step.
  destruct (bool_decide _); [done|]. destruct (is_terminal_step_status _); [done|].
  assert (∀ st2, gains_no_secret st0 st2 → gains_no_secret st0 (upd_step (es_id s) (cancel_step now) st2)) as Hs
    by (intros st2; apply gains_step; intros x; apply gains_cancel_step).
  destruct (es_status s); try (by apply Hs); try (by apply Hs, gains_cancel_attempts).
  destruct (step_has_started_tool_call _ _); [done|by apply Hs, gains_cancel_attempts].
Qed.

Lemma gains_reconcile now st0 st st' o :
  gains_no_secret st0 st → reconcile_cancel_requested_locked now st = Ok (st', o) → gains_no_secret st0 st'.
Proof.
  intros H. unfold reconcile_cancel_requested_locked. destruct (bool_decide _); [by intros [= <- _]|].
  destruct (bool_decide _); [by intros [= <- _]|]. intros Hr. apply bind_Ok in Hr as ([] & _ & Hr).
  destruct (list_started_tool_calls st); [|by injection Hr as <- _].
  destruct (existsb _ _); injection Hr as <- _; unfold fail_unknown, finish_cancelled;
    apply gains_emit_execution, gains_execution; by apply gains_cancel_everything.
Qed.

Lemma gains_force_cancel now st0 st : gains_no_secret st0 st → gains_no_secret st0 (force_cancel_requested now st).
Proof. intros H. unfold force_cancel_requested. destruct (bool_decide _); [done|]. by apply gains_emit_execution, gains_execution. Qed.

Lemma gains_fatal st0 st code message now defer :
  gains_no_secret st0 st → gains_no_secret st0 (apply_or_defer_execution_fatal code message now defer st).
Proof.
  intros H. unfold apply_or_defer_execution_fatal. destruct defer; [by apply gains_execution|].
  by apply gains_emit_execution, gains_execution.
Qed.

(** ** What is written is redacted *)
Lemma clean_contains v : contains_protected protected v = false → clean v.
Proof. unfold clean, contains_protected_plaintext. by destruct protected. Qed.
Lemma clean_fields d : clean (JObj d) ↔ ∀ k v, (k, v) ∈ d → text_has_secret protected k = false ∧ clean v.
Proof.
  unfold clean, contains_protected_plaintext. destruct protected; [done|]. by rewrite contains_obj.
Qed.

Lemma sanitized_no_secret v v' :
  (∀ s, s ∈ protected → redactable s = true) → sanitize_for_persistence v protected = Ok v' → clean v'.
Proof.
  intros Hr. unfold clean, sanitize_for_persistence, contains_protected_plaintext. destruct protected as [|x l]; [done|].
  destruct (sanitize_redacts (x :: l) Hr v) as (w & Hw & Hc & _). intros H. congruence.
Qed.

Context (Hred : ∀ s, s ∈ protected → redactable s = true).
Context (Htexts : ∀ t, t ∈ RUNNER_TEXTS → text_has_secret protected t = false).

Lemma sanitized_clean v v' : sanitize_for_persistence v protected = Ok v' → clean v'.
Proof using Hred. by apply sanitized_no_secret. Qed.
Lemma redacted_clean text : clean_text (Some (redact_text text protected)).
Proof using Hred. by apply redact_text_safe. Qed.
Lemma text_clean t : t ∈ RUNNER_TEXTS → clean_text (Some t).
Proof using Htexts. apply Htexts. Qed.

Lemma omitted_clean : clean TOOL_ERROR_DIAGNOSTIC_OMITTED.
Proof using Htexts.
  apply clean_contains. unfold TOOL_ERROR_DIAGNOSTIC_OMITTED. cbn [contains_protected].
  rewrite (Htexts "diagnostic_omitted"), (Htexts "omit_reason"), (Htexts "RESULT_INLINE_TOO_LARGE"); [done|..];
    by apply (bool_decide_unpack _).
Qed.

Lemma settle_call_clean ending risk output factory inline sm :
  settle_call ending risk output factory protected inline = Ok sm → clean (sm_result_inline sm) ∧ clean_text (sm_error_message sm).
Proof using Hred Htexts.
  pose proof (clean_null) as Hnull. destruct ending as [exc|result]; cbn [settle_call].
  - intros [= <-]. split; [done|apply redacted_clean].
  - unfold settle_result. destruct (validate_tool_result _ _ _); intros H.
    + apply bind_Ok in H as (size & _ & H). destruct (_ <? _)%Z.
      * injection H as <-. split; [done|]. apply text_clean. by apply (bool_decide_unpack _).
      * apply bind_Ok in H as (i & Hi & [= <-]). split; [by eapply sanitized_clean|done].
    + apply bind_Ok in H as (i & Hi & [= <-]). split; [|cbn; destruct (str_empty _); [done|apply redacted_clean]].
      cbn. destruct (String.eqb _ _); [|by injection Hi as <-]. unfold tool_error_diagnostic_inline in Hi. cbn zeta in Hi.
      apply bind_Ok in Hi as (size & _ & Hi). destruct (_ <? _)%Z; [|by eapply sanitized_clean].
      apply bind_Ok in Hi as (m & _ & [= <-]). destruct (_ <? _)%Z; [done|apply omitted_clean].
Qed.

Lemma gains_upd_rows rows f g h now st0 st :
  (∀ s, (es_result_inline (f s) = es_result_inline s ∨ clean (es_result_inline (f s))) ∧
        (es_error_message (f s) = es_error_message s ∨ clean_text (es_error_message (f s)))) →
  (∀ a, (sa_result_inline (g a) = sa_result_inline a ∨ clean (sa_result_inline (g a))) ∧
        (sa_error_message (g a) = sa_error_message a ∨ clean_text (sa_error_message (g a)))) →
  (∀ c, cl_response_meta (h c) = cl_response_meta c ∨ clean (cl_response_meta (h c))) →
  gains_no_secret st0 st → gains_no_secret st0 (upd_rows rows f g h now st).
Proof using Type.
  intros Hf Hg Hh H. unfold upd_rows. apply gains_emit_step, gains_step; [intros x; apply Hf..|].
  apply gains_attempt; [intros x; apply Hg..|]. by apply gains_call.
Qed.

Lemma gains_terminal rows ending meta fb risk output inline now defer factory st st' t d :
  apply_terminal_transition rows ending meta fb risk output inline now protected defer factory st = Ok (st', t, d) →
  gains_no_secret st st'.
Proof using Hred Htexts.
  unfold apply_terminal_transition. intros H. apply bind_Ok in H as (m & Hm%sanitized_clean & H).
  apply bind_Ok in H as (sm & [H1 H2]%settle_call_clean & [= <- _ _]).
  assert (gains_no_secret st (settle_rows sm rows m fb now st)) as Hrows.
  { apply gains_upd_rows; [intros s|intros a|intros c|done]; cbn; auto. }
  unfold settle_execution. destruct (bool_decide _); [by apply gains_execution|].
  destruct (_ || _); [by apply gains_fatal|by apply gains_execution].
Qed.

Lemma gains_finalize {schema : PlanSchema} {parser : PlanParser} p ending meta fb inline now st st' o :
  finalize_locked p ending meta fb inline protected now st = Ok (st', o) → gains_no_secret st st'.
Proof using Hred Htexts.
  unfold finalize_locked. intros H. apply bind_Ok in H as (rows & _ & H). apply bind_Ok in H as (policy & _ & H).
  apply bind_Ok in H as (timeout & _ & H). cbn zeta in H. destruct (retry_of _ _ _ _ _ _ _) as [exc|].
  - apply bind_Ok in H as ([st1 t] & H & [= <- _]). unfold apply_retry_checkpoint in H. cbn zeta in H.
    apply bind_Ok in H as (m & Hm%sanitized_clean & [= <- _]).
    pose proof clean_null. pose proof (redacted_clean (me_message exc)).
    apply gains_step; [intros x; cbn; auto..|]. apply gains_attempt; [intros x; cbn; auto..|].
    apply gains_call; [intros x; cbn; auto|done].
  - unfold finalize_terminal in H. cbn zeta in H. apply bind_Ok in H as ([[st1 t] d] & Ht%gains_terminal & H).
    destruct (_ && _); [|by injection H as <- _]. apply bind_Ok in H as ([st2 co] & Hr & [= <- _]). by eapply gains_reconcile.
Qed.

(** ** A reply that asks for input *)
Lemma elem_of_dict_set {A} (k : string) (v : A) d x : x ∈ dict_set k v d → x = (k, v) ∨ x ∈ d.
Proof using Type.
  induction d as [|[k' v'] d IH]; cbn [dict_set].
  - intros ->%list_elem_of_singleton. by left.
  - case_decide as Hk; intros [->|H]%elem_of_cons; [left; by rewrite Hk|right; by right|right; left|].
    destruct (IH H); [by left|right; by right].
Qed.

Lemma input_meta_clean meta m : input_persist_meta meta protected = Ok m → clean m.
Proof using Hred Htexts.
  unfold input_persist_meta. intros H. apply bind_Ok in H as (s & Hs%sanitized_clean & [= <-]). apply clean_fields.
  intros k v [_ Hin]%list_elem_of_filter. apply elem_of_dict_set in Hin as [[= -> ->]|Hin].
  - split; [apply Htexts; by apply (bool_decide_unpack _)|]. apply clean_contains. cbn [contains_protected].
    apply Htexts. by apply (bool_decide_unpack _).
  - destruct s; try by apply elem_of_nil in Hin. by apply (proj1 (clean_fields _) Hs).
Qed.

Lemma gains_input row st0 st st' :
  clean (ir_input_requests row) → clean (ir_request_state row) → create_input row st = Ok st' →
  gains_no_secret st0 st → gains_no_secret st0 st'.
Proof using Type.
  intros H1 H2 H Hst. unfold create_input in H. inv_res. etrans; [exact Hst|]. split; try done.
  intros x [Hx| ->%list_elem_of_singleton]%elem_of_app; [left; by exists x|by right].
Qed.

Lemma gains_settle_input rows call_status status code message meta reply fb now st0 st :
  message ∈ RUNNER_TEXTS → clean meta → gains_no_secret st0 st →
  gains_no_secret st0 (settle_input rows call_status status code message meta reply fb now st).
Proof using Htexts.
  intros Hm Hmeta Hst. pose proof (text_clean _ Hm). apply gains_upd_rows; [intros x; cbn; auto..|done].
Qed.

Lemma gains_finalize_input {schema : PlanSchema} {parser : PlanParser} p id reply meta fb now st st' o :
  finalize_input_required p id reply meta fb protected now st = Ok (st', o) → gains_no_secret st st'.
Proof using Hred Htexts.
  unfold finalize_input_required. intros H. apply bind_Ok in H as (rows & _ & H). apply bind_Ok in H as (timeout & _ & H).
  apply bind_Ok in H as (m & Hm%input_meta_clean & H). pose proof clean_null as Hnull.
  destruct (_ || _) eqn:Hecho.
  { injection H as <- _. apply gains_fatal.
    assert (clean_text (Some MRTR_SECRET_ECHO_MESSAGE)) by (apply text_clean; by apply (bool_decide_unpack _)).
    apply gains_upd_rows; [intros x; cbn; auto..|done]. }
  apply orb_false_iff in Hecho as [Hrequests Hstate]. destruct (cancellation_is_requested _).
  { unfold settle_cancelled_input in H. apply bind_Ok in H as ([st1 co] & H & [= <- _]).
    eapply gains_reconcile; [|exact H]. apply gains_force_cancel, gains_step; [intros x; apply gains_cancel_step..|].
    apply gains_attempt; [intros x; apply gains_cancel_attempt..|]. apply gains_call; [intros x; cbn; auto|done]. }
  destruct (step_timeout_budget_exhausted _ _ _).
  { unfold finalize_input_timeout in H. cbn zeta in H. apply bind_Ok in H as (st1 & Hc & [= <- _]). apply gains_execution.
    apply gains_settle_input; [by apply (bool_decide_unpack _)|done|]. by eapply (gains_input _ st st); [| |exact Hc|]. }
  unfold finalize_input_wait in H. apply bind_Ok in H as (started & _ & H). apply bind_Ok in H as (t & _ & H).
  apply bind_Ok in H as ([] & _ & H). cbn zeta in H. destruct (_ <? _)%Z.
  { injection H as <- _. apply gains_fatal. apply gains_settle_input; [by apply (bool_decide_unpack _)|done..]. }
  destruct (pc_forbid_wait p).
  { injection H as <- _. apply gains_fatal. apply gains_settle_input; [by apply (bool_decide_unpack _)|done..]. }
  unfold open_input_wait in H. apply bind_Ok in H as ([] & _ & H). apply bind_Ok in H as (st1 & Hc & [= <- _]).
  eapply gains_input; [| |exact Hc|]; [done..|]. apply gains_emit_execution, gains_execution, gains_emit_step.
  apply gains_upd_rows; [intros x; cbn; auto..|done].
Qed.
End secrets.

