(* ===== verification/Orchestrator.v ===== *)
(** The orchestrator: its ends and gates, and its LOOP steps. *)
From S2P Require Import Prelude PyStr PyDict Json PyUuid Domain LoopRuntime Completion DagValidate DagSchedule.
From S2P Require Import PredicateEvaluator Rows Cancellation PolicySelection LoopReconcile Claim Preflight Approval.
From S2P Require Import ApprovalResume Transaction.

(** * Ends and gates of the orchestrator ([execution/orchestrator.py])

    What the steps of a wave share: the outcome of a transaction, the fail
    closed and fail fast ends of an execution, the [when] gate of a step.  The
    rows of [by_key] are the rows of the store: the objects of the session.
    Orchestrator.v runs the LOOPs, OrchestratorLocal.v the other local
    steps, OrchestratorWave.v the transactions around them. *)

Definition EXECUTION_SUCCEEDED : string := "EXECUTION_SUCCEEDED".
Definition EXECUTION_PARTIAL : string := "EXECUTION_PARTIALLY_SUCCEEDED".
Definition EXECUTION_FAILED : string := "EXECUTION_FAILED".
Definition EXECUTION_TIMED_OUT : string := "EXECUTION_TIMED_OUT".
Definition WAVE_IN_PROGRESS : string := "WAVE_IN_PROGRESS".
Definition CANCEL_IN_PROGRESS : string := "CANCEL_IN_PROGRESS".

(** [ProgressOutcome] *)
Record progress_outcome := ProgressOutcome {
  po_execution_complete : bool;
  po_promoted : bool;
  po_reason : string;
  po_execution_status : option execution_status;
  po_ready_step_ids : list uuid;
  po_plan_order : list string;
  po_single_tool : bool;
  po_step_terminal_status : option string }.

(** An outcome that ends nothing, and one that ends the execution *)
Definition in_progress (reason : string) (status : option execution_status) : progress_outcome :=
  ProgressOutcome false false reason status [] [] false None.
Definition completed (reason : string) (status : execution_status) (step_status : option string) : progress_outcome :=
  ProgressOutcome true false reason (Some status) [] [] false step_status.

(** What one turn of a loop over the steps does: return from the transaction,
    or go on, with a change or without *)
Inductive turn := Stop (outcome : progress_outcome) | Go (changed : bool).

Fixpoint scan (f : string → tx turn) (keys : list string) (changed : bool) : tx turn :=
  match keys with
  | [] => mret (Go changed)
  | key :: keys =>
      t ← f key;
      match t with
      | Stop o => mret (Stop o)
      | Go c => scan f keys (changed || c)
      end
  end.

(** ** Assignments *)
Definition set_es_condition_result (v : option bool) (s : execution_step) : execution_step :=
  ltac:(set_field execution_step_eta es_condition_result v s).

(** [status = s; emit_step_status_changed] *)
Definition transition (now : Z) (id : uuid) (f : execution_step → execution_step) (st : store) : store :=
  match get_step id st with
  | Some s => emit_of_step now s (upd_step id f st)
  | None => st
  end.

(** The row of an object the session holds *)
Definition lock_step (id : uuid) : tx execution_step :=
  st ← reading (λ st, st); lift (of_option (PyException "KeyError") (get_step id st)).

Definition set_ready (now : Z) (s : execution_step) : execution_step :=
  s |> set_es_status StepStatus.READY |> set_es_ready_at (Some now).
Definition set_running (now : Z) (s : execution_step) : execution_step :=
  s |> set_es_status StepStatus.RUNNING
    |> set_es_started_at (match es_started_at s with None => Some now | t => t end).

(** The fields every end of an execution assigns *)
Definition end_execution (status : execution_status) (code message : option string) (summary : json) (now : Z)
    (e : execution) : execution :=
  e |> set_ex_status status |> set_ex_error_code code |> set_ex_error_message message |> set_ex_result_summary summary
    |> set_ex_finished_at (Some now) |> clear_execution_lease |> bump_execution.
Definition terminate (status : execution_status) (code message : option string) (p : option plan) (now : Z) (st : store)
    : store :=
  let previous := ex_status (st_execution st) in
  st |> upd_execution (end_execution status code message (build_result_summary status (list_steps st) p) now)
     |> emit_execution_status_changed previous now.

Section orchestrator.
Context {schema : PlanSchema} {parser : PlanParser}.

(** [_has_running_lease] *)
Definition has_running_lease (worker : string) (token : uuid) (now : Z) (e : execution) : bool :=
  holds_lease worker token now e.

(** [_fail_closed_lineage_locked] *)
Definition fail_closed_lineage (error_code error_message : string) (now : Z) : tx progress_outcome :=
  modify (λ st, st |> stop_steps (list_steps st) now
    |> terminate ExecutionStatus.FAILED (Some (str_or (Some error_code) "RESOURCE_CONFLICT")) (Some error_message) None now);;
  mret (completed EXECUTION_FAILED ExecutionStatus.FAILED None).

(** [_fail_closed_predicate] *)
Definition fail_pending (error_code error_message : string) (now : Z) (s : execution_step) : execution_step :=
  if bool_decide (es_status s = StepStatus.PENDING)
  then finish_step StepStatus.FAILED error_code error_message now s else s.
Definition fail_closed_predicate (p : plan) (step_id : uuid) (error_code error_message : string) (now : Z)
    : tx progress_outcome :=
  modify (λ st, st |> upd_step step_id (fail_pending error_code error_message now) |> stop_steps (list_steps st) now
    |> terminate ExecutionStatus.FAILED (Some error_code) (Some error_message) (Some p) now);;
  mret (completed EXECUTION_FAILED ExecutionStatus.FAILED (Some (step_status_value StepStatus.FAILED))).

Definition lineage_stop (now : Z) (error_code error_message : string) : tx turn :=
  o ← fail_closed_lineage error_code error_message now; mret (Stop o).
Definition predicate_stop (p : plan) (step_id : uuid) (now : Z) (error_code error_message : string) : tx turn :=
  o ← fail_closed_predicate p step_id error_code error_message now; mret (Stop o).

(** The fail-fast end after a step failed with [status] *)
Definition stop_reason (status : execution_status) : string :=
  if bool_decide (status = ExecutionStatus.FAILED) then EXECUTION_FAILED else EXECUTION_TIMED_OUT.
Definition fail_fast (p : plan) (failed : execution_step) (now : Z) : tx turn :=
  let status := fail_fast_execution_status (es_status failed) in
  modify (λ st, st |> stop_steps (list_steps st) now
    |> terminate status (es_error_code failed) (es_error_message failed) (Some p) now);;
  mret (Stop (completed (stop_reason status) status (Some (step_status_value (es_status failed))))).
Definition stops_on (on_error : plan_on_error) (status : step_status) : bool :=
  bool_decide (on_error = PlanOnError.FAIL_EXECUTION) || negb (is_continuable_known_failure on_error status).

(** ** [Step.when] *)
(** [_evaluate_when_gate]: true when the gate is false *)
Definition evaluate_when_gate (p : plan) (ps : plan_step) (s : execution_step) (st : store) : res bool :=
  match ps_when ps with
  | None => Ok false
  | Some when_ => r ← evaluate (inr when_) (st_execution st) s (list_steps st) p None; Ok (negb r)
  end.

(** [_apply_when_false] *)
Definition when_false (now : Z) (s : execution_step) : execution_step :=
  s |> finish_step StepStatus.SKIPPED "STEP_WHEN_FALSE"
         "Step.when evaluated to false; Step intentionally skipped." now
    |> set_es_condition_result (Some false).
Definition apply_when_false (now : Z) (step_id : uuid) : tx unit := modify (transition now step_id (when_false now)).

(** The plan step of a row, its snapshot checked again, and its gate: what the
    three kinds of local steps do before their own work *)
Definition with_plan_step (p : plan) (now : Z) (s : execution_step) (k : plan_step → tx turn) : tx turn :=
  attempting (runtime_plan_step s (plan_steps_by_id p)) (lineage_stop now) k.
Definition with_when_gate (p : plan) (now : Z) (drift : string) (s : execution_step) (ps : plan_step) (k : tx turn)
    : tx turn :=
  if negb (py_eq (dump_step ps) (es_step_snapshot s)) then lineage_stop now "RESOURCE_CONFLICT" drift
  else
    st ← reading (λ st, st);
    attempting (evaluate_when_gate p ps s st) (predicate_stop p (es_id s) now) (λ skip,
      if (skip : bool) then apply_when_false now (es_id s);; mret (Go true) else k).
End orchestrator.

(** ** The end of a graph *)
Definition STEP_TERMINAL : list step_status :=
  [StepStatus.SUCCEEDED; StepStatus.FAILED; StepStatus.TIMED_OUT; StepStatus.UNKNOWN_OUTCOME; StepStatus.CANCELLED;
   StepStatus.SKIPPED].
(** [_dag_naturally_ended] *)
Definition dag_naturally_ended (steps : list execution_step) : bool :=
  forallb (λ s, bool_decide (es_status s ∈ STEP_TERMINAL)) steps.
(** [_completion_reason] *)
Definition completion_reason (status : execution_status) : string :=
  match status with
  | ExecutionStatus.SUCCEEDED => EXECUTION_SUCCEEDED
  | ExecutionStatus.PARTIALLY_SUCCEEDED => EXECUTION_PARTIAL
  | ExecutionStatus.TIMED_OUT => EXECUTION_TIMED_OUT
  | _ => EXECUTION_FAILED
  end.
(** [_apply_execution_terminal] *)
Definition apply_execution_terminal (p : plan) (d : completion_decision) (now : Z) (st : store) : store :=
  terminate (cd_status d) (cd_error_code d) (cd_error_message d) (Some p) now st.

(** * LOOP steps in the local reconciliation ([execution/orchestrator.py])

    [_reconcile_loop_steps_locked] and [_apply_loop_error_policy]: a PENDING
    LOOP starts, a RUNNING one advances iteration by iteration, and its known
    failures go to the error policy.  [new_id] gives the id of the row at each
    position of the table of steps. *)

Section loops.
Context {schema : PlanSchema} {parser : PlanParser}.
Context (new_id : nat → uuid) (p : plan) (dag : tool_join_dag) (now : Z).

(** [session.add] and the flush, with the unique keys of the table *)
Definition insert_step (s : execution_step) : tx unit :=
  st ← reading (λ st, st);
  if bool_decide (es_id s ∈ es_id <$> st_steps st) || negb (bool_decide (es_execution_id s = ex_id (st_execution st)))
     || bool_decide (es_step_key s ∈ es_step_key <$> st_steps st)
  then throw (PyException "IntegrityError")
  else modify (λ st, set_st_steps (st_steps st ++ [s]) st).
Fixpoint insert_steps (l : list execution_step) : tx unit :=
  match l with [] => mret tt | s :: l => insert_step s;; insert_steps l end.

Definition materialize (cfg : loop_config) (id : uuid) (n : Z) : tx unit :=
  s ← lock_step id;
  st ← reading (λ st, st);
  r ← lift (materialize_iteration (λ i, new_id (length (st_steps st) + i)) (st_execution st) s p cfg n (list_steps st));
  insert_steps r.1.

(** [stop_loop_owned_untouched_children], one row after the other: the rows
    before the one that raises stay stopped. *)
Definition stopped_child (id : uuid) (s : execution_step) : execution_step :=
  match stop_child id now s with Ok s => s | Err _ => s end.
Fixpoint stop_children (id : uuid) (rows : list execution_step) : tx unit :=
  match rows with
  | [] => mret tt
  | s :: rows =>
      _ ← lift (stop_child id now s);
      modify (upd_step (es_id s) (stopped_child id));;
      stop_children id rows
  end.
(** [_apply_loop_error_policy] *)
Definition apply_loop_error_policy (ps : plan_step) (id : uuid) : tx turn :=
  before ← reading list_steps;
  stopped ← catching
    (stop_children id before;;
     modify (λ st, emit_step_transitions before (list_steps st) now st);;
     mret None)
    (λ c m, t ← lineage_stop now c m; mret (Some t));
  match stopped with
  | Some t => mret t
  | None => s ← lock_step id; if stops_on (ps_on_error ps) (es_status s) then fail_fast p s now else mret (Go true)
  end.

(** A known failure of the LOOP, and its error policy *)
Definition fail_loop (ps : plan_step) (id : uuid) (status : step_status) (error_code error_message : string) : tx turn :=
  modify (upd_step id (fail_loop_known status error_code error_message now));;
  apply_loop_error_policy ps id.
Definition time_out_loop (ps : plan_step) (id : uuid) : tx turn :=
  fail_loop ps id StepStatus.TIMED_OUT LOOP_TIMEOUT "LOOP.timeout_seconds budget exhausted.".

(** [evaluate_while_gate], which pins the control evidence of its row first *)
Definition pinned_while_gate (cfg : loop_config) (id : uuid) (n : Z) : tx bool :=
  (if bool_decide (lc_mode cfg = LoopMode.WHILE) && is_some (lc_predicate cfg)
   then modify (upd_step id (λ s, if is_none (es_resolved_input s) then pin_while_control_evidence s else s))
   else mret tt);;
  s ← lock_step id;
  st ← reading (λ st, st);
  r ← lift (evaluate_while_gate (st_execution st) s p cfg (list_steps st) n);
  modify (upd_step id (set_es_resolved_input (es_resolved_input r.1)));;
  mret r.2.

(** The gate of candidate [n] after [completed] iterations *)
Definition while_candidate (ps : plan_step) (cfg : loop_config) (id : uuid) (n completed : Z) : tx turn :=
  gate ← pinned_while_gate cfg id n;
  if negb gate then modify (upd_step id (succeed_while_loop completed now));; mret (Go true)
  else if (lc_max_iterations cfg <? n)%Z then
    fail_loop ps id StepStatus.FAILED LOOP_MAX_ITERATIONS_EXCEEDED "WHILE candidate {n} exceeds max_iterations={cfg.max_iterations}."
  else
    st ← reading (λ st, st);
    lift (assert_while_next_iteration_max_steps p (list_steps st) (Z.of_nat (length (lc_body_step_ids cfg))));;
    materialize cfg id n;;
    mret (Go true).

(** [except AppError]: the LOOP fails, and the execution with it. *)
Definition fail_running (error_code error_message : string) (s : execution_step) : execution_step :=
  if bool_decide (es_status s = StepStatus.RUNNING) then finish_step StepStatus.FAILED error_code error_message now s else s.
Definition while_failed (id : uuid) (error_code error_message : string) : tx turn :=
  modify (upd_step id (fail_running error_code error_message));;
  if String.prefix "PREDICATE_" error_code then predicate_stop p id now error_code error_message
  else lineage_stop now error_code error_message.

(** ** Start *)
Definition start_while (ps : plan_step) (cfg : loop_config) (id : uuid) : tx turn :=
  catching
    (modify (upd_step id pin_while_control_evidence);;
     s ← lock_step id;
     if loop_timeout_exceeded s now then time_out_loop ps id else while_candidate ps cfg id 1 0)
    (while_failed id).

(** The collection is pinned; [None] when the LOOP goes on. *)
Definition pin_foreach (ps : plan_step) (cfg : loop_config) (id : uuid) : tx (option turn) :=
  s ← lock_step id;
  st ← reading (λ st, st);
  collection ← lift (resolve_foreach_collection (st_execution st) s p (list_steps st) cfg);
  pinned ← lift (pin_collection_evidence s collection);
  modify (upd_step id (set_es_resolved_input (es_resolved_input pinned)));;
  if (lc_max_iterations cfg <? Z.of_nat (length collection))%Z then
    t ← fail_loop ps id StepStatus.FAILED LOOP_MAX_ITERATIONS_EXCEEDED "collection_size={len(collection)} exceeds max_iterations={cfg.max_iterations}.";
    mret (Some t)
  else
    st ← reading (λ st, st);
    lift (assert_expanded_max_steps p (list_steps st));;
    mret None.
Definition foreach_failed (ps : plan_step) (id : uuid) (error_code error_message : string) : tx turn :=
  if String.eqb error_code LOOP_MAX_ITERATIONS_EXCEEDED then fail_loop ps id StepStatus.FAILED error_code error_message
  else modify (upd_step id (fail_running error_code error_message));; lineage_stop now error_code error_message.

(** [int((locked.resolved_input or {}).get("collection_size", 0))] of a pinned row *)
Definition pinned_size (s : execution_step) : Z :=
  match es_resolved_input s with
  | JObj d => match get_or_none "collection_size" d with JInt n => n | _ => 0 end
  | _ => 0
  end.
Definition start_foreach (ps : plan_step) (cfg : loop_config) (id : uuid) : tx turn :=
  r ← catching (pin_foreach ps cfg id) (λ c m, t ← foreach_failed ps id c m; mret (Some t));
  match r with
  | Some t => mret t
  | None =>
      s ← lock_step id;
      if (pinned_size s =? 0)%Z then modify (upd_step id (succeed_loop 0 0 now));; mret (Go true)
      else materialize cfg id 1;; mret (Go true)
  end.

(** [runtime_plan_step] and [LoopStepConfigV1.model_validate] *)
Definition loop_plan_step (s : execution_step) : res (plan_step * loop_config) :=
  ps ← runtime_plan_step s (plan_steps_by_id p);
  cfg ← of_option validation_error (validate_loop_config (ps_config ps));
  Ok (ps, cfg).
Definition with_loop (s : execution_step) (k : plan_step → loop_config → tx turn) : tx turn :=
  attempting_any (loop_plan_step s) (lineage_stop now) (lineage_stop now "RESOURCE_CONFLICT" "Invalid LOOP config: {exc}")
    (λ pc, k pc.1 pc.2).

Definition start_loop (s : execution_step) : tx turn :=
  with_loop s (λ ps cfg,
    st ← reading (λ st, st);
    attempting (evaluate_when_gate p ps s st) (predicate_stop p (es_id s) now) (λ skip,
      if (skip : bool) then apply_when_false now (es_id s);; mret (Go true)
      else
        modify (transition now (es_id s) (set_ready now));;
        modify (transition now (es_id s) (λ s, bump_step (set_running now s)));;
        match lc_mode cfg with
        | LoopMode.WHILE => start_while ps cfg (es_id s)
        | LoopMode.FOR_EACH => start_foreach ps cfg (es_id s)
        end)).

(** ** Advance *)
Definition current_iteration (id : uuid) (st : store) : Z := active_iteration_no (list_steps st) id.
Definition iteration_settled (cfg : loop_config) (id : uuid) (n : Z) (st : store) : bool :=
  iteration_complete (list_steps st) id n (length (lc_body_step_ids cfg)).

Definition advance_while (ps : plan_step) (cfg : loop_config) (id : uuid) : tx turn :=
  catching
    (st ← reading (λ st, st);
     let current := current_iteration id st in
     if (current <? 1)%Z then while_candidate ps cfg id 1 0
     else if negb (iteration_settled cfg id current st) then mret (Go false)
     else
       s ← lock_step id;
       if loop_timeout_exceeded s now then time_out_loop ps id
       else while_candidate ps cfg id (current + 1) current)
    (while_failed id).

(** The collection again, which must be the pinned one *)
Definition stable_collection (cfg : loop_config) (s : execution_step) (st : store) : res (list json) :=
  collection ← resolve_foreach_collection (st_execution st) s p (list_steps st) cfg;
  _ ← assert_collection_pin_stable s collection;
  Ok collection.
Definition advance_foreach (ps : plan_step) (cfg : loop_config) (id : uuid) : tx turn :=
  s ← lock_step id;
  st ← reading (λ st, st);
  attempting (stable_collection cfg s st)
    (λ c m, modify (upd_step id (finish_step StepStatus.FAILED c m now));; lineage_stop now c m)
    (λ collection,
       let size := Z.of_nat (length collection) in
       let current := current_iteration id st in
       if (current <? 1)%Z then materialize cfg id 1;; mret (Go true)
       else if negb (iteration_settled cfg id current st) then mret (Go false)
       else if loop_timeout_exceeded s now then time_out_loop ps id
       else if (current <? size)%Z then materialize cfg id (current + 1);; mret (Go true)
       else modify (upd_step id (succeed_loop size size now));; mret (Go true)).

Definition advance_loop (s : execution_step) : tx turn :=
  with_loop s (λ ps cfg,
    if loop_timeout_exceeded s now then time_out_loop ps (es_id s)
    else match lc_mode cfg with
         | LoopMode.WHILE => advance_while ps cfg (es_id s)
         | LoopMode.FOR_EACH => advance_foreach ps cfg (es_id s)
         end).

(** ** [_reconcile_loop_steps_locked] *)
Definition loop_key (key : string) : tx turn :=
  st ← reading (λ st, st);
  match dict_get key (rows_by_key st) with
  | None => mret (Go false)
  | Some s =>
      if negb (bool_decide (es_step_type s = StepType.LOOP)) then mret (Go false)
      else if is_some (es_parent_step_id s) then
        lineage_stop now "RESOURCE_CONFLICT" "Nested LOOP runtime row is unsupported."
      else match es_status s with
           | StepStatus.PENDING =>
               eligible ← lift (loop_structurally_eligible s dag (rows_by_key st));
               if (eligible : bool) then start_loop s else mret (Go false)
           | StepStatus.RUNNING => advance_loop s
           | _ => mret (Go false)
           end
  end.
Definition reconcile_loop_steps : tx turn := scan loop_key (ordered_step_keys dag) false.
End loops.
