(* ===== verification/OrchestratorLocal.v ===== *)
(** * The local reconciliation of a wave ([execution/orchestrator.py])

    [_local_reconcile_locked]: steps that call nobody are run to a fixed point
    before tools start.  A pass prunes what a condition skipped, moves the
    LOOPs, evaluates CONDITIONs, completes or opens APPROVALs, evaluates the
    [when] of tools and fires JOINs, in this order. *)
From S2P Require Import Prelude PyStr PyDict Json PyUuid Domain LoopRuntime Completion DagValidate DagSchedule.
From S2P Require Import PredicateEvaluator Rows Cancellation PolicySelection LoopReconcile Claim Preflight.
From S2P Require Import ApprovalContext ApprovalEvidence Approval ApprovalResume Transaction Orchestrator.

Section local.
Context {schema : PlanSchema} {parser : PlanParser}.
Context (c : catalog) (new_id : nat → uuid) (request_id : uuid) (p : plan) (now : Z).

(** The row under a key, if there is one *)
Definition with_row (key : string) (k : execution_step → store → tx turn) : tx turn :=
  st ← reading (λ st, st);
  match dict_get key (rows_by_key st) with
  | None => mret (Go false)
  | Some s => k s st
  end.

(** ** Pruning *)
Definition PRUNABLE_TYPES : list step_type := [StepType.TOOL; StepType.CONDITION; StepType.APPROVAL; StepType.LOOP].
Definition prune_step (s : execution_step) : execution_step :=
  s |> finish_step StepStatus.SKIPPED "UPSTREAM_CONDITION_SKIPPED"
         "Upstream Step was intentionally skipped by conditional control flow." now
    |> set_es_condition_result (Some false).
Definition prune_key (dag : tool_join_dag) (key : string) : tx turn :=
  with_row key (λ s st,
    if negb (bool_decide (es_status s = StepStatus.PENDING)) || negb (bool_decide (es_step_type s ∈ PRUNABLE_TYPES))
    then mret (Go false)
    else
      skip ← lift (has_intentional_skip_dependency s dag (rows_by_key st));
      if (skip : bool) then modify (transition now (es_id s) prune_step);; mret (Go true) else mret (Go false)).

(** ** CONDITION *)
Definition succeed_condition (result : bool) (s : execution_step) : execution_step :=
  s |> set_es_status StepStatus.SUCCEEDED |> set_es_condition_result (Some result)
    |> set_es_result_inline (JObj [("condition_result", JBool result)]) |> set_es_error_code None
    |> set_es_error_message None |> set_es_finished_at (Some now) |> bump_step.
Definition evaluate_condition (ps : plan_step) (s : execution_step) (st : store) : res bool :=
  cfg ← of_option validation_error (validate_condition_config (ps_config ps));
  evaluate (inl (cc_predicate cfg)) (st_execution st) s (list_steps st) p None.
Definition condition_key (dag : tool_join_dag) (key : string) : tx turn :=
  with_row key (λ s st,
    eligible ← lift (condition_structurally_eligible s dag (rows_by_key st));
    if negb eligible then mret (Go false)
    else with_plan_step p now s (λ ps,
      with_when_gate p now "CONDITION step_snapshot drift for {locked.step_key!r}." s ps
        (attempting_any (evaluate_condition ps s st) (predicate_stop p (es_id s) now)
           (predicate_stop p (es_id s) now "PREDICATE_EVALUATION_FAILED" "{exc}") (λ result,
           modify (transition now (es_id s) (set_ready now));;
           modify (transition now (es_id s) (set_running now));;
           modify (transition now (es_id s) (succeed_condition result));;
           mret (Go true))))).

(** ** APPROVAL *)
Definition approval_drift : string := "APPROVAL step_snapshot drift for {locked.step_key!r}.".
Definition APPROVAL_RESUME_PRECONDITION : string := "APPROVAL_RESUME_PRECONDITION_FAILED".
Definition succeed_approval (approved : approval_request) (s : execution_step) : execution_step :=
  s |> set_es_status StepStatus.SUCCEEDED
    |> set_es_result_inline (JObj [("approval_status", JStr "APPROVED");
                                   ("approval_request_id", JStr (uuid_str (ar_id approved)))])
    |> set_es_error_code None |> set_es_error_message None |> set_es_finished_at (Some now) |> bump_step.

(** The first approved row that is one of an authorable step *)
Definition approved_authorable (step_id : uuid) (st : store) : option approval_request :=
  find_first (λ r, is_some (ar_resolved_at r) && is_authorable_step_context (ar_context_snapshot r))
    (find_approved_for_step (ex_id (st_execution st)) step_id (st_approvals st)).

(** The context drifted: no event is written here. *)
Definition approval_drifted (step_id : uuid) (message : string) : tx turn :=
  modify (upd_step step_id (finish_step StepStatus.FAILED APPROVAL_RESUME_PRECONDITION message now));;
  modify (stop_rows now);;
  modify (λ st, upd_execution (end_execution ExecutionStatus.FAILED (Some APPROVAL_RESUME_PRECONDITION) (Some message)
    (build_result_summary ExecutionStatus.FAILED (list_steps st) (Some p)) now) st);;
  mret (Stop (completed EXECUTION_FAILED ExecutionStatus.FAILED (Some (step_status_value StepStatus.FAILED)))).

Definition complete_approval (s : execution_step) (st : store) : tx turn :=
  ps ← lift (dict_item (es_step_key s) (plan_steps_by_id p));
  if negb (py_eq (dump_step ps) (es_step_snapshot s)) then lineage_stop now "RESOURCE_CONFLICT" approval_drift
  else match approved_authorable (es_id s) st with
  | None =>
      lineage_stop now APPROVAL_RESUME_PRECONDITION
        "APPROVAL Step {locked.step_key!r} is READY without valid APPROVED ApprovalRequest evidence."
  | Some approved =>
      attempting (assert_current_context_matches_request c approved (st_execution st) s None None (Some (list_steps st)) (Some p))
        (λ _ m, approval_drifted (es_id s) m) (λ _,
          modify (transition now (es_id s) (set_running now));;
          modify (transition now (es_id s) (succeed_approval approved));;
          mret (Go true))
  end.
Definition approved_key (key : string) : tx turn :=
  st ← reading (λ st, st);
  s ← lift (dict_item key (rows_by_key st));
  if bool_decide (es_step_type s = StepType.APPROVAL) && bool_decide (es_status s = StepStatus.READY)
  then complete_approval s st else mret (Go false).

(** The wait: the gate leaves its evidence on the row before anything else.  The
    second look for a PENDING request sees what the first saw, as the execution
    is locked. *)
Definition waiting_outcome (step_id : uuid) : progress_outcome :=
  ProgressOutcome false false "WAITING_APPROVAL" (Some ExecutionStatus.WAITING_APPROVAL) [step_id] [] false None.
Definition gate_passed (ps : plan_step) (s : execution_step) : execution_step :=
  if is_some (ps_when ps) then set_es_condition_result (Some true) s else s.
Definition active_policy (ps : plan_step) : res approval_policy :=
  cfg ← of_option (conflict "Invalid APPROVAL config for {locked.step_key!r}: {exc}") (validate_approval_config (ps_config ps));
  let missing := precondition_failed "APPROVAL Step {locked.step_key!r} requires an ACTIVE ApprovalPolicy." in
  policy ← of_option missing (get_approval_policy c (ac_approval_policy_id cfg));
  _ ← raise_if (negb (String.eqb (ap_status policy) "ACTIVE")) missing;
  Ok policy.
Definition enter_wait (ps : plan_step) (step_id : uuid) : tx turn :=
  modify (upd_step step_id (gate_passed ps));;
  attempting (active_policy ps) (lineage_stop now) (λ policy,
    s ← lock_step step_id;
    st ← reading (λ st, st);
    r ← lift (enter_for_approval_step request_id p (list_steps st) policy now s st);
    modify (λ _, r.1);;
    mret (Stop (waiting_outcome step_id))).
Definition pending_approval_key (dag : tool_join_dag) (key : string) : tx turn :=
  st ← reading (λ st, st);
  s ← lift (dict_item key (rows_by_key st));
  eligible ← lift (approval_structurally_eligible s dag (rows_by_key st));
  if negb eligible then mret (Go false)
  else
    ps ← lift (dict_item (es_step_key s) (plan_steps_by_id p));
    with_when_gate p now approval_drift s ps (enter_wait ps (es_id s)).

(** [_reconcile_approval_steps_locked]: at most one PENDING request *)
Definition reconcile_approval_steps (dag : tool_join_dag) : tx turn :=
  t ← scan approved_key (ordered_step_keys dag) false;
  match t with
  | Stop o => mret (Stop o)
  | Go changed =>
      st ← reading (λ st, st);
      if is_some (find_pending_for_execution (ex_id (st_execution st)) st) then mret (Go changed)
      else scan (pending_approval_key dag) (ordered_step_keys dag) changed
  end.

(** ** [when] of a TOOL *)
(** A gate that passed is evidence on the row, and no reason for another pass. *)
Definition gate_true (s : execution_step) : execution_step :=
  if bool_decide (es_condition_result s = Some true) then s else bump_step (set_es_condition_result (Some true) s).
Definition tool_when_key (dag : tool_join_dag) (key : string) : tx turn :=
  with_row key (λ s st,
    if negb (bool_decide (es_status s = StepStatus.PENDING)) || negb (bool_decide (es_step_type s = StepType.TOOL))
    then mret (Go false)
    else
      eligible ← lift (tool_structurally_eligible s dag (rows_by_key st));
      if negb eligible then mret (Go false)
      else with_plan_step p now s (λ ps,
        if negb (is_some (ps_when ps)) then mret (Go false)
        else with_when_gate p now "TOOL when step_snapshot drift for {locked.step_key!r}." s ps
               (modify (upd_step (es_id s) gate_true);; mret (Go false)))).

(** ** JOIN *)
Definition finish_join (terminal : step_status) (error_code : option string) (s : execution_step) : execution_step :=
  s |> set_es_status terminal |> set_es_error_code error_code
    |> set_es_error_message (if is_some error_code then Some "JOIN policy was not satisfied." else None)
    |> set_es_finished_at (Some now) |> bump_step.
Definition join_result (ps : plan_step) (dag : tool_join_dag) (s : execution_step) (st : store)
    : res (step_status * option string) :=
  cfg ← of_option validation_error (validate_join_config (ps_config ps));
  deps ← dict_item (es_step_key s) (dependencies dag);
  statuses ← res_map (λ d, dep ← dict_item d (rows_by_key st); Ok (es_status dep)) deps;
  evaluate_join_policy (join_policy_value (jc_policy cfg)) statuses.
Definition fire_join (dag : tool_join_dag) (ps : plan_step) (step_id : uuid) : tx turn :=
  modify (upd_step step_id (gate_passed ps));;
  s ← lock_step step_id;
  st ← reading (λ st, st);
  r ← lift (join_result ps dag s st);
  modify (transition now step_id (set_ready now));;
  modify (transition now step_id (set_running now));;
  modify (transition now step_id (finish_join r.1 r.2));;
  s ← lock_step step_id;
  if bool_decide (r.1 = StepStatus.SUCCEEDED) then mret (Go true)
  else if stops_on (ps_on_error ps) r.1 then fail_fast p s now
  else mret (Go true).
Definition join_key (dag : tool_join_dag) (key : string) : tx turn :=
  with_row key (λ s st,
    ready ← lift (join_barrier_ready s dag (rows_by_key st));
    if negb ready then mret (Go false)
    else with_plan_step p now s (λ ps,
      with_when_gate p now "JOIN step_snapshot drift for {locked.step_key!r}." s ps (fire_join dag ps (es_id s)))).

(** ** One pass *)
Definition and_then (t : turn) (k : bool → tx turn) : tx turn :=
  match t with Stop o => mret (Stop o) | Go changed => k changed end.
(** The graph again after the rows of LOOPs changed *)
Definition refresh (dag : tool_join_dag) (changed : bool) : tx (tool_join_dag + progress_outcome) :=
  if negb changed then mret (inl dag)
  else
    st ← reading (λ st, st);
    attempting (validate_tool_join_dag p (list_steps st))
      (λ code message, o ← fail_closed_lineage code message now; mret (inr o)) (λ dag, mret (inl dag)).
Definition local_rest (dag : tool_join_dag) (changed : bool) : tx turn :=
  t ← scan (condition_key dag) (ordered_step_keys dag) changed;
  and_then t (λ changed,
    t ← reconcile_approval_steps dag;
    and_then t (λ c,
      t ← scan (tool_when_key dag) (ordered_step_keys dag) (changed || c);
      and_then t (scan (join_key dag) (ordered_step_keys dag)))).
Definition local_pass (dag : tool_join_dag) : tx (tool_join_dag * turn) :=
  t ← scan (prune_key dag) (ordered_step_keys dag) false;
  match t with
  | Stop o => mret (dag, Stop o)
  | Go pruned =>
      t ← reconcile_loop_steps new_id p dag now;
      match t with
      | Stop o => mret (dag, Stop o)
      | Go looped =>
          r ← refresh dag looped;
          match r with
          | inr o => mret (dag, Stop o)
          | inl dag => t ← local_rest dag (pruned || looped); mret (dag, t)
          end
      end
  end.

(** ** [_local_reconcile_locked] *)
Fixpoint local_loop (fuel : nat) (dag : tool_join_dag) : tx (option progress_outcome) :=
  match fuel with
  | O => mret None
  | S fuel =>
      r ← local_pass dag;
      match r.2 with
      | Stop o => mret (Some o)
      | Go false => mret None
      | Go true => local_loop fuel r.1
      end
  end.
(** [max(1, max(len(ordered_step_keys), len(steps)) * 8 + 8)] *)
Definition pass_bound (dag : tool_join_dag) (st : store) : nat :=
  Nat.max 1 (Nat.max (length (ordered_step_keys dag)) (length (list_steps st)) * 8 + 8).
Definition local_reconcile (dag : tool_join_dag) : tx (option progress_outcome) :=
  st ← reading (λ st, st); local_loop (pass_bound dag st) dag.
End local.
