(* ===== verification/OrchestratorWave.v ===== *)
(** The orchestrator: its waves and its run. *)
From S2P Require Import Prelude PyStr PyDict Json PyUuid Domain LoopRuntime Completion DagValidate DagSchedule Rows.
From S2P Require Import Cancellation PolicySelection LoopReconcile Claim Preflight Approval ApprovalResume Transaction.
From S2P Require Import ToolRunner Orchestrator OrchestratorLocal.

(** * The transactions of a wave ([execution/orchestrator.py])

    [ExecutionOrchestrator.run] and its transactions: a wave is prepared under
    the lease, its tools run, and what they came to is settled.  The tool
    runner and everything others commit meanwhile are what [run] is given for
    each wave. *)

Definition TERMINAL_EXECUTION_STATUSES : list execution_status :=
  [ExecutionStatus.SUCCEEDED; ExecutionStatus.PARTIALLY_SUCCEEDED; ExecutionStatus.FAILED; ExecutionStatus.TIMED_OUT;
   ExecutionStatus.CANCELLED].
Definition heartbeat (now : Z) (e : execution) : execution := e |> set_ex_heartbeat_at (Some now) |> bump_execution.

Section wave.
Context {schema : PlanSchema} {parser : PlanParser}.
Context (c : catalog) (worker : string) (token : uuid).

(** ** Reserving tools *)
(** The turn of the loop over the eligible tools, with the slots left *)
Fixpoint promote_tools (now : Z) (ids : list uuid) (available : Z) : tx (list uuid) :=
  match ids with
  | [] => mret []
  | id :: ids =>
      if (available <=? 0)%Z then mret []
      else
        s ← lock_step id;
        if negb (bool_decide (es_status s = StepStatus.PENDING)) then promote_tools now ids available
        else
          modify (transition now id (λ s, bump_step (set_ready now s)));;
          rest ← promote_tools now ids (available - 1);
          mret (id :: rest)
  end.

Definition is_tool (status : step_status) (s : execution_step) : bool :=
  bool_decide (es_step_type s = StepType.TOOL) && bool_decide (es_status s = status).
(** [[by_key[k] for k in dag.ordered_step_keys]] *)
Definition ordered_rows (dag : tool_join_dag) (st : store) : res (list execution_step) :=
  res_map (λ k, dict_item k (rows_by_key st)) (ordered_step_keys dag).

(** [_reserve_tool_wave_locked] *)
Definition eligible_flag (dag : tool_join_dag) (st : store) (s : execution_step) : res (uuid * bool) :=
  b ← tool_structurally_eligible s dag (rows_by_key st); Ok (es_id s, b).
Definition eligible_tools (dag : tool_join_dag) (rows : list execution_step) (st : store) : res (list uuid) :=
  flags ← res_map (eligible_flag dag st) rows;
  Ok (filter (λ f, f.2 = true) flags).*1.
Definition reserve_tool_wave (now : Z) (dag : tool_join_dag) : tx (list uuid * list uuid) :=
  st ← reading (λ st, st);
  rows ← lift (ordered_rows dag st);
  let already_ready := es_id <$> filter (λ s, is_tool StepStatus.READY s = true) rows in
  let available := Z.max 0 (dag_max_parallelism dag - count_tool_slots (list_steps st)) in
  eligible ← lift (eligible_tools dag rows st);
  promoted ← promote_tools now eligible available;
  modify (upd_execution (heartbeat now));;
  st ← reading (λ st, st);
  rows ← lift (ordered_rows dag st);
  let ready := filter (λ s, es_id s ∈ already_ready ++ promoted ∧ es_status s = StepStatus.READY) rows in
  mret (es_id <$> ready, promoted).

(** ** [_prepare_wave] *)
Definition tool_in_flight (st : store) (s : execution_step) : bool :=
  existsb (λ a, bool_decide (sa_status a = AttemptStatus.STARTED) && existsb call_started (list_tool_calls (sa_id a) st))
    (list_attempts (es_id s) st).
Definition waiting_step (s : execution_step) : bool :=
  bool_decide (es_status s ∈ [StepStatus.WAITING_APPROVAL; StepStatus.WAITING_INPUT]).
(** The step a durable wait hands over *)
Definition wait_target (st : store) : option execution_step :=
  let steps := list_steps st in
  if existsb waiting_step steps then find_first waiting_step steps
  else if bool_decide (ex_status (st_execution st) ∈ [ExecutionStatus.WAITING_APPROVAL; ExecutionStatus.WAITING_INPUT])
  then find_first (λ s, bool_decide (es_step_type s ∈ [StepType.TOOL; StepType.APPROVAL])) steps
  else None.
Definition hand_over (target : execution_step) (e : execution) : progress_outcome :=
  if bool_decide (es_step_type target = StepType.APPROVAL)
  then ProgressOutcome false false "WAITING_APPROVAL" (Some (ex_status e)) [es_id target] [] false None
  else ProgressOutcome false false "WAITING_HANDOFF" None [es_id target] [] false None.
Definition wave_ready (ids : list uuid) (order : list string) (single : bool) : progress_outcome :=
  ProgressOutcome false false "WAVE_READY" None ids order single None.

(** [run_as res]: a function of the store as a transaction *)
Definition run_store {A} (f : store → res (store * A)) : tx A :=
  st ← reading (λ st, st); r ← lift (f st); modify (λ _, r.1);; mret r.2.

Definition prepare_cancelling (now : Z) : tx progress_outcome :=
  st ← reading (λ st, st);
  if negb (is_nil (list_started_tool_calls st)) then
    mret (in_progress CANCEL_IN_PROGRESS (Some (ex_status (st_execution st))))
  else
    o ← run_store (reconcile_cancel_requested_locked now);
    mret (completed "CANCELLED" (co_status o) None).

(** The graph, or the fail closed end *)
Definition with_graph (now : Z) {A} (closed : progress_outcome → A) (k : plan → tool_join_dag → tx A) : tx A :=
  st ← reading (λ st, st);
  attempting (p ← assert_execution_plan_lineage (st_execution st); dag ← validate_tool_join_dag p (list_steps st); Ok (p, dag))
    (λ code message, o ← fail_closed_lineage code message now; mret (closed o)) (λ pd, k pd.1 pd.2).

Definition resume_tools (now : Z) (dag : tool_join_dag) (single : bool) : tx progress_outcome :=
  st ← reading (λ st, st);
  rows ← lift (ordered_rows dag st);
  modify (upd_execution (heartbeat now));;
  mret (wave_ready (es_id <$> filter (λ s, is_tool StepStatus.RUNNING s = true) rows) (ordered_step_keys dag) single).

Definition reconcile_and_reserve (new_id : nat → uuid) (request_id : uuid) (now : Z) (p : plan) (dag : tool_join_dag)
    (single : bool) : tx progress_outcome :=
  stop ← local_reconcile c new_id request_id p now dag;
  match stop with
  | Some o => mret o
  | None =>
      st ← reading (λ st, st);
      attempting (validate_tool_join_dag p (list_steps st)) (λ code message, fail_closed_lineage code message now) (λ dag,
        wave ← reserve_tool_wave now dag;
        mret (ProgressOutcome false (negb (is_nil wave.2)) (if is_nil wave.1 then "NO_READY" else "WAVE_READY") None wave.1
                (ordered_step_keys dag) single None))
  end.

Definition prepare_under_lease (new_id : nat → uuid) (request_id : uuid) (now : Z) : tx progress_outcome :=
  st ← reading (λ st, st);
  let running := filter (λ s, is_tool StepStatus.RUNNING s = true) (list_steps st) in
  let single := is_single_tool_execution (list_steps st) in
  if existsb (tool_in_flight st) running then
    match running with
    | [s] => if single then modify (upd_execution (heartbeat now));; mret (wave_ready [es_id s] [] true)
             else mret (in_progress WAVE_IN_PROGRESS None)
    | _ => mret (in_progress WAVE_IN_PROGRESS None)
    end
  else with_graph now id (λ p dag,
    if negb (is_nil running) then resume_tools now dag single
    else reconcile_and_reserve new_id request_id now p dag single).

Definition prepare_wave (new_id : nat → uuid) (request_id : uuid) (now : Z) : tx progress_outcome :=
  st ← reading (λ st, st);
  let e := st_execution st in
  if bool_decide (ex_status e ∈ TERMINAL_EXECUTION_STATUSES) then mret (completed "STEP_ALREADY_TERMINAL" (ex_status e) None)
  else if bool_decide (ex_status e = ExecutionStatus.CANCEL_REQUESTED) then prepare_cancelling now
  else match wait_target st with
  | Some target => mret (hand_over target e)
  | None =>
      if negb (has_running_lease worker token now e) then mret (in_progress "STALE_LEASE" (Some (ex_status e)))
      else prepare_under_lease new_id request_id now
  end.

(** ** Approval before a wave *)
(** [bool(v)] *)
Definition truthy (v : json) : bool :=
  match v with
  | JNull | JBool false | JArr [] | JObj [] => false
  | JStr s => negb (str_empty s)
  | JInt _ | JFloat _ => negb (py_eq v (JInt 0))
  | _ => true
  end.
(** [_select_approval_suspension_wave]: the first tool that asks for approval *)
Definition wave_step_needs_approval (st : store) (step_id : uuid) : res bool :=
  s ← of_option (conflict "Wave TOOL Step missing during approval pre-scan.")
        (find_first (λ s, bool_decide (es_id s = step_id)) (list_steps st));
  if negb (bool_decide (es_step_type s = StepType.TOOL)) then Ok false
  else
    version ← of_option (conflict "READY TOOL missing mcp_tool_version_id during approval wave pre-scan.")
                (es_mcp_tool_version_id s);
    plan_step_id ← snapshot_step_id s;
    policy ← get_expected_tool_policy_snapshot (st_execution st) plan_step_id version;
    match get_or_none "tool_policy" policy with
    | JObj d => Ok (truthy (get_or_none "requires_approval" d))
    | _ => Ok false
    end.
Fixpoint select_approval_suspension_wave (st : store) (ids : list uuid) : res (option uuid) :=
  match ids with
  | [] => Ok None
  | id :: ids =>
      needs ← wave_step_needs_approval st id;
      if (needs : bool) then Ok (Some id) else select_approval_suspension_wave st ids
  end.

(** [_fail_closed_pre_wave_policy] *)
Definition fail_closed_pre_wave_policy (error_code error_message : string) (now : Z) : tx progress_outcome :=
  e ← reading st_execution;
  if negb (has_running_lease worker token now e) then mret (in_progress "STALE_LEASE" (Some (ex_status e)))
  else fail_closed_lineage error_code error_message now.

(** ** [_settle_wave] *)
(** [_effective_disposition] *)
Definition effective_disposition (o : tool_run_outcome) : disposition :=
  if negb (bool_decide (tr_disposition o = Disposition.NOOP)) then tr_disposition o
  else if String.eqb (tr_reason o) "SAFE_RETRY_READY" then Disposition.RETRY
  else if bool_decide (tr_reason o ∈ ["WAITING_APPROVAL"; "WAITING_INPUT"]) then Disposition.WAIT
  else match tr_terminal_status o with
  | Some t =>
      if String.eqb t "SUCCEEDED" then Disposition.SUCCESS
      else if String.eqb t "UNKNOWN_OUTCOME" then Disposition.FATAL_EXECUTION_FAILURE
      else if bool_decide (t ∈ ["FAILED"; "TIMED_OUT"]) then Disposition.KNOWN_STEP_FAILURE
      else Disposition.NOOP
  | None => Disposition.NOOP
  end.

Definition NO_PLAN_INDEX : Z := 1000000000.
(** [{sid: i for i, sid in enumerate(plan_order)}.get(key, 10**9)] *)
Definition plan_index (order : list string) (key : string) : Z :=
  default NO_PLAN_INDEX (dict_get key (dict_of_pairs (imap (λ i k, (k, Z.of_nat i)) order))).
(** A terminal status by its value *)
Definition continuable_value (on_error : plan_on_error) (status : string) : bool :=
  existsb (λ s, String.eqb (step_status_value s) status && is_continuable_known_failure on_error s) known_failure_statuses.

(** The stop cause one outcome gives *)
Definition cause_of (p : plan) (order : list string) (s : execution_step) (o : tool_run_outcome) : res (option stop_cause) :=
  let cause kind status :=
    StopCause (es_step_key s) (plan_index order (es_step_key s)) kind status (es_error_code s) (es_error_message s) in
  let unknown := bool_decide (tr_terminal_status o = Some "UNKNOWN_OUTCOME") in
  if bool_decide (effective_disposition o = Disposition.FATAL_EXECUTION_FAILURE) || unknown then
    Ok (Some (cause "FATAL" (str_or (tr_terminal_status o) "FAILED")))
  else if negb (bool_decide (effective_disposition o = Disposition.KNOWN_STEP_FAILURE)) then Ok None
  else
    on_error ← match runtime_plan_step s (plan_steps_by_id p) with
               | Ok ps => Ok (ps_on_error ps)
               | Err (AppError _ _ _) => Ok PlanOnError.FAIL_EXECUTION
               | Err e => Err e
               end;
    let status := str_or (tr_terminal_status o) (step_status_value (es_status s)) in
    if bool_decide (on_error = PlanOnError.FAIL_EXECUTION) || negb (continuable_value on_error status) then
      Ok (Some (cause (if String.eqb status "TIMED_OUT" then "FAIL_EXECUTION_TIMED_OUT" else "FAIL_EXECUTION_FAILED") status))
    else Ok None.
Definition wave_cause (p : plan) (order : list string) (st : store) (w : uuid * tool_run_outcome) : res (option stop_cause) :=
  match find_first (λ s, bool_decide (es_id s = w.1)) (list_steps st) with
  | None => Ok None
  | Some s => cause_of p order s w.2
  end.
Definition wave_causes (p : plan) (order : list string) (st : store) (wave : list (uuid * tool_run_outcome))
    : res (list stop_cause) :=
  causes ← res_map (wave_cause p order st) wave;
  Ok (omap (M:=list) id causes).

(** The end a stop cause decides *)
Definition stop_status (cause : stop_cause) : execution_status :=
  if String.eqb (sc_kind cause) "FATAL" then ExecutionStatus.FAILED
  else if String.eqb (sc_step_status cause) "TIMED_OUT" then ExecutionStatus.TIMED_OUT else ExecutionStatus.FAILED.
Definition stop_wave (p : plan) (cause : stop_cause) (now : Z) : tx progress_outcome :=
  let status := stop_status cause in
  modify (λ st, st |> stop_steps (list_steps st) now
    |> terminate status (sc_error_code cause) (sc_error_message cause) (Some p) now);;
  mret (completed (str_or (sc_error_code cause)
                     (if bool_decide (status = ExecutionStatus.TIMED_OUT) then EXECUTION_TIMED_OUT else EXECUTION_FAILED))
          status (Some (sc_step_status cause))).

(** A cancellation owns what is left. *)
Definition settle_cancelled (now : Z) : tx progress_outcome :=
  e ← reading st_execution;
  if bool_decide (ex_status e = ExecutionStatus.CANCELLED) then mret (completed "CANCELLED" (ex_status e) None)
  else if bool_decide (ex_status e = ExecutionStatus.FAILED) then mret (completed EXECUTION_FAILED (ex_status e) None)
  else if bool_decide (ex_status e = ExecutionStatus.CANCEL_REQUESTED) && bool_decide (ex_worker_id e = Some worker)
          && bool_decide (ex_lease_token e = Some token) then
    o ← run_store (reconcile_cancel_requested_locked now);
    let reason := match co_status o with
                  | ExecutionStatus.FAILED => EXECUTION_FAILED
                  | ExecutionStatus.CANCELLED => "CANCELLED"
                  | _ => CANCEL_IN_PROGRESS
                  end in
    mret (ProgressOutcome (bool_decide (co_status o ∈ [ExecutionStatus.CANCELLED; ExecutionStatus.FAILED])) false reason
            (Some (co_status o)) [] [] false None)
  else mret (in_progress CANCEL_IN_PROGRESS (Some (ex_status e))).

(** The natural end, if every step is terminal *)
Definition natural_end (p : plan) (now : Z) (unfinished : tx (option progress_outcome)) : tx (option progress_outcome) :=
  st ← reading (λ st, st);
  if dag_naturally_ended (list_steps st) then
    d ← lift (aggregate_all_required p (list_steps st));
    modify (apply_execution_terminal p d now);;
    mret (Some (completed (completion_reason (cd_status d)) (cd_status d) None))
  else unfinished.

Definition settle_continuable (new_id : nat → uuid) (request_id : uuid) (now : Z) (p : plan) (dag : tool_join_dag)
    : tx progress_outcome :=
  stop ← local_reconcile c new_id request_id p now dag;
  match stop with
  | Some o => mret o
  | None =>
      o ← natural_end p now (mret None);
      match o with
      | Some o => mret o
      | None => modify (upd_execution (heartbeat now));; mret (in_progress "WAVE_SETTLED" None)
      end
  end.

Definition settle_wave (new_id : nat → uuid) (request_id : uuid) (now : Z) (wave : list (uuid * tool_run_outcome))
    (order : list string) : tx progress_outcome :=
  st ← reading (λ st, st);
  attempting (p ← assert_execution_plan_lineage (st_execution st); dag ← validate_tool_join_dag p (list_steps st); Ok (p, dag))
    (λ code _, fail_closed_lineage code "Execution plan lineage corrupt after wave settlement." now) (λ pd,
    causes ← lift (wave_causes pd.1 order st wave);
    match pick_stop_cause causes with
    | Some cause => stop_wave pd.1 cause now
    | None =>
        if cancellation_is_requested (st_execution st) then settle_cancelled now
        else if negb (has_running_lease worker token now (st_execution st)) then mret (in_progress "STALE_LEASE" None)
        else settle_continuable new_id request_id now pd.1 pd.2
    end).

(** ** [_finalize_natural_end] *)
Definition finalize_natural_end (new_id : nat → uuid) (request_id : uuid) (now : Z) : tx (option progress_outcome) :=
  st ← reading (λ st, st);
  let e := st_execution st in
  if bool_decide (ex_status e ∈ [ExecutionStatus.SUCCEEDED; ExecutionStatus.PARTIALLY_SUCCEEDED]) then
    mret (Some (completed "ALREADY_COMPLETE" (ex_status e) None))
  else if negb (has_running_lease worker token now e) || is_nil (list_steps st) then mret None
  else with_graph now Some (λ p dag,
    stop ← local_reconcile c new_id request_id p now dag;
    match stop with
    | Some o => mret (Some o)
    | None => natural_end p now (mret None)
    end).
End wave.

(** * The loop of the orchestrator ([execution/orchestrator.py])

    [ExecutionOrchestrator.run] over its transactions.  What the runner makes
    of a wave, with everything others commit while it runs, is given for each
    wave: [asyncio.gather] fixes no order between the runs. *)

(** The flags [run_claimed_tool_step] is called with *)
Record wave_flags := WaveFlags {
  wf_defer_execution_terminalization : bool;
  wf_forbid_execution_wait : bool;
  wf_forbid_new_approval_wait : bool }.
Definition no_flags : wave_flags := WaveFlags false false false.

(** What one turn of the loop is given *)
Record wave_inputs := WaveInputs {
  wi_new_id : nat → uuid;
  wi_request_id : uuid;
  wi_prepared_at : Z;
  wi_settled_at : Z;
  wi_tools : wave_flags → list uuid → store → store * (uuid → tool_run_outcome) }.

Section run.
Context {schema : PlanSchema} {parser : PlanParser}.
Context (c : catalog) (worker : string) (token : uuid).

(** An outcome without the rows of a call, and one with those of the last run *)
Definition bare (st : store) (step_id : option uuid) (status : option string) (reason : string) (d : disposition)
    : tool_run_outcome :=
  ToolRunOutcome (ex_id (st_execution st)) step_id None None false status reason d.
Definition of_last (st : store) (last : option tool_run_outcome) (called : bool) (status : option string) (reason : string)
    : tool_run_outcome :=
  ToolRunOutcome (ex_id (st_execution st)) (last ≫= tr_step_execution_id) (last ≫= tr_attempt_id) (last ≫= tr_tool_call_id)
    called status reason Disposition.NOOP.

Definition status_of (o : progress_outcome) : option string := execution_status_value <$> po_execution_status o.
(** [step_terminal_status or execution_status] *)
Definition terminal_of (o : progress_outcome) : option string :=
  match po_step_terminal_status o with
  | Some s => if str_empty s then status_of o else Some s
  | None => status_of o
  end.

(** Where the loop returns without a wave *)
Definition returned_early (last : option tool_run_outcome) (prepared : progress_outcome) (st : store)
    : option tool_run_outcome :=
  let reason := po_reason prepared in
  if String.eqb reason "STALE_LEASE" then Some (bare st None (status_of prepared) "LEASE_MISMATCH" Disposition.NOOP)
  else if String.eqb reason WAVE_IN_PROGRESS then Some (bare st None None WAVE_IN_PROGRESS Disposition.NOOP)
  else if String.eqb reason CANCEL_IN_PROGRESS then Some (bare st None (status_of prepared) CANCEL_IN_PROGRESS Disposition.NOOP)
  else if po_execution_complete prepared then
    Some (of_last st last (match last with Some o => tr_mcp_called o | None => false end) (terminal_of prepared) reason)
  else if String.eqb reason "WAITING_APPROVAL" then
    Some (bare st (head (po_ready_step_ids prepared)) (Some "WAITING_APPROVAL") "WAITING_APPROVAL" Disposition.WAIT)
  else None.

(** The end of a wave of one run that needs no settlement *)
Definition SINGLE_RETURNS : list string :=
  ["LEASE_MISMATCH"; "MISSING"; "STEP_ALREADY_TERMINAL"; "RESOURCE_CONFLICT"; "TOOL_CALL_ALREADY_STARTED";
   "CANCEL_REQUESTED"; "CANCELLED"; CANCEL_IN_PROGRESS].
Definition waits (o : tool_run_outcome) : bool :=
  bool_decide (effective_disposition o = Disposition.WAIT) || bool_decide (tr_reason o ∈ ["WAITING_APPROVAL"; "WAITING_INPUT"]).
Definition retries (o : tool_run_outcome) : bool :=
  bool_decide (effective_disposition o = Disposition.RETRY) || String.eqb (tr_reason o) "SAFE_RETRY_READY".

Inductive wave_end := Return (o : tool_run_outcome) | Again | Settle.
Definition wave_end_of (single : bool) (outcomes : list tool_run_outcome) : wave_end :=
  match outcomes with
  | [o] =>
      if retries o then Again
      else if waits o then Return o
      else if single && bool_decide (tr_reason o ∈ SINGLE_RETURNS) then Return o
      else Settle
  | _ => match find_first waits outcomes with Some o => Return o | None => Settle end
  end.

(** The loop returns, or goes on with its last outcome. *)
Definition run_result : Type := tool_run_outcome + option tool_run_outcome.

(** The tools of a wave, and its settlement *)
Definition run_tools (wi : wave_inputs) (last : option tool_run_outcome) (order : list string) (single : bool)
    (allow_approval_wait : bool) (ids : list uuid) (st : store) : res (store * run_result) :=
  let (st, outcome_of) := wi_tools wi (WaveFlags (negb single) (negb single) (negb allow_approval_wait)) ids st in
  let outcomes := outcome_of <$> ids in
  let last := match list.last outcomes with Some o => Some o | None => last end in
  match wave_end_of single outcomes with
  | Return o => Ok (st, inl o)
  | Again => Ok (st, inr last)
  | Settle =>
      r ← commit (settle_wave c worker token (wi_new_id wi) (wi_request_id wi) (wi_settled_at wi) (zip ids outcomes) order) st;
      let (st, settled) := (r : store * progress_outcome) in
      if po_execution_complete settled then
        let status := match terminal_of settled with Some s => Some s | None => last ≫= tr_terminal_status end in
        Ok (st, inl (of_last st last (existsb tr_mcp_called outcomes) status (po_reason settled)))
      else Ok (st, inr last)
  end.

(** No tool is ready: the graph ended, or another worker owns it. *)
Definition run_idle (wi : wave_inputs) (last : option tool_run_outcome) (st : store) : res (store * run_result) :=
  r ← commit (finalize_natural_end c worker token (wi_new_id wi) (wi_request_id wi) (wi_settled_at wi)) st;
  let (st, finalized) := (r : store * option progress_outcome) in
  Ok (st, inl (match finalized, last with
               | Some o, _ => bare st None (status_of o) (po_reason o) Disposition.NOOP
               | None, Some o => o
               | None, None => bare st None None "LEASE_MISMATCH" Disposition.NOOP
               end)).

(** A wave of several tools runs alone the first that asks for approval. *)
Definition run_wave (wi : wave_inputs) (last : option tool_run_outcome) (prepared : progress_outcome) (st : store)
    : res (store * run_result) :=
  let ids := po_ready_step_ids prepared in
  let order := po_plan_order prepared in
  if po_single_tool prepared then run_tools wi last order true true ids st
  else match select_approval_suspension_wave st ids with
  | Ok (Some id) => run_tools wi last order false true [id] st
  | Ok None => run_tools wi last order false false ids st
  | Err (AppError code message _) =>
      r ← commit (fail_closed_pre_wave_policy worker token code message (wi_settled_at wi)) st;
      let (st, failed) := (r : store * progress_outcome) in
      Ok (st, inl (bare st None (Some (default "FAILED" (status_of failed))) (str_or (Some (po_reason failed)) EXECUTION_FAILED)
                     Disposition.FATAL_EXECUTION_FAILURE))
  | Err e => Err e
  end.

(** One turn of the loop *)
Definition run_turn (wi : wave_inputs) (last : option tool_run_outcome) (st : store) : res (store * run_result) :=
  r ← commit (prepare_wave c worker token (wi_new_id wi) (wi_request_id wi) (wi_prepared_at wi)) st;
  let (st, prepared) := (r : store * progress_outcome) in
  match returned_early last prepared st with
  | Some o => Ok (st, inl o)
  | None =>
      match po_ready_step_ids prepared with
      | [] => run_idle wi last st
      | id :: _ =>
          if String.eqb (po_reason prepared) "WAITING_HANDOFF" then
            let (st, outcome_of) := wi_tools wi no_flags [id] st in Ok (st, inl (outcome_of id))
          else run_wave wi last prepared st
      end
  end.

(** [run]: turn after turn, on what each is given *)
Fixpoint run (inputs : list wave_inputs) (last : option tool_run_outcome) (st : store) : res (store * run_result) :=
  match inputs with
  | [] => Ok (st, inr last)
  | wi :: inputs =>
      r ← run_turn wi last st;
      match r.2 with
      | inl o => Ok (r.1, inl o)
      | inr last => run inputs last r.1
      end
  end.
End run.
