(* ===== verification/OrchestratorSound.v ===== *)
(** What the local part of the orchestrator keeps: its ends and gates, its LOOP
    steps, its local steps. *)
From S2P Require Import Prelude PyStr PyDict Json PyUuid Domain LoopRuntime Completion DagValidate DagSchedule.
From S2P Require Import PredicateEvaluator Rows Cancellation CancelSound PolicySelection LoopReconcile Claim Preflight.
From S2P Require Import ApprovalContext ApprovalEvidence Approval ApprovalResume Transaction Orchestrator.
From S2P Require Import OrchestratorLocal.

(** * What the local reconciliation guarantees

    Whatever a pass does, it starts no tool, leaves every terminal row and all
    evidence of calls as they are, and ends the execution only in one of two
    ways: FAILED or TIMED_OUT without a lease and with nothing left to start,
    or waiting for one approval. *)

(** ** Rows a transaction may touch *)
Record guarded (K : list execution_step) (a0 : list step_attempt) (c0 : list tool_call) (st : store) : Prop := {
  gd_wf : store_wf st;
  gd_keys : NoDup (es_step_key <$> st_steps st);
  gd_kept : ∀ s, s ∈ K → s ∈ st_steps st;
  gd_attempts : st_attempts st = a0;
  gd_calls : st_calls st = c0 }.

(** Nothing of the execution can start any more. *)
Definition nothing_starts (st : store) : Prop :=
  ∀ s, s ∈ st_steps st → es_status s ≠ StepStatus.PENDING ∧ unused_ready_tool s = false.

Definition plain (f : execution_step → execution_step) : Prop :=
  ∀ s, es_id (f s) = es_id s ∧ es_execution_id (f s) = es_execution_id s ∧ es_step_key (f s) = es_step_key s.

Section guard.
Context {schema : PlanSchema} {parser : PlanParser}.
Context (K : list execution_step) (a0 : list step_attempt) (c0 : list tool_call).
Context (HK : ∀ s, s ∈ K → is_terminal_step_status (es_status s) = true).
Local Abbreviation guarded := (guarded K a0 c0).
Local Abbreviation kept_id id := (id ∉ es_id <$> K).

(** A row that is not terminal is none of the kept ones. *)
Lemma live_row st s : guarded st → s ∈ st_steps st → is_terminal_step_status (es_status s) = false → kept_id (es_id s).
Proof using HK.
  intros Hg Hs Ht Hin. apply list_elem_of_fmap in Hin as (k & Hid & Hk).
  assert (s = k) as ->; [|by rewrite (HK k Hk) in Ht].
  apply (key_inj es_id (st_steps st)); [apply Hg|done|by apply Hg|done].
Qed.

(** Two stores with the same rows of every table but events *)
Lemma guarded_rows st st' :
  ex_id (st_execution st') = ex_id (st_execution st) → st_steps st' = st_steps st → st_attempts st' = st_attempts st →
  st_calls st' = st_calls st → guarded st → guarded st'.
Proof.
  intros H1 H2 H3 H4 [[W1 W2 W3 W4 W5 W6] Hk Hkept Ha Hc].
  split; [split; rewrite ?H1, ?H2, ?H3, ?H4; auto|rewrite H2; auto..|congruence|congruence].
Qed.

Lemma guarded_upd_kept st id f :
  plain f → (∀ k, k ∈ K → es_id k = id → f k = k) → guarded st → guarded (upd_step id f st).
Proof.
  intros Hf Hid [Hwf Hk Hkept Ha Hc]. split; [|..].
  - eapply same_keys_wf; [|exact Hwf]. apply upd_step_keys. intros s. by destruct (Hf s) as (? & ? & ?).
  - cbn [st_steps upd_step set_st_steps]. rewrite upd_where_proj; [done|]. intros s. apply Hf.
  - intros s Hs. apply elem_of_upd_where. exists s. split; [by apply Hkept|]. case_decide; [|done]. symmetry. by apply Hid.
  - done.
  - done.
Qed.
Lemma guarded_upd st id f : plain f → kept_id id → guarded st → guarded (upd_step id f st).
Proof. intros Hf Hid. apply guarded_upd_kept; [done|]. intros k Hk <-. destruct Hid. by apply list_elem_of_fmap_2. Qed.

Lemma guarded_emit st now s : guarded st → guarded (emit_of_step now s st).
Proof. destruct (emit_of_step_rows now s st) as (H1 & H2 & H3 & H4 & _). by apply guarded_rows; rewrite ?H1. Qed.

Lemma guarded_transition st now id f : plain f → kept_id id → guarded st → guarded (transition now id f st).
Proof.
  intros Hf Hid Hg. unfold transition. destruct (get_step id st) as [s|]; [|done]. by apply guarded_emit, guarded_upd.
Qed.

(** ** Ends
    [e0] is the execution of the transaction. *)
Context (now : Z) (e0 : execution).
Definition working (st : store) : Prop := guarded st ∧ st_execution st = e0.
Definition ended (status : execution_status) (o : progress_outcome) (st : store) : Prop :=
  po_execution_complete o = true ∧ po_execution_status o = Some status ∧
  (∃ code message summary, st_execution st = end_execution status code message summary now e0) ∧ nothing_starts st.
Definition waits_for_approval (o : progress_outcome) (st : store) : Prop :=
  po_execution_complete o = false ∧ po_reason o = "WAITING_APPROVAL" ∧
  st_execution st = bump_execution (wait_execution e0) ∧
  ∃ r, r ∈ st_approvals st ∧ ar_status r = ApprovalStatus.PENDING ∧ po_ready_step_ids o = [ar_step_execution_id r].
Definition settled_turn (o : progress_outcome) (st : store) : Prop :=
  guarded st ∧ ((∃ status, status ∈ [ExecutionStatus.FAILED; ExecutionStatus.TIMED_OUT] ∧ ended status o st) ∨ waits_for_approval o st).
Definition turned (t : turn) (st : store) : Prop :=
  match t with Stop o => settled_turn o st | Go _ => working st end.

Lemma guarded_stop st before : guarded st → guarded (stop_steps before now st).
Proof using HK.
  intros Hg. pose proof (gd_wf _ _ _ _ Hg) as Hwf. pose proof (gd_keys _ _ _ _ Hg) as Hnd.
  destruct (stop_rows_steps now st Hwf) as (Hsk & He & Ha & Hc & _).
  unfold stop_steps. cbn zeta. destruct (emit_step_transitions_rows before (list_steps (stop_rows now st)) now (stop_rows now st))
    as (E1 & E2 & E3 & E4 & _). eapply guarded_rows; [by rewrite E1|done|done|done|].
  split; [by eapply same_keys_wf| | |rewrite Ha; apply Hg|rewrite Hc; apply Hg].
  - rewrite stop_rows_all by done. rewrite <- list_fmap_compose. erewrite list_fmap_ext; [exact Hnd|].
    intros _ x _. unfold compose, stop_row. destruct (bool_decide _); cbn zeta; by destruct (unused_ready_tool _).
  - intros s Hs. rewrite stop_rows_all by done. apply list_elem_of_fmap. exists s.
    split; [|by apply Hg]. symmetry. apply stop_row_kept. by apply HK.
Qed.
Lemma stop_steps_execution st before : store_wf st → st_execution (stop_steps before now st) = st_execution st.
Proof.
  intros Hwf. unfold stop_steps. cbn zeta.
  destruct (emit_step_transitions_rows before (list_steps (stop_rows now st)) now (stop_rows now st)) as (-> & _).
  by destruct (stop_rows_steps now st Hwf) as (_ & -> & _).
Qed.
Lemma stop_steps_nothing st before : guarded st → nothing_starts (stop_steps before now st).
Proof.
  intros Hg s Hs. unfold stop_steps in Hs. cbn zeta in Hs.
  destruct (emit_step_transitions_rows before (list_steps (stop_rows now st)) now (stop_rows now st)) as (_ & E & _).
  rewrite E, stop_rows_all in Hs by apply Hg. apply list_elem_of_fmap in Hs as (x & -> & _). apply stop_row_stopped.
Qed.

Lemma terminate_rows status code message p st :
  let st' := terminate status code message p now st in
  (∃ summary, st_execution st' = end_execution status code message summary now (st_execution st)) ∧
  st_steps st' = st_steps st ∧ st_attempts st' = st_attempts st ∧ st_calls st' = st_calls st.
Proof.
  unfold terminate. cbn zeta. match goal with |- context [emit_execution_status_changed ?x ?n ?s] =>
    destruct (emit_execution_rows x n s) as (-> & -> & -> & -> & _) end. split; [by eexists|done].
Qed.
(** Every fail fast end of the code *)
Lemma stop_settled st before status code message p o :
  working st → status ∈ [ExecutionStatus.FAILED; ExecutionStatus.TIMED_OUT] →
  po_execution_complete o = true → po_execution_status o = Some status →
  settled_turn o (terminate status code message p now (stop_steps before now st)).
Proof using HK.
  intros [Hg He] Hin H1 H2. destruct (terminate_rows status code message p (stop_steps before now st)) as ([sm E] & Es & Ea & Ec).
  rewrite stop_steps_execution, He in E by apply Hg. split.
  - eapply guarded_rows; [|done..|by apply guarded_stop]. rewrite E, stop_steps_execution, He by apply Hg. done.
  - left. exists status. split; [done|]. split_and!; [done|done|by eauto|]. intros s Hs. rewrite Es in Hs.
    by eapply stop_steps_nothing.
Qed.

(** ** Transactions *)
Lemma working_upd_kept st id f :
  plain f → (∀ k, k ∈ K → es_id k = id → f k = k) → working st → working (upd_step id f st).
Proof. intros Hf Hk [Hg He]. split; [by apply guarded_upd_kept|done]. Qed.
Lemma keeps_upd id f : plain f → kept_id id → preserves working (modify (upd_step id f)).
Proof. intros Hf Hid. apply spec_modify. intros st [Hg He]. split; [by apply guarded_upd|done]. Qed.
Lemma keeps_transition id f : plain f → kept_id id → preserves working (modify (transition now id f)).
Proof.
  intros Hf Hid. apply spec_modify. intros st [Hg He]. split; [by apply guarded_transition|]. unfold transition.
  destruct (get_step id st) as [s|]; [|done]. by destruct (emit_of_step_rows now s (upd_step id f st)) as (-> & _).
Qed.
Lemma spec_lock_step {A} id (k : execution_step → tx A) Q : (∀ s, es_id s = id → spec working (k s) Q) → spec working (lock_step id ≫= k) Q.
Proof.
  intros Hk st Hst. unfold lock_step, mbind, tx_bind, reading, lift.
  destruct (get_step id st) as [s|] eqn:Hs; [|done]. cbn. apply Hk; [|done]. by apply find_key_Some in Hs as [_ ?].
Qed.
(** The rest of a turn after a change *)
Lemma spec_then {A B} (m : tx A) (k : A → tx B) Q : preserves working m → (∀ a, spec working (k a) Q) → spec working (m ≫= k) Q.
Proof. apply spec_bind. Qed.
Lemma spec_go b : spec working (mret (Go b)) turned.
Proof. by apply spec_ret. Qed.
Lemma spec_stop (m : tx progress_outcome) : spec working m settled_turn → spec working (o ← m; mret (Stop o)) turned.
Proof. intros Hm. eapply spec_run; [exact Hm|]. by intros o st Ho. Qed.

Lemma scan_turned f keys changed : (∀ key, spec working (f key) turned) → spec working (scan f keys changed) turned.
Proof.
  intros Hf. revert changed. induction keys as [|key keys IH]; intros changed; cbn [scan]; [apply spec_go|].
  eapply spec_run; [apply Hf|]. intros [o|c] st Ht; [done|]. by apply IH.
Qed.

Lemma fail_closed_lineage_settled c m : spec working (fail_closed_lineage c m now) settled_turn.
Proof using HK. apply spec_modify_end. intros st Hst. by apply stop_settled; [|left| |]. Qed.
Lemma lineage_stop_turned c m : spec working (lineage_stop now c m) turned.
Proof using HK. apply spec_stop, fail_closed_lineage_settled. Qed.
Lemma fail_pending_plain c m : plain (fail_pending c m now).
Proof. intros s. unfold fail_pending. by case_bool_decide. Qed.
Lemma fail_pending_kept id c m k : k ∈ K → es_id k = id → fail_pending c m now k = k.
Proof using HK.
  intros Hk _. unfold fail_pending. case_bool_decide as Hp; [|done]. specialize (HK k Hk). by rewrite Hp in HK.
Qed.
Lemma fail_closed_predicate_settled p id c m : spec working (fail_closed_predicate p id c m now) settled_turn.
Proof using HK.
  apply spec_modify_end. intros st Hst. apply stop_settled; [|by left|done|done].
  apply working_upd_kept; [apply fail_pending_plain|apply fail_pending_kept|done].
Qed.
Lemma predicate_stop_turned p id c m : spec working (predicate_stop p id now c m) turned.
Proof using HK. apply spec_stop, fail_closed_predicate_settled. Qed.
Lemma fail_fast_turned p s : spec working (fail_fast p s now) turned.
Proof using HK.
  apply spec_modify_end. intros st Hst. apply stop_settled; [done| |done|done].
  unfold fail_fast_execution_status. case_bool_decide; set_solver.
Qed.
Lemma apply_when_false_keeps id : kept_id id → preserves working (apply_when_false now id).
Proof. intros Hid. by apply keeps_transition. Qed.
Lemma with_plan_step_turned p s k : (∀ ps, spec working (k ps) turned) → spec working (with_plan_step p now s k) turned.
Proof using HK. intros Hk. apply spec_attempting; [apply lineage_stop_turned|done]. Qed.
Lemma with_when_gate_turned p drift s ps k :
  kept_id (es_id s) → spec working k turned → spec working (with_when_gate p now drift s ps k) turned.
Proof using HK.
  intros Hid Hk. apply spec_if; intros _; [apply lineage_stop_turned|]. apply spec_read. intros st Hst.
  apply spec_attempting; [intros; apply predicate_stop_turned|]. intros skip _. apply spec_if; intros _; [|done].
  apply spec_bind; [by apply apply_when_false_keeps|]. intros _. apply spec_go.
Qed.
End guard.

(** * LOOP steps keep what is settled

    No turn of [_reconcile_loop_steps_locked] changes a terminal row, an
    attempt or a call; it goes on with the execution as it was, or ends it. *)

Section guard.
Context {schema : PlanSchema} {parser : PlanParser}.
Context (K : list execution_step) (a0 : list step_attempt) (c0 : list tool_call).
Context (HK : ∀ s, s ∈ K → is_terminal_step_status (es_status s) = true).
Context (new_id : nat → uuid) (p : plan) (dag : tool_join_dag) (now : Z) (e0 : execution).
Local Abbreviation working := (working K a0 c0 e0).
Local Abbreviation turned := (turned K a0 c0 now e0).
Local Abbreviation kept_id id := (id ∉ es_id <$> K).

(** ** New rows *)
Lemma insert_step_keeps s : preserves working (insert_step s).
Proof.
  apply spec_reading. intros st Hst. destruct (_ || _) eqn:Hd; [done|]. destruct Hst as [[Hwf Hk Hkept Ha Hc] He].
  apply orb_false_iff in Hd as [[Hid Hex]%orb_false_iff Hkey]. apply bool_decide_eq_false in Hid, Hkey.
  apply negb_false_iff, bool_decide_eq_true in Hex. destruct Hwf as [W1 W2 W3 W4 W5 W6]. split; [|done]. split.
  - split; cbn [st_steps st_execution st_attempts st_calls set_st_steps]; try done.
    + rewrite fmap_app. apply NoDup_app. split_and!; [done|intros x Hx Hx2|apply NoDup_singleton]. apply list_elem_of_singleton in Hx2. by subst.
    + intros x [Hx|Hx%list_elem_of_singleton]%elem_of_app; [by apply W4|by subst].
    + intros a Ha'. rewrite fmap_app. apply elem_of_app. left. by apply W5.
  - cbn. rewrite fmap_app. apply NoDup_app. split_and!; [done|intros x Hx Hx2|apply NoDup_singleton]. apply list_elem_of_singleton in Hx2. by subst.
  - intros x Hx. cbn. apply elem_of_app. left. by apply Hkept.
  - done.
  - done.
Qed.
Lemma insert_steps_keeps l : preserves working (insert_steps l).
Proof. induction l; cbn [insert_steps]; [by apply spec_ret|]. apply spec_bind; [apply insert_step_keeps|done]. Qed.
Lemma materialize_keeps cfg id n : preserves working (materialize new_id p cfg id n).
Proof.
  apply spec_lock_step. intros s _. apply spec_read. intros st _. apply spec_lift. intros r _. apply insert_steps_keeps.
Qed.
Lemma materialize_turned cfg id n : spec working (materialize new_id p cfg id n;; mret (Go true)) turned.
Proof. apply spec_bind; [apply materialize_keeps|]. intros _. apply spec_go. Qed.

(** ** Failures of a LOOP *)
Lemma terminal_iteration s : is_terminal_step_status s = true → s ∈ iteration_terminal.
Proof. clear HK. unfold is_terminal_step_status. rewrite bool_decide_eq_true. unfold TERMINAL_STEP, iteration_terminal. set_solver. Qed.
Lemma stopped_child_plain id : plain (stopped_child now id).
Proof. intros s. unfold stopped_child, stop_child. by repeat case_match; simplify_eq. Qed.
Lemma stopped_child_kept id k : k ∈ K → stopped_child now id k = k.
Proof using HK.
  intros Hk. unfold stopped_child, stop_child. destruct (negb _); [done|].
  by rewrite bool_decide_true by (apply terminal_iteration; auto).
Qed.
Lemma stop_children_keeps id rows : preserves working (stop_children now id rows).
Proof using HK.
  induction rows as [|s rows IH]; cbn [stop_children]; [by apply spec_ret|]. apply spec_lift. intros _ _.
  apply spec_bind; [|done]. apply spec_modify. intros st Hst.
  apply working_upd_kept; [apply stopped_child_plain|intros; by apply stopped_child_kept|done].
Qed.
Lemma emit_transitions_working before rows st : working st → working (emit_step_transitions before rows now st).
Proof.
  intros [Hg He]. destruct (emit_step_transitions_rows before rows now st) as (E1 & E2 & E3 & E4 & _).
  split; [apply (guarded_rows _ _ _ st); by rewrite ?E1|congruence].
Qed.
Lemma error_policy_turned ps id : spec working (apply_loop_error_policy p now ps id) turned.
Proof using HK.
  apply spec_read. intros st0 _.
  apply (spec_run _ _ _ (λ r st, match r with Some t => turned t st | None => working st end)).
  - apply spec_catch.
    + apply spec_bind; [apply stop_children_keeps|]. intros _. apply spec_modify_end. intros st Hst. by apply emit_transitions_working.
    + intros c m. eapply spec_run; [by apply lineage_stop_turned|]. by intros t st Ht.
  - intros [t|] st Ht; [done|]. revert st Ht.
    change (spec working (s ← lock_step id; if stops_on (ps_on_error ps) (es_status s) then fail_fast p s now else mret (Go true)) turned).
    apply spec_lock_step. intros s _. apply spec_if; intros _; [by apply fail_fast_turned|apply spec_go].
Qed.
Lemma fail_loop_turned ps id status c m : kept_id id → spec working (fail_loop p now ps id status c m) turned.
Proof using HK. intros Hid. apply spec_bind; [by apply keeps_upd|]. intros _. apply error_policy_turned. Qed.
Lemma time_out_loop_turned ps id : kept_id id → spec working (time_out_loop p now ps id) turned.
Proof using HK. apply fail_loop_turned. Qed.

(** ** WHILE *)
Lemma pin_if_none_plain : plain (λ s, if is_none (es_resolved_input s) then pin_while_control_evidence s else s).
Proof. intros s. by destruct (is_none _). Qed.
Lemma spec_pinned_while_gate {A} cfg id n (k : bool → tx A) Q :
  kept_id id → (∀ b, spec working (k b) Q) → spec working (pinned_while_gate p cfg id n ≫= k) Q.
Proof.
  intros Hid Hk. apply spec_bind; [|done].
  apply spec_bind; [apply spec_if; intros _; [by apply keeps_upd; [apply pin_if_none_plain|]|by apply spec_ret]|]. intros _.
  apply spec_lock_step. intros s _. apply spec_read. intros st _. apply spec_lift. intros r _.
  apply spec_bind; [by apply keeps_upd|]. intros _. by apply spec_ret.
Qed.
Lemma while_candidate_turned ps cfg id n done_ :
  kept_id id → spec working (while_candidate new_id p now ps cfg id n done_) turned.
Proof using HK.
  intros Hid. apply spec_pinned_while_gate; [done|]. intros gate. apply spec_if; intros _.
  { apply spec_bind; [by apply keeps_upd|]. intros _. apply spec_go. }
  apply spec_if; intros _; [by apply fail_loop_turned|]. apply spec_read. intros st _. apply spec_lift. intros _ _.
  apply materialize_turned.
Qed.
Lemma fail_running_plain c m : plain (fail_running now c m).
Proof. intros s. unfold fail_running. by case_bool_decide. Qed.
Lemma while_failed_turned id c m : kept_id id → spec working (while_failed p now id c m) turned.
Proof using HK.
  intros Hid. apply spec_bind; [by apply keeps_upd; [apply fail_running_plain|]|]. intros _.
  apply spec_if; intros _; [by apply predicate_stop_turned|by apply lineage_stop_turned].
Qed.
Lemma start_while_turned ps cfg id : kept_id id → spec working (start_while new_id p now ps cfg id) turned.
Proof using HK.
  intros Hid. apply spec_catch; [|intros; by apply while_failed_turned]. apply spec_bind; [by apply keeps_upd|]. intros _.
  apply spec_lock_step. intros s _. apply spec_if; intros _; [by apply time_out_loop_turned|by apply while_candidate_turned].
Qed.
Lemma advance_while_turned ps cfg id : kept_id id → spec working (advance_while new_id p now ps cfg id) turned.
Proof using HK.
  intros Hid. apply spec_catch; [|intros; by apply while_failed_turned]. apply spec_read. intros st _. cbn zeta.
  apply spec_if; intros _; [by apply while_candidate_turned|]. apply spec_if; intros _; [apply spec_go|].
  apply spec_lock_step. intros s _. apply spec_if; intros _; [by apply time_out_loop_turned|by apply while_candidate_turned].
Qed.

(** ** FOR_EACH *)
Local Abbreviation turned' := (λ r st, match r with Some t => turned t st | None => working st end).
Lemma spec_some m : spec working m turned → spec working (t ← m; mret (Some t)) turned'.
Proof. intros Hm. eapply spec_run; [exact Hm|]. by intros t st Ht. Qed.
Lemma pin_foreach_turned ps cfg id : kept_id id → spec working (pin_foreach p now ps cfg id) turned'.
Proof using HK.
  intros Hid. apply spec_lock_step. intros s _. apply spec_read. intros st _. apply spec_lift. intros collection _.
  apply spec_lift. intros pinned _. apply spec_bind; [by apply keeps_upd|]. intros _.
  apply spec_if; intros _; [by apply spec_some, fail_loop_turned|]. apply spec_read. intros st' _.
  apply spec_lift. intros _ _. by apply spec_ret.
Qed.
Lemma foreach_failed_turned ps id c m : kept_id id → spec working (foreach_failed p now ps id c m) turned.
Proof using HK.
  intros Hid. apply spec_if; intros _; [by apply fail_loop_turned|].
  apply spec_bind; [by apply keeps_upd; [apply fail_running_plain|]|]. intros _. by apply lineage_stop_turned.
Qed.
Lemma start_foreach_turned ps cfg id : kept_id id → spec working (start_foreach new_id p now ps cfg id) turned.
Proof using HK.
  intros Hid. eapply (spec_run _ _ _ turned').
  - apply spec_catch; [by apply pin_foreach_turned|]. intros c m. by apply spec_some, foreach_failed_turned.
  - intros [t|] st Ht; [done|]. revert st Ht. apply spec_lock_step. intros s _.
    apply spec_if; intros _; [|apply materialize_turned]. apply spec_bind; [by apply keeps_upd|]. intros _. apply spec_go.
Qed.
Lemma advance_foreach_turned ps cfg id : kept_id id → spec working (advance_foreach new_id p now ps cfg id) turned.
Proof using HK.
  intros Hid. apply spec_lock_step. intros s _. apply spec_read. intros st _. apply spec_attempting.
  { intros c m. apply spec_bind; [by apply keeps_upd|]. intros _. by apply lineage_stop_turned. }
  intros collection _. cbn zeta. repeat (apply spec_if; intros _); try apply materialize_turned; try apply spec_go.
  - by apply time_out_loop_turned.
  - apply spec_bind; [by apply keeps_upd|]. intros _. apply spec_go.
Qed.

(** ** One key *)
Lemma with_loop_turned s k : (∀ ps cfg, spec working (k ps cfg) turned) → spec working (with_loop p now s k) turned.
Proof using HK. intros Hk. apply spec_attempting_any; [intros; by apply lineage_stop_turned|by apply lineage_stop_turned|auto]. Qed.
Lemma start_loop_turned s : kept_id (es_id s) → spec working (start_loop new_id p now s) turned.
Proof using HK.
  intros Hid. apply with_loop_turned. intros ps cfg. apply spec_read. intros st _.
  apply spec_attempting; [intros; by apply predicate_stop_turned|]. intros skip _. apply spec_if; intros _.
  { apply spec_bind; [by apply apply_when_false_keeps|]. intros _. apply spec_go. }
  apply spec_bind; [by apply keeps_transition|]. intros _. apply spec_bind; [by apply keeps_transition|]. intros _.
  destruct (lc_mode cfg); [by apply start_foreach_turned|by apply start_while_turned].
Qed.
Lemma advance_loop_turned s : kept_id (es_id s) → spec working (advance_loop new_id p now s) turned.
Proof using HK.
  intros Hid. apply with_loop_turned. intros ps cfg. apply spec_if; intros _; [by apply time_out_loop_turned|].
  destruct (lc_mode cfg); [by apply advance_foreach_turned|by apply advance_while_turned].
Qed.

(** The row under a key is one of the store. *)
Lemma by_key_elem st k s : store_wf st → dict_get k (rows_by_key st) = Some s → s ∈ st_steps st.
Proof.
  intros Hwf [Hs _]%elem_of_dict_values_comp. by apply list_steps_wf.
Qed.
Lemma by_key_live st k s :
  working st → dict_get k (rows_by_key st) = Some s → is_terminal_step_status (es_status s) = false → kept_id (es_id s).
Proof using HK. intros [Hg _] Hs Ht. eapply live_row; [done|done| |done]. eapply by_key_elem; [apply Hg|done]. Qed.

Lemma loop_key_turned key : spec working (loop_key new_id p dag now key) turned.
Proof using HK.
  apply spec_reading. intros st Hst. destruct (dict_get key (rows_by_key st)) as [s|] eqn:Hs; [|by apply spec_go].
  destruct (negb _); [by apply spec_go|]. destruct (is_some _); [by apply lineage_stop_turned|].
  destruct (es_status s) eqn:Hss; try by apply spec_go.
  - apply spec_lift; [|done]. intros b _. apply spec_if; intros _; [|apply spec_go].
    apply start_loop_turned. eapply by_key_live; [done..|]. by rewrite Hss.
  - apply advance_loop_turned; [|done]. eapply by_key_live; [done..|]. by rewrite Hss.
Qed.
Lemma reconcile_loop_steps_turned : spec working (reconcile_loop_steps new_id p dag now) turned.
Proof using HK. apply scan_turned. apply loop_key_turned. Qed.
End guard.

(** * The local reconciliation keeps what is settled

    Pass after pass, [_local_reconcile_locked] changes no terminal row, no
    attempt and no call; it leaves the execution as it was, ends it FAILED or
    TIMED_OUT with nothing left to start, or makes it wait for one request. *)

Section guard.
Context {schema : PlanSchema} {parser : PlanParser}.
Context (K : list execution_step) (a0 : list step_attempt) (c0 : list tool_call).
Context (HK : ∀ s, s ∈ K → is_terminal_step_status (es_status s) = true).
Context (c : catalog) (new_id : nat → uuid) (request_id : uuid) (p : plan) (now : Z) (e0 : execution).
Context (Hrunning : ex_status e0 = ExecutionStatus.RUNNING).
Local Abbreviation working := (working K a0 c0 e0).
Local Abbreviation settled_turn := (settled_turn K a0 c0 now e0).
Local Abbreviation turned := (turned K a0 c0 now e0).
Local Abbreviation guarded := (guarded K a0 c0).
Local Abbreviation kept_id id := (id ∉ es_id <$> K).

(** A row the rest of the turn may change *)
Lemma spec_with_row key k :
  (∀ s st, working st → s ∈ st_steps st → spec working (k s st) turned) → spec working (with_row key k) turned.
Proof.
  intros Hk. apply spec_read. intros st Hst. destruct (dict_get key (rows_by_key st)) as [s|] eqn:Hs; [|apply spec_go].
  apply Hk; [done|]. eapply by_key_elem; [apply Hst|done].
Qed.
Lemma working_live st s :
  working st → s ∈ st_steps st → is_terminal_step_status (es_status s) = false → kept_id (es_id s).
Proof using HK. intros [Hg _] Hs Ht. by eapply live_row. Qed.
Lemma pending_live s : bool_decide (es_status s = StepStatus.PENDING) = true → is_terminal_step_status (es_status s) = false.
Proof. clear HK. intros H%bool_decide_eq_true. by rewrite H. Qed.

Lemma prune_key_turned dag key : spec working (prune_key now dag key) turned.
Proof using HK.
  apply spec_with_row. intros s st Hst Hs. apply spec_if; intros Hp; [apply spec_go|].
  apply orb_false_iff in Hp as [Hp%negb_false_iff _]. apply spec_lift. intros skip _. apply spec_if; intros _; [|apply spec_go].
  apply spec_bind; [|intros; apply spec_go]. apply keeps_transition; [done|]. by eapply working_live, pending_live.
Qed.

(** Every eligibility asks for a PENDING row first. *)
Lemma eligible_pending (s : execution_step) (r : res bool) :
  (if negb (bool_decide (es_status s = StepStatus.PENDING)) then Ok false else r) = Ok true →
  is_terminal_step_status (es_status s) = false.
Proof. clear HK Hrunning. destruct (bool_decide _) eqn:Hp; [|done]. intros _. by apply pending_live. Qed.

Lemma condition_key_turned dag key : spec working (condition_key p now dag key) turned.
Proof using HK.
  apply spec_with_row. intros s st Hst Hs. apply spec_lift. intros el Hel. apply spec_if; intros Hn; [apply spec_go|].
  apply negb_false_iff in Hn. subst el. apply eligible_pending in Hel. assert (kept_id (es_id s)) as Hid by by eapply working_live.
  apply with_plan_step_turned; [done|]. intros ps. apply with_when_gate_turned; [done..|].
  apply spec_attempting_any; [intros; by apply predicate_stop_turned|by apply predicate_stop_turned|]. intros result _.
  do 3 (apply spec_bind; [by apply keeps_transition|intros _]). apply spec_go.
Qed.

(** ** APPROVAL *)
Lemma approval_drifted_turned id m : kept_id id → spec working (approval_drifted p now id m) turned.
Proof using HK.
  intros Hid. apply spec_bind; [by apply keeps_upd|]. intros _ st [Hg He].
  destruct (stop_rows_steps now st (gd_wf _ _ _ _ Hg)) as (Hk & Hse & Hsa & Hsc & _).
  assert (guarded (stop_rows now st)) as Hg'.
  { pose proof (guarded_stop K a0 c0 HK now st [] Hg) as H. unfold stop_steps in H. cbn zeta in H.
    destruct (emit_step_transitions_rows [] (list_steps (stop_rows now st)) now (stop_rows now st)) as (E1 & E2 & E3 & E4 & _).
    revert H. by apply guarded_rows; rewrite ?E1. }
  split; [revert Hg'; apply guarded_rows; cbn; by rewrite ?Hse|]. left. exists ExecutionStatus.FAILED. split; [by left|].
  split_and!; [done|done| |].
  - cbn [st_execution upd_execution set_st_execution mret tx_ret]. rewrite Hse, He. by repeat eexists.
  - intros s Hs. match type of Hg with OrchestratorSound.guarded _ _ _ ?x => change (s ∈ st_steps (stop_rows now x)) in Hs end.
    rewrite stop_rows_all in Hs by apply Hg. apply list_elem_of_fmap in Hs as (x & -> & _).
    apply stop_row_stopped.
Qed.

Lemma dict_item_get {V} k (d : dict V) v : dict_item k d = Ok v → dict_get k d = Some v.
Proof. clear HK. unfold dict_item. destruct (dict_get k d); naive_solver. Qed.
Lemma approved_key_turned key : spec working (approved_key c p now key) turned.
Proof using HK.
  apply spec_read. intros st Hst. apply spec_lift. intros s Hs%dict_item_get. apply spec_if; intros Hr; [|apply spec_go].
  apply andb_true_iff in Hr as [_ Hr%bool_decide_eq_true]. assert (kept_id (es_id s)) as Hid.
  { eapply by_key_live; [done..|]. by rewrite Hr. }
  apply spec_lift. intros ps _. apply spec_if; intros _; [by apply lineage_stop_turned|].
  destruct (approved_authorable _ _); [|by apply lineage_stop_turned]. apply spec_attempting; [intros; by apply approval_drifted_turned|].
  intros _ _. do 2 (apply spec_bind; [by apply keeps_transition|intros _]). apply spec_go.
Qed.

Lemma waiting_state_rows s r ts st :
  let st' := apply_waiting_state s r ts st in
  st_execution st' = bump_execution (wait_execution (st_execution st)) ∧
  st_steps st' = st_steps (upd_step (es_id s) bump_step (upd_step (es_id s) (set_es_status StepStatus.WAITING_APPROVAL) st)) ∧
  st_attempts st' = st_attempts st ∧ st_calls st' = st_calls st ∧ st_approvals st' = st_approvals st.
Proof.
  clear HK Hrunning. unfold apply_waiting_state. cbn zeta.
  cbn [st_execution st_steps st_attempts st_calls st_approvals upd_execution upd_step set_st_execution set_st_steps].
  unfold emit_approval_requested, emit_approval.
  cbn [st_execution st_steps st_attempts st_calls st_approvals append_event set_st_events].
  match goal with |- context [emit_execution_status_changed ?x ?n ?y] =>
    destruct (emit_execution_rows x n y) as (-> & -> & -> & -> & -> & _) end.
  match goal with |- context [emit_of_step ?n ?x ?y] => destruct (emit_of_step_rows n x y) as (-> & -> & -> & -> & -> & _) end.
  done.
Qed.
Lemma enter_wait_settled ap steps s st st' o :
  working st → kept_id (es_id s) → enter_for_approval_step request_id p steps ap now s st = Ok (st', o) →
  settled_turn (waiting_outcome (es_id s)) st'.
Proof using Hrunning.
  intros [Hg He] Hid H. unfold enter_for_approval_step in H. rewrite He in H.
  assert (execution_waiting e0 = false) as Hw by (unfold execution_waiting; by rewrite Hrunning). rewrite Hw in H.
  cbn [orb] in H. destruct (step_waiting s) eqn:Hsw.
  { unfold reuse_pending in H. rewrite He, Hw, Hsw in H. done. }
  repeat (apply bind_Ok in H as (? & _ & H)). injection H as <- _. match goal with |- context [apply_waiting_state ?a ?b now (add_request _ ?y)] =>
    set (req := b) in *; set (ready := a) in *; set (st1 := y) in * end.
  assert (working st1) as [Hg1 He1].
  { unfold st1. case_bool_decide; [|done]. split; [by apply guarded_emit, guarded_upd|].
    by destruct (emit_of_step_rows now s (upd_step (es_id s) (ready_checkpoint now) st)) as (-> & _). }
  destruct (waiting_state_rows ready req now (add_request req st1)) as (E1 & E2 & E3 & E4 & E5).
  assert (es_id ready = es_id s) as Hready by (unfold ready; by case_bool_decide).
  split.
  - assert (guarded (add_request req st1)) as Hg2 by (revert Hg1; by apply guarded_rows).
    eapply guarded_rows; [|exact E2|exact E3|exact E4|]; [by rewrite E1|].
    rewrite Hready. by do 2 (apply guarded_upd; [done..|]).
  - right. split_and!; [done|done|by rewrite E1; cbn; rewrite He1|]. exists req. rewrite E5. split_and!; [|done|cbn; by rewrite Hready].
    cbn. apply elem_of_app. right. by left.
Qed.
Lemma gate_passed_plain ps : plain (gate_passed ps).
Proof. intros s. unfold gate_passed. by destruct (is_some _). Qed.
Lemma enter_wait_turned ps id : kept_id id → spec working (enter_wait c request_id p now ps id) turned.
Proof using HK Hrunning.
  intros Hid. apply spec_bind; [by apply keeps_upd; [apply gate_passed_plain|]|]. intros _.
  apply spec_attempting; [intros; by apply lineage_stop_turned|]. intros policy _. apply spec_lock_step. intros s Hs.
  apply spec_reading. intros st Hst. unfold mbind, tx_bind, lift at 1.
  destruct (enter_for_approval_step _ _ _ _ _ _ _) as [[st' o]|] eqn:H; [|done]. cbn. rewrite <- Hs in Hid |- *.
  by eapply enter_wait_settled.
Qed.
Lemma pending_approval_key_turned dag key : spec working (pending_approval_key c request_id p now dag key) turned.
Proof using HK Hrunning.
  apply spec_read. intros st Hst. apply spec_lift. intros s Hs%dict_item_get. apply spec_lift. intros el Hel.
  apply spec_if; intros Hn; [apply spec_go|]. apply negb_false_iff in Hn. subst el. apply eligible_pending in Hel.
  assert (kept_id (es_id s)) as Hid by by eapply by_key_live. apply spec_lift. intros ps _.
  apply with_when_gate_turned; [done..|]. by apply enter_wait_turned.
Qed.
Lemma reconcile_approval_steps_turned dag : spec working (reconcile_approval_steps c request_id p now dag) turned.
Proof using HK Hrunning.
  eapply spec_run; [apply scan_turned, approved_key_turned|]. intros [o|changed] st Ht; [done|]. revert st Ht.
  apply (spec_read working (λ st, st)). intros st _. apply spec_if; intros _; [apply spec_go|].
  apply scan_turned, pending_approval_key_turned.
Qed.

(** ** TOOL gates and JOINs *)
Lemma gate_true_plain : plain gate_true.
Proof. intros s. unfold gate_true. by case_bool_decide. Qed.
Lemma tool_when_key_turned dag key : spec working (tool_when_key p now dag key) turned.
Proof using HK.
  apply spec_with_row. intros s st Hst Hs. apply spec_if; intros Hp; [apply spec_go|].
  apply orb_false_iff in Hp as [Hp%negb_false_iff _]. assert (kept_id (es_id s)) as Hid by by eapply working_live, pending_live.
  apply spec_lift. intros el _. apply spec_if; intros _; [apply spec_go|]. apply with_plan_step_turned; [done|]. intros ps.
  apply spec_if; intros _; [apply spec_go|]. apply with_when_gate_turned; [done..|].
  apply spec_bind; [by apply keeps_upd; [apply gate_true_plain|]|intros _; apply spec_go].
Qed.
Lemma fire_join_turned dag ps id : kept_id id → spec working (fire_join p now dag ps id) turned.
Proof using HK.
  intros Hid. apply spec_bind; [by apply keeps_upd; [apply gate_passed_plain|]|]. intros _. apply spec_lock_step. intros s _.
  apply spec_read. intros st _. apply spec_lift. intros r _. do 3 (apply spec_bind; [by apply keeps_transition|intros _]).
  apply spec_lock_step. intros s' _. repeat (apply spec_if; intros _); try apply spec_go. by apply fail_fast_turned.
Qed.
Lemma join_key_turned dag key : spec working (join_key p now dag key) turned.
Proof using HK.
  apply spec_with_row. intros s st Hst Hs. apply spec_lift. intros el Hel. apply spec_if; intros Hn; [apply spec_go|].
  apply negb_false_iff in Hn. subst el. apply eligible_pending in Hel. assert (kept_id (es_id s)) as Hid by by eapply working_live.
  apply with_plan_step_turned; [done|]. intros ps. apply with_when_gate_turned; [done..|]. by apply fire_join_turned.
Qed.

(** ** Passes *)
Lemma and_then_turned m k :
  spec working m turned → (∀ b, spec working (k b) turned) → spec working (t ← m; and_then t k) turned.
Proof. intros Hm Hk. eapply spec_run; [exact Hm|]. intros [o|b] st Ht; [done|by apply Hk]. Qed.
Lemma local_rest_turned dag changed : spec working (local_rest c request_id p now dag changed) turned.
Proof using HK Hrunning.
  apply and_then_turned; [apply scan_turned, condition_key_turned|]. intros b.
  apply and_then_turned; [apply reconcile_approval_steps_turned|]. intros b'.
  apply and_then_turned; [apply scan_turned, tool_when_key_turned|]. intros b''. apply scan_turned, join_key_turned.
Qed.
Lemma refresh_settled dag changed :
  spec working (refresh p now dag changed) (λ r st, match r with inl _ => working st | inr o => settled_turn o st end).
Proof using HK.
  apply spec_if; intros _; [by apply spec_ret|]. apply spec_read. intros st _. apply spec_attempting.
  - intros code m. eapply spec_run; [by apply fail_closed_lineage_settled|]. by intros o st' Ho.
  - intros d _. by apply spec_ret.
Qed.
Lemma local_pass_turned dag : spec working (local_pass c new_id request_id p now dag) (λ r, turned r.2).
Proof using HK Hrunning.
  eapply spec_run; [apply scan_turned, prune_key_turned|]. intros [o|pruned] st Ht; [done|]. revert st Ht.
  eapply spec_run; [by apply reconcile_loop_steps_turned|]. intros [o|looped] st Ht; [done|]. revert st Ht.
  eapply spec_run; [apply refresh_settled|]. intros [dag'|o] st Ht; [|done]. revert st Ht.
  eapply spec_run; [apply local_rest_turned|]. by intros t st Ht.
Qed.
Lemma local_loop_settled fuel dag :
  spec working (local_loop c new_id request_id p now fuel dag)
    (λ r st, match r with Some o => settled_turn o st | None => working st end).
Proof using HK Hrunning.
  revert dag. induction fuel as [|fuel IH]; intros dag; cbn [local_loop]; [by apply spec_ret|].
  eapply spec_run; [apply local_pass_turned|]. intros [dag' [o|[]]] st Ht; [done|by apply IH|done].
Qed.
Lemma local_reconcile_settled dag :
  spec working (local_reconcile c new_id request_id p now dag)
    (λ r st, match r with Some o => settled_turn o st | None => working st end).
Proof using HK Hrunning. apply spec_read. intros st _. apply local_loop_settled. Qed.
End guard.
