(* ===== verification/OrchestratorWaveSound.v ===== *)
(** * What the transactions of a wave guarantee

    [_prepare_wave], [_settle_wave] and [_finalize_natural_end]: settled rows,
    attempts and calls are never touched; an execution that ends holds no
    lease, has nothing left to start, and is SUCCEEDED only when the completion
    policy says so over rows that are all terminal. *)
From S2P Require Import Prelude PyStr PyDict Json PyUuid Domain LoopRuntime Completion DagValidate DagSchedule.
From S2P Require Import PredicateEvaluator Rows Cancellation CancelSound PolicySelection LoopReconcile Claim Preflight.
From S2P Require Import Approval ApprovalResume Transaction ToolRunner Orchestrator OrchestratorLocal OrchestratorWave.
From S2P Require Import OrchestratorSound.

(** Rows that are settled before stay, and so does all evidence of calls. *)
Definition settled_rows (st : store) : list execution_step :=
  filter (λ s, is_terminal_step_status (es_status s) = true) (st_steps st).
Definition keeps_evidence (st st' : store) : Prop := guarded (settled_rows st) (st_attempts st) (st_calls st) st'.
Definition rows_ok (st : store) : Prop := store_wf st ∧ NoDup (es_step_key <$> st_steps st).

Lemma settled_rows_terminal st s : s ∈ settled_rows st → is_terminal_step_status (es_status s) = true.
Proof. by intros [H _]%list_elem_of_filter. Qed.
Lemma keeps_evidence_refl st : rows_ok st → keeps_evidence st st.
Proof. intros [Hwf Hk]. split; [done|done| |done|done]. by intros s [_ H]%list_elem_of_filter. Qed.
Lemma keeps_evidence_trans st1 st2 st3 : keeps_evidence st1 st2 → keeps_evidence st2 st3 → keeps_evidence st1 st3.
Proof.
  intros [H1 H2 H3 H4 H5] [G1 G2 G3 G4 G5]. split; [done|done| |congruence|congruence].
  intros s Hs. apply G3, list_elem_of_filter. split; [by eapply settled_rows_terminal|by apply H3].
Qed.

Lemma list_steps_elem st s : store_wf st → s ∈ st_steps st ↔ s ∈ list_steps st.
Proof. intros Hwf. by rewrite list_steps_wf. Qed.

Section wave.
Context {schema : PlanSchema} {parser : PlanParser}.
Context (K : list execution_step) (a0 : list step_attempt) (c0 : list tool_call).
Context (HK : ∀ s, s ∈ K → is_terminal_step_status (es_status s) = true).
Context (c : catalog) (worker : string) (token : uuid) (new_id : nat → uuid) (request_id : uuid) (now : Z) (e0 : execution).
Context (Hrunning : ex_status e0 = ExecutionStatus.RUNNING).
Local Abbreviation working := (working K a0 c0 e0).
Local Abbreviation settled_turn := (settled_turn K a0 c0 now e0).
Local Abbreviation guarded := (guarded K a0 c0).

Lemma aggregate_status p steps d :
  aggregate_all_required p steps = Ok d →
  cd_status d ∈ [ExecutionStatus.SUCCEEDED; ExecutionStatus.PARTIALLY_SUCCEEDED; ExecutionStatus.FAILED].
Proof.
  clear HK Hrunning.
  unfold aggregate_all_required. intros H. apply bind_Ok in H as (top & _ & H). cbn zeta in H.
  destruct (_ && negb _); [|destruct (_ && (_ || _))]; injection H as <-; cbn [cd_status]; set_solver.
Qed.

(** ** The natural end *)
Definition ended_naturally (p : plan) (o : progress_outcome) (st : store) : Prop :=
  ∃ d, guarded st ∧ ended now e0 (cd_status d) o st ∧ aggregate_all_required p (list_steps st) = Ok d ∧
    Forall (λ s, is_terminal_step_status (es_status s) = true) (st_steps st).

Lemma dag_ended_rows st :
  store_wf st → dag_naturally_ended (list_steps st) = true →
  Forall (λ s, is_terminal_step_status (es_status s) = true) (st_steps st).
Proof.
  clear HK Hrunning. intros Hwf H. apply Forall_forall. intros s Hs. unfold dag_naturally_ended in H.
  rewrite forallb_forall in H. apply list_steps_wf, list_elem_of_In, H in Hs; [|done].
  apply bool_decide_eq_true in Hs. unfold is_terminal_step_status. apply bool_decide_eq_true.
  unfold STEP_TERMINAL in Hs. unfold TERMINAL_STEP. set_solver.
Qed.
Lemma terminal_nothing_starts st :
  Forall (λ s, is_terminal_step_status (es_status s) = true) (st_steps st) → nothing_starts st.
Proof.
  clear HK Hrunning. rewrite Forall_forall. intros H s Hs. specialize (H s Hs). split; [by intros E; rewrite E in H|].
  unfold unused_ready_tool. destruct (bool_decide (es_status s = StepStatus.READY)) eqn:E; [|by rewrite orb_true_r].
  apply bool_decide_eq_true in E. by rewrite E in H.
Qed.
Lemma natural_end_spec p :
  spec working (natural_end p now (mret None))
    (λ r st, match r with Some o => ended_naturally p o st | None => working st end).
Proof.
  apply spec_reading. intros st Hst. destruct (dag_naturally_ended (list_steps st)) eqn:Hn; [|done].
  pose proof Hst as [Hg He]. apply dag_ended_rows in Hn; [|apply Hg].
  unfold mbind, tx_bind, lift. destruct (aggregate_all_required p (list_steps st)) as [d|] eqn:Ha; [|done].
  cbn [ends modify mret tx_ret]. unfold apply_execution_terminal.
  destruct (terminate_rows now (cd_status d) (cd_error_code d) (cd_error_message d) (Some p) st) as ([sm E] & Es & Ea & Ec).
  rewrite He in E. exists d. split_and!.
  - revert Hg. apply guarded_rows; [by rewrite E, He|done..].
  - split_and!; [done|done|by eauto|]. intros s Hs. rewrite Es in Hs. exact (terminal_nothing_starts _ Hn s Hs).
  - unfold list_steps. rewrite Es, E. unfold list_steps in Ha. by rewrite He in Ha.
  - by rewrite Es.
Qed.
(** What a transaction under the lease leaves *)
Definition unfinished (o : progress_outcome) (st : store) : Prop :=
  po_execution_complete o = false ∧ guarded st ∧ (st_execution st = e0 ∨ st_execution st = heartbeat now e0).
Definition finishes (o : progress_outcome) (st : store) : Prop :=
  settled_turn o st ∨ ∃ p, assert_execution_plan_lineage e0 = Ok p ∧ ended_naturally p o st.

Lemma beat_unfinished (o : progress_outcome) st :
  po_execution_complete o = false → working st → unfinished o (upd_execution (heartbeat now) st).
Proof.
  clear HK Hrunning. intros Ho [Hg He]. split; [done|]. split; [revert Hg; by apply guarded_rows|]. right. cbn. by rewrite He.
Qed.
Lemma spec_live_step {A} id (k : execution_step → tx A) Q :
  (∀ s, es_id s = id → (is_terminal_step_status (es_status s) = false → id ∉ es_id <$> K) → spec working (k s) Q) →
  spec working (lock_step id ≫= k) Q.
Proof using HK.
  intros Hk st Hst. unfold lock_step, mbind, tx_bind, reading, lift.
  destruct (get_step id st) as [s|] eqn:Hs; [|done]. cbn. apply find_key_Some in Hs as [Hin Hid]. apply Hk; [done| |done].
  intros Ht. rewrite <- Hid. eapply live_row; [done|apply Hst|done..].
Qed.
Lemma promote_tools_keeps ids available : preserves working (promote_tools now ids available).
Proof using HK.
  revert available. induction ids as [|id ids IH]; intros available; cbn [promote_tools]; [by apply spec_ret|].
  apply spec_if; intros _; [by apply spec_ret|]. apply spec_live_step. intros s Hid Hlive.
  apply spec_if; intros Hp; [apply IH|]. apply negb_false_iff in Hp. apply spec_bind.
  - apply keeps_transition; [done|]. by apply Hlive, pending_live.
  - intros _. apply spec_bind; [apply IH|]. intros rest. by apply spec_ret.
Qed.
(** After the slots are given *)
Definition beaten (st : store) : Prop := guarded st ∧ st_execution st = heartbeat now e0.
Lemma reserve_beaten dag st : working st → returning (λ _, beaten) (reserve_tool_wave now dag st).
Proof using HK.
  intros Hst. unfold reserve_tool_wave. apply (returning_bind _ _ (λ _, working)); [done|]. intros st0 st1 Hst1.
  apply returning_lift. intros rows _. cbn zeta. apply returning_lift. intros eligible _.
  eapply returning_run; [apply promote_tools_keeps|done|]. intros promoted st2 [Hg He].
  apply (returning_bind _ _ (λ _, beaten)). { split; [revert Hg; by apply guarded_rows|]. cbn. by rewrite He. }
  intros _ st3 Hst3. apply (returning_bind _ _ (λ _, beaten)); [done|]. intros st4 st5 Hst5. apply returning_lift. done.
Qed.
Lemma with_graph_returning {A} (closed : progress_outcome → A) k Q st :
  working st → (∀ o st', settled_turn o st' → Q (closed o) st') →
  (∀ p dag, assert_execution_plan_lineage e0 = Ok p → returning Q (k p dag st)) →
  returning Q (with_graph now closed k st).
Proof using HK.
  intros Hst Hc Hk. unfold with_graph. apply (returning_bind _ _ (λ s st', s = st ∧ st' = st)); [done|].
  intros ? ? [-> ->]. rewrite (proj2 Hst). destruct (assert_execution_plan_lineage e0) as [p|e] eqn:Hp; cbn [mbind res_bind].
  - destruct (validate_tool_join_dag p (list_steps st)) as [dag|[code m ?|?]]; cbn [attempting]; [by apply Hk| |done].
    eapply returning_run; [by apply fail_closed_lineage_settled|done|done].
  - destruct e as [code m ?|?]; cbn [attempting]; [|done].
    eapply returning_run; [by apply fail_closed_lineage_settled|done|done].
Qed.
Definition left_so (o : progress_outcome) (st : store) : Prop := finishes o st ∨ unfinished o st.
Lemma beaten_left o st : po_execution_complete o = false → beaten st → left_so o st.
Proof. clear HK Hrunning. intros Ho [Hg He]. right. split_and!; [done|done|by right]. Qed.
Lemma beat_returning o st : po_execution_complete o = false → working st → returning left_so ((modify (upd_execution (heartbeat now));; mret o) st).
Proof. clear HK Hrunning. intros Ho Hst. right. by apply beat_unfinished. Qed.
Lemma working_left (o : progress_outcome) st : po_execution_complete o = false → working st → left_so o st.
Proof. clear HK Hrunning. intros Ho [Hg He]. right. split_and!; [done|done|by left]. Qed.

Lemma prepare_leased_left st : working st → returning left_so (prepare_under_lease c new_id request_id now st).
Proof using HK Hrunning.
  intros Hst. unfold prepare_under_lease. apply (returning_bind _ _ (λ s st', s = st ∧ st' = st)); [done|].
  intros ? ? [-> ->]. cbn zeta. destruct (existsb _ _).
  { destruct (filter _ _) as [|s [|]]; [by apply working_left| |by apply working_left].
    destruct (is_single_tool_execution _); [by apply beat_returning|by apply working_left]. }
  apply with_graph_returning; [done|by left; left|]. intros p dag Hp. destruct (negb (is_nil _)).
  - unfold resume_tools. apply (returning_bind _ _ (λ s st', st' = st)); [done|]. intros ? ? ->.
    apply returning_lift. intros rows _. by apply beat_returning.
  - unfold reconcile_and_reserve. eapply returning_run; [by apply local_reconcile_settled|done|].
    intros [o|] st1 Hst1; [by left; left|]. apply (returning_bind _ _ (λ s st', s = st1 ∧ st' = st1)); [done|].
    intros ? ? [-> ->]. destruct (validate_tool_join_dag p (list_steps st1)) as [dag'|[code m ?|?]]; cbn [attempting].
    + eapply returning_bind; [by apply reserve_beaten|]. intros w st2 Hst2. by apply beaten_left.
    + cut (returning settled_turn (fail_closed_lineage code m now st1)).
      { unfold returning. destruct (fail_closed_lineage _ _ _ _) as [[?|?] ?]; [by left; left|done]. }
      eapply spec_returning; [by apply fail_closed_lineage_settled|done].
    + done.
Qed.
End wave.

Lemma rows_ok_working st : rows_ok st → working (settled_rows st) (st_attempts st) (st_calls st) (st_execution st) st.
Proof. intros H. split; [by apply keeps_evidence_refl|done]. Qed.
Lemma holds_lease_running worker token now e : holds_lease worker token now e = true → ex_status e = ExecutionStatus.RUNNING.
Proof. unfold holds_lease. by intros [[[H%bool_decide_eq_true _]%andb_true_iff _]%andb_true_iff _]%andb_true_iff. Qed.

Section claims.
Context {schema : PlanSchema} {parser : PlanParser}.
Context (c : catalog) (worker : string) (token : uuid) (new_id : nat → uuid) (request_id : uuid) (now : Z).

(** What a transaction under the lease leaves of a store *)
Definition carried_on (st : store) (o : progress_outcome) (st' : store) : Prop :=
  left_so (settled_rows st) (st_attempts st) (st_calls st) now (st_execution st) o st'.

Definition prepared_so (st : store) (o : progress_outcome) (st' : store) : Prop :=
  st' = st ∨ (holds_lease worker token now (st_execution st) = true ∧ carried_on st o st').
Lemma prepare_wave_returning st :
  rows_ok st → ex_status (st_execution st) ≠ ExecutionStatus.CANCEL_REQUESTED →
  returning (prepared_so st) (prepare_wave c worker token new_id request_id now st).
Proof.
  intros Hok Hc. unfold prepare_wave.
  apply (returning_bind _ _ (λ s st', s = st ∧ st' = st)); [done|]. intros ? ? [-> ->]. cbn zeta.
  destruct (bool_decide _); [by left|]. rewrite bool_decide_false by done. destruct (wait_target st); [by left|].
  unfold has_running_lease. destruct (holds_lease _ _ _ _) eqn:Hl; [|by left]. cbn [negb].
  cut (returning (carried_on st) (prepare_under_lease c new_id request_id now st)).
  { unfold returning. destruct (prepare_under_lease _ _ _ _ _) as [[?|?] ?]; [by right|done]. }
  apply prepare_leased_left; [apply settled_rows_terminal|by eapply holds_lease_running|by apply rows_ok_working].
Qed.
Lemma carried_evidence st o st' : carried_on st o st' → keeps_evidence st st'.
Proof. intros [[[Hg _]|(p & _ & d & Hg & _)]|(_ & Hg & _)]; exact Hg. Qed.

(** C4: Preparing a wave of an execution that is not being cancelled changes
    nothing unless the worker holds the lease in force; then no settled row, no
    attempt and no call changes, and the execution either keeps its lease, or
    waits for one approval request without a lease, or ends without a lease and
    with nothing left to start: FAILED or TIMED_OUT. *)
Theorem prepare_wave_safe st st' o :
  rows_ok st → ex_status (st_execution st) ≠ ExecutionStatus.CANCEL_REQUESTED →
  commit (prepare_wave c worker token new_id request_id now) st = Ok (st', o) →
  st' = st ∨ (holds_lease worker token now (st_execution st) = true ∧ carried_on st o st').
Proof. intros Hok Hc. apply (returning_commit _ (prepared_so st)). by apply prepare_wave_returning. Qed.

(** ** Settling a wave *)
Lemma fatal_first causes d :
  d ∈ causes → sc_kind d = "FATAL" →
  (∀ x, x ∈ causes → sc_kind x ∈ ["FATAL"; "FAIL_EXECUTION_TIMED_OUT"; "FAIL_EXECUTION_FAILED"]) →
  ∃ x, pick_stop_cause causes = Some x ∧ sc_kind x = "FATAL".
Proof.
  intros Hd Hk Hall. pose proof (pick_stop_cause_least causes) as H. destruct (pick_stop_cause causes) as [x|].
  - exists x. split; [done|]. destruct H as [Hx Hle]. specialize (Hle d Hd). apply stop_cause_leb_spec in Hle.
    cbn zeta in Hle. rewrite Hk in Hle. specialize (Hall x Hx).
    assert (stop_cause_precedence "FATAL" = 0 ∧ stop_cause_precedence "FAIL_EXECUTION_TIMED_OUT" = 1 ∧
            stop_cause_precedence "FAIL_EXECUTION_FAILED" = 2)%Z as (P0 & P1 & P2) by done. rewrite !elem_of_cons in Hall.
    destruct Hall as [->|[E|[E|[]%elem_of_nil]]]; [done|rewrite E in Hle; lia..].
  - subst causes. by apply elem_of_nil in Hd.
Qed.
Lemma cause_of_kind p order s out x :
  cause_of p order s out = Ok (Some x) → sc_kind x ∈ ["FATAL"; "FAIL_EXECUTION_TIMED_OUT"; "FAIL_EXECUTION_FAILED"].
Proof.
  unfold cause_of. cbn zeta. destruct (_ || _); [intros [= <-]; set_solver|]. destruct (negb _); [done|].
  intros H. apply bind_Ok in H as (oe & _ & H). destruct (_ || _); [|done]. injection H as <-. cbn.
  destruct (String.eqb _ _); set_solver.
Qed.
Definition fatal_outcome (out : tool_run_outcome) : Prop :=
  effective_disposition out = Disposition.FATAL_EXECUTION_FAILURE ∨ tr_terminal_status out = Some "UNKNOWN_OUTCOME".
Lemma cause_of_fatal p order s out : fatal_outcome out → ∃ x, cause_of p order s out = Ok (Some x) ∧ sc_kind x = "FATAL".
Proof.
  intros H. unfold cause_of. cbn zeta.
  assert (bool_decide (effective_disposition out = Disposition.FATAL_EXECUTION_FAILURE)
          || bool_decide (tr_terminal_status out = Some "UNKNOWN_OUTCOME") = true) as ->; [|by eexists].
  apply orb_true_iff. by destruct H as [H|H]; [left|right]; apply bool_decide_eq_true.
Qed.
Lemma wave_causes_fatal p order st wave causes id out :
  store_wf st → wave_causes p order st wave = Ok causes → (id, out) ∈ wave → id ∈ es_id <$> st_steps st → fatal_outcome out →
  ∃ x, pick_stop_cause causes = Some x ∧ sc_kind x = "FATAL".
Proof.
  intros Hwf H Hw Hid Hf. unfold wave_causes in H. apply bind_Ok in H as (l & Hl & [= <-]).
  apply list_elem_of_fmap in Hid as (s & -> & Hs).
  assert (∃ s', find_first (λ s', bool_decide (es_id s' = es_id s)) (list_steps st) = Some s') as [s' Hs'].
  { destruct (find_first _ _) as [s'|] eqn:E; [by eauto|]. rewrite find_first_None in E.
    apply list_steps_wf in Hs; [|done]. specialize (E s Hs). cbn in E. by rewrite bool_decide_true in E. }
  apply res_map_Ok in Hl. destruct (cause_of_fatal p order s' out Hf) as (x & Hx & Hkx).
  assert (Some x ∈ l) as Hxl.
  { apply list_elem_of_lookup in Hw as [i Hi]. destruct (Forall2_lookup_l _ _ _ _ _ Hl Hi) as (y & Hy & Hyw).
    unfold wave_cause in Hyw. cbn [fst snd] in Hyw. rewrite Hs', Hx in Hyw. injection Hyw as <-. by eapply list_elem_of_lookup_2. }
  apply (fatal_first _ x); [apply list_elem_of_omap; by exists (Some x)|done|].
  intros z (y & Hy & Ez)%list_elem_of_omap. cbn in Ez. subst y. apply list_elem_of_lookup in Hy as [i Hi].
  destruct (Forall2_lookup_r _ _ _ _ _ Hl Hi) as (w & _ & Hw2). unfold wave_cause in Hw2.
  revert Hw2. clear. case_match; [|done]. apply cause_of_kind.
Qed.

(** The rows of a stop: the ones of the store are all stopped. *)
Definition stopped_as (status : execution_status) (st : store) (o : progress_outcome) (st' : store) : Prop :=
  keeps_evidence st st' ∧ ended now (st_execution st) status o st'.

Lemma settled_stopped st status o st' : ex_status (st_execution st') = status → status ≠ ExecutionStatus.WAITING_APPROVAL →
  settled_turn (settled_rows st) (st_attempts st) (st_calls st) now (st_execution st) o st' → stopped_as status st o st'.
Proof.
  intros <- Hn [Hg [(status' & _ & Ho & Hs & (code & m & sm & He) & Hnothing)|(_ & _ & He & _)]].
  - split; [done|]. rewrite He. cbn [ex_status end_execution]. split_and!; [done|done| |done]. by repeat eexists.
  - by rewrite He in Hn.
Qed.
Lemma fail_closed_stopped code m st st0 : rows_ok st →
  fail_closed_lineage code m now st = st0 → ∃ o st', st0 = (Ok o, st') ∧ stopped_as ExecutionStatus.FAILED st o st'.
Proof.
  intros Hok <-. do 2 eexists. split; [done|].
  assert (settled_turn (settled_rows st) (st_attempts st) (st_calls st) now (st_execution st) (completed EXECUTION_FAILED ExecutionStatus.FAILED None)
    (fail_closed_lineage code m now st).2) as Hs.
  { pose proof (fail_closed_lineage_settled (settled_rows st) (st_attempts st) (st_calls st) (settled_rows_terminal st) now (st_execution st)
      code m st (rows_ok_working st Hok)) as H. exact H. }
  apply settled_stopped; [|done|exact Hs]. cbn.
  match goal with |- context [terminate ?a ?b ?d ?e ?f ?g] => by destruct (terminate_rows f a b d e g) as ([? ->] & _) end.
Qed.
Lemma stop_wave_stopped p cause st : rows_ok st →
  ∃ o st', stop_wave p cause now st = (Ok o, st') ∧ stopped_as (stop_status cause) st o st'.
Proof.
  intros Hok. do 2 eexists. split; [done|]. apply settled_stopped.
  - match goal with |- context [terminate ?a ?b ?d ?e ?f ?g] => by destruct (terminate_rows f a b d e g) as ([? ->] & _) end.
  - unfold stop_status. by repeat case_match.
  - apply stop_settled; [apply settled_rows_terminal|by apply rows_ok_working| |done|done].
    unfold stop_status. repeat case_match; set_solver.
Qed.

Lemma settle_continuable_left st p dag :
  rows_ok st → ex_status (st_execution st) = ExecutionStatus.RUNNING → assert_execution_plan_lineage (st_execution st) = Ok p →
  returning (carried_on st) (settle_continuable c new_id request_id now p dag st).
Proof.
  intros Hok Hr Hp. unfold settle_continuable. pose proof (rows_ok_working st Hok) as Hst.
  eapply returning_run; [apply local_reconcile_settled; [apply settled_rows_terminal|done]|exact Hst|].
  intros [o|] st1 Hst1; [by left; left|]. eapply returning_run; [apply natural_end_spec|exact Hst1|].
  intros [o|] st2 Hst2; [|by right; apply beat_unfinished]. left. right. by exists p.
Qed.


Definition settled_so (wave : list (uuid * tool_run_outcome)) (order : list string) (st : store) (o : progress_outcome)
    (st' : store) : Prop :=
  st' = st ∨ (∃ status, status ∈ [ExecutionStatus.FAILED; ExecutionStatus.TIMED_OUT] ∧ stopped_as status st o st') ∨
  (holds_lease worker token now (st_execution st) = true ∧ carried_on st o st' ∧
   ∃ p, assert_execution_plan_lineage (st_execution st) = Ok p ∧ wave_causes p order st wave = Ok []).
(** A cancellation is settled elsewhere. *)
Lemma settle_wave_returning wave order st Q :
  rows_ok st → (∀ o st', settled_so wave order st o st' → Q o st') →
  (cancellation_is_requested (st_execution st) = true → returning Q (settle_cancelled worker token now st)) →
  returning Q (settle_wave c worker token new_id request_id now wave order st).
Proof.
  intros Hok HQ Hcancel. unfold settle_wave.
  apply (returning_bind _ _ (λ s st', s = st ∧ st' = st)); [done|]. intros ? ? [-> ->].
  assert (∀ code m, returning Q (fail_closed_lineage code m now st)) as Hclosed.
  { intros code m. destruct (fail_closed_stopped code m st _ Hok eq_refl) as (o1 & st1 & -> & ?).
    apply HQ. right. left. exists ExecutionStatus.FAILED. split; [by left|done]. }
  destruct (p ← _; _) as [[p dag]|[code m ?|?]] eqn:Hpd; cbn [attempting]; [|apply Hclosed|done].
  apply bind_Ok in Hpd as (p' & Hp & Hpd). apply bind_Ok in Hpd as (dag' & Hdag & [= <- <-]). cbn [fst snd].
  apply returning_lift. intros causes Hcs. pose proof (pick_stop_cause_least causes) as Hpick.
  destruct (pick_stop_cause causes) as [x|].
  { destruct (stop_wave_stopped p' x st Hok) as (o1 & st1 & -> & Hs). apply HQ. right. left. eexists. split; [|exact Hs].
    unfold stop_status. repeat case_match; set_solver. }
  subst causes. destruct (cancellation_is_requested _); [by apply Hcancel|].
  unfold has_running_lease. destruct (holds_lease _ _ _ _) eqn:Hl; [|apply HQ; by left]. cbn [negb].
  pose proof (settle_continuable_left st p' dag' Hok (holds_lease_running _ _ _ _ Hl) Hp) as H. revert H. unfold returning.
  destruct (settle_continuable _ _ _ _ _ _ _) as [[?|?] ?]; [|done]. intros H. apply HQ. right. right. split_and!; [done|done|by exists p'].
Qed.


(** ** The natural end of an idle execution *)
Definition finalized_so (st : store) (r : option progress_outcome) (st' : store) : Prop :=
  match r with
  | None => st' = st ∨ holds_lease worker token now (st_execution st) = true ∧ keeps_evidence st st' ∧ st_execution st' = st_execution st
  | Some o => st' = st ∨ holds_lease worker token now (st_execution st) = true ∧ carried_on st o st'
  end.
Lemma finalize_returning st :
  rows_ok st → returning (finalized_so st) (finalize_natural_end c worker token new_id request_id now st).
Proof.
  intros Hok. unfold finalize_natural_end. apply (returning_bind _ _ (λ s st', s = st ∧ st' = st)); [done|].
  intros ? ? [-> ->]. cbn zeta. destruct (bool_decide _); [by left|]. unfold has_running_lease.
  destruct (holds_lease _ _ _ _) eqn:Hl; [|by left]. cbn [negb orb]. destruct (is_nil _); [by left|].
  pose proof (holds_lease_running _ _ _ _ Hl) as Hr. pose proof (rows_ok_working st Hok) as Hst.
  eapply with_graph_returning; [apply settled_rows_terminal|exact Hst| |].
  { intros o st' Ho. right. split; [done|]. by left; left. }
  intros p dag Hp. eapply returning_run; [apply local_reconcile_settled; [apply settled_rows_terminal|exact Hr]|exact Hst|].
  intros [o|] st1 Hst1; [right; split; [done|by left; left]|].
  pose proof (spec_returning _ _ _ _ (natural_end_spec _ _ _ now (st_execution st) p) Hst1) as H. revert H. unfold returning.
  destruct (natural_end p now (mret None) st1) as [[[o|]|?] ?]; [| |done]; intros H; right.
  - split; [done|]. left. right. by exists p.
  - split_and!; [done|apply H..].
Qed.
End claims.
