(* ===== verification/OrchestratorRunSound.v ===== *)
(** Waves of tools are bounded, and a run keeps what is settled. *)
From S2P Require Import Prelude PyStr PyDict Json PyUuid Domain LoopRuntime Completion DagValidate DagSchedule.
From S2P Require Import PredicateEvaluator Rows Cancellation CancelSound PolicySelection Claim Preflight Approval.
From S2P Require Import ApprovalResume Transaction ToolRunner Orchestrator OrchestratorLocal OrchestratorWave.
From S2P Require Import OrchestratorSound OrchestratorWaveSound.

(** * The slots of a wave

    [_reserve_tool_wave_locked]: the tools that may start, in plan order, as
    many as the plan's parallelism leaves slots. *)

(** ** Rows by key *)
Lemma rows_by_key_get st k s :
  rows_ok st → dict_get k (rows_by_key st) = Some s ↔ s ∈ st_steps st ∧ es_step_key s = k.
Proof.
  intros [Hwf Hnd]. split.
  - intros [Hs <-]%elem_of_dict_values_comp. split; [by apply list_steps_wf|done].
  - intros [Hs <-]. apply (dict_comp_get_NoDup es_step_key id).
    + by rewrite list_steps_perm.
    + by apply list_steps_wf.
Qed.

(** The rows in the order of the keys *)
Lemma ordered_rows_elem dag st rows :
  rows_ok st → ordered_rows dag st = Ok rows ↔ Forall2 (λ k s, s ∈ st_steps st ∧ es_step_key s = k) (ordered_step_keys dag) rows.
Proof.
  intros Hok. unfold ordered_rows. rewrite res_map_Ok. split; intros Hr; eapply Forall2_impl; [exact Hr| |exact Hr|]; intros k s; cbn beta.
  - intros H%dict_item_get. by apply rows_by_key_get.
  - intros H. unfold dict_item. by rewrite (proj2 (rows_by_key_get st k s Hok) H).
Qed.

Definition promoted_row (now : Z) (ids : list uuid) (s : execution_step) : execution_step :=
  if decide (es_id s ∈ ids) then bump_step (set_ready now s) else s.
Definition promote (now : Z) (ids : list uuid) (l : list execution_step) : list execution_step :=
  upd_where (λ s, es_id s ∈ ids) (λ s, bump_step (set_ready now s)) l.

Lemma transition_rows now id f st : (∀ s, es_id (f s) = es_id s) →
  let st' := transition now id f st in
  st_execution st' = st_execution st ∧ st_attempts st' = st_attempts st ∧ st_calls st' = st_calls st ∧
  st_steps st' = upd_where (λ s, es_id s = id) f (st_steps st).
Proof.
  intros Hf. cbn zeta. unfold transition. destruct (get_step id st) as [s|] eqn:Hs.
  - by destruct (emit_of_step_rows now s (upd_step id f st)) as (-> & -> & -> & -> & _).
  - split_and!; [done..|]. symmetry. apply upd_where_none. intros x Hx Hid. unfold get_step in Hs.
    rewrite find_first_None in Hs. specialize (Hs x Hx). cbn in Hs. by rewrite bool_decide_true in Hs.
Qed.

Lemma promote_tools_rows now ids : ∀ available st,
  NoDup ids → NoDup (es_id <$> st_steps st) →
  (∀ id, id ∈ ids → ∃ s, s ∈ st_steps st ∧ es_id s = id ∧ es_status s = StepStatus.PENDING) →
  ∃ st', promote_tools now ids available st = (Ok (take (Z.to_nat available) ids), st') ∧
    st_execution st' = st_execution st ∧ st_attempts st' = st_attempts st ∧ st_calls st' = st_calls st ∧
    st_steps st' = promote now (take (Z.to_nat available) ids) (st_steps st).
Proof.
  induction ids as [|id ids IH]; intros available st Hnd Hk Hids; cbn [promote_tools].
  { exists st. rewrite take_nil. split_and!; [done..|]. symmetry. apply upd_where_none. intros x _. apply not_elem_of_nil. }
  destruct (available <=? 0)%Z eqn:Ha.
  { apply Z.leb_le in Ha. exists st. replace (Z.to_nat available) with 0%nat by lia. split_and!; [done..|].
    symmetry. apply upd_where_none. intros x _. apply not_elem_of_nil. }
  apply Z.leb_gt in Ha. apply NoDup_cons in Hnd as [Hfresh Hnd].
  destruct (Hids id) as (s & Hs & <- & Hp); [by left|].
  unfold lock_step, mbind, tx_bind, reading, lift. unfold get_step. rewrite (find_key es_id) by done. cbn [of_option]. rewrite bool_decide_true by done.
  cbn [negb]. unfold modify.
  destruct (transition_rows now (es_id s) (λ s, bump_step (set_ready now s)) st) as (E1 & E2 & E3 & E4); [done|].
  set (st1 := transition now (es_id s) _ st) in *.
  destruct (IH (available - 1)%Z st1 Hnd) as (st' & Hrun & F1 & F2 & F3 & F4).
  { rewrite E4. by rewrite upd_where_proj. }
  { intros id' Hid'. destruct (Hids id') as (s' & Hs' & Hi & Hp'); [by right|]. exists s'. split; [|done].
    rewrite E4. apply elem_of_upd_where. exists s'. split; [done|]. rewrite decide_False; [done|]. congruence. }
  exists st'. rewrite Hrun. replace (Z.to_nat available) with (S (Z.to_nat (available - 1))) by lia. cbn [take].
  split_and!; [done|congruence..|]. rewrite F4, E4. unfold promote.
  apply (upd_where_upd_where es_id); [done|]. right. intros Hin. apply Hfresh. by eapply elem_of_take in Hin as (i & Hi & _); eapply list_elem_of_lookup_2.
Qed.

(** ** Eligible tools *)
Section eligible.
Context {schema : PlanSchema}.
Definition is_eligible (dag : tool_join_dag) (st : store) (s : execution_step) : bool :=
  match tool_structurally_eligible s dag (rows_by_key st) with Ok b => b | Err _ => false end.
Lemma eligible_tools_filter dag st rows ids :
  eligible_tools dag rows st = Ok ids → ids = es_id <$> filter (λ s, is_eligible dag st s = true) rows.
Proof.
  intros H. unfold eligible_tools in H. apply bind_Ok in H as (flags & Hf & [= <-]). apply res_map_Ok in Hf.
  induction Hf as [|s [id b] rows flags Hs _ IH]; [done|]. unfold eligible_flag in Hs.
  apply bind_Ok in Hs as (b' & Hb & [= <- <-]). assert (is_eligible dag st s = b') as He by (unfold is_eligible; by rewrite Hb).
  rewrite !filter_cons. cbn [snd].
  destruct b'; [rewrite !decide_True by done|rewrite !decide_False by (done || by rewrite He)]; cbn [fmap list_fmap fst]; by rewrite IH.
Qed.
Lemma eligible_row dag st s :
  is_eligible dag st s = true →
  tool_structurally_eligible s dag (rows_by_key st) = Ok true ∧ es_status s = StepStatus.PENDING ∧ es_step_type s = StepType.TOOL.
Proof.
  unfold is_eligible. destruct (tool_structurally_eligible _ _ _) as [b|] eqn:H; [|done]. intros ->. split; [done|].
  unfold tool_structurally_eligible in H. destruct (bool_decide (es_status s = _)) eqn:H1; [|done].
  destruct (bool_decide (es_step_type s = _)) eqn:H2; [|done]. by apply bool_decide_eq_true in H1, H2.
Qed.
End eligible.

(** ** Slots *)
Definition takes_slot (s : execution_step) : Prop :=
  es_step_type s = StepType.TOOL ∧ es_status s ∈ [StepStatus.READY; StepStatus.RUNNING].
#[export] Instance takes_slot_dec s : Decision (takes_slot s) := ltac:(unfold takes_slot; apply _).

Lemma promote_slots now ids l :
  NoDup ids → NoDup (es_id <$> l) →
  (∀ id, id ∈ ids → ∃ s, s ∈ l ∧ es_id s = id ∧ es_status s = StepStatus.PENDING ∧ es_step_type s = StepType.TOOL) →
  length (filter takes_slot (promote now ids l)) = (length (filter takes_slot l) + length ids)%nat.
Proof.
  intros Hids Hl Hin.
  assert (length ids = length (filter (λ s, es_id s ∈ ids) l)) as ->.
  { rewrite <- (length_fmap es_id (filter _ l)). apply Permutation_length, NoDup_Permutation; [done| |].
    - eapply sublist_NoDup; [exact Hl|]. apply fmap_sublist, sublist_filter.
    - intros id. rewrite list_elem_of_fmap. setoid_rewrite list_elem_of_filter. split; [|by intros (s & -> & ? & _)].
      intros Hid. destruct (Hin id Hid) as (s & Hs & <- & _). by exists s. }
  assert (∀ s, s ∈ l → es_id s ∈ ids → es_status s = StepStatus.PENDING ∧ es_step_type s = StepType.TOOL) as Hp.
  { intros s Hs Hid. destruct (Hin _ Hid) as (s' & Hs' & He & ?). by rewrite (key_inj es_id l s s'). }
  clear Hin Hids Hl. unfold promote, upd_where. induction l as [|s l IH]; [done|].
  cbn [fmap list_fmap]. rewrite !filter_cons. specialize (IH (λ s Hs, Hp s (list_elem_of_further _ _ _ Hs))).
  specialize (Hp s (list_elem_of_here _ _)). destruct (decide (es_id s ∈ ids)) as [Hid|Hid].
  - destruct (Hp Hid) as [H1 H2]. rewrite (decide_True (P := takes_slot _)) by (split; [done|by left]).
    rewrite decide_False by (intros [_ H]; rewrite H1 in H; set_solver). cbn. rewrite IH. lia.
  - destruct (decide (takes_slot s)); cbn; rewrite IH; lia.
Qed.
Lemma count_slots st : store_wf st → count_tool_slots (list_steps st) = Z.of_nat (length (filter takes_slot (st_steps st))).
Proof. intros Hwf. unfold count_tool_slots. f_equal. apply Permutation_length. by rewrite list_steps_perm. Qed.

(** ** [_reserve_tool_wave_locked] *)
Section reserve.
Context {schema : PlanSchema} {parser : PlanParser}.

Definition free_slots (dag : tool_join_dag) (st : store) : Z :=
  Z.max 0 (dag_max_parallelism dag - count_tool_slots (list_steps st)).

Lemma promote_keys now ids l : es_step_key <$> promote now ids l = es_step_key <$> l.
Proof. by apply upd_where_proj. Qed.
Lemma promote_ids now ids l : (λ s, (es_id s, es_execution_id s)) <$> promote now ids l = (λ s, (es_id s, es_execution_id s)) <$> l.
Proof. by apply upd_where_proj. Qed.
Lemma promoted_rows_ok now ids st st' :
  rows_ok st → st_steps st' = promote now ids (st_steps st) → ex_id (st_execution st') = ex_id (st_execution st) →
  st_attempts st' = st_attempts st → st_calls st' = st_calls st → rows_ok st'.
Proof.
  intros [Hwf Hk] Hs He Ha Hc. split; [|by rewrite Hs, promote_keys]. eapply same_keys_wf; [|exact Hwf].
  split_and!; [done|by rewrite Hs, promote_ids|by rewrite Ha|by rewrite Hc].
Qed.
Lemma promoted_ordered now ids dag st st' rows :
  rows_ok st → rows_ok st' → st_steps st' = promote now ids (st_steps st) → ordered_rows dag st = Ok rows →
  ordered_rows dag st' = Ok (promote now ids rows).
Proof.
  intros Hok Hok' Hs Hr. apply ordered_rows_elem; [done|]. apply ordered_rows_elem in Hr; [|done].
  apply Forall2_fmap_r. eapply Forall2_impl; [exact Hr|]. intros k s [Hin <-]. cbn beta. split.
  - rewrite Hs. apply elem_of_upd_where. by exists s.
  - by case_decide.
Qed.

Lemma filter_mapped {A B} (f : A → A) (g : A → B) (P Q : A → Prop) `{HP : !∀ x, Decision (P x), HQ : !∀ x, Decision (Q x)} (l : list A) :
  (∀ x, g (f x) = g x) → (∀ x, x ∈ l → P (f x) ↔ Q x) → g <$> filter P (f <$> l) = g <$> filter Q l.
Proof.
  intros Hg. induction l as [|x l IH]; intros Hl; [done|]. cbn [fmap list_fmap]. rewrite !filter_cons.
  specialize (IH (λ y Hy, Hl y (list_elem_of_further _ _ _ Hy))). specialize (Hl x (list_elem_of_here _ _)).
  destruct (decide (Q x)); [rewrite decide_True by tauto|rewrite decide_False by tauto]; cbn [fmap list_fmap]; [|done].
  rewrite Hg. by f_equal.
Qed.
Lemma ordered_rows_ids dag st rows :
  rows_ok st → NoDup (ordered_step_keys dag) → ordered_rows dag st = Ok rows →
  NoDup (es_id <$> rows) ∧ ∀ s, s ∈ rows → s ∈ st_steps st.
Proof.
  intros Hok Hnd Hr. apply ordered_rows_elem in Hr; [|done].
  assert (∀ s, s ∈ rows → s ∈ st_steps st) as Hin.
  { intros s [i Hi]%list_elem_of_lookup. by destruct (Forall2_lookup_r _ _ _ _ _ Hr Hi) as (k & _ & ? & _). }
  split; [|done]. assert (es_step_key <$> rows = ordered_step_keys dag) as Hkeys.
  { clear Hnd Hin. induction Hr as [|k s ks rs [_ <-] _ IH]; [done|]. cbn. by rewrite IH. }
  apply NoDup_fmap_2_strong; [|rewrite <- Hkeys in Hnd; by apply NoDup_fmap_1 in Hnd].
  intros x y Hx Hy He. apply (key_inj es_id (st_steps st)); [apply Hok|by apply Hin..|done].
Qed.

End reserve.

(** * What a run of the orchestrator guarantees

    Over any number of waves, and whatever the tools and others do between its
    transactions as long as they keep settled rows, a run keeps them too. *)

Definition rows_kept (st st' : store) : Prop := rows_ok st' ∧ ∀ s, s ∈ settled_rows st → s ∈ st_steps st'.

Lemma rows_kept_refl st : rows_ok st → rows_kept st st.
Proof. intros Hok. split; [done|]. by intros s [_ Hs]%list_elem_of_filter. Qed.
Lemma rows_kept_trans st1 st2 st3 : rows_kept st1 st2 → rows_kept st2 st3 → rows_kept st1 st3.
Proof.
  intros [_ H] [Hok G]. split; [done|]. intros s Hs. apply G, list_elem_of_filter.
  split; [by eapply settled_rows_terminal|by apply H].
Qed.
Lemma evidence_kept st st' : keeps_evidence st st' → rows_kept st st'.
Proof. intros [H1 H2 H3 _ _]. split; [by split|done]. Qed.

(** ** A cancellation keeps what is settled *)
Lemma settle_settled now P st s : is_terminal_step_status (es_status s) = true → CancelSound.settle now P st s = s.
Proof. intros Ht. unfold settle. destruct (CancelSound.keeps P st s); [done|]. unfold cancel_step. by rewrite Ht. Qed.
Lemma reconcile_kept now st st' o : rows_ok st → reconcile_cancel_requested_locked now st = Ok (st', o) → rows_kept st st'.
Proof.
  intros [Hwf Hk] H. pose proof H as H'. unfold reconcile_cancel_requested_locked in H'. cbn zeta in H'.
  case_bool_decide as H1; [injection H' as <- _; by apply rows_kept_refl|].
  case_bool_decide as H2; [injection H' as <- _; by apply rows_kept_refl|].
  apply bind_Ok in H' as (? & Hr & H'). apply raise_if_Ok in Hr.
  apply negb_false_iff, bool_decide_eq_true in Hr. destruct (list_started_tool_calls st) eqn:Hns; [|injection H' as <- _; by apply rows_kept_refl].
  clear H'. destruct (reconcile_ends now st Hwf Hr Hns) as (st1 & o1 & E & _ & (Hkeys & _) & _ & _ & Hsteps & _).
  rewrite H in E. injection E as -> ->. split.
  - split; [by eapply same_keys_wf|]. rewrite Hsteps, <- list_fmap_compose. erewrite list_fmap_ext; [exact Hk|].
    intros _ s _. unfold compose, settle, cancel_step. destruct (CancelSound.keeps _ _ _); [done|]. by case_match.
  - intros s [Ht Hs]%list_elem_of_filter. rewrite Hsteps. apply list_elem_of_fmap. exists s. split; [|done]. symmetry. by apply settle_settled.
Qed.

Section run.
Context {schema : PlanSchema} {parser : PlanParser}.
Context (c : catalog) (worker : string) (token : uuid).
Local Abbreviation kept st := (λ _, rows_kept st).

Lemma reconcile_returning now st : rows_ok st → returning (kept st) (run_store (reconcile_cancel_requested_locked now) st).
Proof.
  intros Hok. unfold run_store. apply (returning_bind _ _ (λ s st', s = st ∧ st' = st)); [done|]. intros ? ? [-> ->].
  apply returning_lift. intros [st1 o] H. cbn. by eapply reconcile_kept.
Qed.
Lemma prepare_wave_kept new_id request_id now st :
  rows_ok st → returning (kept st) (prepare_wave c worker token new_id request_id now st).
Proof.
  intros Hok. destruct (decide (ex_status (st_execution st) = ExecutionStatus.CANCEL_REQUESTED)) as [Hc|Hc].
  - unfold prepare_wave. apply (returning_bind _ _ (λ s st', s = st ∧ st' = st)); [done|]. intros ? ? [-> ->]. cbn zeta.
    rewrite Hc. rewrite bool_decide_false by (unfold TERMINAL_EXECUTION_STATUSES; set_solver). rewrite bool_decide_true by done.
    unfold prepare_cancelling. apply (returning_bind _ _ (λ s st', s = st ∧ st' = st)); [done|]. intros ? ? [-> ->].
    destruct (negb _); [by apply rows_kept_refl|]. eapply returning_bind; [by apply reconcile_returning|]. by intros o st1 H.
  - pose proof (prepare_wave_returning c worker token new_id request_id now st Hok Hc) as H. revert H. unfold returning.
    destruct (prepare_wave _ _ _ _ _ _ _) as [[o|] st1]; [|done].
    intros [->|[_ H]]; [by apply rows_kept_refl|]. by eapply evidence_kept, carried_evidence.
Qed.
Lemma settle_cancelled_kept now st : rows_ok st → returning (kept st) (settle_cancelled worker token now st).
Proof.
  intros Hok. unfold settle_cancelled. apply (returning_bind _ _ (λ _ st', st' = st)); [done|]. intros e ? ->.
  repeat (case_match; try by apply rows_kept_refl). eapply returning_bind; [by apply reconcile_returning|]. by intros o st1 Hst1.
Qed.
Lemma settle_wave_kept new_id request_id now wave order st :
  rows_ok st → returning (kept st) (settle_wave c worker token new_id request_id now wave order st).
Proof.
  intros Hok. apply settle_wave_returning; [done| |intros _; by apply settle_cancelled_kept].
  intros o st' [->|[(status & _ & H & _)|(_ & H & _)]]; [by apply rows_kept_refl|by apply evidence_kept|].
  by eapply evidence_kept, carried_evidence.
Qed.
Lemma finalize_kept new_id request_id now st :
  rows_ok st → returning (kept st) (finalize_natural_end c worker token new_id request_id now st).
Proof.
  intros Hok. pose proof (finalize_returning c worker token new_id request_id now st Hok) as H. revert H. unfold returning.
  destruct (finalize_natural_end _ _ _ _ _ _ _) as [[[o|]|] st1]; [| |done].
  - intros [->|[_ H]]; [by apply rows_kept_refl|]. by eapply evidence_kept, carried_evidence.
  - intros [->|(_ & H & _)]; [by apply rows_kept_refl|]. by eapply evidence_kept.
Qed.
Lemma pre_wave_kept code m now st : rows_ok st → returning (kept st) (fail_closed_pre_wave_policy worker token code m now st).
Proof.
  intros Hok. unfold fail_closed_pre_wave_policy. apply (returning_bind _ _ (λ _ st', st' = st)); [done|]. intros e ? ->.
  destruct (negb _); [by apply rows_kept_refl|].
  destruct (fail_closed_stopped now code m st _ Hok eq_refl) as (o1 & st1 & -> & H & _). by apply evidence_kept.
Qed.

(** What the tools of a wave may do *)
Definition tools_keep (wi : wave_inputs) : Prop :=
  ∀ flags ids st, rows_ok st → rows_kept st (wi_tools wi flags ids st).1.

Lemma commit_kept {A} (m : tx A) st st1 st' a :
  rows_kept st1 st → returning (kept st) (m st) → commit m st = Ok (st', a) → rows_kept st1 st'.
Proof. intros H1 H2 H3. eapply rows_kept_trans; [exact H1|]. by eapply (returning_commit m (kept st)). Qed.

Lemma run_tools_kept wi last order single allow ids st st' r :
  tools_keep wi → rows_ok st → run_tools c worker token wi last order single allow ids st = Ok (st', r) → rows_kept st st'.
Proof.
  intros Hwi Hok H. unfold run_tools in H. specialize (Hwi (WaveFlags (negb single) (negb single) (negb allow)) ids st Hok).
  destruct (wi_tools _ _ _ _) as [st1 out]. cbn [fst] in Hwi. destruct (wave_end_of _ _).
  - by injection H as <- _.
  - by injection H as <- _.
  - apply bind_Ok in H as ([st2 settled_turn] & Hs & H).
    assert (rows_kept st st2) as Hk by (eapply commit_kept; [exact Hwi|apply settle_wave_kept, Hwi|exact Hs]).
    cbn zeta in H. by destruct (po_execution_complete settled_turn); injection H as <- _.
Qed.
Lemma run_turn_kept wi last st st' r :
  tools_keep wi → rows_ok st → run_turn c worker token wi last st = Ok (st', r) → rows_kept st st'.
Proof.
  intros Hwi Hok H. unfold run_turn in H. apply bind_Ok in H as ([st1 prepared] & Hp & H).
  assert (rows_kept st st1) as H1.
  { eapply commit_kept; [by apply rows_kept_refl|by apply prepare_wave_kept|exact Hp]. }
  cbn zeta in H. destruct (returned_early _ _ _); [by injection H as <- _|]. destruct (po_ready_step_ids prepared) as [|id ids] eqn:Hids.
  - unfold run_idle in H. apply bind_Ok in H as ([st2 fin] & Hf & H). injection H as <- _.
    eapply commit_kept; [exact H1|apply finalize_kept, H1|exact Hf].
  - destruct (String.eqb _ _).
    + pose proof (Hwi no_flags [id] st1 (proj1 H1)) as H2. destruct (wi_tools _ _ _ _) as [st2 out]. injection H as <- _.
      by eapply rows_kept_trans.
    + unfold run_wave in H. eapply rows_kept_trans; [exact H1|]. destruct H1 as [Hok1 _].
      destruct (po_single_tool _); [by eapply run_tools_kept|].
      destruct (select_approval_suspension_wave _ _) as [[?|]|[code m ?|?]]; [by eapply run_tools_kept..| |done].
      apply bind_Ok in H as ([st2 fin] & Hf & H). injection H as <- _.
      eapply commit_kept; [by apply rows_kept_refl|by apply pre_wave_kept|exact Hf].
Qed.

(** C7: Over any number of waves a run of the orchestrator keeps the rows of the
    execution well formed and never touches a step that is settled, as long as
    the tools and everything others commit while a wave runs do not: no local
    step, gate, loop, cancellation or end reopens or rewrites it. *)
Theorem run_keeps_settled inputs last st st' r :
  rows_ok st → Forall tools_keep inputs → run c worker token inputs last st = Ok (st', r) →
  rows_ok st' ∧ ∀ s, s ∈ st_steps st → is_terminal_step_status (es_status s) = true → s ∈ st_steps st'.
Proof.
  intros Hok Hin H. cut (rows_kept st st').
  { intros [H1 H2]. split; [done|]. intros s Hs Ht. by apply H2, list_elem_of_filter. }
  revert last st Hok H. induction Hin as [|wi inputs Hwi _ IH]; intros last st Hok H; cbn [run] in H.
  - injection H as <- _. by apply rows_kept_refl.
  - apply bind_Ok in H as ([st1 r1] & Ht & H). apply run_turn_kept in Ht; [|done..]. cbn [fst snd] in H.
    destruct r1 as [o|last1]; [by injection H as <- _|]. eapply rows_kept_trans; [exact Ht|]. eapply IH; [apply Ht|exact H].
Qed.
End run.
