(* ===== verification/StaticValidator.v ===== *)
(** * The static complex-plan validator (agent/complex_plan_validator.py)

    [static_validate] returns the list of issues that [validate] collects, in
    its order; the plan is accepted iff the list is empty.  The graph walks are
    recursive or loop on a queue: each has a fuel, and [static_validate_total]
    (in StaticSound.v) shows that it is enough.  [schema_version] is the literal
    ["1.0"] of every parsed plan, so its check adds nothing; an issue's
    [details] are always empty. *)
From S2P Require Import Prelude PyStr PyDict Json PyUuid Domain.

Record issue := Issue {
  iss_code : string;
  iss_message : string;
  iss_step_id : option string }.

(** [_issue] *)
Definition plan_issue (code message : string) (step_id : option string) : issue := Issue code message step_id.

Definition when_ {A} (b : bool) (x : A) : list A := if b then [x] else [].

(** ** Dependency graph *)
(** [adj] of [_has_dependency_cycle] and [_reachable_from_roots]: the steps that
    depend on each step *)
Definition add_dependents (ids : list string) (adj : dict (list string)) (step : plan_step) : dict (list string) :=
  foldl (λ adj dep, if bool_decide (dep ∈ ids) then dict_push dep (ps_id step) adj else adj)
        adj (ps_depends_on step).
Definition dependents_map (steps : list plan_step) : dict (list string) :=
  foldl (add_dependents (ps_id <$> steps)) [] steps.

Definition adj_get (adj : dict (list string)) (node : string) : list string :=
  default [] (dict_get node adj).

(** The sets of [_has_dependency_cycle] *)
Record dfs := Dfs { visited : gset string; on_stack : gset string }.

(** [for nxt in adj.get(node, ()): if visit(nxt): return True] *)
Fixpoint visit_all (visit : dfs → string → res (dfs * bool)) (st : dfs) (nodes : list string) : res (dfs * bool) :=
  match nodes with
  | [] => Ok (st, false)
  | nxt :: nodes =>
      r ← visit st nxt;
      if r.2 : bool then Ok (r.1, true) else visit_all visit r.1 nodes
  end.

Fixpoint visit (fuel : nat) (adj : dict (list string)) (st : dfs) (node : string) : res (dfs * bool) :=
  if bool_decide (node ∈ on_stack st) then Ok (st, true)
  else if bool_decide (node ∈ visited st) then Ok (st, false)
  else match fuel with
       | O => Err (PyException "RecursionError")
       | S fuel =>
           r ← visit_all (visit fuel adj)
                 (Dfs ({[ node ]} ∪ visited st) ({[ node ]} ∪ on_stack st)) (adj_get adj node);
           if r.2 : bool then Ok (r.1, true)
           else Ok (Dfs (visited r.1) (on_stack r.1 ∖ {[ node ]}), false)
       end.

(** [_has_dependency_cycle]; the set [ids] is walked in plan order. *)
Definition has_dependency_cycle (steps : list plan_step) : res bool :=
  r ← visit_all (visit (S (length steps)) (dependents_map steps)) (Dfs ∅ ∅) (ps_id <$> steps);
  Ok r.2.

(** [while queue] of [_reachable_from_roots] *)
Fixpoint reach_loop (fuel : nat) (adj : dict (list string)) (queue : list string) (seen : gset string)
    : res (gset string) :=
  match queue with
  | [] => Ok seen
  | node :: queue =>
      match fuel with
      | O => Err (PyException "OutOfFuel")
      | S fuel =>
          if bool_decide (node ∈ seen) then reach_loop fuel adj queue seen
          else
            let seen := {[ node ]} ∪ seen in
            reach_loop fuel adj (queue ++ filter (λ nxt, nxt ∉ seen) (adj_get adj node)) seen
      end
  end.

Definition edge_count (adj : dict (list string)) : nat := sum_list (length <$> dict_values adj).

(** [_reachable_from_roots] *)
Definition reachable_from_roots (steps : list plan_step) : res (gset string) :=
  let adj := dependents_map steps in
  let roots := ps_id <$> filter (λ s, ps_depends_on s = []) steps in
  match roots with
  | [] => Ok ∅
  | _ => reach_loop (length roots + edge_count adj) adj roots ∅
  end.

(** ** Ancestors of [_transitive_ancestors]; a step on the stack adds nothing *)
Abbreviation ancestor_map := (dict (gset string)).

Definition add_upstream (walk : ancestor_map → string → res (ancestor_map * gset string))
    (st : ancestor_map * gset string) (dep : string) : res (ancestor_map * gset string) :=
  w ← walk st.1 dep;
  Ok (w.1, ({[ dep ]} ∪ st.2) ∪ w.2).

Fixpoint upstream_of (fuel : nat) (direct : dict (list string)) (stack : gset string)
    (cache : ancestor_map) (sid : string) : res (ancestor_map * gset string) :=
  match dict_get sid cache with
  | Some s => Ok (cache, s)
  | None =>
      if bool_decide (sid ∈ stack) then Ok (cache, ∅)
      else match fuel with
           | O => Err (PyException "RecursionError")
           | S fuel =>
               r ← res_fold (add_upstream (upstream_of fuel direct ({[ sid ]} ∪ stack)))
                     (adj_get direct sid) (cache, ∅);
               Ok (dict_set sid r.2 r.1, r.2)
           end
  end.

Definition direct_deps (steps : list plan_step) : dict (list string) :=
  let ids := ps_id <$> steps in
  dict_comp ps_id (λ s, filter (λ d, d ∈ ids) (ps_depends_on s)) steps.

(** The returned dict maps each step id to its set; the cache is passed on. *)
Definition upstream_map (steps : list plan_step) : res ancestor_map :=
  r ← res_fold (λ st sid,
        w ← upstream_of (S (length steps)) (direct_deps steps) ∅ st.1 sid;
        Ok (w.1, dict_set sid w.2 st.2)) (ps_id <$> steps) ([], []);
  Ok r.2.

(** ** Limits *)
Definition SYSTEM_HARD_MAX_STEPS : Z := 100.
Definition SYSTEM_HARD_MAX_DURATION_SECONDS : Z := 3600.
Definition SYSTEM_HARD_MAX_PARALLELISM : Z := 32.
Definition SYSTEM_HARD_MAX_LOOP_ITERATIONS : Z := 500.
Definition MAX_LOOP_NESTING_DEPTH : Z := 3.

(** [_validate_limit_hard_bounds] *)
Definition validate_limit_hard_bounds (p : plan) : list issue :=
  let check value hard_max :=
    when_ (hard_max <? value)%Z
      (plan_issue "PLAN_LIMIT_EXCEEDED" "limits.{name}={value} exceeds system hard max {hard_max}" None) in
  check (max_steps (pl_limits p)) SYSTEM_HARD_MAX_STEPS
  ++ check (max_duration_seconds (pl_limits p)) SYSTEM_HARD_MAX_DURATION_SECONDS
  ++ check (max_parallelism (pl_limits p)) SYSTEM_HARD_MAX_PARALLELISM
  ++ check (max_loop_iterations (pl_limits p)) SYSTEM_HARD_MAX_LOOP_ITERATIONS.

(** ** Identity and dependencies *)
Definition schema_invalid (message : string) (step_id : option string) : issue :=
  plan_issue "PLAN_SCHEMA_INVALID" message step_id.

(** [for sid in step_ids: if sid in seen: ...; seen.add(sid)] *)
Fixpoint duplicate_ids (seen : list string) (step_ids : list string) : list issue :=
  match step_ids with
  | [] => []
  | sid :: step_ids =>
      when_ (bool_decide (sid ∈ seen)) (plan_issue "PLAN_STEP_DUPLICATE" "duplicate step id={sid!r}" (Some sid))
      ++ duplicate_ids (sid :: seen) step_ids
  end.

(** The loop over [step.depends_on] *)
Fixpoint dependency_issues (ids : list string) (step_id : string) (seen_deps : list string)
    (depends_on : list string) : list issue :=
  match depends_on with
  | [] => []
  | dep :: depends_on =>
      when_ (negb (bool_decide (dep ∈ ids)))
        (plan_issue "PLAN_DEPENDENCY_MISSING" "depends_on={dep!r} does not exist" (Some step_id))
      ++ when_ (String.eqb dep step_id)
        (plan_issue "PLAN_DEPENDENCY_MISSING" "self dependency is not allowed" (Some step_id))
      ++ when_ (bool_decide (dep ∈ seen_deps))
        (plan_issue "PLAN_DEPENDENCY_MISSING" "duplicate dependency {dep!r}" (Some step_id))
      ++ dependency_issues ids step_id (dep :: seen_deps) depends_on
  end.

(** The checks before the LOOP pass *)
Definition identity_issues (p : plan) : list issue :=
  let steps := pl_steps p in
  let step_ids := ps_id <$> steps in
  when_ (match steps with [] => true | _ => false end) (schema_invalid "steps must be non-empty" None)
  ++ ((λ s, schema_invalid "blank step id is not allowed" (Some (ps_id s)))
        <$> filter (λ s, blank (ps_id s) = true) steps)
  ++ (if negb (no_dup step_ids) then duplicate_ids [] step_ids else [])
  ++ flat_map (λ s, dependency_issues step_ids (ps_id s) [] (ps_depends_on s)) steps.

(** ** LOOP bodies *)
Record loop_pass := LoopPass {
  lp_owner : dict string;
  lp_configs : dict loop_config;
  lp_errors : list issue }.

(** The body of [for body_id in cfg.body_step_ids] *)
Definition own_body (ids : list string) (loop_id : string) (st : loop_pass) (body_id : string) : loop_pass :=
  let fail message step_id :=
    LoopPass (lp_owner st) (lp_configs st) (lp_errors st ++ [schema_invalid message (Some step_id)]) in
  if negb (bool_decide (body_id ∈ ids)) then fail "LOOP body_step_id={body_id!r} does not exist" loop_id
  else if String.eqb body_id loop_id then fail "LOOP cannot include itself in body_step_ids" loop_id
  else if dict_has body_id (lp_owner st) then fail "step {body_id!r} belongs to multiple LOOP bodies" body_id
  else LoopPass (dict_set body_id loop_id (lp_owner st)) (lp_configs st) (lp_errors st).

(** [_validate_loop_nesting] *)
Fixpoint depth_of (fuel : nat) (owner : dict string) (loop_id : string) (stack : gset string) : res Z :=
  if bool_decide (loop_id ∈ stack) then Ok (MAX_LOOP_NESTING_DEPTH + 1)%Z
  else match dict_get loop_id owner with
       | None => Ok 1%Z
       | Some up =>
           match fuel with
           | O => Err (PyException "RecursionError")
           | S fuel => d ← depth_of fuel owner up ({[ loop_id ]} ∪ stack); Ok (1 + d)%Z
           end
       end.

Definition validate_loop_nesting (fuel : nat) (configs : dict loop_config) (owner : dict string)
    : res (list issue) :=
  depths ← res_map (λ loop_id, d ← depth_of fuel owner loop_id ∅; Ok (loop_id, d)) (dict_keys configs);
  Ok (flat_map (λ ld, when_ (MAX_LOOP_NESTING_DEPTH <? ld.2)%Z
        (plan_issue "PLAN_LIMIT_EXCEEDED" "LOOP nesting depth {depth} exceeds max {MAX_LOOP_NESTING_DEPTH}"
           (Some ld.1))) depths).

(** Completion [response_step_ids] *)
Definition response_issues (ids body_templates response_ids : list string) : list issue :=
  if match response_ids with [] => true | _ => false end
  then [schema_invalid "response_step_ids must be non-empty" None]
  else if negb (no_dup response_ids) then [schema_invalid "response_step_ids contains duplicates" None]
  else flat_map (λ rid,
         if negb (bool_decide (rid ∈ ids))
         then [schema_invalid "response_step_id={rid!r} does not exist" None]
         else when_ (bool_decide (rid ∈ body_templates))
                (schema_invalid "response_step_id={rid!r} must not name a LOOP body template" None))
       response_ids.

(** Top-level steps do not depend on body templates *)
Definition top_level_dep_issues (body_templates : list string) (step : plan_step) : list issue :=
  if bool_decide (ps_id step ∈ body_templates) then []
  else flat_map (λ dep, when_ (bool_decide (dep ∈ body_templates))
         (schema_invalid "top-level step depends_on={dep!r} must not reference a LOOP body template; depend on the owning LOOP instead"
            (Some (ps_id step)))) (ps_depends_on step).

(** A body step depends on its LOOP and on the other body steps only *)
Definition body_scope_issues (steps : list plan_step) (loop_id : string) (cfg : loop_config) : list issue :=
  flat_map (λ body_id,
    match find_first (λ s, String.eqb (ps_id s) body_id) steps with
    | None => []
    | Some body_step =>
        flat_map (λ dep, when_ (negb (String.eqb dep loop_id) && negb (bool_decide (dep ∈ lc_body_step_ids cfg)))
          (schema_invalid "LOOP body step depends_on={dep!r} must reference the LOOP or another body step"
             (Some body_id))) (ps_depends_on body_step)
    end) (lc_body_step_ids cfg).

Definition join_issues (step : plan_step) : list issue :=
  when_ (bool_decide (ps_type step = StepType.JOIN) && match ps_depends_on step with [] => true | _ => false end)
    (schema_invalid "JOIN requires one or more depends_on upstream steps" (Some (ps_id step))).

(** ** Bindings *)
Definition is_loop_context (b : plan_binding) : bool :=
  match b with PlanLoopContextBinding _ => true | _ => false end.

(** [_validate_bindings], on one binding *)
Definition binding_issues (ids : list string) (ancestors : ancestor_map) (owner : dict string)
    (owner_step_id code : string) (b : plan_binding) : list issue :=
  match b with
  | PlanStepOutputBinding step_id _ =>
      let fail message := [plan_issue code message (Some owner_step_id)] in
      let upstream k := default ∅ (dict_get k ancestors) in
      if String.eqb step_id owner_step_id then fail "STEP_OUTPUT must not reference the owning step"
      else if negb (bool_decide (step_id ∈ ids)) then fail "STEP_OUTPUT step_id={binding.step_id!r} does not exist"
      else match dict_get owner_step_id owner with
           | None =>
               if dict_has step_id owner
               then fail "STEP_OUTPUT step_id={binding.step_id!r} must not reference a LOOP body template from a non-body Step"
               else if negb (bool_decide (step_id ∈ upstream owner_step_id))
               then fail "STEP_OUTPUT step_id={binding.step_id!r} is not in the transitive dependency ancestry of {owner_step_id!r}"
               else []
           | Some owner_loop =>
               match dict_get step_id owner with
               | Some source_loop =>
                   if negb (String.eqb source_loop owner_loop)
                   then fail "STEP_OUTPUT step_id={binding.step_id!r} belongs to a different LOOP body"
                   else if negb (bool_decide (step_id ∈ upstream owner_step_id))
                   then fail "STEP_OUTPUT step_id={binding.step_id!r} is not a same-iteration body dependency ancestor of {owner_step_id!r}"
                   else []
               | None =>
                   if negb (String.eqb step_id owner_loop) && negb (bool_decide (step_id ∈ upstream owner_loop))
                   then fail "STEP_OUTPUT step_id={binding.step_id!r} is not a transitive top-level ancestor of owning LOOP {owner_loop!r}"
                   else []
               end
           end
  | _ => []
  end.

Section static_validator.
Context `{PS : PlanSchema}.

(** [str(exc)] of the [ValidationError] of a step's config, pydantic's text *)
Context (config_error : plan_step → string).

(** The first pass over the LOOP steps *)
Definition loop_step_pass (ids : list string) (st : loop_pass) (step : plan_step) : loop_pass :=
  if negb (bool_decide (ps_type step = StepType.LOOP)) then st
  else match validate_loop_config (ps_config step) with
       | None => st
       | Some cfg =>
           foldl (own_body ids (ps_id step))
             (LoopPass (lp_owner st) (dict_set (ps_id step) cfg (lp_configs st)) (lp_errors st))
             (lc_body_step_ids cfg)
       end.

Section bindings.
Context (ids : list string) (ancestors : ancestor_map) (owner : dict string).

Definition validate_bindings (bindings : list plan_binding) (owner_step_id code : string) : list issue :=
  flat_map (binding_issues ids ancestors owner owner_step_id code) bindings.

(** [_validate_when] *)
Definition validate_when (step : plan_step) : list issue :=
  match ps_when step with
  | None => []
  | Some w =>
      match validate_predicate w with
      | None => [plan_issue "PLAN_CONDITION_INVALID" "invalid when Predicate AST: {exc}" (Some (ps_id step))]
      | Some pred =>
          let when_bindings := iter_plan_bindings_in_predicate pred in
          when_ (bool_decide (ps_type step = StepType.LOOP) && existsb is_loop_context when_bindings)
            (plan_issue "PLAN_BINDING_INVALID" "LOOP Step.when must not contain LOOP_CONTEXT" (Some (ps_id step)))
          ++ validate_bindings when_bindings (ps_id step) "PLAN_BINDING_INVALID"
      end
  end.

(** The LOOP branch of [_validate_step_config] *)
Definition loop_config_issues (p : plan) (step : plan_step) (cfg : loop_config) : list issue :=
  let invalid message := plan_issue "PLAN_BINDING_INVALID" message (Some (ps_id step)) in
  let predicate_bindings :=
    match lc_predicate cfg with Some pred => iter_plan_bindings_in_predicate pred | None => [] end in
  when_ (max_loop_iterations (pl_limits p) <? lc_max_iterations cfg)%Z
    (plan_issue "PLAN_LIMIT_EXCEEDED"
       "LOOP max_iterations={cfg.max_iterations} exceeds limits.max_loop_iterations={plan.limits.max_loop_iterations}"
       (Some (ps_id step)))
  ++ match lc_collection cfg with
     | Some (PlanLoopContextBinding _) => [invalid "FOR_EACH collection must not use LOOP_CONTEXT"]
     | _ => []
     end
  ++ when_ (negb (bool_decide (lc_mode cfg = LoopMode.WHILE)) && existsb is_loop_context predicate_bindings)
       (invalid "LOOP_CONTEXT in non-WHILE LOOP predicate is invalid")
  ++ validate_bindings
       (match lc_collection cfg with
        | None | Some (PlanLoopContextBinding _) => []
        | Some b => [b]
        end ++ predicate_bindings) (ps_id step) "PLAN_BINDING_INVALID".

(** The [except] branch *)
Definition config_issue (step : plan_step) : issue :=
  plan_issue
    (if bool_decide (ps_type step ∈ [StepType.CONDITION; StepType.LOOP])
        && str_in "predicate" (lower (config_error step))
     then "PLAN_CONDITION_INVALID" else "PLAN_SCHEMA_INVALID")
    "invalid {step.type.value} config: {exc}" (Some (ps_id step)).

(** [_validate_step_config] *)
Definition validate_step_config (p : plan) (step : plan_step) : list issue :=
  match ps_type step with
  | StepType.TOOL =>
      match validate_tool_config (ps_config step) with
      | Some cfg => validate_bindings (dict_values (tc_bindings cfg)) (ps_id step) "PLAN_BINDING_INVALID"
      | None => [config_issue step]
      end
  | StepType.JOIN => match validate_join_config (ps_config step) with Some _ => [] | None => [config_issue step] end
  | StepType.APPROVAL =>
      match validate_approval_config (ps_config step) with Some _ => [] | None => [config_issue step] end
  | StepType.CONDITION =>
      match validate_condition_config (ps_config step) with
      | Some cfg => validate_bindings (iter_plan_bindings_in_predicate (cc_predicate cfg)) (ps_id step)
                      "PLAN_BINDING_INVALID"
      | None => [config_issue step]
      end
  | StepType.LOOP =>
      match validate_loop_config (ps_config step) with
      | Some cfg => loop_config_issues p step cfg
      | None => [config_issue step]
      end
  end.
End bindings.

(** [StaticComplexPlanValidator.validate]: the issues, none iff accepted *)
Definition static_validate (p : plan) : res (list issue) :=
  let steps := pl_steps p in
  let ids := ps_id <$> steps in
  cycle ← has_dependency_cycle steps;
  reachable ← match steps with [] => Ok ∅ | _ => reachable_from_roots steps end;
  ancestors ← upstream_map steps;
  let pass := foldl (loop_step_pass ids) (LoopPass [] [] []) steps in
  let owner := lp_owner pass in
  let body_templates := dict_keys owner in
  nesting ← validate_loop_nesting (S (length steps)) (lp_configs pass) owner;
  Ok (identity_issues p
      ++ when_ cycle (plan_issue "PLAN_CYCLE_DETECTED" "plan dependency cycle detected" None)
      ++ ((λ sid, schema_invalid "step {sid!r} is not reachable from root steps" (Some sid))
            <$> sort_by str_leb (remove_dups (filter (λ sid, sid ∉ reachable) ids)))
      ++ validate_limit_hard_bounds p
      ++ when_ (max_steps (pl_limits p) <? Z.of_nat (length steps))%Z
           (plan_issue "PLAN_LIMIT_EXCEEDED" "step count {len(plan.steps)} exceeds max_steps={plan.limits.max_steps}" None)
      ++ lp_errors pass
      ++ response_issues ids body_templates (pc_response_step_ids (pl_completion p))
      ++ flat_map (top_level_dep_issues body_templates) steps
      ++ flat_map (λ step, validate_when ids ancestors owner step
                           ++ validate_step_config ids ancestors owner p step) steps
      ++ flat_map (λ lc, body_scope_issues steps lc.1 lc.2) (lp_configs pass)
      ++ nesting
      ++ flat_map join_issues steps).
End static_validator.
