(* ===== verification/StaticSound.v ===== *)
(** * What the static validator guarantees

    Every walk of the validator ends; an accepted plan has unique ids, existing
    dependencies, a topological order, flat ownership of LOOP bodies and
    scoped dependencies; and its STEP_OUTPUT bindings name upstream steps. *)
From S2P Require Import Prelude PyStr PyDict Json PyUuid Domain LoopRuntime Kahn BindingResolver StaticValidator.

(** ** The depth-first search *)
Section dfs.
Context (adj : dict (list string)) (ids : gset string).
Context (Hadj : ∀ k n, n ∈ adj_get adj k → n ∈ ids).

(** [out] lists the finished nodes in the order they were finished: every
    successor of a node before the node. *)
Definition finished (st : dfs) (out : list string) : Prop :=
  NoDup out ∧ on_stack st ⊆ visited st ∧ visited st ⊆ ids ∧
  (∀ x, x ∈ out ↔ x ∈ visited st ∧ x ∉ on_stack st) ∧
  ∀ a k b, out = a ++ k :: b → ∀ n, n ∈ adj_get adj k → n ∈ a.

Definition unvisited (st : dfs) : nat := size (ids ∖ visited st).

(** A call that finds no cycle leaves the stack as it was and has finished
    its node. *)
Definition visit_ok (call : res (dfs * bool)) (st : dfs) (nodes : list string) : Prop :=
  ∃ st' b, call = Ok (st', b) ∧
    (b = false → on_stack st' = on_stack st ∧ visited st ⊆ visited st' ∧ (∃ out, finished st' out) ∧
       ∀ n, n ∈ nodes → n ∈ visited st' ∧ n ∉ on_stack st').

Lemma visit_all_ok f fuel nodes st out :
  (∀ st out node, finished st out → node ∈ ids → (unvisited st < fuel)%nat → visit_ok (f st node) st [node]) →
  (∀ n, n ∈ nodes → n ∈ ids) → finished st out → (unvisited st < fuel)%nat →
  visit_ok (visit_all f st nodes) st nodes.
Proof using Type.
  clear Hadj. intros Hf. revert st out. induction nodes as [|n nodes IH]; intros st out Hin Hfin Hfuel; simpl.
  { exists st, false. split; [done|]. intros _. split; [done|]. split; [done|]. split; [by exists out|].
    by intros n ?%elem_of_nil. }
  destruct (Hf st out n) as (st1 & b & Hrun & Hok); [done|apply Hin; left|done|].
  rewrite Hrun. cbn [mbind res_bind fst snd]. destruct b; [by exists st1, true|].
  destruct (Hok eq_refl) as (Hs & Hv & (out1 & Hfin1) & Hn).
  destruct (IH st1 out1) as (st2 & b & Hrun2 & Hok2); [intros m Hm; apply Hin; by right|done| |].
  { unfold unvisited in *. apply Nat.le_lt_trans with (size (ids ∖ visited st)); [|done].
    apply subseteq_size. set_solver. }
  exists st2, b. split; [done|]. intros Hb. destruct (Hok2 Hb) as (Hs2 & Hv2 & Hfin2 & Hn2).
  split; [congruence|]. split; [set_solver|]. split; [done|].
  intros m [->|Hm]%elem_of_cons; [|by apply Hn2].
  destruct (Hn n) as [H1 H2]; [left|]. rewrite Hs2. set_solver.
Qed.

Lemma visit_spec fuel st out node :
  finished st out → node ∈ ids → (unvisited st < fuel)%nat → visit_ok (visit fuel adj st node) st [node].
Proof using Hadj.
  revert st out node. induction fuel as [|fuel IH]; intros st out node Hfin Hnode Hfuel; [lia|].
  cbn [visit]. case_bool_decide as Hst; [by exists st, true|]. case_bool_decide as Hv.
  { exists st, false. split; [done|]. intros _. do 2 (split; [done|]). split; [by exists out|].
    intros n ->%list_elem_of_singleton. done. }
  destruct Hfin as (Hnd & Hsub & Hids & Hout & Hord).
  set (st1 := Dfs ({[ node ]} ∪ visited st) ({[ node ]} ∪ on_stack st)).
  destruct (visit_all_ok (visit fuel adj) fuel (adj_get adj node) st1 out) as (st2 & b & Hrun & Hok);
    [by intros ????; eapply IH|apply Hadj| | |].
  { split; [done|]. simpl. split; [set_solver|]. split; [set_solver|]. split; [|done].
    intros x. rewrite Hout. set_solver. }
  { unfold unvisited in *. simpl. apply Nat.lt_le_trans with (size (ids ∖ visited st)); [|lia].
    apply subset_size. set_solver. }
  rewrite Hrun. cbn [mbind res_bind fst snd]. destruct b; [by exists st2, true|].
  destruct (Hok eq_refl) as (Hs & Hvs & (out2 & Hnd2 & Hsub2 & Hids2 & Hout2 & Hord2) & Hall). simpl in Hs, Hvs.
  eexists _, false. split; [done|]. intros _. simpl. rewrite Hs.
  assert (({[node]} ∪ on_stack st) ∖ {[node]} = on_stack st) as Heq by set_solver.
  rewrite Heq. split; [done|]. split; [set_solver|]. split.
  - exists (out2 ++ [node]). assert (node ∉ out2) as Hnew by (rewrite Hout2, Hs; set_solver).
    split; [apply NoDup_app; split; [done|]; split; [|apply NoDup_singleton]; set_solver|].
    simpl. split; [set_solver|]. split; [done|]. split.
    + intros x. rewrite elem_of_app, list_elem_of_singleton, Hout2, Hs.
      destruct (decide (x = node)) as [->|]; set_solver.
    + intros a k b Hsplit n Hn. apply app_eq_app in Hsplit as [l [[-> Hr]|[-> Hr]]].
      * destruct l as [|y l]; simpl in Hr; injection Hr as -> Hr; [|by eapply (Hord2 a y l)].
        rewrite app_nil_r in *. apply Hout2. by apply Hall.
      * destruct l as [|y l]; simpl in Hr; [|by injection Hr as _ Hr; destruct l].
        injection Hr as <- <-. rewrite app_nil_r. apply Hout2. by apply Hall.
  - intros n ->%list_elem_of_singleton. split; [|done]. set_solver.
Qed.
End dfs.

(** ** The dependency graph of the plan *)
Lemma add_dependents_elem ids step adj d k :
  k ∈ adj_get (add_dependents ids adj step) d ↔
  k ∈ adj_get adj d ∨ k = ps_id step ∧ d ∈ ps_depends_on step ∧ d ∈ ids.
Proof.
  unfold add_dependents. generalize (ps_depends_on step) as deps.
  intros deps. revert adj. induction deps as [|x deps IH]; intros adj; simpl.
  { split; [by left|]. by intros [?|(_ & ?%elem_of_nil & _)]. }
  rewrite IH, elem_of_cons. unfold adj_get. case_bool_decide as Hx.
  - destruct (decide (d = x)) as [->|Hne].
    + rewrite dict_get_push_eq. simpl. rewrite elem_of_app, list_elem_of_singleton. naive_solver.
    + rewrite dict_get_push_ne by done. naive_solver.
  - naive_solver.
Qed.

Lemma dependents_map_elem steps d k :
  k ∈ adj_get (dependents_map steps) d ↔
  ∃ s, s ∈ steps ∧ k = ps_id s ∧ d ∈ ps_depends_on s ∧ d ∈ ps_id <$> steps.
Proof.
  unfold dependents_map. generalize (ps_id <$> steps) as ids. intros ids.
  assert (∀ adj, k ∈ adj_get (foldl (add_dependents ids) adj steps) d ↔
    k ∈ adj_get adj d ∨ ∃ s, s ∈ steps ∧ k = ps_id s ∧ d ∈ ps_depends_on s ∧ d ∈ ids) as H.
  { induction steps as [|s steps IH]; intros adj; simpl.
    - split; [by left|]. by intros [?|(s & ?%elem_of_nil & _)].
    - rewrite IH, add_dependents_elem. setoid_rewrite elem_of_cons. naive_solver. }
  rewrite H. unfold adj_get. simpl. rewrite elem_of_nil. naive_solver.
Qed.

Lemma plan_deps_elem p k d :
  NoDup (ps_id <$> pl_steps p) →
  d ∈ deps_of (plan_deps p) k ↔
  ∃ s, s ∈ pl_steps p ∧ k = ps_id s ∧ d ∈ ps_depends_on s ∧ d ∈ ps_id <$> pl_steps p.
Proof.
  intros Hnd. unfold deps_of, plan_deps. set (deps s := filter _ (ps_depends_on s)). split.
  - destruct (dict_get k _) as [l|] eqn:Hk; [|by intros ?%elem_of_nil].
    apply dict_comp_get in Hk as (s & Hs & <- & <-). simpl. unfold deps.
    intros [??]%list_elem_of_filter. by exists s.
  - intros (s & Hs & -> & Hd & Hi). rewrite dict_comp_get_NoDup by done. simpl. unfold deps.
    by apply list_elem_of_filter.
Qed.

Lemma step_id_inj p s s' :
  NoDup (ps_id <$> pl_steps p) → s ∈ pl_steps p → s' ∈ pl_steps p → ps_id s = ps_id s' → s = s'.
Proof.
  intros Hnd Hs Hs' Heq. pose proof (dict_comp_get_NoDup ps_id id _ _ Hnd Hs) as H1.
  pose proof (dict_comp_get_NoDup ps_id id _ _ Hnd Hs') as H2. rewrite Heq, H2 in H1. by simplify_eq/=.
Qed.

(** The order in which the search finishes the steps, reversed, is a
    topological order. *)
Lemma finished_topological p st out :
  NoDup (ps_id <$> pl_steps p) →
  finished (dependents_map (pl_steps p)) (list_to_set (ps_id <$> pl_steps p)) st out →
  (∀ k, k ∈ ps_id <$> pl_steps p → k ∈ out) → topological (plan_deps p) (reverse out).
Proof.
  intros Hnd (Hno & _ & Hids & Hout & Hord) Hall. split.
  - apply NoDup_Permutation; [by rewrite reverse_Permutation|apply dict_comp_wf|].
    intros x. unfold plan_deps. rewrite elem_of_reverse, dict_comp_keys. split; [|apply Hall].
    intros Hx%Hout. destruct Hx as [Hx _]. apply Hids in Hx. by apply elem_of_list_to_set in Hx.
  - intros a k b Hsplit d Hd. apply plan_deps_elem in Hd as (s & Hs & -> & Hdep & Hin); [|done].
    assert (ps_id s ∈ adj_get (dependents_map (pl_steps p)) d) as Hadj
      by (apply dependents_map_elem; by exists s).
    apply (f_equal reverse) in Hsplit. rewrite reverse_involutive, reverse_app, reverse_cons in Hsplit.
    rewrite <- app_assoc in Hsplit. simpl in Hsplit.
    pose proof (Hall d Hin) as Hmem. rewrite Hsplit in Hmem, Hno.
    apply NoDup_app in Hno as (_ & Hdis & _).
    apply elem_of_app in Hmem as [Hmem|[->|Hmem]%elem_of_cons]; [exfalso..|by apply elem_of_reverse].
    + apply list_elem_of_split in Hmem as (x & y & Hb). apply (Hdis (ps_id s)); [|left].
      rewrite Hb. apply elem_of_app. left. eapply Hord; [|exact Hadj].
      rewrite Hsplit, Hb. rewrite <- app_assoc. reflexivity.
    + apply (Hdis (ps_id s)); [|left]. by eapply Hord.
Qed.

Lemma list_to_set_size (l : list string) : (size (list_to_set l : gset string) ≤ length l)%nat.
Proof.
  induction l as [|x l IH]; [done|]. simpl. rewrite size_union_alt, size_singleton.
  apply le_n_S. etrans; [apply subseteq_size, subseteq_difference_l; reflexivity|exact IH].
Qed.

(** [_has_dependency_cycle] always answers; when it finds no cycle the plan has
    a topological order. *)
Lemma has_dependency_cycle_ok p :
  ∃ b, has_dependency_cycle (pl_steps p) = Ok b ∧
    (b = false → NoDup (ps_id <$> pl_steps p) → ∃ o, topological (plan_deps p) o).
Proof.
  unfold has_dependency_cycle. set (ids := ps_id <$> pl_steps p).
  destruct (visit_all_ok (dependents_map (pl_steps p)) (list_to_set ids)
    (visit (S (length (pl_steps p))) (dependents_map (pl_steps p))) (S (length (pl_steps p))) ids
    (Dfs ∅ ∅) []) as (st & b & Hrun & Hok).
  - intros st out node. apply visit_spec. intros k n (s & Hs & -> & _)%dependents_map_elem.
    apply elem_of_list_to_set. by apply list_elem_of_fmap_2.
  - intros n Hn. by apply elem_of_list_to_set.
  - split; [apply NoDup_nil_2|]. simpl. split; [done|]. split; [set_solver|].
    split; [intros x; rewrite elem_of_nil; set_solver|]. intros [] k b Hf; discriminate Hf.
  - unfold unvisited. simpl. pose proof (list_to_set_size ids) as Hsz. unfold ids in Hsz at 2.
    rewrite length_fmap in Hsz. rewrite difference_empty_L. lia.
  - rewrite Hrun. exists b. split; [done|]. intros Hb Hnd. destruct (Hok Hb) as (Hs & _ & (out & Hfin) & Hall).
    exists (reverse out). eapply finished_topological; [done|exact Hfin|].
    intros k Hk. destruct Hfin as (_ & _ & _ & Hout & _). apply Hout. by apply Hall.
Qed.

(** ** The other walks end *)
(** The edges of the nodes not yet seen *)
Fixpoint pending (adj : dict (list string)) (seen : gset string) : nat :=
  match adj with
  | [] => O
  | (k, l) :: adj => (if bool_decide (k ∈ seen) then O else length l) + pending adj seen
  end.

Lemma pending_add adj seen node :
  dict_wf adj → node ∉ seen →
  (pending adj ({[ node ]} ∪ seen) + length (adj_get adj node) = pending adj seen)%nat.
Proof.
  intros Hwf Hn. unfold adj_get. induction adj as [|[k v] adj IH]; [done|].
  change (NoDup (k :: dict_keys adj)) in Hwf. apply NoDup_cons in Hwf as [Hk Hwf]. specialize (IH Hwf). simpl.
  destruct (decide (node = k)) as [->|Hne].
  - rewrite bool_decide_true by set_solver. rewrite (bool_decide_false (k ∈ seen)) by done.
    apply dict_get_None in Hk. rewrite Hk in IH. simpl in IH. simpl. lia.
  - rewrite (bool_decide_ext (k ∈ {[node]} ∪ seen) (k ∈ seen)) by set_solver. lia.
Qed.

Lemma reach_loop_total fuel adj queue seen :
  dict_wf adj → (length queue + pending adj seen ≤ fuel)%nat → ∃ s, reach_loop fuel adj queue seen = Ok s.
Proof.
  intros Hwf. revert queue seen. induction fuel as [|fuel IH]; intros [|node queue] seen Hf; simpl in *;
    [by exists seen|lia|by exists seen|].
  case_bool_decide as Hn; [apply IH; lia|]. apply IH. rewrite length_app.
  pose proof (pending_add adj seen node Hwf Hn).
  pose proof (length_filter (λ nxt, nxt ∉ {[node]} ∪ seen) (adj_get adj node)). lia.
Qed.

Lemma pending_empty adj : pending adj ∅ = edge_count adj.
Proof.
  unfold edge_count, dict_values. induction adj as [|[k v] adj IH]; [done|]. simpl.
  rewrite bool_decide_false by set_solver. by rewrite IH.
Qed.

Lemma dependents_map_wf steps : dict_wf (dependents_map steps).
Proof.
  unfold dependents_map. generalize (ps_id <$> steps). intros ids.
  assert (∀ adj, dict_wf adj → dict_wf (foldl (add_dependents ids) adj steps)) as H; [|apply H, NoDup_nil_2].
  induction steps as [|s steps IH]; intros adj Hwf; [done|]. simpl. apply IH. unfold add_dependents.
  generalize (ps_depends_on s). intros deps. revert adj Hwf. induction deps as [|d deps IHd]; intros adj Hwf; [done|].
  simpl. apply IHd. case_bool_decide; [by apply dict_set_wf|done].
Qed.

Lemma reachable_from_roots_total steps : ∃ s, reachable_from_roots steps = Ok s.
Proof.
  unfold reachable_from_roots. set (roots := ps_id <$> _). destruct roots as [|r rs] eqn:E; [by exists ∅|].
  rewrite <- E. apply reach_loop_total; [apply dependents_map_wf|]. by rewrite pending_empty.
Qed.

(** One node more on the stack is one node less to visit. *)
Lemma push_smaller (ids stack : gset string) x fuel :
  x ∈ ids → x ∉ stack → (size (ids ∖ stack) < S fuel)%nat → (size (ids ∖ ({[ x ]} ∪ stack)) < fuel)%nat.
Proof.
  intros Hx Hs Hf. apply Nat.lt_le_trans with (size (ids ∖ stack)); [|lia].
  apply subset_size. set_solver.
Qed.

Lemma depth_of_total fuel owner (ids : gset string) loop_id stack :
  (∀ k up, dict_get k owner = Some up → up ∈ ids) → loop_id ∈ ids →
  (size (ids ∖ stack) < fuel)%nat → ∃ d, depth_of fuel owner loop_id stack = Ok d.
Proof.
  intros Hown. revert loop_id stack. induction fuel as [|fuel IH]; intros loop_id stack Hid Hf; [lia|]. simpl.
  case_bool_decide; [by eexists|]. destruct (dict_get loop_id owner) as [up|] eqn:Hup; [|by eexists].
  destruct (IH up ({[ loop_id ]} ∪ stack)) as [d Hd]; [by eapply Hown|by apply push_smaller|].
  rewrite Hd. by eexists.
Qed.

Lemma upstream_of_total fuel direct (ids stack : gset string) cache sid :
  (∀ k d, d ∈ adj_get direct k → d ∈ ids) → sid ∈ ids → (size (ids ∖ stack) < fuel)%nat →
  ∃ r, upstream_of fuel direct stack cache sid = Ok r.
Proof.
  intros Hdir. revert stack cache sid. induction fuel as [|fuel IH]; intros stack cache sid Hid Hf; [lia|]. simpl.
  destruct (dict_get sid cache) as [s|]; [by eexists|]. case_bool_decide; [by eexists|].
  assert (∀ ds st, (∀ d, d ∈ ds → d ∈ ids) →
    ∃ r, res_fold (add_upstream (upstream_of fuel direct ({[sid]} ∪ stack))) ds st = Ok r) as Hfold.
  { induction ds as [|d ds IHd]; intros st Hds; [by eexists|]. cbn [res_fold]. unfold add_upstream at 2.
    destruct (IH ({[ sid ]} ∪ stack) st.1 d) as [r Hr]; [apply Hds; left|by apply push_smaller|].
    rewrite Hr. cbn [mbind res_bind]. apply IHd. intros x Hx. apply Hds. by right. }
  destruct (Hfold (adj_get direct sid) (cache, ∅)) as [r Hr]; [apply Hdir|]. rewrite Hr. by eexists.
Qed.

(** ** The LOOP pass *)
Section loop_pass.
Context `{PS : PlanSchema}.

Lemma own_body_configs ids l st b : lp_configs (own_body ids l st b) = lp_configs st.
Proof. unfold own_body. by repeat case_match. Qed.

Lemma own_bodies_configs ids l bs st : lp_configs (foldl (own_body ids l) st bs) = lp_configs st.
Proof. revert st. induction bs as [|b bs IH]; intros st; [done|]. simpl. by rewrite IH, own_body_configs. Qed.

(** Owners and configured LOOPs are steps of the plan. *)
Definition pass_ids (ids : list string) (st : loop_pass) : Prop :=
  (∀ b up, dict_get b (lp_owner st) = Some up → up ∈ ids) ∧
  ∀ l, l ∈ dict_keys (lp_configs st) → l ∈ ids.

Lemma own_body_ids ids l st b : l ∈ ids → pass_ids ids st → pass_ids ids (own_body ids l st b).
Proof.
  intros Hl [Ho Hc]. split; [|by rewrite own_body_configs]. intros k up. unfold own_body.
  repeat case_match; try (by apply Ho). simpl. destruct (decide (k = b)) as [->|Hne].
  - rewrite dict_get_set_eq. by intros [= <-].
  - rewrite dict_get_set_ne by done. by apply Ho.
Qed.

Lemma loop_step_pass_ids ids st s : ps_id s ∈ ids → pass_ids ids st → pass_ids ids (loop_step_pass ids st s).
Proof.
  intros Hs Hst. unfold loop_step_pass. case_match; [done|]. case_match; [|done].
  assert (∀ bs st, pass_ids ids st → pass_ids ids (foldl (own_body ids (ps_id s)) st bs)) as H'.
  { induction bs as [|b bs IH]; intros st' Hst'; [done|]. simpl. by apply IH, own_body_ids. }
  apply H'. destruct Hst as [Ho Hc]. split; [done|]. simpl. intros x [->|?]%dict_keys_set_elem; auto.
Qed.

Definition plan_loop_pass (p : plan) : loop_pass :=
  foldl (loop_step_pass (ps_id <$> pl_steps p)) (LoopPass [] [] []) (pl_steps p).

Lemma plan_loop_pass_ids p : pass_ids (ps_id <$> pl_steps p) (plan_loop_pass p).
Proof.
  unfold plan_loop_pass. assert (∀ steps st, (∀ s, s ∈ steps → ps_id s ∈ ps_id <$> pl_steps p) →
    pass_ids (ps_id <$> pl_steps p) st →
    pass_ids (ps_id <$> pl_steps p) (foldl (loop_step_pass (ps_id <$> pl_steps p)) st steps)) as H.
  { induction steps as [|s steps IH]; intros st Hs Hst; [done|]. simpl. apply IH.
    - intros x Hx. apply Hs. by right.
    - apply loop_step_pass_ids; [apply Hs; left|done]. }
  apply H; [intros s; apply list_elem_of_fmap_2|]. split; [done|]. by intros l ?%elem_of_nil.
Qed.

Lemma validate_loop_nesting_total p :
  ∃ es, validate_loop_nesting (S (length (pl_steps p))) (lp_configs (plan_loop_pass p))
          (lp_owner (plan_loop_pass p)) = Ok es.
Proof.
  unfold validate_loop_nesting. destruct (plan_loop_pass_ids p) as [Ho Hc]. revert Hc.
  generalize (dict_keys (lp_configs (plan_loop_pass p))). intros ls Hls.
  assert (∃ ds, res_map (λ l, d ← depth_of (S (length (pl_steps p))) (lp_owner (plan_loop_pass p)) l ∅; Ok (l, d)) ls
    = Ok ds) as [ds ->]; [|by eexists].
  induction ls as [|l ls IH]; [by eexists|]. cbn [res_map].
  destruct (depth_of_total (S (length (pl_steps p))) (lp_owner (plan_loop_pass p))
    (list_to_set (ps_id <$> pl_steps p)) l ∅) as [d Hd].
  - intros k up Hk. apply elem_of_list_to_set. by eapply Ho.
  - apply elem_of_list_to_set, Hls. left.
  - rewrite difference_empty_L. pose proof (list_to_set_size (ps_id <$> pl_steps p)) as H.
    rewrite length_fmap in H. lia.
  - rewrite Hd. cbn [mbind res_bind]. destruct IH as [ds Hds]; [intros x Hx; apply Hls; by right|].
    rewrite Hds. by eexists.
Qed.

Lemma direct_deps_ids p k d : d ∈ adj_get (direct_deps (pl_steps p)) k → d ∈ ps_id <$> pl_steps p.
Proof.
  unfold adj_get, direct_deps. destruct (dict_get k _) as [l|] eqn:E; [|by intros ?%elem_of_nil].
  apply dict_comp_get in E as (s & _ & _ & <-). by intros [??]%list_elem_of_filter.
Qed.

Lemma upstream_map_total p : ∃ m, upstream_map (pl_steps p) = Ok m.
Proof.
  unfold upstream_map. set (f := λ _ _, _).
  assert (∀ sids st, (∀ k, k ∈ sids → k ∈ ps_id <$> pl_steps p) → ∃ r, res_fold f sids st = Ok r) as H.
  { induction sids as [|k sids IH]; intros st Hk; [by eexists|]. cbn [res_fold]. unfold f at 2.
    destruct (upstream_of_total (S (length (pl_steps p))) (direct_deps (pl_steps p))
      (list_to_set (ps_id <$> pl_steps p)) ∅ st.1 k) as [r Hr].
    - intros x d Hd. apply elem_of_list_to_set. by eapply direct_deps_ids.
    - apply elem_of_list_to_set, Hk. left.
    - rewrite difference_empty_L. pose proof (list_to_set_size (ps_id <$> pl_steps p)) as H.
      rewrite length_fmap in H. lia.
    - rewrite Hr. cbn [mbind res_bind]. apply IH. intros x Hx. apply Hk. by right. }
  destruct (H (ps_id <$> pl_steps p) ([], [])) as [r Hr]; [done|]. rewrite Hr. by eexists.
Qed.

(** [StaticComplexPlanValidator.validate] answers on every plan, cyclic or
    malformed ones included: no walk of the dependency graph, of the ancestors
    or of the LOOP nesting runs out of its bound. *)
Theorem static_validate_total (config_error : plan_step → string) (p : plan) :
  ∃ issues, static_validate config_error p = Ok issues.
Proof.
  unfold static_validate. fold (plan_loop_pass p).
  destruct (has_dependency_cycle_ok p) as (b & -> & _). cbn [mbind res_bind].
  assert (∃ r, match pl_steps p with [] => Ok ∅ | _ => reachable_from_roots (pl_steps p) end = Ok r) as [r ->].
  { destruct (pl_steps p) eqn:E; [by eexists|]. rewrite <- E. apply reachable_from_roots_total. }
  destruct (upstream_map_total p) as [m ->]. cbn [mbind res_bind].
  destruct (validate_loop_nesting_total p) as [es ->]. by eexists.
Qed.
End loop_pass.

(** ** Ancestors
    On an acyclic plan the stack of [_transitive_ancestors] is never hit, and
    the walk is that of the binding resolver. *)
Lemma upstream_of_walk deps (rank : string → nat) fuel stack cache sid :
  (∀ a b, depends deps a b → (rank b < rank a)%nat) → (∀ x, x ∈ stack → (rank sid < rank x)%nat) →
  upstream_of fuel deps stack cache sid = ancestors_walk fuel deps cache sid.
Proof.
  intros Hrank. revert stack cache sid. induction fuel as [|fuel IH]; intros stack cache sid Hst;
    (assert (sid ∉ stack) as Hn by (intros H; specialize (Hst _ H); lia)); simpl;
    rewrite bool_decide_false by done; [done|].
  destruct (dict_get sid cache); [done|]. change (default [] (dict_get sid deps)) with (adj_get deps sid).
  assert (∀ ds st, (∀ d, d ∈ ds → depends deps sid d) →
    res_fold (add_upstream (upstream_of fuel deps ({[ sid ]} ∪ stack))) ds st
    = res_fold (add_ancestors (ancestors_walk fuel deps)) ds st) as ->; [|done|done].
  induction ds as [|d ds IHd]; intros [c out] Hds; [done|]. cbn [res_fold].
  unfold add_upstream at 2, add_ancestors at 2. cbn [fst snd]. rewrite IH.
  - destruct (ancestors_walk fuel deps c d) as [w|e]; [|done]. cbn [mbind res_bind].
    apply IHd. intros x Hx. apply Hds. by right.
  - assert (rank d < rank sid)%nat as Hlt by (apply Hrank, Hds; left).
    intros x [->%elem_of_singleton|Hx]%elem_of_union; [done|]. specialize (Hst x Hx). lia.
Qed.

Lemma upstream_map_spec p o :
  topological (plan_deps p) o →
  ∃ m, upstream_map (pl_steps p) = Ok m ∧
    ∀ k, k ∈ ps_id <$> pl_steps p → ∃ s, dict_get k m = Some s ∧ ∀ x, x ∈ s ↔ ancestor (plan_deps p) k x.
Proof.
  intros Hto. destruct (topological_rank _ o Hto) as (rank & Hrank & Hbound).
  unfold upstream_map. change (direct_deps (pl_steps p)) with (plan_deps p). set (f := λ _ _, _).
  assert (length (plan_deps p) ≤ length (pl_steps p))%nat as Hlen.
  { transitivity (length (dict_keys (plan_deps p))); [by unfold dict_keys; rewrite length_fmap|].
    rewrite <- (length_fmap ps_id (pl_steps p)). apply submseteq_length, NoDup_submseteq; [apply dict_comp_wf|].
    intros k. unfold plan_deps. by rewrite dict_comp_keys. }
  assert (∀ ks st, (∀ k, k ∈ ks → k ∈ ps_id <$> pl_steps p) → cache_sound (plan_deps p) st.1 →
    ∃ st', res_fold f ks st = Ok st' ∧
      (∀ k, k ∈ ks → ∃ s, dict_get k st'.2 = Some s ∧ ∀ x, x ∈ s ↔ ancestor (plan_deps p) k x) ∧
      ∀ k, k ∉ ks → dict_get k st'.2 = dict_get k st.2) as Hfold.
  { induction ks as [|k ks IH]; intros st Hks Hc.
    - exists st. split; [done|]. split; [by intros k ?%elem_of_nil|done].
    - cbn [res_fold]. unfold f at 2.
      rewrite (upstream_of_walk _ rank) by (done || by intros x ?%elem_of_empty).
      destruct (ancestors_walk_correct (plan_deps p) rank (S (length (pl_steps p))) st.1 k)
        as (c1 & o1 & Hw & Hs1 & _ & _ & Ho1); [done| |done|].
      { assert (k ∈ dict_keys (plan_deps p)) as Hk by (unfold plan_deps; rewrite dict_comp_keys; apply Hks; left).
        specialize (Hbound k Hk). lia. }
      rewrite Hw. cbn [mbind res_bind fst snd].
      destruct (IH (c1, dict_set k o1 st.2)) as (st' & Hf & Hin & Hout);
        [intros x Hx; apply Hks; by right|done|].
      exists st'. split; [exact Hf|]. split.
      + intros x Hx. destruct (decide (x ∈ ks)) as [Hi|Hi]; [by apply Hin|].
        apply elem_of_cons in Hx as [->|Hx]; [|done]. exists o1. rewrite Hout by done. simpl.
        by rewrite dict_get_set_eq.
      + intros x [Hne Hx]%not_elem_of_cons. rewrite Hout by done. simpl. by apply dict_get_set_ne. }
  destruct (Hfold (ps_id <$> pl_steps p) ([], [])) as (st' & Hf & Hin & _); [done|done|].
  exists st'.2. rewrite Hf. split; [done|exact Hin].
Qed.

(** ** What acceptance means *)
Section accepted.
Context `{PS : PlanSchema} (config_error : plan_step → string).

(** Every group of checks found nothing. *)
Record accepted (p : plan) (ancestors : ancestor_map) : Prop := Accepted {
  acc_ancestors : upstream_map (pl_steps p) = Ok ancestors;
  acc_cycle : has_dependency_cycle (pl_steps p) = Ok false;
  acc_identity : identity_issues p = [];
  acc_hard : validate_limit_hard_bounds p = [];
  acc_count : (Z.of_nat (length (pl_steps p)) ≤ max_steps (pl_limits p))%Z;
  acc_pass : lp_errors (plan_loop_pass p) = [];
  acc_response : response_issues (ps_id <$> pl_steps p) (dict_keys (lp_owner (plan_loop_pass p)))
                   (pc_response_step_ids (pl_completion p)) = [];
  acc_top s : s ∈ pl_steps p → top_level_dep_issues (dict_keys (lp_owner (plan_loop_pass p))) s = [];
  acc_when s : s ∈ pl_steps p →
    validate_when (ps_id <$> pl_steps p) ancestors (lp_owner (plan_loop_pass p)) s = [];
  acc_config s : s ∈ pl_steps p →
    validate_step_config config_error (ps_id <$> pl_steps p) ancestors (lp_owner (plan_loop_pass p)) p s = [];
  acc_scope l cfg : (l, cfg) ∈ lp_configs (plan_loop_pass p) → body_scope_issues (pl_steps p) l cfg = [] }.

Lemma when_nil {A} b (x : A) : when_ b x = [] ↔ b = false.
Proof. by destruct b. Qed.

Lemma flat_map_nil {A B} (f : A → list B) l : flat_map f l = [] ↔ ∀ x, x ∈ l → f x = [].
Proof.
  induction l as [|x l IH]; simpl; [split; [by intros _ x ?%elem_of_nil|done]|].
  rewrite app_nil, IH. setoid_rewrite elem_of_cons. naive_solver.
Qed.

Lemma static_validate_accepted p :
  static_validate config_error p = Ok [] → ∃ m, accepted p m.
Proof.
  unfold static_validate. fold (plan_loop_pass p). intros Hrun.
  apply bind_Ok in Hrun as (c & Hc & Hrun). apply bind_Ok in Hrun as (r & _ & Hrun).
  apply bind_Ok in Hrun as (m & Hm & Hrun). apply bind_Ok in Hrun as (n & _ & Hrun).
  injection Hrun as Hrun. rewrite !app_nil, !when_nil, !flat_map_nil in Hrun.
  destruct Hrun as (Hid & Hcyc & _ & Hhard & Hcount & Hpass & Hresp & Htop & Hstep & Hscope & _).
  exists m. subst c. split; try done.
  - by apply Z.ltb_ge.
  - intros s Hs. by destruct (app_eq_nil _ _ (Hstep s Hs)).
  - intros s Hs. by destruct (app_eq_nil _ _ (Hstep s Hs)).
  - intros l cfg Hl. by apply (Hscope (l, cfg)).
Qed.

(** *** Identity and dependencies *)
Lemma duplicate_ids_nil seen ids :
  duplicate_ids seen ids = [] → NoDup ids ∧ ∀ x, x ∈ ids → x ∉ seen.
Proof.
  revert seen. induction ids as [|x ids IH]; intros seen; simpl.
  - intros _. split; [apply NoDup_nil_2|]. by intros x ?%elem_of_nil.
  - rewrite app_nil, when_nil, bool_decide_eq_false. intros [Hx (Hnd & Hd)%IH]. split.
    + apply NoDup_cons. split; [|done]. intros Hin. apply (Hd x Hin). left.
    + intros y [->|Hy]%elem_of_cons; [done|]. intros Hs. apply (Hd y Hy). by right.
Qed.

Lemma dependency_issues_nil ids sid seen deps :
  dependency_issues ids sid seen deps = [] →
  NoDup deps ∧ ∀ d, d ∈ deps → d ∈ ids ∧ d ≠ sid ∧ d ∉ seen.
Proof.
  revert seen. induction deps as [|d deps IH]; intros seen; simpl.
  - intros _. split; [apply NoDup_nil_2|]. by intros x ?%elem_of_nil.
  - rewrite !app_nil, !when_nil, bool_decide_eq_false, negb_false_iff, bool_decide_eq_true, String.eqb_neq.
    intros (Hi & Hne & Hs & (Hnd & Hd)%IH). split.
    + apply NoDup_cons. split; [|done]. intros Hin. destruct (Hd d Hin) as (_ & _ & Hout). apply Hout. left.
    + intros x [->|Hx]%elem_of_cons; [done|]. destruct (Hd x Hx) as (? & ? & Hout). set_solver.
Qed.

Lemma accepted_identity p m :
  accepted p m →
  pl_steps p ≠ [] ∧ NoDup (ps_id <$> pl_steps p) ∧
  ∀ s, s ∈ pl_steps p → blank (ps_id s) = false ∧ NoDup (ps_depends_on s) ∧
    ∀ d, d ∈ ps_depends_on s → d ∈ ps_id <$> pl_steps p ∧ d ≠ ps_id s.
Proof.
  intros Hacc. pose proof (acc_identity _ _ Hacc) as H. unfold identity_issues in H.
  rewrite !app_nil, when_nil, flat_map_nil in H. destruct H as (Hne & Hb & Hd & Hdep).
  split; [by intros E; rewrite E in Hne|]. split.
  - destruct (no_dup _) eqn:E; [by apply bool_decide_eq_true in E|]. by apply duplicate_ids_nil in Hd as [? _].
  - intros s Hs. split.
    + apply fmap_nil_inv in Hb. apply not_true_is_false. intros Ht.
      assert (s ∈ filter (λ s, blank (ps_id s) = true) (pl_steps p)) as Hf by (by apply list_elem_of_filter).
      rewrite Hb in Hf. by apply elem_of_nil in Hf.
    + destruct (dependency_issues_nil _ _ _ _ (Hdep s Hs)) as [Hnd Hin]. split; [done|].
      intros d (? & ? & _)%Hin. done.
Qed.

Lemma accepted_acyclic p m : accepted p m → ∃ o, topological (plan_deps p) o.
Proof.
  intros Hacc. destruct (accepted_identity _ _ Hacc) as (_ & Hnd & _).
  destruct (has_dependency_cycle_ok p) as (b & Hb & Ho). rewrite (acc_cycle _ _ Hacc) in Hb.
  injection Hb as <-. by apply Ho.
Qed.
(** *** LOOP bodies: the pass agrees with [build_loop_body_ownership] *)
Lemma own_bodies_claim ids l bs st :
  lp_errors (foldl (own_body ids l) st bs) = [] →
  lp_errors st = [] ∧
  res_fold (claim_body ids l) bs (lp_owner st) = Ok (lp_owner (foldl (own_body ids l) st bs)).
Proof.
  revert st. induction bs as [|b bs IH]; intros st; [done|]. simpl. intros [Herr Hrun]%IH.
  revert Herr Hrun. generalize (foldl (own_body ids l) (own_body ids l st b) bs). intros st'.
  unfold own_body, claim_body, dict_has. case_bool_decide as Hb; simpl; [|by intros []%app_eq_nil].
  destruct (String.eqb b l); simpl; [by intros []%app_eq_nil|].
  destruct (dict_get b (lp_owner st)) as [o|]; simpl; [by intros []%app_eq_nil|]. done.
Qed.

(** One LOOP step, seen by the two passes *)
Lemma loop_step_pass_cfg ids st s cfg :
  ps_type s = StepType.LOOP → validate_loop_config (ps_config s) = Some cfg →
  loop_step_pass ids st s =
  foldl (own_body ids (ps_id s)) (LoopPass (lp_owner st) (dict_set (ps_id s) cfg (lp_configs st)) (lp_errors st))
    (lc_body_step_ids cfg).
Proof. intros Ht Hc. unfold loop_step_pass. by rewrite bool_decide_true, Hc. Qed.

Lemma claim_loop_cfg ids own s cfg owners :
  ps_type s = StepType.LOOP → validate_loop_config (ps_config s) = Some cfg →
  res_fold (claim_body ids (ps_id s)) (lc_body_step_ids cfg) (body_to_loop own) = Ok owners →
  claim_loop ids own s =
  Ok (LoopBodyOwnership owners (dict_set (ps_id s) (lc_body_step_ids cfg) (loop_to_body own))).
Proof. intros Ht Hc Ho. unfold claim_loop. rewrite Ht, Hc. cbn [of_option mbind res_bind]. by rewrite Ho. Qed.

Lemma loop_pass_other ids st own s :
  ps_type s ≠ StepType.LOOP → loop_step_pass ids st s = st ∧ claim_loop ids own s = Ok own.
Proof.
  intros Ht. unfold loop_step_pass, claim_loop. rewrite bool_decide_false by done. by destruct (ps_type s).
Qed.

Lemma loop_pass_claim ids steps st own :
  (∀ s, s ∈ steps → ps_type s = StepType.LOOP → is_Some (validate_loop_config (ps_config s))) →
  body_to_loop own = lp_owner st → lp_errors (foldl (loop_step_pass ids) st steps) = [] →
  lp_errors st = [] ∧
  ∃ own', res_fold (claim_loop ids) steps own = Ok own' ∧
    body_to_loop own' = lp_owner (foldl (loop_step_pass ids) st steps).
Proof.
  revert st own. induction steps as [|s steps IH]; intros st own Hcfg Hown Herr; [split; [done|]; by exists own|].
  assert (∀ x, x ∈ steps → ps_type x = StepType.LOOP → is_Some (validate_loop_config (ps_config x))) as Hcfg'.
  { intros x Hx. apply Hcfg. by right. }
  cbn [foldl] in Herr |- *. cbn [res_fold].
  destruct (decide (ps_type s = StepType.LOOP)) as [Ht|Ht].
  - destruct (Hcfg s (list_elem_of_here _ _) Ht) as [cfg Hc].
    rewrite (loop_step_pass_cfg ids st s cfg Ht Hc) in Herr |- *. revert Herr.
    set (st' := foldl (own_body _ _) _ _). intros Herr.
    destruct (IH st' (LoopBodyOwnership (lp_owner st') (dict_set (ps_id s) (lc_body_step_ids cfg) (loop_to_body own)))
      Hcfg' eq_refl Herr) as [He Hrest].
    apply own_bodies_claim in He as [He Hclaim]. split; [done|].
    erewrite claim_loop_cfg; [exact Hrest|done..|]. rewrite Hown. exact Hclaim.
  - destruct (loop_pass_other ids st own s Ht) as [Hst Hown']. rewrite Hst in Herr |- *. rewrite Hown'.
    by apply IH.
Qed.

Lemma loop_pass_configs_keep ids steps st l :
  l ∉ ps_id <$> steps →
  dict_get l (lp_configs (foldl (loop_step_pass ids) st steps)) = dict_get l (lp_configs st).
Proof.
  revert st. induction steps as [|s steps IH]; intros st Hl; [done|]. rewrite fmap_cons, not_elem_of_cons in Hl.
  destruct Hl as [Hne Hl]. simpl. rewrite IH by done. unfold loop_step_pass. case_match; [done|].
  case_match; [|done]. rewrite own_bodies_configs. simpl. by apply dict_get_set_ne.
Qed.

Lemma loop_pass_configs ids steps st s cfg :
  NoDup (ps_id <$> steps) → s ∈ steps → ps_type s = StepType.LOOP →
  validate_loop_config (ps_config s) = Some cfg →
  dict_get (ps_id s) (lp_configs (foldl (loop_step_pass ids) st steps)) = Some cfg.
Proof.
  revert st. induction steps as [|x steps IH]; intros st Hnd Hs Ht Hc; [by apply elem_of_nil in Hs|].
  apply NoDup_cons in Hnd as [Hx Hnd]. simpl. apply elem_of_cons in Hs as [<-|Hs]; [|by apply IH].
  rewrite loop_pass_configs_keep by done. unfold loop_step_pass. rewrite bool_decide_true, Hc by done. simpl.
  rewrite own_bodies_configs. simpl. apply dict_get_set_eq.
Qed.

Lemma accepted_ownership p m :
  accepted p m →
  ∃ own, build_loop_body_ownership p = Ok own ∧ body_to_loop own = lp_owner (plan_loop_pass p).
Proof.
  intros Hacc. unfold build_loop_body_ownership.
  destruct (loop_pass_claim (ps_id <$> pl_steps p) (pl_steps p) (LoopPass [] [] [])
    (LoopBodyOwnership [] [])) as [_ H]; [|done|apply (acc_pass _ _ Hacc)|exact H].
  intros s Hs Ht. pose proof (acc_config _ _ Hacc s Hs) as Hcfg. unfold validate_step_config in Hcfg.
  rewrite Ht in Hcfg. destruct (validate_loop_config (ps_config s)); [done|discriminate Hcfg].
Qed.

Lemma accepted_ancestors p m k :
  accepted p m → k ∈ ps_id <$> pl_steps p →
  ∀ x, x ∈ default ∅ (dict_get k m) ↔ ancestor (plan_deps p) k x.
Proof.
  intros Hacc Hk. destruct (accepted_acyclic p m Hacc) as [o Ho].
  destruct (upstream_map_spec p o Ho) as (m' & Hm & Hs). rewrite (acc_ancestors _ _ Hacc) in Hm.
  injection Hm as <-. destruct (Hs k Hk) as (s & -> & H). exact H.
Qed.

(** *** Dependencies respect the bodies *)
Lemma owner_keys p k :
  k ∈ dict_keys (lp_owner (plan_loop_pass p)) ↔ is_Some (dict_get k (lp_owner (plan_loop_pass p))).
Proof. by rewrite dict_get_is_Some. Qed.

Lemma accepted_top_level p m s d :
  accepted p m → s ∈ pl_steps p → d ∈ ps_depends_on s →
  dict_get (ps_id s) (lp_owner (plan_loop_pass p)) = None → dict_get d (lp_owner (plan_loop_pass p)) = None.
Proof.
  intros Hacc Hs Hd Hnone. pose proof (acc_top _ _ Hacc s Hs) as H. unfold top_level_dep_issues in H.
  rewrite bool_decide_false in H by (rewrite owner_keys, Hnone; by intros [? ?]).
  rewrite flat_map_nil in H. specialize (H d Hd). rewrite when_nil, bool_decide_eq_false, owner_keys in H.
  by apply eq_None_not_Some.
Qed.

Lemma find_step p s :
  NoDup (ps_id <$> pl_steps p) → s ∈ pl_steps p →
  find_first (λ x, String.eqb (ps_id x) (ps_id s)) (pl_steps p) = Some s.
Proof.
  intros Hnd Hs. destruct (find_first _ _) as [x|] eqn:E.
  - apply find_first_Some in E as [Hx Heq%String.eqb_eq]. f_equal. by eapply step_id_inj.
  - rewrite find_first_None in E. specialize (E s Hs). by rewrite String.eqb_refl in E.
Qed.

Lemma accepted_body_scope p m s d l :
  accepted p m → s ∈ pl_steps p → d ∈ ps_depends_on s →
  dict_get (ps_id s) (lp_owner (plan_loop_pass p)) = Some l →
  d = l ∨ dict_get d (lp_owner (plan_loop_pass p)) = Some l.
Proof.
  intros Hacc Hs Hd Hl. destruct (accepted_identity _ _ Hacc) as (_ & Hnd & _).
  destruct (accepted_ownership p m Hacc) as (own & Hb & Ho).
  destruct (ownership_of_build p own Hnd Hb) as (_ & Hown & _). rewrite Ho in Hown.
  destruct (proj1 (Hown _ _) Hl) as (bs & (x & cfg & Hx & Ht & <- & Hc & <-) & Hin).
  assert (body_scope_issues (pl_steps p) (ps_id x) cfg = []) as H.
  { apply (acc_scope _ _ Hacc), dict_get_Some_elem. by apply loop_pass_configs. }
  unfold body_scope_issues in H. rewrite flat_map_nil in H. specialize (H _ Hin).
  rewrite find_step in H by done. rewrite flat_map_nil in H. specialize (H d Hd).
  rewrite when_nil in H. apply andb_false_iff in H as [H%negb_false_iff%String.eqb_eq|H%negb_false_iff]; [by left|right].
  apply bool_decide_eq_true in H. apply Hown. exists (lc_body_step_ids cfg). split; [|done].
  by exists x, cfg.
Qed.

(** *** STEP_OUTPUT bindings *)
(** The bindings the resolver or the predicate evaluator will read for a step:
    those of its [when] and of its config *)
Definition step_bindings (s : plan_step) : list plan_binding :=
  match ps_when s ≫= validate_predicate with
  | Some pred => iter_plan_bindings_in_predicate pred
  | None => []
  end ++
  match ps_type s with
  | StepType.TOOL =>
      match validate_tool_config (ps_config s) with Some cfg => dict_values (tc_bindings cfg) | None => [] end
  | StepType.CONDITION =>
      match validate_condition_config (ps_config s) with
      | Some cfg => iter_plan_bindings_in_predicate (cc_predicate cfg)
      | None => []
      end
  | StepType.LOOP =>
      match validate_loop_config (ps_config s) with
      | Some cfg =>
          match lc_collection cfg with Some b => [b] | None => [] end
          ++ match lc_predicate cfg with Some pred => iter_plan_bindings_in_predicate pred | None => [] end
      | None => []
      end
  | StepType.JOIN | StepType.APPROVAL => []
  end.

Lemma accepted_binding p m s b :
  accepted p m → s ∈ pl_steps p → b ∈ step_bindings s → is_loop_context b = false →
  binding_issues (ps_id <$> pl_steps p) m (lp_owner (plan_loop_pass p)) (ps_id s) "PLAN_BINDING_INVALID" b = [].
Proof.
  intros Hacc Hs Hb Hctx. pose proof (acc_when _ _ Hacc s Hs) as Hw. pose proof (acc_config _ _ Hacc s Hs) as Hc.
  unfold step_bindings in Hb. apply elem_of_app in Hb as [Hb|Hb].
  - unfold validate_when in Hw. destruct (ps_when s) as [w|]; [|by apply elem_of_nil in Hb]. simpl in Hb.
    destruct (validate_predicate w) as [pred|]; [|by apply elem_of_nil in Hb].
    apply app_eq_nil in Hw as [_ Hw]. unfold validate_bindings in Hw. rewrite flat_map_nil in Hw. by apply Hw.
  - unfold validate_step_config in Hc. destruct (ps_type s).
    + destruct (validate_tool_config _) as [cfg|]; [|discriminate Hc].
      unfold validate_bindings in Hc. rewrite flat_map_nil in Hc. by apply Hc.
    + destruct (validate_condition_config _) as [cfg|]; [|discriminate Hc].
      unfold validate_bindings in Hc. rewrite flat_map_nil in Hc. by apply Hc.
    + by apply elem_of_nil in Hb.
    + by apply elem_of_nil in Hb.
    + destruct (validate_loop_config _) as [cfg|]; [|discriminate Hc].
      unfold loop_config_issues in Hc. rewrite !app_nil in Hc. destruct Hc as (_ & Hcol & _ & Hc).
      unfold validate_bindings in Hc. rewrite flat_map_nil in Hc. apply Hc.
      apply elem_of_app in Hb as [Hb|Hb]; apply elem_of_app; [left|by right].
      destruct (lc_collection cfg) as [c|]; [|done].
      apply list_elem_of_singleton in Hb as ->. destruct c; (discriminate Hcol || done || by left).
Qed.

Lemma binding_issues_nil ids anc owner o code src path :
  binding_issues ids anc owner o code (PlanStepOutputBinding src path) = [] →
  src ∈ ids ∧ src ≠ o ∧
  match dict_get o owner with
  | None => dict_get src owner = None ∧ src ∈ default ∅ (dict_get o anc)
  | Some l =>
      dict_get src owner = Some l ∧ src ∈ default ∅ (dict_get o anc)
      ∨ dict_get src owner = None ∧ (src = l ∨ src ∈ default ∅ (dict_get l anc))
  end.
Proof.
  unfold binding_issues. destruct (String.eqb src o) eqn:Eo; [done|]. apply String.eqb_neq in Eo.
  case_bool_decide as Hin; [|done]. cbn [negb]. intros H. split; [done|]. split; [done|]. revert H.
  unfold dict_has. destruct (dict_get o owner) as [l|], (dict_get src owner) as [l'|]; simpl; try done.
  - destruct (String.eqb l' l) eqn:El; [|done]. apply String.eqb_eq in El as ->. simpl.
    case_bool_decide; [|done]. by left.
  - intros H. right. split; [done|]. destruct (String.eqb src l) eqn:El; [by left; apply String.eqb_eq|].
    simpl in H. case_bool_decide; [by right|discriminate H].
  - by case_bool_decide.
Qed.

Lemma response_issues_nil ids templates rids :
  response_issues ids templates rids = [] →
  rids ≠ [] ∧ NoDup rids ∧ ∀ r, r ∈ rids → r ∈ ids ∧ r ∉ templates.
Proof.
  unfold response_issues. destruct rids as [|r rids]; [done|]. destruct (no_dup (r :: rids)) eqn:E; [|done].
  apply bool_decide_eq_true in E. cbn [negb]. rewrite flat_map_nil. intros H. split; [done|]. split; [done|].
  intros x Hx. specialize (H x Hx). case_bool_decide; [|done]. split; [done|].
  cbn [negb] in H. by rewrite when_nil, bool_decide_eq_false in H.
Qed.

(** C8: a plan the static validator accepts is well formed: at least one step,
    unique non-blank ids, dependencies that exist, without duplicates or self
    loops, and orderable; LOOP bodies that the runtime's ownership builder
    accepts, top-level steps that depend on no body template and body steps that
    depend on their LOOP or on steps of the same body only; response steps that
    are distinct top-level steps; and limits within the system's hard bounds. *)
Theorem static_validate_sound p :
  static_validate config_error p = Ok [] →
  pl_steps p ≠ [] ∧ NoDup (ps_id <$> pl_steps p) ∧
  (∀ s, s ∈ pl_steps p → blank (ps_id s) = false ∧ NoDup (ps_depends_on s) ∧
     ∀ d, d ∈ ps_depends_on s → d ∈ ps_id <$> pl_steps p ∧ d ≠ ps_id s) ∧
  (∃ o, topological (plan_deps p) o) ∧
  (∃ own, build_loop_body_ownership p = Ok own ∧
     (∀ s d, s ∈ pl_steps p → d ∈ ps_depends_on s →
        match dict_get (ps_id s) (body_to_loop own) with
        | None => dict_get d (body_to_loop own) = None
        | Some l => d = l ∨ dict_get d (body_to_loop own) = Some l
        end) ∧
     pc_response_step_ids (pl_completion p) ≠ [] ∧ NoDup (pc_response_step_ids (pl_completion p)) ∧
     ∀ r, r ∈ pc_response_step_ids (pl_completion p) →
       r ∈ ps_id <$> pl_steps p ∧ dict_get r (body_to_loop own) = None) ∧
  (Z.of_nat (length (pl_steps p)) ≤ max_steps (pl_limits p) ≤ SYSTEM_HARD_MAX_STEPS)%Z ∧
  (max_duration_seconds (pl_limits p) ≤ SYSTEM_HARD_MAX_DURATION_SECONDS)%Z ∧
  (max_parallelism (pl_limits p) ≤ SYSTEM_HARD_MAX_PARALLELISM)%Z ∧
  (max_loop_iterations (pl_limits p) ≤ SYSTEM_HARD_MAX_LOOP_ITERATIONS)%Z.
Proof.
  intros (m & Hacc)%static_validate_accepted. destruct (accepted_identity p m Hacc) as (Hne & Hnd & Hdeps).
  split; [done|]. split; [done|]. split; [done|]. split; [by eapply accepted_acyclic|]. split.
  - destruct (accepted_ownership p m Hacc) as (own & Hb & Ho). exists own. split; [done|]. rewrite Ho.
    split; [|destruct (response_issues_nil _ _ _ (acc_response _ _ Hacc)) as (Hr & Hrn & Hrs)].
    + intros s d Hs Hd. destruct (dict_get (ps_id s) _) as [l|] eqn:El;
        [by eapply accepted_body_scope|by eapply accepted_top_level].
    + split; [done|]. split; [done|]. intros r Hin. destruct (Hrs r Hin) as [? Hk]. split; [done|].
      by apply dict_get_None.
  - pose proof (acc_hard _ _ Hacc) as Hh. pose proof (acc_count _ _ Hacc) as Hc.
    unfold validate_limit_hard_bounds in Hh. rewrite !app_nil, !when_nil, !Z.ltb_ge in Hh. lia.
Qed.

(** C9: every STEP_OUTPUT binding of an accepted plan (of a [when], a tool
    config, a condition, or a LOOP collection or predicate) names another plan
    step that is upstream of its reader: for a top-level reader a top-level
    transitive dependency; for a body step a transitive dependency in the same
    body, the owning LOOP, or a top-level ancestor of that LOOP. *)
Theorem static_bindings_scoped p own s src path :
  static_validate config_error p = Ok [] → build_loop_body_ownership p = Ok own →
  s ∈ pl_steps p → PlanStepOutputBinding src path ∈ step_bindings s →
  src ∈ ps_id <$> pl_steps p ∧ src ≠ ps_id s ∧
  match dict_get (ps_id s) (body_to_loop own) with
  | None => dict_get src (body_to_loop own) = None ∧ ancestor (plan_deps p) (ps_id s) src
  | Some l =>
      dict_get src (body_to_loop own) = Some l ∧ ancestor (plan_deps p) (ps_id s) src
      ∨ dict_get src (body_to_loop own) = None ∧ (src = l ∨ ancestor (plan_deps p) l src)
  end.
Proof.
  intros (m & Hacc)%static_validate_accepted Hbuild Hs Hb.
  destruct (accepted_ownership p m Hacc) as (own' & Hb' & Ho). rewrite Hbuild in Hb'. injection Hb' as <-.
  destruct (accepted_identity p m Hacc) as (_ & Hnd & _).
  pose proof (accepted_binding p m s _ Hacc Hs Hb eq_refl) as H.
  apply binding_issues_nil in H as (Hin & Hne & H). split; [done|]. split; [done|]. rewrite Ho.
  pose proof (list_elem_of_fmap_2 ps_id _ _ Hs) as Hid.
  destruct (dict_get (ps_id s) _) as [l|] eqn:El; rewrite !(accepted_ancestors p m) in H; try done.
  rewrite <- Ho in El. destruct (ownership_of_build p own Hnd Hbuild) as (_ & Hown & _).
  destruct (proj1 (Hown _ _) El) as (bs & (x & cfg & Hx & _ & <- & _) & _).
  by apply list_elem_of_fmap_2.
Qed.
End accepted.
