(* ===== verification/Samples.v ===== *)
(** Concrete inputs: rows, plans, catalogs and stores the witnesses share. *)
From S2P Require Import Prelude PyStr PyDict Json JsonStrict JsonPointer PyUuid CanonicalHash Domain SchemaExample.
From S2P Require Import LoopRuntime Completion Kahn DagValidate DagLoops DagSchedule BindingResolver PredicateEvaluator.
From S2P Require Import Rows PolicySelection RetryDecision Claim Preflight Authorization ApprovalContext Outbox.
From S2P Require Import ApprovalEvidence Approval ResultValidator ToolRunner ToolPrepare ToolFinalize.

(** * A sample execution

    A plan with a TOOL, a WHILE LOOP over one body TOOL, a CONDITION and a JOIN, and
    the rows of an execution of it after one finished iteration: the concrete
    inputs of the witnesses. *)

(** How a witness discharges a computed hypothesis *)
Ltac by_computation := vm_compute; reflexivity.
Ltac by_decision := apply (bool_decide_unpack _); vm_compute; exact I.

Definition tool_conf (tv : uuid) (bindings : dict json) : dict json :=
  [("tool_version_id", JStr (uuid_str tv)); ("bindings", JObj bindings)].
Definition literal (v : json) : json := JObj [("kind", JStr "LITERAL"); ("value", v)].
Definition eq_predicate : json :=
  JObj [("op", JStr "eq"); ("left", literal (JInt 1)); ("right", literal (JInt 1))].

Definition plan_step_of (id : string) (t : step_type) (deps : list string) (oe : plan_on_error)
    (config : dict json) : plan_step :=
  ExecutionPlanStep id id t true deps None 30 oe config.

Definition s_fetch : plan_step :=
  plan_step_of "fetch" StepType.TOOL [] PlanOnError.FAIL_EXECUTION (tool_conf 7%N []).
Definition s_loop : plan_step :=
  plan_step_of "loop" StepType.LOOP ["fetch"] PlanOnError.FAIL_EXECUTION
    [("mode", JStr "WHILE"); ("max_iterations", JInt 3); ("body_step_ids", JArr [JStr "body"]);
     ("predicate", eq_predicate)].
Definition s_body : plan_step :=
  plan_step_of "body" StepType.TOOL ["loop"] PlanOnError.CONTINUE (tool_conf 8%N []).
Definition s_check : plan_step :=
  plan_step_of "check" StepType.CONDITION ["fetch"] PlanOnError.FAIL_EXECUTION [("predicate", eq_predicate)].
Definition s_join : plan_step :=
  plan_step_of "join" StepType.JOIN ["loop"; "check"] PlanOnError.FAIL_EXECUTION [("policy", JStr "ALL_SUCCESS")].

Definition sample_plan : plan :=
  ExecutionPlanV1 "goal" (PlanSourceWorkflow 5%N) [("token", PlanInputDefinition "string" true true)]
    (PlanLimits 20 300 4 50) [s_fetch; s_loop; s_body; s_check; s_join] (PlanCompletion ["join"]).

(** A two-step plan whose second step reads the output of the first *)
Definition s_use : plan_step :=
  plan_step_of "use" StepType.TOOL ["fetch"] PlanOnError.FAIL_EXECUTION
    (tool_conf 8%N [("x", JObj [("kind", JStr "STEP_OUTPUT"); ("step_id", JStr "fetch"); ("path", JStr "/x")])]).
Definition bound_plan : plan :=
  ExecutionPlanV1 "goal" (PlanSourceWorkflow 5%N) [] (PlanLimits 20 300 4 50) [s_fetch; s_use]
    (PlanCompletion ["use"]).

(** A row of plan step [ps] *)
Definition row (id : uuid) (key : string) (ps : plan_step) (tv parent : option uuid) (iter : option Z)
    (st : step_status) (ri result : json) : execution_step :=
  {| es_id := id; es_execution_id := 100%N; es_step_key := key; es_step_type := ps_type ps;
     es_mcp_tool_version_id := tv; es_parent_step_id := parent; es_sequence_hint := 1;
     es_status := st; es_step_snapshot := example_dump_step ps; es_resolved_input := ri;
     es_result_inline := result; es_result_blob_id := None; es_condition_result := None;
     es_iteration_no := iter; es_attempt_count := 0; es_ready_at := None; es_started_at := None;
     es_finished_at := None; es_error_code := None; es_error_message := None; es_lock_version := 1 |}.

Definition zero_digest : string := sha256_hex "".
Definition sample_history : list while_gate :=
  [WhileGate 1 zero_digest true; WhileGate 2 zero_digest false].
Definition body_key : string :=
  match iteration_step_key 2%N 1 "body" with Ok k => k | Err _ => "" end.

Definition r_fetch : execution_step :=
  row 1%N "fetch" s_fetch (Some 7%N) None None StepStatus.SUCCEEDED JNull (JObj [("x", JInt 4)]).
Definition r_loop : execution_step :=
  row 2%N "loop" s_loop None None None StepStatus.SUCCEEDED (while_control_json sample_history)
    (JObj [("mode", JStr "WHILE"); ("iterations_completed", JInt 1)]).
Definition r_body : execution_step :=
  row 3%N body_key s_body (Some 8%N) (Some 2%N) (Some 1%Z) StepStatus.SUCCEEDED JNull (JInt 9).
Definition r_check : execution_step :=
  row 4%N "check" s_check None None None StepStatus.PENDING JNull JNull.
Definition r_join : execution_step :=
  row 5%N "join" s_join None None None StepStatus.PENDING JNull JNull.
Definition sample_rows : list execution_step := [r_fetch; r_loop; r_body; r_check; r_join].
Definition sample_by_key : dict execution_step := dict_comp es_step_key id sample_rows.

Definition sample_dag : tool_join_dag :=
  match validate_tool_join_dag sample_plan sample_rows with
  | Ok d => d
  | Err _ => ToolJoinDag [] [] 0 [] []
  end.
Definition sample_graph : dag_graph :=
  match validate_dag_graph sample_plan sample_rows with Ok g => g | Err _ => DagGraph [] [] end.

(** The same execution before the LOOP ran, on a plan whose two tops depend on
    each other *)
Definition cyclic_plan : plan :=
  ExecutionPlanV1 "goal" (PlanSourceWorkflow 5%N) [] (PlanLimits 20 300 4 50)
    [plan_step_of "a" StepType.TOOL ["b"] PlanOnError.FAIL_EXECUTION (tool_conf 7%N []);
     plan_step_of "b" StepType.TOOL ["a"] PlanOnError.FAIL_EXECUTION (tool_conf 7%N [])]
    (PlanCompletion []).

Definition sample_execution : execution :=
  {| ex_id := 100%N; ex_source_type := "WORKFLOW_VERSION"; ex_trigger_type := "USER"; ex_requester_id := 11%N;
     ex_agent_request_id := None; ex_agent_version_id := None; ex_workflow_version_id := Some 12%N;
     ex_schedule_occurrence_id := None; ex_parent_execution_id := None; ex_plan_validation_run_id := None;
     ex_status := ExecutionStatus.RUNNING; ex_plan_schema_version := "1.0"; ex_plan_snapshot := JObj [];
     ex_plan_hash := ""; ex_input_snapshot := JObj [("token", secret_ref_resolved 77%N)];
     ex_policy_snapshot := JObj []; ex_result_summary := JNull; ex_error_code := None;
     ex_error_message := None; ex_trace_id := None; ex_priority := None; ex_requested_at := 0;
     ex_queued_at := None; ex_started_at := None; ex_finished_at := None; ex_cancel_requested_at := None;
     ex_cancel_requested_by := None; ex_cancel_reason := None; ex_worker_id := None; ex_lease_token := None;
     ex_lease_expires_at := None; ex_heartbeat_at := None; ex_lock_version := 1; ex_retention_until := None |}.

Definition sample_ancestors : ancestor_cache :=
  match transitive_ancestors sample_plan with Ok c => c | Err _ => [] end.

Example sample_dag_order :
  ordered_step_keys sample_dag = ["fetch"; "loop"; "check"; "join"; body_key]
  ∧ root_tool_keys sample_dag = ["fetch"].
Proof. vm_compute. done. Qed.

Example cyclic_rejected :
  validate_tool_join_dag cyclic_plan
    [row 1%N "a" (plan_step_of "a" StepType.TOOL ["b"] PlanOnError.FAIL_EXECUTION (tool_conf 7%N []))
       (Some 7%N) None None StepStatus.PENDING JNull JNull;
     row 2%N "b" (plan_step_of "b" StepType.TOOL ["a"] PlanOnError.FAIL_EXECUTION (tool_conf 7%N []))
       (Some 7%N) None None StepStatus.PENDING JNull JNull]
  = Err (conflict "Runtime DAG contains a cycle or unreachable Steps.").
Proof. vm_compute. reflexivity. Qed.

(** * A sample runtime

    An instance of [PlanParser]: a strict decoder (exact field sets, no
    coercion) of a whole plan, and the rows of executions at the moments the
    runtime theorems speak of: queued, running with a call in flight, and
    cancelled while a call is in flight. *)

(** ** A decoder of plans *)
Definition as_source (v : json) : option plan_source :=
  d ← as_obj v;
  t ← field as_str "type" d;
  if String.eqb t "AGENT" then
    u ← field as_uuid "agent_version_id" d;
    guard_some (exact_fields ["type"; "agent_version_id"] [] d) (PlanSourceAgent u)
  else if String.eqb t "WORKFLOW" then
    u ← field as_uuid "workflow_id" d;
    guard_some (exact_fields ["type"; "workflow_id"] [] d) (PlanSourceWorkflow u)
  else if String.eqb t "MANUAL_TOOL_TEST" then
    u ← field as_uuid "mcp_tool_id" d; v ← field as_uuid "mcp_tool_version_id" d;
    guard_some (exact_fields ["type"; "mcp_tool_id"; "mcp_tool_version_id"] [] d) (PlanSourceManualToolTest u v)
  else None.

Definition as_input_definition (v : json) : option plan_input_definition :=
  d ← as_obj v;
  t ← field as_str "type" d; r ← field as_bool "required" d; s ← field_or as_bool "secret" false d;
  guard_some (exact_fields ["type"; "required"] ["secret"] d) (PlanInputDefinition t r s).

Definition as_limits (v : json) : option plan_limits :=
  d ← as_obj v;
  a ← field as_int "max_steps" d; b ← field as_int "max_duration_seconds" d;
  c ← field as_int "max_parallelism" d; n ← field as_int "max_loop_iterations" d;
  guard_some (exact_fields ["max_steps"; "max_duration_seconds"; "max_parallelism"; "max_loop_iterations"] [] d
              && forallb (λ n, 1 <=? n)%Z [a; b; c; n]) (PlanLimits a b c n).

Definition as_completion (v : json) : option plan_completion :=
  d ← as_obj v;
  p ← field as_str "success_policy" d; ids ← field (as_list as_str) "response_step_ids" d;
  guard_some (exact_fields ["success_policy"; "response_step_ids"] [] d && String.eqb p "ALL_REQUIRED")
    (PlanCompletion ids).

Definition example_validate_plan (v : json) : option plan :=
  d ← as_obj v;
  version ← field as_str "schema_version" d;
  goal ← field as_str "goal" d;
  source ← field as_source "source" d;
  inputs ← field as_obj "inputs" d;
  definitions ← mapM (λ kv : string * json, x ← as_input_definition kv.2; Some (kv.1, x)) inputs;
  limits ← field as_limits "limits" d;
  steps ← field (as_list example_validate_step) "steps" d;
  completion ← field as_completion "completion" d;
  guard_some (exact_fields ["schema_version"; "goal"; "source"; "inputs"; "limits"; "steps"; "completion"] [] d
              && String.eqb version "1.0" && negb (blank goal))
    (ExecutionPlanV1 goal source definitions limits steps completion).

Definition as_binding_value (v : json) : option binding_value :=
  b ← as_binding v;
  match b with
  | PlanLiteralBinding x => Some (LiteralBindingValue x)
  | PlanSecretRefBinding u => Some (SecretRefBindingValue u)
  | _ => None
  end.
Definition example_agent_config (d : dict json) : option agent_tool_config :=
  u ← field as_uuid "tool_version_id" d;
  bs ← field as_obj "bindings" d;
  bindings ← mapM (λ kv : string * json, b ← as_binding_value kv.2; Some (kv.1, b)) bs;
  guard_some (exact_fields ["tool_version_id"; "bindings"] [] d) (ToolStepConfigV1 u bindings).

Definition example_dump_binding (b : plan_binding) : json :=
  match b with
  | PlanLiteralBinding v => JObj [("kind", JStr "LITERAL"); ("value", v)]
  | PlanSecretRefBinding u => JObj [("kind", JStr "SECRET_REF"); ("secret_id", JStr (uuid_str u))]
  | PlanInputBinding p => JObj [("kind", JStr "PLAN_INPUT"); ("path", JStr p)]
  | PlanStepOutputBinding s p => JObj [("kind", JStr "STEP_OUTPUT"); ("step_id", JStr s); ("path", JStr p)]
  | PlanExecutionContextBinding p => JObj [("kind", JStr "EXECUTION_CONTEXT"); ("path", JStr p)]
  | PlanLoopContextBinding p => JObj [("kind", JStr "LOOP_CONTEXT"); ("path", JStr p)]
  end.

Definition dump_source (s : plan_source) : json :=
  match s with
  | PlanSourceAgent v => JObj [("type", JStr "AGENT"); ("agent_version_id", JStr (uuid_str v))]
  | PlanSourceWorkflow w => JObj [("type", JStr "WORKFLOW"); ("workflow_id", JStr (uuid_str w))]
  | PlanSourceManualToolTest t v =>
      JObj [("type", JStr "MANUAL_TOOL_TEST"); ("mcp_tool_id", JStr (uuid_str t)); ("mcp_tool_version_id", JStr (uuid_str v))]
  end.
Definition example_dump_plan (p : plan) : json :=
  JObj [("schema_version", JStr "1.0"); ("goal", JStr (pl_goal p)); ("source", dump_source (pl_source p));
        ("inputs", JObj ((λ kv : string * plan_input_definition,
            (kv.1, JObj [("type", JStr (pi_type kv.2)); ("required", JBool (pi_required kv.2));
                         ("secret", JBool (pi_secret kv.2))])) <$> pl_inputs p));
        ("limits", JObj [("max_steps", JInt (max_steps (pl_limits p)));
            ("max_duration_seconds", JInt (max_duration_seconds (pl_limits p)));
            ("max_parallelism", JInt (max_parallelism (pl_limits p)));
            ("max_loop_iterations", JInt (max_loop_iterations (pl_limits p)))]);
        ("steps", JArr (example_dump_step <$> pl_steps p));
        ("completion", JObj [("success_policy", JStr "ALL_REQUIRED");
            ("response_step_ids", JArr (JStr <$> pc_response_step_ids (pl_completion p)))])].

#[export] Instance example_parser : PlanParser := {
  validate_plan := example_validate_plan;
  dump_plan := example_dump_plan;
  validate_agent_tool_config := example_agent_config;
  dump_binding := example_dump_binding }.

(** ** A workflow plan with one TOOL step *)
Definition plan_json (source : json) (steps : list plan_step) : json :=
  JObj [("schema_version", JStr "1.0"); ("goal", JStr "goal"); ("source", source); ("inputs", JObj []);
        ("limits", JObj [("max_steps", JInt 20); ("max_duration_seconds", JInt 300); ("max_parallelism", JInt 4);
                         ("max_loop_iterations", JInt 50)]);
        ("steps", JArr (example_dump_step <$> steps));
        ("completion", JObj [("success_policy", JStr "ALL_REQUIRED");
                             ("response_step_ids", JArr ((λ s, JStr (ps_id s)) <$> steps))])].
Definition workflow_source (id : uuid) : json :=
  JObj [("type", JStr "WORKFLOW"); ("workflow_id", JStr (uuid_str id))].
Definition s_tool : plan_step :=
  plan_step_of "tool_1" StepType.TOOL [] PlanOnError.FAIL_EXECUTION (tool_conf 7%N []).
Definition tool_plan_json : json := plan_json (workflow_source 5%N) [s_tool].
Definition tool_plan : plan :=
  ExecutionPlanV1 "goal" (PlanSourceWorkflow 5%N) [] (PlanLimits 20 300 4 50) [s_tool] (PlanCompletion ["tool_1"]).
Definition hash_of (v : json) : string := match compute_plan_hash v with Ok h => h | Err _ => "" end.

Definition tool_policy : dict json :=
  [("risk_class", JStr "DESTRUCTIVE"); ("max_attempts", JInt 3); ("mcp_tool_id", JStr (uuid_str 9%N))].
Definition workflow_policy : dict json :=
  build_workflow_execution_policy_snapshot 5%N 12%N [("tool_1", policy_entry 7%N tool_policy)].

Definition execution_of (plan : json) (source : string) (status : execution_status) (policy : json) : execution :=
  {| ex_id := 100%N; ex_source_type := source; ex_trigger_type := "USER"; ex_requester_id := 11%N;
     ex_agent_request_id := None; ex_agent_version_id := None; ex_workflow_version_id := Some 12%N;
     ex_schedule_occurrence_id := None; ex_parent_execution_id := None; ex_plan_validation_run_id := None;
     ex_status := status; ex_plan_schema_version := "1.0"; ex_plan_snapshot := plan;
     ex_plan_hash := hash_of plan; ex_input_snapshot := JObj [];
     ex_policy_snapshot := policy; ex_result_summary := JNull; ex_error_code := None;
     ex_error_message := None; ex_trace_id := None; ex_priority := None; ex_requested_at := 0;
     ex_queued_at := Some 1%Z; ex_started_at := None; ex_finished_at := None; ex_cancel_requested_at := None;
     ex_cancel_requested_by := None; ex_cancel_reason := None; ex_worker_id := None; ex_lease_token := None;
     ex_lease_expires_at := None; ex_heartbeat_at := None; ex_lock_version := 1; ex_retention_until := None |}.

Definition runtime_execution : string → execution_status → json → execution := execution_of tool_plan_json.

Definition tool_row (status : step_status) : execution_step :=
  row 1%N "tool_1" s_tool (Some 7%N) None None status JNull JNull.

(** Queued for a worker *)
Definition queued_store : store :=
  Store (runtime_execution WORKFLOW_VERSION ExecutionStatus.QUEUED (JObj workflow_policy))
    [tool_row StepStatus.PENDING] [] [] [] [] [].
Definition queued_db : claim_db := ClaimDb queued_store [] [].

(** Running, the first call of a destructive tool in flight, the lease over *)
Definition attempt_in_flight (id step_id : uuid) : step_attempt :=
  {| sa_id := id; sa_step_execution_id := step_id; sa_attempt_no := 1; sa_status := AttemptStatus.STARTED;
     sa_worker_id := Some "w1"; sa_lease_expires_at := Some 50%Z; sa_idempotency_key := "k";
     sa_request_snapshot := JObj []; sa_result_inline := JNull; sa_error_layer := None; sa_error_code := None;
     sa_error_message := None; sa_is_retryable := None; sa_started_at := 2; sa_finished_at := None |}.
Definition call_in_flight (id attempt_id : uuid) : tool_call :=
  {| cl_id := id; cl_step_attempt_id := attempt_id; cl_mcp_server_id := 41%N; cl_mcp_tool_version_id := 7%N;
     cl_remote_request_id := "r"; cl_request_meta := JObj []; cl_response_meta := JNull;
     cl_normalized_status := AttemptStatus.STARTED; cl_response_bytes := None; cl_started_at := 3;
     cl_first_byte_at := None; cl_finished_at := None |}.
Definition started_attempt : step_attempt := attempt_in_flight 21%N 1%N.
Definition started_call : tool_call := call_in_flight 31%N 21%N.
Definition in_flight (source : string) (status : execution_status) : store :=
  Store (runtime_execution source status (JObj [("tool_policy", JObj tool_policy)])
           |> set_ex_worker_id (Some "w1") |> set_ex_lease_token (Some 51%N) |> set_ex_lease_expires_at (Some 50%Z)
           |> set_ex_heartbeat_at (Some 2%Z) |> set_ex_started_at (Some 2%Z))
    [set_es_attempt_count 1 (tool_row StepStatus.RUNNING)] [started_attempt] [started_call] [] [] [].
Definition crashed_store : store := in_flight AGENT_REQUEST ExecutionStatus.RUNNING.
Definition cancelled_store : store := in_flight WORKFLOW_VERSION ExecutionStatus.CANCEL_REQUESTED.

(** The primary and foreign keys of a literal store *)
Definition store_wf_bool (st : store) : bool :=
  bool_decide (NoDup (es_id <$> st_steps st)) && bool_decide (NoDup (sa_id <$> st_attempts st))
  && bool_decide (NoDup (cl_id <$> st_calls st))
  && forallb (λ s, bool_decide (es_execution_id s = ex_id (st_execution st))) (st_steps st)
  && forallb (λ a, bool_decide (sa_step_execution_id a ∈ es_id <$> st_steps st)) (st_attempts st)
  && forallb (λ c, bool_decide (cl_step_attempt_id c ∈ sa_id <$> st_attempts st)) (st_calls st).

Lemma store_wf_bool_sound st : store_wf_bool st = true → store_wf st.
Proof.
  unfold store_wf_bool. rewrite !andb_true_iff. intros (((((H1 & H2) & H3) & H4) & H5) & H6).
  apply bool_decide_eq_true in H1, H2, H3. rewrite forallb_forall in H4, H5, H6.
  split; try done; intros x Hx%list_elem_of_In.
  - apply H4 in Hx. by apply bool_decide_eq_true in Hx.
  - apply H5 in Hx. by apply bool_decide_eq_true in Hx.
  - apply H6 in Hx. by apply bool_decide_eq_true in Hx.
Qed.

Example tool_plan_decoded : validate_plan tool_plan_json = Some tool_plan.
Proof. vm_compute. reflexivity. Qed.

(** * Sample catalog, directory and queue

    The rows the witnesses of the services run on: a tool whose policy asks for
    a quorum of two, four users of whom two may decide, an execution that
    reaches the wait, and an execution to stage. *)

Definition sample_approval_policy : approval_policy :=
  {| ap_id := 61%N; ap_status := "ACTIVE"; ap_decision_mode := "QUORUM"; ap_required_approvals := 2;
     ap_approver_scope := JNull; ap_default_expiry_seconds := 3600; ap_allow_self_approval := false;
     ap_reject_comment_required := true |}.
Definition sample_tool_policy : mcp_tool_policy :=
  {| mp_id := 62%N; mp_mcp_tool_id := 9%N; mp_risk_class := "DESTRUCTIVE"; mp_requires_confirmation := false;
     mp_requires_approval := true; mp_approval_policy_id := Some 61%N; mp_timeout_ms := 30000; mp_max_attempts := 3;
     mp_backoff_policy := JNull; mp_max_result_bytes := 65536; mp_allow_auto_select := false;
     mp_data_classification := None |}.
Definition sample_catalog : catalog :=
  {| cat_servers := [MCPServer 41%N "STREAMABLE_HTTP" (Some "https://tools.example") JNull "NONE" None "ACTIVE" "CURRENT" None];
     cat_tools := [MCPTool 9%N 41%N "delete_pet" "ACTIVE" (Some 7%N) None];
     cat_tool_versions := [MCPToolVersion 7%N 9%N (JObj []) JNull "VALID"];
     cat_tool_policies := [sample_tool_policy]; cat_approval_policies := [sample_approval_policy];
     cat_agent_versions := []; cat_grants := []; cat_workflows := []; cat_workflow_versions := [];
     cat_occurrences := []; cat_schedules := []; cat_validations := []; cat_clarifications := [];
     cat_authorization := λ _ _ _ _, AuthorizationSnapshot true true true true |}.

(** Users 71 and 72 hold the approver role, 73 does not, 74 is locked. *)
Definition sample_directory : directory :=
  {| dr_users := [User 71%N "ACTIVE" None; User 72%N "ACTIVE" None; User 73%N "ACTIVE" None; User 74%N "LOCKED" None];
     dr_roles := [Role 81%N "APPROVER" None];
     dr_permissions := [Permission 82%N "approval.decide"; Permission 83%N "mcp.tool.execute"];
     dr_user_roles := [(71%N, 81%N); (72%N, 81%N); (74%N, 81%N)];
     dr_role_permissions := [(81%N, 82%N); (81%N, 83%N)];
     dr_grants := [ResourceGrant None (Some 81%N) "MCP_TOOL" 9%N] |}.

(** Running, the tool step READY with its pinned input *)
Definition ready_row : execution_step := set_es_resolved_input (JObj []) (tool_row StepStatus.READY).
Definition ready_store : store :=
  Store (runtime_execution WORKFLOW_VERSION ExecutionStatus.RUNNING (JObj workflow_policy)) [ready_row] [] [] [] [] [].
Definition wait_db : approval_db := ApprovalDb ready_store [] [] [].

Definition ok_or {A} (d : A) (r : res A) : A := match r with Ok a => a | Err _ => d end.
Definition no_outcome : approval_wait_outcome := ApprovalWaitOutcome 0%N 0%N 0%N "" true.
Definition entered : store * approval_wait_outcome :=
  ok_or (ready_store, no_outcome)
    (enter_for_tool_step 201%N None sample_tool_policy sample_approval_policy (Some []) 10 ready_row ready_store).
Definition waiting_db : approval_db := with_store (λ _, entered.1) wait_db.
(** One vote, then a second of another user *)
Definition vote (id actor : uuid) (now : Z) (db : approval_db) : approval_db * res decision_outcome :=
  decide_vote sample_catalog sample_directory id (id + 100)%N 201%N actor APPROVE None now db.
Definition voted_once : approval_db := (vote 301%N 71%N 20 waiting_db).1.
Definition voted_twice : approval_db := (vote 302%N 72%N 30 voted_once).1.

(** A created execution in the queue *)
Definition created_store : store :=
  Store (set_ex_queued_at None (runtime_execution WORKFLOW_VERSION ExecutionStatus.CREATED (JObj workflow_policy)))
    [tool_row StepStatus.PENDING] [] [] [] [] [].
Definition created_queue : queue_db := QueueDb [created_store] [] [] [].
Definition sample_id (u : uuid) : uuid := (u + 1000)%N.
Definition staged_queue : queue_db := (ok_or (created_queue, 0%Z) (stage_created_batch sample_id 10 5 created_queue)).1.

(** The wait opens one request; the first vote leaves it PENDING, a second vote
    of the same user is refused, the second user's resolves it and stages the
    resume; 73 and 74 may not vote. *)
Example quorum_run :
  (ar_status <$> st_approvals entered.1) = [ApprovalStatus.PENDING] ∧
  ex_status (st_execution entered.1) = ExecutionStatus.WAITING_APPROVAL ∧
  (ar_status <$> st_approvals (db_store voted_once)) = [ApprovalStatus.PENDING] ∧
  (vote 303%N 71%N 25 voted_once).2 = Err (conflict "Actor has already decided on this ApprovalRequest.") ∧
  (vote 303%N 73%N 25 voted_once).2 = Err (auth_forbidden "Missing approval.decide permission.") ∧
  (vote 303%N 74%N 25 voted_once).2 = Err (auth_forbidden "Actor is not an ACTIVE user.") ∧
  (ar_status <$> st_approvals (db_store voted_twice)) = [ApprovalStatus.APPROVED] ∧
  (ox_event_type <$> db_outbox voted_twice) = ["EXECUTION_APPROVAL_RESUME"].
Proof. vm_compute. repeat split. Qed.

(** A relay whose broker refuses leaves the row for the next batch. *)
Example refused_broker :
  let rs := (publish_batch (λ _, Err (PyException "ConnectionError")) 10 6 (qd_outbox staged_queue)).1 in
  rl_sent rs = [] ∧ rl_failed rs = 1%Z ∧ (ox_published_at <$> rl_rows rs) = [None] ∧
  (publish_batch (λ _, Ok tt) 10 7 (rl_rows rs)).1.(rl_sent) = [PublishExecution 100%N 1100%N].
Proof. vm_compute. repeat split. Qed.

(** * A catalog under which a tool call goes through

    A published workflow with one TOOL step, its execution as the claim leaves
    it, and the catalog whose rows match the policy it pins: the destructive
    tool asks for two approvals, the read-only one for none. *)

Definition object_schema : json := JObj [("type", JStr "object")].

(** ** The two policies *)
Definition read_tool_policy : mcp_tool_policy :=
  {| mp_id := 63%N; mp_mcp_tool_id := 9%N; mp_risk_class := "READ_ONLY"; mp_requires_confirmation := false;
     mp_requires_approval := false; mp_approval_policy_id := None; mp_timeout_ms := 30000; mp_max_attempts := 3;
     mp_backoff_policy := JNull; mp_max_result_bytes := 65536; mp_allow_auto_select := false;
     mp_data_classification := None |}.
Definition pinned_of (tp : mcp_tool_policy) (ap : option approval_policy) : json :=
  JObj (build_workflow_execution_policy_snapshot 5%N 12%N [("tool_1", policy_entry 7%N (build_safe_tool_policy_snapshot tp ap))]).

Definition live_version : workflow_version :=
  let v := WorkflowVersion 12%N 5%N "PUBLISHED" "1.0" tool_plan_json JNull JNull JNull "VALID" "" in
  WorkflowVersion 12%N 5%N "PUBLISHED" "1.0" tool_plan_json JNull JNull JNull "VALID"
    (match workflow_version_content_hash v with Ok h => h | Err _ => "" end).
Definition catalog_of (tp : mcp_tool_policy) : catalog :=
  {| cat_servers := [MCPServer 41%N "STREAMABLE_HTTP" (Some "https://tools.example") JNull "NONE" None "ACTIVE" "CURRENT" None];
     cat_tools := [MCPTool 9%N 41%N "pets" "ACTIVE" (Some 7%N) None];
     cat_tool_versions := [MCPToolVersion 7%N 9%N object_schema JNull "VALID"];
     cat_tool_policies := [tp]; cat_approval_policies := [sample_approval_policy];
     cat_agent_versions := []; cat_grants := []; cat_workflows := [Workflow 5%N "ACTIVE" None];
     cat_workflow_versions := [live_version];
     cat_occurrences := []; cat_schedules := []; cat_validations := []; cat_clarifications := [];
     cat_authorization := λ _ _ _ _, AuthorizationSnapshot true true true true |}.
Definition approval_catalog : catalog := catalog_of sample_tool_policy.
Definition read_catalog : catalog := catalog_of read_tool_policy.

(** ** The execution as the claim of worker w1 leaves it *)
Definition leased (e : execution) : execution :=
  e |> set_ex_worker_id (Some "w1") |> set_ex_lease_token (Some 51%N) |> set_ex_lease_expires_at (Some 60000000%Z)
    |> set_ex_heartbeat_at (Some 2%Z) |> set_ex_started_at (Some 2%Z).
Definition claimed_store (tp : mcp_tool_policy) (ap : option approval_policy) : store :=
  Store (leased (runtime_execution WORKFLOW_VERSION ExecutionStatus.RUNNING (pinned_of tp ap)))
    [tool_row StepStatus.READY] [] [] [] [] [].
Definition approval_store : store := claimed_store sample_tool_policy (Some sample_approval_policy).
Definition read_store : store := claimed_store read_tool_policy None.

(** Waiting for the two approvals, then approved *)
Definition pinned_ready (st : store) : store := upd_step 1%N (set_es_resolved_input (JObj [])) st.
Definition live_wait : store * approval_wait_outcome :=
  ok_or (approval_store, no_outcome)
    (enter_for_tool_step 201%N None sample_tool_policy sample_approval_policy (Some []) 10
       (set_es_resolved_input (JObj []) (tool_row StepStatus.READY)) (pinned_ready approval_store)).
Definition live_vote (id actor : uuid) (now : Z) (db : approval_db) : approval_db :=
  (decide_vote approval_catalog sample_directory id (id + 100)%N 201%N actor APPROVE None now db).1.
Definition live_start : approval_db := ApprovalDb (pinned_ready approval_store) [] [] [].
Definition live_waiting : approval_db := with_store (λ _, live_wait.1) live_start.
Definition live_once : approval_db := live_vote 301%N 71%N 20 live_waiting.
Definition live_approved : approval_db := live_vote 302%N 72%N 30 live_once.

(** ** Runs *)
(** A JSON Schema package that accepts everything *)
#[export] Instance accept_all : SchemaValidator :=
  {| check_schema := λ _, true; schema_error_paths := λ _ _, []; draft_2020_12_invalid := λ _ _, Ok false |}.

Definition run_args (k : N) (now : Z) : prepare_args :=
  PrepareArgs "w1" 51%N false true false now 65536 (k + 1)%N (k + 2)%N (k + 3)%N (k + 4)%N.
(** A round during which nobody else changes a row *)
Definition quiet_round (c : catalog) (k : N) (now : Z) (reply : remote_reply) : tool_round :=
  ToolRound (run_args k now) c (λ _, Ok None) (λ st, st) c (now + 1) (λ _ _, Ok reply) (λ st, st) (k + 5)%N (now + 2) (λ st, st).
Definition flaky : remote_reply := RemoteError (MCPClientError "TRANSPORT" "MCP_CONNECTION_FAILED" "connection reset" true false false).
Definition answer_with (text : string) : remote_reply :=
  RemoteResult (NormalizedToolResult true false [JStr text] JNull [] 40 12 None) (JObj [("status", JInt 200)]) (Some 105%Z).
Definition read_rounds : list tool_round :=
  [quiet_round read_catalog 400 100 flaky; quiet_round read_catalog 410 200 (answer_with "two cats");
   quiet_round read_catalog 420 300 (answer_with "three cats")].
Abbreviation read_run := (run_claimed_tool_step 100%N 1%N read_rounds read_store).

(** The first prepared call *)
Definition no_call : prepared_call :=
  PreparedCall 0%N 0%N 0%N 0%N "" 0%N 0%N "" "" 0 0 [] "" None "" "" "" JNull 0 "" 0%N false None false false.
Definition prepared_store : store :=
  match prepare read_catalog (run_args 400 100) 100%N 1%N read_store with Ok (st, _) => st | Err _ => read_store end.
Definition sample_call : prepared_call :=
  match prepare read_catalog (run_args 400 100) 100%N 1%N read_store with Ok (_, Prepared p) => p | _ => no_call end.

(** A failed call is tried again, the second succeeds, the third round is not used. *)
Example read_run_result :
  (length (tn_sent read_run), (λ c, (cl_id c, cl_normalized_status c)) <$> st_calls (tn_store read_run),
   es_status <$> st_steps (tn_store read_run))
  = (2%nat, [(403%N, AttemptStatus.FAILED); (413%N, AttemptStatus.SUCCEEDED)], [StepStatus.SUCCEEDED]).
Proof. vm_compute. reflexivity. Qed.
