(* ===== verification/Witnesses.v ===== *)
(** The theorems about plans, data and the rows of an execution, at concrete inputs. *)
From S2P Require Import Prelude PyStr PyDict Json JsonStrict JsonPointer PyUuid CanonicalHash Domain SchemaExample.
From S2P Require Import LoopRuntime Completion Kahn DagValidate DagLoops DagSchedule BindingResolver PredicateEvaluator.
From S2P Require Import Rows Cancellation CancelSound PolicySelection RetryDecision Claim Recovery RecoverySound.
From S2P Require Import SecretRedaction StaticValidator StaticSound Samples.

(** * Concrete instances of the properties

    Each property with a hypothesis is applied here to the sample execution
    (Samples.v) or to a small literal input at which its hypotheses hold. *)

(** Discharge a hypothesis that computes *)
Local Ltac in_rows := unfold sample_rows; rewrite !elem_of_cons; tauto.

(** ** The runtime DAG *)



Definition chain : dict (list string) := [("a", []); ("b", ["a"])].
Definition chain_dependents : dict (list string) := [("a", ["b"]); ("b", [])].



Lemma validated_while_control_witness :
  ∃ cfg, lc_mode cfg = LoopMode.WHILE ∧ while_control_ok r_loop sample_plan sample_rows cfg.
Proof.
  assert (is_Some (validate_loop_config (ps_config s_loop))) as [cfg Hcfg] by (vm_compute; eauto).
  assert (lc_mode cfg = LoopMode.WHILE) as Hmode.
  { assert (lc_mode <$> validate_loop_config (ps_config s_loop) = Some LoopMode.WHILE) as Hm
      by by_computation.
    rewrite Hcfg in Hm. by simplify_eq/=. }
  exists cfg. split; [exact Hmode|].
  apply (validated_while_control sample_plan sample_rows sample_dag r_loop s_loop cfg).
  - by_computation.
  - in_rows.
  - done.
  - done.
  - by_computation.
  - exact Hcfg.
  - exact Hmode.
Defined.

(** ** Loop runtime *)

Lemma build_loop_body_ownership_sound_witness :
  ∃ own, build_loop_body_ownership sample_plan = Ok own ∧
    ∀ b l, dict_get b (body_to_loop own) = Some l ↔
           ∃ bs, dict_get l (loop_to_body own) = Some bs ∧ b ∈ bs.
Proof.
  exists (LoopBodyOwnership [("body", "loop")] [("loop", ["body"])]).
  split; [by_computation|].
  apply (build_loop_body_ownership_sound sample_plan).
  - by_decision.
  - by_computation.
Defined.

Lemma assert_flat_foreach_runtime_compatible_sound_witness :
  ∃ body, body ∈ pl_steps sample_plan ∧ ps_id body = "body" ∧
    ps_type body ∈ [StepType.TOOL; StepType.CONDITION; StepType.JOIN].
Proof.
  apply (assert_flat_foreach_runtime_compatible_sound sample_plan
           (LoopBodyOwnership [("body", "loop")] [("loop", ["body"])])) with (l := "loop") (bs := ["body"]).
  - by_computation.
  - done.
  - by_decision.
Defined.

Lemma iteration_step_key_inj_witness :
  iteration_step_key 2%N 1 "body" = Ok body_key ∧
  (2%N = 2%N ∧ 1%Z = 1%Z ∧ sha256_hex "body" = sha256_hex "body").
Proof.
  assert (iteration_step_key 2%N 1 "body" = Ok body_key) as Hk by by_computation.
  split; [exact Hk|].
  apply (iteration_step_key_inj 2%N 1 "body" 2%N 1 "body" body_key); [done|done|exact Hk|exact Hk].
Defined.

Lemma iteration_step_key_fits_witness : String.length body_key <= 128.
Proof.
  apply (iteration_step_key_fits 2%N 1 "body"); [lia|by_computation].
Defined.

Lemma append_or_replay_while_history_spec_witness :
  append_or_replay_while_history (while_control_json sample_history) 2 (JStr zero_digest) false
  = Ok sample_history.
Proof.
  apply (append_or_replay_while_history_spec _ sample_history); [by_computation|].
  exists zero_digest. split; [done|]. split; [by_computation|]. right. split; [lia|]. done.
Defined.

Lemma build_previous_iteration_projection_sound_witness :
  ∃ j m, build_previous_iteration_projection sample_rows 2%N 1 ["body"] (Some sample_plan) = Ok j ∧
    j = JObj [("iteration_no", JInt 1); ("steps", JObj (dict_of_pairs m))] ∧ length m = 1%nat.
Proof.
  set (body_entry := JObj [("status", JStr "SUCCEEDED"); ("condition_result", JNull); ("error_code", JNull);
                           ("result_inline", JInt 9)]).
  set (j := JObj [("iteration_no", JInt 1); ("steps", JObj [("body", body_entry)])]).
  destruct (build_previous_iteration_projection_sound sample_rows 2%N 1 ["body"] sample_plan j)
    as (m & Hj & _ & _ & Hall); [by_computation|].
  apply Forall2_length in Hall.
  exists j, m. split; [by_computation|]. exact (conj Hj (eq_sym Hall)).
Defined.

(** ** Completion *)

Definition done_rows : list execution_step :=
  [r_fetch; r_loop; r_body;
   row 4%N "check" s_check None None None StepStatus.SUCCEEDED JNull (JBool true);
   row 5%N "join" s_join None None None StepStatus.SUCCEEDED JNull JNull].

Lemma succeeded_execution_required_steps_witness :
  ∃ s, s ∈ done_rows ∧ es_step_key s = "join" ∧ es_parent_step_id s = None ∧
    (es_status s = StepStatus.SUCCEEDED ∨ is_intentional_conditional_skip_for_completion s = true).
Proof.
  apply (succeeded_execution_required_steps sample_plan done_rows
           (CompletionDecision ExecutionStatus.SUCCEEDED None None) [s_fetch; s_loop; s_check; s_join] s_join).
  - by_computation.
  - done.
  - by_computation.
  - rewrite !elem_of_cons. tauto.
  - done.
Defined.

Lemma skip_remaining_pending_spec_witness :
  ∃ rows', skip_remaining_pending ["fetch"; "loop"; "check"; "join"] "loop" sample_by_key 9
           = Ok (rows', ["check"; "join"])
    ∧ dict_get "join" rows' = Some (skip_step 9 r_join).
Proof.
  destruct (skip_remaining_pending_spec ["fetch"] ["check"; "join"] "loop" sample_by_key 9)
    as (rows' & Hrun & Hget).
  - by_decision.
  - intros k Hk. revert k Hk. apply Forall_forall. by_decision.
  - exists rows'. split; [exact Hrun|]. rewrite Hget. reflexivity.
Defined.

(** ** Bindings *)

Lemma transitive_ancestors_spec_witness :
  ∃ cache s, transitive_ancestors sample_plan = Ok cache ∧ dict_get "join" cache = Some s ∧
    ∀ x, x ∈ s ↔ ancestor (plan_deps sample_plan) "join" x.
Proof.
  destruct (transitive_ancestors_spec sample_plan ["fetch"; "loop"; "body"; "check"; "join"])
    as (cache & Hrun & Hget).
  - by_decision.
  - destruct (Hget "join") as (s & Hs & Hx); [by_decision|]. by exists cache, s.
Defined.

Lemma canonicalize_secret_ref_idempotent_witness :
  canonicalize_secret_ref_value (secret_ref_resolved 77%N) = Ok (secret_ref_resolved 77%N)
  ∧ is_secret_ref_value (secret_ref_resolved 77%N) = true.
Proof.
  destruct (canonicalize_secret_ref_idempotent
              (JObj [("secret_id", JStr "urn:uuid:0000000000000000000000000000004D"); ("kind", JStr SECRET_REF)])
              (secret_ref_resolved 77%N)) as (Hc & Hs & _).
  - by_computation.
  - exact (conj Hc Hs).
Defined.

Lemma resolve_plan_input_secret_safe_witness :
  ∃ v u, resolve_plan_input sample_execution sample_plan "/token" false = Ok (Some v) ∧
    uuid_ok u ∧ v = secret_ref_resolved u.
Proof.
  destruct (resolve_plan_input_secret_safe sample_execution sample_plan "/token" false (secret_ref_resolved 77%N))
    as [Hpath _]; [by_computation|].
  destruct (Hpath ltac:(done) (PlanInputDefinition "string" true true)) as (u & Hu & Hv);
    [by_computation|done|].
  exists (secret_ref_resolved 77%N), u. split; [by_computation|]. exact (conj Hu Hv).
Defined.

Lemma resolve_step_output_safe_witness :
  ∃ s, s ∈ dict_values sample_by_key ∧ es_status s = StepStatus.SUCCEEDED ∧
    resolve_json_pointer (es_result_inline s) "/x" = Ok (Some (JInt 4)).
Proof.
  destruct (resolve_step_output_safe "fetch" "/x" r_body sample_by_key sample_plan sample_ancestors false
              (JInt 4)) as (s & ps & Hin & Hst & _ & Hptr & _); [by_computation|].
  exists s. exact (conj Hin (conj Hst Hptr)).
Defined.

(** ** Predicates *)

Lemma json_strict_equal_decides_witness :
  ∃ b, json_strict_equal (JArr [JInt 1; JBool true]) (JArr [JFloat (SpecFloat.S754_finite false 4503599627370496 (-52)); JBool true]) = Ok b ∧
    (b = true ↔ json_sim (JArr [JInt 1; JBool true]) (JArr [JFloat (SpecFloat.S754_finite false 4503599627370496 (-52)); JBool true])).
Proof.
  destruct (json_strict_equal_decides (JArr [JInt 1; JBool true]) (JArr [JFloat (SpecFloat.S754_finite false 4503599627370496 (-52)); JBool true]))
    as [(b & Hb & _ & Hsim) _]; [done|done|done|done|].
  exists b. exact (conj Hb Hsim).
Defined.

Lemma ordered_compare_trichotomy_witness :
  ∃ lt gt, ordered_compare OLT (JInt 1) (JInt 2) = Ok lt ∧ ordered_compare OGT (JInt 1) (JInt 2) = Ok gt.
Proof.
  destruct (ordered_compare_trichotomy (JInt 1) (JInt 2)) as [(lt & eq0 & gt & Hlt & _ & Hgt & _)|[Hno _]];
    [done|done|done|by exists lt, gt|discriminate Hno].
Defined.

Lemma membership_is_strict_equality_witness :
  ∃ b, compare_values PredicateOperator.IN (JInt 1) (JArr [JBool true; JStr "1"]) = Ok b ∧
    (b = true ↔ ∃ y, y ∈ [JBool true; JStr "1"] ∧ json_sim (JInt 1) y).
Proof.
  destruct (membership_is_strict_equality (JInt 1) [JBool true; JStr "1"]) as (b & Hb & _ & Hiff);
    [done|done|done|done|].
  exists b. exact (conj Hb Hiff).
Defined.

Definition sample_env : eval_env :=
  EvalEnv sample_execution r_check sample_by_key sample_plan sample_ancestors None.

Lemma eval_comparison_no_secret_witness :
  ∃ l r, resolve_operand sample_env (PlanStepOutputBinding "fetch" "/x") = Ok (Some l) ∧
    resolve_operand sample_env (PlanLiteralBinding (JInt 5)) = Ok (Some r) ∧
    is_secret_ref_value l = false ∧ is_secret_ref_value r = false.
Proof.
  destruct (eval_comparison_no_secret sample_env PredicateOperator.LT
              (PlanStepOutputBinding "fetch" "/x") (PlanLiteralBinding (JInt 5)) true)
    as (_ & _ & l & r & Hl & Hr & Hsl & Hsr & _); [by_computation|].
  exists l, r. exact (conj Hl (conj Hr (conj Hsl Hsr))).
Defined.

(** ** The static validator *)
Definition no_text (_ : plan_step) : string := "".

Lemma static_validate_sound_witness :
  NoDup (ps_id <$> pl_steps sample_plan) ∧ ∃ o, topological (plan_deps sample_plan) o.
Proof.
  destruct (static_validate_sound no_text sample_plan) as (_ & Hnd & _ & Ho & _).
  - by_computation.
  - exact (conj Hnd Ho).
Defined.

Definition bound_ownership : loop_body_ownership := LoopBodyOwnership [] [].

Lemma static_bindings_scoped_witness : ancestor (plan_deps bound_plan) "use" "fetch".
Proof.
  destruct (static_bindings_scoped no_text bound_plan bound_ownership s_use "fetch" "/x") as (_ & _ & _ & Ha).
  - by_computation.
  - by_computation.
  - right. left.
  - vm_compute. left.
  - exact Ha.
Defined.

(** ** Redaction *)
Lemma sanitize_leaves_no_secret_witness :
  ∃ value', sanitize_for_persistence (JObj [("hunter2", JStr "x hunter2 y")]) ["hunter2"] = Ok value' ∧
    contains_protected_plaintext value' ["hunter2"] = false.
Proof.
  destruct (sanitize_leaves_no_secret (JObj [("hunter2", JStr "x hunter2 y")]) ["hunter2"])
    as (v & Hs & Hc & _).
  - intros s ->%list_elem_of_singleton. reflexivity.
  - done.
  - exact (ex_intro _ v (conj Hs Hc)).
Defined.

Lemma sanitize_clean_unchanged_witness :
  sanitize_for_persistence (JObj [("a", JStr "b")]) ["hunter2"] = Ok (JObj [("a", JStr "b")]).
Proof.
  apply (sanitize_clean_unchanged (JObj [("a", JStr "b")]) ["hunter2"]).
  - reflexivity.
  - reflexivity.
Defined.

(** * Concrete instances of the runtime properties

    Each property of the claim, policy, recovery and cancellation files with a
    hypothesis, applied to the stores of Samples.v; and a run that shows
    where the code departs from its own rule. *)

Local Ltac wf := apply store_wf_bool_sound; vm_compute; reflexivity.


(** ** Policy selection *)
Lemma workflow_step_policy_sound_witness :
  ∃ step cfg, step ∈ pl_steps tool_plan ∧ ps_id step = "tool_1" ∧
    validate_tool_config (ps_config step) = Some cfg ∧ uuid_str (tc_tool_version_id cfg) = uuid_str 7%N.
Proof.
  destruct (workflow_step_policy_sound (st_execution queued_store) workflow_policy "tool_1" 7%N tool_policy)
    as (p & wid & vid & step & cfg & ts & entry & Hp & _ & _ & _ & _ & Hin & _ & Hid & Hc & Ht & _).
  - by_computation.
  - assert (Some p = Some tool_plan) as [= ->] by (rewrite <- Hp; vm_compute; reflexivity).
    exists step, cfg. exact (conj Hin (conj Hid (conj Hc Ht))).
Defined.

Lemma build_policy_roundtrip_witness :
  get_expected_tool_policy_snapshot (st_execution queued_store) "tool_1" 7%N = Ok tool_policy.
Proof.
  apply (build_policy_roundtrip (st_execution queued_store) tool_plan 5%N 12%N
           [("tool_1", policy_entry 7%N tool_policy)] s_tool (ComplexToolStepConfigV1 7%N []) tool_policy).
  - reflexivity.
  - reflexivity.
  - by_decision.
  - by_decision.
  - by_computation.
  - reflexivity.
  - reflexivity.
  - intros k. reflexivity.
  - intros s Hs. apply list_elem_of_singleton in Hs as ->.
    exists (ComplexToolStepConfigV1 7%N []), tool_policy. split; [by_computation|]. split; [by_decision|reflexivity].
  - left.
  - by_computation.
  - reflexivity.
Defined.

(** ** Retry *)
Definition lost_reply : mcp_client_error :=
  MCPClientError "TRANSPORT" "MCP_CONNECTION_LOST" "lost" true true false.

Lemma unknown_outcome_never_retried_witness :
  schedule_retry (decide_safe_transient_retry (Some lost_reply) (classify_mcp_failure lost_reply "DESTRUCTIVE")
    "DESTRUCTIVE" 0 3 JNull None None 5) = false.
Proof. apply (unknown_outcome_never_retried lost_reply "DESTRUCTIVE"). reflexivity. Defined.

(** ** Recovery *)
Definition tool_of_version (v : uuid) : option uuid := if bool_decide (v = 7%N) then Some 9%N else None.
Definition no_workflow (_ : string) (_ : Z) (st : store) : res (store * recovery_outcome) := Ok (st, no_op "none").
Definition recover_crashed : res (store * recovery_outcome) :=
  recover tool_of_version no_workflow 60 "w2" 52%N 60 true crashed_store.

Lemma crashed_calls_live : started_calls_live crashed_store.
Proof.
  intros c a Hc _ Ha _. apply list_elem_of_singleton in Hc as ->. apply list_elem_of_singleton in Ha as ->. done.
Qed.

Lemma recover_progress_witness :
  ∃ st' o, recover_crashed = Ok (st', o) ∧ ro_decision o = RD_UNKNOWN_OUTCOME ∧ given_up 60 st'.
Proof.
  destruct recover_crashed as [[st' o]|] eqn:E; [|vm_compute in E; discriminate E].
  pose proof (recover_progress tool_of_version no_workflow 60 "w2" "w2" 52%N 60 crashed_store) as H.
  unfold recover_crashed in E. rewrite E in H.
  assert (ro_invoke_runner o = false ∧ ro_decision o = RD_UNKNOWN_OUTCOME) as [Ho Hd]
    by (vm_compute in E; injection E as <- <-; split; reflexivity).
  rewrite Ho in H. exists st', o. split; [reflexivity|]. split; [exact Hd|].
  apply H; try (vm_compute; reflexivity); [wf|exact crashed_calls_live].
Defined.

Lemma recover_never_repeats_unknown_witness :
  ∃ st' o, recover_crashed = Ok (st', o) ∧ repeats_safely tool_of_version crashed_store o st'.
Proof.
  destruct recover_crashed as [[st' o]|] eqn:E; [|vm_compute in E; discriminate E].
  exists st', o. split; [reflexivity|].
  apply (recover_never_repeats_unknown tool_of_version no_workflow 60 "w2" "w2" 52%N 60 crashed_store);
    try (vm_compute; reflexivity); try exact E.
  - wf.
  - exact crashed_calls_live.
  - intros Hn. apply (Hn started_call); [left|reflexivity].
Defined.

(** ** Cancellation *)
Lemma recover_cancel_never_hides_unknown_witness :
  ∃ st' o, recover_expired_cancel_requested_locked 60 cancelled_store = Ok (st', o) ∧
    settled cancelled_store st' ∧ none_started st'.
Proof.
  destruct (recover_cancel_never_hides_unknown 60 cancelled_store) as (st' & o & H1 & H2 & H3 & _).
  - wf.
  - reflexivity.
  - exists st', o. exact (conj H1 (conj H2 H3)).
Defined.


(** A RUNNING execution with a step of unknown outcome and no call in flight,
    as a failed call of another branch leaves it, is cancelled at once: the
    unknown outcome is on the rows, the execution ends CANCELLED. *)
Definition unknown_store : store :=
  Store (st_execution crashed_store)
    [tool_row StepStatus.UNKNOWN_OUTCOME]
    [started_attempt |> set_sa_status AttemptStatus.UNKNOWN_OUTCOME]
    [started_call |> set_cl_normalized_status AttemptStatus.UNKNOWN_OUTCOME] [] [] [].

Example cancellation_hides_unknown :
  ambiguous unknown_store ∧
  ∃ st' o, apply_cancellation_locked 60 (Some 11%N) None unknown_store = Ok (st', o) ∧
    ex_status (st_execution st') = ExecutionStatus.CANCELLED ∧ ambiguous st'.
Proof.
  assert (∀ st s, head (st_steps st) = Some s → es_status s = StepStatus.UNKNOWN_OUTCOME → ambiguous st) as Ha.
  { intros st s Hs Hu. right. right. exists s. split; [|done]. destruct (st_steps st); [done|]. injection Hs as ->. left. }
  split; [by eapply Ha|].
  destruct (apply_cancellation_locked 60 (Some 11%N) None unknown_store) as [[st' o]|] eqn:E;
    [|vm_compute in E; discriminate E].
  exists st', o. split; [done|]. vm_compute in E. injection E as <- <-. split; [done|]. by eapply Ha.
Qed.

(** An expired execution of an agent schedule is routed to the agent path and
    fails there as inconsistent evidence, healthy rows included. *)
Definition scheduled_execution : execution :=
  let e := st_execution crashed_store in
  Execution (ex_id e) SCHEDULE_OCCURRENCE (ex_trigger_type e) (ex_requester_id e) (Some 13%N) (Some 14%N) None
    (Some 15%N) None (Some 16%N) ExecutionStatus.RUNNING (ex_plan_schema_version e) (ex_plan_snapshot e)
    (ex_plan_hash e) (ex_input_snapshot e) (ex_policy_snapshot e) JNull None None None None 0 (ex_queued_at e)
    (ex_started_at e) None None None None (ex_worker_id e) (ex_lease_token e) (ex_lease_expires_at e)
    (ex_heartbeat_at e) 1 None.
Definition scheduled_store : store :=
  Store scheduled_execution [set_es_attempt_count 0 (tool_row StepStatus.READY)] [] [] [] [] [].

Example agent_schedule_not_recovered :
  is_agent_schedule_occurrence scheduled_execution = true ∧
  (∀ step, list_steps scheduled_store = [step] →
     decide_recovery tool_of_version scheduled_store step = Ok TAKEOVER_READY) ∧
  ∃ st' o, recover tool_of_version no_workflow 60 "w2" 52%N 60 true scheduled_store = Ok (st', o) ∧
    ro_decision o = FAIL_INCONSISTENT ∧ ex_status (st_execution st') = ExecutionStatus.FAILED.
Proof.
  split; [done|]. split; [intros step [= <-]; by vm_compute|].
  destruct (recover tool_of_version no_workflow 60 "w2" 52%N 60 true scheduled_store) as [[st' o]|] eqn:E;
    [|vm_compute in E; discriminate E].
  exists st', o. split; [done|]. vm_compute in E. injection E as <- <-. done.
Qed.
