(* ===== verification/RecoveryWitnesses.v ===== *)
(** The theorems about recovery, the orchestrator and LOOPs, at concrete inputs. *)
From S2P Require Import Prelude PyStr PyDict Json PyUuid CanonicalHash Domain SchemaExample LoopRuntime DagValidate.
From S2P Require Import DagLoops DagSchedule BindingResolver Rows Cancellation CancelSound PolicySelection.
From S2P Require Import RetryDecision LoopReconcile LoopReconcileSound ToolLineage Claim Preflight Transaction Recovery.
From S2P Require Import RecoverySound WorkflowRecovery WorkflowRecoverySound ToolRunner Orchestrator OrchestratorLocal.
From S2P Require Import OrchestratorWave OrchestratorSound OrchestratorWaveSound OrchestratorRunSound Samples.

(** * Concrete instances of the workflow recovery

    A workflow of two parallel tools that are safe to repeat, crashed with both
    calls in flight: taken over by the recovery when attempts are left; and,
    when those of one tool are used up, a run that shows what the failure of
    the execution leaves behind. *)

(** ** The crashed workflow *)
Definition s_other : plan_step :=
  plan_step_of "tool_2" StepType.TOOL [] PlanOnError.FAIL_EXECUTION (tool_conf 7%N []).
Definition parallel_plan_json : json := plan_json (workflow_source 5%N) [s_tool; s_other].
Definition read_policy : dict json :=
  [("risk_class", JStr "READ_ONLY"); ("max_attempts", JInt 3); ("mcp_tool_id", JStr (uuid_str 9%N))].
Definition parallel_policy : json :=
  JObj (build_workflow_execution_policy_snapshot 5%N 12%N
    [("tool_1", policy_entry 7%N read_policy); ("tool_2", policy_entry 7%N read_policy)]).
Definition running_row (id : uuid) (key : string) (ps : plan_step) (attempts : Z) : execution_step :=
  set_es_attempt_count attempts (row id key ps (Some 7%N) None None StepStatus.RUNNING JNull JNull).
(** The first tool has used [attempts] of its three attempts. *)
Definition crashed_workflow (attempts : Z) : store :=
  Store (execution_of parallel_plan_json WORKFLOW_VERSION ExecutionStatus.RUNNING parallel_policy
           |> set_ex_worker_id (Some "w1") |> set_ex_lease_token (Some 51%N) |> set_ex_lease_expires_at (Some 50%Z))
    [running_row 1%N "tool_1" s_tool attempts; running_row 2%N "tool_2" s_other 1]
    [attempt_in_flight 21%N 1%N; attempt_in_flight 22%N 2%N] [call_in_flight 31%N 21%N; call_in_flight 32%N 22%N] [] [] [].
Local Notation "'recover_crashed_workflow' attempts" :=
  (recover_expired sample_catalog 60 "w2" 52%N 60 true (crashed_workflow attempts)) (at level 10, attempts at level 9).

Definition summary (r : store * recovery_outcome) :=
  (ro_decision r.2, ex_status (st_execution r.1), es_status <$> st_steps r.1, sa_status <$> st_attempts r.1,
   cl_normalized_status <$> st_calls r.1).
Example crashed_workflow_retried :
  summary <$> recover_crashed_workflow 1 =
  Ok (RD_SAFE_RETRY, ExecutionStatus.RUNNING, [StepStatus.READY; StepStatus.READY],
      [AttemptStatus.FAILED; AttemptStatus.FAILED], [AttemptStatus.FAILED; AttemptStatus.FAILED]).
Proof. vm_compute. reflexivity. Qed.

(** The failure for used up attempts leaves the other tool RUNNING, its
    attempt and its call STARTED, in an execution that is FAILED. *)
Example exhausted_leaves_sibling_running :
  summary <$> recover_crashed_workflow 3 =
  Ok (FAIL_EXHAUSTED, ExecutionStatus.FAILED, [StepStatus.FAILED; StepStatus.RUNNING],
      [AttemptStatus.FAILED; AttemptStatus.STARTED], [AttemptStatus.FAILED; AttemptStatus.STARTED]).
Proof. vm_compute. reflexivity. Qed.

Lemma crashed_calls_run : calls_in_flight_run (crashed_workflow 1).
Proof.
  intros c Hc _. apply elem_of_cons in Hc as [->|Hc]; [|apply list_elem_of_singleton in Hc as ->].
  - exists (attempt_in_flight 21%N 1%N), (running_row 1%N "tool_1" s_tool 1). split_and!; try done; left.
  - exists (attempt_in_flight 22%N 2%N), (running_row 2%N "tool_2" s_other 1). split_and!; try done; right; left.
Qed.

Lemma crashed_supported : plan_supports_workflow_running_recovery parallel_plan_json = Ok true.
Proof. vm_compute. reflexivity. Qed.
Lemma crashed_retried : ∃ st' o, recover_crashed_workflow 1 = Ok (st', o) ∧ ro_decision o = RD_SAFE_RETRY.
Proof.
  pose proof crashed_workflow_retried as H. destruct (recover_crashed_workflow 1) as [[st' o]|]; [|discriminate H].
  exists st', o. split; [reflexivity|]. cbn in H. by injection H.
Qed.
Lemma crashed_workflow_wf : store_wf (crashed_workflow 1).
Proof. apply store_wf_bool_sound. vm_compute. reflexivity. Qed.

Lemma workflow_recovery_progress_witness :
  ∃ st' o, recover_crashed_workflow 1 = Ok (st', o) ∧ ro_decision o = RD_SAFE_RETRY ∧
    dag_recovered 60 "w2" 52%N 60 (crashed_workflow 1) (st', o).
Proof.
  destruct crashed_retried as (st' & o & E & Hd). exists st', o. split; [exact E|]. split; [exact Hd|].
  pose proof (workflow_recovery_progress sample_catalog 60 "w2" "w2" 52%N 60 (crashed_workflow 1) crashed_workflow_wf
    crashed_calls_run) as H.
  rewrite E in H. apply H.
  - reflexivity.
  - reflexivity.
  - reflexivity.
  - left.
  - reflexivity.
  - exact crashed_supported.
Defined.

(** * Concrete runs of the orchestrator

    A workflow with tools on both sides of a FOR_EACH loop, a CONDITION and a
    JOIN, run from its claim to its end; one whose WHILE loop reaches its
    bound; and one whose tool has an unknown outcome. *)

(** ** A workflow *)
Definition s_for_each : plan_step :=
  plan_step_of "loop" StepType.LOOP ["fetch"] PlanOnError.FAIL_EXECUTION
    [("mode", JStr "FOR_EACH"); ("max_iterations", JInt 3); ("body_step_ids", JArr [JStr "body"]);
     ("collection", literal (JArr [JStr "a"; JStr "b"]))].
Definition each_steps : list plan_step := [s_fetch; s_for_each; s_body; s_check; s_join].
Definition each_plan_json : json := plan_json (workflow_source 5%N) each_steps.
Definition each_policy : json :=
  JObj (build_workflow_execution_policy_snapshot 5%N 12%N
    [("fetch", policy_entry 7%N read_policy); ("body", policy_entry 8%N read_policy)]).
Definition started (plan : json) (policy : json) (steps : list execution_step) : store :=
  Store (execution_of plan WORKFLOW_VERSION ExecutionStatus.RUNNING policy
           |> set_ex_worker_id (Some "w1") |> set_ex_lease_token (Some 51%N) |> set_ex_lease_expires_at (Some 500%Z))
    steps [] [] [] [] [].
Definition pending_row (id : uuid) (key : string) (ps : plan_step) (tv : option uuid) : execution_step :=
  row id key ps tv None None StepStatus.PENDING JNull JNull.
Definition each_store : store :=
  started each_plan_json each_policy
    [pending_row 1%N "fetch" s_fetch (Some 7%N); pending_row 2%N "loop" s_for_each None; pending_row 4%N "check" s_check None;
     pending_row 5%N "join" s_join None].

(** ** Tools that end as they are told *)
Definition ended_tool (status : step_status) (s : execution_step) : execution_step :=
  if is_terminal_step_status (es_status s) then s
  else s |> set_es_status status |> set_es_result_inline (JObj [("x", JInt 4)]) |> set_es_finished_at (Some 9%Z) |> bump_step.
Definition tools_end (status : step_status) (flags : wave_flags) (ids : list uuid) (st : store)
    : store * (uuid → tool_run_outcome) :=
  (set_st_steps (upd_where (λ s, es_id s ∈ ids) (ended_tool status) (st_steps st)) st,
   λ id, ToolRunOutcome 100%N (Some id) None None true (Some (step_status_value status)) "DONE" Disposition.NOOP).
Definition wave (status : step_status) (at_ : Z) : wave_inputs :=
  WaveInputs (λ i, N.of_nat (1000 + i)) 900%N at_ (at_ + 5) (tools_end status).


Definition run_summary (r : store * run_result) :=
  (ex_status (st_execution r.1), ex_lease_token (st_execution r.1),
   match r.2 with inl o => Some (tr_reason o, tr_terminal_status o) | inr _ => None end).
(** A tool, two iterations of a body tool beside a CONDITION, and the JOIN *)
Example each_succeeds :
  run_summary <$> run sample_catalog "w1" 51%N
    [wave StepStatus.SUCCEEDED 10; wave StepStatus.SUCCEEDED 20; wave StepStatus.SUCCEEDED 30] None each_store
  = Ok (ExecutionStatus.SUCCEEDED, None, Some (EXECUTION_SUCCEEDED, Some "SUCCEEDED")).
Proof. vm_compute. reflexivity. Qed.

(** ** Stores of the waves *)
Definition rows_ok_bool (st : store) : bool := store_wf_bool st && bool_decide (NoDup (es_step_key <$> st_steps st)).
Lemma rows_ok_bool_sound st : rows_ok_bool st = true → rows_ok st.
Proof. intros [H1 H2%bool_decide_eq_true]%andb_true_iff. split; [by apply store_wf_bool_sound|done]. Qed.
Lemma each_rows_ok : rows_ok each_store.
Proof. apply rows_ok_bool_sound. vm_compute. reflexivity. Qed.

Local Notation "'prepare_each' now" :=
  (commit (prepare_wave sample_catalog "w1" 51%N (λ i, N.of_nat (1000 + i)) 900%N now) each_store) (at level 10, now at level 9).
Lemma each_prepared : ∃ st' o, prepare_each 10%Z = Ok (st', o) ∧ po_ready_step_ids o = [1%N].
Proof.
  assert ((λ r, po_ready_step_ids r.2) <$> prepare_each 10%Z = Ok [1%N]) as H by (vm_compute; reflexivity).
  destruct (prepare_each 10%Z) as [[st' o]|]; [|discriminate H]. injection H as H. by exists st', o.
Qed.
Lemma each_not_cancelled : ex_status (st_execution each_store) ≠ ExecutionStatus.CANCEL_REQUESTED.
Proof. discriminate. Qed.

Lemma prepare_wave_safe_witness :
  ∃ st' o, prepare_each 10%Z = Ok (st', o) ∧ po_ready_step_ids o = [1%N] ∧
    (st' = each_store ∨
     (holds_lease "w1" 51%N 10 (st_execution each_store) = true ∧ carried_on 10 each_store o st')).
Proof.
  destruct each_prepared as (st' & o & E & Ho). exists st', o. split; [exact E|]. split; [exact Ho|].
  exact (prepare_wave_safe sample_catalog "w1" 51%N (λ i, N.of_nat (1000 + i)) 900%N 10 each_store st' o each_rows_ok
    each_not_cancelled E).
Defined.

(** Two tools that both are ready to start, one slot *)
Definition pair_dag : tool_join_dag := ToolJoinDag ["fetch"; "other"] ["fetch"; "other"] 1 [] [("fetch", []); ("other", [])].
Definition pair_store : store :=
  started each_plan_json each_policy
    [pending_row 1%N "fetch" s_fetch (Some 7%N); pending_row 2%N "other" (plan_step_of "other" StepType.TOOL [] PlanOnError.CONTINUE (tool_conf 7%N [])) (Some 7%N)].
Local Abbreviation reserve_pair := (commit (reserve_tool_wave 10 pair_dag) pair_store).
Lemma pair_rows_ok : rows_ok pair_store.
Proof. apply rows_ok_bool_sound. vm_compute. reflexivity. Qed.
Lemma pair_reserved : ∃ st', reserve_pair = Ok (st', ([1%N], [1%N])).
Proof.
  assert (snd <$> reserve_pair = Ok ([1%N], [1%N])) as H by (vm_compute; reflexivity).
  destruct reserve_pair as [[st' o]|]; [|discriminate H]. injection H as ->. by exists st'.
Qed.
Lemma pair_keys : NoDup (ordered_step_keys pair_dag).
Proof. apply (bool_decide_eq_true (NoDup (ordered_step_keys pair_dag))). vm_compute. reflexivity. Qed.


(** ** Settled waves *)
Definition after_fetch (status : step_status) : store := (tools_end status no_flags [1%N] each_store).1.
Definition fetch_wave (status : step_status) : list (uuid * tool_run_outcome) :=
  [(1%N, (tools_end status no_flags [1%N] each_store).2 1%N)].
Local Abbreviation settle_fetch status :=
  (commit (settle_wave sample_catalog "w1" 51%N (λ i, N.of_nat (1000 + i)) 900%N 12 (fetch_wave status) ["fetch"]) (after_fetch status)).
Lemma after_fetch_rows_ok status : rows_ok (after_fetch status).
Proof. apply rows_ok_bool_sound. destruct status; vm_compute; reflexivity. Qed.
Lemma fetch_settled status :
  status ∈ [StepStatus.UNKNOWN_OUTCOME; StepStatus.SUCCEEDED] → ∃ st' o, settle_fetch status = Ok (st', o).
Proof.
  intros Hs. assert ((match settle_fetch status with Ok _ => true | Err _ => false end) = true) as H.
  { apply elem_of_cons in Hs as [->|Hs2%list_elem_of_singleton]; [|subst status]; vm_compute; reflexivity. }
  destruct (settle_fetch status) as [[st' o]|]; [|discriminate H]. by exists st', o.
Qed.



(** ** A run of one wave *)
Lemma tools_end_keep status at_ : tools_keep (wave status at_).
Proof.
  intros flags ids st [Hwf Hk]. cbn [wave wi_tools tools_end fst].
  assert (∀ s, (es_id (ended_tool status s), es_execution_id (ended_tool status s)) = (es_id s, es_execution_id s)
               ∧ es_step_key (ended_tool status s) = es_step_key s) as Hids.
  { intros s. unfold ended_tool. by case_match. }
  split.
  - split.
    + eapply same_keys_wf; [|exact Hwf]. split_and!; [done| |done|done]. apply upd_where_proj. intros s. apply Hids.
    + cbn [st_steps set_st_steps]. rewrite upd_where_proj; [done|]. intros s. apply Hids.
  - intros s [Ht Hs]%list_elem_of_filter. cbn [st_steps set_st_steps]. apply elem_of_upd_where. exists s.
    split; [done|]. case_decide; [|done]. unfold ended_tool. by rewrite Ht.
Qed.
Local Abbreviation run_each := (run sample_catalog "w1" 51%N [wave StepStatus.SUCCEEDED 10] None each_store).
Lemma each_ran : ∃ st' r, run_each = Ok (st', r).
Proof.
  assert ((match run_each with Ok _ => true | Err _ => false end) = true) as H by (vm_compute; reflexivity).
  destruct run_each as [[st' r]|]; [|discriminate H]. by exists st', r.
Qed.
Lemma each_tools_keep : Forall tools_keep [wave StepStatus.SUCCEEDED 10].
Proof. apply Forall_singleton, tools_end_keep. Qed.

Lemma run_keeps_settled_witness :
  ∃ st' r, run_each = Ok (st', r) ∧ rows_ok st' ∧
    ∀ s, s ∈ st_steps each_store → is_terminal_step_status (es_status s) = true → s ∈ st_steps st'.
Proof.
  destruct each_ran as (st' & r & E). exists st', r. split; [exact E|].
  exact (run_keeps_settled sample_catalog "w1" 51%N _ None each_store st' r each_rows_ok each_tools_keep E).
Defined.

(** * Concrete instances of the LOOP and lineage properties

    A WHILE LOOP and a FOR_EACH LOOP at the start of their first iteration, and
    a TOOL whose call is in flight. *)


Definition ok_or {A} (d : A) (r : res A) : A := match r with Ok a => a | Err _ => d end.
Definition plan_or_sample (v : json) : plan := match validate_plan v with Some p => p | None => sample_plan end.
Definition config_or (ps : plan_step) : loop_config :=
  match validate_loop_config (ps_config ps) with
  | Some cfg => cfg
  | None => LoopStepConfigV1 LoopMode.WHILE 0 [] None None
  end.

(** ** A WHILE LOOP *)
Definition while_json : json := plan_json (workflow_source 5%N) [s_fetch; s_loop; s_body].
Definition while_plan : plan := plan_or_sample while_json.
Definition while_execution : execution := execution_of while_json WORKFLOW_VERSION ExecutionStatus.RUNNING JNull.
Definition running_while : execution_step := row 2%N "loop" s_loop None None None StepStatus.RUNNING JNull JNull.
Definition while_rows : list execution_step := [r_fetch; running_while].
Definition while_config : loop_config := config_or s_loop.
Definition while_opened : execution_step :=
  (ok_or (running_while, false) (evaluate_while_gate while_execution running_while while_plan while_config while_rows 1)).1.
Definition new_row (i : nat) : uuid := (61 + N.of_nat i)%N.
Definition while_new : list execution_step :=
  (ok_or ([], []) (materialize_iteration new_row while_execution running_while while_plan while_config 1 while_rows)).1.

Lemma while_of_plan : loop_of_plan while_execution while_plan running_while s_loop while_config while_rows.
Proof.
  split; try by_decision; try by_computation.
  - intros ps Hps. assert (pl_steps while_plan = [s_fetch; s_loop; s_body]) as E by by_computation.
    rewrite E in Hps. repeat (apply elem_of_cons in Hps as [->|Hps]; [split; by_computation|]). by apply elem_of_nil in Hps.
  - right; left.
  - split_and!; [right; left|by_computation|by_computation].
  - split; by_computation.
Qed.

Lemma while_gate_revalidates_witness :
  evaluate_while_gate while_execution running_while while_plan while_config while_rows 1 = Ok (while_opened, true) ∧
  revalidate_while_predicate_gate while_execution while_opened while_plan
    (replace_row while_opened while_rows ++ while_new) 1 = Ok tt.
Proof.
  assert (evaluate_while_gate while_execution running_while while_plan while_config while_rows 1
    = Ok (while_opened, true)) as H by by_computation.
  split; [exact H|].
  apply (while_gate_revalidates while_execution running_while while_opened while_plan while_config while_rows while_new 1 H).
  - right; left.
  - reflexivity.
  - by_decision.
  - by_decision.
  - intros s Hs. assert (while_new = [hd running_while while_new]) as E by by_computation.
    rewrite E in Hs. apply list_elem_of_singleton in Hs as ->. split; by_computation.
  - by_computation.
  - lia.
Defined.

Lemma materialize_iteration_spec_witness :
  length while_new = 1 ∧
  materialize_iteration (λ _, 99%N) while_execution running_while while_plan while_config 1 (while_rows ++ while_new)
    = Ok ([], while_new).
Proof.
  destruct (materialize_iteration_spec new_row while_execution running_while while_plan while_config 1 while_rows
              while_new while_new) as (_ & _ & _ & H).
  - by_decision.
  - by_computation.
  - split; [by_computation|]. apply H.
Defined.

Lemma fresh_body_tool_lineage_witness :
  ∃ lin, assert_tool_step_lineage while_execution (hd running_while while_new)
    (Some (replace_row while_opened while_rows ++ while_new)) = Ok lin ∧ tl_plan lin = while_plan.
Proof.
  destruct (fresh_body_tool_lineage new_row while_execution while_plan
              (ok_or (LoopBodyOwnership [] []) (build_loop_body_ownership while_plan)) running_while while_opened s_loop
              while_config 1 while_rows while_new while_new (hd running_while while_new))
    as (lin & template & tool & H & _ & _ & _ & Hp & _).
  - exact while_of_plan.
  - by_computation.
  - split; [by_computation|lia].
  - by_computation.
  - by_decision.
  - by_decision.
  - vm_compute; left.
  - by_computation.
  - exists lin. split; [exact H|exact Hp].
Defined.

(** ** A FOR_EACH LOOP *)
Definition s_each : plan_step :=
  plan_step_of "each" StepType.LOOP [] PlanOnError.FAIL_EXECUTION
    [("mode", JStr "FOR_EACH"); ("max_iterations", JInt 3); ("body_step_ids", JArr [JStr "item"]);
     ("collection", literal (JArr [JInt 4; JInt 6]))].
Definition s_item : plan_step :=
  plan_step_of "item" StepType.TOOL ["each"] PlanOnError.FAIL_EXECUTION (tool_conf 8%N []).
Definition each_json : json := plan_json (workflow_source 5%N) [s_each; s_item].
Definition each_plan : plan := plan_or_sample each_json.
Definition each_execution : execution := execution_of each_json WORKFLOW_VERSION ExecutionStatus.RUNNING JNull.
Definition each_config : loop_config := config_or s_each.
Definition running_each : execution_step :=
  ok_or r_fetch (pin_collection_evidence (row 2%N "each" s_each None None None StepStatus.RUNNING JNull JNull)
                   [JInt 4; JInt 6]).
Definition each_pin : foreach_pin := ok_or (ForeachPin "" 0) (parse_foreach_collection_pin (es_resolved_input running_each)).

Lemma foreach_budget_invariant_witness :
  collection_size each_pin = 2%Z ∧
  match materialize_iteration new_row each_execution running_each each_plan each_config 1 [running_each] with
  | Ok (ins, _) => assert_global_expanded_max_steps each_plan ([running_each] ++ ins) = Ok tt
  | Err err => ∀ m, err ≠ plan_limit_exceeded m
  end.
Proof.
  split; [by_computation|].
  apply (foreach_budget_invariant new_row each_execution running_each each_plan each_config each_pin 1 [running_each]).
  - by_computation.
  - left.
  - by_decision.
  - split_and!; by_computation.
  - by_decision.
Defined.

Example foreach_first_iteration :
  match materialize_iteration new_row each_execution running_each each_plan each_config 1 [running_each] with
  | Ok (ins, _) => length ins
  | Err _ => 0
  end = 1.
Proof. by_computation. Qed.

(** ** A TOOL whose call is in flight *)
Definition tool_execution : execution := runtime_execution WORKFLOW_VERSION ExecutionStatus.RUNNING (JObj workflow_policy).
Definition started_row : execution_step :=
  tool_row StepStatus.RUNNING |> set_es_attempt_count 1 |> set_es_resolved_input (JObj []).
Definition started_lineage : tool_step_lineage :=
  ok_or (ToolStepLineage 0%N [] tool_plan s_tool false) (assert_tool_step_lineage tool_execution started_row None).
Definition resumed_attempt : step_attempt :=
  {| sa_id := 21%N; sa_step_execution_id := 1%N; sa_attempt_no := 1; sa_status := AttemptStatus.STARTED;
     sa_worker_id := Some "w1"; sa_lease_expires_at := Some 50%Z; sa_idempotency_key := "k";
     sa_request_snapshot := ok_or JNull (build_secret_safe_request_snapshot 7%N "tool_1" [] (JObj []));
     sa_result_inline := JNull; sa_error_layer := None; sa_error_code := None; sa_error_message := None;
     sa_is_retryable := None; sa_started_at := 2; sa_finished_at := None |}.

Lemma resume_lineage_sound_witness :
  assert_resume_attempt_lineage tool_execution started_row resumed_attempt [started_row] (Some "w1") = Ok started_lineage ∧
  tool_of_plan tool_execution started_row started_lineage.
Proof.
  assert (assert_resume_attempt_lineage tool_execution started_row resumed_attempt [started_row] (Some "w1")
    = Ok started_lineage) as H by by_computation.
  split; [exact H|].
  apply (resume_lineage_sound tool_execution started_row resumed_attempt [started_row] (Some "w1") started_lineage H).
Defined.

(** A changed binding, another worker and a finished attempt are refused. *)
Example resume_refuses :
  assert_resume_attempt_lineage tool_execution (set_es_resolved_input (JObj [("x", JInt 1)]) started_row)
    resumed_attempt [started_row] (Some "w1")
  = Err (conflict "Step.resolved_input does not match deterministic Binding resolution (retry drift).") ∧
  assert_resume_attempt_lineage tool_execution started_row resumed_attempt [started_row] (Some "w2")
  = Err (conflict "RUNNING Step Attempt worker mismatch.").
Proof. split; by_computation. Qed.
