(* ===== verification/ServiceWitnesses.v ===== *)
(** The theorems about approval, messages, authorization and tool calls, at
    concrete inputs. *)
From S2P Require Import Prelude PyStr PyDict Json PyUuid CanonicalHash Domain SchemaExample LoopRuntime Rows.
From S2P Require Import Cancellation PolicySelection RetryDecision Claim Preflight Authorization ApprovalContext Outbox.
From S2P Require Import OutboxSound ApprovalEvidence Approval ApprovalSound ApprovalResume ApprovalEvidenceSound.
From S2P Require Import RecoverySound ResultValidator SecretRedaction ToolRunner ToolPrepare ToolFinalize.
From S2P Require Import ToolPrepareSound ToolRunSound ToolInvariant ToolFinalizeSound Samples.

(** * Concrete instances of the service properties

    Each property of the outbox, authorization and approval files with a
    hypothesis, applied to the rows of Samples.v. *)



Lemma publish_batch_spec_witness :
  ∃ handled rest, claim_unpublished_batch 10 (qd_outbox staged_queue) = handled ++ rest ∧ rest = [] ∧
    rl_sent (publish_batch (λ _, Ok tt) 10 6 (qd_outbox staged_queue)).1 = [PublishExecution 100%N 1100%N].
Proof.
  destruct (publish_batch_spec (λ _, Ok tt) 10 6 (qd_outbox staged_queue)) as (handled & rest & H1 & H2 & H3).
  - by_decision.
  - vm_compute. split; discriminate.
  - exists handled, rest. split; [exact H1|]. split; [|by_computation].
    destruct (publish_batch (λ _, Ok tt) 10 6 (qd_outbox staged_queue)).2 eqn:E; [vm_compute in E; discriminate E|exact H3].
Defined.



(** ** Approval *)
Lemma wait_step : approval_step wait_db waiting_db.
Proof.
  apply (step_wait_tool 201%N None sample_tool_policy sample_approval_policy (Some []) 10 ready_row wait_db entered.1 entered.2).
  - by_decision.
  - by_computation.
Qed.

Lemma approval_refines_ballot_witness :
  NoDup (ar_id <$> st_approvals (db_store waiting_db)) ∧ rtc ballot_step (ballot_of waiting_db) (ballot_of voted_once).
Proof.
  split; [by_decision|]. apply (approval_refines_ballot waiting_db voted_once).
  - by_decision.
  - exact (step_decide sample_catalog sample_directory 301%N 401%N 201%N 71%N APPROVE None 20 waiting_db).
Defined.

(** The request as the second vote leaves it *)
Definition approved_row : approval_request :=
  resolve_row ApprovalStatus.APPROVED 30
    (match st_approvals entered.1 with [r] => r | _ => create_pending 0%N (st_execution ready_store) ready_row sample_approval_policy [] "" 0 end).

Lemma approved_only_with_quorum_witness :
  ∃ approvers, NoDup approvers ∧ (2 ≤ Z.of_nat (length approvers))%Z ∧
    ∀ a, a ∈ approvers → ∃ v, v ∈ db_decisions voted_twice ∧ ad_decided_by v = a.
Proof.
  destruct (approved_only_with_quorum wait_db voted_twice approved_row) as (l & Hnd & Hn & _ & Hv & _).
  - reflexivity.
  - reflexivity.
  - apply (rtc_l _ _ waiting_db); [exact wait_step|]. apply (rtc_l _ _ voted_once).
    { exact (step_decide sample_catalog sample_directory 301%N 401%N 201%N 71%N APPROVE None 20 waiting_db). }
    apply rtc_once. exact (step_decide sample_catalog sample_directory 302%N 402%N 201%N 72%N APPROVE None 30 voted_once).
  - assert (st_approvals (db_store voted_twice) = [approved_row]) as -> by by_computation. left.
  - by_computation.
  - exists l. split; [exact Hnd|]. split; [exact Hn|]. intros a Ha. destruct (Hv a Ha) as (v & H1 & _ & H2 & _).
    exists v. exact (conj H1 H2).
Defined.

(** Resumed: the execution RUNNING again, the step READY *)
Definition resumed_store : store :=
  db_store voted_twice |> upd_execution (set_ex_status ExecutionStatus.RUNNING)
                       |> upd_step 1%N (set_es_status StepStatus.READY).
Definition resumed_row : execution_step := match st_steps resumed_store with [s] => s | _ => ready_row end.

Lemma approved_wait_is_evidence_witness :
  ∃ ev, require_valid_approved_evidence sample_catalog resumed_store resumed_row sample_tool_policy sample_approval_policy
          = Ok ev ∧ ar_id (ae_request ev) = 201%N.
Proof.
  apply (approved_wait_is_evidence sample_catalog 201%N None sample_tool_policy sample_approval_policy [] 10 ready_row
           ready_store entered.1 entered.2 resumed_store resumed_row s_tool 7%N (Some []) 30).
  - by_computation.
  - by_computation.
  - vm_compute. discriminate.
  - split; [vm_compute; reflexivity..| | |].
    + intros tv H. vm_compute in H. injection H as <-. vm_compute. reflexivity.
    + intros a H. vm_compute in H. discriminate H.
    + intros w H. vm_compute in H. injection H as <-. vm_compute. reflexivity.
  - by_decision.
  - intros r Hr. vm_compute in Hr. exfalso. exact (not_elem_of_nil r Hr).
  - by_computation.
  - split; by_computation.
  - by_computation.
  - by_computation.
  - by_computation.
  - by_computation.
Defined.

(** ** Where the code departs from its own rules *)
(** A manual test of a tool that needs approval waits for ever: no vote on its
    request can be recorded. *)
Definition manual_store : store :=
  Store (let e := execution_of tool_plan_json MANUAL_TOOL_TEST ExecutionStatus.RUNNING (JObj workflow_policy) in
         {| ex_id := ex_id e; ex_source_type := ex_source_type e; ex_trigger_type := ex_trigger_type e;
            ex_requester_id := ex_requester_id e; ex_agent_request_id := None; ex_agent_version_id := None;
            ex_workflow_version_id := None; ex_schedule_occurrence_id := None; ex_parent_execution_id := None;
            ex_plan_validation_run_id := None; ex_status := ex_status e; ex_plan_schema_version := "1.0";
            ex_plan_snapshot := ex_plan_snapshot e; ex_plan_hash := ex_plan_hash e; ex_input_snapshot := JObj [];
            ex_policy_snapshot := ex_policy_snapshot e; ex_result_summary := JNull; ex_error_code := None;
            ex_error_message := None; ex_trace_id := None; ex_priority := None; ex_requested_at := 0;
            ex_queued_at := Some 1%Z; ex_started_at := None; ex_finished_at := None; ex_cancel_requested_at := None;
            ex_cancel_requested_by := None; ex_cancel_reason := None; ex_worker_id := None; ex_lease_token := None;
            ex_lease_expires_at := None; ex_heartbeat_at := None; ex_lock_version := 1; ex_retention_until := None |})
    [ready_row] [] [] [] [] [].
Definition manual_entered : store * approval_wait_outcome :=
  ok_or (manual_store, no_outcome)
    (enter_for_tool_step 201%N None sample_tool_policy sample_approval_policy (Some []) 10 ready_row manual_store).

Example manual_test_never_decided :
  ex_status (st_execution manual_entered.1) = ExecutionStatus.WAITING_APPROVAL ∧
  (vote 301%N 71%N 20 (with_store (λ _, manual_entered.1) wait_db)).2
    = Err (conflict "ApprovalRequest context_snapshot requires agent_version_id or workflow_version_id + source_type.").
Proof. vm_compute. split; reflexivity. Qed.

(** A vote on an expired request ends the execution whatever its state: here one
    that had already SUCCEEDED. *)
Definition finished_db : approval_db :=
  with_store (upd_execution (set_ex_status ExecutionStatus.SUCCEEDED)) waiting_db.
Example late_vote_overwrites_finished :
  ex_status (st_execution (db_store finished_db)) = ExecutionStatus.SUCCEEDED ∧
  ex_status (st_execution (db_store (vote 301%N 71%N 9999999999 finished_db).1)) = ExecutionStatus.FAILED ∧
  ex_status (st_execution (expire_one 9999999999 (db_store finished_db) 201%N).1) = ExecutionStatus.SUCCEEDED.
Proof. vm_compute. repeat split. Qed.

(** * Concrete instances of the tool runner's properties

    Each property of the approval resume and of the tool runner with a
    hypothesis, applied to the rows of Samples.v. *)


(** ** Calls *)
Lemma read_prepared : prepare read_catalog (run_args 400 100) 100%N 1%N read_store = Ok (prepared_store, Prepared sample_call).
Proof. by_computation. Qed.

Lemma prepared_call_spec_witness :
  ex_id (st_execution read_store) = 100%N ∧
  ∃ rows, call_prepared read_catalog (run_args 400 100) 1%N read_store prepared_store rows sample_call.
Proof. apply (prepared_call_spec read_catalog (run_args 400 100) 100%N 1%N). apply read_prepared. Defined.

(** ** Runs *)
Lemma quiet_keep step_id : Forall (others_keep step_id) read_rounds.
Proof. do 3 (apply Forall_cons; split; [intros st; split_and!; reflexivity|]). apply Forall_nil. exact I. Qed.
Lemma quiet_leave step_id : Forall (others_leave step_id) read_rounds.
Proof.
  do 3 (apply Forall_cons; split; [intros st; split_and!; apply settles_leaves; reflexivity|]). apply Forall_nil. exact I.
Qed.

Lemma read_run_sent : length (tn_sent read_run) = 2%nat.
Proof. by_computation. Qed.
Lemma read_run_first : ∃ sn, sn ∈ tn_sent read_run.
Proof. pose proof read_run_sent as H. destruct (tn_sent read_run) as [|sn rest]; [discriminate H|]. exists sn. left. Qed.
Lemma read_run_attempts : attempts_pinned 1%N read_store = 3%Z.
Proof. by_computation. Qed.
Lemma read_run_next : next_attempt_of 1%N read_store = 1%Z.
Proof. by_computation. Qed.

Lemma sent_calls_checked_witness :
  ∃ sn, sn ∈ tn_sent read_run ∧ ∃ rd st0, rd ∈ read_rounds ∧ passed_gate 100%N 1%N rd st0 sn.
Proof.
  destruct read_run_first as [sn Hin]. exists sn. split; [exact Hin|].
  exact (sent_calls_checked 100%N 1%N read_rounds read_store sn Hin).
Defined.


Lemma run_ends_witness : ∃ result, tn_result read_run = Some result.
Proof.
  apply (run_ends 100%N 1%N read_rounds read_store (quiet_keep 1%N)); [rewrite read_run_next|rewrite read_run_attempts]; simpl; lia.
Defined.

Lemma read_rows : rows_in_flight read_store.
Proof.
  split; [apply store_wf_bool_sound; by_computation|intros c a []%elem_of_nil|intros c c' []%elem_of_nil].
Qed.
Lemma run_keeps_rows_witness : rows_in_flight (tn_store read_run) ∧ length (st_calls (tn_store read_run)) = 2%nat.
Proof.
  split; [|by_computation]. exact (run_keeps_rows 100%N 1%N read_rounds read_store (quiet_leave 1%N) read_rows).
Defined.

(** ** Replies *)
Definition cats : normalized_tool_result := NormalizedToolResult true false [JStr "two cats"] JNull [] 40 12 None.

Lemma cats_settle : ∃ st' o, finalize_locked sample_call (CallReturned cats) JNull None 65536 [] 102 prepared_store = Ok (st', o) ∧
  tr_disposition o = Disposition.SUCCESS.
Proof.
  assert (match finalize_locked sample_call (CallReturned cats) JNull None 65536 [] 102 prepared_store with
          | Ok (_, o) => tr_disposition o = Disposition.SUCCESS | Err _ => False end) as H by by_computation.
  destruct (finalize_locked _ _ _ _ _ _ _ _) as [[st' o]|e]; [by exists st', o|done].
Qed.

Lemma finalize_call_spec_witness :
  ∃ st' o, finalize_locked sample_call (CallReturned cats) JNull None 65536 [] 102 prepared_store = Ok (st', o) ∧
    lease_of_prepared sample_call 102 (st_execution prepared_store) = true ∧ tr_disposition o = Disposition.SUCCESS.
Proof.
  destruct cats_settle as (st' & o & E & Ho). exists st', o. split; [exact E|]. split; [|exact Ho].
  exact (proj1 (finalize_call_spec sample_call (CallReturned cats) JNull None 65536 [] 102 prepared_store st' o E)).
Defined.

Lemma echo_settles : ∃ st' o,
  finalize_reply sample_call 405%N (answer_with "token s3cret!") 65536 ["s3cret"] 102 prepared_store = Ok (st', o) ∧
  es_status <$> st_steps st' = [StepStatus.SUCCEEDED].
Proof.
  assert (match finalize_reply sample_call 405%N (answer_with "token s3cret!") 65536 ["s3cret"] 102 prepared_store with
          | Ok (st', _) => es_status <$> st_steps st' = [StepStatus.SUCCEEDED] | Err _ => False end) as H by by_computation.
  destruct (finalize_reply _ _ _ _ _ _ _) as [[st' o]|e]; [by exists st', o|done].
Qed.


(** ** Approval *)
Lemma live_approved_claim : ∃ st' o, claim_approval_resume approval_catalog 60 53%N 100%N 201%N "w2" 40 (db_store live_approved) = Ok (st', o) ∧
  rc_claimed o = true.
Proof.
  assert (match claim_approval_resume approval_catalog 60 53%N 100%N 201%N "w2" 40 (db_store live_approved) with
          | Ok (_, o) => rc_claimed o = true | Err _ => False end) as H by by_computation.
  destruct (claim_approval_resume _ _ _ _ _ _ _ _) as [[st' o]|e]; [by exists st', o|done].
Qed.

(** A wait, two votes, and the claim that resumes the execution *)
Lemma live_wait_step : approval_step live_start live_waiting.
Proof.
  apply (step_wait_tool 201%N None sample_tool_policy sample_approval_policy (Some []) 10
           (set_es_resolved_input (JObj []) (tool_row StepStatus.READY)) live_start live_wait.1 live_wait.2).
  - by_decision.
  - by_computation.
Qed.
Lemma live_votes : rtc approval_step live_start live_approved.
Proof.
  apply (rtc_l _ _ live_waiting); [exact live_wait_step|]. apply (rtc_l _ _ live_once).
  { exact (step_decide approval_catalog sample_directory 301%N 401%N 201%N 71%N APPROVE None 20 live_waiting). }
  apply rtc_once. exact (step_decide approval_catalog sample_directory 302%N 402%N 201%N 72%N APPROVE None 30 live_once).
Qed.

Lemma resumed_only_with_quorum_witness :
  ∃ r st', get_request 201%N (db_store live_approved) = Some r ∧ quorum_met r (db_decisions live_approved) ∧
    fresh_claim_made approval_catalog 60 53%N 201%N "w2" 40 (db_store live_approved) st'.
Proof.
  destruct live_approved_claim as (st' & o & E & Ho).
  destruct (resumed_only_with_quorum approval_catalog 60 53%N 100%N 201%N "w2" 40 live_start live_approved st' o)
    as (worker & r & Hw & Hr & Hq & Hf).
  - reflexivity.
  - reflexivity.
  - exact live_votes.
  - exact E.
  - exact Ho.
  - exists r, st'. split; [exact Hr|]. split; [exact Hq|].
    replace "w2" with worker; [exact Hf|]. vm_compute in Hw. injection Hw as <-. reflexivity.
Defined.
